(* ===== verification/_CoqProject ===== *)
-Q . S2P
Prelude.v
Text.v
PathPatterns.v
PyFloat.v
CanonicalJson.v
Hashing.v
JsonLoads.v
JsonNumbers.v
JsonText.v
JsonRoundtrip.v
Contract.v
RepoContext.v
Planning.v
ImpactFacts.v
PlannerFacts.v
Planner.v
Advice.v
Verification.v
VerificationFacts.v
ConfigControl.v
ContextInputs.v
Rollback.v
RollbackFacts.v
PlannerAdmitted.v
Verifier.v
VerifierFacts.v
VerifierTotal.v
Scenario.v
EpochScenario.v
Admission.v
Instants.v
IsoTime.v
Reconciliation.v
ReconciliationFacts.v
Convergence.v
ConvergenceFacts.v
ReconciliationScenario.v
RunnerCapacity.v
CapacityFacts.v
CapacityBudgets.v
CapacityChoice.v
CapacityScenario.v
AuditEvents.v
AuditChain.v
AuditFacts.v
AuditChainFacts.v
AuditLedger.v
AuditPages.v
AuditCheckpoint.v
AuditScenario.v
AuditRepository.v
AuditRepositoryFacts.v
AuditStore.v
TableFacts.v
StoreScenario.v
ConfigEpochs.v
ConfigEpochStore.v
ConfigEpochFacts.v
ConfigEpochSteps.v
ConfigEpochReplay.v
ConfigEpochHistory.v
ConfigManagement.v
ConfigManagementFacts.v
ConfigEpochScenario.v
OverrideControls.v
CanonicalRows.v
OverrideStore.v
OverrideRows.v
OverrideFacts.v
OverrideSteps.v
OverrideManagement.v
OverrideHistory.v
OverrideResolution.v
OverrideReplay.v
OverrideUse.v
OverrideScenario.v
