(* ===== verification/Prelude.v ===== *)
(** * Verification of the CI coordinator

    The coordinator decides, for one change of a repository, which validation
    obligations must run and which may be left out.  Its decision path is
    under [src/backend/src/ci_coordinator]:

    - [repo_context] turns provider data into a planning input: the diff, the
      dependency graph and the policy, each with the reasons that forbid
      leaving anything out;
    - [planning_core] computes a deterministic plan: impact analysis over the
      graph, an omission proof per obligation, witness closure, and the full
      catalog at full depth when anything is missing;
    - [agent_risk_advice] admits or refuses advice of a model on a plan;
    - [verification_core] admits a plan without trusting the planner, applies
      advice, and produces the verified plan that is executed;
    - [validation_contract] is the catalog of obligations and witnesses all of
      them refer to, and [kernel] holds canonical JSON, hashes, path patterns
      and capacity admission.

    ** Files

    - [Prelude]: Python strings, exceptions and the error monad, sorting,
      dictionaries built from lists, tactics and hints.
    - [Text]: [str] methods and encodings used by the sources,
      [kernel/ordering.py].
    - [PathPatterns]: [kernel/path_patterns.py], [kernel/git_reference.py].
    - [PyFloat]: Python numbers and the decimal text of floats.
    - [CanonicalJson]: [kernel/canonical_json.py], [kernel/result.py].
    - [Hashing]: [kernel/hashing.py]; the digest is the class [Sha256], with
      FIPS 180-4 and a checksum for concrete runs as instances.
    - [Contract]: [validation_contract].
    - [RepoContext]: [repo_context/diff_model.py], [diff_builder.py],
      [dependency_graph.py], [planning_input.py].
    - [Planning]: [planning_core], definitions; [ImpactFacts],
      [PlannerFacts], [Planner]: what they compute.
    - [Advice]: [agent_risk_advice].
    - [Verification]: [verification_core/coverage.py], [witnesses.py],
      [deterministic_admission.py]; [VerificationFacts]: their correctness;
      [PlannerAdmitted]: planner against verifier.
    - [Verifier]: [verification_core/model.py], [verifier.py];
      [VerifierFacts], [VerifierTotal]: safety, effect of advice, totality.
    - [Scenario]: one concrete repository, run through every component; the
      theorems applied to it.
    - [Admission]: [kernel/admission.py], with interleaved threads.
    - [JsonLoads]: the standard library's [json.loads]; [JsonNumbers],
      [JsonText]: decimal and binary floats, both ways; [JsonRoundtrip]:
      canonical bytes read back.
    - [Instants]: aware and naive datetimes at microsecond width.
    - [Reconciliation]: [execution_orchestration/provider_signal.py] and, of
      [reconciliation], subjects, contracts, snapshots, the state store, the
      classification of signals and check summaries; [ReconciliationFacts]:
      what classification and the store promise.
    - [Convergence]: [reconciliation/convergence.py], the claims, leases and
      retries of reconciliation; [ConvergenceFacts]: histories of claims.
    - [ReconciliationScenario]: a concrete subject, the theorems applied.
    - [RunnerCapacity]: [runner_capacity/model.py] and [optimizer.py];
      [CapacityFacts]: slot sharing and packing; [CapacityBudgets]: plans stay
      within the free slots; [CapacityChoice]: the plan chosen is the
      cheapest; [CapacityScenario]: a concrete plan.
    - [AuditEvents]: the event side of [audit_replay], from the objects given
      to the checked record and its mapping; [AuditChain]: [chain.py],
      [recorder.py], [replay.py], [ports.py] and [paged_replay.py];
      [AuditCheckpoint]: [checkpoint.py].  [AuditFacts]: what decoding and
      preparation promise; [AuditChainFacts]: linked chains; [AuditLedger]:
      what hashes commit to, appending and tampering; [AuditPages]:
      paged replay; [AuditScenario]: a concrete ledger.
    - [AuditRepository]: the audit tables of [persistence], their constraints,
      the row codec and the repository's statements;
      [AuditRepositoryFacts]: what the columns hold and that rows are read
      back; [AuditStore]: the tables implement the abstract log
      ([stored_append_refines]); [StoreScenario]: a concrete table.
    - [ConfigControl]: the drafts and identities of [config_control] and the
      projection of compiled policy bytes to a planning policy; [Rollback]:
      [planning_core/rollback_coverage.py] and [config_epochs/rollback.py];
      [ContextInputs]: what one change of a repository gives under the policy
      of an epoch, the last step of
      [integrations/github/repository_context.py]; [RollbackFacts]: what an
      admitted rollback promises; [EpochScenario]: two concrete epochs.
    - [ConfigEpochs]: commands, records and prepared events of
      [config_epochs]; [ConfigEpochStore]: the tables and operations of
      [persistence/config_epoch_repository.py].  [ConfigEpochFacts]: the
      invariant of the tables; [ConfigEpochSteps]: activation; and
      [ConfigEpochReplay]: what recognises a repeated command;
      [ConfigEpochHistory]: histories of calls.
    - [ConfigManagement]: [app/config_management.py] and its admission and
      query services as programs of store calls, each call one transaction
      with the faults of its commit; [ConfigManagementFacts]: their
      executions among other clients; [ConfigEpochScenario]: a concrete
      history.
    - [IsoTime]: [datetime] values with their offset and [isoformat], read
      back; [TableFacts]: what the tables of the ledger promise to the
      components that append to it.
    - [OverrideControls]: the commands, authorization and resolution of
      [operator_controls] and [app/override_resolution.py]; [CanonicalRows]:
      [persistence/canonical_row.py]; [OverrideStore]: the table of operator
      overrides, its codec and its repository; [OverrideManagement]:
      [DurableOperatorOverrideStore] and [use_cases.py] as programs of store
      calls.  [OverrideRows]: rows are read back; [OverrideFacts]: the
      invariant of the table; [OverrideSteps]: applying an override;
      [OverrideHistory]: histories; [OverrideResolution]: what planning is
      told; [OverrideReplay]: a stored override can be written again at any
      time; [OverrideUse]: what a command does; [OverrideScenario]: a concrete
      history.

    ** How code becomes definitions

    A dataclass is a record; its [__post_init__] is a function [<name>_check]
    or [<name>_new] that raises what the source raises, in the same order.  A
    function that can raise returns [res].  Strings are lists of code points,
    [dict] is [gmap] where only lookups matter and a list where order does.
    The order of iteration of a [set] is left open where the source iterates
    one: the statements hold for every order.  Loops that are not structural
    take fuel: the graph walks get one unit per changed path and per edge
    (every path is pushed at most once), the JSON writer one per frame; the
    theorems show that the fuel is never exhausted, and [OutOfFuel] is a value
    no component returns.

    ** What is shown

    - The planner omits an obligation exactly when the input justifies it,
      decides every obligation once, closes the witnesses, always returns.
    - The verifier accepts only plans whose omissions it can justify from its
      own derivation, whoever built the plan; it agrees with the planner on
      everything the planner builds, global-risk changes apart; it always
      returns, and its fallback is the planner's.
    - Advice only adds coverage, needs no new execution authority, and its
      exact effect is stated.
    - Impact analysis of both sides is graph reachability; an input without
      fallback reasons comes from complete and trusted data.
    - The JSON writer equals a recursive printer, obeys its byte, depth and
      node limits exactly and does not depend on the order of dictionaries.
    - Path matching decides the language of the pattern.
    - Capacity leases are returned exactly once under every interleaving.
    - Canonical bytes are faithful: they decode to the normal form of the
      value, and equal bytes mean equal normal forms.
    - Reconciliation: the state of a subject is what the contract and the set
      of observations determine, it never goes back as observations
      accumulate, and the store refines an append-only log keyed by id.
    - Convergence: at most one claim is active, older claims are dead, polls
      are bounded in number and time, and a deferred subject is retried.
    - Shard plans: slots are shared fairly and never exceeded, packing puts
      every test in one shard, and no admissible plan is cheaper.
    - Audit ledger: decoding is typed and inverse to encoding, appending is
      idempotent and keeps the chain verified, the head hash commits to every
      record, paged replay is replay, output is only of verified events, and
      a checkpoint's successor continues its chain; the tables implement that
      ledger under every constraint they declare.  What relies on a digest is
      stated for the byte strings hashed in the case at hand, a finite list of
      which no two have one digest ([collision_free]).
    - Rollback: an admitted rollback of a repository's configuration never
      reduces the validation of any later change; that the risk paths and the
      rest of the policy are the same is what its guards establish.
    - Configuration epochs: activation is a compare-and-set of the active
      pointer with one audit event, histories are gapless and linked, an
      operation takes effect once and is recognised when it is repeated.
    - Managing configurations, under any interleaving and commit fault: a
      rollback that takes effect keeps the coverage of the epoch it replaces,
      and an unknown outcome is learned by asking again.
    - Operator controls, under any interleaving and fault: planning leaves
      checks out only when nothing stored forbids it, a disable is latched
      until an enable names it, break-glass actors only add checks, a command
      takes effect once and every answer to it is true.  What others do and
      which faults happen is an [environment], any one or a quiet one.

    ** Not modelled

    The decoder of advice text (the standard library's [json] with hooks) is a
    parameter.  The other tables of [persistence], HTTP, provider clients, process composition,
    YAML parsing and cryptography are I/O or third-party code.  Schemas and
    read models that only move fields, command lines, migrations and the
    frontend are left out.  Of the reconciliation package the asyncio
    scheduler, of runner capacity the evidence codecs, of audit replay the
    admission of signed checkpoint files and the response mappings of reports
    are left out; the
    service's activation of a configuration needs the authority of the
    proposal review, which is not modelled.  The attestation of the
    database catalog is one boolean of the override tables. *)

From stdpp Require Import base gmap sets list sorting strings.
From Stdlib Require Import ZArith Lia.
From Hammer Require Import Tactics.

#[global] Open Scope Z_scope.

(** ** Python strings

    A Python [str] is a sequence of code points; a lone surrogate is a legal
    element.  [u] turns an ASCII literal into such a sequence. *)

Abbreviation pystr := (list Z).

Fixpoint u (s : string) : pystr :=
  match s with
  | String.EmptyString => []
  | String.String a s' => Z.of_N (Ascii.N_of_ascii a) :: u s'
  end.

(** Literals stay folded in goals. *)
#[global] Arguments u : simpl never.

Declare Scope py_scope.
Delimit Scope py_scope with py.

(** ** Exceptions and the error monad

    A function that can raise returns [res]; the exception classes are the ones
    the source raises or catches; [OtherException] is an [Exception] of a class
    that only its own caller tells from the others.  [OutOfFuel] is not a Python exception: it is
    the value of a loop whose fuel is exhausted, and every component proves
    that its loops never produce it. *)

Inductive exn :=
  | ValueError (msg : pystr)
  | TypeError (msg : pystr)
  | KeyError
  | IndexError
  | OverflowError
  | RuntimeError (msg : pystr)
  | UnicodeEncodeError
  | CanonicalJsonError (code path message : pystr) (pointer : option pystr)
      (limit observed : option Z)
  | StrictJsonError (msg : pystr)
  | JSONDecodeError
  | UnicodeDecodeError
  | AuditEventError (msg : pystr) (audit_event_id : option pystr)
      (resource_failure : option (pystr * pystr * Z * Z))
  | AssertionError
  | PersistenceInvariantViolation (msg : pystr)
  | StoreUnavailable (msg : pystr)
  | DatabaseCapabilityUnavailable (msg : pystr)
  | CanonicalRowCodecError (msg : pystr)
  | SQLAlchemyError
  | OtherException (class_name : pystr)
  | OutOfFuel.

Inductive res (A : Type) :=
  | Ok (a : A)
  | Raise (e : exn).
Arguments Ok {A} a.
Arguments Raise {A} e.

#[export] Instance exn_eq_dec : EqDecision exn.
Proof. solve_decision. Defined.
#[export] Instance res_eq_dec `{EqDecision A} : EqDecision (res A).
Proof. solve_decision. Defined.

#[export] Instance res_ret : MRet res := @Ok.
#[export] Instance res_bind : MBind res := fun _ _ f m =>
  match m with Ok a => f a | Raise e => Raise e end.
#[export] Instance res_fmap : FMap res := fun _ _ f m =>
  match m with Ok a => Ok (f a) | Raise e => Raise e end.

(** [raise_if b e] is [if b: raise e]. *)
Definition raise_if (b : bool) (e : exn) : res unit := if b then Raise e else Ok tt.

(** [d[k]]: a missing key raises. *)
Definition from_option {A} (e : exn) (o : option A) : res A :=
  match o with Some a => Ok a | None => Raise e end.

(** A generator expression whose body may raise, left to right. *)
Fixpoint mapR {A B} (f : A -> res B) (l : list A) : res (list B) :=
  match l with
  | [] => Ok []
  | x :: l' => y ← f x; ys ← mapR f l'; Ok (y :: ys)
  end.

(** A [for] loop over a list whose body updates a state and may raise. *)
Fixpoint foldR {A S} (f : S -> A -> res S) (s : S) (l : list A) : res S :=
  match l with
  | [] => Ok s
  | x :: l' => s' ← f s x; foldR f s' l'
  end.

Definition is_ok {A} (r : res A) : bool := match r with Ok _ => true | Raise _ => false end.

(** [ValueError] and its subclasses, the classes an [except ValueError] catches. *)
Definition is_value_error (e : exn) : bool :=
  match e with
  | ValueError _ | UnicodeEncodeError | CanonicalJsonError _ _ _ _ _ _ | StrictJsonError _
  | JSONDecodeError | UnicodeDecodeError | AuditEventError _ _ _ | CanonicalRowCodecError _ => true
  | _ => false
  end.

(** Equality of sequences whose elements have a [==] of their own. *)
Fixpoint list_eqb {A} (eqb : A -> A -> bool) (l m : list A) : bool :=
  match l, m with
  | [], [] => true
  | x :: l', y :: m' => eqb x y && list_eqb eqb l' m'
  | _, _ => false
  end.

(** A value and the check its constructor makes. *)
Definition checked {A} (check : A -> res unit) (a : A) : res A := check a ;; Ok a.

(** *** Reasoning about [res] *)

Lemma bind_Ok {A B} (m : res A) (f : A -> res B) b :
  (m ≫= f) = Ok b <-> exists a, m = Ok a /\ f a = Ok b.
Proof. destruct m; simpl; split; naive_solver. Qed.

Lemma fmap_Ok {A B} (m : res A) (f : A -> B) b :
  (f <$> m) = Ok b <-> exists a, m = Ok a /\ b = f a.
Proof. destruct m; simpl; split; naive_solver. Qed.

Lemma checked_Ok {A} (check : A -> res unit) a b : checked check a = Ok b <-> check a = Ok tt /\ b = a.
Proof. unfold checked. rewrite bind_Ok. split; [intros ([] & E & [= <-]); done|]. intros [E ->]. by exists tt. Qed.

Lemma raise_if_Ok b e x : raise_if b e = Ok x <-> b = false.
Proof. destruct b, x; simpl; split; naive_solver. Qed.

Lemma from_option_Ok {A} e (o : option A) a : from_option e o = Ok a <-> o = Some a.
Proof. destruct o; simpl; split; naive_solver. Qed.

Lemma mapR_Ok {A B} (f : A -> res B) l ys :
  mapR f l = Ok ys <-> Forall2 (fun x y => f x = Ok y) l ys.
Proof.
  revert ys; induction l as [|x l IH]; intros ys; simpl.
  - split; [intros [= <-]; constructor | inversion 1; done].
  - rewrite bind_Ok. setoid_rewrite bind_Ok. split.
    + intros (y & Hy & zs & Hzs & [= <-]). constructor; [done|]. by apply IH.
    + inversion 1; subst. eexists; split; [done|]. eexists; split; [by apply IH|done].
Qed.

Lemma mapR_pure {A B} (f : A -> res B) (g : A -> B) l :
  (forall x, x ∈ l -> f x = Ok (g x)) -> mapR f l = Ok (g <$> l).
Proof.
  intros H. apply mapR_Ok. induction l as [|x l IH]; simpl; constructor.
  - apply H. set_solver.
  - apply IH. intros y Hy. apply H. set_solver.
Qed.

Lemma mapR_ext {A B} (f g : A -> res B) l :
  (forall x, x ∈ l -> f x = g x) -> mapR f l = mapR g l.
Proof.
  induction l as [|x l IH]; intros H; simpl; [done|].
  rewrite (H x) by set_solver. rewrite IH by set_solver. done.
Qed.

Lemma mapR_length {A B} (f : A -> res B) l ys : mapR f l = Ok ys -> length ys = length l.
Proof. intros H%mapR_Ok%Forall2_length. done. Qed.

Lemma mapR_elem {A B} (f : A -> res B) l ys x :
  mapR f l = Ok ys -> x ∈ l -> exists y, f x = Ok y /\ y ∈ ys.
Proof.
  intros Hall%mapR_Ok [i Hi]%list_elem_of_lookup.
  destruct (Forall2_lookup_l _ _ _ _ _ Hall Hi) as (y & Hy & Hf). exists y. split; [done|].
  by eapply list_elem_of_lookup_2.
Qed.

Lemma mapR_elem_inv {A B} (f : A -> res B) l ys y :
  mapR f l = Ok ys -> y ∈ ys -> exists x, f x = Ok y /\ x ∈ l.
Proof.
  intros Hall%mapR_Ok [i Hi]%list_elem_of_lookup.
  destruct (Forall2_lookup_r _ _ _ _ _ Hall Hi) as (x & Hx & Hf). exists x. split; [done|].
  by eapply list_elem_of_lookup_2.
Qed.

Lemma mapR_total {A B} (f : A -> res B) l :
  (forall x, x ∈ l -> exists y, f x = Ok y) -> exists ys, mapR f l = Ok ys.
Proof.
  induction l as [|x l IH]; intros H; simpl; [eauto|].
  destruct (H x ltac:(set_solver)) as [y ->]. simpl.
  destruct IH as [ys ->]; [set_solver|]. simpl. eauto.
Qed.

Lemma foldR_app {A S} (f : S -> A -> res S) s l1 l2 :
  foldR f s (l1 ++ l2) = s' ← foldR f s l1; foldR f s' l2.
Proof.
  revert s; induction l1 as [|x l1 IH]; intros s; simpl; [done|].
  destruct (f s x); simpl; [apply IH|done].
Qed.

(** Invariant rule for a [for] loop that raises. *)
Lemma foldR_inv {A S} (f : S -> A -> res S) (P : list A -> S -> Prop) l s s' :
  P [] s ->
  (forall pre x s1 s2, P pre s1 -> x ∈ l -> f s1 x = Ok s2 -> P (pre ++ [x]) s2) ->
  foldR f s l = Ok s' -> P l s'.
Proof.
  intros H0 Hstep.
  cut (forall pre todo s1, l = pre ++ todo -> P pre s1 -> foldR f s1 todo = Ok s' -> P l s').
  { intros H. by apply (H [] l s). }
  intros pre todo. revert pre. induction todo as [|x todo IH]; intros pre s1 El HP; simpl.
  - intros [= <-]. by rewrite El, app_nil_r.
  - rewrite bind_Ok. intros (s2 & Hx & Hrest).
    apply (IH (pre ++ [x]) s2); [by rewrite El, <-app_assoc| |done].
    apply (Hstep _ _ s1); [done| |done]. rewrite El. set_solver.
Qed.

(** Totality rule for a [for] loop. *)
Lemma foldR_total {A S} (f : S -> A -> res S) (P : list A -> S -> Prop) l s :
  P [] s ->
  (forall pre x s1, P pre s1 -> (exists todo, l = pre ++ x :: todo) ->
     exists s2, f s1 x = Ok s2 /\ P (pre ++ [x]) s2) ->
  exists s', foldR f s l = Ok s' /\ P l s'.
Proof.
  intros H0 Hstep.
  cut (forall pre todo s1, l = pre ++ todo -> P pre s1 ->
    exists s', foldR f s1 todo = Ok s' /\ P l s').
  { intros H. by apply (H [] l s). }
  intros pre todo. revert pre. induction todo as [|x todo IH]; intros pre s1 El HP; simpl.
  - exists s1. by rewrite El, app_nil_r.
  - destruct (Hstep pre x s1) as (s2 & Hx & HP2); [done|by eexists|].
    rewrite Hx. simpl. apply (IH (pre ++ [x])); [by rewrite El, <-app_assoc|done].
Qed.

(** [inv_res] breaks a hypothesis saying that a computation returned into the
    facts about its steps. *)
Ltac inv_res :=
  repeat match goal with
  | H : (_ ≫= _) = Ok _ |- _ =>
      let x := fresh "r" in apply bind_Ok in H; destruct H as (x & ? & H)
  | H : (_ <$> _) = Ok _ |- _ =>
      let x := fresh "r" in apply fmap_Ok in H; destruct H as (x & ? & H)
  | H : raise_if _ _ = Ok _ |- _ => apply raise_if_Ok in H
  | H : from_option _ _ = Ok _ |- _ => apply from_option_Ok in H
  | H : Ok _ = Ok _ |- _ => injection H as H
  | H : Raise _ = Ok _ |- _ => discriminate H
  | H : Ok _ = Raise _ |- _ => discriminate H
  | H : unit |- _ => destruct H
  end; simplify_eq.

(** [chk] splits the goal that a sequence of checks passes into its checks. *)
Ltac chk := repeat match goal with
  | |- (_ ≫= _) = Ok _ => refine (proj2 (bind_Ok _ _ _) (ex_intro _ tt (conj _ _)))
  end.

(** [bdec] turns the boolean tests of the code into propositions. *)
Lemma negb_false_iff' b : negb b = false <-> b = true.
Proof. destruct b; naive_solver. Qed.

Lemma orb_false_iff' a b : a || b = false <-> a = false /\ b = false.
Proof. destruct a, b; naive_solver. Qed.

Lemma andb_true_iff' a b : a && b = true <-> a = true /\ b = true.
Proof. destruct a, b; naive_solver. Qed.

Ltac bdec :=
  repeat match goal with
  | H : negb _ = false |- _ => apply negb_false_iff' in H
  | H : negb _ = true |- _ => apply Bool.negb_true_iff in H
  | H : _ || _ = false |- _ => apply orb_false_iff' in H; destruct H
  | H : _ && _ = true |- _ => apply andb_true_iff' in H; destruct H
  | H : bool_decide _ = true |- _ => apply bool_decide_eq_true_1 in H
  | H : bool_decide _ = false |- _ => apply bool_decide_eq_false_1 in H
  | H : ¬ (_ ≠ _) |- _ => apply dec_stable in H
  | H : (_ <=? _) = true |- _ => apply Z.leb_le in H
  | H : (_ <=? _) = false |- _ => apply Z.leb_gt in H
  | H : (_ <? _) = true |- _ => apply Z.ltb_lt in H
  | H : (_ <? _) = false |- _ => apply Z.ltb_ge in H
  | H : (_ =? _) = true |- _ => apply Z.eqb_eq in H
  | H : (_ =? _) = false |- _ => apply Z.eqb_neq in H
  end; simplify_eq.

(** ** Sorting

    Python's [sorted] computes every key, then sorts stably by [<=] on keys.
    Insertion from the right with a non-strict test is stable. *)

Section isort.
Context {A : Type} (leb : A -> A -> bool).

Fixpoint sorted_insert (x : A) (l : list A) : list A :=
  match l with
  | [] => [x]
  | y :: l' => if leb x y then x :: l else y :: sorted_insert x l'
  end.

Definition isort (l : list A) : list A := foldr sorted_insert [] l.

Lemma isort_cons x l : isort (x :: l) = sorted_insert x (isort l).
Proof. done. Qed.

Lemma sorted_insert_perm x l : sorted_insert x l ≡ₚ x :: l.
Proof.
  induction l as [|y l IH]; simpl; [done|]. destruct (leb x y); [done|].
  rewrite IH. by constructor.
Qed.

Lemma isort_perm l : isort l ≡ₚ l.
Proof. induction l as [|x l IH]; simpl; [done|]. by rewrite sorted_insert_perm, IH. Qed.

Context (leb_total : forall x y, leb x y = true \/ leb y x = true).
Context (leb_trans : forall x y z, leb x y = true -> leb y z = true -> leb x z = true).

Lemma sorted_insert_sorted x l :
  StronglySorted (fun a b => leb a b = true) l ->
  StronglySorted (fun a b => leb a b = true) (sorted_insert x l).
Proof.
  induction 1 as [|y l Hl IH Hy]; simpl; [by repeat constructor|].
  destruct (leb x y) eqn:E.
  - constructor; [by constructor|]. constructor; [done|].
    eapply Forall_impl; [exact Hy|]. simpl. eauto.
  - constructor; [done|]. rewrite sorted_insert_perm. constructor; [|done].
    destruct (leb_total x y); [congruence|done].
Qed.

Lemma isort_sorted l : StronglySorted (fun a b => leb a b = true) (isort l).
Proof. induction l; simpl; [constructor|]. by apply sorted_insert_sorted. Qed.

(** Sorting a sorted list changes nothing. *)
Lemma isort_id l : StronglySorted (fun a b => leb a b = true) l -> isort l = l.
Proof.
  induction 1 as [|x l Hl IH Hx]; simpl; [done|]. rewrite IH.
  destruct l as [|y l]; simpl; [done|]. inversion Hx; subst. by rewrite H1.
Qed.
End isort.

(** Lexicographic comparison of byte strings, and of any list of integers. *)
Fixpoint lex_leb (a b : list Z) : bool :=
  match a, b with
  | [], _ => true
  | _ :: _, [] => false
  | x :: a', y :: b' => if x <? y then true else if x =? y then lex_leb a' b' else false
  end.

Lemma lex_leb_refl a : lex_leb a a = true.
Proof. induction a; simpl; [done|]. by rewrite Z.ltb_irrefl, Z.eqb_refl. Qed.

Lemma lex_leb_total a b : lex_leb a b = true \/ lex_leb b a = true.
Proof.
  revert b; induction a as [|x a IH]; intros [|y b]; simpl; auto.
  destruct (Z.ltb_spec x y), (Z.ltb_spec y x), (Z.eqb_spec x y), (Z.eqb_spec y x);
    try lia; auto.
Qed.

Lemma lex_leb_trans a b c : lex_leb a b = true -> lex_leb b c = true -> lex_leb a c = true.
Proof.
  revert b c; induction a as [|x a IH]; intros [|y b] [|z c]; simpl; try done.
  destruct (Z.ltb_spec x y), (Z.ltb_spec y z), (Z.ltb_spec x z), (Z.eqb_spec x y),
    (Z.eqb_spec y z), (Z.eqb_spec x z); try lia; try done. apply IH.
Qed.

Lemma lex_leb_antisym a b : lex_leb a b = true -> lex_leb b a = true -> a = b.
Proof.
  revert b; induction a as [|x a IH]; intros [|y b]; simpl; try done.
  destruct (Z.ltb_spec x y), (Z.ltb_spec y x), (Z.eqb_spec x y), (Z.eqb_spec y x);
    try lia; try done.
  intros. f_equal; auto.
Qed.

(** [sorted(l, key=key)] where the key function may raise. *)
Definition py_sorted {A} (key : A -> res (list Z)) (l : list A) : res (list A) :=
  ks ← mapR key l;
  Ok (snd <$> isort (fun p q : list Z * A => lex_leb p.1 q.1) (zip ks l)).

Lemma isort_zip {A} (k : A -> list Z) (l : list A) :
  snd <$> isort (fun p q : list Z * A => lex_leb p.1 q.1) (zip (k <$> l) l) =
  isort (fun a b => lex_leb (k a) (k b)) l.
Proof.
  cut (forall l', Forall (fun p : list Z * A => p.1 = k p.2)
     (isort (fun p q : list Z * A => lex_leb p.1 q.1) (zip (k <$> l') l')) /\
     snd <$> isort (fun p q : list Z * A => lex_leb p.1 q.1) (zip (k <$> l') l') =
     isort (fun a b => lex_leb (k a) (k b)) l').
  { intros H. apply H. }
  induction l' as [|x l' [IHf IH]]; [done|].
  rewrite fmap_cons. cbn [zip_with]. rewrite !isort_cons.
  rewrite <-IH. clear IH. revert IHf.
  generalize (isort (fun p q : list Z * A => lex_leb p.1 q.1) (zip (k <$> l') l')).
  intros m. induction m as [|[ky y] m IH]; simpl; intros Hm.
  - split; [|done]. by constructor.
  - inversion Hm as [|? ? Hy Hm']; simpl in Hy; subst.
    destruct (lex_leb (k x) (k y)); simpl.
    + split; [by repeat constructor|done].
    + destruct (IH Hm') as [IH1 IH2]. split; [by constructor|]. by f_equal.
Qed.

Lemma py_sorted_pure {A} (key : A -> res (list Z)) (k : A -> list Z) (l : list A) :
  (forall x, x ∈ l -> key x = Ok (k x)) ->
  py_sorted key l = Ok (isort (fun a b => lex_leb (k a) (k b)) l).
Proof.
  intros H. unfold py_sorted. rewrite (mapR_pure _ k) by done. simpl. by rewrite isort_zip.
Qed.

Lemma py_sorted_keys {A} (key : A -> res (list Z)) (l r : list A) :
  py_sorted key l = Ok r -> forall x, x ∈ l -> is_Some (match key x with Ok k => Some k | _ => None end).
Proof.
  unfold py_sorted. intros H x Hx. inv_res. apply mapR_Ok in H0.
  apply list_elem_of_lookup in Hx as [i Hi].
  destruct (Forall2_lookup_l _ _ _ _ _ H0 Hi) as (y & _ & ->). eauto.
Qed.

(** A strictly sorted list is determined by its elements. *)
Lemma strictly_sorted_unique {A} (lt : A -> A -> Prop) (l1 l2 : list A) :
  (forall x, ¬ lt x x) -> (forall x y z, lt x y -> lt y z -> lt x z) ->
  StronglySorted lt l1 -> StronglySorted lt l2 ->
  (forall x, x ∈ l1 <-> x ∈ l2) -> l1 = l2.
Proof.
  intros Hirr Htr H1. revert l2. induction H1 as [|x l1 Hl1 IH Hx]; intros l2 H2 Hel.
  - destruct l2 as [|y l2]; [done|]. exfalso. specialize (Hel y). set_solver.
  - destruct H2 as [|y l2 Hl2 Hy]; [exfalso; specialize (Hel x); set_solver|].
    rewrite Forall_forall in Hx, Hy.
    assert (x = y) as ->.
    { assert (x ∈ y :: l2) as [->|?]%elem_of_cons by (apply Hel; set_solver); [done|].
      assert (y ∈ x :: l1) as [->|?]%elem_of_cons by (apply Hel; set_solver); [done|].
      exfalso. apply (Hirr x), (Htr x y x); auto. }
    f_equal. apply IH; [done|]. intros z. split; intros Hz.
    + assert (z ∈ y :: l2) as [->|?]%elem_of_cons by (apply Hel; set_solver); [|done].
      exfalso. by apply (Hirr y), Hx.
    + assert (z ∈ y :: l1) as [->|?]%elem_of_cons by (apply Hel; set_solver); [|done].
      exfalso. by apply (Hirr y), Hy.
Qed.

(** ** Dictionaries

    [{key(x): x for x in l}]: a later item replaces an earlier one. *)
Definition dict_by {A B} (key : A -> pystr) (val : A -> B) (l : list A) : gmap pystr B :=
  foldl (fun m x => <[key x := val x]> m) ∅ l.

Section dict.
Context {A B : Type} (key : A -> pystr) (val : A -> B).

Lemma dict_by_snoc l x : dict_by key val (l ++ [x]) = <[key x := val x]> (dict_by key val l).
Proof. unfold dict_by. by rewrite foldl_app. Qed.

Lemma dict_by_Some l k b :
  dict_by key val l !! k = Some b -> exists x, x ∈ l /\ key x = k /\ val x = b.
Proof.
  induction l as [|x l IH] using rev_ind; [done|].
  rewrite dict_by_snoc, lookup_insert. case_decide as E.
  - intros [= <-]. exists x. set_solver.
  - intros (y & ? & ? & ?)%IH. exists y. set_solver.
Qed.

Lemma dict_by_lookup l x :
  NoDup (key <$> l) -> x ∈ l -> dict_by key val l !! key x = Some (val x).
Proof.
  induction l as [|y l IH] using rev_ind; [set_solver|].
  rewrite fmap_app, NoDup_app. intros (Hn & Hd & _) [Hx|Hx]%elem_of_app.
  - rewrite dict_by_snoc, lookup_insert. case_decide as E; [|auto].
    exfalso. apply (Hd (key x)); [by apply list_elem_of_fmap_2|]. simpl. rewrite E. set_solver.
  - apply list_elem_of_singleton in Hx as ->. by rewrite dict_by_snoc, lookup_insert_eq.
Qed.

Lemma dict_by_None l k : dict_by key val l !! k = None <-> k ∉ key <$> l.
Proof.
  induction l as [|x l IH] using rev_ind; [by split; [set_solver|]|].
  rewrite dict_by_snoc, lookup_insert_None, IH, fmap_app. set_solver.
Qed.

Lemma dict_by_elem l k : is_Some (dict_by key val l !! k) <-> k ∈ key <$> l.
Proof.
  pose proof (dict_by_None l k) as HN. destruct (dict_by key val l !! k) eqn:E.
  - split; [|eauto]. intros _. destruct (decide (k ∈ key <$> l)); [done|].
    exfalso. by assert (Some b = None) by by apply HN.
  - split; [by intros [? ?]|]. intros Hk. exfalso. by apply HN.
Qed.
End dict.

Lemma bool_decide_elem_of {A} `{EqDecision A} (x : A) l :
  bool_decide (x ∈ l) = existsb (fun y => bool_decide (x = y)) l.
Proof.
  apply Bool.eq_iff_eq_true. rewrite bool_decide_eq_true, existsb_exists.
  setoid_rewrite bool_decide_eq_true. setoid_rewrite <-list_elem_of_In. naive_solver.
Qed.

Lemma existsb_elem {A} (f : A -> bool) l : existsb f l = true <-> exists x, x ∈ l /\ f x = true.
Proof. rewrite existsb_exists. by setoid_rewrite list_elem_of_In. Qed.

Lemma existsb_false {A} (f : A -> bool) l : existsb f l = false <-> forall x, x ∈ l -> f x = false.
Proof.
  split.
  - intros H x Hx. destruct (f x) eqn:E; [|done].
    by assert (existsb f l = true) by (apply existsb_elem; eauto); congruence.
  - intros H. destruct (existsb f l) eqn:E; [|done].
    apply existsb_elem in E as (x & Hx & ?). by rewrite H in *.
Qed.

Lemma forallb_elem {A} (f : A -> bool) l : forallb f l = true <-> forall x, x ∈ l -> f x = true.
Proof. rewrite forallb_forall. by setoid_rewrite list_elem_of_In. Qed.

Create HintDb py.
#[export] Hint Resolve lex_leb_refl lex_leb_total : py.

(** *** Filters *)

Lemma filter_snoc {A} (f : A -> bool) l x : List.filter f (l ++ [x]) = List.filter f l ++ (if f x then [x] else []).
Proof. rewrite List.filter_app. cbn. by destruct (f x). Qed.

Lemma filter_none {A} (f : A -> bool) l : (forall x, x ∈ l -> f x = false) -> List.filter f l = [].
Proof.
  induction l as [|x l IH]; intros Hf; [done|]. cbn. rewrite (Hf x) by by left. apply IH. intros y Hy. apply Hf. by right.
Qed.

Lemma filter_nil_elem {A} (f : A -> bool) l x : List.filter f l = [] -> x ∈ l -> f x = false.
Proof. intros Hf Hx. destruct (f x) eqn:E; [|done]. exfalso. assert (Hin : In x []) by (rewrite <- Hf; apply filter_In; by rewrite <- list_elem_of_In). done. Qed.

Lemma filter_elem {A} (f : A -> bool) l x : x ∈ List.filter f l <-> x ∈ l /\ f x = true.
Proof. by rewrite !list_elem_of_In, filter_In. Qed.
