(* ===== verification/Text.v ===== *)
(** * Unicode text, ordering keys and canonical string tuples

    Models [kernel/ordering.py], the Unicode predicate of
    [kernel/path_patterns.py] and the string methods of Python the source uses
    ([startswith], [endswith], [in], [split], [join], [find], [strip],
    [encode]), and the idiom [tuple(sorted(set(xs), key=utf16_sort_key))] that
    every component uses to make a tuple of identities canonical. *)

From stdpp Require Import base gmap sets list sorting strings.
From Stdlib Require Import ZArith Lia.
From S2P Require Import Prelude.

(** ** Characters *)

(** A Python character is a code point in [0, 0x10FFFF]; it is a Unicode scalar
    value unless it is a surrogate.  An integer outside the range is not a
    character, and is rejected with the surrogates. *)
Definition is_scalar (c : Z) : bool :=
  (0 <=? c) && (c <=? 0x10FFFF) && negb ((0xD800 <=? c) && (c <=? 0xDFFF)).

Definition is_unicode_scalar_string (s : pystr) : bool := forallb is_scalar s.

(** ** String methods of Python *)

Fixpoint startswith (p s : pystr) : bool :=
  match p, s with
  | [], _ => true
  | _ :: _, [] => false
  | a :: p', b :: s' => (a =? b) && startswith p' s'
  end.

Definition endswith (p s : pystr) : bool := startswith (reverse p) (reverse s).

(** [c in s] for a character. *)
Definition has_char (c : Z) (s : pystr) : bool := existsb (Z.eqb c) s.

(** [sub in s]. *)
Fixpoint has_substring (sub s : pystr) : bool :=
  startswith sub s || match s with [] => false | _ :: s' => has_substring sub s' end.

(** [s.find(c)], as an option. *)
Fixpoint find_char (c : Z) (s : pystr) : option nat :=
  match s with
  | [] => None
  | x :: s' => if c =? x then Some 0%nat else S <$> find_char c s'
  end.

(** [s.split(c)] for a one-character separator: never empty. *)
Fixpoint split_char (c : Z) (s : pystr) : list pystr :=
  match s with
  | [] => [[]]
  | x :: s' =>
      if c =? x then [] :: split_char c s'
      else match split_char c s' with
           | [] => [[x]]
           | w :: ws => (x :: w) :: ws
           end
  end.

(** [sep.join(ws)]. *)
Fixpoint join (sep : pystr) (ws : list pystr) : pystr :=
  match ws with
  | [] => []
  | [w] => w
  | w :: ws' => w ++ sep ++ join sep ws'
  end.

(** The characters [str.strip()] removes ([str.isspace]). *)
Definition is_space (c : Z) : bool :=
  ((9 <=? c) && (c <=? 13)) || ((28 <=? c) && (c <=? 32)) || (c =? 0x85) || (c =? 0xA0) ||
  (c =? 0x1680) || ((0x2000 <=? c) && (c <=? 0x200A)) || (c =? 0x2028) || (c =? 0x2029) ||
  (c =? 0x202F) || (c =? 0x205F) || (c =? 0x3000).

(** [not s.strip()]. *)
Definition strip_is_empty (s : pystr) : bool := forallb is_space s.

(** *** Facts *)

Lemma startswith_spec p s : startswith p s = true <-> exists r, s = p ++ r.
Proof.
  revert s; induction p as [|a p IH]; intros s; simpl.
  - split; [eauto|done].
  - destruct s as [|b s]; [split; [done|intros [r ?]; done]|].
    rewrite Bool.andb_true_iff, IH, Z.eqb_eq. naive_solver.
Qed.

Lemma find_char_Some c s n :
  find_char c s = Some n ->
  exists pre post, s = pre ++ c :: post /\ length pre = n /\ c ∉ pre.
Proof.
  revert n; induction s as [|x s IH]; intros n; simpl; [done|].
  destruct (Z.eqb_spec c x) as [->|Hne].
  - intros [= <-]. exists [], s. set_solver.
  - intros (m & Hm & ->)%fmap_Some. destruct (IH m) as (pre & post & -> & <- & ?); [done|].
    exists (x :: pre), post. set_solver.
Qed.

Lemma find_char_None c s : find_char c s = None <-> c ∉ s.
Proof.
  induction s as [|x s IH]; simpl; [by split; [set_solver|]|].
  destruct (Z.eqb_spec c x) as [->|Hne]; [split; [done|set_solver]|].
  assert (c ∉ x :: s <-> c ∉ s) as -> by set_solver. rewrite <-IH. by destruct (find_char c s).
Qed.

Lemma split_char_nonempty c s : split_char c s <> [].
Proof. destruct s as [|x s]; simpl; [done|]. destruct (c =? x); [done|]. by destruct (split_char c s). Qed.

(** [sep.join(s.split(sep)) == s] for a one-character separator. *)
Lemma join_split_char c s : join [c] (split_char c s) = s.
Proof.
  induction s as [|x s IH]; simpl; [done|].
  pose proof (split_char_nonempty c s). destruct (Z.eqb_spec c x) as [->|Hne].
  - destruct (split_char x s) eqn:E; [done|]. simpl in *. by rewrite IH.
  - destruct (split_char c s) as [|w ws] eqn:E; [done|]. simpl in *. by destruct ws; simpl in *; rewrite IH.
Qed.

Lemma split_char_no_sep c s w : w ∈ split_char c s -> c ∉ w.
Proof.
  revert w; induction s as [|x s IH]; simpl; intros w.
  - rewrite list_elem_of_singleton. intros ->. set_solver.
  - destruct (Z.eqb_spec c x) as [->|Hne].
    + intros [->|?]%elem_of_cons; [set_solver|auto].
    + destruct (split_char c s) as [|v ws] eqn:E.
      { intros ->%list_elem_of_singleton. set_solver. }
      assert (c ∉ v) by (apply IH; set_solver).
      intros [->|?]%elem_of_cons; [set_solver|]. apply IH. set_solver.
Qed.

(** ** [kernel/ordering.py] *)

(** [chr(c).encode("utf-16-be")]. *)
Definition utf16_be_char (c : Z) : list Z :=
  if c <? 0x10000 then [c / 256; c mod 256]
  else let v := c - 0x10000 in
       let hi := 0xD800 + v / 1024 in
       let lo := 0xDC00 + v mod 1024 in
       [hi / 256; hi mod 256; lo / 256; lo mod 256].

Definition utf16_be (s : pystr) : list Z := flat_map utf16_be_char s.

Definition utf16_sort_key (value : pystr) : res (list Z) :=
  if is_unicode_scalar_string value then Ok (utf16_be value) else Raise UnicodeEncodeError.

(** [s.encode("utf-8")]. *)
Definition utf8_char (c : Z) : list Z :=
  if c <=? 0x7F then [c]
  else if c <=? 0x7FF then [0xC0 + c / 64; 0x80 + c mod 64]
  else if c <=? 0xFFFF then [0xE0 + c / 4096; 0x80 + (c / 64) mod 64; 0x80 + c mod 64]
  else [0xF0 + c / 262144; 0x80 + (c / 4096) mod 64; 0x80 + (c / 64) mod 64; 0x80 + c mod 64].

Definition utf8_encode (s : pystr) : res (list Z) :=
  if is_unicode_scalar_string s then Ok (flat_map utf8_char s) else Raise UnicodeEncodeError.

Definition utf8_length (s : pystr) : res Z :=
  (fun b => Z.of_nat (length b)) <$> utf8_encode s.

(** *** The UTF-16 key is injective, so ordering by it is a total order *)

Lemma utf16_be_char_length c : length (utf16_be_char c) = 2%nat \/ length (utf16_be_char c) = 4%nat.
Proof. unfold utf16_be_char. destruct (c <? 0x10000); auto. Qed.

Lemma is_scalar_bounds c :
  is_scalar c = true <-> 0 <= c <= 0x10FFFF /\ (c < 0xD800 \/ 0xDFFF < c).
Proof. unfold is_scalar. rewrite !Bool.andb_true_iff, Bool.negb_true_iff, Bool.andb_false_iff. lia. Qed.

Lemma utf16_be_char_prefix c d l1 l2 :
  is_scalar c = true -> is_scalar d = true ->
  utf16_be_char c ++ l1 = utf16_be_char d ++ l2 -> c = d /\ l1 = l2.
Proof.
  rewrite !is_scalar_bounds. unfold utf16_be_char. intros Hc Hd.
  pose proof (Z.div_mod c 256). pose proof (Z.div_mod d 256).
  set (hc := 0xD800 + (c - 0x10000) / 1024). set (hd := 0xD800 + (d - 0x10000) / 1024).
  set (lc := 0xDC00 + (c - 0x10000) mod 1024). set (ld := 0xDC00 + (d - 0x10000) mod 1024).
  pose proof (Z.div_mod (c - 0x10000) 1024). pose proof (Z.div_mod (d - 0x10000) 1024).
  pose proof (Z.mod_pos_bound (c - 0x10000) 1024). pose proof (Z.mod_pos_bound (d - 0x10000) 1024).
  pose proof (Z.div_mod hc 256). pose proof (Z.div_mod hd 256).
  pose proof (Z.div_mod lc 256). pose proof (Z.div_mod ld 256).
  destruct (Z.ltb_spec c 0x10000), (Z.ltb_spec d 0x10000); simpl.
  - intros [= E1 E2 ->]. split; [lia|done].
  - intros [= E1 E2 _]. subst hc hd lc ld. lia.
  - intros [= E1 E2 _]. subst hc hd lc ld. lia.
  - intros [= E1 E2 E3 E4 ->]. subst hc hd lc ld. split; [lia|done].
Qed.

Lemma utf16_be_char_nonempty c : utf16_be_char c <> [].
Proof. unfold utf16_be_char. by destruct (c <? 0x10000). Qed.

Lemma utf16_be_inj s t :
  is_unicode_scalar_string s = true -> is_unicode_scalar_string t = true ->
  utf16_be s = utf16_be t -> s = t.
Proof.
  revert t; induction s as [|c s IH]; intros [|d t]; unfold utf16_be; simpl; intros Hs Ht E.
  - done.
  - pose proof (utf16_be_char_nonempty d). destruct (utf16_be_char d); done.
  - pose proof (utf16_be_char_nonempty c). destruct (utf16_be_char c); done.
  - apply andb_true_iff' in Hs as [Hc Hs], Ht as [Hd Ht].
    destruct (utf16_be_char_prefix c d _ _ Hc Hd E) as [-> E']. f_equal. by apply IH.
Qed.

(** [a] sorts before [b]. *)
Definition str_leb (a b : pystr) : bool := lex_leb (utf16_be a) (utf16_be b).
Definition str_lt (a b : pystr) : Prop := str_leb a b = true /\ utf16_be a <> utf16_be b.

#[export] Instance str_lt_dec a b : Decision (str_lt a b).
Proof. unfold str_lt. apply _. Defined.

Lemma str_leb_total a b : str_leb a b = true \/ str_leb b a = true.
Proof. apply lex_leb_total. Qed.
Lemma str_leb_trans a b c : str_leb a b = true -> str_leb b c = true -> str_leb a c = true.
Proof. apply lex_leb_trans. Qed.
Lemma str_leb_refl a : str_leb a a = true.
Proof. apply lex_leb_refl. Qed.
Lemma str_lt_irrefl a : ¬ str_lt a a.
Proof. by intros [_ ?]. Qed.
Lemma str_lt_trans a b c : str_lt a b -> str_lt b c -> str_lt a c.
Proof.
  intros [H1 N1] [H2 N2]. split; [by eapply str_leb_trans|]. intros E.
  apply N1, lex_leb_antisym; [done|]. unfold str_leb in *. by rewrite E.
Qed.

(** ** Canonical tuples of strings *)

(** [tuple(sorted(set(values), key=utf16_sort_key))].  The iteration order of
    the set is irrelevant to the result ([sorted_unique_ext]). *)
Definition sorted_unique (values : list pystr) : res (list pystr) :=
  py_sorted utf16_sort_key (remove_dups values).

(** A canonical tuple: scalar strings, strictly increasing. *)
Definition canonical (l : list pystr) : Prop :=
  StronglySorted str_lt l /\ Forall (fun s => is_unicode_scalar_string s = true) l.

Definition all_scalar (l : list pystr) : bool := forallb is_unicode_scalar_string l.

(** The comparison [tuple(sorted(set(values), ...)) != values], which raises
    when a value is not a scalar string. *)
Definition require_canonical (values : list pystr) (e : exn) : res unit :=
  c ← sorted_unique values; raise_if (bool_decide (c <> values)) e.

Section py_sorted_utf16.
Context {A : Type} (id : A -> pystr).

(** [sorted(l, key=lambda x: utf16_sort_key(id(x)))]. *)
Definition sorted_by_id (l : list A) : res (list A) :=
  py_sorted (fun x => utf16_sort_key (id x)) l.

Lemma sorted_by_id_total l :
  (forall x, x ∈ l -> is_unicode_scalar_string (id x) = true) ->
  sorted_by_id l = Ok (isort (fun a b => str_leb (id a) (id b)) l).
Proof.
  intros H. apply (py_sorted_pure _ (fun x => utf16_be (id x))).
  intros x Hx. unfold utf16_sort_key. by rewrite H.
Qed.

Lemma sorted_by_id_Ok l r :
  sorted_by_id l = Ok r ->
  (forall x, x ∈ l -> is_unicode_scalar_string (id x) = true) /\
  r = isort (fun a b => str_leb (id a) (id b)) l.
Proof.
  intros H. assert (forall x, x ∈ l -> is_unicode_scalar_string (id x) = true) as Hs.
  { intros x Hx. destruct (py_sorted_keys _ _ _ H x Hx) as [k Hk].
    unfold utf16_sort_key in Hk. by destruct (is_unicode_scalar_string (id x)). }
  split; [done|]. rewrite sorted_by_id_total in H by done. by injection H as <-.
Qed.

Lemma sorted_by_id_perm l r : sorted_by_id l = Ok r -> r ≡ₚ l.
Proof. intros [_ ->]%sorted_by_id_Ok. apply isort_perm. Qed.

Lemma sorted_by_id_id l :
  StronglySorted str_lt (id <$> l) ->
  (forall x, x ∈ l -> is_unicode_scalar_string (id x) = true) -> sorted_by_id l = Ok l.
Proof.
  intros Hl Hs. rewrite sorted_by_id_total by done. f_equal. apply isort_id.
  clear Hs. induction l as [|x l IH]; [constructor|]. inversion Hl as [|? ? Hl' Hx]; subst.
  constructor; [by apply IH|]. rewrite Forall_fmap in Hx.
  eapply Forall_impl; [exact Hx|]. by intros y [? _].
Qed.

(** Sorting items with distinct identities gives strictly increasing identities. *)
Lemma sorted_by_id_strict l r :
  sorted_by_id l = Ok r -> NoDup (id <$> l) -> StronglySorted str_lt (id <$> r).
Proof.
  intros H Hn. pose proof (sorted_by_id_perm _ _ H) as Hp.
  destruct (sorted_by_id_Ok _ _ H) as [Hs ->].
  pose proof (isort_sorted (fun a b => str_leb (id a) (id b))
    (fun a b => str_leb_total _ _) (fun a b c => str_leb_trans _ _ _) l) as Hsort.
  revert Hp Hsort. generalize (isort (fun a b => str_leb (id a) (id b)) l). intros r Hp Hsort.
  assert (NoDup (id <$> r)) as Hnr by by rewrite Hp.
  assert (forall x, x ∈ r -> is_unicode_scalar_string (id x) = true) as Hsr.
  { intros x Hx. apply Hs. by rewrite <-Hp. }
  clear -Hsort Hnr Hsr. induction Hsort as [|x r Hr IH Hx]; csimpl in *; [constructor|].
  apply NoDup_cons in Hnr as [Hnx Hnr]. constructor; [apply IH; set_solver|].
  rewrite Forall_fmap, Forall_forall. intros y Hy. rewrite Forall_forall in Hx.
  split; [by apply Hx|]. intros E. apply Hnx. rewrite list_elem_of_fmap.
  exists y. split; [|done]. apply utf16_be_inj; [| |done]; apply Hsr; set_solver.
Qed.
End py_sorted_utf16.

Lemma sorted_by_id_string l : sorted_by_id (fun s : pystr => s) l = py_sorted utf16_sort_key l.
Proof. done. Qed.

Lemma sorted_unique_Ok l r :
  sorted_unique l = Ok r ->
  canonical r /\ (forall x, x ∈ r <-> x ∈ l) /\ NoDup r.
Proof.
  unfold sorted_unique. rewrite <-sorted_by_id_string. intros H.
  pose proof (sorted_by_id_strict _ _ _ H) as Hst. rewrite list_fmap_id in Hst.
  pose proof (sorted_by_id_perm _ _ _ H) as Hp.
  assert (forall x, x ∈ r <-> x ∈ l) as Hel.
  { intros x. rewrite Hp. apply elem_of_remove_dups. }
  split; [split|split; [done|]].
  - rewrite <-(list_fmap_id r). apply Hst, NoDup_remove_dups.
  - apply Forall_forall. intros x Hx. apply sorted_by_id_Ok in H as [Hs _]. apply Hs.
    apply elem_of_remove_dups. by apply Hel.
  - rewrite Hp. apply NoDup_remove_dups.
Qed.

Lemma sorted_unique_total l :
  (forall x, x ∈ l -> is_unicode_scalar_string x = true) -> exists r, sorted_unique l = Ok r.
Proof.
  intros H. unfold sorted_unique. rewrite <-sorted_by_id_string, sorted_by_id_total; [eauto|].
  intros x Hx. apply H. by apply elem_of_remove_dups.
Qed.

Lemma canonical_unique l1 l2 :
  canonical l1 -> canonical l2 -> (forall x, x ∈ l1 <-> x ∈ l2) -> l1 = l2.
Proof.
  intros [H1 _] [H2 _]. apply (strictly_sorted_unique str_lt); eauto using str_lt_irrefl, str_lt_trans.
Qed.

Lemma canonical_NoDup l : canonical l -> NoDup l.
Proof.
  intros [H _]. induction H as [|x l Hl IH Hx]; constructor; [|done].
  intros Hin. rewrite Forall_forall in Hx. by apply (str_lt_irrefl x), Hx.
Qed.

(** Two collections with the same elements have the same canonical tuple. *)
Lemma sorted_unique_ext l1 l2 :
  (forall x, x ∈ l1 <-> x ∈ l2) -> sorted_unique l1 = sorted_unique l2.
Proof.
  intros Hel. destruct (sorted_unique l1) as [r1|e1] eqn:E1, (sorted_unique l2) as [r2|e2] eqn:E2.
  - apply sorted_unique_Ok in E1 as (? & ? & ?), E2 as (? & ? & ?). f_equal.
    apply canonical_unique; [done..|]. naive_solver.
  - exfalso. apply sorted_unique_Ok in E1 as ([_ Hs] & Hr & ?).
    destruct (sorted_unique_total l2) as [? ?]; [|congruence].
    rewrite Forall_forall in Hs. naive_solver.
  - exfalso. apply sorted_unique_Ok in E2 as ([_ Hs] & Hr & ?).
    destruct (sorted_unique_total l1) as [? ?]; [|congruence].
    rewrite Forall_forall in Hs. naive_solver.
  - unfold sorted_unique, py_sorted in *.
    enough (forall l (e : exn), mapR utf16_sort_key l = Raise e -> e = UnicodeEncodeError) as Hk.
    { destruct (mapR utf16_sort_key (remove_dups l1)) eqn:F1; [done|].
      destruct (mapR utf16_sort_key (remove_dups l2)) eqn:F2; [done|]. simpl in *. simplify_eq.
      f_equal. by rewrite (Hk _ _ F1), (Hk _ _ F2). }
    intros l e. induction l as [|x l IH]; simpl; [done|].
    destruct (utf16_sort_key x) as [k|e'] eqn:F; simpl.
    + destruct (mapR utf16_sort_key l); simpl; [naive_solver|]. intros [= ->]. by apply IH.
    + intros [= <-]. unfold utf16_sort_key in F. destruct (is_unicode_scalar_string x); naive_solver.
Qed.

Lemma sorted_unique_canonical l : canonical l <-> sorted_unique l = Ok l.
Proof.
  split; [|by intros [? _]%sorted_unique_Ok]. intros Hc.
  destruct (sorted_unique_total l) as [r Hr].
  { intros x Hx. destruct Hc as [_ Hs]. rewrite Forall_forall in Hs. auto. }
  rewrite Hr. f_equal. apply sorted_unique_Ok in Hr as (? & ? & _). by apply canonical_unique.
Qed.

Lemma require_canonical_Ok l e x : require_canonical l e = Ok x <-> canonical l.
Proof.
  unfold require_canonical. split.
  - intros H. inv_res. bdec. by apply sorted_unique_canonical.
  - intros ->%sorted_unique_canonical. simpl. rewrite bool_decide_eq_false_2 by auto. by destruct x.
Qed.

Lemma canonical_scalar l s : canonical l -> s ∈ l -> is_unicode_scalar_string s = true.
Proof. intros [_ H] Hs. rewrite Forall_forall in H. auto. Qed.

Lemma canonical_nil : canonical [].
Proof. by split; constructor. Qed.

#[export] Hint Resolve canonical_NoDup canonical_nil str_leb_refl str_lt_irrefl : py.

(** ** Scalar strings are closed under the operations the source applies *)

Lemma scalar_app s t :
  is_unicode_scalar_string (s ++ t) = is_unicode_scalar_string s && is_unicode_scalar_string t.
Proof. apply forallb_app. Qed.

Lemma scalar_u (s : string) : is_unicode_scalar_string (u s) = true.
Proof.
  induction s as [|a s IH]; simpl; [done|]. rewrite IH, Bool.andb_true_r.
  unfold is_scalar. destruct a as [[] [] [] [] [] [] [] []]; reflexivity.
Qed.

Lemma scalar_join sep ws :
  is_unicode_scalar_string sep = true ->
  (forall w, w ∈ ws -> is_unicode_scalar_string w = true) ->
  is_unicode_scalar_string (join sep ws) = true.
Proof.
  intros Hsep. induction ws as [|w [|w' ws] IH]; intros H; [done|simpl; apply H; set_solver|].
  change (join sep (w :: w' :: ws)) with (w ++ sep ++ join sep (w' :: ws)).
  rewrite !scalar_app, Hsep, (H w), IH by set_solver. done.
Qed.

#[export] Hint Resolve scalar_u scalar_join : py.

(** ** Token predicates shared by the admission code *)

(** [len(value) == 64] and every character in ["0123456789abcdef"]. *)
Definition is_lower_hex (c : Z) : bool :=
  ((48 <=? c) && (c <=? 57)) || ((97 <=? c) && (c <=? 102)).

Definition is_sha256_hex (value : pystr) : bool :=
  bool_decide (length value = 64%nat) && forallb is_lower_hex value.

(** [re.compile(r"[a-z][a-z0-9._-]{0,63}").fullmatch]. *)
Definition is_identifier_tail (c : Z) : bool :=
  ((97 <=? c) && (c <=? 122)) || ((48 <=? c) && (c <=? 57)) || (c =? 46) || (c =? 95) || (c =? 45).

Definition is_identifier (value : pystr) : bool :=
  match value with
  | [] => false
  | c :: r => ((97 <=? c) && (c <=? 122)) && forallb is_identifier_tail r &&
              bool_decide (length r <= 63)%nat
  end.

Lemma scalar_of_small s : (forall c, c ∈ s -> 0 <= c <= 0x7F) -> is_unicode_scalar_string s = true.
Proof. intros H. apply forallb_elem. intros c Hc. apply is_scalar_bounds. specialize (H c Hc). lia. Qed.

Lemma sha256_hex_scalar s : is_sha256_hex s = true -> is_unicode_scalar_string s = true.
Proof.
  unfold is_sha256_hex. rewrite andb_true_iff', forallb_elem. intros [_ H].
  apply scalar_of_small. intros c Hc%H. unfold is_lower_hex in Hc. lia.
Qed.

Lemma identifier_scalar s : is_identifier s = true -> is_unicode_scalar_string s = true.
Proof.
  destruct s as [|c r]; [done|]. intros [[Hc H]%andb_true_iff' _]%andb_true_iff'.
  rewrite forallb_elem in H. apply scalar_of_small.
  intros d [->|Hd%H]%elem_of_cons; [lia|]. unfold is_identifier_tail in Hd. lia.
Qed.

Lemma identifier_nonempty s : is_identifier s = true -> s <> [].
Proof. by destruct s. Qed.

Lemma sha256_hex_nonempty s : is_sha256_hex s = true -> s <> [].
Proof. unfold is_sha256_hex. intros [H _]%andb_true_iff'. bdec. by destruct s. Qed.

#[export] Hint Resolve sha256_hex_scalar identifier_scalar identifier_nonempty sha256_hex_nonempty : py.

(** Parts of a scalar string are scalar. *)
Lemma scalar_part s t :
  is_unicode_scalar_string s = true -> (forall c, c ∈ t -> c ∈ s) -> is_unicode_scalar_string t = true.
Proof. unfold is_unicode_scalar_string. rewrite !forallb_elem. auto. Qed.

Lemma scalar_take n s : is_unicode_scalar_string s = true -> is_unicode_scalar_string (take n s) = true.
Proof. intros H. apply (scalar_part _ _ H). intros c Hc. by apply (subseteq_take n s). Qed.

Lemma scalar_drop n s : is_unicode_scalar_string s = true -> is_unicode_scalar_string (drop n s) = true.
Proof. intros H. apply (scalar_part _ _ H). intros c Hc. by apply (subseteq_drop n s). Qed.

Lemma scalar_replicate n c : is_scalar c = true -> is_unicode_scalar_string (replicate n c) = true.
Proof. intros H. apply forallb_elem. by intros d [-> _]%elem_of_replicate. Qed.

Lemma scalar_app_2 s t :
  is_unicode_scalar_string s = true -> is_unicode_scalar_string t = true ->
  is_unicode_scalar_string (s ++ t) = true.
Proof. intros Hs Ht. by rewrite scalar_app, Hs, Ht. Qed.

Lemma scalar_cons c s :
  is_scalar c = true -> is_unicode_scalar_string s = true -> is_unicode_scalar_string (c :: s) = true.
Proof. intros Hc Hs. simpl. by rewrite Hc, Hs. Qed.

#[export] Hint Resolve scalar_take scalar_drop scalar_replicate scalar_app_2 scalar_cons : py.

(** Filtering keeps identities canonical. *)
Lemma canonical_fmap_filter {A} (f : A -> pystr) (P : A -> Prop) `{forall x, Decision (P x)} l :
  canonical (f <$> l) -> canonical (f <$> filter P l).
Proof.
  intros [Hs Hf]. induction l as [|s l IH]; [by split; constructor|].
  csimpl in *. inversion Hs as [|? ? Hs' Hx]; inversion Hf as [|? ? Hf1 Hf2]; subst.
  destruct (IH Hs' Hf2) as [I1 I2]. rewrite filter_cons. case_decide; [|done]. csimpl.
  split; [constructor; [done|]|by constructor].
  rewrite Forall_fmap, Forall_forall in Hx |- *. intros y Hy%list_elem_of_filter. apply Hx. naive_solver.
Qed.

#[global] Arguments sorted_unique : simpl never.
#[global] Arguments sorted_by_id : simpl never.
#[global] Arguments require_canonical : simpl never.

Lemma u_cons_nonempty a s t : u (String.String a s) ++ t <> [].
Proof. done. Qed.

Lemma u_nonempty a s : u (String.String a s) <> [].
Proof. done. Qed.
#[export] Hint Resolve u_cons_nonempty u_nonempty : py.

(** Literals are compared by computation only. *)
#[global] Opaque u.
