(* ===== verification/PathPatterns.v ===== *)
(** * The shared path language

    Models [kernel/path_patterns.py] (path admission, the glob grammar, the
    tokenizer and the offset automaton) and [kernel/git_reference.py].  The
    automaton is proved equivalent to the declarative reading of a pattern: a
    path matches when it is a concatenation of words, one per token. *)

From stdpp Require Import base gmap sets list sorting strings.
From Stdlib Require Import ZArith Lia.
From S2P Require Import Prelude Text.

Definition MAX_PATH_PATTERN_CHARACTERS : nat := 512.
Definition MAX_REPOSITORY_PATH_CHARACTERS : nat := 4096.

Definition SLASH : Z := 47.
Definition STAR : Z := 42.
Definition QMARK : Z := 63.
Definition LBRACE : Z := 123.
Definition RBRACE : Z := 125.
Definition COMMA : Z := 44.

(** [_PatternToken]: the kind with the alternatives of a literal. *)
Inductive pattern_token :=
  | TLiteral (alternatives : list pystr)
  | TSingle
  | TSegment
  | TRecursive
  | TRecursiveDirectories.

#[export] Instance pattern_token_eq_dec : EqDecision pattern_token.
Proof. solve_decision. Defined.

(** ** Admission *)

Definition is_safe_relative_path (value : pystr) : bool :=
  is_unicode_scalar_string value &&
  negb (bool_decide (value = []) || has_char 0 value) &&
  negb (startswith (u "/") value || startswith (u "./") value || has_char 92 value ||
        bool_decide (u ".." ∈ split_char SLASH value)).

(** One alternative of a brace expansion. *)
Definition bad_alternative (alternative : pystr) : bool :=
  bool_decide (alternative = []) ||
  existsb (fun token => has_char token alternative) (u "*?{}").

(** The [while] loop of [validate_path_pattern]; [skip] counts the characters
    between the loop's [index] and the position reached. *)
Fixpoint validate_braces (skip : nat) (rest : pystr) : option pystr :=
  match rest with
  | [] => None
  | c :: rest' =>
      match skip with
      | S k => validate_braces k rest'
      | O =>
          if c =? RBRACE then Some (u "unmatched closing brace")
          else if negb (c =? LBRACE) then validate_braces 0 rest'
          else match find_char RBRACE rest' with
               | None => Some (u "unclosed brace expansion")
               | Some e =>
                   let alternatives := split_char COMMA (take e rest') in
                   if bool_decide (length alternatives < 2)%nat || existsb bad_alternative alternatives
                   then Some (u "unsupported brace expansion")
                   else validate_braces (S e) rest'
               end
      end
  end.

Definition validate_path_pattern (pattern : pystr) : option pystr :=
  if bool_decide (MAX_PATH_PATTERN_CHARACTERS < length pattern)%nat
  then Some (u "path pattern exceeds admitted size")
  else if negb (is_safe_relative_path pattern) then Some (u "unsafe relative path pattern")
  else if strip_is_empty pattern then Some (u "empty path pattern")
  else if existsb (fun c => has_char c pattern) (u "[]!()+@") then Some (u "unsupported glob operator")
  else validate_braces 0 pattern.

(** ** Tokens *)

(** [character in "*?{"], the end of a literal run. *)
Definition is_operator (c : Z) : bool := (c =? STAR) || (c =? QMARK) || (c =? LBRACE).

Fixpoint literal_run (s : pystr) : nat :=
  match s with
  | [] => 0
  | c :: s' => if is_operator c then 0 else S (literal_run s')
  end.

Fixpoint tokenize_from (skip : nat) (rest : pystr) : res (list pattern_token) :=
  match rest with
  | [] => Ok []
  | c :: rest' =>
      match skip with
      | S k => tokenize_from k rest'
      | O =>
          if c =? STAR then
            match rest' with
            | c1 :: rest'' =>
                if c1 =? STAR then
                  match rest'' with
                  | c2 :: _ =>
                      if c2 =? SLASH
                      then ts ← tokenize_from 2 rest'; Ok (TRecursiveDirectories :: ts)
                      else ts ← tokenize_from 1 rest'; Ok (TRecursive :: ts)
                  | [] => ts ← tokenize_from 1 rest'; Ok (TRecursive :: ts)
                  end
                else ts ← tokenize_from 0 rest'; Ok (TSegment :: ts)
            | [] => ts ← tokenize_from 0 rest'; Ok (TSegment :: ts)
            end
          else if c =? QMARK then ts ← tokenize_from 0 rest'; Ok (TSingle :: ts)
          else if c =? LBRACE then
            match find_char RBRACE rest' with
            | None => Raise (ValueError (u "path pattern contains an unclosed brace expansion"))
            | Some e =>
                ts ← tokenize_from (S e) rest';
                Ok (TLiteral (split_char COMMA (take e rest')) :: ts)
            end
          else
            let n := literal_run rest' in
            ts ← tokenize_from n rest'; Ok (TLiteral [c :: take n rest'] :: ts)
      end
  end.

Definition _tokenize (pattern : pystr) : res (list pattern_token) := tokenize_from 0 pattern.

(** ** The automaton over offsets *)

(** [min(reachable)]. *)
Definition set_min (s : gset nat) : res nat :=
  match elements s with
  | [] => Raise (ValueError (u "min() iterable argument is empty"))
  | x :: l => Ok (foldl Nat.min x l)
  end.

(** [path[i] == "/"]. *)
Definition slash_at (path : pystr) (i : nat) : bool := bool_decide (path !! i = Some SLASH).

(** The scan of a [segment] token: the flag [active] and the offsets added. *)
Definition segment_step (path : pystr) (reachable : gset nat) (st : bool * gset nat) (index : nat)
    : bool * gset nat :=
  let '(active, advanced) := st in
  let active := active || bool_decide (index ∈ reachable) in
  let advanced := if active then {[index]} ∪ advanced else advanced in
  let active := if slash_at path index then false else active in
  (active, advanced).

Definition _advance (token : pattern_token) (path : pystr) (reachable : gset nat) : res (gset nat) :=
  match token with
  | TLiteral alternatives =>
      Ok (list_to_set (start ← elements reachable; alternative ← alternatives;
            if startswith alternative (drop start path) then [(start + length alternative)%nat] else []))
  | TSingle =>
      Ok (list_to_set (start ← elements reachable;
            if bool_decide (start < length path)%nat && negb (slash_at path start)
            then [S start] else []))
  | TRecursive =>
      minimum ← set_min reachable;
      Ok (list_to_set (seq minimum (length path + 1 - minimum)))
  | TRecursiveDirectories =>
      minimum ← set_min reachable;
      Ok (reachable ∪ list_to_set (index ← seq minimum (length path - minimum);
                                  if slash_at path index then [S index] else []))
  | TSegment =>
      Ok (snd (foldl (segment_step path reachable) (false, ∅) (seq 0 (length path + 1))))
  end.

Fixpoint run_tokens (tokens : list pattern_token) (path : pystr) (reachable : gset nat) : res bool :=
  match tokens with
  | [] => Ok (bool_decide (length path ∈ reachable))
  | token :: tokens' =>
      reachable' ← _advance token path reachable;
      if bool_decide (reachable' = ∅) then Ok false else run_tokens tokens' path reachable'
  end.

(** [matches_path_pattern] with the exceptions its helpers can raise. *)
Definition match_path_pattern (pattern path : pystr) : res bool :=
  if bool_decide (validate_path_pattern pattern <> None) ||
     bool_decide (MAX_REPOSITORY_PATH_CHARACTERS < length path)%nat ||
     negb (is_safe_relative_path path)
  then Ok false
  else tokens ← _tokenize pattern; run_tokens tokens path {[0%nat]}.

(** The value returned; [match_path_pattern_total] shows it always returns. *)
Definition matches_path_pattern (pattern path : pystr) : bool :=
  match match_path_pattern pattern path with Ok b => b | Raise _ => false end.

(** ** The declarative reading *)

Definition token_word (t : pattern_token) (w : pystr) : Prop :=
  match t with
  | TLiteral alternatives => w ∈ alternatives
  | TSingle => exists c, w = [c] /\ c <> SLASH
  | TSegment => SLASH ∉ w
  | TRecursive => True
  | TRecursiveDirectories => w = [] \/ exists w', w = w' ++ [SLASH]
  end.

(** A path is read as one word per token. *)
Definition reads (tokens : list pattern_token) (path : pystr) : Prop :=
  exists words, Forall2 token_word tokens words /\ path = concat words.

(** The text a token was read from. *)
Definition token_text (t : pattern_token) : pystr :=
  match t with
  | TLiteral [w] => w
  | TLiteral ws => [LBRACE] ++ join [COMMA] ws ++ [RBRACE]
  | TSingle => [QMARK]
  | TSegment => [STAR]
  | TRecursive => [STAR; STAR]
  | TRecursiveDirectories => [STAR; STAR; SLASH]
  end.

(** ** The automaton implements the declarative reading *)

(** From offset [s] the word [w] of the path leads to offset [t]. *)
Definition reaches (path : pystr) (s : nat) (w : pystr) (t : nat) : Prop :=
  drop s path = w ++ drop t path /\ t = (s + length w)%nat /\ (t <= length path)%nat.

Lemma reaches_slice path s t :
  (s <= t)%nat -> (t <= length path)%nat -> reaches path s (take (t - s) (drop s path)) t.
Proof.
  intros Hst Ht. assert (length (take (t - s) (drop s path)) = (t - s)%nat) as Hl.
  { rewrite length_take, length_drop. lia. }
  split; [|split; [lia|done]].
  rewrite <-(take_drop (t - s) (drop s path)) at 1. f_equal. rewrite drop_drop. f_equal. lia.
Qed.

Lemma reaches_word path s w t : reaches path s w t -> w = take (t - s) (drop s path).
Proof.
  intros (E & -> & _). rewrite E. replace (s + length w - s)%nat with (length w) by lia.
  by rewrite take_app_length.
Qed.

Lemma reaches_lookup path s w t i :
  reaches path s w t -> w !! i = if decide (i < t - s)%nat then path !! (s + i)%nat else None.
Proof.
  intros H. rewrite (reaches_word _ _ _ _ H). case_decide.
  - by rewrite lookup_take_lt, lookup_drop by done.
  - by rewrite lookup_take_ge by lia.
Qed.

Definition no_slash (path : pystr) (s t : nat) : Prop :=
  forall i, (s <= i < t)%nat -> path !! i <> Some SLASH.

Lemma reaches_no_slash path s w t : reaches path s w t -> (SLASH ∉ w <-> no_slash path s t).
Proof.
  intros H. destruct (H) as (_ & Ht & _). split.
  - intros Hw i Hi E. apply Hw, list_elem_of_lookup. exists (i - s)%nat.
    rewrite (reaches_lookup _ _ _ _ _ H), decide_True by lia.
    by replace (s + (i - s))%nat with i by lia.
  - intros Hn [i Hi]%list_elem_of_lookup. pose proof (lookup_lt_Some _ _ _ Hi).
    rewrite (reaches_lookup _ _ _ _ _ H), decide_True in Hi by lia. apply (Hn (s + i)%nat); [lia|done].
Qed.

Lemma set_min_spec (s : gset nat) :
  s <> ∅ -> exists m, set_min s = Ok m /\ m ∈ s /\ forall x, x ∈ s -> (m <= x)%nat.
Proof.
  intros Hs. unfold set_min.
  assert (forall x, x ∈ s <-> x ∈ elements s) as Hel by (intros; by rewrite elem_of_elements).
  destruct (elements s) as [|x l].
  - exfalso. apply Hs, set_eq. intros x. rewrite Hel. set_solver.
  - eexists; split; [done|]. clear Hs.
    enough (forall l a, foldl Nat.min a l ∈ a :: l /\ forall y, y ∈ a :: l -> (foldl Nat.min a l <= y)%nat) as H.
    { destruct (H l x) as [H1 H2]. split; [by apply Hel|]. intros y Hy. by apply H2, Hel. }
    clear. induction l as [|b l IH]; intros a; simpl.
    { split; [set_solver|]. intros y ->%list_elem_of_singleton. lia. }
    destruct (IH (Nat.min a b)) as [H1 H2]. split.
    + apply elem_of_cons in H1 as [->|?]; [destruct (Nat.min_spec a b) as [[_ ->]|[_ ->]]; set_solver|set_solver].
    + intros y [->|[->|Hy]%elem_of_cons]%elem_of_cons.
      * etransitivity; [apply (H2 (Nat.min a b)); set_solver|lia].
      * etransitivity; [apply (H2 (Nat.min a b)); set_solver|lia].
      * apply H2. set_solver.
Qed.

Lemma slash_at_spec path i : slash_at path i = true <-> path !! i = Some SLASH.
Proof. unfold slash_at. apply bool_decide_eq_true. Qed.

(** The scan of a segment after the first [n] offsets. *)
Lemma segment_scan path (reach : gset nat) n :
  let st := foldl (segment_step path reach) (false, ∅) (seq 0 n) in
  (fst st = true <-> exists s, s ∈ reach /\ (s < n)%nat /\ no_slash path s n) /\
  (forall t, t ∈ snd st <-> (t < n)%nat /\ exists s, s ∈ reach /\ (s <= t)%nat /\ no_slash path s t).
Proof.
  cbv zeta. induction n as [|n IH].
  - simpl. split; [split; [done|intros (s & _ & ? & _); lia]|]. intros t. split; [set_solver|lia].
  - rewrite seq_S, foldl_app. simpl.
    destruct (foldl (segment_step path reach) (false, ∅) (seq 0 n)) as [active adv]; simpl in *.
    destruct IH as [IHa IHt].
    assert (active || bool_decide (n ∈ reach) = true <->
            exists s, s ∈ reach /\ (s <= n)%nat /\ no_slash path s n) as Ha.
    { rewrite Bool.orb_true_iff, IHa, bool_decide_eq_true. split.
      - intros [(s & ? & ? & ?)|?]; [exists s; split_and!; [done|lia|done]|].
        exists n. split_and!; [done|lia|]. intros i; lia.
      - intros (s & ? & ? & ?). destruct (decide (s = n)) as [->|]; [by right|left].
        exists s. split_and!; [done|lia|done]. }
    split.
    + destruct (slash_at path n) eqn:E.
      * split; [done|]. apply slash_at_spec in E. intros (s & _ & ? & Hn). exfalso.
        apply (Hn n); [lia|done].
      * rewrite Ha. split; intros (s & ? & ? & Hn); exists s.
        -- split_and!; [done|lia|]. intros i Hi. destruct (decide (i = n)) as [->|]; [|apply Hn; lia].
           intros ?%slash_at_spec. congruence.
        -- split_and!; [done|lia|]. intros i Hi. apply Hn. lia.
    + intros t. destruct (active || bool_decide (n ∈ reach)) eqn:E.
      * rewrite elem_of_union, elem_of_singleton, IHt. split.
        -- intros [->|[? ?]]; [split; [lia|by apply Ha]|split; [lia|done]].
        -- intros [? ?]. destruct (decide (t = n)) as [->|]; [by left|right]. split; [lia|done].
      * rewrite IHt. split; [intros [? ?]; split; [lia|done]|]. intros [? Hs]. split; [|done].
        destruct (decide (t = n)) as [->|]; [|lia]. apply Ha in Hs. congruence.
Qed.

Definition advances (token : pattern_token) (path : pystr) (reach : gset nat) (t : nat) : Prop :=
  exists s w, s ∈ reach /\ reaches path s w t /\ token_word token w.

Lemma advance_literal alternatives path reach t :
  (forall s, s ∈ reach -> (s <= length path)%nat) ->
  (exists s alt, s ∈ reach /\ alt ∈ alternatives /\ startswith alt (drop s path) = true /\
     t = (s + length alt)%nat) <-> advances (TLiteral alternatives) path reach t.
Proof.
  intros Hle. split.
  - intros (s & alt & Hs & Ha & [r Hr]%startswith_spec & ->). exists s, alt.
    split_and!; [done| |done]. pose proof (f_equal length Hr) as Hl.
    rewrite length_app, length_drop in Hl. split_and!; [|done|specialize (Hle _ Hs); lia].
    rewrite Hr. f_equal. rewrite <-drop_drop, Hr. by rewrite drop_app_length.
  - intros (s & w & Hs & (E & Ht & _) & Hw). exists s, w. split_and!; [done|done| |done].
    apply startswith_spec. eauto.
Qed.

Lemma advance_single path reach t :
  (exists s, s ∈ reach /\ (s < length path)%nat /\ slash_at path s = false /\ t = S s) <->
  advances TSingle path reach t.
Proof.
  split.
  - intros (s & Hs & Hlt & Hn & ->). exists s, (take (S s - s) (drop s path)).
    pose proof (reaches_slice path s (S s) ltac:(lia) ltac:(lia)) as Hr. split_and!; [done|done|].
    destruct (lookup_lt_is_Some_2 path s Hlt) as [c Hc]. exists c.
    assert (take (S s - s) (drop s path) = [c]) as ->.
    { replace (S s - s)%nat with 1%nat by lia. rewrite (drop_S _ _ _ Hc). done. }
    split; [done|]. intros ->. apply slash_at_spec in Hc. congruence.
  - intros (s & w & Hs & Hr & c & -> & Hc). exists s. destruct (Hr) as (E & -> & Hle). simpl in *.
    split_and!; [done|lia| |lia]. destruct (slash_at path s) eqn:Es; [|done].
    apply slash_at_spec in Es. pose proof (reaches_lookup _ _ _ _ 0 Hr) as Hl.
    rewrite decide_True, Nat.add_0_r, Es in Hl by lia. simpl in Hl. congruence.
Qed.

Lemma advance_recursive path (reach : gset nat) m t :
  m ∈ reach -> (forall x, x ∈ reach -> (m <= x)%nat) -> (m <= length path)%nat ->
  (m <= t <= length path)%nat <-> advances TRecursive path reach t.
Proof.
  intros Hm Hmin Hle. split.
  - intros Ht. exists m, (take (t - m) (drop m path)). split_and!; [done| |done].
    apply reaches_slice; lia.
  - intros (s & w & Hs & (_ & -> & ?) & _). specialize (Hmin _ Hs). lia.
Qed.

Lemma advance_recursive_directories path (reach : gset nat) m t :
  m ∈ reach -> (forall x, x ∈ reach -> (m <= x <= length path)%nat) ->
  (t ∈ reach \/ exists i, (m <= i < length path)%nat /\ slash_at path i = true /\ t = S i) <->
  advances TRecursiveDirectories path reach t.
Proof.
  intros Hm Hb. split.
  - intros [Ht|(i & Hi & Hs & ->)].
    + exists t, []. split_and!; [done| |by left]. split_and!; [done|simpl; lia|]. apply Hb; done.
    + apply slash_at_spec in Hs. exists m, (take (S i - m) (drop m path)).
      pose proof (reaches_slice path m (S i) ltac:(lia) ltac:(lia)) as Hr. split_and!; [done|done|].
      right. exists (take (i - m) (drop m path)).
      replace (S i - m)%nat with (S (i - m)) by lia. rewrite (take_S_r _ _ SLASH); [done|].
      rewrite lookup_drop. by replace (m + (i - m))%nat with i by lia.
  - intros (s & w & Hs & Hr & [->|[w' ->]]).
    + left. destruct Hr as (_ & -> & _). simpl. by rewrite Nat.add_0_r.
    + right. pose proof (Hb _ Hs). destruct (Hr) as (E & Ht & Hle).
      rewrite length_app in Ht. simpl in Ht. exists (s + length w')%nat.
      split; [lia|]. split; [|lia]. apply slash_at_spec.
      pose proof (reaches_lookup _ _ _ _ (length w') Hr) as Hl.
      rewrite decide_True in Hl by lia. rewrite <-Hl. rewrite lookup_app_r by lia.
      by rewrite Nat.sub_diag.
Qed.

Lemma advance_segment path (reach : gset nat) t :
  ((t < length path + 1)%nat /\ exists s, s ∈ reach /\ (s <= t)%nat /\ no_slash path s t) <->
  advances TSegment path reach t.
Proof.
  split.
  - intros (Ht & s & Hs & Hst & Hn). exists s, (take (t - s) (drop s path)).
    assert (reaches path s (take (t - s) (drop s path)) t) as Hr by (apply reaches_slice; lia).
    split_and!; [done|done|]. by apply (reaches_no_slash _ _ _ _ Hr).
  - intros (s & w & Hs & Hr & Hw). destruct (Hr) as (_ & -> & ?). split; [lia|].
    exists s. split_and!; [done|lia|]. by apply (reaches_no_slash _ _ _ _ Hr).
Qed.

(** One step of the automaton adds exactly the offsets a word of the token leads to. *)
Lemma advance_spec token path (reach : gset nat) :
  reach <> ∅ -> (forall s, s ∈ reach -> (s <= length path)%nat) ->
  exists r, _advance token path reach = Ok r /\ forall t, t ∈ r <-> advances token path reach t.
Proof.
  intros Hne Hle. destruct (set_min_spec reach Hne) as (m & Hm & Hmin & Hmb).
  destruct token; unfold _advance; try (rewrite Hm; simpl); eexists; (split; [done|]); intros t.
  - rewrite elem_of_list_to_set, <-advance_literal by done.
    setoid_rewrite list_elem_of_bind. setoid_rewrite list_elem_of_bind.
    setoid_rewrite elem_of_elements. split.
    + intros (s & (alt & Ht & Ha) & Hs). exists s, alt.
      destruct (startswith alt (drop s path)) eqn:E; set_solver.
    + intros (s & alt & Hs & Ha & E & ->). exists s. split; [|done]. exists alt. rewrite E. set_solver.
  - rewrite elem_of_list_to_set, <-advance_single. setoid_rewrite list_elem_of_bind.
    setoid_rewrite elem_of_elements. split.
    + intros (s & Ht & Hs). exists s.
      destruct (bool_decide (s < length path)%nat) eqn:E1, (slash_at path s) eqn:E2; simpl in *;
        bdec; set_solver.
    + intros (s & Hs & Hlt & Hn & ->). exists s. split; [|done].
      rewrite bool_decide_eq_true_2, Hn by done. simpl. set_solver.
  - rewrite <-advance_segment. apply segment_scan.
  - rewrite elem_of_list_to_set, elem_of_seq, <-(advance_recursive _ _ m) by auto.
    specialize (Hle _ Hmin). lia.
  - rewrite elem_of_union, elem_of_list_to_set, list_elem_of_bind,
      <-(advance_recursive_directories _ _ m) by auto. setoid_rewrite elem_of_seq.
    f_equiv. split.
    + intros (i & Ht & Hi). exists i. destruct (slash_at path i) eqn:E; [|set_solver].
      split; [lia|]. split; [done|set_solver].
    + intros (i & Hi & E & ->). exists i. rewrite E. split; [set_solver|lia].
Qed.

Lemma run_tokens_spec tokens path (reach : gset nat) :
  reach <> ∅ -> (forall s, s ∈ reach -> (s <= length path)%nat) ->
  exists b, run_tokens tokens path reach = Ok b /\
    (b = true <-> exists s words, s ∈ reach /\ Forall2 token_word tokens words /\
                    drop s path = concat words).
Proof.
  revert reach; induction tokens as [|token tokens IH]; intros reach Hne Hle; simpl.
  - eexists; split; [done|]. rewrite bool_decide_eq_true. split.
    + intros ?. exists (length path), []. rewrite drop_ge by lia. auto.
    + intros (s & words & Hs & Hw & E). inversion Hw; subst. simpl in E.
      apply (f_equal length) in E. rewrite length_drop in E. simpl in E.
      pose proof (Hle _ Hs). by replace (length path) with s by lia.
  - destruct (advance_spec token path reach Hne Hle) as (r & -> & Hr). simpl.
    assert (forall t, t ∈ r -> (t <= length path)%nat) as Hle'.
    { intros t Ht%Hr. by destruct Ht as (s & w & _ & (_ & _ & ?) & _). }
    assert ((exists s words, s ∈ reach /\ Forall2 token_word (token :: tokens) words /\ drop s path = concat words)
      <-> exists t words, t ∈ r /\ Forall2 token_word tokens words /\ drop t path = concat words) as Hiff.
    { split.
      - intros (s & words & Hs & Hw & E). inversion Hw as [|? w ? ws Hw1 Hws]; subst. simpl in E.
        exists (s + length w)%nat, ws. pose proof (Hle _ Hs). pose proof (f_equal length E) as Hl.
        rewrite length_drop, length_app in Hl.
        assert (drop (s + length w) path = concat ws) as E'.
        { rewrite <-drop_drop, E. by rewrite drop_app_length. }
        split_and!; [|done|done]. apply Hr. exists s, w. split_and!; [done| |done].
        split_and!; [by rewrite E, E'|done|lia].
      - intros (t & ws & (s & w & Hs & (E & -> & Hb) & Hw)%Hr & Hws & E'). exists s, (w :: ws).
        split_and!; [done|by constructor|]. simpl. by rewrite E, E'. }
    case_bool_decide as Hemp.
    + exists false. split; [done|]. rewrite Hiff. split; [done|]. intros (t & _ & Ht & _).
      rewrite Hemp in Ht. set_solver.
    + destruct (IH r Hemp Hle') as (b & -> & Hb). exists b. split; [done|]. by rewrite Hb, Hiff.
Qed.

(** ** The tokenizer loses nothing *)

Lemma tokenize_from_drop n rest : tokenize_from n rest = tokenize_from 0 (drop n rest).
Proof.
  revert n; induction rest as [|c rest IH]; intros n; [by destruct n|].
  destruct n as [|n]; [done|]. simpl. apply IH.
Qed.

Lemma validate_braces_drop n rest : validate_braces n rest = validate_braces 0 (drop n rest).
Proof.
  revert n; induction rest as [|c rest IH]; intros n; [by destruct n|].
  destruct n as [|n]; [done|]. simpl. apply IH.
Qed.

Lemma validate_braces_skip n rest :
  validate_braces 0 rest = None -> LBRACE ∉ take n rest -> validate_braces 0 (drop n rest) = None.
Proof.
  revert n; induction rest as [|c rest IH]; intros [|n] H Hn; [done..|].
  cbn [drop take] in *. apply IH; [|set_solver].
  simpl in H. destruct (Z.eqb_spec c RBRACE); [done|].
  destruct (Z.eqb_spec c LBRACE); [set_solver|done].
Qed.

Lemma literal_run_plain s : LBRACE ∉ take (literal_run s) s.
Proof.
  induction s as [|c s IH]; simpl; [set_solver|].
  destruct (is_operator c) eqn:E; [set_solver|]. simpl.
  intros [<-|?]%elem_of_cons; [|done]. unfold is_operator in E.
  by rewrite Z.eqb_refl, Bool.orb_true_r in E.
Qed.

Lemma token_text_alternatives ws :
  (2 <= length ws)%nat -> token_text (TLiteral ws) = LBRACE :: join [COMMA] ws ++ [RBRACE].
Proof. destruct ws as [|w [|w' ws]]; simpl; intros; try lia. done. Qed.

(** A validated pattern is tokenized, and the tokens print back to it. *)
Lemma tokenize_roundtrip_from n rest :
  (length rest <= n)%nat -> validate_braces 0 rest = None ->
  exists ts, tokenize_from 0 rest = Ok ts /\ concat (token_text <$> ts) = rest.
Proof.
  revert rest; induction n as [|n IH]; intros rest Hlen Hv.
  { destruct rest; simpl in Hlen; [by exists []|lia]. }
  destruct rest as [|c rest]; [by exists []|]. simpl in Hlen.
  assert (forall k, LBRACE ∉ take k rest -> c <> LBRACE -> (exists ts,
     tokenize_from k rest = Ok ts /\ concat (token_text <$> ts) = drop k rest)) as Hskip.
  { intros k Hk Hc. rewrite tokenize_from_drop. apply IH; [rewrite length_drop; lia|].
    apply (validate_braces_skip (S k) (c :: rest)); [done|]. simpl. set_solver. }
  simpl in Hv. simpl. destruct (Z.eqb_spec c STAR) as [->|].
  { destruct rest as [|c1 rest']; [by exists [TSegment]|].
    destruct (Z.eqb_spec c1 STAR) as [->|].
    - destruct rest' as [|c2 rest'']; [by exists [TRecursive]|].
      destruct (Z.eqb_spec c2 SLASH) as [->|].
      + destruct (Hskip 2%nat) as (ts & -> & Ht); [set_solver|done|].
        exists (TRecursiveDirectories :: ts). csimpl. by rewrite Ht.
      + destruct (Hskip 1%nat) as (ts & -> & Ht); [set_solver|done|].
        exists (TRecursive :: ts). csimpl. by rewrite Ht.
    - destruct (Hskip 0%nat) as (ts & -> & Ht); [set_solver|done|].
      exists (TSegment :: ts). csimpl. by rewrite Ht. }
  destruct (Z.eqb_spec c QMARK) as [->|].
  { destruct (Hskip 0%nat) as (ts & -> & Ht); [set_solver|done|].
    exists (TSingle :: ts). csimpl. by rewrite Ht. }
  destruct (Z.eqb_spec c LBRACE) as [->|]; simpl in Hv.
  { destruct (find_char RBRACE rest) as [e|] eqn:He; [|done]. apply find_char_Some in He.
    destruct He as (pre & post & -> & <- & _). rewrite take_app_length in *.
    destruct (bool_decide _ || _) eqn:Hb; [done|]. apply orb_false_iff' in Hb as [Hb _]. bdec.
    rewrite validate_braces_drop in Hv. rewrite tokenize_from_drop.
    assert (drop (S (length pre)) (pre ++ RBRACE :: post) = post) as Hd.
    { by rewrite drop_app_ge, Nat.sub_succ_l, Nat.sub_diag by lia. }
    rewrite Hd in *. destruct (IH post) as (ts & -> & Ht); [|done|].
    { rewrite length_app in Hlen. simpl in Hlen. lia. }
    eexists; split; [done|]. rewrite fmap_cons. cbn [concat].
    rewrite token_text_alternatives, join_split_char, Ht by lia. simpl. by rewrite <-app_assoc. }
  destruct (Hskip (literal_run rest)) as (ts & -> & Ht); [apply literal_run_plain|done|].
  eexists; split; [done|]. csimpl. rewrite Ht. f_equal. apply take_drop.
Qed.

Lemma validate_path_pattern_braces pattern :
  validate_path_pattern pattern = None -> validate_braces 0 pattern = None.
Proof. unfold validate_path_pattern. by repeat case_match. Qed.

Lemma validate_path_pattern_safe pattern :
  validate_path_pattern pattern = None -> is_safe_relative_path pattern = true.
Proof. unfold validate_path_pattern. destruct (is_safe_relative_path pattern); [done|]. by repeat case_match. Qed.

Lemma safe_path_scalar s : is_safe_relative_path s = true -> is_unicode_scalar_string s = true.
Proof. unfold is_safe_relative_path. intros [[? _]%andb_true_iff' _]%andb_true_iff'. done. Qed.

Lemma safe_path_nonempty s : is_safe_relative_path s = true -> s <> [].
Proof. intros H ->. done. Qed.

#[export] Hint Resolve safe_path_scalar safe_path_nonempty : py.

(** [match_path_pattern] never raises: its result is [matches_path_pattern]. *)
Lemma match_path_pattern_Ok pattern path :
  match_path_pattern pattern path = Ok (matches_path_pattern pattern path).
Proof.
  unfold matches_path_pattern. enough (exists b, match_path_pattern pattern path = Ok b) as [b ->] by done.
  unfold match_path_pattern. destruct (_ || _) eqn:E; [eauto|]. bdec.
  destruct (tokenize_roundtrip_from (length pattern) pattern) as (ts & Hts & _);
    [done|by apply validate_path_pattern_braces|].
  unfold _tokenize. rewrite Hts. simpl. destruct (run_tokens_spec ts path {[0%nat]}) as (b & -> & _); [set_solver| |eauto].
  intros s ->%elem_of_singleton. lia.
Qed.

(** C38: the offset automaton of [matches_path_pattern] decides exactly the
    declarative reading: the pattern is admitted, the path is a bounded safe
    relative path, and the path is a concatenation of one word per token of the
    pattern ([**/] a possibly empty sequence of whole directories, [**] any
    text, [*] a slash-free word, [?] one non-slash character, a literal or brace
    expansion one of its alternatives).  The function never raises, and the
    tokens print back to the pattern, so no part of it is ignored. *)
Theorem matches_path_pattern_correct pattern path :
  match_path_pattern pattern path = Ok (matches_path_pattern pattern path) /\
  (matches_path_pattern pattern path = true <->
     validate_path_pattern pattern = None /\ (length path <= MAX_REPOSITORY_PATH_CHARACTERS)%nat /\
     is_safe_relative_path path = true /\
     exists tokens, _tokenize pattern = Ok tokens /\ concat (token_text <$> tokens) = pattern /\
                    reads tokens path).
Proof.
  split; [apply match_path_pattern_Ok|].
  pose proof (match_path_pattern_Ok pattern path) as Hm.
  destruct (matches_path_pattern pattern path) eqn:Eb; unfold match_path_pattern in Hm.
  - split; [intros _|done]. destruct (_ || _) eqn:E; [done|].
    bdec.
    destruct (tokenize_roundtrip_from (length pattern) pattern) as (ts & Hts & Htxt);
      [done|by apply validate_path_pattern_braces|].
    split_and!; [done|lia|done|]. unfold _tokenize in *. rewrite Hts in Hm. simpl in Hm. exists ts.
    split_and!; [done|done|]. destruct (run_tokens_spec ts path {[0%nat]}) as (b & Hb & Hiff);
      [set_solver|intros s ->%elem_of_singleton; lia|].
    rewrite Hb in Hm. injection Hm as ->. destruct (proj1 Hiff) as (s & ws & Hs & Hw & Hd); [done|].
    apply elem_of_singleton in Hs as ->. by exists ws.
  - split; [done|]. intros (Hv & Hl & Hp & ts & Hts & _ & ws & Hw & Hc).
    destruct (_ || _) eqn:E.
    { rewrite Hp, Hv in E. rewrite (bool_decide_eq_false_2 (None <> None)) in E by auto.
      rewrite bool_decide_eq_false_2 in E by lia. done. }
    rewrite Hts in Hm. simpl in Hm.
    destruct (run_tokens_spec ts path {[0%nat]}) as (b & Hb & Hiff);
      [set_solver|intros s ->%elem_of_singleton; lia|].
    rewrite Hb in Hm. injection Hm as ->. apply Hiff. exists 0%nat, ws. set_solver.
Qed.

(** ** [kernel/git_reference.py] *)

Definition git_branch_name_is_admitted (value : pystr) : bool :=
  let components := split_char SLASH value in
  negb (bool_decide (value = u "HEAD") ||
        startswith (u "-") value ||
        endswith (u ".") value ||
        has_substring (u "..") value ||
        has_substring (u "@{") value ||
        existsb (fun component =>
          bool_decide (component = []) || startswith (u ".") component ||
          endswith (u ".lock") component) components ||
        existsb (fun c => (c <? 32) || (c =? 127)) value ||
        existsb (fun c => has_char c (u " ~^:?*[\")) value).
