(* ===== verification/PyFloat.v ===== *)
(** * Python numbers as text

    A Python [float] is an IEEE-754 binary64 value, represented by
    [SpecFloat.spec_float]; this file gives the operations of the language on
    it that the source uses ([float(int)], comparisons, [repr]) and
    [str(int)].  [repr] is the shortest decimal that rounds to the value, in the
    format of CPython ([float_repr]). *)

From stdpp Require Import base gmap sets list sorting strings.
From Stdlib Require Import ZArith Lia.
From Stdlib Require Import SpecFloat.
From S2P Require Import Prelude Text.

(** ** Integers *)

(** Decimal digits of a non-negative integer; the fuel is its bit length. *)
Fixpoint dec_digits (fuel : nat) (z : Z) (acc : pystr) : pystr :=
  match fuel with
  | O => acc
  | S f => let acc' := (48 + z mod 10) :: acc in
           if z <? 10 then acc' else dec_digits f (z / 10) acc'
  end.

Definition nat_str (z : Z) : pystr := dec_digits (S (Z.to_nat (Z.log2 z))) z [].

(** [str(z)]. *)
Definition int_str (z : Z) : pystr := if z <? 0 then 45 :: nat_str (- z) else nat_str z.

(** [int(text)] for an optional sign and ASCII digits. *)
Definition parse_nat (s : pystr) : Z := foldl (fun acc c => acc * 10 + (c - 48)) 0 s.
Definition parse_int (s : pystr) : Z :=
  match s with
  | 45 :: r => - parse_nat r
  | 43 :: r => parse_nat r
  | _ => parse_nat s
  end.

(** ** Floats *)

Definition float_of_Z (z : Z) : spec_float := binary_normalize 53 1024 z 0 false.

Definition float_isfinite (f : spec_float) : bool :=
  match f with S754_infinity _ | S754_nan => false | _ => true end.

(** [float(z)]: an integer that rounds beyond the finite range raises. *)
Definition py_float_of_int (z : Z) : res spec_float :=
  let f := float_of_Z z in
  if float_isfinite f then Ok f else Raise OverflowError.

Definition float_abs (f : spec_float) : spec_float :=
  match f with
  | S754_zero _ => S754_zero false
  | S754_infinity _ => S754_infinity false
  | S754_nan => S754_nan
  | S754_finite _ m e => S754_finite false m e
  end.

Definition float_is_zero (f : spec_float) : bool :=
  match f with S754_zero _ => true | _ => false end.

Definition float_negative (f : spec_float) : bool :=
  match f with S754_finite s _ _ => s | S754_infinity s => s | _ => false end.

(** *** [repr] *)

(** [a * 10^p <= b * 2^e], by cross multiplication. *)
Definition scaled_leb (a p b e : Z) : bool :=
  a * 10 ^ Z.max p 0 * 2 ^ Z.max (- e) 0 <=? b * 2 ^ Z.max e 0 * 10 ^ Z.max (- p) 0.
Definition scaled_geb (a p b e : Z) : bool :=
  b * 2 ^ Z.max e 0 * 10 ^ Z.max (- p) 0 <=? a * 10 ^ Z.max p 0 * 2 ^ Z.max (- e) 0.

(** The decimal exponent [k] with [10^(k-1) <= m * 2^e < 10^k], searched upward
    from a lower estimate. *)
Fixpoint decimal_point_from (fuel : nat) (k m e : Z) : Z :=
  match fuel with
  | O => k
  | S f => if scaled_leb 1 k m e then decimal_point_from f (k + 1) m e else k
  end.
Definition decimal_point (m e : Z) : Z :=
  decimal_point_from 6 ((Z.log2 m + e) * 30103 / 100000 - 1) m e.

(** Whether the decimal [d * 10^p] rounds to the float [m * 2^e]: it lies
    between the midpoints to the neighbouring floats (the lower gap is halved
    at a power of two), ends included when [m] is even. *)
Definition rounds_to (d p m e : Z) : bool :=
  let low := 4 * m - (if (m =? 2 ^ 52) && (-1074 <? e) then 1 else 2) in
  let high := 4 * m + 2 in
  if Z.even m then scaled_geb (4 * d) p low e && scaled_leb (4 * d) p high e
  else negb (scaled_leb (4 * d) p low e) && negb (scaled_geb (4 * d) p high e).

(** The shortest digits: the first length at which one of the two decimals
    around the value rounds to it, the closer one if both do. *)
Fixpoint shortest_digits (fuel : nat) (n k m e : Z) : Z * Z :=
  let num := m * 2 ^ Z.max e 0 * 10 ^ Z.max (n - k) 0 in
  let den := 2 ^ Z.max (- e) 0 * 10 ^ Z.max (k - n) 0 in
  let d := num / den in
  let r := num mod den in
  let low_ok := rounds_to d (k - n) m e in
  let high_ok := rounds_to (d + 1) (k - n) m e in
  let low_closer := (2 * r <? den) || ((2 * r =? den) && Z.even d) in
  if low_ok && (low_closer || negb high_ok) then (d, k - n)
  else if high_ok then (d + 1, k - n)
  else match fuel with
       | O => (d, k - n)
       | S f => shortest_digits f (n + 1) k m e
       end.

Definition strip_trailing_zeros (s : pystr) : pystr :=
  reverse ((fix go (l : pystr) : pystr :=
    match l with 48 :: l' => go l' | _ => l end) (reverse s)).

(** [repr(f)] of a positive finite float. *)
Definition float_repr_pos (m e : Z) : pystr :=
  let k0 := decimal_point m e in
  let '(d, p) := shortest_digits 17 1 k0 m e in
  let ds := nat_str d in
  let k := Z.of_nat (length ds) + p in
  let ds := strip_trailing_zeros ds in
  let len := Z.of_nat (length ds) in
  if (-4 <? k) && (k <=? 16) then
    if k <=? 0 then u "0." ++ replicate (Z.to_nat (- k)) 48 ++ ds
    else if len <=? k then ds ++ replicate (Z.to_nat (k - len)) 48 ++ u ".0"
    else take (Z.to_nat k) ds ++ u "." ++ drop (Z.to_nat k) ds
  else
    let x := k - 1 in
    let mant := match ds with
                | c :: ((_ :: _) as r) => c :: 46 :: r
                | _ => ds
                end in
    let xs := nat_str (Z.abs x) in
    let xs := if bool_decide (length xs < 2)%nat then 48 :: xs else xs in
    mant ++ u "e" ++ [if x <? 0 then 45 else 43] ++ xs.

Definition float_repr (f : spec_float) : pystr :=
  match f with
  | S754_zero s => (if s then [45] else []) ++ u "0.0"
  | S754_infinity s => (if s then [45] else []) ++ u "inf"
  | S754_nan => u "nan"
  | S754_finite s m e => (if s then [45] else []) ++ float_repr_pos (Z.pos m) e
  end.

(** Every text above is ASCII. *)
Lemma dec_digits_digit fuel z acc :
  0 <= z -> (forall c, c ∈ acc -> 48 <= c <= 57) -> forall c, c ∈ dec_digits fuel z acc -> 48 <= c <= 57.
Proof.
  revert z acc; induction fuel as [|f IH]; intros z acc Hz Ha c; simpl; [auto|].
  pose proof (Z.mod_pos_bound z 10).
  assert (forall d, d ∈ (48 + z mod 10) :: acc -> 48 <= d <= 57) as Ha'.
  { intros d [->|?]%elem_of_cons; [lia|auto]. }
  destruct (z <? 10); [apply Ha'|]. apply IH; [|done]. apply Z.div_pos; lia.
Qed.

Lemma nat_str_digit z c : 0 <= z -> c ∈ nat_str z -> 48 <= c <= 57.
Proof. intros Hz. apply dec_digits_digit; [done|set_solver]. Qed.

Lemma int_str_scalar z : is_unicode_scalar_string (int_str z) = true.
Proof.
  apply scalar_of_small. unfold int_str. intros c. destruct (z <? 0) eqn:E; bdec.
  - intros [->|Hc%nat_str_digit]%elem_of_cons; lia.
  - intros Hc%nat_str_digit; lia.
Qed.

Lemma nat_str_scalar z : 0 <= z -> is_unicode_scalar_string (nat_str z) = true.
Proof. intros Hz. apply scalar_of_small. intros c Hc%nat_str_digit; lia. Qed.
#[export] Hint Resolve int_str_scalar nat_str_scalar : py.

Lemma shortest_digits_nonneg fuel n k m e : 0 <= m -> 0 <= (shortest_digits fuel n k m e).1.
Proof.
  intros Hm. revert n. induction fuel as [|f IH]; intros n; simpl.
  all: set (d := (m * _ * _) / _).
  all: assert (0 <= d) by (apply Z.div_pos; [|apply Z.mul_pos_pos; lia];
         repeat apply Z.mul_nonneg_nonneg; lia).
  all: repeat case_match; simpl; try lia; apply IH.
Qed.

Lemma strip_trailing_zeros_elem s c : c ∈ strip_trailing_zeros s -> c ∈ s.
Proof.
  unfold strip_trailing_zeros. rewrite elem_of_reverse. intros H.
  rewrite <-(reverse_involutive s), elem_of_reverse. revert H.
  generalize (reverse s). intros l. induction l as [|x l IH]; [done|]. intros H.
  destruct (decide (x = 48)) as [->|Hx]; [right; by apply IH|].
  revert H. by repeat (case_match; try done).
Qed.

Lemma float_repr_scalar f : is_unicode_scalar_string (float_repr f) = true.
Proof.
  destruct f as [[]|[]| |s m e]; try reflexivity.
  unfold float_repr. apply scalar_app_2; [by destruct s|]. unfold float_repr_pos.
  pose proof (shortest_digits_nonneg 17 1 (decimal_point (Z.pos m) e) (Z.pos m) e) as Hd.
  destruct (shortest_digits _ _ _ _ _) as [d p]. simpl in Hd.
  set (ds := strip_trailing_zeros (nat_str d)).
  assert (is_unicode_scalar_string ds = true) as Hds.
  { eapply scalar_part; [apply (nat_str_scalar d); lia|]. apply strip_trailing_zeros_elem. }
  destruct (_ && _); [repeat case_match; auto 8 with py|].
  apply scalar_app_2; [|apply scalar_app_2; [auto with py|apply scalar_app_2]].
  - clearbody ds. destruct ds as [|c [|c' r]]; [done|done|]. simpl in Hds |- *. bdec. by rewrite H, H0, H1.
  - by case_match.
  - case_bool_decide; [apply scalar_cons; [done|]|]; apply nat_str_scalar; lia.
Qed.
#[export] Hint Resolve float_repr_scalar : py.

(** CPython's values of [repr] on the usual hard cases. *)
Example float_repr_examples :
  float_repr (SFdiv 53 1024 (float_of_Z 1) (float_of_Z 10)) = u "0.1" /\
  float_repr (SFdiv 53 1024 (float_of_Z 1) (float_of_Z 3)) = u "0.3333333333333333" /\
  float_repr (float_of_Z 1) = u "1.0" /\
  float_repr (float_of_Z (10 ^ 15)) = u "1000000000000000.0" /\
  float_repr (float_of_Z (10 ^ 16)) = u "1e+16" /\
  float_repr (SFdiv 53 1024 (float_of_Z 1) (float_of_Z 100000)) = u "1e-05" /\
  float_repr (S754_finite false 4503599627370496 (-96)) = u "5.684341886080802e-14" /\
  float_repr (S754_finite false 1 (-1074)) = u "5e-324" /\
  float_repr (S754_finite true 9007199254740991 971) = u "-1.7976931348623157e+308".
Proof. vm_compute. done. Qed.
