(* ===== verification/CanonicalJson.v ===== *)
(** * Canonical JSON

    Models [kernel/canonical_json.py]: the writer that walks a value with an
    explicit stack of frames, its resource guard, its cycle guard, the text and
    the bounded byte output, and the ECMAScript number text.

    A value is the finite unfolding of a Python object: a list or dict carries
    its object identity ([id(value)]), so a cyclic object appears as a container
    below a container with the same identity, which is where the writer stops.
    The writer is proved equal to a recursive printer ([print]) on every value,
    errors included. *)

From stdpp Require Import base gmap sets list sorting strings.
From Stdlib Require Import ZArith Lia.
From Stdlib Require Import SpecFloat.
From S2P Require Import Prelude Text PyFloat.

#[local] Transparent u.
#[local] Set Warnings "-register-all".

Definition MAX_SAFE_JSON_INTEGER : Z := 9007199254740991.

(** ** Values *)

(** A dict key: a string, or any other object, known by its [repr]. *)
Inductive dkey :=
  | KStr (s : pystr)
  | KOther (rep : pystr).

Inductive pyval :=
  | VNone
  | VBool (b : bool)
  | VStr (s : pystr)
  | VInt (z : Z)
  | VFloat (f : spec_float)
  | VList (oid : Z) (items : list pyval)
  | VDict (oid : Z) (items : list (dkey * pyval))
  | VBytes
  | VDatetime
  | VCollection
  | VOther (type_name : pystr).

Section pyval_ind.
Context (P : pyval -> Prop)
  (HNone : P VNone) (HBool : forall b, P (VBool b)) (HStr : forall s, P (VStr s))
  (HInt : forall z, P (VInt z)) (HFloat : forall f, P (VFloat f))
  (HList : forall oid l, Forall P l -> P (VList oid l))
  (HDict : forall oid l, Forall (fun kv => P kv.2) l -> P (VDict oid l))
  (HBytes : P VBytes) (HDatetime : P VDatetime) (HColl : P VCollection)
  (HOther : forall n, P (VOther n)).

Fixpoint pyval_ind' (v : pyval) : P v :=
  match v with
  | VNone => HNone | VBool b => HBool b | VStr s => HStr s | VInt z => HInt z | VFloat f => HFloat f
  | VList oid l => HList oid l ((fix go l : Forall P l :=
      match l with [] => List.Forall_nil _ | x :: l' => List.Forall_cons _ _ _ (pyval_ind' x) (go l') end) l)
  | VDict oid l => HDict oid l ((fix go l : Forall (fun kv => P kv.2) l :=
      match l with [] => List.Forall_nil _ | (k, x) :: l' => List.Forall_cons _ (k, x) _ (pyval_ind' x) (go l') end) l)
  | VBytes => HBytes | VDatetime => HDatetime | VCollection => HColl | VOther n => HOther n
  end.
End pyval_ind.

(** ** Numbers and strings *)

Definition is_safe_int (z : Z) : bool := Z.abs z <=? MAX_SAFE_JSON_INTEGER.

(** [value.is_integer()] of a finite float. *)
Definition float_is_integer (f : spec_float) : bool :=
  match f with
  | S754_zero _ => true
  | S754_finite _ m e => (0 <=? e) || (Z.pos m mod 2 ^ (- e) =? 0)
  | _ => false
  end.

Definition is_safe_json_integer (value : pyval) : bool :=
  match value with
  | VInt z => is_safe_int z
  | VFloat f => float_isfinite f && float_is_integer f &&
                SFleb (float_abs f) (float_of_Z MAX_SAFE_JSON_INTEGER)
  | _ => false
  end.

Definition json_error (code path message : pystr) : exn :=
  CanonicalJsonError code path message None None None.

Definition _decimal_parts (mantissa : pystr) (exponent : Z) : pystr * Z :=
  match find_char 46 mantissa with
  | None => (mantissa, Z.of_nat (length mantissa) + exponent)
  | Some i => (take i mantissa ++ drop (S i) mantissa, Z.of_nat i + exponent)
  end.

Definition rstrip (c : Z) (s : pystr) : pystr :=
  reverse ((fix go (l : pystr) := match l with
                                  | x :: l' => if x =? c then go l' else l
                                  | [] => []
                                  end) (reverse s)).

Definition _fixed_decimal (digits : pystr) (decimal_index : Z) : pystr :=
  let len := Z.of_nat (length digits) in
  let text :=
    if decimal_index <=? 0 then u "0." ++ replicate (Z.to_nat (Z.abs decimal_index)) 48 ++ digits
    else if len <=? decimal_index then digits ++ replicate (Z.to_nat (decimal_index - len)) 48
    else take (Z.to_nat decimal_index) digits ++ u "." ++ drop (Z.to_nat decimal_index) digits in
  if negb (has_char 46 text) then text else rstrip 46 (rstrip 48 text).

Definition _strip_integer_float (text : pystr) : pystr :=
  if endswith (u ".0") text then take (length text - 2) text else text.

Definition _ecmascript_number_text (value : spec_float) : pystr :=
  let sign := if float_negative value then u "-" else [] in
  let text := float_repr (float_abs value) in
  match find_char 101 text with
  | None => sign ++ _strip_integer_float text
  | Some i =>
      let mantissa := take i text in
      let exponent := parse_int (drop (S i) text) in
      let '(digits, decimal_index) := _decimal_parts mantissa exponent in
      if (-6 <=? exponent) && (exponent <? 21) then sign ++ _fixed_decimal digits decimal_index
      else
        let rest := rstrip 48 (drop 1 digits) in
        let suffix := if 0 <=? exponent then u "+" ++ int_str exponent else int_str exponent in
        if bool_decide (rest <> [])
        then sign ++ take 1 digits ++ u "." ++ rest ++ u "e" ++ suffix
        else sign ++ take 1 digits ++ u "e" ++ suffix
  end.

Definition float_gt_safe (value : spec_float) : bool :=
  SFltb (float_of_Z MAX_SAFE_JSON_INTEGER) (float_abs value).

Definition _canonical_float (value : spec_float) (path : pystr) : res pystr :=
  if negb (float_isfinite value)
  then Raise (json_error (u "non_finite_number") path (u "number must be finite"))
  else if float_gt_safe value
  then Raise (json_error (u "unsafe_integer") path (u "number exceeds JSON safe integer magnitude"))
  else if float_is_zero value then Ok (u "0")
  else Ok (_ecmascript_number_text value).

(** [json.dumps(value, ensure_ascii=False)] of a string. *)
Definition hex_digit (n : Z) : Z := if n <? 10 then 48 + n else 87 + n.

Definition json_escape (c : Z) : pystr :=
  if c =? 34 then [92; 34]
  else if c =? 92 then [92; 92]
  else if c =? 10 then [92; 110]
  else if c =? 13 then [92; 114]
  else if c =? 9 then [92; 116]
  else if c =? 12 then [92; 102]
  else if c =? 8 then [92; 98]
  else if c <? 32 then u "\u00" ++ [hex_digit (c / 16); hex_digit (c mod 16)]
  else [c].

Definition _json_string (value : pystr) : pystr := [34] ++ flat_map json_escape value ++ [34].

(** [instance_pointer + "/" + token.replace("~", "~0").replace("/", "~1")]. *)
Definition pointer_escape (c : Z) : pystr :=
  if c =? 126 then u "~0" else if c =? 47 then u "~1" else [c].

Definition _json_pointer_child (instance_pointer token : pystr) : pystr :=
  instance_pointer ++ u "/" ++ flat_map pointer_escape token.

Definition _reject_surrogates (value path message : pystr) : res unit :=
  raise_if (negb (is_unicode_scalar_string value))
    (json_error (u "invalid_unicode_scalar") path message).

(** ** Resources *)

Record JsonResourceLimits := { max_depth : Z; max_nodes : Z }.

(** [_ResourceState.visit]: the new node count. *)
Definition visit (limits : option JsonResourceLimits) (nodes depth : Z) (path pointer : pystr) : res Z :=
  match limits with
  | None => Ok nodes
  | Some l =>
      if max_depth l <? depth
      then Raise (CanonicalJsonError (u "json_max_depth_exceeded") path
                    (u "maximum JSON depth is " ++ int_str (max_depth l)) (Some pointer)
                    (Some (max_depth l)) (Some depth))
      else if max_nodes l <? nodes + 1
      then Raise (CanonicalJsonError (u "json_max_nodes_exceeded") path
                    (u "maximum JSON node count is " ++ int_str (max_nodes l)) (Some pointer)
                    (Some (max_nodes l)) (Some (nodes + 1)))
      else Ok (nodes + 1)
  end.

Definition admit_direct_children (limits : option JsonResourceLimits) (nodes child_count : Z)
    (path pointer : pystr) : res unit :=
  match limits with
  | None => Ok tt
  | Some l =>
      raise_if (max_nodes l - nodes <? child_count)
        (CanonicalJsonError (u "json_max_nodes_exceeded") path
           (u "maximum JSON node count is " ++ int_str (max_nodes l)) (Some pointer)
           (Some (max_nodes l)) (Some (max_nodes l + 1)))
  end.

#[local] Arguments visit : simpl never.
#[local] Arguments admit_direct_children : simpl never.

(** ** Outputs *)

(** [_TextOutput] (its chunks joined) and [_BoundedBytesOutput]. *)
Inductive json_output :=
  | TextOutput (chunks : pystr)
  | BoundedBytesOutput (max_bytes : Z) (chunks : list Z) (overflow : option exn).

Definition byte_overflow (max_bytes : Z) (path pointer : pystr) : exn :=
  CanonicalJsonError (u "canonical_json_max_bytes_exceeded") path
    (u "maximum canonical JSON byte count is " ++ int_str max_bytes) (Some pointer)
    (Some max_bytes) (Some (max_bytes + 1)).

Definition record_byte_overflow (o : json_output) (path pointer : pystr) : res json_output :=
  match o with
  | TextOutput _ => Raise AssertionError
  | BoundedBytesOutput m c None => Ok (BoundedBytesOutput m c (Some (byte_overflow m path pointer)))
  | BoundedBytesOutput _ _ (Some _) => Ok o
  end.

Definition append (o : json_output) (text : pystr) : res json_output :=
  match o with
  | TextOutput c => Ok (TextOutput (c ++ text))
  | BoundedBytesOutput m c (Some _) => Ok o
  | BoundedBytesOutput m c None =>
      encoded ← utf8_encode text;
      if m - Z.of_nat (length c) <? Z.of_nat (length encoded) then record_byte_overflow o (u "$") []
      else Ok (BoundedBytesOutput m (c ++ encoded) None)
  end.

Definition finish (o : json_output) : res (list Z) :=
  match o with
  | BoundedBytesOutput _ _ (Some e) => Raise e
  | BoundedBytesOutput _ c None => Ok c
  | TextOutput _ => Raise AssertionError
  end.

(** [_utf8_length_exceeds]: the running count stops at the limit. *)
Definition utf8_width (c : Z) : Z :=
  if c <=? 0x7F then 1 else if c <=? 0x7FF then 2 else if c <=? 0xFFFF then 3 else 4.

Fixpoint utf8_count_exceeds (observed limit : Z) (value : pystr) : bool :=
  match value with
  | [] => false
  | c :: r => let observed := observed + utf8_width c in
              if limit <? observed then true else utf8_count_exceeds observed limit r
  end.

Definition _utf8_length_exceeds (value : pystr) (limit : Z) : bool :=
  if forallb (fun c => c <=? 0x7F) value then limit <? Z.of_nat (length value)
  else utf8_count_exceeds 0 limit value.

(** [_bounded_json_string], with the output it may mark as overflowed. *)
Definition _bounded_json_string (value path pointer : pystr) (o : json_output) : res (pystr * json_output) :=
  match o with
  | TextOutput _ => Ok (_json_string value, o)
  | BoundedBytesOutput _ _ (Some _) => Ok ([], o)
  | BoundedBytesOutput m _ None =>
      if _utf8_length_exceeds value m
      then o' ← record_byte_overflow o path pointer; Ok ([], o')
      else Ok (_json_string value, o)
  end.

(** ** The writer *)

Inductive frame :=
  | ValueFrame (value : pyval) (path instance_pointer : pystr) (depth : Z)
  | TextFrame (text : pystr)
  | StringFrame (value path instance_pointer : pystr)
  | ExitFrame (object_id : Z).

(** The stack (top first), the identities on the current path, the node count
    and the output. *)
Record writer := Writer { frames : list frame; active : list Z; nodes : Z; output : json_output }.

(** The frames of an array, last pushed first: [index] is the index of the
    first item. *)
Fixpoint list_frames (path pointer : pystr) (depth : Z) (index : Z) (l : list pyval) : list frame :=
  match l with
  | [] => []
  | x :: l' =>
      (if 0 <? index then [TextFrame (u ",")] else []) ++
      ValueFrame x (path ++ u "[" ++ int_str index ++ u "]")
        (_json_pointer_child pointer (int_str index)) depth ::
      list_frames path pointer depth (index + 1) l'
  end.

Fixpoint entry_frames (path pointer : pystr) (depth : Z) (index : Z) (l : list (pystr * pyval)) : list frame :=
  match l with
  | [] => []
  | (key, item) :: l' =>
      (if 0 <? index then [TextFrame (u ",")] else []) ++
      StringFrame key path (_json_pointer_child pointer key) ::
      TextFrame (u ":") ::
      ValueFrame item (path ++ u "." ++ key) (_json_pointer_child pointer key) depth ::
      entry_frames path pointer depth (index + 1) l'
  end.

(** The string entries of a dict; the first bad key raises. *)
Definition string_entry {A} (path : pystr) (kv : dkey * A) : res (pystr * A) :=
  match kv.1 with
  | KOther rep => Raise (json_error (u "non_string_key") path
                           (u "object key " ++ rep ++ u " is not a string"))
  | KStr key => _reject_surrogates key path (u "object key contains surrogate code point") ;;
                Ok (key, kv.2)
  end.

(** [entries.sort()]: dict keys are distinct, so pairs are ordered by their
    key, in code point order. *)
Definition sort_entries {A} (l : list (pystr * A)) : list (pystr * A) :=
  isort (fun a b => lex_leb a.1 b.1) l.

Section writer.
Context (limits : option JsonResourceLimits).

Definition _schedule_list (oid : Z) (values : list pyval) (path pointer : pystr) (depth : Z)
    (w : writer) : res writer :=
  raise_if (bool_decide (oid ∈ active w))
    (json_error (u "cycle") path (u "cyclic arrays are not JSON values")) ;;
  admit_direct_children limits (nodes w) (Z.of_nat (length values)) path pointer ;;
  o ← append (output w) (u "[");
  Ok (Writer (list_frames path pointer (depth + 1) 0 values ++
              TextFrame (u "]") :: ExitFrame oid :: frames w)
        (oid :: active w) (nodes w) o).

Definition _schedule_object (oid : Z) (value : list (dkey * pyval)) (path pointer : pystr) (depth : Z)
    (w : writer) : res writer :=
  raise_if (bool_decide (oid ∈ active w))
    (json_error (u "cycle") path (u "cyclic objects are not JSON values")) ;;
  admit_direct_children limits (nodes w) (Z.of_nat (length value)) path pointer ;;
  entries ← mapR (string_entry path) value;
  o ← append (output w) (u "{");
  Ok (Writer (entry_frames path pointer (depth + 1) 0 (sort_entries entries) ++
              TextFrame (u "}") :: ExitFrame oid :: frames w)
        (oid :: active w) (nodes w) o).

Definition write_text (w : writer) (text : pystr) : res writer :=
  o ← append (output w) text; Ok (Writer (frames w) (active w) (nodes w) o).

Definition write_string (w : writer) (value path pointer : pystr) : res writer :=
  '(text, o) ← _bounded_json_string value path pointer (output w);
  write_text (Writer (frames w) (active w) (nodes w) o) text.

(** The body of the loop for a value frame, the frame already popped. *)
Definition write_value (v : pyval) (path pointer : pystr) (depth : Z) (w : writer) : res writer :=
  n ← visit limits (nodes w) depth path pointer;
  let w := Writer (frames w) (active w) n (output w) in
  match v with
  | VNone => write_text w (u "null")
  | VBool b => write_text w (if b then u "true" else u "false")
  | VStr s => _reject_surrogates s path (u "string contains surrogate code point") ;;
              write_string w s path pointer
  | VInt z => if MAX_SAFE_JSON_INTEGER <? Z.abs z
              then Raise (json_error (u "unsafe_integer") path (u "integer exceeds JSON safe integer range"))
              else write_text w (int_str z)
  | VFloat f => text ← _canonical_float f path; write_text w text
  | VList oid l => _schedule_list oid l path pointer depth w
  | VDict oid l => _schedule_object oid l path pointer depth w
  | VBytes => Raise (json_error (u "non_canonical_input") path (u "bytes are not JSON values"))
  | VDatetime => Raise (json_error (u "non_canonical_input") path (u "datetime values are not JSON values"))
  | VCollection => Raise (json_error (u "non_canonical_input") path (u "collection type is not a JSON array"))
  | VOther n => Raise (json_error (u "non_canonical_input") path (n ++ u " is not a JSON-domain value"))
  end.

(** [active.remove(object_id)]: the identity at the top of the path. *)
Definition step (f : frame) (w : writer) : res writer :=
  match f with
  | TextFrame t => write_text w t
  | StringFrame s path pointer => write_string w s path pointer
  | ExitFrame oid =>
      if bool_decide (oid ∈ active w)
      then Ok (Writer (frames w) (filter (fun x => x <> oid) (active w)) (nodes w) (output w))
      else Raise KeyError
  | ValueFrame v path pointer depth => write_value v path pointer depth w
  end.

(** The [while frames] loop. *)
Fixpoint run (fuel : nat) (w : writer) : res writer :=
  match frames w with
  | [] => Ok w
  | f :: fs =>
      match fuel with
      | O => Raise OutOfFuel
      | S fuel' => w' ← step f (Writer fs (active w) (nodes w) (output w)); run fuel' w'
      end
  end.
End writer.

(** The number of iterations of the loop: the frames a value schedules, itself
    included (every item but the first is preceded by a comma). *)
Fixpoint weight (v : pyval) : nat :=
  match v with
  | VList _ l => 3 + pred (list_sum (map (fun x => 1 + weight x) l))
  | VDict _ l => 3 + pred (list_sum (map (fun kv => 3 + weight kv.2) l))
  | _ => 1
  end%nat.

Definition _write_canonical_json (limits : option JsonResourceLimits) (value : pyval) (o : json_output)
    : res json_output :=
  output <$> run limits (weight value) (Writer [ValueFrame value (u "$") [] 0] [] 0 o).

Definition canonical_json_text (limits : option JsonResourceLimits) (value : pyval) : res pystr :=
  o ← _write_canonical_json limits value (TextOutput []);
  match o with TextOutput c => Ok c | _ => Raise AssertionError end.

Definition canonical_json (limits : option JsonResourceLimits) (value : pyval) : res (list Z) :=
  text ← canonical_json_text limits value; utf8_encode text.

Definition bounded_canonical_json (value : pyval) (max_bytes : Z) (limits : option JsonResourceLimits)
    : res (list Z) :=
  raise_if (max_bytes <? 0) (ValueError (u "max_bytes must be a non-negative integer")) ;;
  o ← _write_canonical_json limits value (BoundedBytesOutput max_bytes [] None);
  finish o.

(** [kernel/result.py] and [try_canonical_json]. *)
Inductive ResultValue (T : Type) :=
  | ROk (value : T)
  | RErr (code message : pystr).
Arguments ROk {T} value.
Arguments RErr {T} code message.

Definition try_canonical_json (limits : option JsonResourceLimits) (value : pyval)
    : res (ResultValue (list Z)) :=
  match canonical_json limits value with
  | Ok b => Ok (ROk b)
  | Raise (CanonicalJsonError code _ message _ _ _) => Ok (RErr code message)
  | Raise e => Raise e
  end.

(** ** The recursive printer *)

Record ctx := Ctx { c_active : list Z; c_path : pystr; c_pointer : pystr; c_depth : Z }.

Definition printer := ctx -> Z -> res (pystr * Z).

Definition item_ctx (c : ctx) (oid index : Z) : ctx :=
  Ctx (oid :: c_active c) (c_path c ++ u "[" ++ int_str index ++ u "]")
      (_json_pointer_child (c_pointer c) (int_str index)) (c_depth c + 1).

Definition entry_ctx (c : ctx) (oid : Z) (key : pystr) : ctx :=
  Ctx (oid :: c_active c) (c_path c ++ u "." ++ key)
      (_json_pointer_child (c_pointer c) key) (c_depth c + 1).

Fixpoint print_items (c : ctx) (oid index : Z) (l : list printer) (n : Z) : res (pystr * Z) :=
  match l with
  | [] => Ok ([], n)
  | p :: l' =>
      '(t, n) ← p (item_ctx c oid index) n;
      '(ts, n) ← print_items c oid (index + 1) l' n;
      Ok ((if 0 <? index then u "," else []) ++ t ++ ts, n)
  end.

Fixpoint print_entries (c : ctx) (oid index : Z) (l : list (pystr * printer)) (n : Z) : res (pystr * Z) :=
  match l with
  | [] => Ok ([], n)
  | (key, p) :: l' =>
      '(t, n) ← p (entry_ctx c oid key) n;
      '(ts, n) ← print_entries c oid (index + 1) l' n;
      Ok ((if 0 <? index then u "," else []) ++ _json_string key ++ u ":" ++ t ++ ts, n)
  end.

Section print.
Context (limits : option JsonResourceLimits).

Definition print_scalar (text : res pystr) (n : Z) : res (pystr * Z) := t ← text; Ok (t, n).

Definition scalar_text (v : pyval) (path : pystr) : res pystr :=
  match v with
  | VNone => Ok (u "null")
  | VBool b => Ok (if b then u "true" else u "false")
  | VStr s => _reject_surrogates s path (u "string contains surrogate code point") ;; Ok (_json_string s)
  | VInt z => if MAX_SAFE_JSON_INTEGER <? Z.abs z
              then Raise (json_error (u "unsafe_integer") path (u "integer exceeds JSON safe integer range"))
              else Ok (int_str z)
  | VFloat f => _canonical_float f path
  | VBytes => Raise (json_error (u "non_canonical_input") path (u "bytes are not JSON values"))
  | VDatetime => Raise (json_error (u "non_canonical_input") path (u "datetime values are not JSON values"))
  | VCollection => Raise (json_error (u "non_canonical_input") path (u "collection type is not a JSON array"))
  | VOther n => Raise (json_error (u "non_canonical_input") path (n ++ u " is not a JSON-domain value"))
  | VList _ _ | VDict _ _ => Raise AssertionError
  end.

Fixpoint print (v : pyval) : printer := fun c n =>
  n ← visit limits n (c_depth c) (c_path c) (c_pointer c);
  match v with
  | VList oid l =>
      raise_if (bool_decide (oid ∈ c_active c))
        (json_error (u "cycle") (c_path c) (u "cyclic arrays are not JSON values")) ;;
      admit_direct_children limits n (Z.of_nat (length l)) (c_path c) (c_pointer c) ;;
      '(t, n) ← print_items c oid 0 (map print l) n;
      Ok (u "[" ++ t ++ u "]", n)
  | VDict oid l =>
      raise_if (bool_decide (oid ∈ c_active c))
        (json_error (u "cycle") (c_path c) (u "cyclic objects are not JSON values")) ;;
      admit_direct_children limits n (Z.of_nat (length l)) (c_path c) (c_pointer c) ;;
      entries ← mapR (string_entry (c_path c)) (map (fun '(k, x) => (k, print x)) l);
      '(t, n) ← print_entries c oid 0 (sort_entries entries) n;
      Ok (u "{" ++ t ++ u "}", n)
  | _ => print_scalar (scalar_text v (c_path c)) n
  end.
End print.

Definition root_ctx : ctx := Ctx [] (u "$") [] 0.

(** The canonical text as the recursive printer gives it. *)
Definition json_text (limits : option JsonResourceLimits) (v : pyval) : res pystr :=
  fst <$> print limits v root_ctx 0.

(** ** The writer implements the printer *)

Section refine.
Context (limits : option JsonResourceLimits).

(** The writer on frames [new ++ fs] behaves like a printer that prints the
    frames [new] in [cost] steps. *)
Definition runs_as (new : list frame) (act : list Z) (cost : nat)
    (p : Z -> res (pystr * Z)) : Prop :=
  forall fs n out fuel,
    run limits (cost + fuel) (Writer (new ++ fs) act n (TextOutput out)) =
    match p n with
    | Ok (t, n') => run limits fuel (Writer fs act n' (TextOutput (out ++ t)))
    | Raise e => Raise e
    end.

Lemma runs_as_nil act : runs_as [] act 0 (fun n => Ok ([], n)).
Proof. intros fs n out fuel. simpl. by rewrite app_nil_r. Qed.

Lemma runs_as_app f1 f2 act c1 c2 p1 p2 :
  runs_as f1 act c1 p1 -> runs_as f2 act c2 p2 ->
  runs_as (f1 ++ f2) act (c1 + c2)
    (fun n => '(t1, n) ← p1 n; '(t2, n) ← p2 n; Ok (t1 ++ t2, n)).
Proof.
  intros H1 H2 fs n out fuel. rewrite <-app_assoc, <-Nat.add_assoc, H1.
  destruct (p1 n) as [[t1 n1]|e]; simpl; [|done]. rewrite H2.
  destruct (p2 n1) as [[t2 n2]|e]; simpl; [|done]. by rewrite app_assoc.
Qed.

Lemma runs_as_text act t : runs_as [TextFrame t] act 1 (fun n => Ok (t, n)).
Proof. intros fs n out fuel. done. Qed.

Lemma runs_as_string act s path ptr :
  runs_as [StringFrame s path ptr] act 1 (fun n => Ok (_json_string s, n)).
Proof. intros fs n out fuel. done. Qed.

Lemma runs_as_ext f act c p q : (forall n, p n = q n) -> runs_as f act c p -> runs_as f act c q.
Proof. intros E H fs n out fuel. by rewrite <-E. Qed.

Definition prints (v : pyval) : Prop :=
  forall act path ptr depth,
    runs_as [ValueFrame v path ptr depth] act (weight v) (print limits v (Ctx act path ptr depth)).

Lemma prints_at v c :
  prints v ->
  runs_as [ValueFrame v (c_path c) (c_pointer c) (c_depth c)] (c_active c) (weight v) (print limits v c).
Proof. destruct c. intros H. apply H. Qed.

(** Items after the first: each is preceded by its comma. *)
Lemma list_frames_tail (l : list pyval) c oid index :
  Forall prints l -> 0 < index ->
  runs_as (list_frames (c_path c) (c_pointer c) (c_depth c + 1) index l) (oid :: c_active c)
    (list_sum (map (fun x => 1 + weight x)%nat l))
    (print_items c oid index (map (print limits) l)).
Proof.
  intros Hl. revert index. induction Hl as [|x l Hx Hl IH]; intros index Hi; [apply runs_as_nil|].
  assert ((0 <? index) = true) as Ei by lia.
  pose proof (runs_as_app _ _ _ _ _ _ _ (runs_as_text _ (u ","))
    (runs_as_app _ _ _ _ _ _ _ (prints_at _ (item_ctx c oid index) Hx) (IH (index + 1) ltac:(lia)))) as H.
  simpl list_frames. rewrite Ei. eapply runs_as_ext, H. intros n. simpl. rewrite Ei.
  destruct (print limits x _ n) as [[t n']|]; simpl; [|done].
  destruct (print_items _ _ _ _ n') as [[ts n'']|]; done.
Qed.

Lemma list_frames_runs (l : list pyval) c oid :
  Forall prints l ->
  runs_as (list_frames (c_path c) (c_pointer c) (c_depth c + 1) 0 l) (oid :: c_active c)
    (pred (list_sum (map (fun x => 1 + weight x)%nat l)))
    (print_items c oid 0 (map (print limits) l)).
Proof.
  intros [|x l' Hx Hl]; [apply runs_as_nil|].
  pose proof (runs_as_app _ _ _ _ _ _ _ (prints_at _ (item_ctx c oid 0) Hx) (list_frames_tail l' c oid 1 Hl ltac:(lia))) as H.
  eapply runs_as_ext, H. intros n. simpl.
  destruct (print limits x _ n) as [[t n']|]; simpl; done.
Qed.

Definition entry_printers (l : list (pystr * pyval)) : list (pystr * printer) :=
  map (fun '(k, x) => (k, print limits x)) l.

Lemma entry_frames_tail (l : list (pystr * pyval)) c oid index :
  Forall (fun kv => prints kv.2) l -> 0 < index ->
  runs_as (entry_frames (c_path c) (c_pointer c) (c_depth c + 1) index l) (oid :: c_active c)
    (list_sum (map (fun kv => 3 + weight kv.2)%nat l))
    (print_entries c oid index (entry_printers l)).
Proof.
  intros Hl. revert index. induction Hl as [|[k x] l Hx Hl IH]; intros index Hi; [apply runs_as_nil|].
  simpl in Hx. assert ((0 <? index) = true) as Ei by lia.
  pose proof (runs_as_app _ _ _ _ _ _ _ (runs_as_text _ (u ","))
    (runs_as_app _ _ _ _ _ _ _ (runs_as_string _ k (c_path c) (_json_pointer_child (c_pointer c) k))
      (runs_as_app _ _ _ _ _ _ _ (runs_as_text _ (u ":"))
        (runs_as_app _ _ _ _ _ _ _ (prints_at _ (entry_ctx c oid k) Hx) (IH (index + 1) ltac:(lia)))))) as H.
  simpl entry_frames. rewrite Ei. eapply runs_as_ext, H. intros n. simpl. rewrite Ei.
  destruct (print limits x _ n) as [[t n']|]; simpl; [|done].
  destruct (print_entries _ _ _ _ n') as [[ts n'']|]; done.
Qed.

Lemma entry_frames_runs (l : list (pystr * pyval)) c oid :
  Forall (fun kv => prints kv.2) l ->
  runs_as (entry_frames (c_path c) (c_pointer c) (c_depth c + 1) 0 l) (oid :: c_active c)
    (pred (list_sum (map (fun kv => 3 + weight kv.2)%nat l)))
    (print_entries c oid 0 (entry_printers l)).
Proof.
  intros [|[k x] l' Hx Hl]; [apply runs_as_nil|]. simpl in Hx.
  pose proof (runs_as_app _ _ _ _ _ _ _ (runs_as_string _ k (c_path c) (_json_pointer_child (c_pointer c) k))
      (runs_as_app _ _ _ _ _ _ _ (runs_as_text _ (u ":"))
        (runs_as_app _ _ _ _ _ _ _ (prints_at _ (entry_ctx c oid k) Hx) (entry_frames_tail l' c oid 1 Hl ltac:(lia))))) as H.
  eapply runs_as_ext, H. intros n. simpl.
  destruct (print limits x _ n) as [[t n']|]; simpl; [|done].
  destruct (print_entries _ _ _ _ n') as [[ts n'']|]; done.
Qed.

Lemma filter_absent (oid : Z) (act : list Z) : oid ∉ act -> filter (fun x => x <> oid) act = act.
Proof.
  induction act as [|x act IH]; intros Hn; [done|].
  rewrite filter_cons_True by set_solver. f_equal. apply IH. set_solver.
Qed.

(** Leaving a container drops its identity, which was not on the path. *)
Lemma run_exit fuel oid fs act n out :
  oid ∉ act ->
  run limits (S fuel) (Writer (ExitFrame oid :: fs) (oid :: act) n (TextOutput out)) =
  run limits fuel (Writer fs act n (TextOutput out)).
Proof.
  intros Hn. simpl. rewrite bool_decide_eq_true_2 by set_solver. simpl.
  rewrite filter_cons_False by auto. by rewrite filter_absent.
Qed.

(** A container: its items between brackets, its identity on the path. *)
Lemma run_container body cost p oid close fs act n out fuel :
  oid ∉ act -> runs_as body (oid :: act) cost p ->
  run limits (cost + S (S fuel))
    (Writer (body ++ TextFrame close :: ExitFrame oid :: fs) (oid :: act) n (TextOutput out)) =
  match p n with
  | Ok (t, n') => run limits fuel (Writer fs act n' (TextOutput (out ++ t ++ close)))
  | Raise e => Raise e
  end.
Proof.
  intros Hn Hb. rewrite (Hb (TextFrame close :: ExitFrame oid :: fs)).
  destruct (p n) as [[t n']|e]; [|done].
  change (run limits (S (S fuel))
      (Writer (TextFrame close :: ExitFrame oid :: fs) (oid :: act) n' (TextOutput (out ++ t)))) with
    (run limits (S fuel)
      (Writer (ExitFrame oid :: fs) (oid :: act) n' (TextOutput ((out ++ t) ++ close)))).
  by rewrite run_exit, app_assoc.
Qed.

Lemma string_entries_map {A B} (f : A -> B) path (l : list (dkey * A)) :
  mapR (string_entry path) (map (fun '(k, x) => (k, f x)) l) =
  map (fun '(k, x) => (k, f x)) <$> mapR (string_entry path) l.
Proof.
  induction l as [|[[key|rep] x] l IH]; simpl; [done| |done].
  assert (string_entry path (KStr key, f x) = prod_map id f <$> string_entry path (KStr key, x)) as ->.
  { unfold string_entry. simpl. by destruct (_reject_surrogates _ _ _). }
  rewrite IH. destruct (string_entry path (KStr key, x)) as [[k y]|]; simpl; [|done].
  by destruct (mapR (string_entry path) l).
Qed.

Lemma sort_entries_map {A B} (f : A -> B) (l : list (pystr * A)) :
  sort_entries (map (fun '(k, x) => (k, f x)) l) = map (fun '(k, x) => (k, f x)) (sort_entries l).
Proof.
  unfold sort_entries. induction l as [|[k x] l IH]; [done|]. simpl map. rewrite !isort_cons, IH.
  generalize (isort (fun a b : pystr * A => lex_leb a.1 b.1) l). intros m.
  induction m as [|[k' y] m IHm]; simpl; [done|]. destruct (lex_leb k k'); simpl; [done|].
  by rewrite IHm.
Qed.

Lemma string_entries_vals {A} path (l : list (dkey * A)) es :
  mapR (string_entry path) l = Ok es -> snd <$> es = snd <$> l.
Proof.
  revert es; induction l as [|[[key|rep] x] l IH]; intros es; simpl; [by intros [= <-]| |done].
  intros H. inv_res. unfold string_entry in H0. simpl in H0. inv_res. simpl. f_equal. by apply IH.
Qed.

Lemma list_sum_map_perm {A} (f : A -> nat) l1 l2 :
  l1 ≡ₚ l2 -> list_sum (map f l1) = list_sum (map f l2).
Proof. induction 1; simpl; lia. Qed.

Lemma sorted_cost (l : list (dkey * pyval)) path es :
  mapR (string_entry path) l = Ok es ->
  list_sum (map (fun kv => 3 + weight kv.2)%nat (sort_entries es)) =
  list_sum (map (fun kv => 3 + weight kv.2)%nat l).
Proof.
  intros H%string_entries_vals.
  transitivity (list_sum (map (fun kv => 3 + weight kv.2)%nat es)).
  { apply list_sum_map_perm, isort_perm. }
  revert l H. induction es as [|e es IH]; intros [|kv l]; simpl; try done.
  intros [= E1 E2]. rewrite E1. do 4 f_equal. by apply IH.
Qed.

Lemma run_step k f fs act n o :
  run limits (S k) (Writer (f :: fs) act n o) =
  (w' ← step limits f (Writer fs act n o); run limits k w').
Proof. done. Qed.

Lemma prints_list oid l : Forall prints l -> prints (VList oid l).
Proof.
  intros Hl act path ptr depth fs n out fuel. cbn [print app]. simpl c_depth. simpl c_path. simpl c_pointer.
  simpl c_active.
  replace (weight (VList oid l) + fuel)%nat with
    (S (pred (list_sum (map (fun x => 1 + weight x) l)) + S (S fuel)))%nat by (simpl; lia).
  rewrite run_step. simpl step.
  unfold write_value, _schedule_list. simpl nodes.
  destruct (visit limits n depth path ptr) as [n1|]; [|done]. simpl.
  destruct (decide (oid ∈ act)) as [Hin|Hin];
    [by rewrite bool_decide_eq_true_2|rewrite bool_decide_eq_false_2 by done]. simpl.
  destruct (admit_direct_children limits n1 _ path ptr); simpl; [|done].
  etrans; [apply run_container; [done|]|].
  { apply (list_frames_runs l (Ctx act path ptr depth) oid Hl). }
  destruct (print_items _ _ _ _ _) as [[t n2]|]; simpl; [|done]. by rewrite <-!app_assoc.
Qed.

Lemma prints_dict oid l : Forall (fun kv => prints kv.2) l -> prints (VDict oid l).
Proof.
  intros Hl act path ptr depth fs n out fuel. cbn [print app]. simpl c_depth. simpl c_path. simpl c_pointer.
  simpl c_active.
  replace (weight (VDict oid l) + fuel)%nat with
    (S (pred (list_sum (map (fun kv => 3 + weight kv.2) l)) + S (S fuel)))%nat by (simpl; lia).
  remember (pred (list_sum (map (fun kv => 3 + weight kv.2) l)))%nat as cost eqn:Hcost.
  rewrite run_step. simpl step.
  unfold write_value, _schedule_object. simpl nodes.
  destruct (visit limits n depth path ptr) as [n1|]; [|done]. simpl.
  destruct (decide (oid ∈ act)) as [Hin|Hin];
    [by rewrite bool_decide_eq_true_2|rewrite bool_decide_eq_false_2 by done]. simpl.
  destruct (admit_direct_children limits n1 _ path ptr); simpl; [|done].
  rewrite string_entries_map. destruct (mapR (string_entry path) l) as [es|] eqn:Ees; simpl; [|done].
  rewrite sort_entries_map. rewrite <-(sorted_cost _ _ _ Ees) in Hcost. subst cost.
  etrans; [apply run_container; [done|]|].
  { apply (entry_frames_runs (sort_entries es) (Ctx act path ptr depth) oid).
    apply Forall_forall. intros kv Hkv. unfold sort_entries in Hkv. rewrite isort_perm in Hkv.
    assert (kv.2 ∈ snd <$> l) as (kv' & E & Hkv')%list_elem_of_fmap.
    { rewrite <-(string_entries_vals _ _ _ Ees). by apply list_elem_of_fmap_2. }
    rewrite E. rewrite Forall_forall in Hl. by apply Hl. }
  destruct (print_entries _ _ _ _ _) as [[t n2]|]; simpl; [|done]. by rewrite <-!app_assoc.
Qed.

Lemma prints_all v : prints v.
Proof.
  induction v using pyval_ind'; [..|by apply prints_list|by apply prints_dict| | | |];
    intros act path ptr depth fs n0 out fuel; simpl; unfold write_value; simpl;
    destruct (visit limits n0 depth path ptr) as [n1|]; simpl; try done.
  - destruct (_reject_surrogates s path _); simpl; done.
  - destruct (MAX_SAFE_JSON_INTEGER <? Z.abs z); simpl; done.
  - destruct (_canonical_float f path); simpl; done.
Qed.
End refine.

Lemma canonical_json_text_eq limits v : canonical_json_text limits v = json_text limits v.
Proof.
  unfold canonical_json_text, _write_canonical_json, json_text.
  pose proof (prints_all limits v [] (u "$") [] 0 [] 0 [] 0%nat) as H. simpl in H.
  rewrite Nat.add_0_r in H. rewrite H. clear H. unfold root_ctx.
  by destruct (print limits v _ 0) as [[t n]|].
Qed.

(** ** Every text written is a scalar string *)

Lemma rstrip_elem c s x : x ∈ rstrip c s -> x ∈ s.
Proof.
  unfold rstrip. rewrite elem_of_reverse. intros H.
  rewrite <-(reverse_involutive s), elem_of_reverse. revert H.
  generalize (reverse s). intros l. induction l as [|y l IH]; [done|].
  destruct (y =? c); [intros H; right; by apply IH|done].
Qed.

Lemma scalar_rstrip c s : is_unicode_scalar_string s = true -> is_unicode_scalar_string (rstrip c s) = true.
Proof. intros H. apply (scalar_part _ _ H). apply rstrip_elem. Qed.
#[local] Hint Resolve scalar_rstrip : py.

Lemma fixed_decimal_scalar digits i :
  is_unicode_scalar_string digits = true -> is_unicode_scalar_string (_fixed_decimal digits i) = true.
Proof. intros H. unfold _fixed_decimal. repeat case_match; auto 8 with py. Qed.

Lemma decimal_parts_scalar mantissa e :
  is_unicode_scalar_string mantissa = true -> is_unicode_scalar_string (_decimal_parts mantissa e).1 = true.
Proof. intros H. unfold _decimal_parts. case_match; simpl; auto with py. Qed.

Lemma ecmascript_number_text_scalar f : is_unicode_scalar_string (_ecmascript_number_text f) = true.
Proof.
  unfold _ecmascript_number_text.
  assert (is_unicode_scalar_string (if float_negative f then u "-" else []) = true) as Hsign
    by by case_match.
  revert Hsign. generalize (if float_negative f then u "-" else []). intros sign Hsign.
  pose proof (float_repr_scalar (float_abs f)) as Ht. revert Ht.
  generalize (float_repr (float_abs f)). intros text Ht.
  destruct (find_char 101 text) as [i|].
  - pose proof (decimal_parts_scalar (take i text) (parse_int (drop (S i) text)) ltac:(auto with py)) as Hd.
    destruct (_decimal_parts _ _) as [digits index]. simpl in Hd.
    destruct (_ && _); [apply scalar_app_2; [done|by apply fixed_decimal_scalar]|].
    destruct (0 <=? _), (bool_decide _); auto 12 with py.
  - unfold _strip_integer_float. case_match; auto with py.
Qed.

Lemma json_string_scalar s : is_unicode_scalar_string s = true -> is_unicode_scalar_string (_json_string s) = true.
Proof.
  intros H. unfold _json_string. apply scalar_app_2; [done|]. apply scalar_app_2; [|done].
  apply forallb_elem. intros c Hc. apply list_elem_of_In, in_flat_map in Hc as (x & Hx & Hc).
  apply list_elem_of_In in Hx, Hc. unfold is_unicode_scalar_string in H. rewrite forallb_elem in H.
  specialize (H x Hx). pose proof H as Hb. rewrite is_scalar_bounds in Hb.
  unfold json_escape, u, hex_digit in Hc. apply is_scalar_bounds.
  assert (0 <= x < 32 -> 0 <= x / 16 < 16 /\ 0 <= x mod 16 < 16).
  { intros. split; [split; [apply Z.div_pos|apply Z.div_lt_upper_bound]; lia|apply Z.mod_pos_bound; lia]. }
  repeat case_match; bdec; simpl in Hc;
    repeat (apply elem_of_cons in Hc as [->|Hc]; [simpl; try lia|]); try set_solver.
Qed.
#[local] Hint Resolve ecmascript_number_text_scalar json_string_scalar int_str_scalar : py.

Lemma canonical_float_scalar f path t : _canonical_float f path = Ok t -> is_unicode_scalar_string t = true.
Proof. unfold _canonical_float. repeat case_match; intros; inv_res; auto with py. Qed.
#[local] Hint Resolve canonical_float_scalar : py.

(** ** The bounded output *)

Lemma utf8_width_length c : Z.of_nat (length (utf8_char c)) = utf8_width c.
Proof. unfold utf8_char, utf8_width. by repeat case_match. Qed.

Lemma utf8_width_pos c : 1 <= utf8_width c.
Proof. unfold utf8_width. repeat case_match; lia. Qed.

Definition utf8_size (s : pystr) : Z := Z.of_nat (length (flat_map utf8_char s)).

Lemma utf8_size_cons c s : utf8_size (c :: s) = utf8_width c + utf8_size s.
Proof. unfold utf8_size. simpl. rewrite length_app, Nat2Z.inj_add. by rewrite utf8_width_length. Qed.

Lemma utf8_size_app s t : utf8_size (s ++ t) = utf8_size s + utf8_size t.
Proof. unfold utf8_size. by rewrite flat_map_app, length_app, Nat2Z.inj_add. Qed.

Lemma utf8_size_nonneg s : 0 <= utf8_size s.
Proof. unfold utf8_size. lia. Qed.

(** The early-exit count compares the UTF-8 size. *)
Lemma utf8_count_exceeds_spec s k limit :
  k <= limit -> utf8_count_exceeds k limit s = (limit <? k + utf8_size s).
Proof.
  revert k; induction s as [|c s IH]; intros k Hk; simpl.
  - symmetry. apply Z.ltb_ge. unfold utf8_size. simpl. lia.
  - rewrite utf8_size_cons. pose proof (utf8_size_nonneg s). destruct (Z.ltb_spec limit (k + utf8_width c)).
    + symmetry. apply Z.ltb_lt. lia.
    + rewrite IH by lia. f_equal. lia.
Qed.

Lemma utf8_length_exceeds_spec s limit :
  0 <= limit -> _utf8_length_exceeds s limit = (limit <? utf8_size s).
Proof.
  intros Hl. unfold _utf8_length_exceeds. destruct (forallb _ s) eqn:E.
  - f_equal. induction s as [|c s IH]; [done|]. simpl in E. bdec.
    rewrite utf8_size_cons, <-IH by done. unfold utf8_width.
    rewrite (proj2 (Z.leb_le c 127)) by done. simpl length. lia.
  - by rewrite utf8_count_exceeds_spec.
Qed.

(** Escaping and quoting never shortens a string. *)
Lemma json_escape_size c : utf8_width c <= utf8_size (json_escape c).
Proof.
  unfold json_escape. repeat case_match; bdec; try done.
  - unfold utf8_size, utf8_width. simpl. repeat case_match; bdec; try lia.
    all: rewrite !length_app; simpl; lia.
  - rewrite utf8_size_cons. pose proof (utf8_size_nonneg []). lia.
Qed.

Lemma json_string_size s : utf8_size s + 2 <= utf8_size (_json_string s).
Proof.
  unfold _json_string. rewrite !utf8_size_app.
  assert (utf8_size [34] = 1) as -> by done.
  cut (utf8_size s <= utf8_size (flat_map json_escape s)); [lia|].
  induction s as [|c s IH]; simpl; [done|].
  rewrite utf8_size_cons, utf8_size_app. pose proof (json_escape_size c). lia.
Qed.

Section bounded.
Context (limits : option JsonResourceLimits) (m : Z) (Hm : 0 <= m).

Definition frame_ok (f : frame) : Prop :=
  match f with
  | TextFrame t => is_unicode_scalar_string t = true
  | StringFrame s _ _ => is_unicode_scalar_string s = true
  | _ => True
  end.

(** The bounded output after the text [t]: its bytes, or an overflow. *)
Definition out_rel (t : pystr) (o : json_output) : Prop :=
  is_unicode_scalar_string t = true /\
  match o with
  | BoundedBytesOutput m' c None => m' = m /\ c = flat_map utf8_char t /\ utf8_size t <= m
  | BoundedBytesOutput m' _ (Some e) =>
      m' = m /\ (exists path pointer, e = byte_overflow m path pointer) /\ m < utf8_size t
  | TextOutput _ => False
  end.

Lemma append_sim t o s :
  out_rel t o -> is_unicode_scalar_string s = true ->
  exists o', append o s = Ok o' /\ out_rel (t ++ s) o'.
Proof.
  intros [Ht Ho] Hs. destruct o as [|m' c [e|]]; [done| |]; simpl.
  - eexists; split; [done|]. split; [by apply scalar_app_2|]. destruct Ho as (-> & ? & ?).
    split_and!; [done|done|]. rewrite utf8_size_app. pose proof (utf8_size_nonneg s). lia.
  - destruct Ho as (-> & -> & Hlen). unfold utf8_encode. rewrite Hs. simpl.
    fold (utf8_size t) (utf8_size s).
    destruct (Z.ltb_spec (m - utf8_size t) (utf8_size s)).
    + eexists; split; [done|]. split; [by apply scalar_app_2|]. rewrite utf8_size_app.
      split_and!; [done|by do 2 eexists|lia].
    + eexists; split; [done|]. split; [by apply scalar_app_2|]. rewrite utf8_size_app, flat_map_app.
      split_and!; [done|done|lia].
Qed.

Lemma write_text_sim fs act n t o s :
  out_rel t o -> is_unicode_scalar_string s = true ->
  exists o', write_text (Writer fs act n o) s = Ok (Writer fs act n o') /\ out_rel (t ++ s) o'.
Proof.
  intros Ho Hs. destruct (append_sim t o s) as (o' & E & Ho'); [done..|].
  exists o'. unfold write_text. simpl. by rewrite E.
Qed.

Lemma write_string_sim fs act n t o s path ptr :
  out_rel t o -> is_unicode_scalar_string s = true ->
  exists o', write_string (Writer fs act n o) s path ptr = Ok (Writer fs act n o') /\
    out_rel (t ++ _json_string s) o'.
Proof.
  intros Ho Hs. unfold write_string. simpl output.
  pose proof (json_string_size s) as Hsize.
  destruct Ho as [Ht Ho]. destruct o as [|m' c [e|]]; [done| |]; simpl.
  - eexists; split; [done|]. split; [auto with py|]. destruct Ho as (-> & ? & ?).
    split_and!; [done|done|]. rewrite utf8_size_app. pose proof (utf8_size_nonneg s). lia.
  - destruct Ho as (-> & -> & Hlen). rewrite utf8_length_exceeds_spec by done.
    destruct (Z.ltb_spec m (utf8_size s)).
    + eexists; split; [done|]. split; [auto with py|]. rewrite utf8_size_app.
      pose proof (utf8_size_nonneg t). split_and!; [done|by do 2 eexists|lia].
    + apply (write_text_sim _ _ _ t); [|auto with py]. by split.
Qed.

(** Lockstep: a step on the bounded output does what the step on the text
    output does. *)
Definition sim (r rb : res writer) : Prop :=
  match r with
  | Ok w => exists t o, output w = TextOutput t /\ rb = Ok (Writer (frames w) (active w) (nodes w) o) /\
              out_rel t o /\ Forall frame_ok (frames w)
  | Raise e => rb = Raise e
  end.

Lemma sim_text fs act n t o s :
  out_rel t o -> Forall frame_ok fs -> is_unicode_scalar_string s = true ->
  sim (write_text (Writer fs act n (TextOutput t)) s) (write_text (Writer fs act n o) s).
Proof.
  intros Ho Hfs Hs. destruct (write_text_sim fs act n t o s) as (o' & E & ?); [done..|].
  exists (t ++ s), o'. done.
Qed.

Lemma sim_string fs act n t o s path ptr :
  out_rel t o -> Forall frame_ok fs -> is_unicode_scalar_string s = true ->
  sim (write_string (Writer fs act n (TextOutput t)) s path ptr) (write_string (Writer fs act n o) s path ptr).
Proof.
  intros Ho Hfs Hs. destruct (write_string_sim fs act n t o s path ptr) as (o' & E & ?); [done..|].
  exists (t ++ _json_string s), o'. done.
Qed.

Lemma list_frames_ok path ptr depth index l : Forall frame_ok (list_frames path ptr depth index l).
Proof.
  revert index; induction l as [|x l IH]; intros index; simpl; [done|].
  apply Forall_app; split; [by case_match; repeat constructor|]. by constructor.
Qed.

Lemma entry_frames_ok path ptr depth index l :
  Forall (fun kv => is_unicode_scalar_string kv.1 = true) l ->
  Forall frame_ok (entry_frames path ptr depth index l).
Proof.
  intros Hl. revert index; induction Hl as [|[k x] l Hk Hl IH]; intros index; simpl; [done|].
  apply Forall_app; split; [by case_match; repeat constructor|]. by repeat constructor.
Qed.

Lemma string_entries_scalar {A} path (l : list (dkey * A)) es :
  mapR (string_entry path) l = Ok es -> Forall (fun kv => is_unicode_scalar_string kv.1 = true) es.
Proof.
  rewrite mapR_Ok. induction 1 as [|[[k|] x] e l es H Hl IH]; [done| |done].
  unfold string_entry, _reject_surrogates in H. simpl in H. inv_res. bdec. by constructor.
Qed.

Lemma sim_container body oid open close fs act n t o :
  out_rel t o -> Forall frame_ok fs -> Forall frame_ok body ->
  is_unicode_scalar_string open = true -> is_unicode_scalar_string close = true ->
  let next o := Writer (body ++ TextFrame close :: ExitFrame oid :: fs) (oid :: act) n o in
  sim (o' ← append (TextOutput t) open; Ok (next o')) (o' ← append o open; Ok (next o')).
Proof.
  intros Ho Hfs Hb Hopen Hclose next. destruct (append_sim t o open) as (o' & E & Ho'); [done..|].
  rewrite E. exists (t ++ open), o'. split_and!; [done..|].
  apply Forall_app; split; [done|]. by repeat constructor.
Qed.

Lemma step_sim f fs act n t o :
  out_rel t o -> frame_ok f -> Forall frame_ok fs ->
  sim (step limits f (Writer fs act n (TextOutput t))) (step limits f (Writer fs act n o)).
Proof.
  intros Ho Hf Hfs. destruct f as [v path ptr depth|s|s path ptr|oid]; unfold step.
  - unfold write_value. simpl nodes. simpl frames. simpl active. simpl output.
    destruct (visit limits n depth path ptr) as [n1|]; simpl mbind; [|done]. unfold res_bind.
    destruct v as [|b|s|z|f|oid l|oid l| | | |]; try done; try (apply sim_text; auto with py; by case_match).
    + unfold _reject_surrogates. destruct (is_unicode_scalar_string s) eqn:Hs; simpl; [|done].
      by apply sim_string.
    + case_match; [done|]. apply sim_text; auto with py.
    + destruct (_canonical_float f path) eqn:E; simpl; [|done]. apply sim_text; eauto with py.
    + unfold _schedule_list. simpl active. simpl nodes. destruct (raise_if _ _); simpl; [|done].
      destruct (admit_direct_children _ _ _ _ _); simpl; [|done].
      apply sim_container; try done. apply list_frames_ok.
    + unfold _schedule_object. simpl active. simpl nodes. destruct (raise_if _ _); simpl; [|done].
      destruct (admit_direct_children _ _ _ _ _); simpl; [|done].
      destruct (mapR _ _) as [es|] eqn:Ees; simpl; [|done].
      apply sim_container; try done. apply entry_frames_ok.
      unfold sort_entries. rewrite isort_perm. by eapply string_entries_scalar.
  - by apply sim_text.
  - by apply sim_string.
  - simpl. case_bool_decide; [|done]. by exists t, o.
Qed.

Lemma run_sim fuel fs act n t o :
  out_rel t o -> Forall frame_ok fs ->
  sim (run limits fuel (Writer fs act n (TextOutput t))) (run limits fuel (Writer fs act n o)).
Proof.
  revert fs act n t o; induction fuel as [|k IH]; intros [|f fs] act n t o Ho Hfs;
    try (by exists t, o); try done.
  inversion Hfs; subst. rewrite !run_step.
  pose proof (step_sim f fs act n t o) as Hs. unfold sim in Hs.
  destruct (step limits f (Writer fs act n (TextOutput t))) as [[fs' act' n' ?]|e]; simpl.
  - destruct Hs as (t' & o' & E1 & E2 & Ho' & Hfs'); [done..|]. simpl in *. subst. rewrite E2. by apply IH.
  - by rewrite Hs.
Qed.
End bounded.

(** The bounded writer against the unbounded one. *)
Definition bounded_outcome (m : Z) (r : res (list Z)) (b : res (list Z)) : Prop :=
  match r with
  | Ok bytes => if Z.of_nat (length bytes) <=? m then b = Ok bytes
                else exists path pointer, b = Raise (byte_overflow m path pointer)
  | Raise e => b = Raise e
  end.

Lemma bounded_json_outcome limits v m :
  0 <= m -> bounded_outcome m (canonical_json limits v) (bounded_canonical_json v m limits).
Proof.
  intros Hm. unfold canonical_json, canonical_json_text, bounded_canonical_json, _write_canonical_json.
  rewrite (proj2 (Z.ltb_ge m 0)) by done. simpl.
  pose proof (run_sim limits m Hm (weight v) [ValueFrame v (u "$") [] 0] [] 0 []
    (BoundedBytesOutput m [] None)) as H. unfold sim in H.
  destruct (run limits (weight v) (Writer [ValueFrame v (u "$") [] 0] [] 0 (TextOutput []))) as [w|e]; simpl.
  - destruct H as (t & o & E & -> & [Ht Ho] & _).
    { split; [done|]. split_and!; [done|done|]. unfold utf8_size. simpl. lia. }
    { by repeat constructor. }
    rewrite E. simpl. unfold utf8_encode. rewrite Ht. simpl. fold (utf8_size t).
    destruct o as [|m' c [x|]]; [done| |]; simpl.
    + destruct Ho as (-> & (p & q & ->) & Hlt). rewrite (proj2 (Z.leb_gt _ _)) by done. by do 2 eexists.
    + destruct Ho as (-> & -> & Hle). by rewrite (proj2 (Z.leb_le _ _)).
  - rewrite H; [done| |by repeat constructor].
    split; [done|]. split_and!; [done|done|]. unfold utf8_size. simpl. lia.
Qed.

(** ** Resource limits

    The node count and the depth of a value, and the law of the guard: a value
    is written under limits exactly when it is written without them and its
    depth and node count are within them; the text is the same. *)

Definition zsum (l : list Z) : Z := foldr Z.add 0 l.
Definition zmax (l : list Z) : Z := foldr Z.max 0 l.

Fixpoint json_nodes (v : pyval) : Z :=
  match v with
  | VList _ l => 1 + zsum (map json_nodes l)
  | VDict _ l => 1 + zsum (map (fun kv => json_nodes kv.2) l)
  | _ => 1
  end.

Fixpoint json_depth (v : pyval) : Z :=
  match v with
  | VList _ l => zmax (map (fun x => 1 + json_depth x) l)
  | VDict _ l => zmax (map (fun kv => 1 + json_depth kv.2) l)
  | _ => 0
  end.

Lemma zmax_le l b : zmax l <= b <-> 0 <= b /\ Forall (fun x => x <= b) l.
Proof.
  induction l as [|x l IH]; simpl; [by rewrite Forall_nil; lia|].
  rewrite Forall_cons. unfold zmax in *. rewrite Z.max_lub_iff, IH. tauto.
Qed.

Lemma zsum_perm l1 l2 : l1 ≡ₚ l2 -> zsum l1 = zsum l2.
Proof. unfold zsum. induction 1; simpl; lia. Qed.

Lemma zsum_lower l : Forall (fun x => 1 <= x) l -> Z.of_nat (length l) <= zsum l.
Proof. unfold zsum. induction 1; simpl length; simpl; lia. Qed.

Lemma json_nodes_pos v : 1 <= json_nodes v.
Proof.
  induction v using pyval_ind'; simpl; try lia.
  - assert (Forall (fun x => 1 <= x) (map json_nodes l)) as Hl%zsum_lower by by apply Forall_map. lia.
  - assert (Forall (fun x => 1 <= x) (map (fun kv => json_nodes kv.2) l)) as Hl%zsum_lower by by apply Forall_map.
    lia.
Qed.

Lemma json_depth_nonneg v : 0 <= json_depth v.
Proof. destruct v; simpl; try done; apply (proj1 (zmax_le _ _) (Z.le_refl _)). Qed.

Definition drop_count (r : res (pystr * Z)) (n : Z) : res (pystr * Z) := (fun p => (p.1, n)) <$> r.

(** Without limits the count is threaded unchanged. *)
Definition counts_nothing (p : printer) : Prop := forall c n, p c n = drop_count (p c 0) n.

Lemma print_items_count c oid i l n :
  Forall counts_nothing l -> print_items c oid i l n = drop_count (print_items c oid i l 0) n.
Proof.
  intros Hl. revert i n. induction Hl as [|p l Hp Hl IH]; intros i n; simpl; [done|].
  rewrite (Hp _ n). pose proof (Hp (item_ctx c oid i) 0) as H0.
  destruct (p (item_ctx c oid i) 0) as [[t n0]|e]; simpl; [|done].
  injection H0 as ->. rewrite (IH (i + 1) n).
  destruct (print_items c oid (i + 1) l 0) as [[ts m]|e]; done.
Qed.

Lemma print_entries_count c oid i l n :
  Forall (fun kp => counts_nothing kp.2) l ->
  print_entries c oid i l n = drop_count (print_entries c oid i l 0) n.
Proof.
  intros Hl. revert i n. induction Hl as [|[k p] l Hp Hl IH]; intros i n; simpl in *; [done|].
  rewrite (Hp _ n). pose proof (Hp (entry_ctx c oid k) 0) as H0.
  destruct (p (entry_ctx c oid k) 0) as [[t n0]|e]; simpl; [|done].
  injection H0 as ->. rewrite (IH (i + 1) n).
  destruct (print_entries c oid (i + 1) l 0) as [[ts m]|e]; done.
Qed.

(** An entry list of a dict has the values of the dict, in key order. *)
Lemma sorted_values {A} path (l : list (dkey * A)) es :
  mapR (string_entry path) l = Ok es -> snd <$> sort_entries es ≡ₚ snd <$> l.
Proof.
  intros H%string_entries_vals. rewrite <-H. unfold sort_entries. by rewrite isort_perm.
Qed.

Lemma Forall_values {A} (P : A -> Prop) path (l : list (dkey * A)) es :
  mapR (string_entry path) l = Ok es -> Forall (fun kv => P kv.2) l ->
  Forall (fun kv => P kv.2) (sort_entries es).
Proof.
  intros H%sorted_values Hl. apply (Forall_fmap snd P). rewrite H. by apply Forall_fmap.
Qed.

Lemma print_None_count v : counts_nothing (print None v).
Proof.
  induction v as [| | | | |oid l IH|oid l IH| | | |] using pyval_ind'; intros c n0; simpl; try done.
  - destruct (_reject_surrogates _ _ _); done.
  - by case_match.
  - by destruct (_canonical_float _ _).
  - destruct (raise_if _ _); simpl; [|done].
    rewrite (print_items_count _ _ _ _ n0) by by apply Forall_map.
    by destruct (print_items _ _ _ _ 0) as [[]|].
  - destruct (raise_if _ _); simpl; [|done]. destruct (mapR _ _) as [es|] eqn:Ees; simpl; [|done].
    rewrite (print_entries_count _ _ _ _ n0).
    + by destruct (print_entries _ _ _ _ 0) as [[]|].
    + eapply Forall_values; [exact Ees|]. apply Forall_map. eapply Forall_impl; [exact IH|]. by intros [k x].
Qed.

Lemma print_None_0 v c t n : print None v c 0 = Ok (t, n) -> n = 0.
Proof. intros H. pose proof (print_None_count v c 0) as E. rewrite H in E. by injection E. Qed.

Section limited.
Context (L : JsonResourceLimits).

(** A value within the limits, from the depth and the count it is met at. *)
Definition fits (depth n : Z) (v : pyval) : Prop :=
  depth + json_depth v <= max_depth L /\ n + json_nodes v <= max_nodes L.

Definition limited (v : pyval) : Prop := forall c n t n',
  print (Some L) v c n = Ok (t, n') <->
  print None v c 0 = Ok (t, 0) /\ fits (c_depth c) n v /\ n' = n + json_nodes v.

(** The same, of the items of a container. *)
Definition fit_items (depth n : Z) (l : list pyval) : Prop :=
  Forall (fun v => depth + 1 + json_depth v <= max_depth L) l /\
  (l = [] \/ n + zsum (map json_nodes l) <= max_nodes L).

Lemma fit_items_cons depth n x l :
  fit_items depth n (x :: l) <->
  fits (depth + 1) n x /\ fit_items depth (n + json_nodes x) l.
Proof.
  unfold fit_items, fits. rewrite Forall_cons. simpl. pose proof (json_nodes_pos x).
  assert (0 <= zsum (map json_nodes l)).
  { assert (Forall (fun x => 1 <= x) (map json_nodes l)) as Hl%zsum_lower.
    { apply Forall_map, Forall_forall. intros y _. apply json_nodes_pos. } lia. }
  split.
  - intros [[H1 H2] [?|H3]]; [done|]. split_and!; [lia|lia|done|right; lia].
  - intros [[H1 H2] [H3 H4]]. split_and!; [lia|done|]. right. destruct H4 as [->|]; simpl in *; lia.
Qed.

Lemma print_items_limited l c oid i n t n' :
  Forall limited l ->
  print_items c oid i (map (print (Some L)) l) n = Ok (t, n') <->
  print_items c oid i (map (print None) l) 0 = Ok (t, 0) /\ fit_items (c_depth c) n l /\
  n' = n + zsum (map json_nodes l).
Proof.
  intros Hl. revert i n t n'. induction Hl as [|x l Hx Hl IH]; intros i n t n'.
  - simpl. unfold fit_items. split; [intros [= <- <-]; split_and!; auto; lia|].
    intros (E & _ & ->). injection E as <-. do 2 f_equal. lia.
  - rewrite fit_items_cons. simpl. rewrite bind_Ok. split.
    + intros ([t1 n1] & H1 & H2). apply Hx in H1 as (E1 & F1 & ->).
      apply bind_Ok in H2 as ([t2 n2] & H2 & [= <- <-]). apply IH in H2 as (E2 & F2 & ->).
      rewrite E1. simpl. rewrite E2. split_and!; [done|exact F1|done|lia].
    + intros (E & [F1 F2] & ->). apply bind_Ok in E as ([t1 n1] & E1 & E2).
      pose proof (print_None_0 _ _ _ _ E1) as ->. apply bind_Ok in E2 as ([t2 n2] & E2 & [= <- ->]).
      exists (t1, n + json_nodes x). split; [by apply Hx|].
      apply bind_Ok. exists (t2, n + json_nodes x + zsum (map json_nodes l)).
      split; [by apply IH|]. do 2 f_equal. lia.
Qed.

Lemma print_entries_limited l c oid i n t n' :
  Forall (fun kv => limited kv.2) l ->
  print_entries c oid i (entry_printers (Some L) l) n = Ok (t, n') <->
  print_entries c oid i (entry_printers None l) 0 = Ok (t, 0) /\ fit_items (c_depth c) n (map snd l) /\
  n' = n + zsum (map json_nodes (map snd l)).
Proof.
  intros Hl. revert i n t n'. induction Hl as [|[k x] l Hx Hl IH]; intros i n t n'.
  - simpl. unfold fit_items. split; [intros [= <- <-]; split_and!; auto; lia|].
    intros (E & _ & ->). injection E as <-. do 2 f_equal. lia.
  - simpl map. rewrite fit_items_cons. simpl in *. rewrite bind_Ok. split.
    + intros ([t1 n1] & H1 & H2). apply Hx in H1 as (E1 & F1 & ->).
      apply bind_Ok in H2 as ([t2 n2] & H2 & [= <- <-]). apply IH in H2 as (E2 & F2 & ->).
      rewrite E1. simpl. rewrite E2. split_and!; [done|exact F1|done|lia].
    + intros (E & [F1 F2] & ->). apply bind_Ok in E as ([t1 n1] & E1 & E2).
      pose proof (print_None_0 _ _ _ _ E1) as ->. apply bind_Ok in E2 as ([t2 n2] & E2 & [= <- ->]).
      exists (t1, n + json_nodes x). split; [by apply Hx|].
      apply bind_Ok. exists (t2, n + json_nodes x + zsum (map json_nodes (map snd l))).
      split; [by apply IH|]. do 2 f_equal. lia.
Qed.

Lemma fit_items_perm depth n l1 l2 : l1 ≡ₚ l2 -> fit_items depth n l1 -> fit_items depth n l2.
Proof.
  intros Hp [H1 H2]. split; [by rewrite <-Hp|]. destruct H2 as [->|H2].
  - left. by apply Permutation_nil_l in Hp.
  - right. by rewrite <-(zsum_perm _ _ (Permutation_map json_nodes Hp)).
Qed.

(** A container is within the limits when the guard before its items passes
    and its items are. *)
Lemma fits_container depth n l v :
  json_nodes v = 1 + zsum (map json_nodes l) ->
  json_depth v = zmax (map (fun x => 1 + json_depth x) l) ->
  fits depth n v <-> depth <= max_depth L /\ n + 1 <= max_nodes L /\ fit_items depth (n + 1) l.
Proof.
  intros En Ed. unfold fits, fit_items. rewrite En, Ed.
  assert (depth + zmax (map (fun x => 1 + json_depth x) l) <= max_depth L <->
    depth <= max_depth L /\ Forall (fun v => depth + 1 + json_depth v <= max_depth L) l) as ->.
  { pose proof (zmax_le (map (fun x => 1 + json_depth x) l) (max_depth L - depth)) as Hz.
    rewrite Forall_map in Hz.
    assert (Forall (fun x => 1 + json_depth x <= max_depth L - depth) l <->
      Forall (fun v => depth + 1 + json_depth v <= max_depth L) l) as Hf.
    { apply Forall_proper; [|done]. intros y; lia. }
    rewrite <-Hf. split.
    - intros H. destruct (proj1 Hz ltac:(lia)). split; [lia|done].
    - intros [H1 H2]. assert (0 <= max_depth L - depth) as H0 by lia. pose proof (proj2 Hz (conj H0 H2)). lia. }
  assert (Forall (fun x => 1 <= x) (map json_nodes l)) as Hl%zsum_lower.
  { apply Forall_map, Forall_forall. intros y _. apply json_nodes_pos. }
  destruct l as [|x l]; simpl in *; [intuition lia|]. intuition (try lia); done.
Qed.

Lemma visit_limited n depth path ptr n1 :
  visit (Some L) n depth path ptr = Ok n1 <->
  depth <= max_depth L /\ n + 1 <= max_nodes L /\ n1 = n + 1.
Proof.
  unfold visit. destruct (Z.ltb_spec (max_depth L) depth), (Z.ltb_spec (max_nodes L) (n + 1));
    split; intros; inv_res; intuition (try lia). subst. done.
Qed.

(** The early node guard is implied by the count of the items. *)
Lemma admit_fit depth n l path ptr :
  n <= max_nodes L -> fit_items depth n l ->
  admit_direct_children (Some L) n (Z.of_nat (length l)) path ptr = Ok tt.
Proof.
  intros Hn [_ H]. unfold admit_direct_children. apply raise_if_Ok, Z.ltb_ge.
  destruct H as [->|H]; [simpl; lia|].
  assert (Forall (fun x => 1 <= x) (map json_nodes l)) as Hl%zsum_lower.
  { apply Forall_map, Forall_forall. intros y _. apply json_nodes_pos. }
  rewrite length_map in Hl. lia.
Qed.

(** Scalars: the visit is the only guard. *)
Lemma limited_scalar v c n (text : res pystr) t n' :
  json_nodes v = 1 -> json_depth v = 0 ->
  (n1 ← visit (Some L) n (c_depth c) (c_path c) (c_pointer c); print_scalar text n1) = Ok (t, n') <->
  print_scalar text 0 = Ok (t, 0) /\ fits (c_depth c) n v /\ n' = n + json_nodes v.
Proof.
  intros En Ed. unfold fits. rewrite En, Ed, bind_Ok. split.
  - intros (n1 & (Hd & Hn & ->)%visit_limited & Ht). unfold print_scalar in *. inv_res.
    split_and!; [done|lia|lia|done].
  - intros (H & [H1 H2] & ->). exists (n + 1). rewrite visit_limited. split; [lia|].
    unfold print_scalar in *. by inv_res.
Qed.

Lemma limited_list oid l : Forall limited l -> limited (VList oid l).
Proof.
  intros Hl c n t n'. rewrite (fits_container _ _ l) by done. simpl. rewrite bind_Ok. split.
  - intros (n1 & (Hd & Hn & ->)%visit_limited & H). revert H. destruct (bool_decide (oid ∈ c_active c)); intros H; simpl in *; [naive_solver|].
    inv_res. destruct r0 as [t1 n1]. inv_res.
    match goal with H : print_items _ _ _ _ _ = _ |- _ =>
      apply print_items_limited in H as (-> & Hf & ->); [|done] end.
    split_and!; [done|done|done|done|lia].
  - intros (H & (Hd & Hn & Hf) & ->). exists (n + 1). rewrite visit_limited. split; [done|].
    revert H. destruct (bool_decide (oid ∈ c_active c)); intros H; simpl in *; [naive_solver|]. rewrite (admit_fit (c_depth c)) by done. simpl.
    apply bind_Ok in H as ([t1 n1] & E & H). inv_res.
    apply bind_Ok. exists (t1, n + 1 + zsum (map json_nodes l)).
    split; [by apply print_items_limited|]. do 2 f_equal. lia.
Qed.

Lemma limited_dict oid l : Forall (fun kv => limited kv.2) l -> limited (VDict oid l).
Proof.
  intros Hl c n t n'. rewrite (fits_container _ _ (map snd l)) by (simpl; by rewrite map_map).
  simpl. rewrite bind_Ok, !string_entries_map.
  destruct (mapR (string_entry (c_path c)) l) as [es|] eqn:Ees; simpl.
  2: { split; [intros (n1 & ? & H); inv_res|intros [H ?]; inv_res]. }
  rewrite !sort_entries_map. fold (entry_printers (Some L) (sort_entries es)).
  fold (entry_printers None (sort_entries es)).
  pose proof (Forall_values _ _ _ _ Ees Hl) as Hes. pose proof (sorted_values _ _ _ Ees) as Hp.
  assert (zsum (map json_nodes (map snd (sort_entries es))) = zsum (map (fun kv => json_nodes kv.2) l)) as Hsum.
  { rewrite <-(map_map snd json_nodes). apply zsum_perm, Permutation_map, Hp. }
  rewrite <-Hsum. split.
  - intros (n1 & (Hd & Hn & ->)%visit_limited & H). revert H. destruct (bool_decide (oid ∈ c_active c)); intros H; simpl in *; [naive_solver|].
    inv_res. destruct r0 as [t1 n1]. inv_res.
    match goal with H : print_entries _ _ _ _ _ = _ |- _ =>
      apply print_entries_limited in H as (-> & Hf & ->); [|done] end.
    split_and!; [done|done|done|by eapply fit_items_perm|lia].
  - intros (H & (Hd & Hn & Hf) & ->). exists (n + 1). rewrite visit_limited. split; [done|].
    revert H. destruct (bool_decide (oid ∈ c_active c)); intros H; simpl in *; [naive_solver|].
    rewrite <-(length_map snd l), (admit_fit (c_depth c)) by done. simpl.
    apply bind_Ok in H as ([t1 n1] & E & H). inv_res.
    apply bind_Ok. exists (t1, n + 1 + zsum (map json_nodes (map snd (sort_entries es)))).
    split; [|do 2 f_equal; lia]. apply print_entries_limited; [done|].
    split_and!; [done|by eapply fit_items_perm|done].
Qed.

Lemma print_limited v : limited v.
Proof.
  induction v using pyval_ind'; [..|by apply limited_list|by apply limited_dict| | | |];
    intros c n0 t n'; apply limited_scalar; done.
Qed.
End limited.

Lemma json_text_limited L v t :
  json_text (Some L) v = Ok t <->
  json_text None v = Ok t /\ json_depth v <= max_depth L /\ json_nodes v <= max_nodes L.
Proof.
  unfold json_text. rewrite !fmap_Ok. split.
  - intros ([t' n] & H & ->). apply print_limited in H as (E & [H1 H2] & ->). simpl in *.
    split_and!; [by eexists (_, _)|lia|lia].
  - intros (([t' n] & E & ->) & H1 & H2). pose proof (print_None_0 _ _ _ _ E) as ->.
    exists (t', 0 + json_nodes v). split; [|done]. apply print_limited. split_and!; [done|split; simpl; lia|done].
Qed.

(** ** Insertion order of dicts does not matter *)

(** The entries of a JSON object: scalar string keys, no key twice. *)
Definition object_entries (l : list (dkey * pyval)) : Prop :=
  NoDup (fst <$> l) /\
  Forall (fun kv => exists k, kv.1 = KStr k /\ is_unicode_scalar_string k = true) l.

(** [reorders v v']: [v'] is [v] with entries of some dicts, at any depth,
    inserted in another order. *)
Inductive reorders : pyval -> pyval -> Prop :=
  | reorders_refl v : reorders v v
  | reorders_trans v1 v2 v3 : reorders v1 v2 -> reorders v2 v3 -> reorders v1 v3
  | reorders_perm oid l l' : object_entries l -> l ≡ₚ l' -> reorders (VDict oid l) (VDict oid l')
  | reorders_list oid l1 x y l2 :
      reorders x y -> reorders (VList oid (l1 ++ x :: l2)) (VList oid (l1 ++ y :: l2))
  | reorders_dict oid l1 k x y l2 :
      reorders x y -> reorders (VDict oid (l1 ++ (k, x) :: l2)) (VDict oid (l1 ++ (k, y) :: l2)).

Definition same_printer (p q : printer) : Prop := forall c n, p c n = q c n.

Lemma print_items_ext c oid i l l' n :
  Forall2 same_printer l l' -> print_items c oid i l n = print_items c oid i l' n.
Proof.
  intros Hl. revert i n. induction Hl as [|p q l l' Hp Hl IH]; intros i n; simpl; [done|].
  rewrite Hp. destruct (q _ n) as [[t n1]|]; simpl; [|done]. by rewrite IH.
Qed.

Definition same_entry {K} (e e' : K * printer) : Prop := e.1 = e'.1 /\ same_printer e.2 e'.2.

Lemma print_entries_ext c oid i l l' n :
  Forall2 same_entry l l' -> print_entries c oid i l n = print_entries c oid i l' n.
Proof.
  intros Hl. revert i n. induction Hl as [|[k p] [k' q] l l' [Hk Hp] Hl IH]; intros i n; simpl in *; [done|].
  subst k'. rewrite Hp. destruct (q _ n) as [[t n1]|]; simpl; [|done]. by rewrite IH.
Qed.

Lemma sort_entries_ext (l l' : list (pystr * printer)) :
  Forall2 same_entry l l' -> Forall2 same_entry (sort_entries l) (sort_entries l').
Proof.
  unfold sort_entries. induction 1 as [|e e' l l' He Hl IH]; [constructor|]. rewrite !isort_cons.
  induction IH as [|f f' m m' Hf Hm IHm]; simpl; [by apply Forall2_cons|].
  destruct He as [Ek He], Hf as [Ef Hf]. rewrite <-Ek, <-Ef.
  destruct (lex_leb e.1 f.1); repeat (apply Forall2_cons; split); done.
Qed.

Lemma string_entry_KStr {A} path k (x : A) :
  string_entry path (KStr k, x) =
  if is_unicode_scalar_string k then Ok (k, x)
  else Raise (json_error (u "invalid_unicode_scalar") path (u "object key contains surrogate code point")).
Proof. unfold string_entry, _reject_surrogates. simpl. by destruct (is_unicode_scalar_string k). Qed.

Lemma string_entries_ext path (l l' : list (dkey * printer)) :
  Forall2 same_entry l l' ->
  match mapR (string_entry path) l with
  | Ok es => exists es', mapR (string_entry path) l' = Ok es' /\ Forall2 same_entry es es'
  | Raise e => mapR (string_entry path) l' = Raise e
  end.
Proof.
  induction 1 as [|[k p] [k' q] l l' [Hk Hp] Hl IH]; simpl in *; [by exists []|]. subst k'.
  destruct k as [k|rep]; [|done]. rewrite !string_entry_KStr.
  destruct (is_unicode_scalar_string k); simpl; [|done].
  destruct (mapR (string_entry path) l) as [es|e]; simpl.
  - destruct IH as (es' & -> & Hes). eexists; split; [done|]. by constructor.
  - by rewrite IH.
Qed.

Lemma sort_entries_perm {A} (l l' : list (pystr * A)) :
  NoDup (fst <$> l) -> l ≡ₚ l' -> sort_entries l = sort_entries l'.
Proof.
  intros Hn Hp. pose (lt (a b : pystr * A) := lex_leb a.1 b.1 = true /\ a.1 <> b.1).
  assert (forall m, NoDup (fst <$> m) -> StronglySorted lt (sort_entries m)) as Hs.
  { intros m Hm. unfold sort_entries.
    assert (NoDup (fst <$> isort (fun a b : pystr * A => lex_leb a.1 b.1) m)) as Hnd by by rewrite isort_perm.
    pose proof (isort_sorted (fun a b : pystr * A => lex_leb a.1 b.1)
      (fun x y => lex_leb_total x.1 y.1) (fun x y z => lex_leb_trans x.1 y.1 z.1) m) as H.
    induction H as [|x m' Hm' IH Hx]; [constructor|].
    rewrite fmap_cons, NoDup_cons in Hnd. destruct Hnd as [Hx' Hnd]. constructor; [by apply IH|].
    rewrite Forall_forall in Hx |- *. intros y Hy. split; [by apply Hx|]. intros E.
    apply Hx'. rewrite E. by apply list_elem_of_fmap_2. }
  apply (strictly_sorted_unique lt); [by intros x []| |by apply Hs|apply Hs; by rewrite <-Hp|].
  - intros x y z [H1 N1] [H2 N2]. split; [by eapply lex_leb_trans|].
    intros E. apply N1. apply lex_leb_antisym; [done|]. by rewrite E.
  - intros x. unfold sort_entries. by rewrite !isort_perm, Hp.
Qed.

Lemma string_entries_good {A} path (l : list (dkey * A)) :
  Forall (fun kv => exists k, kv.1 = KStr k /\ is_unicode_scalar_string k = true) l ->
  exists es, mapR (string_entry path) l = Ok es /\ (fun kv => (KStr kv.1, kv.2)) <$> es = l.
Proof.
  induction 1 as [|[k x] l (s & Es & Hs) Hl (es & E & Em)]; [by exists []|]. simpl in Es. subst k.
  exists ((s, x) :: es). cbn [mapR]. rewrite string_entry_KStr, Hs.
  cbn [mbind res_bind]. rewrite E. split; [done|]. csimpl. by rewrite Em.
Qed.

Lemma print_perm limits oid l l' :
  object_entries l -> l ≡ₚ l' -> same_printer (print limits (VDict oid l)) (print limits (VDict oid l')).
Proof.
  intros [Hnd Hk] Hp c n. simpl. rewrite (Permutation_length Hp), !string_entries_map.
  destruct (string_entries_good (c_path c) l Hk) as (es & E & El).
  rewrite Hp in Hk. destruct (string_entries_good (c_path c) l' Hk) as (es' & E' & El').
  rewrite E, E'. simpl. rewrite !sort_entries_map.
  assert (es ≡ₚ es') as Hes.
  { pose (key_text k := match k with KStr s => s | KOther r => r end).
    assert (forall m : list (pystr * pyval),
      m = (fun kv => (key_text kv.1, kv.2)) <$> ((fun kv => (KStr kv.1, kv.2)) <$> m)) as Hinv.
    { intros m. induction m as [|[] m IH]; [done|]. csimpl. by f_equal. }
    rewrite (Hinv es), (Hinv es'), El, El'. by rewrite Hp. }
  rewrite (sort_entries_perm es es'); [done| |done].
  rewrite <-El, <-list_fmap_compose in Hnd. apply (NoDup_fmap_1 KStr). by rewrite <-list_fmap_compose.
Qed.

Lemma print_reorders limits v v' : reorders v v' -> same_printer (print limits v) (print limits v').
Proof.
  induction 1 as [v|v1 v2 v3 _ IH1 _ IH2|oid l l' Hl Hp|oid l1 x y l2 _ IH|oid l1 k x y l2 _ IH].
  - done.
  - intros c n. by rewrite IH1.
  - by apply print_perm.
  - intros c n. simpl. rewrite !length_app. simpl length.
    destruct (visit _ _ _ _ _); simpl; [|done]. destruct (raise_if _ _); simpl; [|done].
    destruct (admit_direct_children _ _ _ _ _); simpl; [|done].
    rewrite (print_items_ext _ _ _ _ (map (print limits) (l1 ++ y :: l2))); [done|].
    rewrite !map_app. simpl. apply Forall2_app; [by apply Forall_Forall2_diag, Forall_true|]. constructor; [done|]. by apply Forall_Forall2_diag, Forall_true.
  - intros c n. simpl. rewrite !length_app. simpl length.
    destruct (visit _ _ _ _ _); simpl; [|done]. destruct (raise_if _ _); simpl; [|done].
    destruct (admit_direct_children _ _ _ _ _); simpl; [|done].
    assert (Forall2 same_entry (map (fun '(k, x) => (k, print limits x)) (l1 ++ (k, x) :: l2))
      (map (fun '(k, x) => (k, print limits x)) (l1 ++ (k, y) :: l2))) as He.
    { rewrite !map_app. simpl. apply Forall2_app; [by apply Forall_Forall2_diag, Forall_true|].
      constructor; [done|]. by apply Forall_Forall2_diag, Forall_true. }
    pose proof (string_entries_ext (c_path c) _ _ He) as Hs.
    destruct (mapR (string_entry (c_path c)) (map _ (l1 ++ (k, x) :: l2))) as [es|e]; simpl.
    + destruct Hs as (es' & -> & Hes). simpl. by rewrite (print_entries_ext _ _ _ _ _ _ (sort_entries_ext _ _ Hes)).
    + by rewrite Hs.
Qed.

(** ** Only [CanonicalJsonError] is raised *)

Definition is_resource_code (code : pystr) : bool :=
  bool_decide (code = u "json_max_depth_exceeded") || bool_decide (code = u "json_max_nodes_exceeded").

(** Errors are [CanonicalJsonError]s, and those of the resource guard carry
    their facts. *)
Definition is_json_error {A} (r : res A) : Prop :=
  match r with
  | Ok _ => True
  | Raise (CanonicalJsonError code _ _ pointer limit observed) =>
      code <> u "canonical_json_max_bytes_exceeded" /\
      (is_resource_code code = true -> is_Some pointer /\ is_Some limit /\ is_Some observed)
  | Raise _ => False
  end.

Lemma is_json_error_bind {A B} (r : res A) (f : A -> res B) :
  is_json_error r -> (forall a, r = Ok a -> is_json_error (f a)) -> is_json_error (r ≫= f).
Proof. destruct r as [a|e]; simpl; [|done]. intros _ H. by apply H. Qed.

Definition safe_printer (p : printer) : Prop := forall c n, is_json_error (p c n).

Lemma print_items_safe c oid i l n : Forall safe_printer l -> is_json_error (print_items c oid i l n).
Proof.
  intros Hl. revert i n. induction Hl as [|p l Hp Hl IH]; intros i n; simpl; [done|].
  apply is_json_error_bind; [apply Hp|]. intros [t n1] _. apply is_json_error_bind; [apply IH|]. by intros [].
Qed.

Lemma print_entries_safe c oid i l n :
  Forall (fun kp => safe_printer kp.2) l -> is_json_error (print_entries c oid i l n).
Proof.
  intros Hl. revert i n. induction Hl as [|[k p] l Hp Hl IH]; intros i n; simpl; [done|].
  apply is_json_error_bind; [apply Hp|]. intros [t n1] _. apply is_json_error_bind; [apply IH|]. by intros [].
Qed.

Lemma string_entries_safe {A} path (l : list (dkey * A)) : is_json_error (mapR (string_entry path) l).
Proof.
  induction l as [|[[k|] x] l IH]; simpl; [done| |done]. rewrite string_entry_KStr.
  destruct (is_unicode_scalar_string k); simpl; [|done].
  apply is_json_error_bind; [exact IH|done].
Qed.

Lemma visit_safe limits n d p q : is_json_error (visit limits n d p q).
Proof. unfold visit. by repeat case_match. Qed.

Lemma admit_safe limits n k p q : is_json_error (admit_direct_children limits n k p q).
Proof. unfold admit_direct_children, raise_if. by repeat case_match. Qed.

Lemma print_safe limits v : safe_printer (print limits v).
Proof.
  induction v as [| | | | |oid l IH|oid l IH| | | |] using pyval_ind'; intros c n0; simpl;
    (apply is_json_error_bind; [apply visit_safe|intros n1 _]); try done.
  - unfold _reject_surrogates, raise_if. by case_match.
  - by case_match.
  - unfold _canonical_float. by repeat case_match.
  - apply is_json_error_bind; [unfold raise_if; by case_match|intros _ _].
    apply is_json_error_bind; [apply admit_safe|intros _ _].
    apply is_json_error_bind; [|by intros []]. apply print_items_safe. by apply Forall_map.
  - apply is_json_error_bind; [unfold raise_if; by case_match|intros _ _].
    apply is_json_error_bind; [apply admit_safe|intros _ _].
    apply is_json_error_bind; [apply string_entries_safe|]. intros es Ees.
    apply is_json_error_bind; [|by intros []]. apply print_entries_safe.
    eapply Forall_values; [exact Ees|]. apply Forall_map. eapply Forall_impl; [exact IH|]. by intros [].
Qed.

Lemma canonical_json_text_scalar limits v t :
  canonical_json_text limits v = Ok t -> is_unicode_scalar_string t = true.
Proof.
  unfold canonical_json_text, _write_canonical_json.
  intros ([c|] & (w & Hr & Ho)%fmap_Ok & Hc)%bind_Ok; [|done]. injection Hc as ->.
  pose proof (run_sim limits 0 ltac:(lia) (weight v) [ValueFrame v (u "$") [] 0] [] 0 []
    (BoundedBytesOutput 0 [] None)) as H.
  rewrite Hr in H. destruct H as (t' & o & E & _ & [Ht _] & _).
  - split; [done|]. split_and!; [done|done|]. unfold utf8_size. simpl. lia.
  - by repeat constructor.
  - congruence.
Qed.

(** The bytes are the UTF-8 encoding of the recursive printer's text. *)
Lemma canonical_json_Ok limits v b :
  canonical_json limits v = Ok b <-> exists t, json_text limits v = Ok t /\ b = flat_map utf8_char t.
Proof.
  unfold canonical_json. rewrite bind_Ok, <-canonical_json_text_eq. split.
  - intros (t & Ht & Hb). exists t. split; [done|]. unfold utf8_encode in Hb. by case_match; inv_res.
  - intros (t & Ht & ->). exists t. split; [done|]. unfold utf8_encode.
    by rewrite (canonical_json_text_scalar _ _ _ Ht).
Qed.

Lemma canonical_json_errors limits v : is_json_error (canonical_json limits v).
Proof.
  unfold canonical_json. apply is_json_error_bind.
  - rewrite canonical_json_text_eq. unfold json_text. pose proof (print_safe limits v root_ctx 0) as H.
    by destruct (print limits v root_ctx 0).
  - intros t Ht. unfold utf8_encode. by rewrite (canonical_json_text_scalar _ _ _ Ht).
Qed.

(** ** Properties *)

(** The iterative writer (explicit frame stack, cycle guard, resource
    guard) terminates within the frames the value schedules and produces, on
    every value and under every limits, exactly the text or the exception of
    the recursive printer. *)
Theorem canonical_json_writer_correct limits v : canonical_json_text limits v = json_text limits v.
Proof. apply canonical_json_text_eq. Qed.

(** A bounded write returns the bytes of the unbounded one when they fit,
    raises [canonical_json_max_bytes_exceeded] when they do not, and raises the
    traversal's own exception when there is one, even after an overflow; a
    negative bound is refused. *)
Theorem bounded_canonical_json_correct limits v m :
  if m <? 0 then bounded_canonical_json v m limits =
                 Raise (ValueError (u "max_bytes must be a non-negative integer"))
  else bounded_outcome m (canonical_json limits v) (bounded_canonical_json v m limits).
Proof.
  destruct (Z.ltb_spec m 0); [|by apply bounded_json_outcome].
  unfold bounded_canonical_json. by rewrite (proj2 (Z.ltb_lt m 0)).
Qed.

(** Resource limits refuse exactly the values that are deeper or larger
    than they allow, and never change the bytes of the others. *)
Theorem canonical_json_resource_law L v b :
  canonical_json (Some L) v = Ok b <->
  canonical_json None v = Ok b /\ json_depth v <= max_depth L /\ json_nodes v <= max_nodes L.
Proof.
  rewrite !canonical_json_Ok. setoid_rewrite json_text_limited. naive_solver.
Qed.

(** The insertion order of dict entries, at any depth, does not change the
    result. *)
Theorem canonical_json_order_independent limits v v' :
  reorders v v' -> canonical_json limits v = canonical_json limits v'.
Proof.
  intros H. unfold canonical_json. rewrite !canonical_json_text_eq. unfold json_text.
  by rewrite (print_reorders limits _ _ H).
Qed.

Lemma canonical_json_order_independent_witness :
  canonical_json None (VDict 1 [(KStr (u "b"), VInt 1); (KStr (u "a"), VList 2 [])]) =
  canonical_json None (VDict 1 [(KStr (u "a"), VList 2 []); (KStr (u "b"), VInt 1)]) /\
  canonical_json None (VDict 1 [(KStr (u "a"), VList 2 []); (KStr (u "b"), VInt 1)]) =
  Ok [123; 34; 97; 34; 58; 91; 93; 44; 34; 98; 34; 58; 49; 125].
Proof.
  split; [|vm_compute; reflexivity].
  apply (canonical_json_order_independent None), reorders_perm; [|constructor].
  split; [|repeat constructor; by eexists].
  repeat constructor; simpl; set_solver.
Defined.

(** [try_canonical_json] returns on every value: the only exception the
    writer can raise is the one it turns into an [Err]. *)
Theorem try_canonical_json_total limits v :
  exists r, try_canonical_json limits v = Ok r /\
    match r with
    | ROk b => canonical_json limits v = Ok b
    | RErr code message => exists path pointer limit observed,
        canonical_json limits v = Raise (CanonicalJsonError code path message pointer limit observed)
    end.
Proof.
  unfold try_canonical_json. pose proof (canonical_json_errors limits v) as H.
  destruct (canonical_json limits v) as [b|[]]; try done; eexists; (split; [done|]); [done|by do 4 eexists].
Qed.
