(* ===== verification/Hashing.v ===== *)
(** * Content hashes

    Models [kernel/hashing.py].  [hashlib.sha256] is the class [Sha256]: a
    function from bytes to a lowercase hexadecimal digest; [sha256_digest] below
    is the algorithm of FIPS 180-4 and the instance [Sha256_fips].  The
    components are proved for every instance, so nothing they show depends on
    the digest's value.

    The second half is about the mappings the components hash: dict and list
    literals built for the call, so every container is a new object, and the
    condition under which hashing one cannot fail ([jsonable]). *)

From stdpp Require Import base gmap sets list sorting strings.
From Stdlib Require Import ZArith Lia.
From Stdlib Require Import SpecFloat.
From S2P Require Import Prelude Text PyFloat CanonicalJson.

Class Sha256 := {
  sha256 : list Z -> pystr;
  sha256_is_hex : forall b, is_sha256_hex (sha256 b) = true;
}.

(** ** The digest *)

Module Fips.

Definition w32 (z : Z) : Z := z mod 2 ^ 32.
Definition rotr (n x : Z) : Z := Z.lor (Z.shiftr x n) (w32 (Z.shiftl x (32 - n))).

(** The first [n] primes, by trial division from [c] up. *)
Fixpoint primes (fuel n : nat) (c : Z) (found : list Z) : list Z :=
  match fuel, n with
  | S f, S n' =>
      if existsb (fun p => c mod p =? 0) found then primes f n (c + 1) found
      else primes f n' (c + 1) (found ++ [c])
  | _, _ => found
  end.

(** The integer cube root, one bit at a time from bit [n - 1] down. *)
Fixpoint cbrt (n : nat) (acc x : Z) : Z :=
  match n with
  | O => acc
  | S n' =>
      let t := acc + 2 ^ Z.of_nat n' in
      cbrt n' (if t ^ 3 <=? x then t else acc) x
  end.

(** The round constants are the first 32 bits of the fractional parts of the
    cube roots of the first 64 primes, the initial state those of the square
    roots of the first eight. *)
Definition K : list Z :=
  Eval vm_compute in (fun p => w32 (cbrt 36 0 (p * 2 ^ 96))) <$> primes 400 64 2 [].

Definition H0 : list Z :=
  Eval vm_compute in (fun p => w32 (Z.sqrt (p * 2 ^ 64))) <$> primes 400 8 2 [].

(** Big-endian bytes of the 64-bit length. *)
Definition be64 (z : Z) : list Z := (fun i => (z / 256 ^ i) mod 256) <$> [7; 6; 5; 4; 3; 2; 1; 0].

Definition pad (b : list Z) : list Z :=
  let n := Z.of_nat (length b) in
  b ++ [128] ++ replicate (Z.to_nat ((55 - n) mod 64)) 0 ++ be64 (8 * n).

Fixpoint words (fuel : nat) (b : list Z) : list Z :=
  match fuel, b with
  | S f, b0 :: b1 :: b2 :: b3 :: r => (((b0 * 256 + b1) * 256 + b2) * 256 + b3) :: words f r
  | _, _ => []
  end.

(** The schedule keeps its last sixteen words, newest first. *)
Fixpoint schedule (n : nat) (recent : list Z) : list Z :=
  match n with
  | O => []
  | S n' =>
      let w i := nth i recent 0 in
      let s0 := Z.lxor (rotr 7 (w 14%nat)) (Z.lxor (rotr 18 (w 14%nat)) (Z.shiftr (w 14%nat) 3)) in
      let s1 := Z.lxor (rotr 17 (w 1%nat)) (Z.lxor (rotr 19 (w 1%nat)) (Z.shiftr (w 1%nat) 10)) in
      let x := w32 (w 15%nat + s0 + w 6%nat + s1) in
      x :: schedule n' (x :: take 15 recent)
  end.

Definition round (st : list Z) (kw : Z * Z) : list Z :=
  match st with
  | [a; b; c; d; e; f; g; h] =>
      let S1 := Z.lxor (rotr 6 e) (Z.lxor (rotr 11 e) (rotr 25 e)) in
      let ch := Z.lxor (Z.land e f) (Z.land (Z.lxor e (2 ^ 32 - 1)) g) in
      let t1 := h + S1 + ch + kw.1 + kw.2 in
      let S0 := Z.lxor (rotr 2 a) (Z.lxor (rotr 13 a) (rotr 22 a)) in
      let maj := Z.lxor (Z.land a b) (Z.lxor (Z.land a c) (Z.land b c)) in
      [w32 (t1 + S0 + maj); a; b; c; w32 (d + t1); e; f; g]
  | _ => st
  end.

Definition compress (st block : list Z) : list Z :=
  let ws := block ++ schedule 48 (reverse block) in
  zip_with (fun x y => w32 (x + y)) st (foldl round st (zip K ws)).

Fixpoint blocks (fuel : nat) (st : list Z) (b : list Z) : list Z :=
  match fuel with
  | O => st
  | S f => match b with
           | [] => st
           | _ => blocks f (compress st (words 16 (take 64 b))) (drop 64 b)
           end
  end.

Definition hex_word (w : Z) : pystr :=
  (fun i => hex_digit ((w / 16 ^ i) mod 16)) <$> [7; 6; 5; 4; 3; 2; 1; 0].

Definition state (b : list Z) : list Z :=
  let p := pad b in blocks (length p) H0 p.

(** Eight words, whatever the state. *)
Definition digest (b : list Z) : pystr :=
  flat_map (fun i => hex_word (nth i (state b) 0)) (seq 0 8).

Lemma hex_digit_is_hex n : is_lower_hex (hex_digit (n mod 16)) = true.
Proof.
  pose proof (Z.mod_pos_bound n 16 ltac:(lia)). unfold is_lower_hex, hex_digit.
  destruct (Z.ltb_spec (n mod 16) 10); lia.
Qed.

Lemma digest_is_hex b : is_sha256_hex (digest b) = true.
Proof.
  unfold is_sha256_hex, digest. generalize (state b). intros st.
  assert (forallb is_lower_hex (flat_map (fun i => hex_word (nth i st 0)) (seq 0 8)) = true) as ->.
  { apply forallb_elem. intros c (i & _ & Hc)%list_elem_of_In%in_flat_map.
    unfold hex_word in Hc. apply list_elem_of_In in Hc. apply list_elem_of_fmap in Hc as (k & -> & _).
    apply hex_digit_is_hex. }
  done.
Qed.

End Fips.

Definition sha256_digest : list Z -> pystr := Fips.digest.

#[export] Instance Sha256_fips : Sha256 | 100 :=
  {| sha256 := sha256_digest; sha256_is_hex := Fips.digest_is_hex |}.

(** The standard's test vector for the message [abc]. *)
Example sha256_abc :
  sha256_digest [97; 98; 99] = u "ba7816bf8f01cfea414140de5dae2223b00361a396177a9cb410ff61f20015ad".
Proof. vm_compute. reflexivity. Qed.

(** A cheap digest, a 16-bit checksum written as 64 hexadecimal digits.  It is
    an instance of the class for evaluating concrete inputs. *)
Definition checksum (b : list Z) : pystr :=
  let s := foldl (fun acc x => (acc * 31 + x) mod 65536) 7 b in
  (fun i => hex_digit ((s / 16 ^ i) mod 16)) <$> (Z.of_nat <$> seq 0 64).

Lemma checksum_is_hex b : is_sha256_hex (checksum b) = true.
Proof.
  unfold is_sha256_hex, checksum.
  generalize (foldl (fun acc x => (acc * 31 + x) mod 65536) 7 b). intros s.
  assert (forallb is_lower_hex ((fun i => hex_digit ((s / 16 ^ i) mod 16)) <$> (Z.of_nat <$> seq 0 64)) = true) as ->.
  { apply forallb_elem. intros c (k & -> & _)%list_elem_of_fmap. apply Fips.hex_digit_is_hex. }
  by rewrite !length_fmap, length_seq.
Qed.

Definition Sha256_checksum : Sha256 := {| sha256 := checksum; sha256_is_hex := checksum_is_hex |}.

(** ** The functions of the module *)

Section hashing.
Context `{Sha256}.

Definition sha256_hex (value : list Z) : pystr := sha256 value.

Definition hash_object (value : pyval) : res pystr :=
  b ← canonical_json None value; Ok (sha256_hex b).

Definition try_hash_object (value : pyval) : res (ResultValue pystr) :=
  canonical ← try_canonical_json None value;
  match canonical with
  | RErr code message => Ok (RErr code message)
  | ROk b => Ok (ROk (sha256_hex b))
  end.
End hashing.

(** ** Mappings built for a call

    [obj] and [arr] are dict and list displays; [fresh] gives each container of
    the value an identity of its own along every path. *)

Definition obj (l : list (string * pyval)) : pyval := VDict 0 ((fun kv => (KStr (u kv.1), kv.2)) <$> l).
Definition arr (l : list pyval) : pyval := VList 0 l.
Definition str_list (l : list pystr) : pyval := arr (VStr <$> l).
Definition opt_str (o : option pystr) : pyval := match o with Some s => VStr s | None => VNone end.

#[export] Instance dkey_eq_dec : EqDecision dkey.
Proof. solve_decision. Defined.

(** Keys of a decoded object, and [decoded.get(key)]. *)
Definition dict_keys (l : list (dkey * pyval)) : list pystr :=
  (fun kv => match kv.1 with KStr s => s | KOther r => r end) <$> l.
Definition dict_get (l : list (dkey * pyval)) (key : string) : pyval :=
  default VNone (foldl (fun acc kv => if bool_decide (kv.1 = KStr (u key)) then Some kv.2 else acc) None l).

Fixpoint fresh (d : Z) (v : pyval) : pyval :=
  match v with
  | VList _ l => VList d (map (fresh (d + 1)) l)
  | VDict _ l => VDict d (map (fun kv => (kv.1, fresh (d + 1) kv.2)) l)
  | _ => v
  end.

(** [hash_object({...})] of a display. *)
Definition hash_mapping `{Sha256} (v : pyval) : res pystr := hash_object (fresh 0 v).

(** Values the writer accepts: scalar strings, safe numbers, scalar string
    keys. *)
Fixpoint jsonable (v : pyval) : bool :=
  match v with
  | VNone | VBool _ => true
  | VStr s => is_unicode_scalar_string s
  | VInt z => is_safe_int z
  | VFloat f => float_isfinite f && negb (float_gt_safe f)
  | VList _ l => forallb jsonable l
  | VDict _ l => forallb (fun kv =>
      match kv.1 with KStr k => is_unicode_scalar_string k | KOther _ => false end && jsonable kv.2) l
  | _ => false
  end.

Definition prints_ok (d : Z) (v : pyval) : Prop :=
  forall c n, (forall o, o ∈ c_active c -> o < d) -> is_ok (print None (fresh d v) c n) = true.

Lemma print_items_ok c d i l n :
  (forall o, o ∈ c_active c -> o < d) -> Forall (prints_ok (d + 1)) l ->
  is_ok (print_items c d i (map (print None) (map (fresh (d + 1)) l)) n) = true.
Proof.
  intros Hc Hl. revert i n. induction Hl as [|x l Hx Hl IH]; intros i n; simpl; [done|].
  pose proof (Hx (item_ctx c d i) n) as H.
  destruct (print None _ _ n) as [[t n1]|]; simpl.
  - specialize (IH (i + 1) n1). by destruct (print_items _ _ _ _ _) as [[]|].
  - apply H. simpl. intros o [->|Ho%Hc]%elem_of_cons; lia.
Qed.

Lemma print_entries_ok c d i (l : list (pystr * printer)) n :
  (forall o, o ∈ c_active c -> o < d) ->
  Forall (fun kp => forall c n, (forall o, o ∈ c_active c -> o < d + 1) -> is_ok (kp.2 c n) = true) l ->
  is_ok (print_entries c d i l n) = true.
Proof.
  intros Hc Hl. revert i n. induction Hl as [|[k p] l Hx Hl IH]; intros i n; simpl in *; [done|].
  pose proof (Hx (entry_ctx c d k) n) as H.
  destruct (p _ n) as [[t n1]|]; simpl.
  - specialize (IH (i + 1) n1). by destruct (print_entries _ _ _ _ _) as [[]|].
  - apply H. simpl. intros o [->|Ho%Hc]%elem_of_cons; lia.
Qed.

Lemma jsonable_prints v : jsonable v = true -> forall d, prints_ok d v.
Proof.
  induction v as [| |s|z|f|oid l IH|oid l IH| | | |] using pyval_ind'; intros Hv d c n0 Hc; simpl in *; try done.
  - unfold _reject_surrogates. by rewrite Hv.
  - unfold is_safe_int in Hv. bdec. by rewrite (proj2 (Z.ltb_ge _ _)).
  - unfold _canonical_float. bdec. rewrite H, H0. simpl. by case_match.
  - rewrite bool_decide_eq_false_2 by (intros Ho%Hc; lia). simpl.
    assert (Forall (prints_ok (d + 1)) l) as Hl.
    { rewrite Forall_forall in IH |- *. rewrite forallb_elem in Hv. intros x Hx. by apply IH; auto. }
    pose proof (print_items_ok c d 0 l n0 Hc Hl) as H.
    destruct (print_items _ _ _ _ _) as [[]|]; done.
  - rewrite bool_decide_eq_false_2 by (intros Ho%Hc; lia). simpl.
    rewrite forallb_elem in Hv. rewrite Forall_forall in IH.
    set (l' := map _ (map _ l)).
    destruct (string_entries_good (c_path c) l') as (es & Ees & _).
    { apply Forall_map, Forall_map, Forall_forall. intros [k x] Hx. simpl.
      specialize (Hv _ Hx). simpl in Hv. destruct k as [k|]; [|done]. bdec. eauto. }
    rewrite Ees. simpl.
    pose proof (print_entries_ok c d 0 (sort_entries es) n0 Hc) as H.
    destruct (print_entries _ _ _ _ _) as [[]|]; [done|]. apply H.
    apply (Forall_values (fun p : printer => forall c n,
      (forall o, o ∈ c_active c -> o < d + 1) -> is_ok (p c n) = true) _ _ _ Ees). apply Forall_map, Forall_map, Forall_forall.
    intros [k x] Hx. simpl. intros c' n' Hc'.
    specialize (Hv _ Hx). simpl in Hv. apply andb_true_iff' in Hv as [_ Hv].
    by apply (IH _ Hx Hv (d + 1)).
Qed.

Section totality.
Context `{Sha256}.

(** Hashing a display of accepted values returns a digest. *)
Lemma hash_mapping_total v :
  jsonable v = true -> exists h, hash_mapping v = Ok h /\ is_sha256_hex h = true.
Proof.
  intros Hv. unfold hash_mapping, hash_object.
  pose proof (jsonable_prints v Hv 0 root_ctx 0 ltac:(simpl; set_solver)) as Hp.
  destruct (print None (fresh 0 v) root_ctx 0) as [[t n]|] eqn:E; [|done].
  assert (canonical_json None (fresh 0 v) = Ok (flat_map utf8_char t)) as ->.
  { apply canonical_json_Ok. exists t. split; [|done]. unfold json_text. by rewrite E. }
  simpl. eexists; split; [done|]. apply sha256_is_hex.
Qed.

Lemma hash_object_hex v h : hash_object v = Ok h -> is_sha256_hex h = true.
Proof. unfold hash_object. intros Hh. inv_res. apply sha256_is_hex. Qed.

Lemma hash_mapping_hex v h : hash_mapping v = Ok h -> is_sha256_hex h = true.
Proof. apply hash_object_hex. Qed.
End totality.

(** Building blocks of accepted values. *)
Lemma jsonable_obj l :
  forallb (fun kv => jsonable kv.2) l = true -> jsonable (obj l) = true.
Proof.
  unfold obj. simpl. intros Hl. rewrite forallb_elem in Hl. apply forallb_elem.
  intros kv ([k v] & -> & Hkv)%list_elem_of_fmap. simpl. rewrite scalar_u. by apply (Hl (k, v)).
Qed.

Lemma jsonable_str_list l :
  (forall s, s ∈ l -> is_unicode_scalar_string s = true) -> jsonable (str_list l) = true.
Proof.
  intros H. unfold str_list, arr. simpl. apply forallb_elem.
  intros v (s & -> & Hs)%list_elem_of_fmap. by apply H.
Qed.

Lemma jsonable_arr {A} (f : A -> pyval) l :
  (forall x, x ∈ l -> jsonable (f x) = true) -> jsonable (arr (f <$> l)) = true.
Proof.
  intros H. unfold arr. simpl. apply forallb_elem. intros v (x & -> & Hx)%list_elem_of_fmap. by apply H.
Qed.

Lemma jsonable_opt_str o :
  (forall s, o = Some s -> is_unicode_scalar_string s = true) -> jsonable (opt_str o) = true.
Proof. destruct o; simpl; auto. Qed.

#[export] Hint Resolve jsonable_obj jsonable_str_list jsonable_arr jsonable_opt_str : py.

(** Digests are never computed during a proof search. *)
#[global] Opaque hash_mapping.

(** ** For concrete runs *)

(** The value of a computation that returned. *)
Definition get_ok {A} (r : res A) : is_ok r = true -> A :=
  match r with Ok a => fun _ => a | Raise _ => fun H => False_rect A (Bool.diff_false_true H) end.

Definition sha40 : pystr := u "0123456789abcdef0123456789abcdef01234567".
Definition sha40' : pystr := u "89abcdef0123456789abcdef0123456789abcdef".
Definition hex64 : pystr := u "0123456789abcdef0123456789abcdef0123456789abcdef0123456789abcdef".
