(* ===== verification/JsonLoads.v ===== *)
(** * [json.loads]

    The decoder of the standard library on the bytes the sources give it:
    UTF-8, then JSON text to values.  Containers are new objects; a repeated
    key keeps its first place and its last value; numbers without fraction and
    exponent are integers (at most 4300 digits), the others the nearest
    binary64, ties to even.  The message of [JSONDecodeError] is left out: no
    code reads it. *)

From stdpp Require Import base gmap sets list sorting strings.
From Stdlib Require Import ZArith Lia.
From Stdlib Require Import SpecFloat.
From S2P Require Import Prelude Text PyFloat CanonicalJson Hashing.

(** ** Bytes *)

Definition is_continuation (b : Z) : bool := (0x80 <=? b) && (b <=? 0xBF).

(** [bytes.decode("utf-8", "surrogatepass")]. *)
Fixpoint utf8_decode (bytes : list Z) : res pystr :=
  match bytes with
  | [] => Ok []
  | b0 :: r0 =>
      if b0 <=? 0x7F then (cons b0) <$> utf8_decode r0
      else match r0 with
      | b1 :: r1 =>
          if negb (is_continuation b1) then Raise UnicodeDecodeError
          else if (0xC2 <=? b0) && (b0 <=? 0xDF) then
            (cons ((b0 - 0xC0) * 64 + (b1 - 0x80))) <$> utf8_decode r1
          else match r1 with
          | b2 :: r2 =>
              if negb (is_continuation b2) then Raise UnicodeDecodeError
              else if (0xE0 <=? b0) && (b0 <=? 0xEF) then
                let c := (b0 - 0xE0) * 4096 + (b1 - 0x80) * 64 + (b2 - 0x80) in
                if c <? 0x800 then Raise UnicodeDecodeError else (cons c) <$> utf8_decode r2
              else match r2 with
              | b3 :: r3 =>
                  if negb (is_continuation b3) then Raise UnicodeDecodeError
                  else if (0xF0 <=? b0) && (b0 <=? 0xF4) then
                    let c := (b0 - 0xF0) * 262144 + (b1 - 0x80) * 4096 + (b2 - 0x80) * 64 + (b3 - 0x80) in
                    if (c <? 0x10000) || (0x10FFFF <? c) then Raise UnicodeDecodeError else (cons c) <$> utf8_decode r3
                  else Raise UnicodeDecodeError
              | [] => Raise UnicodeDecodeError
              end
          | [] => Raise UnicodeDecodeError
          end
      | [] => Raise UnicodeDecodeError
      end
  end.

(** [detect_encoding(bytes) == "utf-8"]: no byte order mark, and no zero among
    the first bytes. *)
Definition detects_utf8 (bytes : list Z) : bool :=
  negb (bool_decide (0 ∈ take 4 bytes)) &&
  negb (bool_decide (take 3 bytes = [0xEF; 0xBB; 0xBF])) &&
  negb (bool_decide (take 2 bytes = [0xFE; 0xFF])) && negb (bool_decide (take 2 bytes = [0xFF; 0xFE])).

(** ** Numbers *)

(** [x / unit] rounded to an integer, ties to even. *)
Definition round_half_even (x unit : Z) : Z :=
  let q := x / unit in
  let r := x mod unit in
  if (unit <? 2 * r) || ((unit =? 2 * r) && Z.odd q) then q + 1 else q.

(** The float nearest to [d * 10^p], ties to even: with [x = d * 10^p * 2^1074]
    the exponent is that of the 53-bit window of [x], and the quotient is
    rounded there. *)
Definition float_of_decimal (sign : bool) (d p : Z) : spec_float :=
  let x := d * 10 ^ Z.max p 0 * 2 ^ 1074 in
  let y := 10 ^ Z.max (- p) 0 in
  let shift := Z.max (Z.log2 (x / y) - 52) 0 in
  let m := round_half_even x (y * 2 ^ shift) in
  let '(m, e) := if m =? 2 ^ 53 then (2 ^ 52, shift + 1 - 1074) else (m, shift - 1074) in
  if m =? 0 then S754_zero sign
  else if 971 <? e then S754_infinity sign
  else S754_finite sign (Z.to_pos m) e.

Definition is_digit (c : Z) : bool := (48 <=? c) && (c <=? 57).

Fixpoint span_digits (s : pystr) : pystr * pystr :=
  match s with
  | c :: r => if is_digit c then let '(ds, rest) := span_digits r in (c :: ds, rest) else ([], s)
  | [] => ([], [])
  end.

(** [(\.[0-9]+)?] *)
Definition scan_fraction (s : pystr) : option pystr * pystr :=
  match s with
  | 46 :: r => match span_digits r with
               | ([], _) => (None, s)
               | (ds, rest) => (Some ds, rest)
               end
  | _ => (None, s)
  end.

(** [([eE][-+]?[0-9]+)?], with its value. *)
Definition scan_exponent (s : pystr) : option Z * pystr :=
  match s with
  | c :: r =>
      if (c =? 101) || (c =? 69) then
        let '(sign, r') := match r with
                           | 45 :: r' => (-1, r')
                           | 43 :: r' => (1, r')
                           | _ => (1, r)
                           end in
        match span_digits r' with
        | ([], _) => (None, s)
        | (ds, rest) => (Some (sign * parse_nat ds), rest)
        end
      else (None, s)
  | [] => (None, s)
  end.

Definition MAX_STR_DIGITS : nat := Z.to_nat 4300.

Definition scan_number (s : pystr) : res (pyval * pystr) :=
  let '(neg, s1) := match s with 45 :: r => (true, r) | _ => (false, s) end in
  '(ints, s2) ← match s1 with
                | 48 :: r => Ok ([48], r)
                | _ => match span_digits s1 with
                       | ([], _) => Raise JSONDecodeError
                       | (ds, rest) => Ok (ds, rest)
                       end
                end;
  let '(frac, s3) := scan_fraction s2 in
  let '(exp, s4) := scan_exponent s3 in
  match frac, exp with
  | None, None =>
      raise_if (bool_decide (MAX_STR_DIGITS < length ints)%nat) (ValueError (u "Exceeds the limit (4300 digits) for integer string conversion")) ;;
      Ok (VInt (if neg then - parse_nat ints else parse_nat ints), s4)
  | _, _ =>
      let fs := default [] frac in
      Ok (VFloat (float_of_decimal neg (parse_nat (ints ++ fs)) (default 0 exp - Z.of_nat (length fs))), s4)
  end.

(** ** Strings *)

Definition hex_digit_value (c : Z) : option Z :=
  if is_digit c then Some (c - 48)
  else if (97 <=? c) && (c <=? 102) then Some (c - 87)
  else if (65 <=? c) && (c <=? 70) then Some (c - 55)
  else None.

(** Four hexadecimal digits. *)
Definition hex4 (s : pystr) : option (Z * pystr) :=
  match s with
  | a :: b :: c :: d :: r =>
      a ← hex_digit_value a; b ← hex_digit_value b; c ← hex_digit_value c; d ← hex_digit_value d;
      Some (((a * 16 + b) * 16 + c) * 16 + d, r)
  | _ => None
  end.

(** The escapes of one character. *)
Definition simple_escape (c : Z) : option Z :=
  if c =? 34 then Some 34 else if c =? 92 then Some 92 else if c =? 47 then Some 47
  else if c =? 98 then Some 8 else if c =? 102 then Some 12 else if c =? 110 then Some 10
  else if c =? 114 then Some 13 else if c =? 116 then Some 9 else None.

(** [\uXXXX] after the [u]; a high surrogate takes a low one that follows. *)
Definition unicode_escape (s : pystr) : option (Z * pystr) :=
  '(c, r) ← hex4 s;
  if (0xD800 <=? c) && (c <=? 0xDBFF) then
    match r with
    | 92 :: 117 :: r' =>
        match hex4 r' with
        | Some (c2, r2) =>
            if (0xDC00 <=? c2) && (c2 <=? 0xDFFF)
            then Some (0x10000 + (c - 0xD800) * 1024 + (c2 - 0xDC00), r2) else Some (c, r)
        | None => Some (c, r)
        end
    | _ => Some (c, r)
    end
  else Some (c, r).

(** The characters up to the closing quote, in strict mode. *)
Fixpoint scan_string (fuel : nat) (s : pystr) : res (pystr * pystr) :=
  match fuel with
  | O => Raise OutOfFuel
  | S f =>
      match s with
      | [] => Raise JSONDecodeError
      | c :: r =>
          if c =? 34 then Ok ([], r)
          else if c =? 92 then
            match r with
            | [] => Raise JSONDecodeError
            | e :: r' =>
                if e =? 117 then
                  '(x, r2) ← from_option JSONDecodeError (unicode_escape r');
                  '(t, rest) ← scan_string f r2; Ok (x :: t, rest)
                else
                  x ← from_option JSONDecodeError (simple_escape e);
                  '(t, rest) ← scan_string f r'; Ok (x :: t, rest)
            end
          else if c <? 32 then Raise JSONDecodeError
          else '(t, rest) ← scan_string f r; Ok (c :: t, rest)
      end
  end.

(** ** Values *)

Definition is_json_space (c : Z) : bool := (c =? 32) || (c =? 9) || (c =? 10) || (c =? 13).

Fixpoint skip_space (s : pystr) : pystr :=
  match s with
  | c :: r => if is_json_space c then skip_space r else s
  | [] => []
  end.

(** [dict(pairs)] from the right-most pair of each key, at its first place. *)
Definition dict_set (l : list (pystr * pyval)) (k : pystr) (v : pyval) : list (pystr * pyval) :=
  if bool_decide (k ∈ l.*1) then (fun p => if bool_decide (p.1 = k) then (k, v) else p) <$> l
  else l ++ [(k, v)].

Definition new_dict (pairs : list (pystr * pyval)) : pyval :=
  VDict 0 ((fun p => (KStr p.1, p.2)) <$> foldl (fun l p => dict_set l p.1 p.2) [] pairs).

(** The items of an array after its bracket, the pairs of an object after its
    brace. *)
Section containers.
Context (scan : pystr -> res (pyval * pystr)).

Fixpoint scan_items (fuel : nat) (s : pystr) : res (list pyval * pystr) :=
  match fuel with
  | O => Raise OutOfFuel
  | S f =>
      '(x, s1) ← scan s;
      match skip_space s1 with
      | 93 :: r => Ok ([x], r)
      | 44 :: r => '(l, rest) ← scan_items f (skip_space r); Ok (x :: l, rest)
      | _ => Raise JSONDecodeError
      end
  end.

Fixpoint scan_pairs (fuel : nat) (s : pystr) : res (list (pystr * pyval) * pystr) :=
  match fuel with
  | O => Raise OutOfFuel
  | S f =>
      match s with
      | 34 :: r =>
          '(k, s1) ← scan_string (S (length r)) r;
          match skip_space s1 with
          | 58 :: r1 =>
              '(x, s2) ← scan (skip_space r1);
              match skip_space s2 with
              | 125 :: r2 => Ok ([(k, x)], r2)
              | 44 :: r2 => '(l, rest) ← scan_pairs f (skip_space r2); Ok ((k, x) :: l, rest)
              | _ => Raise JSONDecodeError
              end
          | _ => Raise JSONDecodeError
          end
      | _ => Raise JSONDecodeError
      end
  end.
End containers.

(** The hooks of [json.loads]: for the pairs of an object, for a float and for
    one of [NaN], [Infinity] and [-Infinity]. *)
Record json_hooks := {
  object_pairs_hook : list (pystr * pyval) -> res pyval;
  parse_float : pyval -> res pyval;
  parse_constant : pyval -> res pyval;
}.

Definition no_hooks : json_hooks := {| object_pairs_hook := fun l => Ok (new_dict l); parse_float := Ok; parse_constant := Ok |}.

Section hooks.
Context (h : json_hooks).

Definition hooked_number (s : pystr) : res (pyval * pystr) :=
  '(v, rest) ← scan_number s;
  match v with VFloat _ => v ← parse_float h v; Ok (v, rest) | _ => Ok (v, rest) end.

(** A hook's value, and the text after it. *)
Definition followed_by (rest : pystr) (r : res pyval) : res (pyval * pystr) := v ← r; Ok (v, rest).

Fixpoint scan_value (fuel : nat) (s : pystr) : res (pyval * pystr) :=
  match fuel with
  | O => Raise OutOfFuel
  | S f =>
      match s with
      | 34 :: r => '(t, rest) ← scan_string (S (length r)) r; Ok (VStr t, rest)
      | 123 :: r =>
          match skip_space r with
          | 125 :: r' => followed_by r' (object_pairs_hook h [])
          | r' => '(l, rest) ← scan_pairs (scan_value f) f r'; followed_by rest (object_pairs_hook h l)
          end
      | 91 :: r =>
          match skip_space r with
          | 93 :: r' => Ok (VList 0 [], r')
          | r' => '(l, rest) ← scan_items (scan_value f) f r'; Ok (VList 0 l, rest)
          end
      | 110 :: 117 :: 108 :: 108 :: r => Ok (VNone, r)
      | 116 :: 114 :: 117 :: 101 :: r => Ok (VBool true, r)
      | 102 :: 97 :: 108 :: 115 :: 101 :: r => Ok (VBool false, r)
      | 78 :: 97 :: 78 :: r => followed_by r (parse_constant h (VFloat S754_nan))
      | 73 :: 110 :: 102 :: 105 :: 110 :: 105 :: 116 :: 121 :: r => 
          followed_by r (parse_constant h (VFloat (S754_infinity false)))
      | 45 :: 73 :: 110 :: 102 :: 105 :: 110 :: 105 :: 116 :: 121 :: r => 
          followed_by r (parse_constant h (VFloat (S754_infinity true)))
      | _ => hooked_number s
      end
  end.

(** [json.loads] of a [str]; every nested value is shorter than its text, so
    the length bounds the depth and the number of items. *)
Definition loads_text_with (s : pystr) : res pyval :=
  '(v, rest) ← scan_value (S (length s)) (skip_space s);
  match skip_space rest with
  | [] => Ok (fresh 0 v)
  | _ => Raise JSONDecodeError
  end.
End hooks.

Definition loads_text : pystr -> res pyval := loads_text_with no_hooks.

(** [json.loads] of UTF-8 bytes. *)
Definition json_loads (bytes : list Z) : res pyval := s ← utf8_decode bytes; loads_text s.

(** [json.detect_encoding]. *)
Inductive encoding := UTF8 | UTF8_SIG | UTF16 (big bom : bool) | UTF32 (big bom : bool).

Definition detect_encoding (bytes : list Z) : encoding :=
  if bool_decide (take 4 bytes = [0; 0; 0xFE; 0xFF]) then UTF32 true true
  else if bool_decide (take 4 bytes = [0xFF; 0xFE; 0; 0]) then UTF32 false true
  else if bool_decide (take 2 bytes = [0xFE; 0xFF]) then UTF16 true true
  else if bool_decide (take 2 bytes = [0xFF; 0xFE]) then UTF16 false true
  else if bool_decide (take 3 bytes = [0xEF; 0xBB; 0xBF]) then UTF8_SIG
  else match bytes with
  | b0 :: b1 :: b2 :: b3 :: _ =>
      if b0 =? 0 then (if b1 =? 0 then UTF32 true false else UTF16 true false)
      else if b1 =? 0 then (if (b2 =? 0) && (b3 =? 0) then UTF32 false false else UTF16 false false)
      else UTF8
  | [b0; b1] => if b0 =? 0 then UTF16 true false else if b1 =? 0 then UTF16 false false else UTF8
  | _ => UTF8
  end.

(** The 16-bit units of a text; [surrogatepass] lets lone surrogates through. *)
Fixpoint utf16_units (big : bool) (bytes : list Z) : res (list Z) :=
  match bytes with
  | [] => Ok []
  | b0 :: b1 :: r => (cons (if big then b0 * 256 + b1 else b1 * 256 + b0)) <$> utf16_units big r
  | [_] => Raise UnicodeDecodeError
  end.

Fixpoint join_surrogates (units : list Z) : pystr :=
  match units with
  | [] => []
  | h :: r =>
      match r with
      | l :: r' =>
          if (0xD800 <=? h) && (h <=? 0xDBFF) && (0xDC00 <=? l) && (l <=? 0xDFFF)
          then 0x10000 + (h - 0xD800) * 1024 + (l - 0xDC00) :: join_surrogates r'
          else h :: join_surrogates r
      | [] => [h]
      end
  end.

Fixpoint utf32_decode (big : bool) (bytes : list Z) : res pystr :=
  match bytes with
  | [] => Ok []
  | b0 :: b1 :: b2 :: b3 :: r =>
      let c := if big then ((b0 * 256 + b1) * 256 + b2) * 256 + b3 else ((b3 * 256 + b2) * 256 + b1) * 256 + b0 in
      if 0x10FFFF <? c then Raise UnicodeDecodeError else (cons c) <$> utf32_decode big r
  | _ => Raise UnicodeDecodeError
  end.

(** [json.loads] of bytes in any encoding it detects. *)
Definition json_loads_bytes_with (h : json_hooks) (bytes : list Z) : res pyval :=
  s ← match detect_encoding bytes with
      | UTF8 => utf8_decode bytes
      | UTF8_SIG => utf8_decode (drop 3 bytes)
      | UTF16 big bom => join_surrogates <$> utf16_units big (if bom then drop 2 bytes else bytes)
      | UTF32 big bom => utf32_decode big (if bom then drop 4 bytes else bytes)
      end;
  loads_text_with h s.

Definition json_loads_bytes : list Z -> res pyval := json_loads_bytes_with no_hooks.

(** Text with apostrophes for quotation marks. *)
Definition quoted (s : string) : pystr := (fun c => if c =? 39 then 34 else c) <$> u s.

Example loads_object :
  loads_text (quoted "{'a': [1, -0.5, 1e2, true], 'b': {}, 'a': 'x\u00e9'}") =
  Ok (VDict 0 [(KStr (u "a"), VStr [120; 233]); (KStr (u "b"), VDict 1 [])]).
Proof. vm_compute. reflexivity. Qed.

Example loads_encodings :
  json_loads_bytes [0xEF; 0xBB; 0xBF; 49] = Ok (VInt 1) /\
  json_loads_bytes [91; 0; 93; 0] = Ok (VList 0 []) /\
  json_loads_bytes [0xFE; 0xFF; 0; 34; 0xD8; 0x3D; 0xDE; 0; 0; 34] = Ok (VStr [0x1F600]) /\
  json_loads_bytes [0; 0; 0; 50] = Ok (VInt 2).
Proof. by vm_compute. Qed.

Example loads_numbers :
  loads_text (u " [0.1, 5e-324, 1.7976931348623157e308, 1e400, -0.0, 9007199254740993.0] ") =
  Ok (VList 0 [VFloat (S754_finite false 7205759403792794 (-56)); VFloat (S754_finite false 1 (-1074));
               VFloat (S754_finite false 9007199254740991 971); VFloat (S754_infinity false); VFloat (S754_zero true);
               VFloat (S754_finite false 4503599627370496 1)]).
Proof. vm_compute. reflexivity. Qed.
