(* ===== verification/JsonNumbers.v ===== *)
(** * Decimal text of floats and back

    The shortest decimal of a float, as [repr] computes it, is one that rounds
    to the float (seventeen digits are always enough), it is exact for the
    integers, and reading a decimal that rounds to a float gives the float. *)

From stdpp Require Import base gmap sets list sorting strings.
From Stdlib Require Import ZArith Lia.
From Stdlib Require Import SpecFloat.
From S2P Require Import Prelude Text PyFloat CanonicalJson Hashing JsonLoads.

(** The mantissa and exponent of a binary64: 53 bits, full unless the exponent
    is the least one. *)
Definition canonical_pair (m e : Z) : Prop :=
  0 < m < 2 ^ 53 /\ -1074 <= e <= 971 /\ (2 ^ 52 <= m \/ e = -1074).

Lemma pow2_split a b : 0 <= a -> 0 <= b -> 2 ^ (a + b) = 2 ^ a * 2 ^ b.
Proof. intros. by apply Z.pow_add_r. Qed.

(** Comparison of [a * 10^p] with [b * 2^e], scaled by [2^1074]. *)
Lemma scaled_leb_iff a p b e : -1074 <= e ->
  scaled_leb a p b e = true <-> a * 10 ^ Z.max p 0 * 2 ^ 1074 <= b * 10 ^ Z.max (- p) 0 * 2 ^ (e + 1074).
Proof.
  intros He. unfold scaled_leb. rewrite Z.leb_le.
  assert (E : 2 ^ Z.max (- e) 0 * 2 ^ (e + 1074) = 2 ^ Z.max e 0 * 2 ^ 1074).
  { rewrite <- !pow2_split by lia. f_equal. lia. }
  assert (H1 : 0 < 2 ^ (e + 1074)) by (apply Z.pow_pos_nonneg; lia).
  assert (H2 : 0 < 2 ^ Z.max e 0) by (apply Z.pow_pos_nonneg; lia).
  assert (H3 : 0 < 2 ^ Z.max (- e) 0) by (apply Z.pow_pos_nonneg; lia).
  assert (H4 : 0 < 2 ^ 1074) by (apply Z.pow_pos_nonneg; lia).
  generalize dependent (2 ^ (e + 1074)). generalize dependent (2 ^ Z.max e 0). generalize dependent (2 ^ Z.max (- e) 0).
  generalize dependent (2 ^ 1074). generalize (10 ^ Z.max p 0) (10 ^ Z.max (- p) 0). intros t s K HK A HA B HB C E HC.
  split; intros H.
  - apply (Z.mul_le_mono_pos_r _ _ A); [done|]. replace (a * t * K * A) with (a * t * A * K) by ring.
    trans (b * B * s * K); [by apply Z.mul_le_mono_pos_r|]. replace (b * B * s * K) with (b * s * (B * K)) by ring. rewrite <- E. lia.
  - apply (Z.mul_le_mono_pos_r _ _ K); [done|]. replace (b * B * s * K) with (b * s * (B * K)) by ring. rewrite <- E.
    replace (a * t * A * K) with (a * t * K * A) by ring. replace (b * s * (A * C)) with (b * s * C * A) by ring.
    by apply Z.mul_le_mono_pos_r.
Qed.

Lemma scaled_geb_iff a p b e : -1074 <= e ->
  scaled_geb a p b e = true <-> b * 10 ^ Z.max (- p) 0 * 2 ^ (e + 1074) <= a * 10 ^ Z.max p 0 * 2 ^ 1074.
Proof.
  intros He. unfold scaled_geb. rewrite Z.leb_le.
  assert (E : 2 ^ Z.max (- e) 0 * 2 ^ (e + 1074) = 2 ^ Z.max e 0 * 2 ^ 1074).
  { rewrite <- !pow2_split by lia. f_equal. lia. }
  assert (H3 : 0 < 2 ^ Z.max (- e) 0) by (apply Z.pow_pos_nonneg; lia).
  assert (H4 : 0 < 2 ^ 1074) by (apply Z.pow_pos_nonneg; lia).
  generalize dependent (2 ^ (e + 1074)). generalize (2 ^ Z.max e 0). generalize dependent (2 ^ Z.max (- e) 0).
  generalize dependent (2 ^ 1074). generalize (10 ^ Z.max p 0) (10 ^ Z.max (- p) 0). intros t s K HK A HA B C E.
  split; intros H.
  - apply (Z.mul_le_mono_pos_r _ _ A); [done|]. replace (b * s * C * A) with (b * s * (A * C)) by ring. rewrite E.
    replace (b * s * (B * K)) with (b * B * s * K) by ring. replace (a * t * K * A) with (a * t * A * K) by ring.
    by apply Z.mul_le_mono_pos_r.
  - apply (Z.mul_le_mono_pos_r _ _ K); [done|]. replace (b * B * s * K) with (b * s * (B * K)) by ring. rewrite <- E.
    replace (b * s * (A * C)) with (b * s * C * A) by ring. replace (a * t * A * K) with (a * t * K * A) by ring.
    by apply Z.mul_le_mono_pos_r.
Qed.

(** ** Reading *)

Lemma rounds_to_iff d p m e : -1074 <= e ->
  let x := d * 10 ^ Z.max p 0 * 2 ^ 1074 in
  let w := 10 ^ Z.max (- p) 0 * 2 ^ (e + 1074) in
  let low := 4 * m - (if (m =? 2 ^ 52) && (-1074 <? e) then 1 else 2) in
  rounds_to d p m e = true <->
  if Z.even m then low * w <= 4 * x <= (4 * m + 2) * w else low * w < 4 * x < (4 * m + 2) * w.
Proof.
  intros He x w low. unfold rounds_to. fold low.
  pose proof (scaled_leb_iff (4 * d) p low e He) as H1. pose proof (scaled_leb_iff (4 * d) p (4 * m + 2) e He) as H2.
  pose proof (scaled_geb_iff (4 * d) p low e He) as H3. pose proof (scaled_geb_iff (4 * d) p (4 * m + 2) e He) as H4.
  replace (4 * d * 10 ^ Z.max p 0 * 2 ^ 1074) with (4 * x) in * by (subst x; ring).
  rewrite <- Z.mul_assoc in H1, H2, H3, H4. fold w in H1, H2, H3, H4. clearbody x w low.
  destruct (Z.even m); rewrite andb_true_iff', ?negb_true_iff, <- ?not_true_iff_false; [rewrite H3, H2|rewrite H1, H4]; lia.
Qed.

Lemma round_half_even_spec x w m :
  0 < w -> (2 * m - 1) * w <= 2 * x <= (2 * m + 1) * w ->
  (Z.even m = false -> (2 * m - 1) * w < 2 * x < (2 * m + 1) * w) -> round_half_even x w = m.
Proof.
  intros Hw Hx Hodd. unfold round_half_even. pose proof (Z.div_mod x w ltac:(lia)) as E. pose proof (Z.mod_pos_bound x w Hw) as Hr.
  destruct (Z.le_gt_cases (m * w) x) as [Hge|Hlt].
  - assert (x / w = m) as Eq by (symmetry; apply (Z.div_unique x w m (x - m * w)); lia). rewrite Eq in *.
    destruct (Z.ltb_spec w (2 * (x mod w))); cbn [orb]; [nia|]. destruct (Z.eqb_spec w (2 * (x mod w))); cbn [andb]; [|done].
    rewrite <- Z.negb_even. destruct (Z.even m); [done|]. specialize (Hodd eq_refl). nia.
  - assert (x / w = m - 1) as Eq by (symmetry; apply (Z.div_unique x w (m - 1) (x - (m - 1) * w)); lia). rewrite Eq in *.
    destruct (Z.ltb_spec w (2 * (x mod w))); cbn [orb]; [lia|]. destruct (Z.eqb_spec w (2 * (x mod w))); cbn [andb]; [|nia].
    rewrite Z.odd_sub, <- Z.negb_even. destruct (Z.even m); cbn; [lia|]. specialize (Hodd eq_refl). nia.
Qed.

Lemma log2_window x y k : 0 <= k -> 0 < y -> 2 ^ k * y <= x < 2 ^ (k + 1) * y -> Z.log2 (x / y) = k.
Proof.
  intros Hk Hy Hx. apply Z.log2_unique; [done|]. split; [apply Z.div_le_lower_bound|apply Z.div_lt_upper_bound]; unfold Z.succ; lia.
Qed.

Lemma log2_small x y k : 0 <= x -> 0 < k -> 0 < y -> x < 2 ^ k * y -> Z.log2 (x / y) < k.
Proof.
  intros Hx Hk Hy Hlt. destruct (Z.eq_dec (x / y) 0) as [->|Hne]; [done|].
  apply Z.log2_lt_pow2; [|apply Z.div_lt_upper_bound; lia]. pose proof (Z.div_pos x y). lia.
Qed.

(** The 53-bit window of a number that rounds to [m]: the window of [m], or the
    one below it when the number is below the power of two [m]. *)
Lemma window_shift x y s m :
  0 <= x -> 0 < y -> 0 <= s -> 0 < m < 2 ^ 53 -> (2 ^ 52 <= m \/ s = 0) ->
  (if (m =? 2 ^ 52) && (0 <? s) then 4 * m - 1 else 4 * m - 2) * (y * 2 ^ s) <= 4 * x <= (4 * m + 2) * (y * 2 ^ s) ->
  let shift := Z.max (Z.log2 (x / y) - 52) 0 in
  shift = s /\ (2 * m - 1) * (y * 2 ^ s) <= 2 * x \/
  m = 2 ^ 52 /\ shift = s - 1 /\ 0 < s /\ (2 * 2 ^ 53 - 1) * (y * 2 ^ (s - 1)) <= 2 * x <= (2 * 2 ^ 53 + 1) * (y * 2 ^ (s - 1)).
Proof.
  intros Hx Hy Hs Hm Hfull Hr shift.
  assert (Hps : 0 < 2 ^ s) by (apply Z.pow_pos_nonneg; lia). assert (Hpos : 0 < y * 2 ^ s) by nia.
  assert (E52 : 2 ^ (52 + s) = 2 ^ 52 * 2 ^ s) by (apply pow2_split; lia).
  assert (E53 : 2 ^ (52 + s + 1) = 2 ^ 53 * 2 ^ s) by (rewrite <- pow2_split by lia; f_equal; lia).
  set (w := y * 2 ^ s) in *.
  assert (Hlow : (4 * m - 2) * w <= 4 * x) by (destruct ((m =? 2 ^ 52) && (0 <? s)); nia).
  destruct (Z.le_gt_cases (2 ^ 52 * w) x) as [Hbig|Hsmall].
  - left. split; [|lia]. subst shift. rewrite (log2_window x y (52 + s)); [lia|lia|done|].
    rewrite E52, E53. replace (2 ^ 52 * 2 ^ s * y) with (2 ^ 52 * w) by (subst w; ring).
    replace (2 ^ 53 * 2 ^ s * y) with (2 ^ 53 * w) by (subst w; ring). nia.
  - destruct (Z.eq_dec s 0) as [->|Hs0].
    + left. split; [|lia]. subst shift w. pose proof (log2_small x y 52 Hx ltac:(lia) Hy). lia.
    + right. assert (m = 2 ^ 52) as -> by nia. rewrite Z.eqb_refl, (proj2 (Z.ltb_lt 0 s)) in Hr by lia. cbn [andb] in Hr.
      assert (E : 2 ^ s = 2 * 2 ^ (s - 1)) by (rewrite <- Z.pow_succ_r by lia; f_equal; lia).
      assert (E51 : 2 ^ (51 + s) * y = 2 ^ 51 * w) by (subst w; rewrite pow2_split by lia; ring).
      assert (Ew : w = 2 * (y * 2 ^ (s - 1))) by (subst w; rewrite E; ring).
      split; [done|]. split; [|split; [lia|]].
      * subst shift. rewrite (log2_window x y (51 + s)); [lia|lia|done|]. rewrite E51. replace (51 + s + 1) with (52 + s) by lia.
        rewrite E52. replace (2 ^ 52 * 2 ^ s * y) with (2 ^ 52 * w) by (subst w; ring). nia.
      * nia.
Qed.

Lemma float_of_decimal_rounds sign d p m e :
  0 <= d -> canonical_pair m e -> rounds_to d p m e = true -> float_of_decimal sign d p = S754_finite sign (Z.to_pos m) e.
Proof.
  intros Hd (Hm & He & Hfull) Hr. apply rounds_to_iff in Hr; [|lia]. cbv zeta in Hr. unfold float_of_decimal.
  set (x := d * 10 ^ Z.max p 0 * 2 ^ 1074) in *. set (y := 10 ^ Z.max (- p) 0) in *.
  assert (Hy : 0 < y) by (apply Z.pow_pos_nonneg; lia).
  assert (Hx : 0 <= x) by (subst x; pose proof (Z.pow_nonneg 10 (Z.max p 0)); pose proof (Z.pow_nonneg 2 1074); nia).
  remember (e + 1074) as s eqn:Es. assert (e = s - 1074) as -> by lia.
  assert (Hw : 0 < y * 2 ^ s) by (apply Z.mul_pos_pos; [done|apply Z.pow_pos_nonneg; lia]).
  replace (-1074 <? s - 1074) with (0 <? s) in Hr by lia.
  assert (Hr' : (if (m =? 2 ^ 52) && (0 <? s) then 4 * m - 1 else 4 * m - 2) * (y * 2 ^ s) <= 4 * x <= (4 * m + 2) * (y * 2 ^ s)).
  { destruct (Z.even m), ((m =? 2 ^ 52) && (0 <? s)); lia. }
  destruct (window_shift x y s m) as [[Eshift Hl]|(-> & Eshift & Hs & Hl)]; try done; [lia|destruct Hfull; [by left|right; lia]| |].
  - rewrite Eshift. rewrite (round_half_even_spec x (y * 2 ^ s) m); [|done|lia|].
    + cbv zeta. rewrite (proj2 (Z.eqb_neq m (2 ^ 53))), (proj2 (Z.eqb_neq m 0)), (proj2 (Z.ltb_ge 971 (s - 1074))) by lia. done.
    + intros Hev. rewrite Hev in Hr. destruct ((m =? 2 ^ 52) && (0 <? s)) eqn:Eb; [|lia].
      apply andb_true_iff' in Eb as [->%Z.eqb_eq _]. done.
  - rewrite Eshift. rewrite (round_half_even_spec x _ (2 ^ 53)); [| |done|done].
    + cbv zeta. rewrite Z.eqb_refl, (proj2 (Z.eqb_neq (2 ^ 52) 0)) by lia. replace (s - 1 + 1 - 1074) with (s - 1074) by lia.
      by rewrite (proj2 (Z.ltb_ge 971 (s - 1074))) by lia.
    + apply Z.mul_pos_pos; [done|apply Z.pow_pos_nonneg; lia].
Qed.

(** ** The shortest decimal *)

(** [m * 2^e * 10^(n - k)] as a fraction. *)
Definition scale (n k e : Z) : Z := 2 ^ Z.max e 0 * 10 ^ Z.max (n - k) 0.
Definition unscale (n k e : Z) : Z := 2 ^ Z.max (- e) 0 * 10 ^ Z.max (k - n) 0.

Lemma scale_pos n k e : 0 < scale n k e.
Proof. apply Z.mul_pos_pos; apply Z.pow_pos_nonneg; lia. Qed.

Lemma unscale_pos n k e : 0 < unscale n k e.
Proof. apply Z.mul_pos_pos; apply Z.pow_pos_nonneg; lia. Qed.

Lemma scaled_geb_scale a b n k e : scaled_geb a (k - n) b e = (b * scale n k e <=? a * unscale n k e).
Proof. unfold scaled_geb, scale, unscale. replace (- (k - n)) with (n - k) by lia. f_equal; ring. Qed.

Lemma scaled_leb_scale a b n k e : scaled_leb a (k - n) b e = (a * unscale n k e <=? b * scale n k e).
Proof. unfold scaled_leb, scale, unscale. replace (- (k - n)) with (n - k) by lia. f_equal; ring. Qed.

Lemma seventeen_digits k m e : scaled_leb 1 (k - 1) m e = true -> 10 ^ 16 * unscale 17 k e <= m * scale 17 k e.
Proof.
  rewrite scaled_leb_scale, Z.leb_le, Z.mul_1_l. unfold scale, unscale.
  assert (E : 10 ^ Z.max (k - 1) 0 * 10 ^ Z.max (17 - k) 0 = 10 ^ 16 * 10 ^ Z.max (k - 17) 0 * 10 ^ Z.max (1 - k) 0).
  { rewrite <- !Z.pow_add_r by lia. f_equal. lia. }
  assert (HB : 0 < 10 ^ Z.max (1 - k) 0) by (apply Z.pow_pos_nonneg; lia).
  assert (HD : 0 < 10 ^ Z.max (17 - k) 0) by (apply Z.pow_pos_nonneg; lia).
  generalize (2 ^ Z.max e 0) (2 ^ Z.max (- e) 0). intros s t H.
  apply (Z.mul_le_mono_pos_r _ _ (10 ^ Z.max (1 - k) 0)); [done|].
  apply (Z.mul_le_mono_pos_r _ _ (10 ^ Z.max (17 - k) 0)) in H; [|done].
  replace (10 ^ 16 * (t * 10 ^ Z.max (k - 17) 0) * 10 ^ Z.max (1 - k) 0)
    with (t * (10 ^ Z.max (k - 1) 0 * 10 ^ Z.max (17 - k) 0)) by (rewrite E; ring). lia.
Qed.

(** The nearer of the two decimals of seventeen digits rounds to the float. *)
Lemma nearest_rounds m e g t d r low :
  canonical_pair m e -> 0 < g -> 0 < t -> 10 ^ 16 * t <= m * g -> m * g = t * d + r -> 0 <= r < t ->
  low = 4 * m - (if (m =? 2 ^ 52) && (-1074 <? e) then 1 else 2) ->
  (2 * r <= t -> low * g < 4 * d * t < (4 * m + 2) * g) /\
  (t <= 2 * r -> low * g < 4 * (d + 1) * t < (4 * m + 2) * g).
Proof.
  intros (Hm & He & Hfull) Hg Ht H17 E Hr Hlow.
  assert (Hgap : 2 * t < (4 * m - low) * g /\ 2 * t < 2 * g).
  { destruct (Z.eqb_spec m (2 ^ 52)) as [->|]; subst low; cbn [andb]; [destruct (-1074 <? e)|]; nia. }
  replace (low * g) with (4 * m * g - (4 * m - low) * g) by ring.
  replace ((4 * m + 2) * g) with (4 * m * g + 2 * g) by ring.
  replace (4 * m * g) with (4 * (t * d + r)) by lia. split; intros; nia.
Qed.

Lemma rounds_to_scale d n k m e :
  let low := 4 * m - (if (m =? 2 ^ 52) && (-1074 <? e) then 1 else 2) in
  low * scale n k e < 4 * d * unscale n k e < (4 * m + 2) * scale n k e -> rounds_to d (k - n) m e = true.
Proof.
  intros low H. unfold rounds_to. fold low. rewrite !scaled_leb_scale, !scaled_geb_scale.
  destruct (Z.even m); apply andb_true_iff'; rewrite ?negb_true_iff; lia.
Qed.

(** The quotient and the remainder a round of the search looks at. *)
Definition quotient (n k m e : Z) : Z := (m * scale n k e) / unscale n k e.
Definition remainder (n k m e : Z) : Z := (m * scale n k e) mod unscale n k e.

Lemma shortest_digits_step fuel n k m e :
  shortest_digits fuel n k m e =
    let d := quotient n k m e in
    let r := remainder n k m e in
    let low_ok := rounds_to d (k - n) m e in
    let high_ok := rounds_to (d + 1) (k - n) m e in
    let low_closer := (2 * r <? unscale n k e) || ((2 * r =? unscale n k e) && Z.even d) in
    if low_ok && (low_closer || negb high_ok) then (d, k - n)
    else if high_ok then (d + 1, k - n)
    else match fuel with
         | O => (d, k - n)
         | S f => shortest_digits f (n + 1) k m e
         end.
Proof.
  assert (E : m * 2 ^ Z.max e 0 * 10 ^ Z.max (n - k) 0 = m * scale n k e) by (unfold scale; ring).
  unfold quotient, remainder, unscale. rewrite <- E. by destruct fuel.
Qed.

Lemma seventeen_found k m e :
  canonical_pair m e -> scaled_leb 1 (k - 1) m e = true ->
  rounds_to (quotient 17 k m e) (k - 17) m e = true \/ rounds_to (quotient 17 k m e + 1) (k - 17) m e = true.
Proof.
  intros Hc Hk. pose proof (scale_pos 17 k e) as Hs. pose proof (unscale_pos 17 k e) as Ht. unfold quotient.
  set (g := m * scale 17 k e) in *. set (t := unscale 17 k e) in *.
  pose proof (Z.div_mod g t ltac:(lia)) as Hdm. pose proof (Z.mod_pos_bound g t ltac:(lia)) as Hr.
  destruct (nearest_rounds m e (scale 17 k e) t (g / t) (g mod t) _ Hc Hs Ht (seventeen_digits k m e Hk) Hdm Hr eq_refl) as [Hlo Hhi].
  destruct (Z.le_gt_cases (2 * (g mod t)) t); [left; by apply rounds_to_scale, Hlo|right; apply rounds_to_scale, Hhi; lia].
Qed.

Lemma shortest_digits_rounds fuel n k m e :
  canonical_pair m e -> scaled_leb 1 (k - 1) m e = true -> n <= 17 -> 17 <= n + Z.of_nat fuel ->
  let '(d, p) := shortest_digits fuel n k m e in rounds_to d p m e = true.
Proof.
  intros Hc Hk. revert n. induction fuel as [|f IH]; intros n Hn Hf; rewrite shortest_digits_step; cbv zeta.
  all: destruct (rounds_to (quotient n k m e) (k - n) m e) eqn:E1, (rounds_to (quotient n k m e + 1) (k - n) m e) eqn:E2.
  all: rewrite ?orb_true_r; cbn [andb negb]; try destruct (_ || false); try destruct (_ || _); try done.
  all: destruct (Z.eq_dec n 17) as [->|]; [|lia || (apply IH; lia)].
  all: destruct (seventeen_found k m e Hc Hk); congruence.
Qed.

Lemma decimal_point_from_low fuel k m e :
  scaled_leb 1 (k - 1) m e = true -> scaled_leb 1 (decimal_point_from fuel k m e - 1) m e = true.
Proof.
  revert k. induction fuel as [|f IH]; intros k Hk; cbn [decimal_point_from]; [done|].
  destruct (scaled_leb 1 k m e) eqn:E; [|done]. apply IH. by replace (k + 1 - 1) with k by lia.
Qed.

(** The estimate of the search is low for every binary exponent of a binary64. *)
Definition estimate (l : Z) : Z := l * 30103 / 100000 - 1.

Lemma estimate_low_all :
  forallb (fun i => let l := Z.of_nat i - 1074 in scaled_leb 1 (estimate l - 1) 1 l) (seq 0 2100) = true.
Proof. vm_compute. reflexivity. Qed.

Lemma estimate_low l : -1074 <= l < 1024 -> scaled_leb 1 (estimate l - 1) 1 l = true.
Proof.
  intros Hl. pose proof estimate_low_all as H. rewrite forallb_elem in H.
  specialize (H (Z.to_nat (l + 1074))). cbv beta zeta in H. replace (Z.of_nat (Z.to_nat (l + 1074)) - 1074) with l in H by lia.
  apply H, elem_of_seq. lia.
Qed.

Lemma scaled_leb_log2 j m e : -1074 <= e -> 0 < m -> scaled_leb 1 j 1 (Z.log2 m + e) = true -> scaled_leb 1 j m e = true.
Proof.
  intros He Hm. pose proof (Z.log2_nonneg m) as Hl0. rewrite !scaled_leb_iff by lia.
  pose proof (proj1 (Z.log2_spec m Hm)) as Hl. replace (Z.log2 m + e + 1074) with (Z.log2 m + (e + 1074)) by lia.
  rewrite pow2_split by lia. intros H. etrans; [exact H|].
  assert (0 < 10 ^ Z.max (- j) 0) by (apply Z.pow_pos_nonneg; lia). assert (0 < 2 ^ (e + 1074)) by (apply Z.pow_pos_nonneg; lia).
  rewrite Z.mul_1_l. replace (m * 10 ^ Z.max (- j) 0 * 2 ^ (e + 1074)) with (10 ^ Z.max (- j) 0 * (m * 2 ^ (e + 1074))) by ring.
  apply Z.mul_le_mono_nonneg_l; [lia|]. apply Z.mul_le_mono_nonneg_r; lia.
Qed.

Lemma decimal_point_low m e : canonical_pair m e -> scaled_leb 1 (decimal_point m e - 1) m e = true.
Proof.
  intros (Hm & He & _). apply decimal_point_from_low. apply scaled_leb_log2; [lia|lia|].
  apply estimate_low. pose proof (Z.log2_nonneg m). assert (Z.log2 m < 53) by (apply Z.log2_lt_pow2; lia). lia.
Qed.

(** The decimal [repr] prints rounds to the float. *)
Definition repr_decimal (m e : Z) : Z * Z := shortest_digits 17 1 (decimal_point m e) m e.

Lemma repr_decimal_rounds m e : canonical_pair m e -> rounds_to (repr_decimal m e).1 (repr_decimal m e).2 m e = true.
Proof.
  intros Hc. pose proof (shortest_digits_rounds 17 1 (decimal_point m e) m e Hc (decimal_point_low m e Hc) ltac:(lia) ltac:(lia)) as H.
  unfold repr_decimal. by destruct (shortest_digits _ _ _ _ _).
Qed.

Lemma repr_decimal_pos m e : canonical_pair m e -> 0 < (repr_decimal m e).1.
Proof.
  intros Hc. pose proof (repr_decimal_rounds m e Hc) as H. pose proof (shortest_digits_nonneg 17 1 (decimal_point m e) m e ltac:(destruct Hc; lia)).
  fold (repr_decimal m e) in *. destruct (repr_decimal m e) as [d p]. cbn [fst snd] in *.
  destruct Hc as (Hm & He & _). apply rounds_to_iff in H; [|lia]. cbv zeta in H.
  destruct (Z.eq_dec d 0) as [->|]; [|lia]. exfalso.
  assert (0 < 10 ^ Z.max (- p) 0 * 2 ^ (e + 1074)) by (apply Z.mul_pos_pos; apply Z.pow_pos_nonneg; lia).
  destruct (Z.even m), ((m =? 2 ^ 52) && (-1074 <? e)); nia.
Qed.

(** ** Integers are printed exactly *)

(** The value [m * 2^e] of a float is the integer [z]. *)
Definition integer_value (m e z : Z) : Prop := m * 2 ^ Z.max e 0 = z * 2 ^ Z.max (- e) 0.

Definition decimal_value (d p z : Z) : Prop := d * 10 ^ Z.max p 0 = z * 10 ^ Z.max (- p) 0.

Lemma integer_rounds_exact m e z d p :
  canonical_pair m e -> integer_value m e z -> z < 2 ^ 53 -> 0 <= p -> rounds_to d p m e = true -> d * 10 ^ p = z.
Proof.
  intros (Hm & He & Hfull) Hz Hlt Hp Hr. apply rounds_to_iff in Hr; [|lia]. cbv zeta in Hr.
  replace (Z.max p 0) with p in Hr by lia. replace (Z.max (- p) 0) with 0 in Hr by lia.
  assert (He0 : e <= 0).
  { destruct (Z.le_gt_cases e 0); [done|]. exfalso. unfold integer_value in Hz.
    replace (Z.max e 0) with e in Hz by lia. replace (Z.max (- e) 0) with 0 in Hz by lia.
    assert (2 ^ 1 <= 2 ^ e) by (apply Z.pow_le_mono_r; lia). destruct Hfull; nia. }
  unfold integer_value in Hz. replace (Z.max e 0) with 0 in Hz by lia. replace (Z.max (- e) 0) with (- e) in Hz by lia.
  assert (E : 2 ^ 1074 = 2 ^ (- e) * 2 ^ (e + 1074)) by (rewrite <- pow2_split by lia; f_equal; lia).
  assert (HE : 0 < 2 ^ (e + 1074)) by (apply Z.pow_pos_nonneg; lia). assert (HF : 1 <= 2 ^ (- e)) by (apply (Z.pow_le_mono_r 2 0); lia).
  rewrite E in Hr. rewrite !Z.mul_1_l, !Z.mul_1_r in *. set (dd := d * 10 ^ p) in *.
  assert (Hb : 4 * m - 2 <= 4 * (dd * 2 ^ (- e)) <= 4 * m + 2).
  { assert (Hb : (4 * m - 2) * 2 ^ (e + 1074) <= 4 * (dd * 2 ^ (- e)) * 2 ^ (e + 1074) <= (4 * m + 2) * 2 ^ (e + 1074)).
    { destruct (Z.even m), ((m =? 2 ^ 52) && (-1074 <? e)); nia. }
    split; [apply (Z.mul_le_mono_pos_r _ _ (2 ^ (e + 1074)))|apply (Z.mul_le_mono_pos_r _ _ (2 ^ (e + 1074)))]; lia. }
  rewrite Hz in Hb. clearbody dd. clear -Hb HF. generalize dependent (2 ^ (- e)). intros F Hb HF.
  destruct (Z.lt_trichotomy dd z) as [|[|]]; [|done|]; nia.
Qed.

(** A decimal with fractional digits is exact as well: its quotient has no
    remainder. *)
Lemma integer_quotient n k m e z :
  integer_value m e z -> k < n -> quotient n k m e = z * 10 ^ (n - k) /\ remainder n k m e = 0.
Proof.
  intros Hz Hn. unfold quotient, remainder, scale, unscale. replace (Z.max (n - k) 0) with (n - k) by lia.
  replace (Z.max (k - n) 0) with 0 by lia. rewrite Z.mul_1_r, Z.mul_assoc, Hz.
  assert (0 < 2 ^ Z.max (- e) 0) by (apply Z.pow_pos_nonneg; lia).
  replace (z * 2 ^ Z.max (- e) 0 * 10 ^ (n - k)) with (z * 10 ^ (n - k) * 2 ^ Z.max (- e) 0) by ring.
  rewrite Z.div_mul, Z.mod_mul by lia. done.
Qed.

Lemma exact_rounds n k m e : 0 < m -> remainder n k m e = 0 -> rounds_to (quotient n k m e) (k - n) m e = true.
Proof.
  intros Hm Hr. apply rounds_to_scale. unfold quotient, remainder in *. pose proof (scale_pos n k e) as Hs. pose proof (unscale_pos n k e) as Ht.
  pose proof (Z.div_mod (m * scale n k e) (unscale n k e) ltac:(lia)) as E. rewrite Hr in E.
  destruct ((m =? 2 ^ 52) && (-1074 <? e)); nia.
Qed.

Lemma shortest_digits_integer fuel n k m e z :
  canonical_pair m e -> integer_value m e z -> z < 2 ^ 53 -> rounds_to (shortest_digits fuel n k m e).1 (shortest_digits fuel n k m e).2 m e = true ->
  decimal_value (shortest_digits fuel n k m e).1 (shortest_digits fuel n k m e).2 z.
Proof.
  intros Hc Hz Hlt.
  assert (Hge : forall d n, n <= k -> rounds_to d (k - n) m e = true -> decimal_value d (k - n) z).
  { intros d n' Hn Hr. unfold decimal_value. replace (Z.max (k - n') 0) with (k - n') by lia. replace (Z.max (- (k - n')) 0) with 0 by lia.
    rewrite (integer_rounds_exact m e z d (k - n') Hc Hz Hlt ltac:(lia) Hr). lia. }
  assert (Hlow : forall n, k < n -> decimal_value (quotient n k m e) (k - n) z).
  { intros n' Hn. unfold decimal_value. replace (Z.max (k - n') 0) with 0 by lia. replace (Z.max (- (k - n')) 0) with (n' - k) by lia.
    rewrite (proj1 (integer_quotient n' k m e z Hz Hn)). lia. }
  revert n. induction fuel as [|f IH]; intros n; rewrite shortest_digits_step; cbv zeta.
  all: destruct (Z.le_gt_cases n k) as [Hn|Hn].
  all: try (rewrite (proj2 (integer_quotient n k m e z Hz Hn)), (exact_rounds n k m e) by (destruct Hc; try lia; by apply (integer_quotient n k m e z));
            rewrite (proj2 (Z.ltb_lt (2 * 0) _)) by (pose proof (unscale_pos n k e); lia); intros _; by apply Hlow).
  all: destruct (rounds_to (quotient n k m e) (k - n) m e) eqn:E1, (rounds_to (quotient n k m e + 1) (k - n) m e) eqn:E2.
  all: rewrite ?orb_true_r; cbn [andb negb orb fst snd]; try destruct (_ || false); try destruct (_ || _); cbn [fst snd]; try (by apply Hge).
  all: try (intros; by apply Hge). all: apply IH.
Qed.

Lemma repr_decimal_integer m e z :
  canonical_pair m e -> integer_value m e z -> z < 2 ^ 53 -> decimal_value (repr_decimal m e).1 (repr_decimal m e).2 z.
Proof. intros Hc Hz Hlt. exact (shortest_digits_integer 17 1 (decimal_point m e) m e z Hc Hz Hlt (repr_decimal_rounds m e Hc)). Qed.
