(* ===== verification/JsonText.v ===== *)
(** * The text of canonical numbers, read back

    Decimal numerals, the text the canonical writer gives an integer or a
    float, and the decoder's number scanner on it: integers and integral floats
    read as the integer, every other float as the same float. *)

From stdpp Require Import base gmap sets list sorting strings.
From Stdlib Require Import ZArith Lia.
From Stdlib Require Import SpecFloat.
From S2P Require Import Prelude Text PyFloat CanonicalJson Hashing JsonLoads JsonNumbers.

(** ** Numerals *)

Definition digits (s : pystr) : Prop := Forall (fun c => 48 <= c <= 57) s.

(** Digits without a leading zero. *)
Definition numeral (s : pystr) : Prop := digits s /\ exists c r, s = c :: r /\ c <> 48.

Lemma digits_app a b : digits (a ++ b) <-> digits a /\ digits b.
Proof. apply Forall_app. Qed.

Lemma digits_zeros n : digits (replicate n 48).
Proof. apply Forall_replicate. lia. Qed.

Lemma pow10_pos n : 0 <= n -> 0 < 10 ^ n.
Proof. intros. apply Z.pow_pos_nonneg; lia. Qed.

Lemma parse_nat_snoc s c : parse_nat (s ++ [c]) = parse_nat s * 10 + (c - 48).
Proof. unfold parse_nat. by rewrite foldl_app. Qed.

Lemma parse_nat_app a b : parse_nat (a ++ b) = parse_nat a * 10 ^ Z.of_nat (length b) + parse_nat b.
Proof.
  induction b as [|c b IH] using rev_ind; [rewrite app_nil_r; cbn; lia|].
  rewrite app_assoc, !parse_nat_snoc, IH, length_app. cbn [length].
  replace (Z.of_nat (length b + 1)) with (Z.succ (Z.of_nat (length b))) by lia. rewrite Z.pow_succ_r by lia. ring.
Qed.

Lemma parse_nat_cons c s : parse_nat (c :: s) = (c - 48) * 10 ^ Z.of_nat (length s) + parse_nat s.
Proof. change (c :: s) with ([c] ++ s). rewrite parse_nat_app. cbn. lia. Qed.

Lemma parse_nat_zeros n : parse_nat (replicate n 48) = 0.
Proof. induction n as [|n IH]; [done|]. cbn [replicate]. rewrite parse_nat_cons, IH. lia. Qed.

Lemma parse_nat_bound s : digits s -> 0 <= parse_nat s < 10 ^ Z.of_nat (length s).
Proof.
  induction 1 as [|c s Hc _ IH]; [cbn; lia|]. rewrite parse_nat_cons. cbn [length].
  replace (Z.of_nat (S (length s))) with (Z.succ (Z.of_nat (length s))) by lia. rewrite Z.pow_succ_r by lia. nia.
Qed.

Lemma numeral_bound s : numeral s -> 10 ^ (Z.of_nat (length s) - 1) <= parse_nat s < 10 ^ Z.of_nat (length s).
Proof.
  intros [Hd (c & r & -> & Hc)]. split; [|by apply parse_nat_bound]. apply Forall_cons in Hd as [Hc' Hr].
  apply parse_nat_bound in Hr. rewrite parse_nat_cons. cbn [length]. replace (Z.of_nat (S (length r)) - 1) with (Z.of_nat (length r)) by lia. nia.
Qed.

Lemma digits_unique a b : digits a -> digits b -> length a = length b -> parse_nat a = parse_nat b -> a = b.
Proof.
  intros Ha. revert b. induction Ha as [|c a Hc Ha IH]; intros b Hb Hl E; destruct b as [|d b]; try done.
  apply Forall_cons in Hb as [Hd Hb]. injection Hl as Hl. rewrite !parse_nat_cons, Hl in E.
  pose proof (parse_nat_bound a Ha) as H1. pose proof (parse_nat_bound b Hb) as H2. rewrite Hl in H1.
  assert (c = d) as -> by nia. f_equal. apply IH; [done|done|lia].
Qed.

Lemma numeral_unique a b : numeral a -> numeral b -> parse_nat a = parse_nat b -> a = b.
Proof.
  intros Ha Hb E. pose proof (numeral_bound a Ha) as H1. pose proof (numeral_bound b Hb) as H2.
  assert (length a = length b).
  { destruct (Nat.lt_trichotomy (length a) (length b)) as [Hl|[|Hl]]; [|done|]; exfalso.
    - assert (10 ^ Z.of_nat (length a) <= 10 ^ (Z.of_nat (length b) - 1)) by (apply Z.pow_le_mono_r; lia). lia.
    - assert (10 ^ Z.of_nat (length b) <= 10 ^ (Z.of_nat (length a) - 1)) by (apply Z.pow_le_mono_r; lia). lia. }
  apply digits_unique; [apply Ha|apply Hb|done|done].
Qed.

Lemma dec_digits_spec fuel z acc :
  0 < z < 2 ^ Z.of_nat fuel -> exists s, dec_digits fuel z acc = s ++ acc /\ numeral s /\ parse_nat s = z.
Proof.
  revert z acc. induction fuel as [|f IH]; intros z acc Hz; [cbn in Hz; lia|]. cbn [dec_digits].
  pose proof (Z.mod_pos_bound z 10 ltac:(lia)) as Hm. pose proof (Z.div_mod z 10 ltac:(lia)) as E.
  destruct (Z.ltb_spec z 10) as [Hs|Hb].
  - exists [48 + z mod 10]. rewrite Z.mod_small by lia. split; [done|]. split; [|cbn; lia].
    split; [repeat constructor; lia|]. exists (48 + z), []. split; [done|lia].
  - replace (Z.of_nat (S f)) with (Z.succ (Z.of_nat f)) in Hz by lia. rewrite Z.pow_succ_r in Hz by lia.
    destruct (IH (z / 10) ((48 + z mod 10) :: acc)) as (s & -> & [Hd (c & r & -> & Hc)] & Hp).
    { split; [apply Z.div_str_pos; lia|]. apply Z.div_lt_upper_bound; lia. }
    exists ((c :: r) ++ [48 + z mod 10]). split; [by rewrite <- app_assoc|]. split.
    + split; [apply digits_app; split; [done|repeat constructor; lia]|]. exists c, (r ++ [48 + z mod 10]). done.
    + rewrite parse_nat_snoc, Hp. lia.
Qed.

Lemma nat_str_numeral z : 0 < z -> numeral (nat_str z) /\ parse_nat (nat_str z) = z.
Proof.
  intros Hz. unfold nat_str. destruct (dec_digits_spec (S (Z.to_nat (Z.log2 z))) z []) as (s & -> & Hn & Hp).
  - split; [done|]. rewrite Nat2Z.inj_succ, Z2Nat.id by apply Z.log2_nonneg. by apply Z.log2_spec.
  - by rewrite app_nil_r.
Qed.

Lemma numeral_nat_str s : numeral s -> s = nat_str (parse_nat s).
Proof.
  intros Hs. pose proof (numeral_bound s Hs) as Hb. destruct Hs as [Hd (c & r & -> & Hc)].
  assert (0 < parse_nat (c :: r)) by (pose proof (pow10_pos (Z.of_nat (length (c :: r)) - 1)); cbn [length] in *; lia).
  destruct (nat_str_numeral (parse_nat (c :: r))) as [Hn Hp]; [done|]. apply numeral_unique; [|done|done].
  split; [done|]. by exists c, r.
Qed.

(** ** Trailing characters *)

Definition ends_otherwise (c : Z) (s : pystr) : Prop := forall r x, s = r ++ [x] -> x <> c.

Lemma rstrip_spec c s : exists j, s = rstrip c s ++ replicate j c /\ ends_otherwise c (rstrip c s).
Proof.
  unfold rstrip. set (go := fix go (l : pystr) := match l with x :: l' => if x =? c then go l' else l | [] => [] end).
  assert (H : forall l, exists j, l = replicate j c ++ go l /\ forall x r, go l = x :: r -> x <> c).
  { induction l as [|x l (j & E & Hx)]; [by exists 0%nat|]. cbn. destruct (Z.eqb_spec x c) as [->|Hne].
    - exists (S j). split; [|done]. cbn. by f_equal.
    - exists 0%nat. split; [done|]. by intros y r [= <- _]. }
  destruct (H (reverse s)) as (j & E & Hx). exists j. split.
  - rewrite <- (reverse_involutive s) at 1. rewrite E at 1. by rewrite reverse_app, reverse_replicate.
  - intros r x E'. apply (Hx x (reverse r)). rewrite <- (reverse_involutive (go (reverse s))), E'. by rewrite reverse_app.
Qed.

Lemma rstrip_id c s : ends_otherwise c s -> rstrip c s = s.
Proof.
  intros Hs. destruct (rstrip_spec c s) as (j & E & _). destruct j as [|j]; [by rewrite app_nil_r in E|]. exfalso.
  apply (Hs (rstrip c s ++ replicate j c) c); [|done]. by rewrite replicate_S_end, app_assoc in E.
Qed.

Lemma strip_trailing_zeros_rstrip s : strip_trailing_zeros s = rstrip 48 s.
Proof.
  unfold strip_trailing_zeros, rstrip. f_equal. induction (reverse s) as [|x l IH]; [done|].
  destruct (Z.eqb_spec x 48) as [->|Hne]; [done|]. by repeat (case_match; try done).
Qed.

(** Digits of a positive decimal without zeros at either end. *)
Definition tight (s : pystr) : Prop := numeral s /\ ends_otherwise 48 s.

Lemma strip_numeral s : numeral s ->
  exists j, tight (strip_trailing_zeros s) /\ s = strip_trailing_zeros s ++ replicate j 48 /\
    parse_nat s = parse_nat (strip_trailing_zeros s) * 10 ^ Z.of_nat j.
Proof.
  intros [Hd (c & r & Es & Hc)]. rewrite strip_trailing_zeros_rstrip. destruct (rstrip_spec 48 s) as (j & E & He).
  exists j. split; [|split; [done|]].
  - split; [|done]. rewrite E in Hd. apply digits_app in Hd as [Hd _]. split; [done|].
    destruct (rstrip 48 s) as [|c' r'] eqn:Er; [|exists c', r'; split; [done|]; rewrite Es in E; by injection E as <-].
    exfalso. rewrite Es in E. destruct j; [done|]. by injection E as ->.
  - rewrite E at 1. rewrite parse_nat_app, parse_nat_zeros, length_replicate. lia.
Qed.

(** ** The decimal of a float *)

Definition repr_text (ds : pystr) (k : Z) : pystr :=
  let len := Z.of_nat (length ds) in
  if (-4 <? k) && (k <=? 16) then
    if k <=? 0 then u "0." ++ replicate (Z.to_nat (- k)) 48 ++ ds
    else if len <=? k then ds ++ replicate (Z.to_nat (k - len)) 48 ++ u ".0"
    else take (Z.to_nat k) ds ++ u "." ++ drop (Z.to_nat k) ds
  else
    let x := k - 1 in
    let mant := match ds with c :: ((_ :: _) as r) => c :: 46 :: r | _ => ds end in
    let xs := nat_str (Z.abs x) in
    let xs := if bool_decide (length xs < 2)%nat then 48 :: xs else xs in
    mant ++ u "e" ++ [if x <? 0 then 45 else 43] ++ xs.

Lemma rounds_to_shift d p j m e : -1074 <= e -> 0 <= j -> rounds_to (d * 10 ^ j) p m e = rounds_to d (p + j) m e.
Proof.
  intros He Hj. apply eq_bool_prop_intro. rewrite !Is_true_true, !rounds_to_iff by done. cbv zeta.
  assert (E : 10 ^ Z.max p 0 * 10 ^ j * 10 ^ Z.max (- (p + j)) 0 = 10 ^ Z.max (p + j) 0 * 10 ^ Z.max (- p) 0).
  { rewrite <- !Z.pow_add_r by lia. f_equal. lia. }
  pose proof (pow10_pos (Z.max (- (p + j)) 0) ltac:(lia)) as H1. pose proof (pow10_pos (Z.max (- p) 0) ltac:(lia)) as H2.
  set (low := 4 * m - _). set (high := 4 * m + 2). generalize dependent (10 ^ Z.max (- (p + j)) 0). generalize dependent (10 ^ Z.max (- p) 0).
  generalize (10 ^ Z.max p 0) (10 ^ Z.max (p + j) 0) (10 ^ j) (2 ^ 1074) (2 ^ (e + 1074)).
  intros A B J K W P HP Q E HQ. clearbody low high.
  (** Both sides compare [d * A * J / P] and [d * B / Q], which are equal. *)
  assert (H : forall c, c * (P * W) <= 4 * (d * J * A * K) <-> c * (Q * W) <= 4 * (d * B * K)).
  { intros c. rewrite (Z.mul_le_mono_pos_r _ _ Q HQ), (Z.mul_le_mono_pos_r (c * (Q * W)) _ P HP).
    replace (4 * (d * J * A * K) * Q) with (4 * d * K * (A * J * Q)) by ring. rewrite E.
    replace (c * (P * W) * Q) with (c * (Q * W) * P) by ring. replace (4 * d * K * (B * P)) with (4 * (d * B * K) * P) by ring. done. }
  assert (H' : forall c, 4 * (d * J * A * K) <= c * (P * W) <-> 4 * (d * B * K) <= c * (Q * W)).
  { intros c. rewrite (Z.mul_le_mono_pos_r _ _ Q HQ), (Z.mul_le_mono_pos_r (4 * (d * B * K)) _ P HP).
    replace (4 * (d * J * A * K) * Q) with (4 * d * K * (A * J * Q)) by ring. rewrite E.
    replace (c * (P * W) * Q) with (c * (Q * W) * P) by ring. replace (4 * d * K * (B * P)) with (4 * (d * B * K) * P) by ring. done. }
  destruct (Z.even m); [by rewrite H, H'|]. rewrite <- !Z.nle_gt, H, H'. done.
Qed.

Lemma decimal_value_shift d p j z : 0 <= j -> decimal_value (d * 10 ^ j) p z -> decimal_value d (p + j) z.
Proof.
  unfold decimal_value. intros Hj E.
  assert (E' : 10 ^ Z.max p 0 * 10 ^ j * 10 ^ Z.max (- (p + j)) 0 = 10 ^ Z.max (p + j) 0 * 10 ^ Z.max (- p) 0).
  { rewrite <- !Z.pow_add_r by lia. f_equal. lia. }
  apply (Z.mul_cancel_r _ _ (10 ^ Z.max (- p) 0)); [apply Z.pow_nonzero; lia|].
  replace (d * 10 ^ Z.max (p + j) 0 * 10 ^ Z.max (- p) 0) with (d * (10 ^ Z.max (p + j) 0 * 10 ^ Z.max (- p) 0)) by ring.
  rewrite <- E'. replace (d * (10 ^ Z.max p 0 * 10 ^ j * 10 ^ Z.max (- (p + j)) 0))
    with (d * 10 ^ j * 10 ^ Z.max p 0 * 10 ^ Z.max (- (p + j)) 0) by ring. rewrite E. ring.
Qed.

(** The decimal printed for a float: its digits and its point. *)
Record prints_as (m e : Z) (ds : pystr) (k : Z) : Prop := {
  pa_tight : tight ds;
  pa_rounds : rounds_to (parse_nat ds) (k - Z.of_nat (length ds)) m e = true;
  pa_integer : forall z, integer_value m e z -> z < 2 ^ 53 -> decimal_value (parse_nat ds) (k - Z.of_nat (length ds)) z;
}.

Lemma repr_parts m e : canonical_pair m e -> exists ds k, prints_as m e ds k /\ float_repr_pos m e = repr_text ds k.
Proof.
  intros Hc. pose proof (repr_decimal_rounds m e Hc) as Hr. pose proof (repr_decimal_pos m e Hc) as Hd.
  pose proof (fun z => repr_decimal_integer m e z Hc) as Hi.
  assert (E : float_repr_pos m e = let '(d, p) := repr_decimal m e in
            repr_text (strip_trailing_zeros (nat_str d)) (Z.of_nat (length (nat_str d)) + p)) by done.
  rewrite E. clear E. destruct (repr_decimal m e) as [d p]. cbn [fst snd] in *.
  destruct (nat_str_numeral d Hd) as [Hn Hp]. destruct (strip_numeral _ Hn) as (j & Ht & Es & Hv).
  eexists _, _. split; [|done]. rewrite Hp in Hv. set (ds := strip_trailing_zeros (nat_str d)) in *.
  assert (El : Z.of_nat (length (nat_str d)) + p - Z.of_nat (length ds) = p + Z.of_nat j)
    by (rewrite Es, length_app, length_replicate; lia).
  split; [exact Ht| |]; rewrite El.
  - by rewrite Hv, rounds_to_shift in Hr by (destruct Hc; lia).
  - intros z Hz Hlt. apply decimal_value_shift; [lia|]. rewrite <- Hv. by apply Hi.
Qed.

(** ** The text of a canonical float *)

(** The ECMAScript text of the decimal [0.ds * 10^k], for [k <= 16]. *)
Definition plain_text (ds : pystr) (k : Z) : pystr :=
  let len := Z.of_nat (length ds) in
  if k <=? -6 then
    match ds with
    | c :: ((_ :: _) as r) => c :: 46 :: r ++ 101 :: 45 :: nat_str (1 - k)
    | _ => ds ++ 101 :: 45 :: nat_str (1 - k)
    end
  else if k <=? 0 then u "0." ++ replicate (Z.to_nat (- k)) 48 ++ ds
  else if len <=? k then ds ++ replicate (Z.to_nat (k - len)) 48
  else take (Z.to_nat k) ds ++ u "." ++ drop (Z.to_nat k) ds.

(** [_ecmascript_number_text] after [repr]. *)
Definition ecmascript_of (sign text : pystr) : pystr :=
  match find_char 101 text with
  | None => sign ++ _strip_integer_float text
  | Some i =>
      let mantissa := take i text in
      let exponent := parse_int (drop (S i) text) in
      let '(ds, decimal_index) := _decimal_parts mantissa exponent in
      if (-6 <=? exponent) && (exponent <? 21) then sign ++ _fixed_decimal ds decimal_index
      else
        let rest := rstrip 48 (drop 1 ds) in
        let suffix := if 0 <=? exponent then u "+" ++ int_str exponent else int_str exponent in
        if bool_decide (rest <> [])
        then sign ++ take 1 ds ++ u "." ++ rest ++ u "e" ++ suffix
        else sign ++ take 1 ds ++ u "e" ++ suffix
  end.

Lemma find_char_first c pre post : c ∉ pre -> find_char c (pre ++ c :: post) = Some (length pre).
Proof.
  induction pre as [|x pre IH]; intros Hc; cbn; [by rewrite Z.eqb_refl|].
  apply not_elem_of_cons in Hc as [Hx Hc]. rewrite (proj2 (Z.eqb_neq c x) Hx), IH by done. done.
Qed.

Lemma endswith_spec p s : endswith p s = true <-> exists r, s = r ++ p.
Proof.
  unfold endswith. rewrite startswith_spec. split.
  - intros [r E]. exists (reverse r). rewrite <- (reverse_involutive s), E, reverse_app, reverse_involutive. done.
  - intros [r ->]. exists (reverse r). by rewrite reverse_app.
Qed.

Lemma strip_integer_plain s : ends_otherwise 48 s -> _strip_integer_float s = s.
Proof.
  intros Hs. unfold _strip_integer_float. destruct (endswith (u ".0") s) eqn:E; [|done]. exfalso.
  apply endswith_spec in E as [r E]. apply (Hs (r ++ u ".") 48); [|done]. by rewrite E, <- app_assoc.
Qed.

Lemma strip_integer_point s : _strip_integer_float (s ++ u ".0") = s.
Proof.
  unfold _strip_integer_float. rewrite (proj2 (endswith_spec _ _)) by (by exists s).
  rewrite length_app. change (length (u ".0")) with 2%nat. rewrite Nat.add_sub. by rewrite take_app_length.
Qed.

Lemma ends_app c a b : b <> [] -> ends_otherwise c b -> ends_otherwise c (a ++ b).
Proof.
  intros Hb He r x E. destruct b as [|y b _] using rev_ind; [done|]. rewrite app_assoc in E.
  apply app_inj_tail in E as [_ <-]. by apply (He b y).
Qed.

Lemma digits_not_in c s : digits s -> ¬ 48 <= c <= 57 -> c ∉ s.
Proof. unfold digits. rewrite Forall_forall. intros Hd Hc Hin. by apply Hc, Hd. Qed.

Lemma tight_nonempty ds : tight ds -> ds <> [].
Proof. by intros [[_ (c & r & -> & _)] _]. Qed.

Lemma tight_drop ds n : tight ds -> drop n ds <> [] -> ends_otherwise 48 (drop n ds).
Proof.
  intros [_ He] _ r x E. apply (He (take n ds ++ r) x). by rewrite <- app_assoc, <- E, take_drop.
Qed.

Lemma no_e_app a b : 101 ∉ a -> 101 ∉ b -> 101 ∉ a ++ b.
Proof. rewrite elem_of_app. tauto. Qed.

Lemma no_e_digits s : digits s -> 101 ∉ s.
Proof. intros Hs. apply digits_not_in; [done|lia]. Qed.

Lemma point_text_plain ds k : tight ds -> k <= 0 ->
  ends_otherwise 48 (u "0." ++ replicate (Z.to_nat (- k)) 48 ++ ds).
Proof.
  intros Ht Hk. rewrite app_assoc. apply ends_app; [by apply tight_nonempty|apply Ht].
Qed.

(** Without an exponent in [repr]. *)
Lemma ecmascript_fixed sign ds k : tight ds -> -4 < k <= 16 -> ecmascript_of sign (repr_text ds k) = sign ++ plain_text ds k.
Proof.
  intros Ht Hk. pose proof Ht as [[Hd _] _]. unfold repr_text, plain_text.
  rewrite (proj2 (Z.ltb_lt (-4) k)), (proj2 (Z.leb_le k 16)), (proj2 (Z.leb_gt k (-6))) by lia. cbn [andb].
  assert (Hz : forall n, 101 ∉ replicate n 48) by (intros n; apply no_e_digits, digits_zeros).
  destruct (Z.leb_spec k 0) as [Hk0|Hk0]; [|destruct (Z.leb_spec (Z.of_nat (length ds)) k) as [Hl|Hl]]; unfold ecmascript_of.
  - rewrite (proj2 (find_char_None 101 _)); [|apply no_e_app; [by vm_compute; set_solver|apply no_e_app; [done|by apply no_e_digits]]].
    by rewrite strip_integer_plain by by apply point_text_plain.
  - rewrite (proj2 (find_char_None 101 _)).
    + rewrite app_assoc, strip_integer_point. done.
    + apply no_e_app; [by apply no_e_digits|apply no_e_app; [done|by vm_compute; set_solver]].
  - assert (Hdrop : drop (Z.to_nat k) ds <> []) by (intros E; apply (f_equal length) in E; rewrite length_drop in E; cbn in E; lia).
    rewrite (proj2 (find_char_None 101 _)).
    + rewrite strip_integer_plain; [done|]. rewrite app_assoc. apply ends_app; [done|by apply tight_drop].
    + apply no_e_app; [apply no_e_digits; by apply Forall_take|apply no_e_app; [by vm_compute; set_solver|apply no_e_digits; by apply Forall_drop]].
Qed.

(** The mantissa [repr] prints before an exponent. *)
Definition mantissa (ds : pystr) : pystr := match ds with c :: ((_ :: _) as r) => c :: 46 :: r | _ => ds end.

Lemma mantissa_parts ds x : tight ds -> _decimal_parts (mantissa ds) x = (ds, 1 + x).
Proof.
  intros [[Hd (c & r & -> & Hc)] _]. apply Forall_cons in Hd as [Hc' Hr]. unfold _decimal_parts, mantissa.
  destruct r as [|c' r].
  - rewrite (proj2 (find_char_None 46 [c])) by (rewrite list_elem_of_singleton; lia). done.
  - change (c :: 46 :: c' :: r) with ([c] ++ 46 :: c' :: r). rewrite find_char_first by (rewrite list_elem_of_singleton; lia). done.
Qed.

Lemma mantissa_no_e ds : digits ds -> 101 ∉ mantissa ds.
Proof.
  intros Hd. pose proof (no_e_digits ds Hd) as He. destruct ds as [|c [|c' r]]; [done|done|]. unfold mantissa.
  rewrite !not_elem_of_cons in *. destruct He as (H1 & H2 & H3). split_and!; [done|lia|done|done].
Qed.

Lemma drop_past {A} (a b : list A) x : drop (S (length a)) (a ++ x :: b) = b.
Proof. induction a as [|y a IH]; [by destruct b|]. exact IH. Qed.

Lemma ecmascript_exponent sign ds k : tight ds -> k <= -4 -> ecmascript_of sign (repr_text ds k) = sign ++ plain_text ds k.
Proof.
  intros Ht Hk. pose proof Ht as [[Hd (c & r & Eds & Hc)] He]. unfold repr_text.
  rewrite (proj2 (Z.ltb_ge (-4) k)) by lia. cbn [andb]. fold (mantissa ds).
  rewrite (proj2 (Z.ltb_lt (k - 1) 0)) by lia. replace (Z.abs (k - 1)) with (1 - k) by lia.
  destruct (nat_str_numeral (1 - k)) as [[Hxs _] Hxp]; [lia|].
  set (xs := if bool_decide (length (nat_str (1 - k)) < 2)%nat then 48 :: nat_str (1 - k) else nat_str (1 - k)).
  assert (Hp : parse_int (45 :: xs) = k - 1).
  { unfold xs. cbn [parse_int]. case_bool_decide; [rewrite parse_nat_cons|]; rewrite Hxp; lia. }
  unfold ecmascript_of. change (u "e" ++ [45] ++ xs) with (101 :: 45 :: xs).
  rewrite find_char_first by by apply mantissa_no_e. rewrite take_app_length.
  rewrite drop_past.
  cbv zeta. rewrite Hp, (mantissa_parts ds (k - 1) Ht). replace (1 + (k - 1)) with k by lia.
  rewrite (proj2 (Z.ltb_lt (k - 1) 21)), andb_true_r by lia. unfold plain_text.
  destruct (Z.leb_spec (-6) (k - 1)) as [Hk6|Hk6].
  - rewrite (proj2 (Z.leb_gt k (-6))), (proj2 (Z.leb_le k 0)) by lia. f_equal. unfold _fixed_decimal. rewrite (proj2 (Z.leb_le k 0)) by lia.
    replace (Z.abs k) with (- k) by lia. cbn [has_char existsb negb]. change (has_char 46 (u "0." ++ _)) with true. cbn [negb].
    rewrite (rstrip_id 48) by (apply point_text_plain; [done|lia]). apply rstrip_id. rewrite app_assoc. apply ends_app; [by apply tight_nonempty|].
    intros r' x E ->. unfold digits in Hd. rewrite E in Hd. apply Forall_app in Hd as [_ Hd]. apply Forall_cons in Hd as [Hd _]. lia.
  - rewrite (proj2 (Z.leb_le k (-6))), (proj2 (Z.leb_gt 0 (k - 1))) by lia. unfold int_str. rewrite (proj2 (Z.ltb_lt (k - 1) 0)) by lia.
    replace (- (k - 1)) with (1 - k) by lia. subst ds. cbn [drop take]. rewrite drop_0. 
    destruct r as [|c' r]; [done|]. rewrite rstrip_id by (by apply (tight_drop (c :: c' :: r) 1)).
    rewrite bool_decide_eq_true_2 by done. done.
Qed.

Lemma ecmascript_plain sign ds k : tight ds -> k <= 16 -> ecmascript_of sign (repr_text ds k) = sign ++ plain_text ds k.
Proof. intros Ht Hk. destruct (Z.le_gt_cases k (-4)); [by apply ecmascript_exponent|apply ecmascript_fixed; [done|lia]]. Qed.

(** ** Where the point falls *)

Lemma tight_last ds : tight ds -> parse_nat ds mod 10 <> 0.
Proof.
  intros [[Hd Hn] He]. destruct ds as [|c r _] using rev_ind; [by destruct Hn as (? & ? & ? & _)|].
  specialize (He r c eq_refl). apply digits_app in Hd as [_ Hd]. apply Forall_cons in Hd as [Hc _].
  rewrite parse_nat_snoc, Z.add_comm, Z.mod_add, Z.mod_small by lia. lia.
Qed.

Lemma point_at_most_16 m e ds k : canonical_pair m e -> e <= 0 -> prints_as m e ds k -> k <= 16.
Proof.
  intros (Hm & He & _) He0 [[Hn _] Hr _]. destruct (Z.le_gt_cases k 16) as [|Hk]; [done|]. exfalso.
  apply rounds_to_iff in Hr; [|lia]. cbv zeta in Hr. pose proof (numeral_bound ds Hn) as [Hb _].
  set (P := k - Z.of_nat (length ds)) in *. set (L := Z.of_nat (length ds)) in *.
  assert (HL : 1 <= L) by (destruct Hn as [_ (c & r & -> & _)]; subst L; cbn [length]; lia).
  assert (E : 10 ^ (L - 1) * 10 ^ Z.max P 0 = 10 ^ 16 * 10 ^ (k - 17) * 10 ^ Z.max (- P) 0).
  { rewrite <- !Z.pow_add_r by lia. f_equal. lia. }
  assert (E2 : 2 ^ 1074 = 2 ^ (- e) * 2 ^ (e + 1074)) by (rewrite <- pow2_split by lia; f_equal; lia).
  assert (H1 : 1 <= 2 ^ (- e)) by (apply (Z.pow_le_mono_r 2 0); lia). assert (H2 : 1 <= 10 ^ (k - 17)) by (apply (Z.pow_le_mono_r 10 0); lia).
  assert (H3 : 0 < 2 ^ (e + 1074)) by (apply Z.pow_pos_nonneg; lia). pose proof (pow10_pos (Z.max (- P) 0) ltac:(lia)) as H4.
  pose proof (pow10_pos (Z.max P 0) ltac:(lia)) as H5.
  assert (Hx : 4 * (parse_nat ds * 10 ^ Z.max P 0 * 2 ^ 1074) <= (4 * m + 2) * (10 ^ Z.max (- P) 0 * 2 ^ (e + 1074))) by (destruct (Z.even m); lia).
  rewrite E2 in Hx. set (q := 10 ^ Z.max (- P) 0) in *. set (w := 2 ^ (e + 1074)) in *.
  assert (Hlow : 10 ^ 16 * q <= parse_nat ds * 10 ^ Z.max P 0).
  { trans (10 ^ (L - 1) * 10 ^ Z.max P 0); [rewrite E; nia|]. apply Z.mul_le_mono_nonneg_r; lia. }
  assert (Hfin : 4 * (10 ^ 16 * q * w) <= (4 * m + 2) * (q * w)).
  { etrans; [|exact Hx]. apply Z.mul_le_mono_nonneg_l; [lia|].
    replace (parse_nat ds * 10 ^ Z.max P 0 * (2 ^ (- e) * w)) with (parse_nat ds * 10 ^ Z.max P 0 * w * 2 ^ (- e)) by ring.
    assert (10 ^ 16 * q * w <= parse_nat ds * 10 ^ Z.max P 0 * w) by (apply Z.mul_le_mono_nonneg_r; lia).
    assert (0 <= parse_nat ds * 10 ^ Z.max P 0 * w) by nia. nia. }
  assert (0 < q * w) by nia. nia.
Qed.

Lemma integral_decimal d p m e : -1074 <= e <= 0 -> 0 <= p -> rounds_to d p m e = true -> m = d * 10 ^ p * 2 ^ (- e).
Proof.
  intros He Hp Hr. apply rounds_to_iff in Hr; [|lia]. cbv zeta in Hr.
  replace (Z.max p 0) with p in Hr by lia. replace (Z.max (- p) 0) with 0 in Hr by lia.
  assert (E : 2 ^ 1074 = 2 ^ (- e) * 2 ^ (e + 1074)) by (rewrite <- pow2_split by lia; f_equal; lia).
  assert (HE : 0 < 2 ^ (e + 1074)) by (apply Z.pow_pos_nonneg; lia). rewrite E, Z.pow_0_r, Z.mul_1_l in Hr.
  assert (Hb : (4 * m - 2) * 2 ^ (e + 1074) <= 4 * (d * 10 ^ p * 2 ^ (- e)) * 2 ^ (e + 1074) <= (4 * m + 2) * 2 ^ (e + 1074)).
  { destruct (Z.even m), ((m =? 2 ^ 52) && (-1074 <? e)); nia. }
  assert (4 * m - 2 <= 4 * (d * 10 ^ p * 2 ^ (- e)) <= 4 * m + 2); [|lia].
  split; apply (Z.mul_le_mono_pos_r _ _ (2 ^ (e + 1074))); lia.
Qed.

(** The point is after the digits exactly for the integers. *)
Lemma integer_point m e ds k :
  canonical_pair m e -> e <= 0 -> prints_as m e ds k ->
  (Z.of_nat (length ds) <= k -> integer_value m e (parse_nat ds * 10 ^ (k - Z.of_nat (length ds)))) /\
  (forall z, integer_value m e z -> Z.of_nat (length ds) <= k).
Proof.
  intros (Hm & He & Hf) He0 [Ht Hr Hi]. unfold integer_value in *.
  replace (Z.max e 0) with 0 in * by lia. replace (Z.max (- e) 0) with (- e) in * by lia. split.
  - intros Hk. rewrite (integral_decimal _ (k - Z.of_nat (length ds)) m e) at 1 by (first [done|lia]). lia.
  - intros z Hz. destruct (Z.le_gt_cases (Z.of_nat (length ds)) k) as [|Hk]; [done|]. exfalso.
    assert (Hlt : z < 2 ^ 53) by (assert (1 <= 2 ^ (- e)) by (apply (Z.pow_le_mono_r 2 0); lia); nia).
    specialize (Hi z Hz Hlt). unfold decimal_value in Hi. apply (tight_last ds Ht).
    replace (Z.max (k - Z.of_nat (length ds)) 0) with 0 in Hi by lia. rewrite Z.pow_0_r, Z.mul_1_r in Hi. rewrite Hi.
    replace (Z.max (- (k - Z.of_nat (length ds))) 0) with (Z.succ (Z.of_nat (length ds) - k - 1)) by lia.
    rewrite Z.pow_succ_r by lia. replace (z * (10 * 10 ^ (Z.of_nat (length ds) - k - 1))) with (z * 10 ^ (Z.of_nat (length ds) - k - 1) * 10) by ring.
    apply Z.mod_mul. lia.
Qed.

(** ** Scanning numbers *)

(** What may follow a number in canonical text. *)
Definition stops (s : pystr) : Prop :=
  match s with c :: _ => is_digit c = false /\ c <> 46 /\ c <> 101 /\ c <> 69 | [] => True end.

Definition sign_text (neg : bool) : pystr := if neg then [45] else [].
Definition signed (neg : bool) (z : Z) : Z := if neg then - z else z.

Lemma is_digit_true c : 48 <= c <= 57 -> is_digit c = true.
Proof. unfold is_digit. lia. Qed.

Lemma span_digits_app ds rest :
  digits ds -> match rest with c :: _ => is_digit c = false | [] => True end -> span_digits (ds ++ rest) = (ds, rest).
Proof.
  intros Hd Hr. induction Hd as [|c ds Hc _ IH]; cbn.
  - destruct rest as [|c rest]; [done|]. cbn. by rewrite Hr.
  - by rewrite (is_digit_true c Hc), IH.
Qed.

Lemma scan_fraction_stop rest : (match rest with c :: _ => c <> 46 | [] => True end) -> scan_fraction rest = (None, rest).
Proof.
  intros Hr. destruct rest as [|c rest]; [done|]. unfold scan_fraction.
  destruct (Z.eq_dec c 46) as [->|Hne]; [done|]. by repeat (case_match; try done).
Qed.

Lemma scan_fraction_app fs rest :
  digits fs -> fs <> [] -> (match rest with c :: _ => is_digit c = false | [] => True end) ->
  scan_fraction (46 :: fs ++ rest) = (Some fs, rest).
Proof. intros Hd Hne Hr. unfold scan_fraction. rewrite span_digits_app by done. by destruct fs. Qed.

Lemma scan_exponent_stop rest : (match rest with c :: _ => c <> 101 /\ c <> 69 | [] => True end) -> scan_exponent rest = (None, rest).
Proof.
  intros Hr. destruct rest as [|c rest]; [done|]. unfold scan_exponent. destruct Hr as [H1 H2].
  by rewrite (proj2 (Z.eqb_neq c 101) H1), (proj2 (Z.eqb_neq c 69) H2).
Qed.

Lemma scan_exponent_app es rest :
  digits es -> es <> [] -> (match rest with c :: _ => is_digit c = false | [] => True end) ->
  scan_exponent (101 :: 45 :: es ++ rest) = (Some (- parse_nat es), rest).
Proof.
  intros Hd Hne Hr. unfold scan_exponent. cbn [Z.eqb Pos.eqb orb]. rewrite span_digits_app by done. destruct es as [|c es]; [done|].
  replace (-1 * parse_nat (c :: es)) with (- parse_nat (c :: es)) by lia. done.
Qed.

(** The integer part: [0], or a numeral. *)
Definition int_part (s : pystr) : Prop := s = [48] \/ numeral s.

Lemma int_part_digits s : int_part s -> digits s /\ s <> [].
Proof. intros [->|[Hd (c & r & -> & _)]]; [split; [repeat constructor; lia|done]|done]. Qed.

Lemma scan_sign neg s c : c <> 45 ->
  (match sign_text neg ++ c :: s with 45 :: r => (true, r) | _ => (false, sign_text neg ++ c :: s) end) = (neg, c :: s).
Proof. intros Hc. destruct neg; [done|]. cbn. by repeat (case_match; try done). Qed.

(** The scanner after the sign and the integer part. *)
Lemma scan_number_parts neg ints rest :
  int_part ints -> (match rest with c :: _ => is_digit c = false | [] => True end) ->
  scan_number (sign_text neg ++ ints ++ rest) =
    let '(frac, s3) := scan_fraction rest in
    let '(exp, s4) := scan_exponent s3 in
    match frac, exp with
    | None, None =>
        raise_if (bool_decide (MAX_STR_DIGITS < length ints)%nat) (ValueError (u "Exceeds the limit (4300 digits) for integer string conversion")) ;;
        Ok (VInt (signed neg (parse_nat ints)), s4)
    | _, _ =>
        let fs := default [] frac in
        Ok (VFloat (float_of_decimal neg (parse_nat (ints ++ fs)) (default 0 exp - Z.of_nat (length fs))), s4)
    end.
Proof.
  intros Hi Hr. destruct (int_part_digits ints Hi) as [Hd Hne]. unfold scan_number.
  destruct ints as [|c ints]; [done|]. apply Forall_cons in Hd as [Hc Hd]. cbn [app]. rewrite scan_sign by lia.
  destruct Hi as [[= -> ->]|[_ (c' & r & [= <- <-] & Hc')]]; [done|].
  assert (E : (match c :: ints ++ rest with
               | 48 :: r => Ok ([48], r)
               | _ => match span_digits (c :: ints ++ rest) with ([], _) => Raise JSONDecodeError | (ds, rest) => Ok (ds, rest) end
               end) = Ok (c :: ints, rest)).
  { change (c :: ints ++ rest) with ((c :: ints) ++ rest). rewrite span_digits_app; [|by apply Forall_cons|done]. cbn [app].
    by repeat (case_match; try done). }
  rewrite E. done.
Qed.

Lemma scan_integer neg ints rest :
  int_part ints -> (length ints <= MAX_STR_DIGITS)%nat -> stops rest ->
  scan_number (sign_text neg ++ ints ++ rest) = Ok (VInt (signed neg (parse_nat ints)), rest).
Proof.
  intros Hi Hl Hr. rewrite scan_number_parts; [|done|by destruct rest; [|apply Hr]].
  rewrite scan_fraction_stop by (destruct rest; [done|apply Hr]). rewrite scan_exponent_stop by (destruct rest; [done|apply Hr]).
  rewrite bool_decide_eq_false_2 by lia. done.
Qed.

Lemma scan_decimal neg ints fs rest :
  int_part ints -> digits fs -> fs <> [] -> stops rest ->
  scan_number (sign_text neg ++ ints ++ 46 :: fs ++ rest) =
    Ok (VFloat (float_of_decimal neg (parse_nat (ints ++ fs)) (- Z.of_nat (length fs))), rest).
Proof.
  intros Hi Hd Hne Hr. rewrite scan_number_parts by done. rewrite scan_fraction_app; [|done|done|by destruct rest; [|apply Hr]].
  rewrite scan_exponent_stop by (destruct rest; [done|apply Hr]). done.
Qed.

Lemma scan_small neg c fs es rest :
  49 <= c <= 57 -> digits fs -> digits es -> es <> [] -> stops rest ->
  scan_number (sign_text neg ++ c :: (if bool_decide (fs = []) then [] else 46 :: fs) ++ 101 :: 45 :: es ++ rest) =
    Ok (VFloat (float_of_decimal neg (parse_nat (c :: fs)) (- parse_nat es - Z.of_nat (length fs))), rest).
Proof.
  intros Hc Hd He Hne Hr.
  assert (Hi : int_part [c]) by (right; split; [repeat constructor; lia|exists c, []; split; [done|lia]]).
  change (c :: ?x ++ ?y) with ([c] ++ x ++ y). rewrite scan_number_parts; [|done|by case_bool_decide].
  case_bool_decide as Ef; [subst fs|].
  - rewrite scan_fraction_stop by done. cbn [app]. rewrite scan_exponent_app; [done|done|done|by destruct rest; [|apply Hr]].
  - cbn [app]. rewrite scan_fraction_app by done. rewrite scan_exponent_app; [done|done|done|by destruct rest; [|apply Hr]].
Qed.

(** ** Canonical numbers *)

(** A [float] of the language: zero, infinity, NaN or a canonical pair. *)
Definition binary64 (f : spec_float) : Prop :=
  match f with S754_finite _ m e => canonical_pair (Z.pos m) e | _ => True end.

(** What reading a canonical float gives: the integer, when it is one. *)
Definition json_number (f : spec_float) : pyval :=
  match f with
  | S754_zero _ => VInt 0
  | S754_finite s m e =>
      if float_is_integer f then VInt (signed s (Z.pos m * 2 ^ Z.max e 0 / 2 ^ Z.max (- e) 0)) else VFloat f
  | _ => VFloat f
  end.

Lemma integer_value_iff m e : e <= 0 ->
  ((0 <=? e) || (m mod 2 ^ (- e) =? 0) = true <-> exists z, integer_value m e z).
Proof.
  intros He. unfold integer_value. replace (Z.max e 0) with 0 by lia. replace (Z.max (- e) 0) with (- e) by lia.
  assert (Hp : 0 < 2 ^ (- e)) by (apply Z.pow_pos_nonneg; lia). rewrite Z.pow_0_r. split.
  - intros [He0%Z.leb_le|Hm%Z.eqb_eq]%orb_true_iff.
    + exists m. replace e with 0 by lia. done.
    + exists (m / 2 ^ (- e)). pose proof (Z.div_mod m (2 ^ (- e)) ltac:(lia)). lia.
  - intros [z Hz]. apply orb_true_iff. right. apply Z.eqb_eq. rewrite Z.mul_1_r in Hz. rewrite Hz. apply Z.mod_mul. lia.
Qed.

Lemma integer_value_div m e z : integer_value m e z -> m * 2 ^ Z.max e 0 / 2 ^ Z.max (- e) 0 = z.
Proof.
  unfold integer_value. intros ->. apply Z.div_mul. apply Z.pow_nonzero; lia.
Qed.

Lemma safe_exponent s m e : canonical_pair (Z.pos m) e -> float_gt_safe (S754_finite s m e) = false -> e <= 0.
Proof.
  intros _. unfold float_gt_safe. change (float_of_Z MAX_SAFE_JSON_INTEGER) with (S754_finite false 9007199254740991 0).
  unfold SFltb. cbn [float_abs SFcompare]. destruct (Z.compare_spec 0 e); [lia|done|lia].
Qed.

Lemma canonical_float_text s m e path t :
  canonical_pair (Z.pos m) e -> _canonical_float (S754_finite s m e) path = Ok t ->
  exists ds k, prints_as (Z.pos m) e ds k /\ e <= 0 /\ k <= 16 /\ t = sign_text s ++ plain_text ds k.
Proof.
  intros Hc. unfold _canonical_float. cbn [float_isfinite negb float_is_zero].
  destruct (float_gt_safe (S754_finite s m e)) eqn:Eg; [done|]. intros [= <-].
  pose proof (safe_exponent s m e Hc Eg) as He. destruct (repr_parts (Z.pos m) e Hc) as (ds & k & Hp & Er).
  exists ds, k. pose proof (point_at_most_16 _ _ _ _ Hc He Hp) as Hk. split_and!; try done.
  change (_ecmascript_number_text (S754_finite s m e)) with (ecmascript_of (sign_text s) (float_repr_pos (Z.pos m) e)).
  rewrite Er. apply ecmascript_plain; [apply Hp|done].
Qed.

Lemma tight_int_part ds : tight ds -> int_part ds.
Proof. intros [Hn _]. by right. Qed.

Lemma numeral_zeros ds n : numeral ds -> numeral (ds ++ replicate n 48).
Proof.
  intros [Hd (c & r & -> & Hc)]. split; [apply digits_app; split; [done|apply digits_zeros]|]. by exists c, (r ++ replicate n 48).
Qed.

Lemma numeral_take ds n : numeral ds -> (0 < n)%nat -> numeral (take n ds).
Proof.
  intros [Hd (c & r & -> & Hc)] Hn. split; [by apply Forall_take|]. destruct n as [|n]; [lia|]. by exists c, (take n r).
Qed.

(** The float whose decimal is [0.ds * 10^k], when that is not an integer. *)
Lemma float_of_decimal_prints s m e ds k :
  canonical_pair (Z.pos m) e -> prints_as (Z.pos m) e ds k ->
  float_of_decimal s (parse_nat ds) (k - Z.of_nat (length ds)) = S754_finite s m e.
Proof.
  intros Hc [[[Hd _] _] Hr _]. rewrite (float_of_decimal_rounds s _ _ (Z.pos m) e); [done| |done|done].
  by apply parse_nat_bound.
Qed.

(** The normal form of a float, by where its point falls. *)
Lemma json_number_point s m e ds k :
  canonical_pair (Z.pos m) e -> e <= 0 -> prints_as (Z.pos m) e ds k ->
  json_number (S754_finite s m e) =
    if Z.of_nat (length ds) <=? k then VInt (signed s (parse_nat ds * 10 ^ (k - Z.of_nat (length ds)))) else VFloat (S754_finite s m e).
Proof.
  intros Hc He Hp. pose proof (integer_point _ _ _ _ Hc He Hp) as [Hint Hnot].
  pose proof (integer_value_iff (Z.pos m) e He) as Hii. unfold json_number, float_is_integer.
  destruct (Z.leb_spec (Z.of_nat (length ds)) k) as [Hpt|Hpt].
  - rewrite (proj2 Hii) by (eexists; by apply Hint). by rewrite (integer_value_div _ _ _ (Hint Hpt)).
  - assert (Hni : (0 <=? e) || (Z.pos m mod 2 ^ (- e) =? 0) = false); [|by rewrite Hni].
    apply not_true_iff_false. intros [z Hz]%Hii. specialize (Hnot z Hz). lia.
Qed.

Lemma plain_text_reads s m e ds k rest :
  canonical_pair (Z.pos m) e -> e <= 0 -> k <= 16 -> prints_as (Z.pos m) e ds k -> stops rest ->
  scan_number (sign_text s ++ plain_text ds k ++ rest) = Ok (json_number (S754_finite s m e), rest).
Proof.
  intros Hc He Hk Hp Hr. rewrite (json_number_point s m e ds k Hc He Hp).
  pose proof (float_of_decimal_prints s m e ds k Hc Hp) as Hf. pose proof (pa_tight _ _ _ _ Hp) as Ht. pose proof Ht as [Hn _].
  pose proof Hn as [Hd (c & r & Eds & Hc0)]. unfold plain_text. destruct (Z.leb_spec (Z.of_nat (length ds)) k) as [Hpt|Hpt].
  - (** an integer *)
    assert (1 <= Z.of_nat (length ds)) by (rewrite Eds; cbn [length]; lia).
    rewrite (proj2 (Z.leb_gt k (-6))), (proj2 (Z.leb_gt k 0)) by lia.
    rewrite scan_integer; [|right; by apply numeral_zeros| |done].
    + rewrite parse_nat_app, parse_nat_zeros, length_replicate, Z.add_0_r.
      by replace (Z.of_nat (Z.to_nat (k - Z.of_nat (length ds)))) with (k - Z.of_nat (length ds)) by lia.
    + rewrite length_app, length_replicate. unfold MAX_STR_DIGITS. lia.
  - destruct (Z.leb_spec k (-6)) as [Hk6|Hk6]; [|destruct (Z.leb_spec k 0) as [Hk0|Hk0]].
    + destruct (nat_str_numeral (1 - k)) as [[Hxs (cx & rx & Ex & _)] Hxp]; [lia|]. rewrite Eds in Hd. apply Forall_cons in Hd as [Hc' Hr'].
      pose proof (scan_small s c r (nat_str (1 - k)) rest ltac:(lia) Hr' Hxs ltac:(by rewrite Ex) Hr) as E.
      rewrite Hxp in E. rewrite Eds in Hf. cbn [length] in Hf.
      replace (- (1 - k) - Z.of_nat (length r)) with (k - Z.of_nat (S (length r))) in E by lia. rewrite Hf in E.
      rewrite Eds. destruct r as [|c' r].
      * rewrite bool_decide_eq_true_2 in E by done. cbn [app] in *. exact E.
      * rewrite bool_decide_eq_false_2 in E by done. cbn [app] in *. rewrite <- app_assoc. exact E.
    + rewrite <- !app_assoc. change (u "0." ++ ?x) with ([48] ++ 46 :: x). rewrite (app_assoc (replicate _ _) ds rest).
      rewrite scan_decimal; [|by left|apply digits_app; split; [apply digits_zeros|done]|by rewrite Eds; intros E; apply app_nil in E as [_ ?]|done].
      rewrite app_assoc, parse_nat_app. replace (parse_nat ([48] ++ replicate (Z.to_nat (- k)) 48)) with 0
        by (symmetry; apply (parse_nat_zeros (S (Z.to_nat (- k))))).
      rewrite Z.mul_0_l, Z.add_0_l, length_app, length_replicate.
      replace (- Z.of_nat (Z.to_nat (- k) + length ds)) with (k - Z.of_nat (length ds)) by lia. by rewrite Hf.
    + rewrite <- !app_assoc. change (u "." ++ ?x) with (46 :: x).
      assert (Hdrop : drop (Z.to_nat k) ds <> []) by (intros E; apply (f_equal length) in E; rewrite length_drop in E; cbn in E; lia).
      rewrite scan_decimal; [|right; apply numeral_take; [done|lia]|by apply Forall_drop|done|done].
      rewrite take_drop, length_drop. replace (- Z.of_nat (length ds - Z.to_nat k)) with (k - Z.of_nat (length ds)) by lia. by rewrite Hf.
Qed.

Lemma canonical_float_reads f path t rest :
  binary64 f -> _canonical_float f path = Ok t -> stops rest -> scan_number (t ++ rest) = Ok (json_number f, rest).
Proof.
  intros Hb Hf Hr. destruct f as [s|s| |s m e]; [|done|done|].
  - injection Hf as <-. apply (scan_integer false [48] rest); [by left|unfold MAX_STR_DIGITS; cbn; lia|done].
  - destruct (canonical_float_text s m e path t Hb Hf) as (ds & k & Hp & He & Hk & ->). rewrite <- app_assoc.
    by apply plain_text_reads.
Qed.

Lemma int_str_reads z rest : is_safe_int z = true -> stops rest -> scan_number (int_str z ++ rest) = Ok (VInt z, rest).
Proof.
  intros Hz Hr. assert (Hlen : forall n, 0 < n <= MAX_SAFE_JSON_INTEGER -> (length (nat_str n) <= MAX_STR_DIGITS)%nat).
  { intros n Hn. destruct (nat_str_numeral n) as [Hnum Hp]; [lia|]. pose proof (numeral_bound _ Hnum) as [Hb _]. rewrite Hp in Hb.
    assert (Z.of_nat (length (nat_str n)) - 1 < 16); [|unfold MAX_STR_DIGITS; lia].
    apply (Z.pow_lt_mono_r_iff 10); [lia|lia|]. unfold MAX_SAFE_JSON_INTEGER in Hn. lia. }
  unfold is_safe_int in Hz. unfold int_str. destruct (Z.ltb_spec z 0) as [Hneg|Hpos].
  - destruct (nat_str_numeral (- z)) as [Hn Hp]; [lia|]. change (45 :: nat_str (- z)) with (sign_text true ++ nat_str (- z)).
    rewrite <- app_assoc, scan_integer; [|by right|apply Hlen; lia|done]. rewrite Hp. cbn [signed]. by rewrite Z.opp_involutive.
  - destruct (Z.eq_dec z 0) as [->|Hne].
    + apply (scan_integer false [48] rest); [by left|unfold MAX_STR_DIGITS; cbn; lia|done].
    + destruct (nat_str_numeral z) as [Hn Hp]; [lia|]. change (nat_str z ++ rest) with (sign_text false ++ nat_str z ++ rest).
      rewrite scan_integer; [|by right|apply Hlen; lia|done]. by rewrite Hp.
Qed.

(** An integral float has the text of its integer. *)
Lemma canonical_float_integer f path t z :
  binary64 f -> _canonical_float f path = Ok t -> json_number f = VInt z -> t = int_str z /\ is_safe_int z = true.
Proof.
  intros Hb Hf Hz. destruct f as [s|s| |s m e]; [|done|done|].
  - injection Hf as <-. injection Hz as <-. done.
  - destruct (canonical_float_text s m e path t Hb Hf) as (ds & k & Hp & He & Hk & ->).
    pose proof (integer_point _ _ _ _ Hb He Hp) as [Hint _]. rewrite (json_number_point s m e ds k Hb He Hp) in Hz.
    destruct (Z.leb_spec (Z.of_nat (length ds)) k) as [Hpt|]; [|done]. injection Hz as <-. specialize (Hint Hpt).
    pose proof (pa_tight _ _ _ _ Hp) as [Hn _]. pose proof Hn as [Hd (c & r & Eds & _)].
    assert (1 <= Z.of_nat (length ds)) by (rewrite Eds; cbn [length]; lia).
    unfold plain_text. rewrite (proj2 (Z.leb_gt k (-6))), (proj2 (Z.leb_gt k 0)), (proj2 (Z.leb_le _ k) Hpt) by lia.
    rewrite (numeral_nat_str _ (numeral_zeros ds (Z.to_nat (k - Z.of_nat (length ds))) Hn)), parse_nat_app, parse_nat_zeros, length_replicate, Z.add_0_r.
    replace (Z.of_nat (Z.to_nat (k - Z.of_nat (length ds)))) with (k - Z.of_nat (length ds)) by lia.
    set (v := parse_nat ds * 10 ^ (k - Z.of_nat (length ds))) in *.
    assert (Hv : 0 < v < 2 ^ 53).
    { unfold integer_value in Hint. replace (Z.max e 0) with 0 in Hint by lia. destruct Hb as (Hm & _). rewrite Z.pow_0_r, Z.mul_1_r in Hint.
      assert (1 <= 2 ^ Z.max (- e) 0) by (apply (Z.pow_le_mono_r 2 0); lia). nia. }
    unfold is_safe_int, MAX_SAFE_JSON_INTEGER. change (2 ^ 53) with 9007199254740992 in Hv.
    destruct s; cbn [signed sign_text app]; unfold int_str.
    + rewrite (proj2 (Z.ltb_lt (- v) 0)), Z.opp_involutive by lia. split; [done|lia].
    + rewrite (proj2 (Z.ltb_ge v 0)) by lia. split; [done|lia].
Qed.
