(* ===== verification/JsonRoundtrip.v ===== *)
(** * Canonical JSON and its decoder

    Reading the canonical bytes of a value gives its normal form: the same
    value with integral floats as integers, keys in canonical order, and new
    containers.  The normal form has the same canonical bytes, so two values
    with equal bytes have equal normal forms. *)

From stdpp Require Import base gmap sets list sorting strings.
From Stdlib Require Import ZArith Lia.
From Stdlib Require Import SpecFloat.
From S2P Require Import Prelude Text PyFloat CanonicalJson Hashing JsonLoads JsonNumbers JsonText.

(** ** The text, without contexts and errors *)

Definition key_text (k : dkey) : pystr := match k with KStr s => s | KOther r => r end.
Definition number_text (f : spec_float) : pystr := match _canonical_float f [] with Ok t => t | Raise _ => [] end.

Definition commas (l : list pystr) : pystr :=
  match l with [] => [] | x :: l' => x ++ flat_map (cons 44) l' end.

Definition entry_text (p : pystr * pystr) : pystr := _json_string p.1 ++ 58 :: p.2.

Fixpoint txt (v : pyval) : pystr :=
  match v with
  | VNone => u "null"
  | VBool b => if b then u "true" else u "false"
  | VStr s => _json_string s
  | VInt z => int_str z
  | VFloat f => number_text f
  | VList _ l => 91 :: commas (map txt l) ++ [93]
  | VDict _ l => 123 :: commas (map entry_text (sort_entries (map (fun kv => (key_text kv.1, txt kv.2)) l))) ++ [125]
  | _ => []
  end.

Lemma canonical_float_path f path t : _canonical_float f path = Ok t -> number_text f = t.
Proof.
  unfold number_text, _canonical_float. destruct (negb (float_isfinite f)); [done|]. destruct (float_gt_safe f); [done|].
  destruct (float_is_zero f); by intros [= <-].
Qed.

(** A printer that returns prints this text. *)
Definition prints_text (t : pystr) (p : printer) : Prop := forall c n t' n', p c n = Ok (t', n') -> t' = t.

Lemma print_items_text c oid i ps ts n t n' :
  0 <= i -> Forall2 prints_text ts ps -> print_items c oid i ps n = Ok (t, n') ->
  t = if i =? 0 then commas ts else flat_map (cons 44) ts.
Proof.
  intros Hi Hall. revert i n t n' Hi. induction Hall as [|x p ts ps Hp Hall IH]; intros i n t n' Hi E; cbn [print_items] in E.
  - injection E as <- _. by destruct (i =? 0).
  - apply bind_Ok in E as ([t1 n1] & E1 & E). apply bind_Ok in E as ([t2 n2] & E2 & [= <- _]).
    apply Hp in E1 as ->. apply IH in E2 as ->; [|lia]. rewrite (proj2 (Z.eqb_neq (i + 1) 0)) by lia.
    destruct (Z.eqb_spec i 0) as [->|Hne]; [done|]. rewrite (proj2 (Z.ltb_lt 0 i)) by lia. done.
Qed.

Lemma entry_text_app k x r : _json_string k ++ u ":" ++ x ++ r = entry_text (k, x) ++ r.
Proof. unfold entry_text. by rewrite <- app_assoc. Qed.

Lemma print_entries_text c oid i (ps : list (pystr * printer)) ts n t n' :
  0 <= i -> Forall2 (fun (kt : pystr * pystr) (kp : pystr * printer) => kt.1 = kp.1 /\ prints_text kt.2 kp.2) ts ps ->
  print_entries c oid i ps n = Ok (t, n') ->
  t = if i =? 0 then commas (map entry_text ts) else flat_map (cons 44) (map entry_text ts).
Proof.
  intros Hi Hall. revert i n t n' Hi. induction Hall as [|[k x] [k' p] ts ps [Hk Hp] Hall IH]; intros i n t n' Hi E; cbn [print_entries] in E.
  - injection E as <- _. by destruct (i =? 0).
  - cbn in Hk, Hp. subst k'. apply bind_Ok in E as ([t1 n1] & E1 & E). apply bind_Ok in E as ([t2 n2] & E2 & E).
    apply Hp in E1 as ->. apply IH in E2 as ->; [|lia]. rewrite (proj2 (Z.eqb_neq (i + 1) 0)), entry_text_app in E by lia.
    assert (E' : t = (if 0 <? i then u "," else []) ++ entry_text (k, x) ++ flat_map (cons 44) (map entry_text ts)) by congruence.
    rewrite E'. cbn [map commas flat_map]. destruct (Z.eqb_spec i 0) as [->|Hne]; [done|].
    by rewrite (proj2 (Z.ltb_lt 0 i)) by lia.
Qed.

Lemma string_entry_text {A} path (l : list (dkey * A)) es :
  mapR (string_entry path) l = Ok es -> es = map (fun kv => (key_text kv.1, kv.2)) l.
Proof.
  intros H%mapR_Ok. induction H as [|[[k|r] x] e l es He _ IH]; [done| |done]. cbn [map].
  unfold string_entry in He. apply bind_Ok in He as (? & _ & [= <-]). by rewrite IH.
Qed.

Lemma sorted_Forall2 {A B} (R : A -> B -> Prop) (la : list (pystr * A)) (lb : list (pystr * B)) :
  Forall2 (fun a b => a.1 = b.1 /\ R a.2 b.2) la lb ->
  Forall2 (fun a b => a.1 = b.1 /\ R a.2 b.2) (sort_entries la) (sort_entries lb).
Proof.
  unfold sort_entries. induction 1 as [|a b la lb [E Hab] _ IH]; [constructor|]. rewrite !isort_cons.
  revert IH. generalize (isort (fun a b : pystr * A => lex_leb a.1 b.1) la) (isort (fun a b : pystr * B => lex_leb a.1 b.1) lb).
  intros ma mb Hm. induction Hm as [|a' b' ma mb [E' Hab'] Hm IH]; cbn; [by repeat constructor|].
  rewrite E, E'. destruct (lex_leb b.1 b'.1); constructor; try done. by constructor.
Qed.

Lemma print_text limits v : prints_text (txt v) (print limits v).
Proof.
  induction v as [| |s|z|f|oid l IH|oid l IH| | | |] using pyval_ind'; intros c n0 t n' E; cbn [print txt] in *.
  all: apply bind_Ok in E as (n1 & _ & E).
  all: try (unfold print_scalar in E; apply bind_Ok in E as (t1 & E1 & [= <- _]); cbn [scalar_text] in E1; try done).
  - by injection E1 as <-.
  - by injection E1 as <-.
  - apply bind_Ok in E1 as (? & _ & [= <-]). done.
  - destruct (_ <? _); [done|]. by injection E1 as <-.
  - by rewrite (canonical_float_path _ _ _ E1).
  - apply bind_Ok in E as (? & _ & E). apply bind_Ok in E as (? & _ & E). apply bind_Ok in E as ([t2 n2] & E2 & [= <- _]).
    apply (print_items_text _ _ _ _ (map txt l)) in E2 as ->; [done|lia|]. clear -IH. induction IH; constructor; done.
  - apply bind_Ok in E as (? & _ & E). apply bind_Ok in E as (? & _ & E). apply bind_Ok in E as (es & Hes & E).
    apply bind_Ok in E as ([t2 n2] & E2 & [= <- _]). apply string_entry_text in Hes as ->.
    apply (print_entries_text _ _ _ _ (sort_entries (map (fun kv => (key_text kv.1, txt kv.2)) l))) in E2 as ->; [done|lia|].
    apply (sorted_Forall2 prints_text). clear -IH. induction IH as [|[k x] l Hx _ IHl]; constructor; [|done]. split; [done|]. exact Hx.
Qed.

Lemma canonical_json_txt limits v b : canonical_json limits v = Ok b -> b = flat_map utf8_char (txt v).
Proof.
  rewrite canonical_json_Ok. unfold json_text. intros (t & ([t' n] & E & ->)%fmap_Ok & ->). apply print_text in E. by rewrite E.
Qed.

(** ** Values the language can build, and their normal forms *)

(** Floats are binary64 and the keys of a dict distinct. *)
Fixpoint well_formed (v : pyval) : Prop :=
  match v with
  | VFloat f => binary64 f
  | VList _ l => foldr (fun x P => well_formed x /\ P) True l
  | VDict _ l => NoDup (map (fun kv => key_text kv.1) l) /\ foldr (fun kv P => well_formed kv.2 /\ P) True l
  | _ => True
  end.

Fixpoint norm (v : pyval) : pyval :=
  match v with
  | VFloat f => json_number f
  | VList _ l => VList 0 (map norm l)
  | VDict _ l => VDict 0 (map (fun p => (KStr p.1, p.2)) (sort_entries (map (fun kv => (key_text kv.1, norm kv.2)) l)))
  | _ => v
  end.

Lemma foldr_and_Forall {A} (P : A -> Prop) l : foldr (fun x Q => P x /\ Q) True l <-> Forall P l.
Proof. induction l as [|x l IH]; cbn; [by split|]. rewrite Forall_cons, IH. done. Qed.

(** ** Strings *)

Lemma hex_digit_value_digit n : 0 <= n < 16 -> hex_digit_value (hex_digit n) = Some n.
Proof.
  intros Hn. unfold hex_digit, hex_digit_value, is_digit. destruct (Z.ltb_spec n 10).
  - rewrite (proj2 (Z.leb_le 48 _)), (proj2 (Z.leb_le _ 57)) by lia. cbn [andb]. f_equal. lia.
  - rewrite (proj2 (Z.leb_gt (87 + n) 57)), andb_false_r by lia.
    rewrite (proj2 (Z.leb_le 97 _)), (proj2 (Z.leb_le _ 102)) by lia. cbn [andb]. f_equal. lia.
Qed.

Lemma unicode_escape_control c s : 0 <= c < 32 ->
  unicode_escape (48 :: 48 :: hex_digit (c / 16) :: hex_digit (c mod 16) :: s) = Some (c, s).
Proof.
  intros Hc. pose proof (Z.mod_pos_bound c 16 ltac:(lia)) as Hm. pose proof (Z.div_mod c 16 ltac:(lia)) as E.
  assert (Hd : 0 <= c / 16 < 16) by (split; [apply Z.div_pos; lia|apply Z.div_lt_upper_bound; lia]).
  unfold unicode_escape, hex4. change (hex_digit_value 48) with (Some 0). cbn [mbind option_bind].
  rewrite !hex_digit_value_digit by done. cbn [mbind option_bind].
  replace ((((0 * 16 + 0) * 16 + c / 16) * 16) + c mod 16) with c by lia.
  rewrite (proj2 (Z.leb_gt 0xD800 c)) by lia. done.
Qed.

Lemma scan_string_escape f c s :
  0 <= c -> scan_string (S f) (json_escape c ++ s) = '(t, rest) ← scan_string f s; Ok (c :: t, rest).
Proof.
  intros Hc. unfold json_escape.
  repeat match goal with |- context [if c =? ?k then _ else _] => destruct (Z.eqb_spec c k) as [->|?]; [done|] end.
  destruct (Z.ltb_spec c 32) as [Hlt|Hge].
  - change (u "\u00" ++ ?x) with (92 :: 117 :: 48 :: 48 :: x). cbn [app scan_string Z.eqb Pos.eqb].
    rewrite unicode_escape_control by lia. done.
  - cbn [app scan_string]. rewrite (proj2 (Z.eqb_neq c 34)), (proj2 (Z.eqb_neq c 92)), (proj2 (Z.ltb_ge c 32)) by done. done.
Qed.

Lemma scan_string_reads fuel s rest :
  Forall (fun c => 0 <= c) s -> (length s < fuel)%nat ->
  scan_string fuel (flat_map json_escape s ++ 34 :: rest) = Ok (s, rest).
Proof.
  intros Hs. revert fuel. induction Hs as [|c s Hc _ IH]; intros fuel Hf; (destruct fuel as [|f]; [cbn in Hf; lia|]); [done|].
  cbn [flat_map]. rewrite <- app_assoc, scan_string_escape by done. rewrite IH by (cbn in Hf; lia). done.
Qed.

Lemma scalar_nonneg s : is_unicode_scalar_string s = true -> Forall (fun c => 0 <= c) s.
Proof.
  unfold is_unicode_scalar_string. rewrite forallb_elem. intros H. apply Forall_forall. intros c Hc%H. apply is_scalar_bounds in Hc. lia.
Qed.

Lemma json_escape_nonempty c : json_escape c <> [].
Proof. unfold json_escape. by repeat case_match. Qed.

Lemma flat_map_escape_length s : (length s <= length (flat_map json_escape s))%nat.
Proof.
  induction s as [|c s IH]; [done|]. cbn. rewrite length_app. pose proof (json_escape_nonempty c).
  destruct (json_escape c); [done|]. cbn. lia.
Qed.

Lemma json_string_reads s rest :
  is_unicode_scalar_string s = true ->
  exists r, _json_string s ++ rest = 34 :: r /\ scan_string (S (length r)) r = Ok (s, rest).
Proof.
  intros Hs. exists (flat_map json_escape s ++ 34 :: rest). split.
  - unfold _json_string. by rewrite <- !app_assoc.
  - apply scan_string_reads; [by apply scalar_nonneg|]. rewrite length_app. pose proof (flat_map_escape_length s). lia.
Qed.

(** ** Values *)

(** The first character of the text of a value: not a space, not a closing
    bracket. *)
Definition opens (s : pystr) : Prop :=
  match s with c :: _ => is_json_space c = false /\ c <> 93 /\ c <> 125 | [] => False end.

Definition number_head (s : pystr) : Prop := exists neg c r, s = sign_text neg ++ c :: r /\ 48 <= c <= 57.

Lemma number_head_opens s : number_head s -> opens s.
Proof. intros (neg & c & r & -> & Hc). unfold opens, is_json_space. destruct neg; cbn; lia. Qed.

(** Hooks that leave what canonical text holds as it is. *)
Record hooks_admit (h : json_hooks) : Prop := {
  ha_pairs : forall l, NoDup l.*1 -> forallb is_unicode_scalar_string l.*1 = true -> object_pairs_hook h l = Ok (new_dict l);
  ha_float : forall f, float_isfinite f = true -> parse_float h (VFloat f) = Ok (VFloat f);
}.

Lemma no_hooks_admit : hooks_admit no_hooks.
Proof. by split. Qed.

Section scanning.
Context (h : json_hooks) (Hh : hooks_admit h).
Abbreviation scan_value := (JsonLoads.scan_value h).
Abbreviation hooked_number := (JsonLoads.hooked_number h).

Lemma scan_value_number f s : number_head s -> scan_value (S f) s = hooked_number s.
Proof.
  intros (neg & c & r & -> & Hc).
  assert (H : forall d, d ∈ [48;49;50;51;52;53;54;55;56;57] -> scan_value (S f) (sign_text neg ++ d :: r) = hooked_number (sign_text neg ++ d :: r)).
  { intros d. rewrite !elem_of_cons. intros Hd. destruct neg; repeat (destruct Hd as [->|Hd]; [done|]); by apply not_elem_of_nil in Hd. }
  apply H. rewrite !elem_of_cons. lia.
Qed.

Lemma int_part_head neg ints r : int_part ints -> number_head (sign_text neg ++ ints ++ r).
Proof.
  intros [Hd Hne]%int_part_digits. destruct ints as [|c ints]; [done|]. apply Forall_cons in Hd as [Hc _].
  by exists neg, c, (ints ++ r).
Qed.

Lemma plain_text_head neg ds k r : tight ds -> number_head (sign_text neg ++ plain_text ds k ++ r).
Proof.
  intros Ht. pose proof Ht as [[Hd (c & s & Eds & Hc)] _]. assert (Hc' : 48 <= c <= 57) by (rewrite Eds in Hd; by apply Forall_cons in Hd as [? _]).
  assert (E : exists c' r', plain_text ds k ++ r = c' :: r' /\ 48 <= c' <= 57); [|destruct E as (c' & r' & -> & H); by exists neg, c', r'].
  unfold plain_text. rewrite Eds. destruct (k <=? -6) eqn:E1; [destruct s; by eexists _, _|].
  destruct (k <=? 0) eqn:E2; [exists 48; eexists; split; [reflexivity|lia]|].
  destruct (_ <=? k) eqn:E3; [by eexists _, _|]. destruct (Z.to_nat k) as [|n] eqn:En; [lia|]. by eexists _, _.
Qed.

Lemma number_text_reads f rest :
  binary64 f -> float_isfinite f && negb (float_gt_safe f) = true -> stops rest ->
  number_head (number_text f ++ rest) /\ scan_number (number_text f ++ rest) = Ok (json_number f, rest).
Proof.
  intros Hb Hj Hr. apply andb_true_iff' in Hj as [H1 H2%negb_true_iff].
  assert (E : _canonical_float f [] = Ok (number_text f)).
  { unfold number_text, _canonical_float. rewrite H1, H2. cbn [negb]. by destruct (float_is_zero f). }
  split; [|by apply (canonical_float_reads f [])]. destruct f as [s|s| |s m e]; [|done|done|].
  - apply (int_part_head false [48] rest). by left.
  - destruct (canonical_float_text s m e [] _ Hb E) as (ds & k & Hp & _ & _ & ->). rewrite <- app_assoc. apply plain_text_head, Hp.
Qed.

Lemma int_str_head z rest : number_head (int_str z ++ rest).
Proof.
  unfold int_str. destruct (Z.ltb_spec z 0).
  - apply (int_part_head true (nat_str (- z)) rest). right. by apply nat_str_numeral; lia.
  - destruct (Z.eq_dec z 0) as [->|]; [apply (int_part_head false [48] rest); by left|].
    apply (int_part_head false (nat_str z) rest). right. apply nat_str_numeral. lia.
Qed.

Lemma txt_opens v rest : jsonable v = true -> well_formed v -> stops rest -> opens (txt v ++ rest).
Proof.
  intros Hj Hw Hr. destruct v as [| [] |s|z|f|oid l|oid l| | | |]; try done.
  - apply number_head_opens, int_str_head.
  - apply number_head_opens. by apply number_text_reads.
Qed.

Lemma skip_space_opens s : opens s -> skip_space s = s.
Proof. destruct s as [|c s]; [done|]. intros (H & _). cbn. by rewrite H. Qed.

Lemma new_dict_distinct (l : list (pystr * pyval)) : NoDup l.*1 -> new_dict l = VDict 0 (map (fun p => (KStr p.1, p.2)) l).
Proof.
  intros Hn. unfold new_dict. do 2 f_equal.
  enough (H : forall acc, NoDup (acc ++ l).*1 -> foldl (fun l p => dict_set l p.1 p.2) acc l = acc ++ l) by (by apply (H [])).
  clear Hn. induction l as [|[k v] l IH]; intros acc Hn; cbn [foldl]; [by rewrite app_nil_r|].
  unfold dict_set. cbn [fst snd]. rewrite bool_decide_eq_false_2.
  - rewrite IH; [by rewrite <- app_assoc|by rewrite <- app_assoc].
  - rewrite fmap_app in Hn. apply NoDup_app in Hn as (_ & Hd & _). intros Hk. apply (Hd k Hk). cbn. set_solver.
Qed.

Lemma stops_cons c s : is_digit c = false -> c <> 46 -> c <> 101 -> c <> 69 -> stops (c :: s).
Proof. done. Qed.

Lemma stops_tail ts rest : stops (flat_map (cons 44) ts ++ 93 :: rest) /\ stops (flat_map (cons 44) ts ++ 125 :: rest).
Proof. destruct ts; cbn; done. Qed.

Section containers.
Context (scan : pystr -> res (pyval * pystr)).

(** The scanner reads this text as this value. *)
Definition scans (t : pystr) (v : pyval) : Prop :=
  forall rest, stops rest -> opens (t ++ rest) /\ scan (t ++ rest) = Ok (v, rest).

Lemma scan_items_reads fuel ts vs rest :
  Forall2 scans ts vs -> ts <> [] -> (length ts <= fuel)%nat ->
  scan_items scan fuel (commas ts ++ 93 :: rest) = Ok (vs, rest).
Proof.
  intros Hall. revert fuel. induction Hall as [|t v ts vs Ht Hall IH]; intros fuel Hne Hf; [done|].
  destruct fuel as [|f]; [cbn in Hf; lia|]. cbn [commas scan_items]. rewrite <- app_assoc.
  rewrite (proj2 (Ht _ (proj1 (stops_tail ts rest)))). cbn [mbind res_bind].
  inversion Hall as [|t2 v2 ts2 vs2 Ht2 Hall2]; subst; [done|]. cbn [flat_map app].
  change (skip_space (44 :: ?x)) with (44 :: x). cbn iota beta. rewrite <- app_assoc.
  rewrite skip_space_opens by (apply Ht2, stops_tail). rewrite app_assoc. change (t2 ++ flat_map (cons 44) ts2) with (commas (t2 :: ts2)).
  rewrite IH; [done|done|cbn in *; lia].
Qed.

Lemma scan_pairs_reads fuel (ts : list (pystr * pystr)) (vs : list (pystr * pyval)) rest :
  Forall2 (fun t v => t.1 = v.1 /\ is_unicode_scalar_string t.1 = true /\ scans t.2 v.2) ts vs -> ts <> [] -> (length ts <= fuel)%nat ->
  scan_pairs scan fuel (commas (map entry_text ts) ++ 125 :: rest) = Ok (vs, rest).
Proof.
  intros Hall. revert fuel. induction Hall as [|[k t] [k' v] ts vs (Hk & Hs & Ht) Hall IH]; intros fuel Hne Hf; [done|].
  cbn in Hk, Hs, Ht. subst k'. destruct fuel as [|f]; [cbn in Hf; lia|]. cbn [map commas]. unfold entry_text at 1. cbn [fst snd].
  rewrite <- !app_assoc. cbn [app].
  destruct (json_string_reads k (58 :: t ++ flat_map (cons 44) (map entry_text ts) ++ 125 :: rest) Hs) as (r & -> & Er).
  cbn [scan_pairs]. rewrite Er. cbn [mbind res_bind]. change (skip_space (58 :: ?x)) with (58 :: x). cbn iota beta.
  destruct (Ht _ (proj2 (stops_tail (map entry_text ts) rest))) as [Ho Hv]. rewrite skip_space_opens, Hv by done. cbn [mbind res_bind].
  inversion Hall as [|[k2 t2] [k2' v2] ts2 vs2 H2 Hall2]; subst; [done|]. cbn [map flat_map app].
  change (skip_space (44 :: ?x)) with (44 :: x). cbn iota beta. rewrite <- app_assoc.
  rewrite skip_space_opens by (unfold entry_text, _json_string; done). rewrite app_assoc.
  change (entry_text (k2, t2) ++ flat_map (cons 44) (map entry_text ts2)) with (commas (map entry_text ((k2, t2) :: ts2))).
  rewrite IH; [done|done|cbn in *; lia].
Qed.
End containers.

Lemma commas_length ts t : t ∈ ts -> (length t <= length (commas ts))%nat.
Proof.
  assert (H : forall ts : list pystr, t ∈ ts -> (length t <= length (flat_map (cons 44%Z) ts))%nat).
  { clear. induction ts as [|x ts IH]; [set_solver|]. intros [->|Ht]%elem_of_cons; cbn; rewrite length_app; [lia|]. specialize (IH Ht). lia. }
  destruct ts as [|x ts]; [set_solver|]. intros [->|Ht]%elem_of_cons; cbn; rewrite length_app; [lia|]. specialize (H ts Ht). lia.
Qed.

Lemma commas_count ts : (length ts <= S (length (commas ts)))%nat.
Proof.
  assert (H : forall ts : list pystr, (length ts <= length (flat_map (cons 44%Z) ts))%nat).
  { clear. induction ts as [|x ts IH]; [done|]. cbn. rewrite length_app. lia. }
  destruct ts as [|x ts]; cbn; [lia|]. rewrite length_app. specialize (H ts). lia.
Qed.

(** The entries of a dict, in canonical order. *)
Definition entries {A} (f : pyval -> A) (l : list (dkey * pyval)) : list (pystr * A) :=
  map (fun p => (p.1, f p.2)) (sort_entries (map (fun kv => (key_text kv.1, kv.2)) l)).

Lemma sorted_entries {A} (f : pyval -> A) (l : list (dkey * pyval)) :
  sort_entries (map (fun kv => (key_text kv.1, f kv.2)) l) = entries f l.
Proof.
  unfold entries. pose proof (sort_entries_map f (map (fun kv => (key_text kv.1, kv.2)) l)) as E. rewrite map_map in E.
  etrans; [etrans; [|exact E]|]; [done|]. apply map_ext. by intros [].
Qed.

Lemma entries_elem {A} (f : pyval -> A) l k a : (k, a) ∈ entries f l -> exists kv, kv ∈ l /\ key_text kv.1 = k /\ f kv.2 = a.
Proof.
  unfold entries. intros ([k' x] & [= -> ->] & Hin)%list_elem_of_fmap. unfold sort_entries in Hin. rewrite isort_perm in Hin.
  apply list_elem_of_fmap in Hin as (kv & [= -> ->] & Hin). by exists kv.
Qed.

Lemma entries_keys {A} (f : pyval -> A) l : (entries f l).*1 ≡ₚ map (fun kv => key_text kv.1) l.
Proof.
  unfold entries. change (map ?g ?x) with (g <$> x) at 1. rewrite <- list_fmap_compose. unfold sort_entries. rewrite isort_perm.
  change (map ?g l) with (g <$> l). by rewrite <- list_fmap_compose.
Qed.

(** Reading the text of a value gives its normal form. *)
Definition reads_as (v : pyval) : Prop :=
  forall fuel rest, stops rest -> (length (txt v) < fuel)%nat -> scan_value fuel (txt v ++ rest) = Ok (norm v, rest).

Definition loadable (v : pyval) : Prop := jsonable v = true /\ well_formed v.

Lemma items_scan f (l : list pyval) :
  Forall reads_as l -> Forall loadable l -> (forall x, x ∈ l -> (length (txt x) < f)%nat) ->
  Forall2 (scans (scan_value f)) (map txt l) (map norm l).
Proof.
  intros IH Hl Hlen. induction IH as [|x l Hx _ IHl]; [constructor|]. apply Forall_cons in Hl as [[Hj Hw] Hl].
  cbn [map]. constructor; [|apply IHl; [done|set_solver]].
  intros rest Hr. split; [by apply txt_opens|]. apply Hx; [done|apply Hlen; set_solver].
Qed.

Lemma array_open f s : opens s -> scan_value (S f) (91 :: s) = '(l, rest) ← scan_items (scan_value f) f s; Ok (VList 0 l, rest).
Proof.
  intros Hs. cbn [JsonLoads.scan_value]. rewrite skip_space_opens by done. destruct s as [|c s]; [done|]. destruct Hs as (_ & Hc & _).
  by repeat (case_match; try done).
Qed.

Lemma object_open f s : opens s -> scan_value (S f) (123 :: s) = '(l, rest) ← scan_pairs (scan_value f) f s; followed_by rest (object_pairs_hook h l).
Proof.
  intros Hs. cbn [JsonLoads.scan_value]. rewrite skip_space_opens by done. destruct s as [|c s]; [done|]. destruct Hs as (_ & _ & Hc).
  by repeat (case_match; try done).
Qed.

Lemma list_reads oid l : Forall reads_as l -> Forall loadable l -> reads_as (VList oid l).
Proof.
  intros IH Hl fuel rest Hr Hf. destruct fuel as [|f]; [lia|]. cbn [txt norm] in *. destruct l as [|v l]; [done|].
  rewrite length_cons, length_app in Hf. cbn [length] in Hf. cbn [app]. rewrite <- app_assoc. cbn [app]. rewrite array_open.
  - rewrite (scan_items_reads _ f (map txt (v :: l)) (map norm (v :: l))); [done| |done|].
    + apply items_scan; [done|done|]. intros x Hx. pose proof (commas_length (map txt (v :: l)) (txt x)) as Hc.
      specialize (Hc ltac:(by apply (list_elem_of_fmap_2 txt))). lia.
    + pose proof (commas_count (map txt (v :: l))). lia.
  - apply Forall_cons in Hl as [[Hj Hw] _]. cbn [map commas]. rewrite <- app_assoc. apply txt_opens; [done|done|apply stops_tail].
Qed.

Lemma entries_scan f (es : list (pystr * pyval)) :
  Forall (fun p => reads_as p.2) es -> Forall (fun p => is_unicode_scalar_string p.1 = true /\ loadable p.2) es ->
  (forall p, p ∈ es -> (length (txt p.2) < f)%nat) ->
  Forall2 (fun t v => t.1 = v.1 /\ is_unicode_scalar_string t.1 = true /\ scans (scan_value f) t.2 v.2)
    (map (fun p => (p.1, txt p.2)) es) (map (fun p => (p.1, norm p.2)) es).
Proof.
  intros IH Hl Hlen. induction IH as [|[k x] es Hx _ IHl]; [constructor|]. apply Forall_cons in Hl as [(Hk & Hj & Hw) Hl].
  cbn [map fst snd] in *. constructor; [|apply IHl; [done|set_solver]]. split; [done|]. split; [done|].
  intros rest Hr. split; [by apply txt_opens|]. apply Hx; [done|apply (Hlen (k, x)); set_solver].
Qed.

Lemma dict_reads oid l :
  Forall (fun kv => reads_as kv.2) l -> jsonable (VDict oid l) = true -> well_formed (VDict oid l) -> reads_as (VDict oid l).
Proof.
  intros IH Hj [Hn Hw] fuel rest Hr Hf. destruct fuel as [|f]; [lia|]. cbn [txt norm] in *.
  rewrite (sorted_entries txt) in *. rewrite (sorted_entries norm).
  rewrite length_cons, length_app in Hf. cbn [length] in Hf. cbn [app]. rewrite <- app_assoc. cbn [app].
  pose proof (entries_keys norm l) as Hkeys. unfold entries in *.
  assert (Hin : forall k x, (k, x) ∈ sort_entries (map (fun kv => (key_text kv.1, kv.2)) l) ->
            reads_as x /\ is_unicode_scalar_string k = true /\ loadable x).
  { intros k x. unfold sort_entries. rewrite isort_perm. intros ([key v] & [= -> ->] & Hin)%list_elem_of_fmap. cbn [fst snd].
    rewrite Forall_forall in IH. split; [by apply (IH (key, v))|]. cbn [jsonable] in Hj. rewrite forallb_elem in Hj.
    pose proof (Hj (key, v) Hin) as [Hk Hjv]%andb_true_iff'. split; [by destruct key|].
    split; [exact Hjv|]. apply (foldr_and_Forall (fun kv : dkey * pyval => well_formed kv.2)) in Hw. rewrite Forall_forall in Hw. by apply (Hw (key, v)). }
  revert Hin Hf Hkeys. generalize (sort_entries (map (fun kv => (key_text kv.1, kv.2)) l)). intros es Hin Hf Hkeys.
  destruct es as [|e es]; [cbn [JsonLoads.scan_value]; by rewrite (ha_pairs _ Hh [] NoDup_nil_2 eq_refl)|]. rewrite object_open by (unfold entry_text, _json_string; done).
  rewrite (scan_pairs_reads _ f (map (fun p => (p.1, txt p.2)) (e :: es)) (map (fun p => (p.1, norm p.2)) (e :: es))); [|..].
  - cbn [mbind res_bind]. rewrite (ha_pairs _ Hh); [cbn [mbind res_bind]; rewrite new_dict_distinct; [done|]| |].
    + rewrite Hkeys. exact Hn.
    + rewrite Hkeys. exact Hn.
    + apply forallb_elem. intros k Hk. apply list_elem_of_fmap in Hk as ([k2 y] & -> & Hk). apply list_elem_of_fmap in Hk as ([k3 x] & Ek & Hx). injection Ek as -> ->. by destruct (Hin k3 x Hx) as (_ & ? & _).
  - apply entries_scan; [apply Forall_forall; intros [k x] Hx; by destruct (Hin k x Hx)..|]. intros [k x] Hx.
    pose proof (commas_length (map entry_text (map (fun p => (p.1, txt p.2)) (e :: es))) (entry_text (k, txt x))) as Hc.
    specialize (Hc ltac:(rewrite map_map; by apply (list_elem_of_fmap_2 (fun p => entry_text (p.1, txt p.2)) _ (k, x)))).
    unfold entry_text at 1 in Hc. cbn [fst snd] in *. rewrite length_app in Hc. cbn [length] in Hc. lia.
  - done.
  - pose proof (commas_count (map entry_text (map (fun p => (p.1, txt p.2)) (e :: es)))) as Hc. rewrite length_map in Hc at 1. lia.
Qed.

Lemma txt_reads v : jsonable v = true -> well_formed v -> reads_as v.
Proof.
  induction v as [| |s|z|f|oid l IH|oid l IH| | | |] using pyval_ind'; intros Hj Hw; try done.
  - intros fuel rest _ Hf. by destruct fuel; [lia|].
  - intros fuel rest _ Hf. destruct fuel; [lia|]. by destruct b.
  - intros fuel rest _ Hf. destruct fuel; [lia|]. cbn [txt norm]. destruct (json_string_reads s rest Hj) as (r & -> & Er).
    cbn [JsonLoads.scan_value]. by rewrite Er.
  - intros fuel rest Hr Hf. destruct fuel; [lia|]. cbn [txt norm]. rewrite scan_value_number by apply int_str_head. unfold JsonLoads.hooked_number. by rewrite int_str_reads.
  - intros fuel rest Hr Hf. destruct fuel; [lia|]. cbn [txt norm]. destruct (number_text_reads f rest Hw Hj Hr) as [Hd Hs].
    rewrite scan_value_number by done. unfold JsonLoads.hooked_number. rewrite Hs. cbn [mbind res_bind]. cbn [jsonable] in Hj. apply andb_true_iff' in Hj as [Hf' _].
    destruct f as [z|z| |z m e]; [done|done|done|]. cbn [json_number]. destruct (float_is_integer _); [done|]. by rewrite (ha_float _ Hh).
  - cbn [jsonable well_formed] in Hj, Hw. rewrite forallb_elem in Hj. apply foldr_and_Forall in Hw. rewrite Forall_forall in IH, Hw.
    apply list_reads; apply Forall_forall; intros x Hx; [apply IH; auto|split; auto].
  - apply dict_reads; [|done|done]. cbn [jsonable well_formed] in Hj, Hw. destruct Hw as [_ Hw]. rewrite forallb_elem in Hj.
    apply (foldr_and_Forall (fun kv : dkey * pyval => well_formed kv.2)) in Hw. rewrite Forall_forall in IH, Hw |- *. intros kv Hkv.
    apply IH; [done| |by apply Hw]. apply Hj, andb_true_iff' in Hkv. apply Hkv.
Qed.

Lemma loads_hooked_txt v : loadable v -> loads_text_with h (txt v) = Ok (fresh 0 (norm v)).
Proof.
  intros [Hj Hw]. unfold loads_text_with. pose proof (txt_opens v [] Hj Hw I) as Ho. rewrite app_nil_r in Ho.
  rewrite skip_space_opens by done. pose proof (txt_reads v Hj Hw (S (length (txt v))) [] I ltac:(lia)) as E.
  rewrite app_nil_r in E. by rewrite E.
Qed.
End scanning.

(** ** Normal forms *)

Lemma sort_entries_idem {A} (l : list (pystr * A)) : sort_entries (sort_entries l) = sort_entries l.
Proof.
  unfold sort_entries. apply isort_id. apply isort_sorted.
  - intros x y. apply lex_leb_total.
  - intros x y z. apply lex_leb_trans.
Qed.

(** The entries of a normal dict are its entries in place. *)
Lemma entries_norm {A} (f : pyval -> A) l :
  entries f (map (fun p => (KStr p.1, p.2)) (entries norm l)) = entries (fun v => f (norm v)) l.
Proof.
  unfold entries at 1. rewrite map_map. cbn [fst snd key_text].
  replace (map (fun x : pystr * pyval => (x.1, x.2)) (entries norm l)) with (entries norm l)
    by (symmetry; etrans; [|apply map_id]; apply map_ext; by intros []).
  rewrite <- (sorted_entries norm), sort_entries_idem, (sorted_entries norm). unfold entries. by rewrite map_map.
Qed.

Lemma entries_ext {A} (f g : pyval -> A) l : (forall kv, kv ∈ l -> f kv.2 = g kv.2) -> entries f l = entries g l.
Proof.
  intros H. rewrite <- (sorted_entries f), <- (sorted_entries g). f_equal. apply map_ext_in. intros kv Hkv%list_elem_of_In. f_equal. by apply H.
Qed.

Lemma json_number_text f :
  binary64 f -> float_isfinite f && negb (float_gt_safe f) = true ->
  txt (json_number f) = number_text f /\ jsonable (json_number f) = true /\ well_formed (json_number f) /\ norm (json_number f) = json_number f.
Proof.
  intros Hb Hj. assert (E : _canonical_float f [] = Ok (number_text f)).
  { apply andb_true_iff' in Hj as [H1 H2%negb_true_iff]. unfold number_text, _canonical_float. rewrite H1, H2. cbn [negb]. by destruct (float_is_zero f). }
  destruct (json_number f) as [| | |z|g| | | | | |] eqn:Ej.
  all: try (destruct f as [| | |sg m e]; cbn [json_number] in Ej; try done; by destruct (float_is_integer (S754_finite sg m e))).
  - destruct (canonical_float_integer f [] _ z Hb E Ej) as [-> Hz]. done.
  - assert (g = f) as ->; [|done]. destruct f as [| | |s m e]; cbn [json_number] in Ej; [done|congruence|congruence|].
    destruct (float_is_integer (S754_finite s m e)); congruence.
Qed.

Lemma loadable_list oid l : loadable (VList oid l) <-> Forall loadable l.
Proof.
  unfold loadable. cbn [jsonable well_formed]. rewrite forallb_elem, foldr_and_Forall, !Forall_forall. naive_solver.
Qed.

Lemma loadable_dict oid l : loadable (VDict oid l) <->
  NoDup (map (fun kv => key_text kv.1) l) /\
  Forall (fun kv => (exists k, kv.1 = KStr k /\ is_unicode_scalar_string k = true) /\ loadable kv.2) l.
Proof.
  unfold loadable. cbn [jsonable well_formed]. rewrite forallb_elem, (foldr_and_Forall (fun kv : dkey * pyval => well_formed kv.2)), !Forall_forall.
  split.
  - intros (Hj & Hn & Hw). split; [done|]. intros [key v] Hkv. pose proof (Hj _ Hkv) as [Hk Hv]%andb_true_iff'. cbn [fst snd] in *.
    split; [by destruct key as [k|]; [exists k|]|]. split; [done|]. by apply (Hw (key, v)).
  - intros (Hn & H). split_and!; [|done|].
    + intros [key v] Hkv. destruct (H _ Hkv) as [(k & Ek & Hk) [Hj _]]. cbn [fst snd] in *. subst key. by rewrite Hk, Hj.
    + intros kv Hkv. by destruct (H _ Hkv) as [_ [_ Hw]].
Qed.

Lemma norm_facts v : loadable v -> txt (norm v) = txt v /\ norm (norm v) = norm v /\ loadable (norm v).
Proof.
  induction v as [| |s|z|f|oid l IH|oid l IH| | | |] using pyval_ind'; intros Hl; try done.
  - destruct Hl as [Hj Hw]. destruct (json_number_text f Hw Hj) as (H1 & H2 & H3 & H4). done.
  - apply loadable_list in Hl. rewrite Forall_forall in IH, Hl. cbn [norm txt]. rewrite !map_map. split_and!.
    + do 3 f_equal. apply map_ext_in. intros x Hx%list_elem_of_In. by apply IH; auto.
    + f_equal. apply map_ext_in. intros x Hx%list_elem_of_In. by apply IH; auto.
    + apply loadable_list, Forall_forall. intros x (y & -> & Hy)%list_elem_of_fmap. by apply IH; auto.
  - apply loadable_dict in Hl as [Hn Hl]. rewrite Forall_forall in IH, Hl. cbn [norm txt].
    rewrite !(sorted_entries txt), !(sorted_entries norm), !entries_norm. split_and!.
    + do 4 f_equal. apply entries_ext. intros kv Hkv. apply (IH kv Hkv). by apply Hl.
    + do 2 f_equal. apply entries_ext. intros kv Hkv. apply (IH kv Hkv). by apply Hl.
    + apply loadable_dict. rewrite map_map. cbn [fst key_text]. change (map ?g ?x) with (g <$> x) at 1. split.
      * change (NoDup (entries norm l).*1). by rewrite entries_keys.
      * apply Forall_forall. intros kv ([k v] & -> & Hin)%list_elem_of_fmap. apply entries_elem in Hin as (kv & Hkv & <- & <-). cbn [fst snd].
        destruct (Hl kv Hkv) as [(k & Ek & Hk) Hv]. rewrite Ek. split; [by exists k|]. by apply (IH kv Hkv).
Qed.

(** New containers change nothing of the text and of the normal form. *)
Lemma fresh_facts d v : txt (fresh d v) = txt v /\ norm (fresh d v) = norm v /\ (loadable v -> loadable (fresh d v)).
Proof.
  revert d. induction v as [| |s|z|f|oid l IH|oid l IH| | | |] using pyval_ind'; intros d; try done.
  - rewrite Forall_forall in IH. cbn [fresh txt norm]. rewrite !map_map. split_and!.
    + do 3 f_equal. apply map_ext_in. intros x Hx%list_elem_of_In. by apply IH.
    + f_equal. apply map_ext_in. intros x Hx%list_elem_of_In. by apply IH.
    + rewrite !loadable_list, !Forall_forall. intros Hl x (y & -> & Hy)%list_elem_of_fmap. apply IH; auto.
  - rewrite Forall_forall in IH. cbn [fresh txt norm].
    assert (E : forall A (f : pyval -> A), (forall kv, kv ∈ l -> f (fresh (d + 1) kv.2) = f kv.2) ->
              map (fun kv => (key_text kv.1, f kv.2)) (map (fun kv => (kv.1, fresh (d + 1) kv.2)) l) = map (fun kv => (key_text kv.1, f kv.2)) l).
    { intros A f Hf. rewrite map_map. apply map_ext_in. intros kv Hkv%list_elem_of_In. cbn [fst snd]. f_equal. by apply Hf. }
    split_and!.
    + rewrite E; [done|]. intros kv Hkv. by apply (IH kv Hkv).
    + rewrite E; [done|]. intros kv Hkv. by apply (IH kv Hkv).
    + rewrite !loadable_dict, map_map, !Forall_forall. cbn [fst]. intros [Hn Hl]. split; [done|].
      intros kv (kv' & -> & Hkv)%list_elem_of_fmap. destruct (Hl kv' Hkv) as [Hk Hv]. split; [done|]. by apply (IH kv' Hkv).
Qed.

(** ** What the writer accepts *)

Lemma print_items_all c oid i (ps : list printer) n r :
  print_items c oid i ps n = Ok r -> Forall (fun p => exists c n r, p c n = Ok r) ps.
Proof.
  revert i n r. induction ps as [|p ps IH]; intros i n r E; [constructor|]. cbn [print_items] in E.
  apply bind_Ok in E as ([t n1] & E1 & E). apply bind_Ok in E as ([ts n2] & E2 & _). constructor; eauto.
Qed.

Lemma print_entries_all c oid i (ps : list (pystr * printer)) n r :
  print_entries c oid i ps n = Ok r -> Forall (fun p => exists c n r, p.2 c n = Ok r) ps.
Proof.
  revert i n r. induction ps as [|[k p] ps IH]; intros i n r E; [constructor|]. cbn [print_entries] in E.
  apply bind_Ok in E as ([t n1] & E1 & E). apply bind_Ok in E as ([ts n2] & E2 & _). constructor; eauto.
Qed.

Lemma string_entry_Ok {A} path (l : list (dkey * A)) es :
  mapR (string_entry path) l = Ok es -> Forall (fun kv => exists k, kv.1 = KStr k /\ is_unicode_scalar_string k = true) l.
Proof.
  intros H%mapR_Ok. induction H as [|[[k|r] x] e l es He _ IH]; constructor; try done. exists k. split; [done|].
  unfold string_entry, _reject_surrogates in He. cbn in He. by destruct (is_unicode_scalar_string k).
Qed.

Lemma print_jsonable limits v c n r : print limits v c n = Ok r -> jsonable v = true.
Proof.
  revert c n r. induction v as [| |s|z|f|oid l IH|oid l IH| | | |] using pyval_ind'; intros c n0 r E; cbn [print jsonable] in *; try done.
  all: apply bind_Ok in E as (n1 & _ & E).
  all: try (lazymatch type of E with context [print_scalar] => idtac end;
            unfold print_scalar in E; apply bind_Ok in E as (t1 & E1 & _); cbn [scalar_text] in E1; try done).
  - apply bind_Ok in E1 as (? & E1 & _). unfold _reject_surrogates in E1. by destruct (is_unicode_scalar_string s).
  - destruct (Z.ltb_spec MAX_SAFE_JSON_INTEGER (Z.abs z)) as [|Hz]; [done|]. unfold is_safe_int. by apply Z.leb_le.
  - unfold _canonical_float in E1. destruct (float_isfinite f); [|done]. by destruct (float_gt_safe f).
  - apply bind_Ok in E as (_ & _ & E). apply bind_Ok in E as (_ & _ & E). apply bind_Ok in E as (r1 & E & _).
    apply print_items_all in E. rewrite Forall_map, Forall_forall in E. rewrite Forall_forall in IH. rewrite forallb_elem.
    intros x Hx. destruct (E x Hx) as (c' & n' & r' & Hp). by eapply IH.
  - apply bind_Ok in E as (_ & _ & E). apply bind_Ok in E as (_ & _ & E). apply bind_Ok in E as (es & Hes & E).
    apply bind_Ok in E as (r1 & E & _). apply print_entries_all in E. unfold sort_entries in E. rewrite isort_perm in E.
    pose proof (string_entry_Ok _ _ _ Hes) as Hk. apply string_entry_text in Hes as ->. rewrite map_map, Forall_map, Forall_forall in E.
    rewrite Forall_map, Forall_forall in Hk. rewrite Forall_forall in IH. rewrite forallb_elem. intros [key x] Hx.
    destruct (Hk _ Hx) as (k & Ek & Hk'). destruct (E _ Hx) as (c' & n' & r' & Hp). cbn [fst snd] in *. subst key.
    rewrite Hk'. by eapply (IH _ Hx).
Qed.

(** ** Bytes *)

Lemma is_continuation_low x : is_continuation (0x80 + x mod 64) = true.
Proof. pose proof (Z.mod_pos_bound x 64 ltac:(lia)). unfold is_continuation. lia. Qed.

Lemma utf8_decode_char c bytes : is_scalar c = true -> utf8_decode (utf8_char c ++ bytes) = (cons c) <$> utf8_decode bytes.
Proof.
  intros Hc%is_scalar_bounds. unfold utf8_char.
  pose proof (Z.div_mod c 64 ltac:(lia)) as E0. pose proof (Z.mod_pos_bound c 64 ltac:(lia)) as B0.
  pose proof (Z.div_mod (c / 64) 64 ltac:(lia)) as E1. pose proof (Z.mod_pos_bound (c / 64) 64 ltac:(lia)) as B1.
  pose proof (Z.div_mod (c / 4096) 64 ltac:(lia)) as E2. pose proof (Z.mod_pos_bound (c / 4096) 64 ltac:(lia)) as B2.
  assert (D1 : c / 64 / 64 = c / 4096) by (rewrite Z.div_div by lia; done).
  assert (D2 : c / 4096 / 64 = c / 262144) by (rewrite Z.div_div by lia; done). rewrite D1 in E1. rewrite D2 in E2.
  destruct (Z.leb_spec c 0x7F); [|destruct (Z.leb_spec c 0x7FF); [|destruct (Z.leb_spec c 0xFFFF)]]; cbn [app utf8_decode].
  - by rewrite (proj2 (Z.leb_le c 127)) by lia.
  - rewrite (proj2 (Z.leb_gt _ 127)), is_continuation_low by lia. cbn [negb].
    rewrite (proj2 (Z.leb_le 194 _)), (proj2 (Z.leb_le _ 223)) by lia. cbn [andb].
    replace ((192 + c / 64 - 192) * 64 + (128 + c mod 64 - 128)) with c by lia. done.
  - rewrite (proj2 (Z.leb_gt _ 127)), !is_continuation_low by lia. cbn [negb].
    rewrite (proj2 (Z.leb_gt _ 223)), andb_false_r by lia.
    rewrite (proj2 (Z.leb_le 224 _)), (proj2 (Z.leb_le _ 239)) by lia. cbn [andb]. cbv zeta.
    replace ((224 + c / 4096 - 224) * 4096 + (128 + (c / 64) mod 64 - 128) * 64 + (128 + c mod 64 - 128)) with c by lia.
    by rewrite (proj2 (Z.ltb_ge c 2048)) by lia.
  - rewrite (proj2 (Z.leb_gt _ 127)), !is_continuation_low by lia. cbn [negb].
    rewrite (proj2 (Z.leb_gt _ 223)), andb_false_r, (proj2 (Z.leb_gt _ 239)), andb_false_r by lia.
    rewrite (proj2 (Z.leb_le 240 _)), (proj2 (Z.leb_le _ 244)) by lia. cbn [andb]. cbv zeta.
    replace ((240 + c / 262144 - 240) * 262144 + (128 + (c / 4096) mod 64 - 128) * 4096 + (128 + (c / 64) mod 64 - 128) * 64 + (128 + c mod 64 - 128)) with c by lia.
    by rewrite (proj2 (Z.ltb_ge c 65536)), (proj2 (Z.ltb_ge 1114111 c)) by lia.
Qed.

(** [utf8_decode] inverts the encoding of scalar text. *)
Lemma utf8_decode_encode s : is_unicode_scalar_string s = true -> utf8_decode (flat_map utf8_char s) = Ok s.
Proof.
  unfold is_unicode_scalar_string. induction s as [|c s IH]; [done|]. cbn [forallb flat_map]. intros [Hc Hs]%andb_true_iff'.
  by rewrite utf8_decode_char, IH.
Qed.

(** ** Reading canonical bytes *)

Lemma canonical_json_facts limits v b :
  canonical_json limits v = Ok b -> jsonable v = true /\ b = flat_map utf8_char (txt v) /\ is_unicode_scalar_string (txt v) = true.
Proof.
  intros H. pose proof (canonical_json_txt _ _ _ H) as ->. apply canonical_json_Ok in H as (t & Ht & _).
  pose proof Ht as Hs. rewrite <- canonical_json_text_eq in Hs. apply canonical_json_text_scalar in Hs.
  unfold json_text in Ht. apply fmap_Ok in Ht as ([t' n] & Ht & ->). split; [by eapply print_jsonable|]. split; [done|].
  apply print_text in Ht as E. cbn in Hs. by rewrite <- E.
Qed.

Lemma loads_text_txt v : loadable v -> loads_text (txt v) = Ok (fresh 0 (norm v)).
Proof. apply loads_hooked_txt, no_hooks_admit. Qed.

(** A value with an identity of its own in each container is written. *)
Lemma fresh_written v : jsonable v = true -> canonical_json None (fresh 0 v) = Ok (flat_map utf8_char (txt v)).
Proof.
  intros Hv. pose proof (jsonable_prints v Hv 0 root_ctx 0 ltac:(simpl; set_solver)) as Hp.
  destruct (print None (fresh 0 v) root_ctx 0) as [[t n]|] eqn:E; [|done]. pose proof (print_text _ _ _ _ _ _ E) as ->.
  destruct (fresh_facts 0 v) as (Et & _ & _). rewrite Et in E. apply canonical_json_Ok. exists (txt v). split; [|done]. unfold json_text. by rewrite E.
Qed.

Lemma written_text_eq v w :
  loadable v -> loadable w -> flat_map utf8_char (txt v) = flat_map utf8_char (txt w) -> txt v = txt w.
Proof.
  assert (Hs : forall v, loadable v -> is_unicode_scalar_string (txt v) = true).
  { intros x [Jx _]. pose proof (fresh_written _ Jx) as (_ & _ & H)%canonical_json_facts. by rewrite (proj1 (fresh_facts 0 x)) in H. }
  intros Hv%Hs Hw%Hs E. apply (f_equal utf8_decode) in E. rewrite !utf8_decode_encode in E by done. congruence.
Qed.

Lemma text_norm_eq v w : loadable v -> loadable w -> txt v = txt w -> norm v = norm w.
Proof.
  intros [Jv Hv] [Jw Hw] Et. pose proof (txt_reads no_hooks no_hooks_admit v Jv Hv (S (length (txt v))) [] I ltac:(lia)) as Ev.
  pose proof (txt_reads no_hooks no_hooks_admit w Jw Hw (S (length (txt v))) [] I ltac:(rewrite Et; lia)) as Ew. rewrite <- Et, Ev in Ew. congruence.
Qed.

(** *** Size of normal forms *)

Lemma zmax_perm l l' : l ≡ₚ l' -> zmax l = zmax l'.
Proof. unfold zmax. induction 1; cbn; lia. Qed.

Lemma entries_perm {A} (f : pyval -> A) l : (entries f l).*2 ≡ₚ map (fun kv => f kv.2) l.
Proof.
  unfold entries, sort_entries. change (map ?g ?x) with (g <$> x). rewrite <- list_fmap_compose, isort_perm.
  change (map ?g ?x) with (g <$> x). by rewrite <- list_fmap_compose.
Qed.

Lemma norm_size v : json_nodes (norm v) = json_nodes v /\ json_depth (norm v) = json_depth v.
Proof.
  induction v as [| |s|z|f|oid l IH|oid l IH| | | |] using pyval_ind'; cbn [norm json_nodes json_depth]; try done.
  - destruct f; cbn; try done. by case_match.
  - rewrite !map_map. rewrite Forall_forall in IH.
    split; f_equal; [f_equal|]; apply map_ext_in; intros x Hx%list_elem_of_In; [|f_equal]; by apply IH.
  - rewrite (sorted_entries norm), !map_map. cbn [snd]. pose proof (entries_perm norm l) as Hp. split.
    + f_equal. change (map (fun x : pystr * pyval => json_nodes x.2) ?e) with ((json_nodes ∘ snd) <$> e).
      rewrite list_fmap_compose. rewrite (zsum_perm _ (json_nodes <$> map (fun kv => norm kv.2) l)) by (by rewrite Hp).
      f_equal. change (?g <$> ?x) with (map g x). rewrite map_map. apply map_ext_in. intros kv Hkv%list_elem_of_In.
      rewrite Forall_forall in IH. by apply (IH kv).
    + change (map (fun x : pystr * pyval => 1 + json_depth x.2) ?e) with (((fun x => 1 + json_depth x) ∘ snd) <$> e).
      rewrite list_fmap_compose. rewrite (zmax_perm _ ((fun x => 1 + json_depth x) <$> map (fun kv => norm kv.2) l)) by (by rewrite Hp).
      f_equal. change (?g <$> ?x) with (map g x). rewrite map_map. apply map_ext_in. intros kv Hkv%list_elem_of_In.
      rewrite Forall_forall in IH. f_equal. by apply (IH kv).
Qed.

Lemma fresh_size d v : json_nodes (fresh d v) = json_nodes v /\ json_depth (fresh d v) = json_depth v.
Proof.
  revert d. induction v as [| |s|z|f|oid l IH|oid l IH| | | |] using pyval_ind'; intros d; cbn [fresh json_nodes json_depth]; try done;
    rewrite !map_map; rewrite Forall_forall in IH;
    (split; f_equal; [f_equal|]; apply map_ext_in; intros x Hx%list_elem_of_In; cbn [snd]; [|f_equal]; by apply (IH x)).
Qed.

(** *** Reading what was written *)

Lemma written_reads limits v b :
  well_formed v -> canonical_json limits v = Ok b -> json_loads b = Ok (fresh 0 (norm v)) /\ loadable (fresh 0 (norm v)).
Proof.
  intros Hw (Hj & -> & Hs)%canonical_json_facts. split.
  - unfold json_loads. rewrite utf8_decode_encode by done. by apply loads_text_txt.
  - apply fresh_facts, norm_facts. by split.
Qed.

(** The normal form is written under the same limits, as the same bytes. *)
Lemma norm_written limits v b :
  well_formed v -> canonical_json limits v = Ok b -> canonical_json limits (fresh 0 (norm v)) = Ok b.
Proof.
  intros Hw H. pose proof H as (Hj & -> & _)%canonical_json_facts. destruct (norm_facts v (conj Hj Hw)) as (Et & _ & [Hn _]).
  assert (E : canonical_json None (fresh 0 (norm v)) = Ok (flat_map utf8_char (txt v))) by (rewrite <- Et; by apply fresh_written).
  destruct limits as [L|]; [|done]. revert H E. rewrite !canonical_json_Ok. setoid_rewrite json_text_limited.
  destruct (norm_size v) as [<- <-], (fresh_size 0 (norm v)) as [<- <-]. naive_solver.
Qed.

Lemma written_norm_eq limits limits' v w b :
  well_formed v -> well_formed w -> canonical_json limits v = Ok b -> canonical_json limits' w = Ok b -> norm v = norm w.
Proof.
  intros Hv Hw (Jv & -> & _)%canonical_json_facts (Jw & E & _)%canonical_json_facts. by apply text_norm_eq, written_text_eq.
Qed.

Lemma norm_idem v : loadable v -> norm (fresh 0 (norm v)) = norm v.
Proof. intros Hv. rewrite (proj1 (proj2 (fresh_facts 0 (norm v)))). by apply norm_facts. Qed.

(** ** Properties *)

(** C40: decoding the canonical bytes of a value gives its normal form in new
    containers, and the normal form has the same canonical bytes: nothing the
    hash of a value depends on is lost, and nothing else is in the bytes. *)
Theorem canonical_json_roundtrip limits v b :
  well_formed v -> canonical_json limits v = Ok b ->
  json_loads b = Ok (fresh 0 (norm v)) /\ canonical_json limits (fresh 0 (norm v)) = Ok b.
Proof. intros Hw Hb. split; [by eapply written_reads|by apply norm_written]. Qed.

Lemma canonical_json_roundtrip_witness :
  let v := VDict 7 [(KStr (u "b"), VList 8 [VFloat (S754_finite false 4503599627370496 (-53)); VNone]);
                    (KStr (u "a"), VFloat (S754_finite true 6755399441055744 (-49)))] in
  let b := quoted "{'a':-12,'b':[0.5,null]}" in
  let r := VDict 0 [(KStr (u "a"), VInt (-12)); (KStr (u "b"), VList 1 [VFloat (S754_finite false 4503599627370496 (-53)); VNone])] in
  canonical_json None v = Ok b /\ json_loads b = Ok r /\ canonical_json None r = Ok b.
Proof.
  intros v b r. assert (H : canonical_json None v = Ok b) by (vm_compute; reflexivity). split; [exact H|].
  replace r with (fresh 0 (norm v)) by (vm_compute; reflexivity). apply (canonical_json_roundtrip None v b); [|exact H].
  cbn. unfold canonical_pair. repeat split; try (vm_compute; congruence); [|left; vm_compute; congruence..].
  apply (bool_decide_unpack _). vm_compute. reflexivity.
Defined.

(** Two values are hashed over the same bytes exactly when their normal
    forms are the same: when they differ at most in object identities, in the
    insertion order of dict entries and in whether an integral number is an
    [int] or a [float]. *)
Theorem canonical_json_faithful limits limits' v w b b' :
  well_formed v -> well_formed w -> canonical_json limits v = Ok b -> canonical_json limits' w = Ok b' ->
  b = b' <-> norm v = norm w.
Proof.
  intros Hv Hw Ev Ew. split; [intros ->; by eapply (written_norm_eq limits limits')|]. intros E.
  apply (norm_written _ _ _ Hv) in Ev as (_ & -> & _)%canonical_json_facts.
  apply (norm_written _ _ _ Hw) in Ew as (_ & -> & _)%canonical_json_facts. by rewrite E.
Qed.

Lemma canonical_json_faithful_witness :
  let v := VDict 1 [(KStr (u "b"), VInt 2); (KStr (u "a"), VFloat (S754_zero true))] in
  let w := VDict 9 [(KStr (u "a"), VInt 0); (KStr (u "b"), VFloat (S754_finite false 4503599627370496 (-51)))] in
  v <> w /\ norm v = norm w /\ canonical_json None v = canonical_json None w.
Proof.
  intros v w. pose (b := quoted "{'a':0,'b':2}").
  assert (Hv : canonical_json None v = Ok b) by (vm_compute; reflexivity).
  assert (Hw : canonical_json None w = Ok b) by (vm_compute; reflexivity).
  split; [discriminate|]. split; [|by rewrite Hv, Hw]. apply (canonical_json_faithful None None v w b b); [| |exact Hv|exact Hw|done].
  - cbn. repeat split. apply (bool_decide_unpack _). vm_compute. reflexivity.
  - cbn. unfold canonical_pair. repeat split; try (vm_compute; congruence); [|left; vm_compute; congruence..].
    apply (bool_decide_unpack _). vm_compute. reflexivity.
Defined.
