(* ===== verification/Contract.v ===== *)
(** * The validation contract

    Models [validation_contract/depth.py], [model.py] and [catalog.py]: the
    depth order, sharding policies, execution profiles, executable witnesses,
    obligations, and the closed catalog.  A frozen dataclass is a record; its
    [__post_init__] is a [_check] that raises what the source raises.  Types the
    source tests at run time ([type(x) is int], exact tuples, admitted literals)
    are the types of the fields. *)

From stdpp Require Import base gmap sets list sorting strings.
From Stdlib Require Import ZArith Lia.
From Stdlib Require Import SpecFloat.
From S2P Require Import Prelude Text PyFloat CanonicalJson Hashing.

(** ** Depths *)

Inductive ValidationDepth := smoke | targeted | standard | full | exhaustive.

#[export] Instance ValidationDepth_eq_dec : EqDecision ValidationDepth.
Proof. solve_decision. Defined.

Definition VALIDATION_DEPTHS : list ValidationDepth := [smoke; targeted; standard; full; exhaustive].

Definition depth_str (d : ValidationDepth) : pystr :=
  match d with
  | smoke => u "smoke" | targeted => u "targeted" | standard => u "standard"
  | full => u "full" | exhaustive => u "exhaustive"
  end.

Definition validation_depth (value : pyval) (field_name : pystr) : res ValidationDepth :=
  let refused := ValueError (field_name ++ u " is not admitted") in
  match value with
  | VStr s => from_option refused (list_find (fun d => depth_str d = s) VALIDATION_DEPTHS ≫= fun p => Some p.2)
  | _ => Raise refused
  end.

(** [VALIDATION_DEPTHS.index(value)]. *)
Definition depth_rank (value : ValidationDepth) : Z :=
  match value with smoke => 0 | targeted => 1 | standard => 2 | full => 3 | exhaustive => 4 end.

Definition max_depth (left right : ValidationDepth) : ValidationDepth :=
  if depth_rank right <=? depth_rank left then left else right.

Lemma depth_rank_inj d e : depth_rank d = depth_rank e -> d = e.
Proof. by destruct d, e. Qed.

Lemma depth_rank_index d : VALIDATION_DEPTHS !! Z.to_nat (depth_rank d) = Some d.
Proof. by destruct d. Qed.

Lemma max_depth_l d e : depth_rank d <= depth_rank (max_depth d e).
Proof. unfold max_depth. case_match; bdec; lia. Qed.

Lemma max_depth_r d e : depth_rank e <= depth_rank (max_depth d e).
Proof. unfold max_depth. case_match; bdec; lia. Qed.

(** [max(depths, key=depth_rank)]; an empty iterable raises. *)
Definition max_of_depths (l : list ValidationDepth) : res ValidationDepth :=
  match l with
  | [] => Raise (ValueError (u "max() iterable argument is empty"))
  | d :: l' => Ok (foldl max_depth d l')
  end.

Lemma max_of_depths_spec l d :
  max_of_depths l = Ok d <-> d ∈ l /\ forall e, e ∈ l -> depth_rank e <= depth_rank d.
Proof.
  assert (forall l d0, foldl max_depth d0 l ∈ d0 :: l /\
    forall e, e ∈ d0 :: l -> depth_rank e <= depth_rank (foldl max_depth d0 l)) as Hfold.
  { clear. intros l. induction l as [|x l IH]; intros d0; simpl.
    - split; [set_solver|]. intros e ->%list_elem_of_singleton. done.
    - destruct (IH (max_depth d0 x)) as [H1 H2]. split.
      + apply elem_of_cons in H1 as [->|H1]; [|set_solver]. unfold max_depth. case_match; set_solver.
      + pose proof (max_depth_l d0 x). pose proof (max_depth_r d0 x).
        pose proof (H2 (max_depth d0 x) ltac:(set_solver)).
        intros e [->|[->|He]%elem_of_cons]%elem_of_cons; [lia|lia|]. apply H2. set_solver. }
  destruct l as [|d0 l]; simpl; [split; [done|set_solver]|]. destruct (Hfold l d0) as [H1 H2]. split.
  - intros [= <-]. done.
  - intros [Hd Hm]. f_equal. apply depth_rank_inj. pose proof (H2 d Hd). pose proof (Hm _ H1). lia.
Qed.

(** ** Numbers of the contract: an [int] or a [float] *)

Inductive num := NInt (z : Z) | NFloat (f : spec_float).

Definition num_float (n : num) : res spec_float :=
  match n with NInt z => py_float_of_int z | NFloat f => Ok f end.

(** [n == m] for numbers: an [int] and a [float] are compared exactly. *)
Definition float_equals_int (f : spec_float) (z : Z) : bool :=
  match f with
  | S754_zero _ => z =? 0
  | S754_finite s m e =>
      let v := if s then Z.neg m else Z.pos m in
      if e <? 0 then v =? z * 2 ^ (- e) else v * 2 ^ e =? z
  | _ => false
  end.

Definition num_eqb (n m : num) : bool :=
  match n, m with
  | NInt a, NInt b => a =? b
  | NFloat f, NFloat g => SFeqb f g
  | NInt a, NFloat f | NFloat f, NInt a => float_equals_int f a
  end.

(** [bool(n)]; a NaN is true. *)
Definition num_truthy (n : num) : bool :=
  match n with NInt z => negb (z =? 0) | NFloat f => negb (float_is_zero f) end.

Definition _bounded_number (value : num) (maximum : Z) : res bool :=
  number ← num_float value;
  Ok (float_isfinite number && SFleb (float_of_Z 0) number && SFleb number (float_of_Z maximum)).

(** ** Checks on strings *)

Definition non_empty (s : pystr) : bool := bool_decide (s <> []).

Definition _require_identifier (value : pystr) (field_name : pystr) : res unit :=
  raise_if (negb (is_identifier value)) (ValueError (field_name ++ u " must be a canonical identifier")).

Definition _require_canonical_strings (values : list pystr) (field_name : pystr) (allow_empty : bool) : res unit :=
  raise_if ((negb allow_empty && bool_decide (values = [])) || existsb (fun v => negb (non_empty v)) values)
    (ValueError (field_name ++ u " must contain non-empty strings")) ;;
  require_canonical values (ValueError (field_name ++ u " must be canonical")).

Definition _require_canonical_identifiers (values : list pystr) (field_name : pystr) (allow_empty : bool) : res unit :=
  mapR (fun v => _require_identifier v (field_name ++ u " item")) values ;;
  _require_canonical_strings values field_name allow_empty.

(** ** Sharding policies and execution profiles *)

Definition _MAX_PROFILE_SHARDS : Z := 256.
Definition MAX_SERVICE_PROFILE_IDS : nat := 16.

Record ShardingPolicy := {
  max_shards : Z;
  max_parallel : Z;
  max_items_per_shard : Z;
  setup_seconds_per_shard : num;
  cpu_weight : num;
  wall_weight : num;
  operator_weight : num;
}.

Definition require_number (value : num) (maximum : Z) (e : exn) : res unit :=
  ok ← _bounded_number value maximum; raise_if (negb ok) e.

Definition ShardingPolicy_check (p : ShardingPolicy) : res unit :=
  raise_if (negb ((1 <=? max_shards p) && (max_shards p <=? _MAX_PROFILE_SHARDS)))
    (ValueError (u "max_shards must be an integer in [1, 256]")) ;;
  raise_if (negb ((1 <=? max_parallel p) && (max_parallel p <=? max_shards p)))
    (ValueError (u "max_parallel must be an integer in [1, max_shards]")) ;;
  raise_if (negb ((1 <=? max_items_per_shard p) && (max_items_per_shard p <=? 10000)))
    (ValueError (u "max_items_per_shard must be an integer in [1, 10000]")) ;;
  require_number (setup_seconds_per_shard p) 3600
    (ValueError (u "setup_seconds_per_shard must be a finite number in [0, 3600]")) ;;
  require_number (cpu_weight p) 1000 (ValueError (u "cpu_weight must be a finite number in [0, 1000]")) ;;
  require_number (wall_weight p) 1000 (ValueError (u "wall_weight must be a finite number in [0, 1000]")) ;;
  require_number (operator_weight p) 1000 (ValueError (u "operator_weight must be a finite number in [0, 1000]")) ;;
  raise_if (negb (num_truthy (cpu_weight p) || num_truthy (wall_weight p) || num_truthy (operator_weight p)))
    (ValueError (u "at least one sharding objective weight must be positive")).

(** [p == q] of the dataclass. *)
Definition ShardingPolicy_eqb (p q : ShardingPolicy) : bool :=
  (max_shards p =? max_shards q) && (max_parallel p =? max_parallel q) &&
  (max_items_per_shard p =? max_items_per_shard q) &&
  num_eqb (setup_seconds_per_shard p) (setup_seconds_per_shard q) && num_eqb (cpu_weight p) (cpu_weight q) &&
  num_eqb (wall_weight p) (wall_weight q) && num_eqb (operator_weight p) (operator_weight q).

Definition ShardingPolicy_mapping (p : ShardingPolicy) : res pyval :=
  setup ← num_float (setup_seconds_per_shard p);
  cpu ← num_float (cpu_weight p);
  wall ← num_float (wall_weight p);
  oper ← num_float (operator_weight p);
  Ok (obj [("maxShards", VInt (max_shards p)); ("maxParallel", VInt (max_parallel p));
           ("maxItemsPerShard", VInt (max_items_per_shard p)); ("setupSecondsPerShard", VFloat setup);
           ("cpuWeight", VFloat cpu); ("wallWeight", VFloat wall); ("operatorWeight", VFloat oper)]%string).

Record ExecutionProfile := {
  profile_id : pystr;
  runner_profile_id : pystr;
  permission_profile_id : pystr;
  credential_profile_id : pystr;
  fixture_profile_id : pystr;
  service_profile_ids : list pystr;
  capacity_class_id : pystr;
  sharding_policy : ShardingPolicy;
}.

Definition ExecutionProfile_check (p : ExecutionProfile) : res unit :=
  _require_identifier (profile_id p) (u "profile_id") ;;
  _require_identifier (runner_profile_id p) (u "runner_profile_id") ;;
  _require_identifier (permission_profile_id p) (u "permission_profile_id") ;;
  _require_identifier (credential_profile_id p) (u "credential_profile_id") ;;
  _require_identifier (fixture_profile_id p) (u "fixture_profile_id") ;;
  _require_canonical_identifiers (service_profile_ids p) (u "service_profile_ids") true ;;
  raise_if (bool_decide (MAX_SERVICE_PROFILE_IDS < length (service_profile_ids p))%nat)
    (ValueError (u "service_profile_ids exceeds the admitted maximum")) ;;
  _require_identifier (capacity_class_id p) (u "capacity_class_id").

Definition ExecutionProfile_eqb (p q : ExecutionProfile) : bool :=
  bool_decide (profile_id p = profile_id q) && bool_decide (runner_profile_id p = runner_profile_id q) &&
  bool_decide (permission_profile_id p = permission_profile_id q) &&
  bool_decide (credential_profile_id p = credential_profile_id q) &&
  bool_decide (fixture_profile_id p = fixture_profile_id q) && bool_decide (service_profile_ids p = service_profile_ids q) &&
  bool_decide (capacity_class_id p = capacity_class_id q) && ShardingPolicy_eqb (sharding_policy p) (sharding_policy q).

Definition ExecutionProfile_mapping (p : ExecutionProfile) : res pyval :=
  sharding ← ShardingPolicy_mapping (sharding_policy p);
  Ok (obj [("profileId", VStr (profile_id p)); ("runnerProfileId", VStr (runner_profile_id p));
           ("permissionProfileId", VStr (permission_profile_id p));
           ("credentialProfileId", VStr (credential_profile_id p));
           ("fixtureProfileId", VStr (fixture_profile_id p));
           ("serviceProfileIds", str_list (service_profile_ids p));
           ("capacityClassId", VStr (capacity_class_id p)); ("shardingPolicy", sharding)]%string).

(** ** Witnesses and obligations *)

Record ExecutableWitness := {
  witness_id : pystr;
  execution_profile_id : pystr;
  supported_depths : list ValidationDepth;
}.

#[export] Instance ExecutableWitness_eq_dec : EqDecision ExecutableWitness.
Proof. solve_decision. Defined.

(** [tuple(sorted(set(depths), key=depth_rank))]: ranks are distinct, so the
    order of the set is irrelevant. *)
Definition sorted_depths (l : list ValidationDepth) : list ValidationDepth :=
  isort (fun d e => depth_rank d <=? depth_rank e) (remove_dups l).

Definition ExecutableWitness_check (w : ExecutableWitness) : res unit :=
  _require_identifier (witness_id w) (u "witness_id") ;;
  _require_identifier (execution_profile_id w) (u "execution_profile_id") ;;
  raise_if (bool_decide (supported_depths w = [])) (ValueError (u "supported_depths must not be empty")) ;;
  raise_if (bool_decide (sorted_depths (supported_depths w) <> supported_depths w))
    (ValueError (u "supported_depths must be canonical")).

Definition ExecutableWitness_mapping (w : ExecutableWitness) : pyval :=
  obj [("witnessId", VStr (witness_id w)); ("executionProfileId", VStr (execution_profile_id w));
       ("supportedDepths", str_list (depth_str <$> supported_depths w))]%string.

Record ValidationObligation := {
  obligation_id : pystr;
  responsibility_paths : list pystr;
  responsibility_risk_classes : list pystr;
  required_witness_ids : list pystr;
  default_depth : ValidationDepth;
  full_depth : ValidationDepth;
  omit_allowed : bool;
}.

#[export] Instance ValidationObligation_eq_dec : EqDecision ValidationObligation.
Proof. solve_decision. Defined.

Definition ValidationObligation_check (o : ValidationObligation) : res unit :=
  _require_identifier (obligation_id o) (u "obligation_id") ;;
  _require_canonical_strings (responsibility_paths o) (u "responsibility_paths") true ;;
  _require_canonical_identifiers (responsibility_risk_classes o) (u "responsibility_risk_classes") true ;;
  _require_canonical_identifiers (required_witness_ids o) (u "required_witness_ids") false ;;
  raise_if (depth_rank (full_depth o) <? depth_rank (default_depth o))
    (ValueError (u "default_depth must not exceed full_depth")) ;;
  raise_if (omit_allowed o &&
            negb (bool_decide (responsibility_paths o <> []) || bool_decide (responsibility_risk_classes o <> [])))
    (ValueError (u "an omittable obligation must own a responsibility surface")).

Definition ValidationObligation_mapping (o : ValidationObligation) : pyval :=
  obj [("obligationId", VStr (obligation_id o));
       ("responsibility", obj [("paths", str_list (responsibility_paths o));
                               ("riskClasses", str_list (responsibility_risk_classes o))]);
       ("requiredWitnessIds", str_list (required_witness_ids o));
       ("defaultDepth", VStr (depth_str (default_depth o)));
       ("fullDepth", VStr (depth_str (full_depth o)));
       ("omitAllowed", VBool (omit_allowed o))]%string.

(** ** The catalog *)

Record ValidationCatalog := {
  obligations : list ValidationObligation;
  witnesses : list ExecutableWitness;
  execution_profiles : list ExecutionProfile;
  catalog_hash : pystr;
}.

(** [==] of catalogs; the hash is not compared. *)
Definition ValidationCatalog_eqb (c d : ValidationCatalog) : bool :=
  bool_decide (obligations c = obligations d) && bool_decide (witnesses c = witnesses d) &&
  list_eqb ExecutionProfile_eqb (execution_profiles c) (execution_profiles d).

Definition _require_canonical_objects {A} (values : list A) (identities : list pystr) (field_name : pystr) : res unit :=
  raise_if (bool_decide (length values = 0%nat)) (ValueError (field_name ++ u " must not be empty")) ;;
  require_canonical identities (ValueError (field_name ++ u " must be canonical")).

Definition str_set (l : list pystr) : gset pystr := list_to_set l.

Definition _require_closed_references (os : list ValidationObligation) (ws : list ExecutableWitness)
    (ps : list ExecutionProfile) : res unit :=
  let by_id := dict_by witness_id id ws in
  raise_if (bool_decide (str_set (flat_map required_witness_ids os) <> str_set (witness_id <$> ws)))
    (ValueError (u "every witness must be referenced by an obligation exactly by identity")) ;;
  raise_if (bool_decide (str_set (execution_profile_id <$> ws) <> str_set (profile_id <$> ps)))
    (ValueError (u "every execution profile must be referenced by a witness")) ;;
  mapR (fun o =>
    mapR (fun wid =>
      witness ← from_option KeyError (by_id !! wid);
      raise_if (negb (bool_decide (default_depth o ∈ supported_depths witness) &&
                      bool_decide (full_depth o ∈ supported_depths witness)))
        (ValueError (u "witness '" ++ wid ++ u "' does not support obligation depths")))
      (required_witness_ids o)) os ;;
  Ok tt.

Definition ValidationCatalog_mapping (os : list ValidationObligation) (ws : list ExecutableWitness)
    (ps : list ExecutionProfile) : res pyval :=
  profiles ← mapR ExecutionProfile_mapping ps;
  Ok (obj [("obligations", arr (ValidationObligation_mapping <$> os));
           ("witnesses", arr (ExecutableWitness_mapping <$> ws));
           ("executionProfiles", arr profiles)]%string).

Definition ValidationCatalog_new `{Sha256} (os : list ValidationObligation) (ws : list ExecutableWitness)
    (ps : list ExecutionProfile) : res ValidationCatalog :=
  _require_canonical_objects os (obligation_id <$> os) (u "obligations") ;;
  _require_canonical_objects ws (witness_id <$> ws) (u "witnesses") ;;
  _require_canonical_objects ps (profile_id <$> ps) (u "execution_profiles") ;;
  _require_closed_references os ws ps ;;
  mapping ← ValidationCatalog_mapping os ws ps;
  h ← hash_mapping mapping;
  Ok {| obligations := os; witnesses := ws; execution_profiles := ps; catalog_hash := h |}.

(** ** Invariants *)

Lemma require_canonical_strings_Ok values field_name allow_empty x :
  _require_canonical_strings values field_name allow_empty = Ok x ->
  canonical values /\ (forall s, s ∈ values -> s <> []) /\ (allow_empty = false -> values <> []).
Proof.
  unfold _require_canonical_strings. intros H. inv_res. apply require_canonical_Ok in H. bdec.
  match goal with E : existsb _ _ = false |- _ => rewrite existsb_false in E; rename E into Hne end.
  split_and!; [done| |].
  - intros s Hs%Hne. unfold non_empty in Hs. by bdec.
  - intros -> ->. simpl in *. done.
Qed.

Lemma require_canonical_identifiers_Ok values field_name allow_empty x :
  _require_canonical_identifiers values field_name allow_empty = Ok x ->
  canonical values /\ (forall s, s ∈ values -> is_identifier s = true) /\ (allow_empty = false -> values <> []).
Proof.
  unfold _require_canonical_identifiers. intros H. inv_res.
  apply require_canonical_strings_Ok in H as (Hc & _ & Hne). split_and!; [done| |done].
  intros s Hs. match goal with E : mapR _ _ = Ok _ |- _ => destruct (mapR_elem _ _ _ _ E Hs) as (y & Hy & _) end.
  unfold _require_identifier in Hy. inv_res. by bdec.
Qed.

(** What a constructed obligation satisfies. *)
Record obligation_ok (o : ValidationObligation) : Prop := {
  ob_id : is_identifier (obligation_id o) = true;
  ob_paths : canonical (responsibility_paths o);
  ob_risks : canonical (responsibility_risk_classes o);
  ob_witnesses : canonical (required_witness_ids o);
  ob_witness_id : forall s, s ∈ required_witness_ids o -> is_identifier s = true;
  ob_witnesses_nonempty : required_witness_ids o <> [];
  ob_depths : depth_rank (default_depth o) <= depth_rank (full_depth o);
  ob_surface : omit_allowed o = true -> responsibility_paths o <> [] \/ responsibility_risk_classes o <> [];
}.

Lemma ValidationObligation_check_ok o : ValidationObligation_check o = Ok tt -> obligation_ok o.
Proof.
  unfold ValidationObligation_check. intros H. inv_res. unfold _require_identifier in *. inv_res.
  repeat match goal with
  | H : _require_canonical_strings _ _ _ = Ok _ |- _ => apply require_canonical_strings_Ok in H as (? & ? & ?)
  | H : _require_canonical_identifiers _ _ _ = Ok _ |- _ =>
      apply require_canonical_identifiers_Ok in H as (? & ? & ?)
  end. bdec.
  split; eauto. intros Ho. rewrite Ho in H. simpl in H. bdec.
  destruct (bool_decide (responsibility_paths o <> [])) eqn:E1; [left; by bdec|].
  right. simpl in *. by bdec.
Qed.

(** What a constructed catalog satisfies. *)
Record catalog_ok (c : ValidationCatalog) : Prop := {
  ca_obligations : Forall obligation_ok (obligations c);
  ca_obligation_ids : canonical (obligation_id <$> obligations c);
  ca_witness_ids : canonical (witness_id <$> witnesses c);
  ca_nonempty : obligations c <> [];
  ca_closed : forall wid, (exists o, o ∈ obligations c /\ wid ∈ required_witness_ids o) <->
                 wid ∈ witness_id <$> witnesses c;
  ca_depths : forall o wid w, o ∈ obligations c -> wid ∈ required_witness_ids o ->
    dict_by witness_id id (witnesses c) !! wid = Some w ->
    default_depth o ∈ supported_depths w /\ full_depth o ∈ supported_depths w;
  ca_hash : is_sha256_hex (catalog_hash c) = true;
}.

Lemma require_canonical_objects_Ok {A} (values : list A) ids f x :
  _require_canonical_objects values ids f = Ok x -> values <> [] /\ canonical ids.
Proof.
  unfold _require_canonical_objects. intros H. inv_res. apply require_canonical_Ok in H.
  split; [|done]. intros ->. by bdec.
Qed.

Lemma ValidationCatalog_new_ok `{Sha256} os ws ps c :
  ValidationCatalog_new os ws ps = Ok c ->
  Forall (fun o => ValidationObligation_check o = Ok tt) os -> catalog_ok c.
Proof.
  unfold ValidationCatalog_new. intros H0 Hos. inv_res.
  repeat match goal with
  | H : _require_canonical_objects _ _ _ = Ok _ |- _ => apply require_canonical_objects_Ok in H as [? ?]
  end.
  unfold _require_closed_references in *. inv_res. bdec.
  split; simpl; try done.
  - eapply Forall_impl; [exact Hos|]. apply ValidationObligation_check_ok.
  - intros wid.
    match goal with E : str_set (flat_map _ _) = str_set (witness_id <$> _) |- _ => rename E into Hset end.
    transitivity (wid ∈ str_set (flat_map required_witness_ids os)).
    + unfold str_set. rewrite elem_of_list_to_set, list_elem_of_In, in_flat_map.
      by setoid_rewrite <-list_elem_of_In.
    + rewrite Hset. unfold str_set. by rewrite elem_of_list_to_set.
  - intros o wid w Ho Hwid Hw.
    match goal with E : mapR _ os = Ok _ |- _ => destruct (mapR_elem _ _ _ _ E Ho) as (y & Hy & _) end.
    destruct (mapR_elem _ _ _ _ Hy Hwid) as (z & Hz & _). rewrite Hw in Hz.
    simpl in Hz. inv_res. by bdec.
  - by eapply hash_mapping_hex.
Qed.
