(* ===== verification/RepoContext.v ===== *)
(** * Repository context

    Models [repo_context/diff_model.py], [diff_builder.py],
    [dependency_graph.py] and [planning_input.py]: the repository epoch, the
    normalisation of a provider diff, the admission of a dependency graph
    against it, and the planning input that joins them.  A Python set of reason
    strings is the list of the reasons added; it is only read through
    [sorted(..., key=utf16_sort_key)]. *)

From stdpp Require Import base gmap sets list sorting strings.
From Stdlib Require Import ZArith Lia.
From Stdlib Require Import SpecFloat.
From S2P Require Import Prelude Text PathPatterns PyFloat CanonicalJson Hashing.

Definition reason_if (b : bool) (r : string) : list pystr := if b then [u r] else [].

(** ** [diff_model.py] *)

Inductive event_kind := pull_request | push | merge_group.
Definition event_str (e : event_kind) : pystr :=
  match e with pull_request => u "pull_request" | push => u "push" | merge_group => u "merge_group" end.

Definition is_git_object_id (value : pystr) : bool :=
  bool_decide (40 <= length value <= 64)%nat && forallb is_lower_hex value.

Definition _require_git_object_id (value : pystr) (field_name : pystr) : res unit :=
  raise_if (negb (is_git_object_id value))
    (ValueError (field_name ++ u " must be 40..64 lowercase hexadecimal characters")).

Definition require_non_empty (value : pystr) (field_name : pystr) : res unit :=
  raise_if (bool_decide (value = [])) (ValueError (field_name ++ u " must be a non-empty string")).

Record RepositoryEpoch := {
  installation_id : Z;
  repository_id : Z;
  owner : pystr;
  name : pystr;
  event_name : event_kind;
  ref : pystr;
  re_base_sha : pystr;
  re_head_sha : pystr;
}.

Definition RepositoryEpoch_check (e : RepositoryEpoch) : res unit :=
  raise_if (installation_id e <? 1) (ValueError (u "installation_id must be a positive integer")) ;;
  raise_if (repository_id e <? 1) (ValueError (u "repository_id must be a positive integer")) ;;
  require_non_empty (owner e) (u "owner") ;;
  require_non_empty (name e) (u "name") ;;
  require_non_empty (ref e) (u "ref") ;;
  _require_git_object_id (re_base_sha e) (u "base_sha") ;;
  _require_git_object_id (re_head_sha e) (u "head_sha").

Definition RepositoryEpoch_mapping (e : RepositoryEpoch) : pyval :=
  obj [("installationId", VInt (installation_id e)); ("repositoryId", VInt (repository_id e));
       ("owner", VStr (owner e)); ("name", VStr (name e)); ("event", VStr (event_str (event_name e)));
       ("ref", VStr (ref e)); ("baseSha", VStr (re_base_sha e)); ("headSha", VStr (re_head_sha e))]%string.

(** The provider is the literal [github]. *)
Record DiffSource := {
  complete : bool;
  page_count : Z;
  file_count : Z;
  max_files : Z;
}.

Definition DiffSource_check (s : DiffSource) : res unit :=
  raise_if (page_count s <? 0) (ValueError (u "page_count must be an integer >= 0")) ;;
  raise_if (file_count s <? 0) (ValueError (u "file_count must be an integer >= 0")) ;;
  raise_if (max_files s <? 1) (ValueError (u "max_files must be an integer >= 1")).

Definition DiffSource_mapping (s : DiffSource) : pyval :=
  obj [("provider", VStr (u "github")); ("complete", VBool (complete s)); ("pageCount", VInt (page_count s));
       ("fileCount", VInt (file_count s)); ("maxFiles", VInt (max_files s))]%string.

Inductive FileChangeStatus := added | modified | removed | renamed | copied | changed | unknown.

#[export] Instance FileChangeStatus_eq_dec : EqDecision FileChangeStatus.
Proof. solve_decision. Defined.

Definition status_str (s : FileChangeStatus) : pystr :=
  match s with
  | added => u "added" | modified => u "modified" | removed => u "removed" | renamed => u "renamed"
  | copied => u "copied" | changed => u "changed" | unknown => u "unknown"
  end.

Record FileDelta := {
  path : pystr;
  status : FileChangeStatus;
  additions : Z;
  deletions : Z;
  previous_path : option pystr;
  patch_hash : option pystr;
}.

Definition FileDelta_check (f : FileDelta) : res unit :=
  require_non_empty (path f) (u "path") ;;
  raise_if (bool_decide (previous_path f = Some []))
    (ValueError (u "previous_path must be absent or a non-empty string")) ;;
  raise_if (additions f <? 0) (ValueError (u "additions must be a non-negative integer")) ;;
  raise_if (deletions f <? 0) (ValueError (u "deletions must be a non-negative integer")) ;;
  raise_if (match patch_hash f with Some h => negb (is_sha256_hex h) | None => false end)
    (ValueError (u "patch_hash must be lowercase SHA-256 hexadecimal")).

Definition FileDelta_mapping (f : FileDelta) : pyval :=
  obj [("path", VStr (path f)); ("previousPath", opt_str (previous_path f));
       ("status", VStr (status_str (status f))); ("additions", VInt (additions f));
       ("deletions", VInt (deletions f)); ("patchHash", opt_str (patch_hash f))]%string.

(** The two modules that build planning values share this check. *)
Definition _require_sorted_unique (values : list pystr) (field_name : pystr) : res unit :=
  raise_if (existsb (fun v => bool_decide (v = [])) values)
    (ValueError (field_name ++ u " must contain non-empty strings")) ;;
  require_canonical values
    (ValueError (field_name ++ u " must be sorted and unique by ECMAScript UTF-16 order")).

Record DiffContext := {
  base_sha : pystr;
  head_sha : pystr;
  files : list FileDelta;
  source : DiffSource;
  truncated : bool;
  diff_invalidating_reasons : list pystr;
  diff_hash : pystr;
}.

Definition DiffContext_check (d : DiffContext) : res unit :=
  _require_git_object_id (base_sha d) (u "base_sha") ;;
  _require_git_object_id (head_sha d) (u "head_sha") ;;
  _require_sorted_unique (diff_invalidating_reasons d) (u "invalidating_reasons") ;;
  raise_if (negb (is_sha256_hex (diff_hash d)))
    (ValueError (u "diff_hash must be lowercase SHA-256 hexadecimal")).

Definition diff_full_ci_invalidating (d : DiffContext) : bool :=
  bool_decide (diff_invalidating_reasons d <> []).

Definition changed_paths (d : DiffContext) : res (list pystr) :=
  sorted_unique ((path <$> files d) ++ omap previous_path (files d)).

Definition DiffContext_mapping (d : DiffContext) : pyval :=
  obj [("baseSha", VStr (base_sha d)); ("headSha", VStr (head_sha d)); ("truncated", VBool (truncated d));
       ("source", DiffSource_mapping (source d)); ("files", arr (FileDelta_mapping <$> files d))]%string.

(** ** [diff_builder.py] *)

Record DiffFileChangeInput := {
  i_path : pyval;
  i_status : pyval;
  i_additions : pyval;
  i_deletions : pyval;
  i_patch : pyval;
  i_previous_path : pyval;
}.

Record DiffBuildInput := {
  b_base_sha : pystr;
  b_head_sha : pystr;
  b_files : list DiffFileChangeInput;
  b_source : DiffSource;
}.

Definition _normalize_status (value : pyval) : FileChangeStatus :=
  match value with
  | VStr s =>
      match list_find (fun st => status_str st = s) [added; modified; removed; renamed; copied; changed] with
      | Some (_, st) => st
      | None => unknown
      end
  | _ => unknown
  end.

Definition _non_negative_integer (value : pyval) : Z :=
  match value with VInt z => if 0 <? z then z else 0 | _ => 0 end.

(** The value and the reasons added. *)
Definition unknown_path : pystr := u "__ci_coordinator_unknown_path__".
Definition unknown_previous_path : pystr := u "__ci_coordinator_unknown_previous_path__".

Definition _path_or_sentinel (value : pyval) (reason : string) : pystr * list pystr :=
  match value with
  | VStr s => if bool_decide (s <> []) then (s, []) else (unknown_path, [u reason])
  | _ => (unknown_path, [u reason])
  end.

Definition _optional_path (value : pyval) : option pystr * list pystr :=
  match value with
  | VNone => (None, [])
  | VStr s => if bool_decide (s = []) then (None, []) else (Some s, [])
  | _ => (Some unknown_previous_path, [u "invalid_previous_file_path"])
  end.

Definition _patch_or_none (value : pyval) : option pystr * list pystr :=
  match value with
  | VStr s => if bool_decide (s = []) then (None, [])
              else if negb (is_unicode_scalar_string s) then (None, [u "unsafe_patch"]) else (Some s, [])
  | _ => (None, [])
  end.

Definition _file_identity (f : FileDelta) : pystr * option pystr * FileChangeStatus :=
  (path f, previous_path f, status f).

(** The key of a file, and Python's order on such tuples. *)
Definition _file_sort_key (f : FileDelta) : res (list Z * list Z * list Z) :=
  a ← utf16_sort_key (path f);
  b ← utf16_sort_key (match previous_path f with Some p => p | None => [] end);
  c ← utf16_sort_key (status_str (status f));
  Ok (a, b, c).

Definition key3_leb (x y : list Z * list Z * list Z) : bool :=
  let '(a, b, c) := x in
  let '(a', b', c') := y in
  if bool_decide (a = a') then if bool_decide (b = b') then lex_leb c c' else lex_leb b b' else lex_leb a a'.

Definition sort_files (l : list FileDelta) : res (list FileDelta) :=
  ks ← mapR _file_sort_key l;
  Ok (snd <$> isort (fun p q => key3_leb p.1 q.1) (zip ks l)).

Definition _truncation_reasons (input : DiffBuildInput) (fs : list FileDelta) : list pystr :=
  let s := b_source input in
  let n := Z.of_nat (length (b_files input)) in
  reason_if (negb (complete s)) "diff_source_incomplete" ++
  reason_if (negb (n =? file_count s)) "diff_file_count_mismatch" ++
  reason_if ((max_files s <? file_count s) || (max_files s <? n)) "diff_file_limit_exceeded" ++
  reason_if (bool_decide (length (remove_dups (_file_identity <$> fs)) <> length fs)) "duplicate_file_identity".

(** ** [planning_input.py]: the policy snapshot *)

Inductive graph_source := configured | generated.

#[export] Instance graph_source_eq_dec : EqDecision graph_source.
Proof. solve_decision. Defined.

Definition graph_source_str (s : graph_source) : pystr :=
  match s with configured => u "configured" | generated => u "generated" end.

Definition require_sha256 (value : pystr) (field_name : pystr) : res unit :=
  raise_if (negb (is_sha256_hex value)) (ValueError (field_name ++ u " must be lowercase SHA-256 hexadecimal")).

Record PolicySnapshot := {
  epoch_id : pystr;
  ps_compiled_policy_hash : pystr;
  ps_policy_hash : pystr;
  dependency_graph_source : graph_source;
  ps_global_risk_paths : list pystr;
  ps_risk_classes : list pystr;
}.

Definition PolicySnapshot_check (p : PolicySnapshot) : res unit :=
  require_sha256 (epoch_id p) (u "epoch_id") ;;
  require_sha256 (ps_compiled_policy_hash p) (u "compiled_policy_hash") ;;
  require_sha256 (ps_policy_hash p) (u "policy_hash") ;;
  _require_sorted_unique (ps_risk_classes p) (u "risk_classes") ;;
  _require_sorted_unique (ps_global_risk_paths p) (u "global_risk_paths") ;;
  raise_if (existsb (fun g => bool_decide (validate_path_pattern g <> None)) (ps_global_risk_paths p))
    (ValueError (u "global_risk_paths contains an invalid pattern")).

(** ** [dependency_graph.py] *)

Record GraphProvenance := {
  gp_source : graph_source;
  schema_version : pystr;
  generator : pystr;
  retrieved_for_sha : pystr;
  trusted : bool;
  invalidates_when_changed : list pystr;
}.

Definition GraphProvenance_mapping (p : GraphProvenance) : pyval :=
  obj [("source", VStr (graph_source_str (gp_source p))); ("schemaVersion", VStr (schema_version p));
       ("generator", VStr (generator p)); ("retrievedForSha", VStr (retrieved_for_sha p));
       ("trusted", VBool (trusted p)); ("invalidatesWhenChanged", str_list (invalidates_when_changed p))]%string.

Record DependencyGraphNode := {
  node_path : pystr;
  dependents : list pystr;
  risk_classes : list pystr;
}.

#[export] Instance DependencyGraphNode_eq_dec : EqDecision DependencyGraphNode.
Proof. solve_decision. Defined.

Definition DependencyGraphNode_mapping (n : DependencyGraphNode) : pyval :=
  obj [("path", VStr (node_path n)); ("dependents", str_list (dependents n));
       ("riskClasses", str_list (risk_classes n))]%string.

Record DependencyGraphArtifact := {
  da_provenance : GraphProvenance;
  da_nodes : list DependencyGraphNode;
  da_global_risk_paths : list pystr;
}.

(** [unknown_path_mode] is the literal [full-ci]. *)
Record DependencyGraphContext := {
  graph_hash : pystr;
  provenance : GraphProvenance;
  admitted_repo_epoch_hash : pystr;
  admitted_diff_hash : pystr;
  admitted_config_epoch_id : pystr;
  admitted_policy_hash : pystr;
  admitted_compiled_policy_hash : pystr;
  graph_fresh : bool;
  nodes : list DependencyGraphNode;
  global_risk_paths : list pystr;
  graph_invalidating_reasons : list pystr;
}.

Definition _normalized_nodes (ns : list DependencyGraphNode) : res (list DependencyGraphNode) :=
  normalized ← mapR (fun n =>
    ds ← sorted_unique (dependents n);
    rs ← sorted_unique (risk_classes n);
    Ok {| node_path := node_path n; dependents := ds; risk_classes := rs |}) ns;
  sorted_by_id node_path normalized.

Definition _normalized_provenance (p : GraphProvenance) : res GraphProvenance :=
  inv ← sorted_unique (invalidates_when_changed p);
  Ok {| gp_source := gp_source p; schema_version := schema_version p; generator := generator p;
        retrieved_for_sha := retrieved_for_sha p; trusted := trusted p; invalidates_when_changed := inv |}.

(** [any(matches_path_pattern(pattern, path) for pattern in patterns for path in diff.changed_paths)]:
    the property is evaluated once a pattern is. *)
Definition any_changed_path_matches (patterns : list pystr) (d : DiffContext) : res bool :=
  if bool_decide (patterns = []) then Ok false
  else paths ← changed_paths d;
       Ok (existsb (fun pattern => existsb (matches_path_pattern pattern) paths) patterns).

Definition _freshness_reasons (repo_epoch : RepositoryEpoch) (d : DiffContext) (policy : PolicySnapshot)
    (p : GraphProvenance) (ns : list DependencyGraphNode) (artifact_global_risk_paths : list pystr)
    : res (list pystr) :=
  let coordinates :=
    reason_if (bool_decide (re_head_sha repo_epoch <> head_sha d)) "repo_epoch_diff_mismatch" ++
    reason_if (negb (trusted p)) "graph_provenance_untrusted" ++
    reason_if (strip_is_empty (schema_version p) || strip_is_empty (generator p)) "graph_provenance_incomplete" ++
    reason_if (bool_decide (retrieved_for_sha p <> head_sha d)) "graph_head_mismatch" ++
    reason_if (bool_decide (gp_source p <> dependency_graph_source policy)) "graph_source_mismatch" ++
    reason_if (bool_decide (artifact_global_risk_paths <> ps_global_risk_paths policy))
      "graph_global_risk_paths_mismatch" in
  invalidators ← sorted_unique (invalidates_when_changed p);
  diff_reasons ←
    (if existsb (fun g => bool_decide (validate_path_pattern g <> None)) invalidators
     then Ok [u "graph_invalidator_pattern_invalid"]
     else hit ← any_changed_path_matches invalidators d;
          Ok (reason_if hit "graph_invalidated_by_diff"));
  let node_paths := node_path <$> ns in
  let edges := flat_map dependents ns in
  Ok (coordinates ++ diff_reasons ++
    reason_if (bool_decide (length (remove_dups node_paths) <> length node_paths)) "duplicate_graph_node" ++
    reason_if (existsb (fun n => negb (is_safe_relative_path (node_path n))) ns) "unsafe_graph_node_path" ++
    reason_if (existsb (fun dep => negb (is_safe_relative_path dep)) edges) "unsafe_graph_edge" ++
    reason_if (existsb (fun dep => negb (bool_decide (dep ∈ node_paths))) edges) "dangling_graph_edge" ++
    reason_if (existsb (fun r => negb (bool_decide (r ∈ ps_risk_classes policy))) (flat_map risk_classes ns))
      "unknown_graph_risk_class" ++
    reason_if (existsb (fun g => bool_decide (validate_path_pattern g <> None)) artifact_global_risk_paths)
      "invalid_global_risk_path").

(** ** [planning_input.py]: the planning input *)

Record PlanningInput := {
  repo_epoch : RepositoryEpoch;
  diff : DiffContext;
  dependency_graph : DependencyGraphContext;
  policy : PolicySnapshot;
  input_hash : pystr;
  fallback_reasons : list pystr;
}.

Section builders.
Context `{Sha256}.

Definition _normalize_file_change (input : DiffFileChangeInput) : res (FileDelta * list pystr) :=
  let '(path0, r1) := _path_or_sentinel (i_path input) "missing_file_path" in
  let '(previous0, r2) := _optional_path (i_previous_path input) in
  let '(patch, r3) := _patch_or_none (i_patch input) in
  let status0 := _normalize_status (i_status input) in
  let path_safe := is_safe_relative_path path0 in
  let previous_path_safe := match previous0 with None => true | Some p => is_safe_relative_path p end in
  let rename_evidence_known := bool_decide (status0 <> renamed) || bool_decide (previous0 <> None) in
  let reasons := r1 ++ r2 ++ r3 ++
    reason_if (bool_decide (status0 = unknown)) "unknown_file_status" ++
    reason_if (negb path_safe) "unsafe_file_path" ++
    reason_if (negb previous_path_safe) "unsafe_previous_file_path" ++
    reason_if (negb rename_evidence_known) "incomplete_rename_evidence" in
  patch_hash ← match patch with
               | Some p => Some <$> hash_mapping (obj [("patch", VStr p)]%string)
               | None => Ok None
               end;
  let file := {| path := if path_safe then path0 else unknown_path;
                 previous_path := if previous_path_safe then previous0 else Some unknown_previous_path;
                 status := if bool_decide (reasons <> []) then unknown else status0;
                 additions := _non_negative_integer (i_additions input);
                 deletions := _non_negative_integer (i_deletions input);
                 patch_hash := patch_hash |} in
  FileDelta_check file ;;
  reasons ← sorted_unique reasons;
  Ok (file, reasons).

Definition build_diff_context (input : DiffBuildInput) : res DiffContext :=
  normalized ← mapR _normalize_file_change (b_files input);
  fs ← sort_files (fst <$> normalized);
  let truncation_reasons := _truncation_reasons input fs in
  reasons ← sorted_unique (truncation_reasons ++ flat_map snd normalized);
  let truncated := bool_decide (truncation_reasons <> []) in
  h ← hash_mapping (obj [("baseSha", VStr (b_base_sha input)); ("headSha", VStr (b_head_sha input));
          ("truncated", VBool truncated); ("source", DiffSource_mapping (b_source input));
          ("files", arr (FileDelta_mapping <$> fs))]%string);
  let d := {| base_sha := b_base_sha input; head_sha := b_head_sha input; files := fs;
              source := b_source input; truncated := truncated;
              diff_invalidating_reasons := reasons; diff_hash := h |} in
  DiffContext_check d ;; Ok d.

Definition _graph_context_hash (p : GraphProvenance) (repo_epoch_hash diff_hash config_epoch_id policy_hash
    compiled_policy_hash : pystr) (fresh : bool) (ns : list DependencyGraphNode)
    (risk_paths reasons : list pystr) : res pystr :=
  hash_mapping (obj [("provenance", GraphProvenance_mapping p);
    ("admittedRepoEpochHash", VStr repo_epoch_hash); ("admittedDiffHash", VStr diff_hash);
    ("admittedConfigEpochId", VStr config_epoch_id); ("admittedPolicyHash", VStr policy_hash);
    ("admittedCompiledPolicyHash", VStr compiled_policy_hash); ("fresh", VBool fresh);
    ("globalRiskPaths", str_list risk_paths); ("nodes", arr (DependencyGraphNode_mapping <$> ns));
    ("invalidatingReasons", str_list reasons); ("unknownPathMode", VStr (u "full-ci"))]%string).

Definition DependencyGraphContext_check (g : DependencyGraphContext) : res unit :=
  raise_if (negb (eqb (graph_fresh g) (bool_decide (graph_invalidating_reasons g = []))))
    (ValueError (u "graph freshness must agree with invalidating reasons")) ;;
  ns ← _normalized_nodes (nodes g);
  raise_if (bool_decide (nodes g <> ns)) (ValueError (u "graph nodes must be canonical")) ;;
  require_canonical (global_risk_paths g) (ValueError (u "graph global risk paths must be canonical")) ;;
  require_canonical (graph_invalidating_reasons g)
    (ValueError (u "graph invalidating reasons must be canonical")) ;;
  h ← _graph_context_hash (provenance g) (admitted_repo_epoch_hash g) (admitted_diff_hash g)
        (admitted_config_epoch_id g) (admitted_policy_hash g) (admitted_compiled_policy_hash g)
        (graph_fresh g) (nodes g) (global_risk_paths g) (graph_invalidating_reasons g);
  raise_if (bool_decide (graph_hash g <> h))
    (ValueError (u "graph hash does not seal graph context coordinates")).

Definition build_dependency_graph (repo_epoch : RepositoryEpoch) (d : DiffContext) (policy : PolicySnapshot)
    (artifact : DependencyGraphArtifact) : res DependencyGraphContext :=
  ns ← _normalized_nodes (da_nodes artifact);
  artifact_global_risk_paths ← sorted_unique (da_global_risk_paths artifact);
  let risk_paths := ps_global_risk_paths policy in
  p ← _normalized_provenance (da_provenance artifact);
  reasons ← _freshness_reasons repo_epoch d policy p ns artifact_global_risk_paths;
  let fresh := bool_decide (reasons = []) in
  invalidating ← sorted_unique reasons;
  epoch_hash ← hash_mapping (RepositoryEpoch_mapping repo_epoch);
  h ← _graph_context_hash p epoch_hash (diff_hash d) (epoch_id policy) (ps_policy_hash policy)
        (ps_compiled_policy_hash policy) fresh ns risk_paths invalidating;
  let g := {| graph_hash := h; provenance := p; admitted_repo_epoch_hash := epoch_hash;
              admitted_diff_hash := diff_hash d; admitted_config_epoch_id := epoch_id policy;
              admitted_policy_hash := ps_policy_hash policy;
              admitted_compiled_policy_hash := ps_compiled_policy_hash policy; graph_fresh := fresh;
              nodes := ns; global_risk_paths := risk_paths; graph_invalidating_reasons := invalidating |} in
  DependencyGraphContext_check g ;; Ok g.

Definition build_planning_input (re : RepositoryEpoch) (d : DiffContext) (g : DependencyGraphContext)
    (p : PolicySnapshot) : res PlanningInput :=
  repo_epoch_hash ← hash_mapping (RepositoryEpoch_mapping re);
  let reasons := diff_invalidating_reasons d ++ graph_invalidating_reasons g ++
    reason_if (bool_decide (re_base_sha re <> base_sha d) || bool_decide (re_head_sha re <> head_sha d))
      "repo_epoch_diff_mismatch" ++
    reason_if (bool_decide (admitted_repo_epoch_hash g <> repo_epoch_hash)) "graph_repo_epoch_mismatch" ++
    reason_if (bool_decide (admitted_diff_hash g <> diff_hash d)) "graph_diff_mismatch" ++
    reason_if (bool_decide (admitted_config_epoch_id g <> epoch_id p)) "graph_config_epoch_mismatch" ++
    reason_if (bool_decide (admitted_policy_hash g <> ps_policy_hash p)) "graph_policy_hash_mismatch" ++
    reason_if (bool_decide (admitted_compiled_policy_hash g <> ps_compiled_policy_hash p))
      "graph_compiled_policy_hash_mismatch" in
  h ← hash_mapping (obj [("repoEpoch", RepositoryEpoch_mapping re); ("configEpochId", VStr (epoch_id p));
        ("compiledPolicyHash", VStr (ps_compiled_policy_hash p)); ("diffHash", VStr (diff_hash d));
        ("policyHash", VStr (ps_policy_hash p)); ("dependencyGraphHash", VStr (graph_hash g))]%string);
  fallback ← sorted_unique reasons;
  Ok {| repo_epoch := re; diff := d; dependency_graph := g; policy := p; input_hash := h;
        fallback_reasons := fallback |}.
End builders.

(** ** What an input without reasons guarantees *)

Lemma reason_if_nil b r : reason_if b r = [] <-> b = false.
Proof. by destruct b. Qed.

Lemma sorted_unique_nil l : sorted_unique l = Ok [] <-> l = [].
Proof.
  split; [|by intros ->]. intros (_ & H & _)%sorted_unique_Ok.
  destruct l as [|x l]; [done|]. exfalso. specialize (H x). set_solver.
Qed.

Lemma sorted_unique_elem l r x : sorted_unique l = Ok r -> x ∈ r <-> x ∈ l.
Proof. intros (_ & H & _)%sorted_unique_Ok. apply H. Qed.

(** [no_reasons] reduces "no reason was added" to the negated conditions. *)
Ltac no_reasons :=
  repeat match goal with
  | H : _ ++ _ = [] |- _ => apply app_eq_nil in H as [? ?]
  | H : reason_if _ _ = [] |- _ => apply reason_if_nil in H
  end; bdec.

Lemma length_remove_dups_eq `{EqDecision A} (l : list A) :
  length (remove_dups l) = length l -> NoDup l.
Proof.
  induction l as [|x l IH]; intros H; [constructor|]. simpl in H.
  assert (length (remove_dups l) <= length l)%nat.
  { clear. induction l as [|y l IH]; simpl; [done|]. case_decide; simpl; lia. }
  case_decide as Hx; simpl in H; [lia|]. constructor; [done|]. apply IH. lia.
Qed.

(** A file of a trusted diff: admitted paths, a known status, evidence for a
    rename. *)
Record file_trusted (f : FileDelta) : Prop := {
  ft_path : is_safe_relative_path (path f) = true;
  ft_previous : forall p, previous_path f = Some p -> is_safe_relative_path p = true;
  ft_status : status f <> unknown;
  ft_rename : status f = renamed -> previous_path f <> None;
}.

(** The provider's change is reported by the file. *)
Definition file_reports (i : DiffFileChangeInput) (f : FileDelta) : Prop :=
  i_path i = VStr (path f) /\
  match previous_path f with
  | Some p => i_previous_path i = VStr p
  | None => i_previous_path i = VNone \/ i_previous_path i = VStr []
  end /\
  status f = _normalize_status (i_status i).

Lemma normalize_file_change_trusted `{Sha256} i f :
  _normalize_file_change i = Ok (f, []) -> file_trusted f /\ file_reports i f.
Proof.
  unfold _normalize_file_change. intros H0.
  destruct (_path_or_sentinel (i_path i) _) as [path0 r1] eqn:E1.
  destruct (_optional_path (i_previous_path i)) as [previous0 r2] eqn:E2.
  destruct (_patch_or_none (i_patch i)) as [patch r3]. inv_res.
  match goal with E : sorted_unique _ = Ok [] |- _ => apply sorted_unique_nil in E as Hr end.
  rewrite Hr. rewrite bool_decide_eq_false_2 by auto.
  repeat match goal with
  | E : FileDelta_check _ = _ |- _ => clear E
  | E : sorted_unique _ = _ |- _ => clear E
  end.
  no_reasons.
  repeat match goal with E : is_safe_relative_path _ = true |- _ => progress rewrite E end.
  unfold _path_or_sentinel in E1. destruct (i_path i) eqn:Ep; simplify_eq.
  destruct (bool_decide (s <> [])); simplify_eq. unfold _optional_path in E2.
  assert (forall p, previous0 = Some p -> i_previous_path i = VStr p) as Hprev.
  { intros p ->. destruct (i_previous_path i); simplify_eq. by destruct (bool_decide (s = [])); simplify_eq. }
  assert (previous0 = None -> i_previous_path i = VNone \/ i_previous_path i = VStr []) as Hnone.
  { intros ->. destruct (i_previous_path i); simplify_eq; [by left|].
    destruct (bool_decide (s = [])) eqn:Es; simplify_eq. bdec. by right. }
  split.
  - split; simpl; [done| |done|].
    + intros p Hp. destruct previous0 as [p0|]; [|by simplify_eq].
      destruct (is_safe_relative_path p0) eqn:Es; by simplify_eq.
    + intros Es Hn.
      match goal with E : bool_decide (_ <> renamed) || _ = true |- _ => rewrite Es in E; simpl in E; bdec end.
      destruct previous0 as [p0|]; [|done]. by destruct (is_safe_relative_path p0).
  - unfold file_reports. simpl. split_and!; [done| |done].
    destruct previous0 as [p0|]; [|by apply Hnone].
    destruct (is_safe_relative_path p0); [|done]. by apply Hprev.
Qed.

Lemma sort_files_perm l r : sort_files l = Ok r -> r ≡ₚ l.
Proof.
  unfold sort_files. intros H. inv_res. apply mapR_length in H0 as Hlen. rewrite isort_perm.
  by rewrite snd_zip by lia.
Qed.

(** An accepted diff is complete, counted, duplicate-free, and reports every
    change the provider sent under admitted paths. *)
Record diff_trusted (i : DiffBuildInput) (d : DiffContext) : Prop := {
  dt_complete : complete (b_source i) = true;
  dt_count : Z.of_nat (length (b_files i)) = file_count (b_source i);
  dt_limit : file_count (b_source i) <= max_files (b_source i);
  dt_truncated : truncated d = false;
  dt_unique : NoDup (_file_identity <$> files d);
  dt_files : forall f, f ∈ files d -> file_trusted f;
  dt_reports : forall c, c ∈ b_files i -> exists f, f ∈ files d /\ file_reports c f;
}.

Lemma build_diff_context_trusted `{Sha256} i d :
  build_diff_context i = Ok d -> diff_invalidating_reasons d = [] -> diff_trusted i d.
Proof.
  unfold build_diff_context. intros H0 Hr. inv_res. simpl in Hr. subst.
  repeat match goal with
  | E : DiffContext_check _ = _ |- _ => clear E
  | E : hash_mapping _ = _ |- _ => clear E
  end.
  match goal with E : sorted_unique _ = Ok [] |- _ => apply sorted_unique_nil, app_eq_nil in E as [Ht Hn] end.
  match goal with E : sort_files _ = Ok _ |- _ => apply sort_files_perm in E as Hp end.
  match goal with E : mapR _normalize_file_change _ = Ok _ |- _ => rename E into Hm end.
  assert (forall f rs, (f, rs) ∈ r -> rs = []) as Hrs.
  { intros f rs Hin. clear -Hn Hin. induction r as [|[f' rs'] r IH]; [set_solver|].
    simpl in Hn. apply app_eq_nil in Hn as [-> Hn]. apply elem_of_cons in Hin as [[= -> ->]|Hin]; [done|]. auto. }
  rewrite Ht. rewrite bool_decide_eq_false_2 by auto.
  unfold _truncation_reasons in Ht. no_reasons. simpl.
  match goal with E : length (remove_dups _) = _ |- _ => rewrite <-(length_fmap _file_identity) in E;
    apply length_remove_dups_eq in E as Hnd end.
  split; simpl; try done.
  - intros f Hf. rewrite Hp in Hf. apply list_elem_of_fmap in Hf as ([f' rs] & -> & Hin).
    destruct (mapR_elem_inv _ _ _ _ Hm Hin) as (c & Hc & _). rewrite (Hrs _ _ Hin) in Hc.
    by apply normalize_file_change_trusted in Hc as [? _].
  - intros c Hc. destruct (mapR_elem _ _ _ _ Hm Hc) as ([f rs] & Hf & Hin).
    rewrite (Hrs _ _ Hin) in Hf. apply normalize_file_change_trusted in Hf as [_ ?].
    exists f. split; [|done]. rewrite Hp. by apply (list_elem_of_fmap_2 fst _ (f, rs)).
Qed.

(** A fresh graph: its source, its head, a closed set of safe nodes, known risk
    classes, no invalidator touched by the diff. *)
Record graph_trusted (re : RepositoryEpoch) (d : DiffContext) (p : PolicySnapshot)
    (g : DependencyGraphContext) : Prop := {
  gt_head : re_head_sha re = head_sha d /\ retrieved_for_sha (provenance g) = head_sha d;
  gt_provenance : trusted (provenance g) = true /\ gp_source (provenance g) = dependency_graph_source p;
  gt_unique : NoDup (node_path <$> nodes g);
  gt_safe : forall n, n ∈ nodes g -> is_safe_relative_path (node_path n) = true;
  gt_closed : forall n dep, n ∈ nodes g -> dep ∈ dependents n -> dep ∈ node_path <$> nodes g;
  gt_risks : forall n r, n ∈ nodes g -> r ∈ risk_classes n -> r ∈ ps_risk_classes p;
  gt_global : global_risk_paths g = ps_global_risk_paths p;
  gt_invalidators : forall pattern paths pth,
    pattern ∈ invalidates_when_changed (provenance g) -> changed_paths d = Ok paths -> pth ∈ paths ->
    validate_path_pattern pattern = None /\ matches_path_pattern pattern pth = false;
}.

Lemma existsb_flat_map_false {A B} (f : A -> list B) (t : B -> bool) l x y :
  existsb t (flat_map f l) = false -> x ∈ l -> y ∈ f x -> t y = false.
Proof.
  rewrite existsb_false. intros H Hx Hy. apply H. apply list_elem_of_In, in_flat_map.
  exists x. by rewrite <-!list_elem_of_In.
Qed.

Lemma freshness_reasons_trusted re d p prov ns risk :
  _freshness_reasons re d p prov ns risk = Ok [] ->
  (re_head_sha re = head_sha d /\ retrieved_for_sha prov = head_sha d) /\
  (trusted prov = true /\ gp_source prov = dependency_graph_source p) /\
  NoDup (node_path <$> ns) /\
  (forall n, n ∈ ns -> is_safe_relative_path (node_path n) = true) /\
  (forall n dep, n ∈ ns -> dep ∈ dependents n -> dep ∈ node_path <$> ns) /\
  (forall n r, n ∈ ns -> r ∈ risk_classes n -> r ∈ ps_risk_classes p) /\
  (forall pattern paths pth, pattern ∈ invalidates_when_changed prov -> changed_paths d = Ok paths ->
     pth ∈ paths -> validate_path_pattern pattern = None /\ matches_path_pattern pattern pth = false).
Proof.
  unfold _freshness_reasons. intros H. inv_res.
  match goal with E : _ ++ _ = [] |- _ => rename E into Hr end. no_reasons.
  match goal with E : sorted_unique (invalidates_when_changed _) = Ok _ |- _ => rename E into Hinv end.
  split_and!; try done.
  - match goal with E : length (remove_dups _) = _ |- _ => by apply length_remove_dups_eq in E end.
  - intros n Hn. match goal with E : existsb (fun n => negb (is_safe_relative_path (node_path n))) _ = false |- _ =>
      rewrite existsb_false in E; specialize (E n Hn); by bdec end.
  - intros n dep Hn Hd. match goal with E : existsb (fun dep => negb (bool_decide (dep ∈ node_path <$> _))) _ = false |- _ =>
      pose proof (existsb_flat_map_false _ _ _ _ _ E Hn Hd) as Hx end. simpl in Hx. by bdec.
  - intros n rc Hn Hrc. match goal with E : existsb (fun r => negb (bool_decide (r ∈ ps_risk_classes p))) _ = false |- _ =>
      pose proof (existsb_flat_map_false _ _ _ _ _ E Hn Hrc) as Hx end. simpl in Hx. by bdec.
  - intros pattern paths pth Hp Hc Hpth. rewrite <-(sorted_unique_elem _ _ _ Hinv) in Hp.
    case_match eqn:Ev; [done|].
    rewrite existsb_false in Ev. specialize (Ev _ Hp). bdec. split; [done|].
    match goal with E : (any_changed_path_matches _ _ ≫= _) = _ |- _ =>
      apply bind_Ok in E as (hit & Ha & Hhit) end.
    injection Hhit as Hhit%reason_if_nil. unfold any_changed_path_matches in Ha.
    rewrite bool_decide_eq_false_2, Hc in Ha by (intros ->; by apply elem_of_nil in Hp). simpl in Ha. injection Ha as Ha.
    rewrite Hhit, existsb_false in Ha. specialize (Ha _ Hp). rewrite existsb_false in Ha. by apply Ha.
Qed.

Lemma build_dependency_graph_trusted `{Sha256} re d p a g :
  build_dependency_graph re d p a = Ok g -> graph_invalidating_reasons g = [] -> graph_trusted re d p g.
Proof.
  unfold build_dependency_graph. intros Hb Hr.
  apply bind_Ok in Hb as (ns & Hns & Hb). apply bind_Ok in Hb as (risk & Hrisk & Hb).
  apply bind_Ok in Hb as (prov & Hprov & Hb). apply bind_Ok in Hb as (reasons & Hreasons & Hb).
  apply bind_Ok in Hb as (inv & Hinv & Hb). apply bind_Ok in Hb as (eh & _ & Hb).
  apply bind_Ok in Hb as (h & _ & Hb). apply bind_Ok in Hb as ([] & _ & Hb). injection Hb as <-.
  simpl in Hr. subst inv. apply sorted_unique_nil in Hinv as ->.
  apply freshness_reasons_trusted in Hreasons as (? & ? & ? & ? & ? & ? & ?). by split.
Qed.

(** The coordinates a planning input without fallback reasons agrees on. *)
Record input_trusted (pi : PlanningInput) : Prop := {
  it_diff : diff_invalidating_reasons (diff pi) = [];
  it_graph : graph_invalidating_reasons (dependency_graph pi) = [];
  it_base : re_base_sha (repo_epoch pi) = base_sha (diff pi);
  it_head : re_head_sha (repo_epoch pi) = head_sha (diff pi);
  it_diff_hash : admitted_diff_hash (dependency_graph pi) = diff_hash (diff pi);
  it_epoch : admitted_config_epoch_id (dependency_graph pi) = epoch_id (policy pi);
  it_policy : admitted_policy_hash (dependency_graph pi) = ps_policy_hash (policy pi);
  it_compiled : admitted_compiled_policy_hash (dependency_graph pi) = ps_compiled_policy_hash (policy pi);
}.

Lemma build_planning_input_fields `{Sha256} re d g p pi :
  build_planning_input re d g p = Ok pi ->
  repo_epoch pi = re /\ diff pi = d /\ dependency_graph pi = g /\ policy pi = p.
Proof.
  unfold build_planning_input. intros Hb. apply bind_Ok in Hb as (eh & Heh & Hb).
  apply bind_Ok in Hb as (h & _ & Hb). apply bind_Ok in Hb as (fb & Hfb & Hb). by injection Hb as <-.
Qed.

Lemma build_planning_input_trusted `{Sha256} re d g p pi :
  build_planning_input re d g p = Ok pi ->
  fallback_reasons pi = [] <->
  input_trusted pi /\ hash_mapping (RepositoryEpoch_mapping re) = Ok (admitted_repo_epoch_hash g).
Proof.
  unfold build_planning_input. intros Hb. apply bind_Ok in Hb as (eh & Heh & Hb).
  apply bind_Ok in Hb as (h & _ & Hb). apply bind_Ok in Hb as (fb & Hfb & Hb). injection Hb as <-. simpl.
  split.
  - intros ->. apply sorted_unique_nil in Hfb. no_reasons. split; [by split|]. congruence.
  - intros [[H1 H2 H3 H4 H5 H6 H7 H8] H9]. simpl in *. rewrite H1, H2 in Hfb.
    repeat rewrite bool_decide_eq_false_2 in Hfb by (intros E; apply E; congruence). simpl in Hfb.
    by injection Hfb as <-.
Qed.

(** ** Properties *)

(** C11: a planning input that carries no fallback reason was built from a
    complete, counted and duplicate-free diff that reports every change under
    an admitted path, and from a trusted graph for the same head whose nodes
    are safe, distinct, closed under dependents and typed with known risk
    classes, with no invalidator touched by the diff. *)
Theorem planning_input_without_reasons_trusted `{Sha256} bi d re p a g pi :
  build_diff_context bi = Ok d ->
  build_dependency_graph re d p a = Ok g ->
  build_planning_input re d g p = Ok pi ->
  fallback_reasons pi = [] ->
  input_trusted pi /\ diff_trusted bi (diff pi) /\ graph_trusted re (diff pi) p (dependency_graph pi).
Proof.
  intros Hd Hg Hpi Hr. destruct (build_planning_input_fields _ _ _ _ _ Hpi) as (_ & E1 & E2 & _).
  apply (build_planning_input_trusted _ _ _ _ _ Hpi) in Hr as [Ht _]. split; [done|].
  pose proof (it_diff _ Ht) as H1. pose proof (it_graph _ Ht) as H2. rewrite E1 in *. rewrite E2 in *.
  split; [by apply build_diff_context_trusted|by eapply build_dependency_graph_trusted].
Qed.
