(* ===== verification/Planning.v ===== *)
(** * The deterministic planner

    Models [planning_core/model.py], [policy.py], [impact.py],
    [omission_proof.py] and [planner.py].  The planner walks the dependency
    graph from the changed paths, keeps an obligation unless a proof of no
    impact can be built, closes the selection to witnesses and seals the plan
    with a content identity. *)

From stdpp Require Import base gmap sets list sorting strings.
From Stdlib Require Import ZArith Lia.
From Stdlib Require Import SpecFloat.
From S2P Require Import Prelude Text PathPatterns PyFloat CanonicalJson Hashing Contract RepoContext.

(** ** [model.py] *)

Definition _require_non_empty_string (value : pystr) (field_name : pystr) : res unit :=
  raise_if (bool_decide (value = []) || negb (is_unicode_scalar_string value))
    (ValueError (field_name ++ u " must be a non-empty Unicode scalar string")).

Definition _require_sha256 (value : pystr) (field_name : pystr) : res unit := require_sha256 value field_name.

Definition _require_sorted_unique_strings (values : list pystr) (field_name : pystr) (require_non_empty : bool)
    : res unit :=
  raise_if (require_non_empty && bool_decide (values = [])) (ValueError (field_name ++ u " must not be empty")) ;;
  raise_if (existsb (fun v => bool_decide (v = []) || negb (is_unicode_scalar_string v)) values)
    (ValueError (field_name ++ u " must contain non-empty Unicode scalar strings")) ;;
  require_canonical values
    (ValueError (field_name ++ u " must be sorted and unique by ECMAScript UTF-16 order")).

Definition _require_ordered_ids (values : list pystr) (field_name : pystr) : res unit :=
  require_canonical values (ValueError (field_name ++ u " must be ordered and unique by identity")).

Record SelectedObligation := {
  so_obligation_id : pystr;
  so_depth : ValidationDepth;
  so_required_witness_ids : list pystr;
}.
#[export] Instance SelectedObligation_eq_dec : EqDecision SelectedObligation.
Proof. solve_decision. Defined.

Definition SelectedObligation_check (s : SelectedObligation) : res unit :=
  _require_non_empty_string (so_obligation_id s) (u "obligation_id") ;;
  _require_sorted_unique_strings (so_required_witness_ids s) (u "required_witness_ids") true.

Definition SelectedObligation_mapping (s : SelectedObligation) : pyval :=
  obj [("obligationId", VStr (so_obligation_id s)); ("depth", VStr (depth_str (so_depth s)));
       ("requiredWitnessIds", str_list (so_required_witness_ids s))]%string.

Record SelectedWitness := {
  sw_witness_id : pystr;
  sw_depth : ValidationDepth;
  required_by_obligation_ids : list pystr;
}.
#[export] Instance SelectedWitness_eq_dec : EqDecision SelectedWitness.
Proof. solve_decision. Defined.

Definition SelectedWitness_check (s : SelectedWitness) : res unit :=
  _require_non_empty_string (sw_witness_id s) (u "witness_id") ;;
  _require_sorted_unique_strings (required_by_obligation_ids s) (u "required_by_obligation_ids") true.

Definition SelectedWitness_mapping (s : SelectedWitness) : pyval :=
  obj [("witnessId", VStr (sw_witness_id s)); ("depth", VStr (depth_str (sw_depth s)));
       ("requiredByObligationIds", str_list (required_by_obligation_ids s))]%string.

Record OmissionPredicates := {
  known_diff : bool;
  predicate_graph_fresh : bool;
  surface_known : bool;
  no_impact_intersection : bool;
  no_global_risk_file : bool;
  omission_allowed_by_policy : bool;
}.
#[export] Instance OmissionPredicates_eq_dec : EqDecision OmissionPredicates.
Proof. solve_decision. Defined.

(** [OmissionPredicates()]. *)
Definition default_predicates : OmissionPredicates := Build_OmissionPredicates true true true true true true.

Definition OmissionPredicates_mapping (p : OmissionPredicates) : pyval :=
  obj [("knownDiff", VBool (known_diff p)); ("graphFresh", VBool (predicate_graph_fresh p));
       ("surfaceKnown", VBool (surface_known p)); ("noImpactIntersection", VBool (no_impact_intersection p));
       ("noGlobalRiskFile", VBool (no_global_risk_file p));
       ("omissionAllowedByPolicy", VBool (omission_allowed_by_policy p))]%string.

Record OmissionProof := {
  op_obligation_id : pystr;
  rule_id : pystr;
  op_repo_epoch_hash : pystr;
  op_diff_hash : pystr;
  op_policy_hash : pystr;
  op_graph_hash : pystr;
  op_catalog_hash : pystr;
  predicates : OmissionPredicates;
  assumptions : list pystr;
  invalidates_when : list pystr;
}.
#[export] Instance OmissionProof_eq_dec : EqDecision OmissionProof.
Proof. solve_decision. Defined.

Definition OmissionProof_check (p : OmissionProof) : res unit :=
  _require_non_empty_string (op_obligation_id p) (u "obligation_id") ;;
  _require_non_empty_string (rule_id p) (u "rule_id") ;;
  _require_sha256 (op_repo_epoch_hash p) (u "repo_epoch_hash") ;;
  _require_sha256 (op_diff_hash p) (u "diff_hash") ;;
  _require_sha256 (op_policy_hash p) (u "policy_hash") ;;
  _require_sha256 (op_graph_hash p) (u "graph_hash") ;;
  _require_sha256 (op_catalog_hash p) (u "catalog_hash") ;;
  _require_sorted_unique_strings (assumptions p) (u "assumptions") false ;;
  _require_sorted_unique_strings (invalidates_when p) (u "invalidates_when") false.

Definition OmissionProof_mapping (p : OmissionProof) : pyval :=
  obj [("obligationId", VStr (op_obligation_id p)); ("ruleId", VStr (rule_id p));
       ("repoEpochHash", VStr (op_repo_epoch_hash p)); ("diffHash", VStr (op_diff_hash p));
       ("policyHash", VStr (op_policy_hash p)); ("graphHash", VStr (op_graph_hash p));
       ("catalogHash", VStr (op_catalog_hash p)); ("predicates", OmissionPredicates_mapping (predicates p));
       ("assumptions", str_list (assumptions p)); ("invalidatesWhen", str_list (invalidates_when p))]%string.

Record OmittedObligation := {
  oo_obligation_id : pystr;
  oo_required_witness_ids : list pystr;
  oo_proof : OmissionProof;
}.
#[export] Instance OmittedObligation_eq_dec : EqDecision OmittedObligation.
Proof. solve_decision. Defined.

Definition OmittedObligation_check (o : OmittedObligation) : res unit :=
  raise_if (bool_decide (oo_obligation_id o <> op_obligation_id (oo_proof o)))
    (ValueError (u "omitted obligation id must match proof obligation id")) ;;
  _require_sorted_unique_strings (oo_required_witness_ids o) (u "required_witness_ids") true.

Definition OmittedObligation_mapping (o : OmittedObligation) : pyval :=
  obj [("obligationId", VStr (oo_obligation_id o)); ("requiredWitnessIds", str_list (oo_required_witness_ids o));
       ("proof", OmissionProof_mapping (oo_proof o))]%string.

Definition TRIGGERS : list pystr := [u "timeout"; u "invalid-plan"; u "stale-input"; u "verifier-error"].

Record PlanFallback := {
  timeout_seconds : Z;
  triggered : bool;
  fb_reason : option pystr;
  trigger_on : list pystr;
}.
#[export] Instance PlanFallback_eq_dec : EqDecision PlanFallback.
Proof. solve_decision. Defined.

Definition PlanFallback_check (f : PlanFallback) : res unit :=
  raise_if (negb ((1 <=? timeout_seconds f) && (timeout_seconds f <=? 3600)))
    (ValueError (u "timeout_seconds must be an integer in [1, 3600]")) ;;
  raise_if (negb (eqb (triggered f) (bool_decide (fb_reason f <> None))))
    (ValueError (u "fallback reason presence must equal triggered")) ;;
  match fb_reason f with
  | Some r => _require_non_empty_string r (u "reason")
  | None => Ok tt
  end ;;
  raise_if (bool_decide (trigger_on f <> TRIGGERS))
    (ValueError (u "trigger_on must preserve the planner fallback trigger inventory")).

Definition PlanFallback_mapping (f : PlanFallback) : pyval :=
  obj [("kind", VStr (u "full-ci")); ("timeoutSeconds", VInt (timeout_seconds f));
       ("triggerOn", str_list (trigger_on f)); ("triggered", VBool (triggered f));
       ("reason", opt_str (fb_reason f))]%string.

Inductive PlanEvidenceKind := KSelected | KOmitted | KFallback.
#[export] Instance PlanEvidenceKind_eq_dec : EqDecision PlanEvidenceKind.
Proof. solve_decision. Defined.
Definition kind_str (k : PlanEvidenceKind) : pystr :=
  match k with KSelected => u "selected" | KOmitted => u "omitted" | KFallback => u "fallback" end.

Record PlanEvidence := {
  kind : PlanEvidenceKind;
  ev_obligation_id : option pystr;
  message : pystr;
}.
#[export] Instance PlanEvidence_eq_dec : EqDecision PlanEvidence.
Proof. solve_decision. Defined.

Definition PlanEvidence_check (e : PlanEvidence) : res unit :=
  match ev_obligation_id e with
  | Some i => _require_non_empty_string i (u "obligation_id")
  | None => Ok tt
  end ;;
  _require_non_empty_string (message e) (u "message").

Definition PlanEvidence_mapping (e : PlanEvidence) : pyval :=
  obj [("kind", VStr (kind_str (kind e))); ("obligationId", opt_str (ev_obligation_id e));
       ("message", VStr (message e))]%string.

(** [validate_witness_closure]. *)
Definition required_by_witness (selected : list SelectedObligation) : gmap pystr (gset pystr) :=
  foldl (fun m s =>
    foldl (fun m wid => <[wid := {[so_obligation_id s]} ∪ default ∅ (m !! wid)]> m) m (so_required_witness_ids s))
    ∅ selected.

Definition validate_witness_closure (selected : list SelectedObligation) (ws : list SelectedWitness) : res unit :=
  let selected_ids := str_set (so_obligation_id <$> selected) in
  let selected_depths := dict_by so_obligation_id so_depth selected in
  let required := required_by_witness selected in
  raise_if (bool_decide (str_set (sw_witness_id <$> ws) <> dom required))
    (ValueError (u "selected witnesses must exactly close obligation requirements")) ;;
  mapR (fun w =>
    let required_by := str_set (required_by_obligation_ids w) in
    raise_if (negb (bool_decide (required_by ⊆ selected_ids)))
      (ValueError (u "witness coverage references an unselected obligation")) ;;
    expected ← from_option KeyError (required !! sw_witness_id w);
    raise_if (bool_decide (required_by <> expected))
      (ValueError (u "witness reverse edges must exactly match obligation requirements")) ;;
    depths ← mapR (fun i => from_option KeyError (selected_depths !! i)) (required_by_obligation_ids w);
    expected_depth ← max_of_depths depths;
    raise_if (bool_decide (sw_depth w <> expected_depth))
      (ValueError (u "witness depth must equal its strongest requiring obligation"))) ws ;;
  Ok tt.

Record DeterministicPlan := {
  plan_id : pystr;
  plan_schema_version : pystr;
  planner_version : pystr;
  config_epoch_id : pystr;
  repo_epoch_hash : pystr;
  plan_input_hash : pystr;
  plan_diff_hash : pystr;
  compiled_policy_hash : pystr;
  plan_policy_hash : pystr;
  dependency_graph_hash : pystr;
  plan_catalog_hash : pystr;
  selected_obligations : list SelectedObligation;
  selected_witnesses : list SelectedWitness;
  omitted_obligations : list OmittedObligation;
  fallback : PlanFallback;
  evidence : list PlanEvidence;
}.
#[export] Instance DeterministicPlan_eq_dec : EqDecision DeterministicPlan.
Proof. solve_decision. Defined.

Definition identity_mapping (p : DeterministicPlan) : pyval :=
  obj [("schemaVersion", VStr (plan_schema_version p)); ("plannerVersion", VStr (planner_version p));
       ("configEpochId", VStr (config_epoch_id p)); ("repoEpochHash", VStr (repo_epoch_hash p));
       ("inputHash", VStr (plan_input_hash p)); ("diffHash", VStr (plan_diff_hash p));
       ("compiledPolicyHash", VStr (compiled_policy_hash p)); ("policyHash", VStr (plan_policy_hash p));
       ("dependencyGraphHash", VStr (dependency_graph_hash p)); ("catalogHash", VStr (plan_catalog_hash p));
       ("selectedObligations", arr (SelectedObligation_mapping <$> selected_obligations p));
       ("selectedWitnesses", arr (SelectedWitness_mapping <$> selected_witnesses p));
       ("omittedObligations", arr (OmittedObligation_mapping <$> omitted_obligations p));
       ("fallback", PlanFallback_mapping (fallback p));
       ("evidence", arr (PlanEvidence_mapping <$> evidence p))]%string.

Definition DeterministicPlan_check `{Sha256} (p : DeterministicPlan) : res unit :=
  _require_non_empty_string (plan_id p) (u "plan_id") ;;
  raise_if (bool_decide (plan_schema_version p <> u "deterministic-plan/v1"))
    (ValueError (u "unsupported deterministic plan schema version")) ;;
  raise_if (bool_decide (planner_version p <> u "planning-core/v1")) (ValueError (u "unsupported planner version")) ;;
  _require_sha256 (config_epoch_id p) (u "config_epoch_id") ;;
  _require_sha256 (repo_epoch_hash p) (u "repo_epoch_hash") ;;
  _require_sha256 (plan_input_hash p) (u "input_hash") ;;
  _require_sha256 (plan_diff_hash p) (u "diff_hash") ;;
  _require_sha256 (compiled_policy_hash p) (u "compiled_policy_hash") ;;
  _require_sha256 (plan_policy_hash p) (u "policy_hash") ;;
  _require_sha256 (dependency_graph_hash p) (u "dependency_graph_hash") ;;
  _require_sha256 (plan_catalog_hash p) (u "catalog_hash") ;;
  _require_ordered_ids (so_obligation_id <$> selected_obligations p) (u "selected_obligations") ;;
  _require_ordered_ids (sw_witness_id <$> selected_witnesses p) (u "selected_witnesses") ;;
  _require_ordered_ids (oo_obligation_id <$> omitted_obligations p) (u "omitted_obligations") ;;
  raise_if (negb (bool_decide (str_set (so_obligation_id <$> selected_obligations p) ∩
                               str_set (oo_obligation_id <$> omitted_obligations p) = ∅)))
    (ValueError (u "selected and omitted obligations must be disjoint")) ;;
  validate_witness_closure (selected_obligations p) (selected_witnesses p) ;;
  h ← hash_mapping (identity_mapping p);
  raise_if (bool_decide (plan_id p <> u "dynamic_ci_plan_" ++ take 32 h))
    (ValueError (u "plan_id does not bind deterministic plan identity")).

(** [type PlanningResult = DeterministicPlan | PlanningRejected]. *)
Inductive PlanningResult :=
  | Planned (p : DeterministicPlan)
  | PlanningRejected (reasons : list pystr).

Definition PlanningRejected_new (reasons : list pystr) : res PlanningResult :=
  _require_sorted_unique_strings reasons (u "reasons") false ;; Ok (PlanningRejected reasons).

(** ** [policy.py] *)

Record AgentAdvicePolicy := {
  enabled : bool;
  model_id_allowlist : list pystr;
  prompt_hash_allowlist : list pystr;
  min_confidence : num;
  prompt_injection_eval_required : bool;
}.

Definition _canonical_model_ids (values : list pystr) : res (list pystr) :=
  bad ← mapR (fun v =>
    if negb (is_unicode_scalar_string v) || bool_decide (v = []) || has_char 0 v then Ok true
    else n ← utf8_length v; Ok (256 <? n)) values;
  raise_if (existsb id bad) (ValueError (u "model_id_allowlist must contain bounded Unicode scalar strings")) ;;
  sorted_unique values.

Definition _canonical_sha256s (values : list pystr) (field_name : pystr) : res (list pystr) :=
  mapR (fun v => _require_sha256 v (field_name ++ u " item")) values ;;
  sorted_unique values.

(** [0 <= n <= 1]. *)
Definition num_in_unit (n : num) : bool :=
  match n with
  | NInt z => (0 <=? z) && (z <=? 1)
  | NFloat f => SFleb (float_of_Z 0) f && SFleb f (float_of_Z 1)
  end.

Definition AgentAdvicePolicy_new (p : AgentAdvicePolicy) : res AgentAdvicePolicy :=
  models ← _canonical_model_ids (model_id_allowlist p);
  prompts ← _canonical_sha256s (prompt_hash_allowlist p) (u "prompt_hash_allowlist");
  raise_if (negb (num_in_unit (min_confidence p)))
    (ValueError (u "agent advice minimum confidence must be in [0, 1]")) ;;
  raise_if (enabled p && (bool_decide (models = []) || bool_decide (prompts = []) ||
                          negb (prompt_injection_eval_required p)))
    (ValueError (u "enabled agent advice requires allowlists and injection evaluation")) ;;
  Ok {| enabled := enabled p; model_id_allowlist := models; prompt_hash_allowlist := prompts;
        min_confidence := min_confidence p; prompt_injection_eval_required := prompt_injection_eval_required p |}.

Record PlanningPolicy := {
  pp_config_epoch_id : pystr;
  pp_compiled_policy_hash : pystr;
  pp_policy_hash : pystr;
  catalog : ValidationCatalog;
  fallback_timeout_seconds : Z;
  agent_advice : AgentAdvicePolicy;
}.

Definition PlanningPolicy_check (p : PlanningPolicy) : res unit :=
  _require_sha256 (pp_config_epoch_id p) (u "config_epoch_id") ;;
  _require_sha256 (pp_compiled_policy_hash p) (u "compiled_policy_hash") ;;
  _require_sha256 (pp_policy_hash p) (u "policy_hash") ;;
  raise_if (negb ((1 <=? fallback_timeout_seconds p) && (fallback_timeout_seconds p <=? 3600)))
    (ValueError (u "fallback_timeout_seconds must be an integer in [1, 3600]")) ;;
  raise_if (existsb (fun o => existsb (fun g => bool_decide (validate_path_pattern g <> None))
                                (responsibility_paths o)) (obligations (catalog p)))
    (ValueError (u "obligation responsibility path is not admitted")).

Definition pp_catalog_hash (p : PlanningPolicy) : pystr := catalog_hash (catalog p).

Definition planner_rejection_reasons (input : PlanningInput) (pol : PlanningPolicy) : res (list pystr) :=
  sorted_unique
    (reason_if (bool_decide (pp_config_epoch_id pol <> epoch_id (policy input))) "planning_config_epoch_mismatch" ++
     reason_if (bool_decide (pp_compiled_policy_hash pol <> ps_compiled_policy_hash (policy input)))
       "planning_compiled_policy_hash_mismatch" ++
     reason_if (bool_decide (pp_policy_hash pol <> ps_policy_hash (policy input))) "planning_policy_hash_mismatch").

Definition planner_admission_reasons (input : PlanningInput) (pol : PlanningPolicy) : res (list pystr) :=
  rejections ← planner_rejection_reasons input pol;
  sorted_unique (fallback_reasons input ++ rejections).

(** ** [impact.py] *)

Record ImpactAnalysis := {
  ia_changed_paths : list pystr;
  impacted_paths : list pystr;
  impacted_risk_classes : list pystr;
  unknown_paths : list pystr;
  ia_global_risk_paths : list pystr;
}.

(** The sets the walk updates. *)
Record impact_state := ImpactState {
  st_impacted : gset pystr;
  st_risks : gset pystr;
  st_unknown : gset pystr;
}.

(** The inner [for dependent in node.dependents], with the paths it enqueues. *)
Definition visit_dependents (deps : list pystr) (impacted : gset pystr) : gset pystr * list pystr :=
  foldl (fun '(s, new) dep => if bool_decide (dep ∈ s) then (s, new) else ({[dep]} ∪ s, new ++ [dep]))
    (impacted, []) deps.

(** The [while index < len(queue)] loop; [todo] is [queue[index:]]. *)
Fixpoint walk (fuel : nat) (node_by_path : gmap pystr DependencyGraphNode) (todo : list pystr)
    (st : impact_state) : res impact_state :=
  match todo with
  | [] => Ok st
  | p :: rest =>
      match fuel with
      | O => Raise OutOfFuel
      | S f =>
          match node_by_path !! p with
          | None => walk f node_by_path rest
                      (ImpactState (st_impacted st) (st_risks st) ({[p]} ∪ st_unknown st))
          | Some node =>
              let '(impacted, new) := visit_dependents (dependents node) (st_impacted st) in
              walk f node_by_path (rest ++ new)
                (ImpactState impacted (str_set (risk_classes node) ∪ st_risks st) (st_unknown st))
          end
      end
  end.

Definition walk_fuel (changed : list pystr) (ns : list DependencyGraphNode) : nat :=
  length changed + length (flat_map dependents ns).

Definition set_sorted (s : gset pystr) : res (list pystr) := sorted_unique (elements s).

Definition analyze_impact (input : PlanningInput) : res ImpactAnalysis :=
  changed ← changed_paths (diff input);
  let ns := nodes (dependency_graph input) in
  let node_by_path := dict_by node_path id ns in
  let unknown0 := str_set (filter (fun p => node_by_path !! p = None) changed) in
  let global := str_set (filter (fun p =>
    existsb (fun g => matches_path_pattern g p) (global_risk_paths (dependency_graph input)) = true) changed) in
  st ← walk (walk_fuel changed ns) node_by_path changed (ImpactState (str_set changed) ∅ unknown0);
  impacted ← set_sorted (st_impacted st);
  risks ← set_sorted (st_risks st);
  unknown ← set_sorted (st_unknown st);
  global ← set_sorted global;
  Ok {| ia_changed_paths := changed; impacted_paths := impacted; impacted_risk_classes := risks;
        unknown_paths := unknown; ia_global_risk_paths := global |}.

(** ** [omission_proof.py] *)

Inductive OmissionDecision :=
  | Omittable (proof : OmissionProof)
  | NotOmittable (reason : pystr).

Definition ASSUMPTIONS : list pystr :=
  [u "dependency graph includes all known dependents for changed paths";
   u "validation catalog is closed over obligation and witness identities"].

Definition INVALIDATES_WHEN : list pystr :=
  [u "changed path is unknown"; u "dependency graph is stale"; u "diff is truncated"; u "policy changes";
   u "validation catalog changes"].

Definition path_in_responsibility (o : ValidationObligation) (p : pystr) : bool :=
  existsb (fun pattern => matches_path_pattern pattern p) (responsibility_paths o).

Definition build_omission_proof `{Sha256} (input : PlanningInput) (pol : PlanningPolicy)
    (o : ValidationObligation) (impact : ImpactAnalysis) : res OmissionDecision :=
  if negb (omit_allowed o) then Ok (NotOmittable (u "policy does not allow omission"))
  else if bool_decide (ia_global_risk_paths impact <> [])
  then Ok (NotOmittable (u "global risk paths changed: " ++ join (u ", ") (ia_global_risk_paths impact)))
  else match List.find (path_in_responsibility o) (impacted_paths impact) with
  | Some p => Ok (NotOmittable (u "impact intersects responsibility path " ++ p))
  | None =>
      match List.find (fun r => bool_decide (r ∈ impacted_risk_classes impact)) (responsibility_risk_classes o) with
      | Some r => Ok (NotOmittable (u "impact intersects responsibility risk class " ++ r))
      | None =>
          epoch_hash ← hash_mapping (RepositoryEpoch_mapping (repo_epoch input));
          assumed ← sorted_unique ASSUMPTIONS;
          invalidated ← sorted_unique INVALIDATES_WHEN;
          let p := {| op_obligation_id := obligation_id o; rule_id := obligation_id o ++ u ":no-impact";
                      op_repo_epoch_hash := epoch_hash; op_diff_hash := diff_hash (diff input);
                      op_policy_hash := pp_policy_hash pol;
                      op_graph_hash := graph_hash (dependency_graph input);
                      op_catalog_hash := pp_catalog_hash pol; predicates := default_predicates;
                      assumptions := assumed; invalidates_when := invalidated |} in
          OmissionProof_check p ;; Ok (Omittable p)
      end
  end.

(** ** [planner.py] *)

(** The loop of [close_selected_witnesses]: which selected obligations require
    each witness. *)
Definition require_witness (by_id : gmap pystr ExecutableWitness) (s : SelectedObligation)
    (m : gmap pystr (list SelectedObligation)) (wid : pystr) : res (gmap pystr (list SelectedObligation)) :=
  w ← from_option KeyError (by_id !! wid);
  raise_if (negb (bool_decide (so_depth s ∈ supported_depths w)))
    (ValueError (u "selected depth is unsupported by a required witness")) ;;
  Ok (<[wid := default [] (m !! wid) ++ [s]]> m).

Definition require_witnesses (c : ValidationCatalog) (m : gmap pystr (list SelectedObligation))
    (s : SelectedObligation) : res (gmap pystr (list SelectedObligation)) :=
  o ← from_option (ValueError (u "selected obligation is absent from the validation catalog"))
        (dict_by obligation_id id (obligations c) !! so_obligation_id s);
  foldR (require_witness (dict_by witness_id id (witnesses c)) s) m (required_witness_ids o).

Definition close_witness (entry : pystr * list SelectedObligation) : res SelectedWitness :=
  depth ← max_of_depths (so_depth <$> entry.2);
  by_ids ← sorted_by_id id (so_obligation_id <$> entry.2);
  let w := {| sw_witness_id := entry.1; sw_depth := depth; required_by_obligation_ids := by_ids |} in
  SelectedWitness_check w ;; Ok w.

(** Witness identities are distinct, so the order of the dict's items is
    irrelevant to their sorted order. *)
Definition close_selected_witnesses (c : ValidationCatalog) (selected : list SelectedObligation)
    : res (list SelectedWitness) :=
  required_by ← foldR (require_witnesses c) ∅ selected;
  entries ← sorted_by_id fst (map_to_list required_by);
  mapR close_witness entries.

Definition evidence_sort_id (e : PlanEvidence) : pystr :=
  kind_str (kind e) ++ u ":" ++ default [] (ev_obligation_id e) ++ u ":" ++ message e.

Definition SelectedObligation_new (i : pystr) (d : ValidationDepth) (ws : list pystr) : res SelectedObligation :=
  let s := {| so_obligation_id := i; so_depth := d; so_required_witness_ids := ws |} in
  SelectedObligation_check s ;; Ok s.

Definition PlanEvidence_new (k : PlanEvidenceKind) (i : option pystr) (m : pystr) : res PlanEvidence :=
  let e := {| kind := k; ev_obligation_id := i; message := m |} in PlanEvidence_check e ;; Ok e.

Definition OmittedObligation_new (i : pystr) (ws : list pystr) (p : OmissionProof) : res OmittedObligation :=
  let o := {| oo_obligation_id := i; oo_required_witness_ids := ws; oo_proof := p |} in
  OmittedObligation_check o ;; Ok o.

Definition PlanFallback_new (timeout : Z) (trig : bool) (reason : option pystr) : res PlanFallback :=
  let f := {| timeout_seconds := timeout; triggered := trig; fb_reason := reason; trigger_on := TRIGGERS |} in
  PlanFallback_check f ;; Ok f.

Section planner.
Context `{Sha256}.

Definition _finalize_plan (input : PlanningInput) (pol : PlanningPolicy)
    (selected0 : list SelectedObligation) (omitted0 : list OmittedObligation) (fb : PlanFallback)
    (evidence0 : list PlanEvidence) : res DeterministicPlan :=
  selected ← sorted_by_id so_obligation_id selected0;
  ws ← close_selected_witnesses (catalog pol) selected;
  omitted ← sorted_by_id oo_obligation_id omitted0;
  ordered_evidence ← sorted_by_id evidence_sort_id evidence0;
  epoch_hash ← hash_mapping (RepositoryEpoch_mapping (repo_epoch input));
  let identity :=
    obj [("schemaVersion", VStr (u "deterministic-plan/v1")); ("plannerVersion", VStr (u "planning-core/v1"));
         ("configEpochId", VStr (epoch_id (policy input))); ("repoEpochHash", VStr epoch_hash);
         ("inputHash", VStr (input_hash input)); ("diffHash", VStr (diff_hash (diff input)));
         ("compiledPolicyHash", VStr (pp_compiled_policy_hash pol)); ("policyHash", VStr (pp_policy_hash pol));
         ("dependencyGraphHash", VStr (graph_hash (dependency_graph input)));
         ("catalogHash", VStr (pp_catalog_hash pol));
         ("selectedObligations", arr (SelectedObligation_mapping <$> selected));
         ("selectedWitnesses", arr (SelectedWitness_mapping <$> ws));
         ("omittedObligations", arr (OmittedObligation_mapping <$> omitted));
         ("fallback", PlanFallback_mapping fb);
         ("evidence", arr (PlanEvidence_mapping <$> ordered_evidence))]%string in
  h ← hash_mapping identity;
  let p := {| plan_id := u "dynamic_ci_plan_" ++ take 32 h; plan_schema_version := u "deterministic-plan/v1";
              planner_version := u "planning-core/v1"; config_epoch_id := epoch_id (policy input);
              repo_epoch_hash := epoch_hash; plan_input_hash := input_hash input;
              plan_diff_hash := diff_hash (diff input); compiled_policy_hash := pp_compiled_policy_hash pol;
              plan_policy_hash := pp_policy_hash pol;
              dependency_graph_hash := graph_hash (dependency_graph input);
              plan_catalog_hash := pp_catalog_hash pol; selected_obligations := selected;
              selected_witnesses := ws; omitted_obligations := omitted; fallback := fb;
              evidence := ordered_evidence |} in
  DeterministicPlan_check p ;; Ok p.

Definition _full_ci_plan (input : PlanningInput) (pol : PlanningPolicy) (reason : pystr) : res DeterministicPlan :=
  selected ← mapR (fun o => SelectedObligation_new (obligation_id o) (full_depth o) (required_witness_ids o))
               (obligations (catalog pol));
  fb ← PlanFallback_new (fallback_timeout_seconds pol) true (Some reason);
  ev ← PlanEvidence_new KFallback None reason;
  _finalize_plan input pol selected [] fb [ev].

Definition full_ci_fallback_plan (input : PlanningInput) (pol : PlanningPolicy) (reason : pystr)
    : res DeterministicPlan := _full_ci_plan input pol reason.

(** The lists the obligation loop appends to. *)
Record plan_lists := PlanLists {
  pl_selected : list SelectedObligation;
  pl_omitted : list OmittedObligation;
  pl_evidence : list PlanEvidence;
}.

Definition plan_obligation (input : PlanningInput) (pol : PlanningPolicy) (impact : ImpactAnalysis)
    (st : plan_lists) (o : ValidationObligation) : res plan_lists :=
  decision ← build_omission_proof input pol o impact;
  match decision with
  | NotOmittable reason =>
      s ← SelectedObligation_new (obligation_id o) (default_depth o) (required_witness_ids o);
      ev ← PlanEvidence_new KSelected (Some (obligation_id o)) reason;
      Ok (PlanLists (pl_selected st ++ [s]) (pl_omitted st) (pl_evidence st ++ [ev]))
  | Omittable proof =>
      om ← OmittedObligation_new (obligation_id o) (required_witness_ids o) proof;
      ev ← PlanEvidence_new KOmitted (Some (obligation_id o))
             (u "deterministic proof showed no impact on this obligation");
      Ok (PlanLists (pl_selected st) (pl_omitted st ++ [om]) (pl_evidence st ++ [ev]))
  end.

Definition plan (input : PlanningInput) (pol : PlanningPolicy) : res PlanningResult :=
  rejection_reasons ← planner_rejection_reasons input pol;
  if bool_decide (rejection_reasons <> []) then PlanningRejected_new rejection_reasons
  else
    admission_reasons ← planner_admission_reasons input pol;
    if bool_decide (admission_reasons <> [])
    then Planned <$> _full_ci_plan input pol (join (u "; ") admission_reasons)
    else
      impact ← analyze_impact input;
      if bool_decide (unknown_paths impact <> [])
      then Planned <$> _full_ci_plan input pol
             (u "unknown changed paths: " ++ join (u ", ") (unknown_paths impact))
      else
        st ← foldR (plan_obligation input pol impact) (PlanLists [] [] []) (obligations (catalog pol));
        fb ← PlanFallback_new (fallback_timeout_seconds pol) false None;
        Planned <$> _finalize_plan input pol (pl_selected st) (pl_omitted st) fb (pl_evidence st).
End planner.
