(* ===== verification/ImpactFacts.v ===== *)
(** * Impact analysis is graph reachability

    The breadth-first walk of [planning_core/impact.py] against the inductive
    definition of the paths a change reaches. *)

From stdpp Require Import base gmap sets list sorting strings.
From Stdlib Require Import ZArith Lia.
From S2P Require Import Prelude Text PathPatterns CanonicalJson Hashing Contract RepoContext Planning.

Section reach.
Context (by_path : gmap pystr DependencyGraphNode) (changed : list pystr).

(** The paths a change reaches: the changed paths and, transitively, the
    dependents of a reached node. *)
Inductive reached : pystr -> Prop :=
  | reached_changed p : p ∈ changed -> reached p
  | reached_dependent p node dep :
      reached p -> by_path !! p = Some node -> dep ∈ dependents node -> reached dep.

Definition reached_risk (r : pystr) : Prop :=
  exists p node, reached p /\ by_path !! p = Some node /\ r ∈ risk_classes node.

Definition reached_unknown (p : pystr) : Prop := reached p /\ by_path !! p = None.

Lemma visit_dependents_spec deps s s' new :
  visit_dependents deps s = (s', new) ->
  (forall x, x ∈ s' <-> x ∈ s \/ x ∈ deps) /\ (forall x, x ∈ new -> x ∈ deps /\ x ∉ s) /\ NoDup new /\
  (forall x, x ∈ s' -> x ∈ s \/ x ∈ new).
Proof.
  unfold visit_dependents. revert s' new.
  induction deps as [|d deps IH] using rev_ind; intros s' new.
  { simpl. intros [= <- <-]. split_and!; [set_solver|set_solver|constructor|set_solver]. }
  rewrite foldl_app. simpl. destruct (foldl _ _ _) as [s1 new1].
  destruct (IH s1 new1 eq_refl) as (H1 & H2 & H3 & H4).
  setoid_rewrite elem_of_app. setoid_rewrite list_elem_of_singleton.
  case_bool_decide as Hd; intros [= <- <-].
  - apply H1 in Hd as Hd'. split_and!; [|naive_solver|done|done].
    intros x. rewrite H1. naive_solver.
  - assert (d ∉ new1) by (intros Hn; apply Hd, H1; right; by apply H2).
    split_and!.
    + intros x. rewrite elem_of_union, elem_of_singleton, H1. naive_solver.
    + intros x. rewrite elem_of_app, list_elem_of_singleton. intros [Hx| ->]; [naive_solver|].
      split; [by right|]. intros Hs. apply Hd, H1. by left.
    + apply NoDup_app. split_and!; [done|set_solver|apply NoDup_singleton].
    + intros x. rewrite elem_of_union, elem_of_singleton, elem_of_app, list_elem_of_singleton. naive_solver.
Qed.

(** All dependents of the graph, the bound of the walk. *)
Context (all : gset pystr) (Hall : forall p node dep, by_path !! p = Some node -> dep ∈ dependents node -> dep ∈ all).

Record walk_inv (todo : list pystr) (st : impact_state) : Prop := {
  wi_start : forall p, p ∈ changed -> p ∈ st_impacted st;
  wi_todo : forall p, p ∈ todo -> p ∈ st_impacted st;
  wi_sound : forall p, p ∈ st_impacted st -> reached p;
  wi_deps : forall p node dep, p ∈ st_impacted st -> p ∉ todo -> by_path !! p = Some node ->
    dep ∈ dependents node -> dep ∈ st_impacted st;
  wi_risks : forall p node r, p ∈ st_impacted st -> p ∉ todo -> by_path !! p = Some node ->
    r ∈ risk_classes node -> r ∈ st_risks st;
  wi_unknown : forall p, p ∈ st_impacted st -> p ∉ todo -> by_path !! p = None -> p ∈ st_unknown st;
  wi_risks_sound : forall r, r ∈ st_risks st -> reached_risk r;
  wi_unknown_sound : forall p, p ∈ st_unknown st -> reached_unknown p;
}.

Lemma walk_inv_unknown p rest st :
  walk_inv (p :: rest) st -> by_path !! p = None ->
  walk_inv rest (ImpactState (st_impacted st) (st_risks st) ({[p]} ∪ st_unknown st)).
Proof.
  intros [H1 H2 H3 H4 H5 H6 H7 H8] Hp. split; simpl; try done.
  - intros q Hq. apply H2. set_solver.
  - intros q node dep Hq Hr Hn. apply (H4 q node); [done| |done]. destruct (decide (q = p)); [congruence|set_solver].
  - intros q node r Hq Hr Hn. apply (H5 q node); [done| |done]. destruct (decide (q = p)); [congruence|set_solver].
  - intros q Hq Hr Hn. destruct (decide (q = p)) as [->|]; [set_solver|].
    assert (q ∈ st_unknown st) by (apply H6; set_solver). set_solver.
  - intros q [->%elem_of_singleton|Hq]%elem_of_union; [|by apply H8]. split; [|done]. apply H3, H2. set_solver.
Qed.

Lemma walk_inv_node p rest st node s' new :
  walk_inv (p :: rest) st -> by_path !! p = Some node ->
  visit_dependents (dependents node) (st_impacted st) = (s', new) ->
  walk_inv (rest ++ new) (ImpactState s' (str_set (risk_classes node) ∪ st_risks st) (st_unknown st)).
Proof.
  intros [H1 H2 H3 H4 H5 H6 H7 H8] Hp (V1 & V2 & _ & V4)%visit_dependents_spec.
  assert (reached p) as Hrp by (apply H3, H2; set_solver).
  assert (forall q, q ∉ rest ++ new -> q ∈ s' -> q <> p -> q ∈ st_impacted st /\ q ∉ p :: rest) as Hold.
  { intros q Hn Hq Hne. destruct (V4 q Hq); set_solver. }
  split; simpl.
  - intros q Hq. apply V1. left. by apply H1.
  - intros q [Hq|Hq]%elem_of_app; apply V1; [left; apply H2; set_solver|right; by apply V2].
  - intros q [Hq|Hq]%V1; [by apply H3|]. by eapply reached_dependent.
  - intros q node' dep Hq Hn Hl Hd. apply V1. destruct (decide (q = p)) as [->|Hne].
    + right. by simplify_eq.
    + left. destruct (Hold q Hn Hq Hne). by eapply H4.
  - intros q node' r Hq Hn Hl Hd. apply elem_of_union. destruct (decide (q = p)) as [->|Hne].
    + left. simplify_eq. unfold str_set. by apply elem_of_list_to_set.
    + right. destruct (Hold q Hn Hq Hne). by eapply H5.
  - intros q Hq Hn Hl. destruct (decide (q = p)) as [->|Hne]; [congruence|].
    destruct (Hold q Hn Hq Hne). by apply H6.
  - intros r [Hr|Hr]%elem_of_union; [|by apply H7]. unfold str_set in Hr. apply elem_of_list_to_set in Hr.
    by exists p, node.
  - done.
Qed.

(** The paths still to be enqueued bound the walk. *)
Definition walk_measure (todo : list pystr) (st : impact_state) : nat :=
  length todo + size (all ∖ st_impacted st).

Lemma walk_measure_node p rest st node s' new :
  by_path !! p = Some node -> visit_dependents (dependents node) (st_impacted st) = (s', new) ->
  (length (rest ++ new) + size (all ∖ s') <= length rest + size (all ∖ st_impacted st))%nat.
Proof.
  intros Hp (V1 & V2 & V3 & V4)%visit_dependents_spec. rewrite length_app.
  assert (size (list_to_set new : gset pystr) = length new) as <- by by apply size_list_to_set.
  rewrite <-Nat.add_assoc. apply Nat.add_le_mono_l.
  rewrite <-size_union by (intros x; rewrite elem_of_list_to_set, elem_of_difference; set_solver).
  apply subseteq_size. intros x. rewrite elem_of_union, elem_of_list_to_set, !elem_of_difference.
  intros [Hx|[Hx Hn]]; [|set_solver]. destruct (V2 x Hx) as [Hd Hs]. split; [|done]. by eapply Hall.
Qed.

Lemma walk_total fuel todo st :
  walk_inv todo st -> (walk_measure todo st <= fuel)%nat ->
  exists st', walk fuel by_path todo st = Ok st' /\ walk_inv [] st'.
Proof.
  revert todo st. induction fuel as [|f IH]; intros [|p rest] st Hinv Hm; simpl.
  - by exists st.
  - unfold walk_measure in Hm. simpl in Hm. lia.
  - by exists st.
  - destruct (by_path !! p) as [node|] eqn:Hp.
    + destruct (visit_dependents _ _) as [s' new] eqn:Hv. apply IH; [by eapply walk_inv_node|].
      pose proof (walk_measure_node _ rest _ _ _ _ Hp Hv). unfold walk_measure in *. simpl in *. lia.
    + apply IH; [by apply walk_inv_unknown|]. unfold walk_measure in *. simpl in *. lia.
Qed.

Lemma walk_final st :
  walk_inv [] st ->
  (forall p, p ∈ st_impacted st <-> reached p) /\
  (forall r, r ∈ st_risks st <-> reached_risk r) /\
  (forall p, p ∈ st_unknown st <-> reached_unknown p).
Proof.
  intros [H1 H2 H3 H4 H5 H6 H7 H8].
  assert (forall p, reached p -> p ∈ st_impacted st) as Hc.
  { induction 1 as [p Hp|p node dep _ IH Hn Hd]; [by apply H1|]. eapply H4; eauto. set_solver. }
  split_and!.
  - split; auto.
  - split; [auto|]. intros (p & node & Hp & Hn & Hr). eapply H5; eauto. set_solver.
  - split; [auto|]. intros (Hp & Hn). apply H6; auto. set_solver.
Qed.
End reach.

(** ** The analysis of a planning input *)

Definition node_map (input : PlanningInput) : gmap pystr DependencyGraphNode :=
  dict_by node_path id (nodes (dependency_graph input)).

Definition is_global_risk (input : PlanningInput) (p : pystr) : bool :=
  existsb (fun g => matches_path_pattern g p) (global_risk_paths (dependency_graph input)).

Record impact_spec (input : PlanningInput) (changed : list pystr) (a : ImpactAnalysis) : Prop := {
  is_changed : changed_paths (diff input) = Ok changed /\ ia_changed_paths a = changed;
  is_impacted : forall p, p ∈ impacted_paths a <-> reached (node_map input) changed p;
  is_risks : forall r, r ∈ impacted_risk_classes a <-> reached_risk (node_map input) changed r;
  is_unknown : forall p, p ∈ unknown_paths a <-> reached_unknown (node_map input) changed p;
  is_global : forall p, p ∈ ia_global_risk_paths a <-> p ∈ changed /\ is_global_risk input p = true;
  is_canonical : canonical (impacted_paths a) /\ canonical (impacted_risk_classes a) /\
                 canonical (unknown_paths a) /\ canonical (ia_global_risk_paths a);
}.

Lemma walk_correct (ns : list DependencyGraphNode) changed :
  let by_path := dict_by node_path id ns in
  exists st, walk (walk_fuel changed ns) by_path changed
      (ImpactState (str_set changed) ∅ (str_set (filter (fun p => by_path !! p = None) changed))) = Ok st /\
    (forall p, p ∈ st_impacted st <-> reached by_path changed p) /\
    (forall r, r ∈ st_risks st <-> reached_risk by_path changed r) /\
    (forall p, p ∈ st_unknown st <-> reached_unknown by_path changed p).
Proof.
  intros by_path. pose (all := str_set (flat_map dependents ns)).
  assert (forall p node dep, by_path !! p = Some node -> dep ∈ dependents node -> dep ∈ all) as Hall.
  { intros p node dep (n & Hn & _ & E)%dict_by_Some Hd. simpl in E. subst node. unfold all, str_set.
    apply elem_of_list_to_set, list_elem_of_In, in_flat_map. exists n. by rewrite <-!list_elem_of_In. }
  destruct (walk_total by_path changed all Hall (walk_fuel changed ns) changed
    (ImpactState (str_set changed) ∅ (str_set (filter (fun p => by_path !! p = None) changed))))
    as (st & E & Hinv).
  - unfold str_set. split; simpl; try set_solver.
    + intros p Hp. apply reached_changed. by apply elem_of_list_to_set in Hp.
    + intros p Hp. apply elem_of_list_to_set, list_elem_of_filter in Hp as [? ?].
      split; [by apply reached_changed|done].
  - unfold walk_measure, walk_fuel. apply Nat.add_le_mono_l. simpl.
    transitivity (size all); [apply subseteq_size; set_solver|].
    unfold all, str_set. generalize (flat_map dependents ns). intros l. induction l as [|x l IH]; simpl; [done|].
    rewrite size_union_alt, size_singleton.
    assert (size ((list_to_set l : gset pystr) ∖ {[x]}) <= size (list_to_set l : gset pystr))%nat
      by (apply subseteq_size; set_solver). lia.
  - exists st. split; [done|]. by apply (walk_final by_path changed all Hall).
Qed.

(** The strings the sorted results are built from. *)
Definition graph_scalar (input : PlanningInput) : Prop :=
  forall n s, n ∈ nodes (dependency_graph input) -> s ∈ dependents n \/ s ∈ risk_classes n ->
    is_unicode_scalar_string s = true.

Lemma set_sorted_Ok (s : gset pystr) l :
  set_sorted s = Ok l -> canonical l /\ forall x, x ∈ l <-> x ∈ s.
Proof.
  unfold set_sorted. intros (Hc & He & _)%sorted_unique_Ok. split; [done|].
  intros x. by rewrite He, elem_of_elements.
Qed.

Lemma analyze_impact_spec input a :
  analyze_impact input = Ok a -> exists changed, impact_spec input changed a.
Proof.
  unfold analyze_impact. intros H. apply bind_Ok in H as (changed & Hc & H).
  destruct (walk_correct (nodes (dependency_graph input)) changed) as (st & E & H1 & H2 & H3).
  rewrite E in H. simpl in H. clear E.
  apply bind_Ok in H as (imp & [Hic Hie]%set_sorted_Ok & H).
  apply bind_Ok in H as (rsk & [Hrc Hre]%set_sorted_Ok & H).
  apply bind_Ok in H as (unk & [Huc Hue]%set_sorted_Ok & H).
  apply bind_Ok in H as (glb & [Hgc Hge]%set_sorted_Ok & H). injection H as <-.
  exists changed. split; simpl; [done| | | | |done].
  - intros p. rewrite Hie. apply H1.
  - intros r. rewrite Hre. apply H2.
  - intros p. rewrite Hue. apply H3.
  - intros p. rewrite Hge. unfold str_set. rewrite elem_of_list_to_set, list_elem_of_filter.
    unfold is_global_risk. naive_solver.
Qed.

Lemma reached_scalar input changed p :
  graph_scalar input -> (forall p, p ∈ changed -> is_unicode_scalar_string p = true) ->
  reached (node_map input) changed p -> is_unicode_scalar_string p = true.
Proof.
  intros Hg Hc. induction 1 as [p Hp|p node dep _ _ Hn Hd]; [auto|].
  apply dict_by_Some in Hn as (n & Hn & _ & E). simpl in E. subst node. by eapply (Hg n dep); [|left].
Qed.

Lemma analyze_impact_total input changed :
  changed_paths (diff input) = Ok changed -> graph_scalar input ->
  exists a, analyze_impact input = Ok a /\ impact_spec input changed a.
Proof.
  intros Hc Hg. cut (exists a, analyze_impact input = Ok a).
  { intros [a Ha]. exists a. split; [done|].
    destruct (analyze_impact_spec _ _ Ha) as (c' & Hs). destruct (is_changed _ _ _ Hs) as [E _].
    by replace changed with c' by congruence. }
  unfold analyze_impact. rewrite Hc. simpl.
  assert (forall p, p ∈ changed -> is_unicode_scalar_string p = true) as Hcs.
  { apply sorted_unique_Ok in Hc as (Hc & _). intros p. by apply canonical_scalar. }
  destruct (walk_correct (nodes (dependency_graph input)) changed) as (st & E & H1 & H2 & H3).
  rewrite E. simpl. clear E.
  assert (forall s : gset pystr, (forall x, x ∈ s -> is_unicode_scalar_string x = true) ->
    exists l, set_sorted s = Ok l) as Hset.
  { intros s Hs. apply sorted_unique_total. intros x. rewrite elem_of_elements. apply Hs. }
  destruct (Hset (st_impacted st)) as [l1 ->]; simpl.
  { intros x Hx%H1. by eapply (reached_scalar input). }
  destruct (Hset (st_risks st)) as [l2 ->]; simpl.
  { intros x (p & node & _ & Hn & Hx)%H2. apply dict_by_Some in Hn as (n & Hn & _ & En). simpl in En. subst node.
    by eapply (Hg n x); [|right]. }
  destruct (Hset (st_unknown st)) as [l3 ->]; simpl.
  { intros x [Hx _]%H3. by eapply (reached_scalar input). }
  match goal with |- context [set_sorted ?s] => destruct (Hset s) as [l4 ->]; simpl; [|by eexists] end.
  unfold str_set. intros x [_ Hx]%elem_of_list_to_set%list_elem_of_filter. auto.
Qed.

(** C15: the planner's impact analysis returns on every input whose graph holds
    scalar strings, and is exactly reachability: the impacted paths are the
    changed ones and, transitively, the dependents of a reached node, with the
    risk classes of the nodes reached and the reached paths that have no node;
    every list is canonical. *)
Theorem analyze_impact_correct input changed :
  changed_paths (diff input) = Ok changed ->
  graph_scalar input ->
  exists a, analyze_impact input = Ok a /\ impact_spec input changed a.
Proof. apply analyze_impact_total. Qed.
