(* ===== verification/PlannerFacts.v ===== *)
(** * Facts about the planner

    Lemmas behind the theorems of [Planner.v]: the omission decision against
    its condition, the closure of a selection to witnesses, the acceptance of a
    sealed plan by its own constructor. *)

From stdpp Require Import base gmap sets list sorting strings.
From Stdlib Require Import ZArith Lia.
From S2P Require Import Prelude Text PathPatterns PyFloat CanonicalJson Hashing Contract RepoContext Planning ImpactFacts.

(** ** Checks on strings *)

Lemma require_sha256_Ok v f x : require_sha256 v f = Ok x <-> is_sha256_hex v = true.
Proof. unfold require_sha256. rewrite raise_if_Ok. apply negb_false_iff'. Qed.

Lemma require_non_empty_string_Ok v f x :
  _require_non_empty_string v f = Ok x <-> v <> [] /\ is_unicode_scalar_string v = true.
Proof.
  unfold _require_non_empty_string. rewrite raise_if_Ok, orb_false_iff', bool_decide_eq_false.
  by rewrite negb_false_iff'.
Qed.

Lemma require_sorted_unique_strings_Ok l f ne x :
  _require_sorted_unique_strings l f ne = Ok x <->
  canonical l /\ (forall s, s ∈ l -> s <> []) /\ (ne = true -> l <> []).
Proof.
  unfold _require_sorted_unique_strings. split.
  - intros H. apply bind_Ok in H as ([] & H1 & H). apply bind_Ok in H as ([] & H2 & H3).
    apply raise_if_Ok in H1, H2. apply require_canonical_Ok in H3. rewrite existsb_false in H2.
    split_and!; [done| |].
    + intros s Hs%H2. by bdec.
    + intros -> ->. done.
  - intros (Hc & He & Hn).
    assert (ne && bool_decide (l = []) = false) as ->.
    { destruct ne; [|done]. simpl. apply bool_decide_eq_false_2. auto. }
    simpl.
    assert (existsb (fun v => bool_decide (v = []) || negb (is_unicode_scalar_string v)) l = false) as ->.
    { apply existsb_false. intros s Hs. rewrite bool_decide_eq_false_2 by auto.
      by rewrite (canonical_scalar _ _ Hc Hs). }
    simpl. destruct x. by apply require_canonical_Ok.
Qed.

Lemma require_ordered_ids_Ok l f x : _require_ordered_ids l f = Ok x <-> canonical l.
Proof. apply require_canonical_Ok. Qed.

(** [chk_strings] reduces such a check to its condition. *)
Ltac chk_strings :=
  match goal with
  | |- require_sha256 _ _ = _ => apply require_sha256_Ok; first [assumption | simpl; assumption | idtac]
  | |- _require_sha256 _ _ = _ => apply require_sha256_Ok; first [assumption | simpl; assumption | idtac]
  | |- _require_non_empty_string _ _ = _ => apply require_non_empty_string_Ok; simpl
  | |- _require_sorted_unique_strings _ _ _ = _ => apply require_sorted_unique_strings_Ok; simpl
  | |- _require_ordered_ids _ _ = _ => apply require_ordered_ids_Ok; simpl
  | |- raise_if _ _ = _ => apply raise_if_Ok
  | |- _ => idtac
  end.

(** ** The omission decision *)

(** The condition under which the proof is built, on the analysis. *)
Definition omits (impact : ImpactAnalysis) (o : ValidationObligation) : bool :=
  omit_allowed o && bool_decide (ia_global_risk_paths impact = []) &&
  negb (existsb (path_in_responsibility o) (impacted_paths impact)) &&
  negb (existsb (fun r => bool_decide (r ∈ impacted_risk_classes impact)) (responsibility_risk_classes o)).

Definition proof_for `{Sha256} (input : PlanningInput) (pol : PlanningPolicy) (o : ValidationObligation)
    (p : OmissionProof) : Prop :=
  op_obligation_id p = obligation_id o /\ rule_id p = obligation_id o ++ u ":no-impact" /\
  hash_mapping (RepositoryEpoch_mapping (repo_epoch input)) = Ok (op_repo_epoch_hash p) /\
  op_diff_hash p = diff_hash (diff input) /\ op_policy_hash p = pp_policy_hash pol /\
  op_graph_hash p = graph_hash (dependency_graph input) /\ op_catalog_hash p = pp_catalog_hash pol /\
  predicates p = default_predicates /\ assumptions p = ASSUMPTIONS /\ invalidates_when p = INVALIDATES_WHEN.

Lemma find_existsb {A} (f : A -> bool) l :
  match List.find f l with
  | Some x => existsb f l = true /\ x ∈ l /\ f x = true
  | None => existsb f l = false
  end.
Proof.
  destruct (List.find f l) as [x|] eqn:E.
  - apply find_some in E as [Hx Hf]. rewrite <-list_elem_of_In in Hx. split_and!; [|done|done].
    apply existsb_elem. eauto.
  - apply existsb_false. intros x Hx. apply find_none with l; [done|]. by apply list_elem_of_In.
Qed.

Lemma assumptions_canonical :
  sorted_unique ASSUMPTIONS = Ok ASSUMPTIONS /\ sorted_unique INVALIDATES_WHEN = Ok INVALIDATES_WHEN.
Proof. split; vm_compute; reflexivity. Qed.

Lemma build_omission_proof_spec `{Sha256} input pol o impact d :
  build_omission_proof input pol o impact = Ok d ->
  match d with
  | Omittable p => omits impact o = true /\ proof_for input pol o p /\ OmissionProof_check p = Ok tt
  | NotOmittable r => omits impact o = false
  end.
Proof.
  unfold build_omission_proof, omits. destruct (omit_allowed o); simpl; [|by intros [= <-]].
  destruct (decide (ia_global_risk_paths impact = [])) as [Eg|Eg].
  2: { rewrite bool_decide_eq_true_2 by done. rewrite (bool_decide_eq_false_2 (_ = [])) by done. by intros [= <-]. }
  rewrite bool_decide_eq_false_2 by auto. rewrite (bool_decide_eq_true_2 (_ = [])) by done. simpl.
  pose proof (find_existsb (path_in_responsibility o) (impacted_paths impact)) as H1.
  destruct (List.find _ (impacted_paths impact)) as [p|]; [destruct H1 as [-> _]; by intros [= <-]|].
  rewrite H1. simpl.
  pose proof (find_existsb (fun r => bool_decide (r ∈ impacted_risk_classes impact)) (responsibility_risk_classes o)) as H2.
  destruct (List.find _ (responsibility_risk_classes o)) as [p|]; [destruct H2 as [-> _]; by intros [= <-]|].
  rewrite H2. cbn [negb andb]. destruct (hash_mapping _) as [eh|] eqn:Heh; cbn [mbind res_bind]; [|done].
  destruct assumptions_canonical as [-> ->]. cbn [mbind res_bind].
  destruct (OmissionProof_check _) as [[]|] eqn:Hchk; [|done]. intros [= <-]. split; [done|]. split; [|exact Hchk].
  unfold proof_for. split_and!; first [exact Heh | reflexivity].
Qed.

(** Enough for the proof's own constructor. *)
Record hashes_ok `{Sha256} (input : PlanningInput) (pol : PlanningPolicy) : Prop := {
  ho_epoch : exists h, hash_mapping (RepositoryEpoch_mapping (repo_epoch input)) = Ok h;
  ho_diff : is_sha256_hex (diff_hash (diff input)) = true;
  ho_policy : is_sha256_hex (pp_policy_hash pol) = true;
  ho_compiled : is_sha256_hex (pp_compiled_policy_hash pol) = true;
  ho_graph : is_sha256_hex (graph_hash (dependency_graph input)) = true;
  ho_catalog : is_sha256_hex (pp_catalog_hash pol) = true;
  ho_input : is_sha256_hex (input_hash input) = true;
  ho_config : is_sha256_hex (epoch_id (policy input)) = true;
}.

Lemma omission_proof_check `{Sha256} input pol o eh :
  hashes_ok input pol -> obligation_ok o -> is_sha256_hex eh = true ->
  OmissionProof_check {| op_obligation_id := obligation_id o; rule_id := obligation_id o ++ u ":no-impact";
     op_repo_epoch_hash := eh; op_diff_hash := diff_hash (diff input); op_policy_hash := pp_policy_hash pol;
     op_graph_hash := graph_hash (dependency_graph input); op_catalog_hash := pp_catalog_hash pol;
     predicates := default_predicates; assumptions := ASSUMPTIONS; invalidates_when := INVALIDATES_WHEN |} = Ok tt.
Proof.
  intros Hh Ho Heh. pose proof (ob_id _ Ho) as Hid. destruct Hh.
  destruct assumptions_canonical as [Ha%sorted_unique_canonical Hi%sorted_unique_canonical].
  unfold OmissionProof_check, _require_sha256. chk; chk_strings.
  - auto with py.
  - split; [|auto with py]. intros [E _]%app_eq_nil. by apply (identifier_nonempty _ Hid).
  - split_and!; [done| |done]. unfold ASSUMPTIONS. intros s. rewrite !elem_of_cons, elem_of_nil.
    intros [->|[->|[]]]; apply u_nonempty.
  - split_and!; [done| |done]. unfold INVALIDATES_WHEN. intros s. rewrite !elem_of_cons, elem_of_nil.
    intros [->|[->|[->|[->|[->|[]]]]]]; apply u_nonempty.
Qed.

Lemma build_omission_proof_total `{Sha256} input pol o impact :
  hashes_ok input pol -> obligation_ok o -> canonical (impacted_paths impact) ->
  canonical (ia_global_risk_paths impact) ->
  exists d, build_omission_proof input pol o impact = Ok d /\
    match d with
    | Omittable p => OmissionProof_check p = Ok tt
    | NotOmittable r => r <> [] /\ is_unicode_scalar_string r = true
    end.
Proof.
  intros Hh Ho Hi Hg. unfold build_omission_proof. destruct (omit_allowed o); simpl.
  2: { eexists; split; [done|]. split; [apply u_nonempty|apply scalar_u]. }
  case_bool_decide as Eg.
  { eexists; split; [done|]. split; [apply u_cons_nonempty|]. apply scalar_app_2; [apply scalar_u|].
    apply scalar_join; [apply scalar_u|]. intros w. by apply canonical_scalar. }
  destruct (List.find (path_in_responsibility o) (impacted_paths impact)) as [p|] eqn:E1.
  { apply find_some in E1 as [Hp%list_elem_of_In _]. eexists; split; [done|]. split; [apply u_cons_nonempty|].
    apply scalar_app_2; [apply scalar_u|]. by apply (canonical_scalar _ _ Hi). }
  destruct (List.find _ (responsibility_risk_classes o)) as [r|] eqn:E2.
  { apply find_some in E2 as [Hr%list_elem_of_In _]. eexists; split; [done|]. split; [apply u_cons_nonempty|].
    apply scalar_app_2; [apply scalar_u|]. eapply canonical_scalar; [apply (ob_risks _ Ho)|done]. }
  destruct (ho_epoch _ _ Hh) as [eh Heh]. rewrite Heh.
  destruct assumptions_canonical as [-> ->]. cbn [mbind res_bind].
  rewrite omission_proof_check by (done || by eapply hash_mapping_hex). cbn [mbind res_bind].
  eexists; split; [done|]. apply omission_proof_check; [done|done|by eapply hash_mapping_hex].
Qed.

(** ** Witness closure *)

(** The selected obligations that require a witness, in selection order. *)
Definition requiring (selected : list SelectedObligation) (wid : pystr) : list SelectedObligation :=
  filter (fun s => wid ∈ so_required_witness_ids s) selected.

(** The abstract contract of the two closure functions: one witness per
    required identity, its reverse edges, the strongest depth. *)
Record closure_spec (selected : list SelectedObligation) (ws : list SelectedWitness) : Prop := {
  cs_ids : canonical (sw_witness_id <$> ws);
  cs_dom : forall wid, wid ∈ sw_witness_id <$> ws <-> exists s, s ∈ selected /\ wid ∈ so_required_witness_ids s;
  cs_by : forall w, w ∈ ws ->
    required_by_obligation_ids w = so_obligation_id <$> requiring selected (sw_witness_id w);
  cs_depth : forall w, w ∈ ws ->
    max_of_depths (so_depth <$> requiring selected (sw_witness_id w)) = Ok (sw_depth w);
}.

(** The closure determines the witnesses. *)
Lemma closure_spec_unique selected ws ws' :
  closure_spec selected ws -> closure_spec selected ws' -> ws = ws'.
Proof.
  intros H1 H2. assert (sw_witness_id <$> ws = sw_witness_id <$> ws') as Eids.
  { apply canonical_unique; [apply H1|apply H2|]. intros wid. by rewrite (cs_dom _ _ H1), (cs_dom _ _ H2). }
  assert (forall w w', w ∈ ws -> w' ∈ ws' -> sw_witness_id w = sw_witness_id w' -> w = w') as Heq.
  { intros w w' Hw Hw' E. pose proof (cs_by _ _ H1 _ Hw) as B1. pose proof (cs_by _ _ H2 _ Hw') as B2.
    pose proof (cs_depth _ _ H1 _ Hw) as D1. pose proof (cs_depth _ _ H2 _ Hw') as D2.
    rewrite E in *. rewrite D1 in D2. destruct w, w'; simpl in *. congruence. }
  clear H1 H2. revert ws' Eids Heq. induction ws as [|w ws IH]; intros [|w' ws'] Eids Heq; try done.
  csimpl in *. injection Eids as E Eids. f_equal; [apply Heq; set_solver|].
  apply IH; [done|]. intros x y Hx Hy. apply Heq; set_solver.
Qed.

(** What may be selected: an obligation of the catalog with its own witnesses,
    at a depth all of them support. *)
Definition selects (c : ValidationCatalog) (s : SelectedObligation) : Prop :=
  exists o, o ∈ obligations c /\ so_obligation_id s = obligation_id o /\
    so_required_witness_ids s = required_witness_ids o /\
    forall wid, wid ∈ required_witness_ids o -> exists w,
      dict_by witness_id id (witnesses c) !! wid = Some w /\ so_depth s ∈ supported_depths w.

Lemma catalog_lookup c o :
  catalog_ok c -> o ∈ obligations c -> dict_by obligation_id id (obligations c) !! obligation_id o = Some o.
Proof. intros Hc Ho. by apply (dict_by_lookup obligation_id id); [apply canonical_NoDup, Hc|]. Qed.

Lemma witness_lookup c o wid :
  catalog_ok c -> o ∈ obligations c -> wid ∈ required_witness_ids o ->
  exists w, dict_by witness_id id (witnesses c) !! wid = Some w /\
    default_depth o ∈ supported_depths w /\ full_depth o ∈ supported_depths w.
Proof.
  intros Hc Ho Hw. assert (is_Some (dict_by witness_id id (witnesses c) !! wid)) as [w Hwl].
  { apply dict_by_elem, (ca_closed _ Hc). eauto. }
  exists w. split; [done|]. by eapply ca_depths.
Qed.

(** The default and the full depth of an obligation are always supported. *)
Lemma selects_depth c o s :
  catalog_ok c -> o ∈ obligations c -> so_obligation_id s = obligation_id o ->
  so_required_witness_ids s = required_witness_ids o -> so_depth s = default_depth o \/ so_depth s = full_depth o ->
  selects c s.
Proof.
  intros Hc Ho Ei Er Hd. exists o. split_and!; try done. intros wid Hwid.
  destruct (witness_lookup c o wid Hc Ho Hwid) as (w & Hw & H1 & H2). exists w. split; [done|].
  destruct Hd as [->| ->]; done.
Qed.

Lemma require_witness_total by_id s m wids :
  NoDup wids ->
  (forall wid, wid ∈ wids -> exists w, by_id !! wid = Some w /\ so_depth s ∈ supported_depths w) ->
  exists m', foldR (require_witness by_id s) m wids = Ok m' /\
    forall wid, m' !! wid = if decide (wid ∈ wids) then Some (default [] (m !! wid) ++ [s]) else m !! wid.
Proof.
  intros Hn. revert m. induction Hn as [|wid wids Hni Hn IH]; intros m Hw; simpl.
  { by exists m. }
  destruct (Hw wid ltac:(set_solver)) as (w & Hlk & Hd).
  assert (require_witness by_id s m wid = Ok (<[wid := default [] (m !! wid) ++ [s]]> m)) as ->.
  { unfold require_witness. rewrite Hlk. simpl. by rewrite bool_decide_eq_true_2. }
  cbn [mbind res_bind].
  destruct (IH (<[wid := default [] (m !! wid) ++ [s]]> m)) as (m' & E & Hm'); [set_solver|].
  exists m'. split; [done|]. intros wid'. rewrite Hm'.
  destruct (decide (wid' = wid)) as [->|Hne].
  - rewrite decide_False, decide_True by set_solver. by rewrite lookup_insert_eq.
  - rewrite lookup_insert_ne by done.
    destruct (decide (wid' ∈ wids)), (decide (wid' ∈ wid :: wids)); set_solver.
Qed.

Definition requiring_entry (selected : list SelectedObligation) (wid : pystr) : option (list SelectedObligation) :=
  match requiring selected wid with [] => None | l => Some l end.

Lemma requiring_snoc selected s wid :
  requiring (selected ++ [s]) wid =
  if decide (wid ∈ so_required_witness_ids s) then requiring selected wid ++ [s] else requiring selected wid.
Proof.
  unfold requiring. rewrite filter_app. case_decide as Hw.
  - by rewrite filter_cons_True.
  - by rewrite filter_cons_False, app_nil_r.
Qed.

Lemma require_witnesses_total c selected :
  catalog_ok c -> Forall (selects c) selected ->
  exists m, foldR (require_witnesses c) ∅ selected = Ok m /\
    forall wid, m !! wid = requiring_entry selected wid.
Proof.
  intros Hc Hs.
  apply (foldR_total _ (fun pre m => forall wid, m !! wid = requiring_entry pre wid)); [done|].
  intros pre s m Hm (todo & El). rewrite El in Hs. apply Forall_app in Hs as [_ Hs].
  apply Forall_cons in Hs as [(o & Ho & Eid & Ew & Ed) _].
  unfold require_witnesses. rewrite Eid, (catalog_lookup _ _ Hc Ho). simpl.
  pose proof (proj1 (Forall_forall _ _) (ca_obligations _ Hc) o Ho) as Hok.
  destruct (require_witness_total (dict_by witness_id id (witnesses c)) s m (required_witness_ids o))
    as (m' & E & Hm').
  - apply canonical_NoDup, Hok.
  - exact Ed.
  - exists m'. split; [done|]. intros wid. rewrite Hm', Hm. unfold requiring_entry.
    rewrite requiring_snoc, Ew.
    destruct (decide (wid ∈ required_witness_ids o)); [|done].
    destruct (requiring pre wid); done.
Qed.

Lemma requiring_sorted selected wid :
  canonical (so_obligation_id <$> selected) -> canonical (so_obligation_id <$> requiring selected wid).
Proof.
  apply canonical_fmap_filter.
Qed.

Lemma close_witness_total selected wid l :
  canonical (so_obligation_id <$> selected) -> Forall (fun s => so_obligation_id s <> []) selected ->
  is_identifier wid = true -> requiring selected wid = l -> l <> [] ->
  exists w, close_witness (wid, l) = Ok w /\ sw_witness_id w = wid /\
    required_by_obligation_ids w = so_obligation_id <$> l /\ max_of_depths (so_depth <$> l) = Ok (sw_depth w).
Proof.
  intros Hc Hne Hid El Hl. pose proof (requiring_sorted _ wid Hc) as Hr. rewrite El in Hr.
  unfold close_witness. simpl. destruct l as [|s l]; [done|].
  assert (sorted_by_id id (so_obligation_id <$> s :: l) = Ok (so_obligation_id <$> s :: l)) as Hsort.
  { apply sorted_by_id_id; [rewrite list_fmap_id; apply Hr|]. intros x. by apply canonical_scalar. }
  destruct (max_of_depths (so_depth <$> s :: l)) as [d|] eqn:Ed; [|done].
  cbn [mbind res_bind]. rewrite Hsort. cbn [mbind res_bind].
  assert (SelectedWitness_check {| sw_witness_id := wid; sw_depth := d;
    required_by_obligation_ids := so_obligation_id <$> s :: l |} = Ok tt) as ->.
  { unfold SelectedWitness_check. chk; chk_strings; [auto with py|]. split_and!; [done| |done].
    intros i Hi. change (i ∈ so_obligation_id <$> s :: l) in Hi. rewrite <-El in Hi. apply list_elem_of_fmap in Hi as (x & -> & Hx).
    unfold requiring in Hx. apply list_elem_of_filter in Hx as [_ Hx]. rewrite Forall_forall in Hne. auto. }
  eexists; split; [done|]. done.
Qed.

Lemma requiring_elem selected wid s :
  s ∈ requiring selected wid <-> wid ∈ so_required_witness_ids s /\ s ∈ selected.
Proof. unfold requiring. by rewrite list_elem_of_filter. Qed.

Lemma requiring_entry_Some selected wid l :
  requiring_entry selected wid = Some l <-> requiring selected wid = l /\ l <> [].
Proof.
  unfold requiring_entry. destruct (requiring selected wid) as [|x r]; [naive_solver|].
  split; [by intros [= <-]|]. intros [<- _]. done.
Qed.

Lemma requiring_nonempty selected wid :
  requiring selected wid <> [] <-> exists s, s ∈ selected /\ wid ∈ so_required_witness_ids s.
Proof.
  split.
  - intros Hn. destruct (requiring selected wid) as [|s r] eqn:E; [done|].
    exists s. assert (s ∈ requiring selected wid) as [??]%requiring_elem by (rewrite E; set_solver). done.
  - intros (s & Hs & Hw) E. assert (s ∈ requiring selected wid) as Hx by by apply requiring_elem.
    rewrite E in Hx. set_solver.
Qed.

Lemma selects_witness c s wid :
  catalog_ok c -> selects c s -> wid ∈ so_required_witness_ids s -> is_identifier wid = true.
Proof.
  intros Hc (o & Ho & _ & Ew & _) Hwid. rewrite Ew in Hwid.
  by apply (ob_witness_id _ (proj1 (Forall_forall _ _) (ca_obligations _ Hc) o Ho)).
Qed.

Lemma selects_nonempty c s : catalog_ok c -> selects c s -> so_obligation_id s <> [].
Proof.
  intros Hc (o & Ho & -> & _). apply identifier_nonempty.
  apply (ob_id _ (proj1 (Forall_forall _ _) (ca_obligations _ Hc) o Ho)).
Qed.

Lemma close_selected_witnesses_total c selected :
  catalog_ok c -> Forall (selects c) selected -> canonical (so_obligation_id <$> selected) ->
  exists ws, close_selected_witnesses c selected = Ok ws /\ closure_spec selected ws.
Proof.
  intros Hc Hs Hids. unfold close_selected_witnesses.
  destruct (require_witnesses_total c selected Hc Hs) as (m & -> & Hm). cbn [mbind res_bind].
  rewrite Forall_forall in Hs.
  assert (forall wid l, (wid, l) ∈ map_to_list m -> is_identifier wid = true /\ requiring selected wid = l /\ l <> [])
    as Hentry.
  { intros wid l Hin%elem_of_map_to_list. rewrite Hm in Hin. apply requiring_entry_Some in Hin as [E Hn].
    split; [|done]. subst l. apply requiring_nonempty in Hn as (s & Hs' & Hw). by eapply selects_witness; eauto. }
  pose proof (sorted_by_id_total fst (map_to_list m)) as Hsort.
  rewrite Hsort in * by (intros [wid l] Hin; apply Hentry in Hin as [? _]; auto with py).
  specialize (Hsort ltac:(intros [wid l] Hin; apply Hentry in Hin as [? _]; auto with py)).
  pose proof (sorted_by_id_perm _ _ _ Hsort) as Hp.
  pose proof (sorted_by_id_strict _ _ _ Hsort (NoDup_fst_map_to_list m)) as Hst.
  revert Hp Hst. generalize (isort (fun a b => str_leb a.1 b.1) (map_to_list m)). clear Hsort.
  intros entries Hp Hst. cbn [mbind res_bind].
  assert (forall wid l, (wid, l) ∈ entries <-> m !! wid = Some l) as Hel.
  { intros wid l. rewrite Hp. apply elem_of_map_to_list. }
  assert (forall e, e ∈ entries -> exists w, close_witness e = Ok w /\ sw_witness_id w = e.1 /\
    required_by_obligation_ids w = so_obligation_id <$> requiring selected e.1 /\
    max_of_depths (so_depth <$> requiring selected e.1) = Ok (sw_depth w)) as Hclose.
  { intros [wid l] Hin. rewrite Hp in Hin. destruct (Hentry _ _ Hin) as (Hid & El & Hn). simpl. rewrite El.
    apply (close_witness_total selected); try done. apply Forall_forall. intros s Hs'%Hs. by eapply selects_nonempty. }
  destruct (mapR_total close_witness entries) as [ws Hws].
  { intros e He. destruct (Hclose e He) as (w & ? & _). eauto. }
  exists ws. split; [done|].
  assert (sw_witness_id <$> ws = fst <$> entries) as Eids.
  { apply mapR_Ok in Hws. clear -Hws Hclose. induction Hws as [|e w entries ws He Hws IH]; [done|]. csimpl.
    destruct (Hclose e ltac:(set_solver)) as (w' & Hw' & E & _). rewrite He in Hw'. injection Hw' as <-.
    rewrite E. f_equal. apply IH. intros e' He'. apply Hclose. set_solver. }
  assert (forall w, w ∈ ws -> required_by_obligation_ids w = so_obligation_id <$> requiring selected (sw_witness_id w) /\
    max_of_depths (so_depth <$> requiring selected (sw_witness_id w)) = Ok (sw_depth w)) as Hw.
  { intros w Hin. destruct (mapR_elem_inv _ _ _ _ Hws Hin) as (e & He & Hein).
    destruct (Hclose e Hein) as (w' & Hw' & E & H1 & H2). assert (w' = w) as -> by congruence. by rewrite E. }
  split; [| |naive_solver..].
  - rewrite Eids. split; [done|]. apply Forall_fmap, Forall_forall. intros [wid l] Hin. rewrite Hp in Hin.
    apply Hentry in Hin as [? _]. auto with py.
  - intros wid. rewrite Eids, <-requiring_nonempty, list_elem_of_fmap. split.
    + intros ([wid' l] & -> & Hin). rewrite Hp in Hin. apply Hentry in Hin as (_ & E & Hn). simpl. by rewrite E.
    + intros Hn. exists (wid, requiring selected wid). split; [done|]. apply Hel. rewrite Hm.
      by apply requiring_entry_Some.
Qed.

(** ** The closure check of a sealed plan *)

Lemma required_by_inner (i : pystr) (m : gmap pystr (gset pystr)) wids wid :
  foldl (fun m w => <[w := {[i]} ∪ default ∅ (m !! w)]> m) m wids !! wid =
  if decide (wid ∈ wids) then Some ({[i]} ∪ default ∅ (m !! wid)) else m !! wid.
Proof.
  induction wids as [|w wids IH] using rev_ind; [done|]. rewrite foldl_app. simpl.
  destruct (decide (wid = w)) as [->|Hne].
  - rewrite lookup_insert_eq. rewrite (decide_True (P := w ∈ wids ++ [w])) by set_solver. f_equal.
    rewrite IH. case_decide; [|done]. simpl. set_solver.
  - rewrite lookup_insert_ne, IH by done.
    destruct (decide (wid ∈ wids)), (decide (wid ∈ wids ++ [w])); set_solver.
Qed.

Lemma required_by_witness_lookup selected wid :
  required_by_witness selected !! wid =
  match requiring selected wid with [] => None | l => Some (str_set (so_obligation_id <$> l)) end.
Proof.
  unfold required_by_witness. induction selected as [|s l IH] using rev_ind; [done|].
  rewrite foldl_app. simpl. rewrite required_by_inner, requiring_snoc, IH.
  case_decide; [|done]. destruct (requiring l wid) as [|x r]; simpl; unfold str_set; f_equal.
  apply set_eq. intros y. csimpl. rewrite fmap_app. csimpl. set_solver.
Qed.

Lemma depth_lookup selected s :
  NoDup (so_obligation_id <$> selected) -> s ∈ selected ->
  dict_by so_obligation_id so_depth selected !! so_obligation_id s = Some (so_depth s).
Proof. apply dict_by_lookup. Qed.

Lemma depths_of_requiring selected l :
  NoDup (so_obligation_id <$> selected) -> (forall s, s ∈ l -> s ∈ selected) ->
  mapR (fun i => from_option KeyError (dict_by so_obligation_id so_depth selected !! i)) (so_obligation_id <$> l) =
  Ok (so_depth <$> l).
Proof.
  intros Hn Hl. induction l as [|s l IH]; [done|]. csimpl.
  rewrite depth_lookup by (auto; set_solver). simpl. rewrite IH by set_solver. done.
Qed.

Lemma validate_witness_closure_iff selected ws :
  canonical (so_obligation_id <$> selected) -> canonical (sw_witness_id <$> ws) ->
  (forall w, w ∈ ws -> canonical (required_by_obligation_ids w)) ->
  validate_witness_closure selected ws = Ok tt <-> closure_spec selected ws.
Proof.
  intros Hsel Hws Hby. pose proof (canonical_NoDup _ Hsel) as Hnd.
  assert (str_set (sw_witness_id <$> ws) = dom (required_by_witness selected) <->
    forall wid, wid ∈ sw_witness_id <$> ws <-> exists s, s ∈ selected /\ wid ∈ so_required_witness_ids s) as Hdom.
  { rewrite set_eq. unfold str_set. setoid_rewrite elem_of_list_to_set. setoid_rewrite elem_of_dom.
    setoid_rewrite required_by_witness_lookup. setoid_rewrite <-requiring_nonempty.
    split; intros H wid; rewrite (H wid); destruct (requiring selected wid); split; try done; intros []; naive_solver. }
  unfold validate_witness_closure. split.
  - intros H. apply bind_Ok in H as ([] & H1%raise_if_Ok & H). apply bind_Ok in H as (us & H2 & _). bdec.
    rewrite Hdom in H1. split; [done|done| |].
    all: intros w Hw; destruct (mapR_elem _ _ _ _ H2 Hw) as ([] & Hc & _).
    all: apply bind_Ok in Hc as ([] & C1%raise_if_Ok & Hc); apply bind_Ok in Hc as (ex & C2%from_option_Ok & Hc).
    all: apply bind_Ok in Hc as ([] & C3%raise_if_Ok & Hc); apply bind_Ok in Hc as (ds & C4 & Hc).
    all: apply bind_Ok in Hc as (d & C5 & C6%raise_if_Ok); bdec.
    all: rewrite required_by_witness_lookup in C2.
    all: assert (requiring selected (sw_witness_id w) <> []) as Hne
           by (apply requiring_nonempty, H1; by apply list_elem_of_fmap_2).
    all: assert (required_by_obligation_ids w = so_obligation_id <$> requiring selected (sw_witness_id w)) as Eby.
    1,3: apply canonical_unique; [by apply Hby|by apply requiring_sorted|]; intros i;
         destruct (requiring selected (sw_witness_id w)) as [|x r]; [done|]; injection C2 as C2;
         unfold str_set in C2; rewrite set_eq in C2; specialize (C2 i); by rewrite !elem_of_list_to_set in C2.
    + done.
    + rewrite Eby, depths_of_requiring in C4 by (done || intros s [_ ?]%requiring_elem; done).
      by injection C4 as <-.
  - intros [S1 S2 S3 S4]. rewrite bool_decide_eq_false_2 by (intros E; by apply E, Hdom). simpl.
    destruct (mapR_total (fun w =>
      raise_if (negb (bool_decide (str_set (required_by_obligation_ids w) ⊆ str_set (so_obligation_id <$> selected))))
        (ValueError (u "witness coverage references an unselected obligation")) ;;
      expected ← from_option KeyError (required_by_witness selected !! sw_witness_id w);
      raise_if (bool_decide (str_set (required_by_obligation_ids w) <> expected))
        (ValueError (u "witness reverse edges must exactly match obligation requirements")) ;;
      depths ← mapR (fun i => from_option KeyError (dict_by so_obligation_id so_depth selected !! i))
                 (required_by_obligation_ids w);
      expected_depth ← max_of_depths depths;
      raise_if (bool_decide (sw_depth w <> expected_depth))
        (ValueError (u "witness depth must equal its strongest requiring obligation"))) ws) as [us ->]; [|done].
    intros w Hw. exists tt. rewrite (S3 w Hw).
    rewrite bool_decide_eq_true_2.
    2: { unfold str_set. intros i. rewrite !elem_of_list_to_set. intros (s & -> & [_ Hs]%requiring_elem)%list_elem_of_fmap.
         by apply list_elem_of_fmap_2. }
    cbn [negb raise_if mbind res_bind]. rewrite required_by_witness_lookup.
    assert (requiring selected (sw_witness_id w) <> []) as Hne
      by (apply requiring_nonempty, S2; by apply list_elem_of_fmap_2).
    pose proof (S4 w Hw) as Hd. pose proof (depths_of_requiring selected (requiring selected (sw_witness_id w)) Hnd) as Hds.
    rewrite Hds by (intros s [_ ?]%requiring_elem; done).
    destruct (requiring selected (sw_witness_id w)) as [|x r] eqn:Er; [done|]. cbn [from_option mbind res_bind].
    rewrite bool_decide_eq_false_2 by auto. cbn [raise_if mbind res_bind]. rewrite Hd. cbn [mbind res_bind].
    rewrite bool_decide_eq_false_2 by auto. done.
Qed.

(** ** Identities of checked parts can be hashed *)

(** [json_parts] splits the goal that a display is accepted into its values. *)
Ltac json_parts :=
  apply jsonable_obj; cbn [forallb snd]; rewrite ?andb_true_iff'; split_and!; try reflexivity.

Lemma jsonable_canonical l : canonical l -> jsonable (str_list l) = true.
Proof. intros H. apply jsonable_str_list. intros s. by apply canonical_scalar. Qed.

Lemma jsonable_VStr_u s : jsonable (VStr (u s)) = true.
Proof. apply scalar_u. Qed.

Lemma jsonable_hex s : is_sha256_hex s = true -> jsonable (VStr s) = true.
Proof. apply sha256_hex_scalar. Qed.

Lemma depth_str_scalar d : is_unicode_scalar_string (depth_str d) = true.
Proof. destruct d; apply scalar_u. Qed.

Lemma kind_str_scalar k : is_unicode_scalar_string (kind_str k) = true.
Proof. destruct k; apply scalar_u. Qed.

#[export] Hint Resolve jsonable_canonical jsonable_VStr_u jsonable_hex depth_str_scalar kind_str_scalar : py.

Lemma SelectedObligation_check_Ok s :
  SelectedObligation_check s = Ok tt <->
  (so_obligation_id s <> [] /\ is_unicode_scalar_string (so_obligation_id s) = true) /\
  canonical (so_required_witness_ids s) /\ (forall x, x ∈ so_required_witness_ids s -> x <> []) /\
  so_required_witness_ids s <> [].
Proof.
  unfold SelectedObligation_check. split.
  - intros ([] & H1%require_non_empty_string_Ok & H2%require_sorted_unique_strings_Ok)%bind_Ok. naive_solver.
  - intros (H1 & H2 & H3 & H4). chk; chk_strings; naive_solver.
Qed.

Lemma jsonable_selected s : SelectedObligation_check s = Ok tt -> jsonable (SelectedObligation_mapping s) = true.
Proof.
  intros ([_ H1] & H2 & _)%SelectedObligation_check_Ok. unfold SelectedObligation_mapping.
  json_parts; [done|apply depth_str_scalar|auto with py].
Qed.

Lemma jsonable_selected_witness w : SelectedWitness_check w = Ok tt -> jsonable (SelectedWitness_mapping w) = true.
Proof.
  unfold SelectedWitness_check.
  intros ([] & [_ H1]%require_non_empty_string_Ok & (H2 & _)%require_sorted_unique_strings_Ok)%bind_Ok.
  unfold SelectedWitness_mapping. json_parts; [done|apply depth_str_scalar|auto with py].
Qed.

Lemma jsonable_proof p : OmissionProof_check p = Ok tt -> jsonable (OmissionProof_mapping p) = true.
Proof.
  unfold OmissionProof_check, _require_sha256. intros H.
  repeat match type of H with (_ ≫= _) = _ => apply bind_Ok in H as ([] & ? & H) end.
  repeat match goal with
  | E : _require_non_empty_string _ _ = _ |- _ => apply require_non_empty_string_Ok in E as [_ E]
  | E : require_sha256 _ _ = _ |- _ => apply require_sha256_Ok in E
  | E : _require_sorted_unique_strings _ _ _ = _ |- _ => apply require_sorted_unique_strings_Ok in E as (E & _)
  end.
  unfold OmissionProof_mapping. json_parts; auto with py.
Qed.

Lemma jsonable_omitted o :
  OmittedObligation_check o = Ok tt -> OmissionProof_check (oo_proof o) = Ok tt ->
  jsonable (OmittedObligation_mapping o) = true.
Proof.
  unfold OmittedObligation_check.
  intros ([] & H1%raise_if_Ok & (H2 & _)%require_sorted_unique_strings_Ok)%bind_Ok Hp. bdec.
  unfold OmittedObligation_mapping. pose proof Hp as Hp'. unfold OmissionProof_check in Hp'.
  apply bind_Ok in Hp' as ([] & [_ Hs]%require_non_empty_string_Ok & _).
  json_parts; [by rewrite H1|auto with py|by apply jsonable_proof].
Qed.

Lemma jsonable_fallback f : PlanFallback_check f = Ok tt -> jsonable (PlanFallback_mapping f) = true.
Proof.
  unfold PlanFallback_check. intros H. apply bind_Ok in H as ([] & H1%raise_if_Ok & H).
  apply bind_Ok in H as ([] & _ & H). apply bind_Ok in H as ([] & H2 & H3%raise_if_Ok). bdec.
  unfold PlanFallback_mapping. json_parts.
  - simpl. unfold is_safe_int, MAX_SAFE_JSON_INTEGER. apply Z.leb_le. lia.
  - apply jsonable_str_list. rewrite H3. intros s. unfold TRIGGERS. rewrite !elem_of_cons, elem_of_nil.
    intros [->|[->|[->|[->|[]]]]]; apply scalar_u.
  - apply jsonable_opt_str. intros r Er. rewrite Er in H2. by apply require_non_empty_string_Ok in H2 as [_ ?].
Qed.

Lemma PlanEvidence_check_Ok e :
  PlanEvidence_check e = Ok tt <->
  (forall i, ev_obligation_id e = Some i -> i <> [] /\ is_unicode_scalar_string i = true) /\
  message e <> [] /\ is_unicode_scalar_string (message e) = true.
Proof.
  unfold PlanEvidence_check. split.
  - intros ([] & H1 & H2%require_non_empty_string_Ok)%bind_Ok. split; [|done].
    intros i Ei. rewrite Ei in H1. by apply require_non_empty_string_Ok in H1.
  - intros [H1 H2]. chk; [|by apply require_non_empty_string_Ok].
    destruct (ev_obligation_id e); [apply require_non_empty_string_Ok; auto|done].
Qed.

Lemma jsonable_evidence e : PlanEvidence_check e = Ok tt -> jsonable (PlanEvidence_mapping e) = true.
Proof.
  intros (H1 & _ & H2)%PlanEvidence_check_Ok. unfold PlanEvidence_mapping.
  json_parts; [apply kind_str_scalar| |done]. apply jsonable_opt_str. naive_solver.
Qed.

Lemma evidence_id_scalar e :
  PlanEvidence_check e = Ok tt -> is_unicode_scalar_string (evidence_sort_id e) = true.
Proof.
  intros (H1 & _ & H2)%PlanEvidence_check_Ok. unfold evidence_sort_id.
  apply scalar_app_2; [apply kind_str_scalar|]. apply scalar_app_2; [apply scalar_u|].
  apply scalar_app_2; [|auto with py]. destruct (ev_obligation_id e) as [i|]; simpl; [naive_solver|done].
Qed.

(** ** Sealing a plan *)

(** What [_finalize_plan] is called with. *)
Record plan_parts (c : ValidationCatalog) (selected : list SelectedObligation) (omitted : list OmittedObligation)
    (fb : PlanFallback) (ev : list PlanEvidence) : Prop := {
  pt_selects : Forall (selects c) selected;
  pt_selected_ids : canonical (so_obligation_id <$> selected);
  pt_omitted_ids : canonical (oo_obligation_id <$> omitted);
  pt_disjoint : forall i, i ∈ so_obligation_id <$> selected -> i ∈ oo_obligation_id <$> omitted -> False;
  pt_selected_ok : Forall (fun s => SelectedObligation_check s = Ok tt) selected;
  pt_omitted_ok : Forall (fun o => OmittedObligation_check o = Ok tt /\ OmissionProof_check (oo_proof o) = Ok tt) omitted;
  pt_fallback_ok : PlanFallback_check fb = Ok tt;
  pt_evidence_ok : Forall (fun e => PlanEvidence_check e = Ok tt) ev;
}.

(** A sealed plan: its fields, its closure, its identity. *)
Record plan_sealed `{Sha256} (input : PlanningInput) (pol : PlanningPolicy) (selected : list SelectedObligation)
    (omitted : list OmittedObligation) (fb : PlanFallback) (ev : list PlanEvidence) (p : DeterministicPlan) : Prop := {
  sl_selected : selected_obligations p ≡ₚ selected;
  sl_omitted : omitted_obligations p ≡ₚ omitted;
  sl_fallback : fallback p = fb;
  sl_evidence : evidence p ≡ₚ ev;
  sl_config : config_epoch_id p = epoch_id (policy input);
  sl_input : plan_input_hash p = input_hash input;
  sl_diff : plan_diff_hash p = diff_hash (diff input);
  sl_compiled : compiled_policy_hash p = pp_compiled_policy_hash pol;
  sl_policy : plan_policy_hash p = pp_policy_hash pol;
  sl_graph : dependency_graph_hash p = graph_hash (dependency_graph input);
  sl_catalog : plan_catalog_hash p = pp_catalog_hash pol;
  sl_epoch : hash_mapping (RepositoryEpoch_mapping (repo_epoch input)) = Ok (repo_epoch_hash p);
  sl_witnesses : close_selected_witnesses (catalog pol) (selected_obligations p) = Ok (selected_witnesses p);
  sl_check : DeterministicPlan_check p = Ok tt;
}.

Lemma finalize_plan_sealed `{Sha256} input pol selected omitted fb ev p :
  _finalize_plan input pol selected omitted fb ev = Ok p -> plan_sealed input pol selected omitted fb ev p.
Proof.
  unfold _finalize_plan. intros Hf. apply bind_Ok in Hf as (sel & Hsel & Hf). apply bind_Ok in Hf as (ws & Hws & Hf).
  apply bind_Ok in Hf as (om & Hom & Hf). apply bind_Ok in Hf as (oe & Hoe & Hf).
  apply bind_Ok in Hf as (eh & Heh & Hf). apply bind_Ok in Hf as (h & Hh & Hf).
  apply bind_Ok in Hf as ([] & Hc & Hf). injection Hf as <-.
  split; cbn; try reflexivity; [by eapply sorted_by_id_perm..|done|done|exact Hc].
Qed.

Lemma jsonable_plan p :
  Forall (fun s => SelectedObligation_check s = Ok tt) (selected_obligations p) ->
  Forall (fun w => SelectedWitness_check w = Ok tt) (selected_witnesses p) ->
  Forall (fun o => OmittedObligation_check o = Ok tt /\ OmissionProof_check (oo_proof o) = Ok tt) (omitted_obligations p) ->
  PlanFallback_check (fallback p) = Ok tt ->
  Forall (fun e => PlanEvidence_check e = Ok tt) (evidence p) ->
  Forall (fun h => is_unicode_scalar_string h = true)
    [plan_schema_version p; planner_version p; config_epoch_id p; repo_epoch_hash p; plan_input_hash p;
     plan_diff_hash p; compiled_policy_hash p; plan_policy_hash p; dependency_graph_hash p; plan_catalog_hash p] ->
  jsonable (identity_mapping p) = true.
Proof.
  rewrite !Forall_forall. intros H1 H2 H3 H4 H5 H6. unfold identity_mapping. json_parts.
  1-10: apply H6; set_solver.
  - apply jsonable_arr. intros s Hs. by apply jsonable_selected, H1.
  - apply jsonable_arr. intros s Hs. by apply jsonable_selected_witness, H2.
  - apply jsonable_arr. intros s Hs. apply jsonable_omitted; by apply H3.
  - by apply jsonable_fallback.
  - apply jsonable_arr. intros s Hs. by apply jsonable_evidence, H5.
Qed.

Lemma close_witness_checked e w : close_witness e = Ok w -> SelectedWitness_check w = Ok tt.
Proof.
  unfold close_witness. intros H. apply bind_Ok in H as (d & _ & H). apply bind_Ok in H as (ids & _ & H).
  apply bind_Ok in H as ([] & Hc & H). injection H as <-. exact Hc.
Qed.

Lemma close_selected_witnesses_checked c l ws :
  close_selected_witnesses c l = Ok ws -> Forall (fun w => SelectedWitness_check w = Ok tt) ws.
Proof.
  unfold close_selected_witnesses. intros H. apply bind_Ok in H as (m & _ & H). apply bind_Ok in H as (es & _ & H).
  apply Forall_forall. intros w Hw. destruct (mapR_elem_inv _ _ _ _ H Hw) as (e & He & _).
  by eapply close_witness_checked.
Qed.

Lemma str_set_disjoint (l1 l2 : list pystr) :
  (forall i, i ∈ l1 -> i ∈ l2 -> False) -> str_set l1 ∩ str_set l2 = ∅.
Proof. intros Hd. apply set_eq. intros i. unfold str_set. set_solver. Qed.

(** A plan whose parts are checked passes its own constructor. *)
Lemma plan_check_total `{Sha256} p h :
  plan_schema_version p = u "deterministic-plan/v1" -> planner_version p = u "planning-core/v1" ->
  Forall (fun h => is_sha256_hex h = true)
    [config_epoch_id p; repo_epoch_hash p; plan_input_hash p; plan_diff_hash p; compiled_policy_hash p;
     plan_policy_hash p; dependency_graph_hash p; plan_catalog_hash p] ->
  canonical (so_obligation_id <$> selected_obligations p) ->
  canonical (oo_obligation_id <$> omitted_obligations p) ->
  (forall i, i ∈ so_obligation_id <$> selected_obligations p -> i ∈ oo_obligation_id <$> omitted_obligations p -> False) ->
  closure_spec (selected_obligations p) (selected_witnesses p) ->
  hash_mapping (identity_mapping p) = Ok h -> plan_id p = u "dynamic_ci_plan_" ++ take 32 h ->
  DeterministicPlan_check p = Ok tt.
Proof.
  intros Ev Epv Hhex Hsel Hom Hdis Hcl Hh Hid. rewrite !Forall_cons in Hhex.
  destruct Hhex as (? & ? & ? & ? & ? & ? & ? & ? & _).
  unfold DeterministicPlan_check, _require_sha256. chk; chk_strings.
  - rewrite Hid. split; [apply u_cons_nonempty|]. apply scalar_app_2; [apply scalar_u|].
    apply scalar_take. apply sha256_hex_scalar. by eapply hash_mapping_hex.
  - rewrite Ev. apply bool_decide_eq_false_2. intros Hn. by apply Hn.
  - rewrite Epv. apply bool_decide_eq_false_2. intros Hn. by apply Hn.
  - exact Hsel.
  - apply (cs_ids _ _ Hcl).
  - exact Hom.
  - apply negb_false_iff', bool_decide_eq_true_2. by apply str_set_disjoint.
  - apply validate_witness_closure_iff; [done|apply Hcl| |done].
    intros w Hw. rewrite (cs_by _ _ Hcl w Hw). by apply requiring_sorted.
  - rewrite Hh. cbn [mbind res_bind]. apply raise_if_Ok, bool_decide_eq_false_2.
    intros Hn. by apply Hn.
Qed.

Lemma sorted_by_id_canonical {A} (f : A -> pystr) l :
  canonical (f <$> l) -> sorted_by_id f l = Ok l.
Proof.
  intros [Hs Hf]. apply sorted_by_id_id; [done|]. rewrite Forall_fmap, Forall_forall in Hf. done.
Qed.

Lemma finalize_plan_total `{Sha256} input pol selected omitted fb ev :
  catalog_ok (catalog pol) -> hashes_ok input pol -> plan_parts (catalog pol) selected omitted fb ev ->
  exists p, _finalize_plan input pol selected omitted fb ev = Ok p.
Proof.
  intros Hc Hh [P1 P2 P3 P4 P5 P6 P7 P8]. unfold _finalize_plan.
  rewrite (sorted_by_id_canonical so_obligation_id selected P2). cbn [mbind res_bind].
  destruct (close_selected_witnesses_total (catalog pol) selected Hc P1 P2) as (ws & Ews & Hcl).
  rewrite Ews. cbn [mbind res_bind].
  rewrite (sorted_by_id_canonical oo_obligation_id omitted P3). cbn [mbind res_bind].
  rewrite (sorted_by_id_total evidence_sort_id ev).
  2: { intros e He. apply evidence_id_scalar. rewrite Forall_forall in P8. auto. }
  cbn [mbind res_bind]. destruct (ho_epoch _ _ Hh) as [eh Heh]. rewrite Heh. cbn [mbind res_bind].
  set (oe := isort _ ev).
  pose (p0 i := {| plan_id := i; plan_schema_version := u "deterministic-plan/v1";
     planner_version := u "planning-core/v1"; config_epoch_id := epoch_id (policy input);
     repo_epoch_hash := eh; plan_input_hash := input_hash input;
     plan_diff_hash := diff_hash (diff input); compiled_policy_hash := pp_compiled_policy_hash pol;
     plan_policy_hash := pp_policy_hash pol; dependency_graph_hash := graph_hash (dependency_graph input);
     plan_catalog_hash := pp_catalog_hash pol; selected_obligations := selected; selected_witnesses := ws;
     omitted_obligations := omitted; fallback := fb; evidence := oe |}).
  pose proof (hash_mapping_hex _ _ Heh) as Hhex. destruct Hh as [_ ? ? ? ? ? ? ?].
  destruct (hash_mapping_total (identity_mapping (p0 []))) as (h & Hhash & _).
  { apply jsonable_plan; cbn.
    - exact P5.
    - exact (close_selected_witnesses_checked _ _ _ Ews).
    - exact P6.
    - exact P7.
    - unfold oe. rewrite isort_perm. exact P8.
    - repeat (constructor; [first [apply scalar_u | apply sha256_hex_scalar; assumption]|]). constructor. }
  change (hash_mapping (obj _)) with (hash_mapping (identity_mapping (p0 []))). rewrite Hhash.
  cbn [mbind res_bind].
  assert (DeterministicPlan_check (p0 (u "dynamic_ci_plan_" ++ take 32 h)) = Ok tt) as Hcheck.
  { apply (plan_check_total _ h); cbn; try assumption; try reflexivity.
    repeat (constructor; [assumption|]). constructor. }
  exists (p0 (u "dynamic_ci_plan_" ++ take 32 h)).
  change ((DeterministicPlan_check (p0 (u "dynamic_ci_plan_" ++ take 32 h)) ;;
    Ok (p0 (u "dynamic_ci_plan_" ++ take 32 h))) = Ok (p0 (u "dynamic_ci_plan_" ++ take 32 h))).
  by rewrite Hcheck.
Qed.
