(* ===== verification/Planner.v ===== *)
(** * Correctness of the planner

    The properties of [planning_core]: when an obligation is omitted, that a
    plan partitions the catalog, that fallback plans are conservative, that
    selected witnesses close the selection, and that planning returns. *)

From stdpp Require Import base gmap sets list sorting strings.
From Stdlib Require Import ZArith Lia.
From S2P Require Import Prelude Text PathPatterns PyFloat CanonicalJson Hashing Contract RepoContext Planning ImpactFacts PlannerFacts.

(** ** Specifications *)

(** The condition under which leaving an obligation out is justified, on the
    input alone: the policy allows it, nothing invalidates the input, no global
    risk path changed, every path the change reaches is in the graph, and no
    reached path or risk class is the obligation's responsibility. *)
Record omission_justified (input : PlanningInput) (changed : list pystr) (o : ValidationObligation) : Prop := {
  oj_allowed : omit_allowed o = true;
  oj_admitted : fallback_reasons input = [];
  oj_global : forall p, p ∈ changed -> is_global_risk input p = false;
  oj_known : forall p, ¬ reached_unknown (node_map input) changed p;
  oj_paths : forall p, reached (node_map input) changed p -> path_in_responsibility o p = false;
  oj_risks : forall r, reached_risk (node_map input) changed r -> r ∉ responsibility_risk_classes o;
}.

Definition coordinates_match (input : PlanningInput) (pol : PlanningPolicy) : Prop :=
  pp_config_epoch_id pol = epoch_id (policy input) /\
  pp_compiled_policy_hash pol = ps_compiled_policy_hash (policy input) /\
  pp_policy_hash pol = ps_policy_hash (policy input).

(** The selection of an obligation at a depth. *)
Definition selection (depth : ValidationObligation -> ValidationDepth) (o : ValidationObligation) : SelectedObligation :=
  {| so_obligation_id := obligation_id o; so_depth := depth o; so_required_witness_ids := required_witness_ids o |}.

(** What the constructors of the input's parts guarantee. *)
Record input_ok `{Sha256} (input : PlanningInput) : Prop := {
  io_epoch : exists h, hash_mapping (RepositoryEpoch_mapping (repo_epoch input)) = Ok h;
  io_changed : exists c, changed_paths (diff input) = Ok c;
  io_diff : is_sha256_hex (diff_hash (diff input)) = true;
  io_graph : DependencyGraphContext_check (dependency_graph input) = Ok tt;
  io_policy : PolicySnapshot_check (policy input) = Ok tt;
  io_hash : is_sha256_hex (input_hash input) = true;
  io_reasons : canonical (fallback_reasons input) /\ forall r, r ∈ fallback_reasons input -> r <> [];
}.

Definition policy_ok (pol : PlanningPolicy) : Prop :=
  PlanningPolicy_check pol = Ok tt /\ catalog_ok (catalog pol).

(** ** The branches of [plan] *)

Lemma rejection_reasons_nil input pol rs :
  planner_rejection_reasons input pol = Ok rs -> rs = [] <-> coordinates_match input pol.
Proof.
  unfold planner_rejection_reasons, coordinates_match. intros Hr. split.
  - intros ->. apply sorted_unique_nil in Hr. no_reasons. done.
  - intros (E1 & E2 & E3). rewrite !bool_decide_eq_false_2 in Hr by (intros Hn; by apply Hn).
    cbn in Hr. by injection Hr as <-.
Qed.

Lemma admission_reasons_nil input pol rs :
  planner_admission_reasons input pol = Ok rs -> coordinates_match input pol ->
  rs = [] <-> fallback_reasons input = [].
Proof.
  unfold planner_admission_reasons. intros (rj & Hrj & Hrs)%bind_Ok Hm.
  apply (rejection_reasons_nil _ _ _ Hrj) in Hm as ->. rewrite app_nil_r in Hrs. split.
  - intros ->. by apply sorted_unique_nil in Hrs.
  - intros E. rewrite E in Hrs. cbn in Hrs. by injection Hrs as <-.
Qed.

Inductive plan_branch `{Sha256} (input : PlanningInput) (pol : PlanningPolicy) : PlanningResult -> Prop :=
  | branch_rejected rs :
      ¬ coordinates_match input pol -> rs <> [] -> plan_branch input pol (PlanningRejected rs)
  | branch_fallback reason p :
      coordinates_match input pol -> fallback_reasons input <> [] ->
      _full_ci_plan input pol reason = Ok p -> plan_branch input pol (Planned p)
  | branch_unknown changed impact reason p q :
      coordinates_match input pol -> impact_spec input changed impact -> q ∈ unknown_paths impact ->
      _full_ci_plan input pol reason = Ok p -> plan_branch input pol (Planned p)
  | branch_decided changed impact st fb p :
      coordinates_match input pol -> fallback_reasons input = [] -> impact_spec input changed impact ->
      unknown_paths impact = [] ->
      foldR (plan_obligation input pol impact) (PlanLists [] [] []) (obligations (catalog pol)) = Ok st ->
      PlanFallback_new (fallback_timeout_seconds pol) false None = Ok fb ->
      _finalize_plan input pol (pl_selected st) (pl_omitted st) fb (pl_evidence st) = Ok p ->
      plan_branch input pol (Planned p).

Lemma plan_branches `{Sha256} input pol r : plan input pol = Ok r -> plan_branch input pol r.
Proof.
  unfold plan. intros (rs & Hrs & Hp)%bind_Ok. pose proof (rejection_reasons_nil _ _ _ Hrs) as Hm.
  case_bool_decide as Er.
  { unfold PlanningRejected_new in Hp. apply bind_Ok in Hp as ([] & _ & [= <-]).
    apply branch_rejected; [|done]. by rewrite <-Hm. }
  apply Hm in Er. apply bind_Ok in Hp as (ar & Har & Hp).
  pose proof (admission_reasons_nil _ _ _ Har Er) as Ha. case_bool_decide as Ea.
  { apply fmap_Ok in Hp as (p & Hp & ->). eapply branch_fallback; [done| |exact Hp]. by rewrite <-Ha. }
  apply Ha in Ea. apply bind_Ok in Hp as (impact & Himp & Hp).
  destruct (analyze_impact_spec _ _ Himp) as (changed & Hs).
  destruct (unknown_paths impact) as [|q qs] eqn:Eu.
  - rewrite bool_decide_eq_false_2 in Hp by (intros Hn; by apply Hn).
    apply bind_Ok in Hp as (st & Hst & Hp). apply bind_Ok in Hp as (fb & Hfb & Hp).
    apply fmap_Ok in Hp as (p & Hp & ->). by eapply branch_decided.
  - rewrite bool_decide_eq_true_2 in Hp by done. apply fmap_Ok in Hp as (p & Hp & ->).
    refine (branch_unknown input pol changed impact _ p q Er Hs _ Hp). rewrite Eu. set_solver.
Qed.

(** *** The obligation loop *)

Record lists_spec `{Sha256} (input : PlanningInput) (pol : PlanningPolicy) (impact : ImpactAnalysis)
    (pre : list ValidationObligation) (st : plan_lists) : Prop := {
  ls_selected : pl_selected st = selection default_depth <$> filter (fun o => omits impact o = false) pre;
  ls_omitted : oo_obligation_id <$> pl_omitted st = obligation_id <$> filter (fun o => omits impact o = true) pre;
  ls_proofs : forall om, om ∈ pl_omitted st -> exists o, o ∈ pre /\ omits impact o = true /\
    oo_obligation_id om = obligation_id o /\ oo_required_witness_ids om = required_witness_ids o /\
    proof_for input pol o (oo_proof om);
  ls_selected_ok : Forall (fun s => SelectedObligation_check s = Ok tt) (pl_selected st);
  ls_omitted_ok : Forall (fun o => OmittedObligation_check o = Ok tt /\ OmissionProof_check (oo_proof o) = Ok tt)
    (pl_omitted st);
  ls_evidence_ok : Forall (fun e => PlanEvidence_check e = Ok tt) (pl_evidence st);
  ls_evidence : (fun e => (kind e, ev_obligation_id e)) <$> pl_evidence st =
    (fun o => (if omits impact o then KOmitted else KSelected, Some (obligation_id o))) <$> pre;
}.

Lemma plan_obligation_step `{Sha256} input pol impact pre o st st' :
  lists_spec input pol impact pre st -> plan_obligation input pol impact st o = Ok st' ->
  lists_spec input pol impact (pre ++ [o]) st'.
Proof.
  intros [L1 L2 L3 L4 L5 L6 L7] Hs. unfold plan_obligation in Hs. apply bind_Ok in Hs as (d & Hd & Hs).
  apply build_omission_proof_spec in Hd. destruct d as [pf|reason].
  - destruct Hd as (Ho & Hpf & Hck). unfold OmittedObligation_new, PlanEvidence_new in Hs.
    apply bind_Ok in Hs as (om & Hom & Hs). apply bind_Ok in Hom as ([] & Hc1 & Hom). injection Hom as <-.
    apply bind_Ok in Hs as (ev & Hev & Hs). apply bind_Ok in Hev as ([] & Hc2 & Hev). injection Hev as <-.
    injection Hs as <-. split; cbn.
    + rewrite filter_app, filter_cons_False, app_nil_r by congruence. exact L1.
    + rewrite filter_app, filter_cons_True by done. rewrite !fmap_app, L2. done.
    + intros om [Hom| ->%list_elem_of_singleton]%elem_of_app.
      * destruct (L3 om Hom) as (o' & ? & ?). exists o'. split; [set_solver|done].
      * exists o. cbn. split; [set_solver|]. split_and!; [exact Ho|reflexivity|reflexivity|exact Hpf].
    + exact L4.
    + apply Forall_app. split; [exact L5|]. constructor; [|constructor]. split; [exact Hc1|exact Hck].
    + apply Forall_app. split; [exact L6|]. by constructor.
    + rewrite !fmap_app, L7. csimpl. by rewrite Ho.
  - unfold SelectedObligation_new, PlanEvidence_new in Hs.
    apply bind_Ok in Hs as (s & Hs1 & Hs). apply bind_Ok in Hs1 as ([] & Hc1 & Hs1). injection Hs1 as <-.
    apply bind_Ok in Hs as (ev & Hev & Hs). apply bind_Ok in Hev as ([] & Hc2 & Hev). injection Hev as <-.
    injection Hs as <-. split; cbn.
    + rewrite filter_app, filter_cons_True by done. rewrite fmap_app, L1. done.
    + rewrite filter_app, filter_cons_False, app_nil_r by congruence. exact L2.
    + intros om Hom. destruct (L3 om Hom) as (o' & ? & ?). exists o'. split; [set_solver|done].
    + apply Forall_app. split; [exact L4|]. by constructor.
    + exact L5.
    + apply Forall_app. split; [exact L6|]. by constructor.
    + rewrite !fmap_app, L7. csimpl. by rewrite Hd.
Qed.

Lemma lists_spec_nil `{Sha256} input pol impact : lists_spec input pol impact [] (PlanLists [] [] []).
Proof. split; cbn; try constructor. set_solver. Qed.

Lemma plan_obligations_spec `{Sha256} input pol impact os st :
  foldR (plan_obligation input pol impact) (PlanLists [] [] []) os = Ok st -> lists_spec input pol impact os st.
Proof.
  apply (foldR_inv _ (lists_spec input pol impact)); [apply lists_spec_nil|].
  intros pre o s1 s2 Hs _ Hst. by eapply plan_obligation_step.
Qed.

Lemma omits_justified input changed impact o :
  impact_spec input changed impact -> fallback_reasons input = [] -> unknown_paths impact = [] ->
  omits impact o = true <-> omission_justified input changed o.
Proof.
  intros [_ S1 S2 S3 S4 _] Hr Hu. unfold omits. rewrite !andb_true_iff', !Bool.negb_true_iff.
  rewrite bool_decide_eq_true, !existsb_false. split.
  - intros [[[H1 H2] H3] H4]. split; [done|done| | | |].
    + intros p Hp. destruct (is_global_risk input p) eqn:E; [|done]. exfalso.
      assert (p ∈ ia_global_risk_paths impact) as Hx by by apply S4. rewrite H2 in Hx. set_solver.
    + intros p Hp%S3. rewrite Hu in Hp. set_solver.
    + intros p Hp%S1. by apply H3.
    + intros r Hr'%S2 Hin. specialize (H4 r Hin). by bdec.
  - intros [J1 _ J2 J3 J4 J5]. split_and!; [done| | |].
    + destruct (ia_global_risk_paths impact) as [|p l] eqn:E; [done|]. exfalso.
      assert (p ∈ p :: l) as Hp by set_solver. apply S4 in Hp as [Hp Hg]. by rewrite J2 in Hg.
    + intros p Hp%S1. by apply J4.
    + intros r Hin. apply bool_decide_eq_false_2. intros Hr'%S2. by apply (J5 r).
Qed.

(** *** Fallback plans *)

Record fallback_plan `{Sha256} (input : PlanningInput) (pol : PlanningPolicy) (p : DeterministicPlan) : Prop := {
  fp_sealed : plan_sealed input pol (selection full_depth <$> obligations (catalog pol)) [] (fallback p) (evidence p) p;
  fp_triggered : triggered (fallback p) = true;
  fp_reason : exists reason, PlanFallback_new (fallback_timeout_seconds pol) true (Some reason) = Ok (fallback p) /\
    exists ev, PlanEvidence_new KFallback None reason = Ok ev /\ evidence p = [ev];
}.

Lemma full_ci_selection os l :
  mapR (fun o => SelectedObligation_new (obligation_id o) (full_depth o) (required_witness_ids o)) os = Ok l ->
  l = selection full_depth <$> os.
Proof.
  intros Hl%mapR_Ok. induction Hl as [|o s os l Hs Hl IH]; [done|]. csimpl. f_equal; [|done].
  unfold SelectedObligation_new in Hs. apply bind_Ok in Hs as ([] & _ & Hs). by injection Hs as <-.
Qed.

Lemma full_ci_plan_fallback `{Sha256} input pol reason p :
  _full_ci_plan input pol reason = Ok p -> fallback_plan input pol p.
Proof.
  unfold _full_ci_plan. intros (sel & Hsel & Hp)%bind_Ok. apply full_ci_selection in Hsel as ->.
  apply bind_Ok in Hp as (fb & Hfb & Hp). apply bind_Ok in Hp as (ev & Hev & Hp).
  apply finalize_plan_sealed in Hp as Hs. pose proof (sl_fallback _ _ _ _ _ _ _ Hs) as E.
  pose proof (sl_evidence _ _ _ _ _ _ _ Hs) as Ee. apply Permutation_singleton_r in Ee.
  split; [by rewrite E, Ee| |rewrite E, Ee; eauto]. rewrite E. unfold PlanFallback_new in Hfb.
  apply bind_Ok in Hfb as ([] & _ & Hfb). by injection Hfb as <-.
Qed.

Lemma filter_bool_perm {A} (f : A -> bool) l :
  filter (fun x => f x = false) l ++ filter (fun x => f x = true) l ≡ₚ l.
Proof.
  induction l as [|x l IH]; [done|]. rewrite !filter_cons.
  destruct (f x); repeat case_decide; try done; [rewrite <-Permutation_middle|]; by constructor.
Qed.

Lemma selection_ids depth (os : list ValidationObligation) : so_obligation_id <$> (selection depth <$> os) = obligation_id <$> os.
Proof. rewrite <-list_fmap_compose. done. Qed.

(** The shape of every plan. *)
Record decided_plan `{Sha256} (input : PlanningInput) (pol : PlanningPolicy) (changed : list pystr)
    (impact : ImpactAnalysis) (st : plan_lists) (p : DeterministicPlan) : Prop := {
  dp_reasons : fallback_reasons input = [];
  dp_impact : impact_spec input changed impact;
  dp_known : unknown_paths impact = [];
  dp_lists : lists_spec input pol impact (obligations (catalog pol)) st;
  dp_sealed : plan_sealed input pol (pl_selected st) (pl_omitted st) (fallback p) (pl_evidence st) p;
  dp_timeout : PlanFallback_new (fallback_timeout_seconds pol) false None = Ok (fallback p);
  dp_triggered : triggered (fallback p) = false;
}.

Definition must_fall_back (input : PlanningInput) : Prop :=
  fallback_reasons input <> [] \/
  exists changed q, changed_paths (diff input) = Ok changed /\ reached_unknown (node_map input) changed q.

Definition plan_shape `{Sha256} (input : PlanningInput) (pol : PlanningPolicy) (p : DeterministicPlan) : Prop :=
  (fallback_plan input pol p /\ must_fall_back input) \/
  exists changed impact st, decided_plan input pol changed impact st p.

Lemma plan_has_shape `{Sha256} input pol p : plan input pol = Ok (Planned p) -> plan_shape input pol p.
Proof.
  intros Hp. apply plan_branches in Hp. remember (Planned p) as r eqn:Er.
  destruct Hp as [rs|reason p' _ Hr Hf|changed impact reason p' q _ Hs Hq Hf
    |changed impact st fb p' _ Hr Hs Hu Hst Hfb Hf]; [done|injection Er as ->..].
  - left. split; [by eapply full_ci_plan_fallback|by left].
  - left. split; [by eapply full_ci_plan_fallback|]. right. exists changed, q.
    split; [apply Hs|]. by apply (is_unknown _ _ _ Hs).
  - apply finalize_plan_sealed in Hf. pose proof (sl_fallback _ _ _ _ _ _ _ Hf) as Efb.
    right. exists changed, impact, st. split; [exact Hr|exact Hs|exact Hu| | | |].
    + by apply plan_obligations_spec.
    + rewrite Efb. exact Hf.
    + rewrite Efb. exact Hfb.
    + rewrite Efb. unfold PlanFallback_new in Hfb. apply bind_Ok in Hfb as ([] & _ & Hfb). by injection Hfb as <-.
Qed.

Lemma plan_partition_facts `{Sha256} input pol p :
  plan input pol = Ok (Planned p) ->
  (so_obligation_id <$> selected_obligations p) ++ (oo_obligation_id <$> omitted_obligations p)
    ≡ₚ obligation_id <$> obligations (catalog pol) /\
  (triggered (fallback p) = true -> omitted_obligations p = []) /\
  (forall s, s ∈ selected_obligations p -> exists o, o ∈ obligations (catalog pol) /\
     s = selection (if triggered (fallback p) then full_depth else default_depth) o).
Proof.
  intros Hp. apply plan_has_shape in Hp as [[[Hs Ht _] _]|(c' & impact & st & [Hr Himp Hu Hl Hs _ Ht])]; rewrite Ht.
  - pose proof (sl_omitted _ _ _ _ _ _ _ Hs) as Ho. apply Permutation_nil_r in Ho. rewrite Ho. split_and!.
    + by rewrite (sl_selected _ _ _ _ _ _ _ Hs), selection_ids, app_nil_r.
    + done.
    + intros s Hin. rewrite (sl_selected _ _ _ _ _ _ _ Hs) in Hin.
      apply list_elem_of_fmap in Hin as (o & -> & Ho'). eauto.
  - split_and!; [|done|].
    + rewrite (sl_selected _ _ _ _ _ _ _ Hs), (sl_omitted _ _ _ _ _ _ _ Hs).
      rewrite (ls_selected _ _ _ _ _ Hl), (ls_omitted _ _ _ _ _ Hl), selection_ids, <-fmap_app.
      by rewrite filter_bool_perm.
    + intros s Hin. rewrite (sl_selected _ _ _ _ _ _ _ Hs), (ls_selected _ _ _ _ _ Hl) in Hin.
      apply list_elem_of_fmap in Hin as (o & -> & [_ Ho]%list_elem_of_filter). eauto.
Qed.

Lemma plan_omission_facts `{Sha256} input pol p changed o :
  plan input pol = Ok (Planned p) ->
  catalog_ok (catalog pol) ->
  changed_paths (diff input) = Ok changed ->
  o ∈ obligations (catalog pol) ->
  obligation_id o ∈ oo_obligation_id <$> omitted_obligations p <-> omission_justified input changed o.
Proof.
  intros Hp Hc Hch Ho. apply plan_has_shape in Hp as [[[Hs _ _] Hwhy]|(c' & impact & st & [Hr Himp Hu Hl Hs _ _])].
  - rewrite (sl_omitted _ _ _ _ _ _ _ Hs). split; [set_solver|]. intros [_ J1 _ J3 _ _].
    destruct Hwhy as [Hne|(c' & q & E & Hq)]; [done|]. replace c' with changed in * by congruence.
    by destruct (J3 q).
  - destruct (is_changed _ _ _ Himp) as [E _]. replace c' with changed in * by congruence.
    rewrite (sl_omitted _ _ _ _ _ _ _ Hs), (ls_omitted _ _ _ _ _ Hl).
    rewrite <-(omits_justified _ _ _ o Himp Hr Hu), list_elem_of_fmap. split.
    + intros (o' & Eid & [Ho1 Ho2]%list_elem_of_filter). replace o with o'; [done|].
      pose proof (catalog_lookup _ _ Hc Ho) as E1. rewrite Eid, (catalog_lookup _ _ Hc Ho2) in E1. congruence.
    + intros Hom. exists o. split; [done|]. by apply list_elem_of_filter.
Qed.

(** ** Properties *)

(** C2: a plan omits an obligation exactly when the omission is justified by
    the input: the policy allows it, nothing invalidates the input, no global
    risk path changed, every path reachable from the change in the dependency
    graph is known, and no reachable path or risk class is the obligation's
    responsibility. *)
Theorem plan_omits_exactly_justified `{Sha256} input pol p changed o :
  plan input pol = Ok (Planned p) ->
  catalog_ok (catalog pol) ->
  changed_paths (diff input) = Ok changed ->
  o ∈ obligations (catalog pol) ->
  obligation_id o ∈ oo_obligation_id <$> omitted_obligations p <-> omission_justified input changed o.
Proof. apply plan_omission_facts. Qed.

(** C10: a plan decides every obligation of the catalog exactly once; a selected
    one keeps its witnesses and is at its default depth, or at its full depth
    when the plan is a fallback, which omits nothing. *)
Theorem plan_partitions_catalog `{Sha256} input pol p :
  plan input pol = Ok (Planned p) ->
  (so_obligation_id <$> selected_obligations p) ++ (oo_obligation_id <$> omitted_obligations p)
    ≡ₚ obligation_id <$> obligations (catalog pol) /\
  (triggered (fallback p) = true -> omitted_obligations p = []) /\
  (forall s, s ∈ selected_obligations p -> exists o, o ∈ obligations (catalog pol) /\
     s = selection (if triggered (fallback p) then full_depth else default_depth) o).
Proof. apply plan_partition_facts. Qed.

(** The witnesses of a plan are exactly the ones its selected obligations
    require, each with its requiring obligations as reverse edges and at the
    strongest of their depths. *)
Theorem plan_witnesses_close_selection `{Sha256} input pol p :
  plan input pol = Ok (Planned p) ->
  catalog_ok (catalog pol) ->
  closure_spec (selected_obligations p) (selected_witnesses p).
Proof.
  intros Hp Hc. pose proof (plan_partition_facts _ _ _ Hp) as (_ & _ & Hsel).
  assert (exists sel om ev, plan_sealed input pol sel om (fallback p) ev p) as (sel & om & ev & Hs).
  { apply plan_has_shape in Hp as [[[Hs _ _] _]|(c' & impact & st & [_ _ _ _ Hs _ _])]; eauto. }
  destruct (close_selected_witnesses_total (catalog pol) (selected_obligations p)) as (ws & E & Hcl); [done| | |].
  - apply Forall_forall. intros s (o & Ho & ->)%Hsel. apply (selects_depth _ o); try done. cbn.
    destruct (triggered (fallback p)); auto.
  - pose proof (sl_check _ _ _ _ _ _ _ Hs) as Hck. unfold DeterministicPlan_check in Hck.
    repeat match type of Hck with (_ ≫= _) = _ => apply bind_Ok in Hck as (? & ? & Hck) end.
    match goal with E : _require_ordered_ids (so_obligation_id <$> _) _ = _ |- _ =>
      by apply require_ordered_ids_Ok in E end.
  - rewrite (sl_witnesses _ _ _ _ _ _ _ Hs) in E. by injection E as <-.
Qed.

(** ** Planning returns *)

Lemma graph_check_scalar `{Sha256} input :
  DependencyGraphContext_check (dependency_graph input) = Ok tt ->
  graph_scalar input /\ is_sha256_hex (graph_hash (dependency_graph input)) = true.
Proof.
  unfold DependencyGraphContext_check. intros Hc. apply bind_Ok in Hc as ([] & _ & Hc).
  apply bind_Ok in Hc as (ns & Hns & Hc). apply bind_Ok in Hc as ([] & Hn%raise_if_Ok & Hc).
  apply bind_Ok in Hc as ([] & _ & Hc). apply bind_Ok in Hc as ([] & _ & Hc).
  apply bind_Ok in Hc as (h & Hh & Hg%raise_if_Ok). apply bool_decide_eq_false_1, dec_stable in Hn, Hg.
  rewrite Hg. split; [|by eapply hash_mapping_hex].
  unfold _normalized_nodes in Hns. apply bind_Ok in Hns as (norm & Hnorm & Hsort).
  apply sorted_by_id_perm in Hsort. intros n s Hin Hs. rewrite Hn, Hsort in Hin.
  destruct (mapR_elem_inv _ _ _ _ Hnorm Hin) as (n0 & Hn0 & _).
  apply bind_Ok in Hn0 as (ds & (Hds & _)%sorted_unique_Ok & Hn0).
  apply bind_Ok in Hn0 as (rs & (Hrs & _)%sorted_unique_Ok & Hn0). injection Hn0 as <-. cbn in Hs.
  destruct Hs as [Hs|Hs]; [exact (canonical_scalar _ _ Hds Hs)|exact (canonical_scalar _ _ Hrs Hs)].
Qed.

Lemma input_policy_hashes `{Sha256} input pol : input_ok input -> policy_ok pol -> hashes_ok input pol.
Proof.
  intros [I1 I2 I3 I4 I5 I6 I7] [Hp Hc]. unfold PolicySnapshot_check in I5. apply bind_Ok in I5 as ([] & E1 & _).
  unfold PlanningPolicy_check, _require_sha256 in Hp. apply bind_Ok in Hp as ([] & _ & Hp).
  apply bind_Ok in Hp as ([] & E2 & Hp). apply bind_Ok in Hp as ([] & E3 & _).
  apply require_sha256_Ok in E1, E2, E3. apply graph_check_scalar in I4 as [_ I4].
  split; try assumption. apply (ca_hash _ Hc).
Qed.

Lemma fallback_check_total pol trig reason :
  policy_ok pol -> trig = bool_decide (reason <> None) ->
  (forall r, reason = Some r -> r <> [] /\ is_unicode_scalar_string r = true) ->
  exists fb, PlanFallback_new (fallback_timeout_seconds pol) trig reason = Ok fb /\ PlanFallback_check fb = Ok tt.
Proof.
  intros [Hp _] -> Hr. unfold PlanningPolicy_check in Hp. do 3 apply bind_Ok in Hp as ([] & _ & Hp).
  apply bind_Ok in Hp as ([] & Ht%raise_if_Ok & _).
  pose (fb := {| timeout_seconds := fallback_timeout_seconds pol; triggered := bool_decide (reason <> None);
    fb_reason := reason; trigger_on := TRIGGERS |}).
  cut (PlanFallback_check fb = Ok tt).
  { intros Hc. exists fb. split; [|done]. unfold PlanFallback_new. fold fb. by rewrite Hc. }
  unfold PlanFallback_check. chk; chk_strings; cbn.
  - exact Ht.
  - apply negb_false_iff'. apply Bool.eqb_reflx.
  - destruct reason as [r|]; [|done]. apply require_non_empty_string_Ok. auto.
  - apply bool_decide_eq_false_2. intros Hn. by apply Hn.
Qed.

Lemma selection_checked c o :
  catalog_ok c -> o ∈ obligations c -> forall depth, SelectedObligation_check (selection depth o) = Ok tt.
Proof.
  intros Hc Ho depth. pose proof (proj1 (Forall_forall _ _) (ca_obligations _ Hc) o Ho) as [B1 _ _ B2 B3 B4 _ _].
  apply SelectedObligation_check_Ok. cbn. split_and!; auto with py.
Qed.

Lemma selection_selects c o depth :
  catalog_ok c -> o ∈ obligations c -> depth o = default_depth o \/ depth o = full_depth o ->
  selects c (selection depth o).
Proof. intros Hc Ho Hd. by apply (selects_depth c o). Qed.

Lemma evidence_total k i m :
  (forall x, i = Some x -> x <> [] /\ is_unicode_scalar_string x = true) -> m <> [] ->
  is_unicode_scalar_string m = true -> exists ev, PlanEvidence_new k i m = Ok ev /\ PlanEvidence_check ev = Ok tt.
Proof.
  intros Hi Hm Hs. pose (ev := {| kind := k; ev_obligation_id := i; message := m |}).
  assert (PlanEvidence_check ev = Ok tt) as Hc by (apply PlanEvidence_check_Ok; cbn; auto).
  exists ev. split; [|done]. unfold PlanEvidence_new. fold ev. by rewrite Hc.
Qed.

Lemma full_ci_plan_total `{Sha256} input pol reason :
  input_ok input -> policy_ok pol -> reason <> [] -> is_unicode_scalar_string reason = true ->
  exists p, _full_ci_plan input pol reason = Ok p.
Proof.
  intros Hi Hp Hne Hs. pose proof (proj2 Hp) as Hc. unfold _full_ci_plan.
  rewrite (mapR_pure _ (selection full_depth)).
  2: { intros o Ho. unfold SelectedObligation_new. fold (selection full_depth o).
       by rewrite (selection_checked _ _ Hc Ho). }
  cbn [mbind res_bind].
  destruct (fallback_check_total pol true (Some reason)) as (fb & -> & Hfb); [done|done|naive_solver|].
  destruct (evidence_total KFallback None reason) as (ev & -> & Hev); [done|done|done|]. cbn [mbind res_bind].
  apply finalize_plan_total; [done|by apply input_policy_hashes|]. split.
  - apply Forall_fmap, Forall_forall. intros o Ho. apply selection_selects; auto.
  - rewrite selection_ids. apply (ca_obligation_ids _ Hc).
  - apply canonical_nil.
  - set_solver.
  - apply Forall_fmap, Forall_forall. intros o Ho. by apply (selection_checked _ _ Hc Ho).
  - constructor.
  - done.
  - by constructor.
Qed.

Lemma plan_obligation_total `{Sha256} input pol changed impact pre o st :
  hashes_ok input pol -> catalog_ok (catalog pol) -> impact_spec input changed impact ->
  o ∈ obligations (catalog pol) -> lists_spec input pol impact pre st ->
  exists st', plan_obligation input pol impact st o = Ok st' /\ lists_spec input pol impact (pre ++ [o]) st'.
Proof.
  intros Hh Hc Himp Ho Hl. cut (exists st', plan_obligation input pol impact st o = Ok st').
  { intros [st' E]. exists st'. split; [done|]. by eapply plan_obligation_step. }
  pose proof (proj1 (Forall_forall _ _) (ca_obligations _ Hc) o Ho) as Hok.
  destruct (is_canonical _ _ _ Himp) as (C1 & _ & _ & C4). unfold plan_obligation.
  destruct (build_omission_proof_total input pol o impact Hh Hok C1 C4) as (d & E & Hd). rewrite E. cbn [mbind res_bind].
  assert (forall x, Some (obligation_id o) = Some x -> x <> [] /\ is_unicode_scalar_string x = true) as Hid.
  { intros x [= <-]. pose proof (ob_id _ Hok). auto with py. }
  destruct d as [pf|reason].
  - apply build_omission_proof_spec in E as (_ & Hpf & _). unfold OmittedObligation_new.
    assert (OmittedObligation_check {| oo_obligation_id := obligation_id o;
      oo_required_witness_ids := required_witness_ids o; oo_proof := pf |} = Ok tt) as ->.
    { unfold OmittedObligation_check. chk; chk_strings; cbn.
      - apply bool_decide_eq_false_2. intros Hn. apply Hn. symmetry. apply Hpf.
      - pose proof (ob_witness_id _ Hok) as Hw. split_and!; [apply Hok|auto with py|intros _; apply Hok]. }
    cbn [mbind res_bind].
    destruct (evidence_total KOmitted (Some (obligation_id o))
      (u "deterministic proof showed no impact on this obligation")) as (ev & -> & _);
      [done|apply u_nonempty|apply scalar_u|]. by eexists.
  - unfold SelectedObligation_new. fold (selection default_depth o). rewrite (selection_checked _ _ Hc Ho).
    cbn [mbind res_bind]. destruct (evidence_total KSelected (Some (obligation_id o)) reason) as (ev & -> & _);
      [done|apply Hd|apply Hd|]. by eexists.
Qed.

Lemma decided_parts `{Sha256} input pol changed impact st fb :
  catalog_ok (catalog pol) -> impact_spec input changed impact -> PlanFallback_check fb = Ok tt ->
  lists_spec input pol impact (obligations (catalog pol)) st ->
  plan_parts (catalog pol) (pl_selected st) (pl_omitted st) fb (pl_evidence st).
Proof.
  intros Hc Himp Hfb [L1 L2 L3 L4 L5 L6 _].
  split; try assumption.
  - rewrite L1. apply Forall_fmap, Forall_forall. intros o [_ Ho]%list_elem_of_filter.
    apply selection_selects; auto.
  - rewrite L1, selection_ids. apply canonical_fmap_filter, Hc.
  - rewrite L2. apply canonical_fmap_filter, Hc.
  - rewrite L1, L2, selection_ids. intros i (o1 & -> & [E1 H1]%list_elem_of_filter)%list_elem_of_fmap
      (o2 & Eid & [E2 H2]%list_elem_of_filter)%list_elem_of_fmap.
    pose proof (catalog_lookup _ _ Hc H1) as G1. rewrite Eid, (catalog_lookup _ _ Hc H2) in G1. congruence.
Qed.

Lemma plan_total_facts `{Sha256} input pol :
  input_ok input -> policy_ok pol ->
  exists r, plan input pol = Ok r /\
    match r with
    | PlanningRejected _ => ¬ coordinates_match input pol
    | Planned _ => coordinates_match input pol
    end.
Proof.
  intros Hi Hp. pose proof (proj2 Hp) as Hc. cut (exists r, plan input pol = Ok r).
  { intros [r Hr]. exists r. split; [done|]. by apply plan_branches in Hr as []. }
  unfold plan.
  destruct (sorted_unique_total
    (reason_if (bool_decide (pp_config_epoch_id pol <> epoch_id (policy input))) "planning_config_epoch_mismatch" ++
     reason_if (bool_decide (pp_compiled_policy_hash pol <> ps_compiled_policy_hash (policy input)))
       "planning_compiled_policy_hash_mismatch" ++
     reason_if (bool_decide (pp_policy_hash pol <> ps_policy_hash (policy input))) "planning_policy_hash_mismatch"))
    as [rs Hrs].
  { intros x. unfold reason_if. rewrite !elem_of_app. repeat case_match; rewrite ?list_elem_of_singleton;
      intros Hx; destruct_or?; subst; try apply scalar_u; set_solver. }
  assert (planner_rejection_reasons input pol = Ok rs) as E1 by exact Hrs. rewrite E1. cbn [mbind res_bind].
  destruct (sorted_unique_Ok _ _ Hrs) as (Hcan & Hel & _).
  destruct (bool_decide_reflect (rs <> [])) as [Er|Er%dec_stable].
  { unfold PlanningRejected_new. exists (PlanningRejected rs).
    assert (_require_sorted_unique_strings rs (u "reasons") false = Ok tt) as ->; [|done].
    apply require_sorted_unique_strings_Ok. split_and!; [done| |done]. intros s Hs%Hel. revert Hs.
    unfold reason_if. rewrite !elem_of_app. repeat case_match; rewrite ?list_elem_of_singleton;
      intros Hx; destruct_or?; subst; try apply u_nonempty; set_solver. }
  unfold planner_admission_reasons. rewrite E1. cbn [mbind res_bind].
  rewrite Er, app_nil_r.
  destruct (io_reasons _ Hi) as [Hfr Hfne]. rewrite (proj1 (sorted_unique_canonical _) Hfr). cbn [mbind res_bind].
  destruct (bool_decide_reflect (fallback_reasons input <> [])) as [Ea|Ea].
  { destruct (full_ci_plan_total input pol (join (u "; ") (fallback_reasons input))) as [p ->]; [done|done| | |by eexists].
    - destruct (fallback_reasons input) as [|r l]; [done|]. pose proof (Hfne r ltac:(set_solver)).
      destruct r; [done|]. cbn. by destruct l.
    - apply scalar_join; [apply scalar_u|]. intros w. by apply canonical_scalar. }
  destruct (io_changed _ Hi) as [changed Hch]. pose proof (graph_check_scalar _ (io_graph _ Hi)) as [Hg _].
  destruct (analyze_impact_total input changed Hch Hg) as (impact & E & Himp). rewrite E. cbn [mbind res_bind].
  destruct (bool_decide_reflect (unknown_paths impact <> [])) as [Eu|Eu].
  { destruct (full_ci_plan_total input pol (u "unknown changed paths: " ++ join (u ", ") (unknown_paths impact)))
      as [p ->]; [done|done|apply u_cons_nonempty| |by eexists].
    apply scalar_app_2; [apply scalar_u|]. apply scalar_join; [apply scalar_u|]. intros w.
    destruct (is_canonical _ _ _ Himp) as (_ & _ & C3 & _). by apply canonical_scalar. }
  pose proof (input_policy_hashes _ _ Hi Hp) as Hh.
  destruct (foldR_total (plan_obligation input pol impact) (lists_spec input pol impact)
    (obligations (catalog pol)) (PlanLists [] [] [])) as (st & -> & Hl); [apply lists_spec_nil| |].
  { intros pre o s1 Hl (todo & Eo). eapply plan_obligation_total; try done. rewrite Eo. set_solver. }
  cbn [mbind res_bind].
  destruct (fallback_check_total pol false None) as (fb & -> & Hfb); [done|done|done|]. cbn [mbind res_bind].
  destruct (finalize_plan_total input pol (pl_selected st) (pl_omitted st) fb (pl_evidence st)) as [p ->];
    [done|done|by eapply decided_parts|by eexists].
Qed.

(** Planning returns on every input and policy their constructors accept:
    the graph walk terminates, the plan passes its own constructor, and the
    request is rejected exactly when input and policy are of different policy
    coordinates. *)
Theorem plan_total `{Sha256} input pol :
  input_ok input -> policy_ok pol ->
  exists r, plan input pol = Ok r /\
    match r with
    | PlanningRejected _ => ¬ coordinates_match input pol
    | Planned _ => coordinates_match input pol
    end.
Proof. apply plan_total_facts. Qed.
