(* ===== verification/Advice.v ===== *)
(** * Agent risk advice

    Models [agent_risk_advice/model.py] and [admission.py]: the execution
    envelope, the advice a model may give, its parsing from strict JSON and its
    admission by policy.  Advice is text from a model: every field is checked
    before it is used, and a rejected one becomes an audit record.

    [load_strict_json] is a parameter of the parser ([decode]): the results hold
    whatever a document decodes to. *)

From stdpp Require Import base gmap sets list sorting strings.
From Stdlib Require Import ZArith Lia.
From Stdlib Require Import SpecFloat.
From S2P Require Import Prelude Text PathPatterns PyFloat CanonicalJson Hashing Contract RepoContext Planning.

(** ** [model.py] *)

Definition MAX_AGENT_ADVICE_OUTPUT_BYTES : Z := 64 * 1024.
Definition AGENT_ADVICE_SCHEMA_VERSION : pystr := u "agent-risk-advice/v2".

Definition advice_require_canonical (values : list pystr) (field_name : pystr) : res unit :=
  require_canonical values (ValueError (u "agent_advice_" ++ field_name ++ u "_not_canonical")).

Definition advice_require_sha256 (value : pystr) (field_name : pystr) : res unit :=
  raise_if (negb (is_sha256_hex value)) (ValueError (field_name ++ u " must be a lowercase SHA-256 digest")).

(** A bounded text: not empty, no NUL, scalar, at most so many UTF-8 bytes. *)
Definition is_bounded_text (value : pystr) (maximum_bytes : Z) : bool :=
  bool_decide (value <> []) && negb (has_char 0 value) && is_unicode_scalar_string value &&
  (utf8_size value <=? maximum_bytes).

Definition _require_bounded_text (value : pystr) (field_name : pystr) (maximum_bytes : Z) : res unit :=
  raise_if (negb (is_bounded_text value maximum_bytes))
    (ValueError (field_name ++ u " must be bounded Unicode scalar text")).

Record AdviceEvaluationEvidence := {
  output_hash : pystr;
  evaluator_id : pystr;
  ae_policy_hash : pystr;
  passed : bool;
}.

Definition AdviceEvaluationEvidence_check (e : AdviceEvaluationEvidence) : res unit :=
  advice_require_sha256 (output_hash e) (u "evaluation output hash") ;;
  _require_bounded_text (evaluator_id e) (u "evaluator id") 256 ;;
  advice_require_sha256 (ae_policy_hash e) (u "evaluation policy hash").

Record AdviceExecutionEnvelope := {
  raw_output : list Z;
  env_input_hash : pystr;
  model_id : pystr;
  prompt_hash : pystr;
  evaluation : AdviceEvaluationEvidence;
}.

Definition AdviceExecutionEnvelope_check `{Sha256} (e : AdviceExecutionEnvelope) : res unit :=
  raise_if (bool_decide (raw_output e = [])) (ValueError (u "agent advice output must be non-empty bytes")) ;;
  raise_if (MAX_AGENT_ADVICE_OUTPUT_BYTES <? Z.of_nat (length (raw_output e)))
    (ValueError (u "agent advice output exceeds its byte bound")) ;;
  advice_require_sha256 (env_input_hash e) (u "advice input hash") ;;
  _require_bounded_text (model_id e) (u "advice model id") 256 ;;
  advice_require_sha256 (prompt_hash e) (u "advice prompt hash") ;;
  raise_if (bool_decide (sha256 (raw_output e) <> output_hash (evaluation e)))
    (ValueError (u "agent advice evaluation is bound to another output")).

Record AdviceDepthIncrease := { inc_obligation_id : pystr; min_depth : ValidationDepth }.
Record AdviceRiskFinding := { rf_obligation_id : pystr; rf_reason : pystr }.

(** [fallback_recommendation] is [full-ci] or absent. *)
Record AgentAdvice := {
  advice_id : pystr;
  confidence : spec_float;
  add_obligations : list pystr;
  increase_depth : list AdviceDepthIncrease;
  risk_findings : list AdviceRiskFinding;
  rationale : pystr;
  recommends_full_ci : bool;
}.

Definition AgentAdvice_check (a : AgentAdvice) : res unit :=
  advice_require_canonical (add_obligations a) (u "add_obligations") ;;
  advice_require_canonical (inc_obligation_id <$> increase_depth a) (u "increase_depth") ;;
  advice_require_canonical ((fun f => rf_obligation_id f ++ u ":" ++ rf_reason f) <$> risk_findings a)
    (u "risk_findings").

Definition AgentAdvice_mapping (a : AgentAdvice) : pyval :=
  obj [("schemaVersion", VStr AGENT_ADVICE_SCHEMA_VERSION); ("adviceId", VStr (advice_id a));
       ("confidence", VFloat (confidence a)); ("addObligations", str_list (add_obligations a));
       ("increaseDepth", arr ((fun i => obj [("obligationId", VStr (inc_obligation_id i));
                                             ("minDepth", VStr (depth_str (min_depth i)))]%string) <$> increase_depth a));
       ("riskFindings", arr ((fun f => obj [("obligationId", VStr (rf_obligation_id f));
                                            ("reason", VStr (rf_reason f))]%string) <$> risk_findings a));
       ("fallbackRecommendation", if recommends_full_ci a then VStr (u "full-ci") else VNone);
       ("rationale", VStr (rationale a))]%string.

Record AdviceAuditMetadata := {
  advice_hash : pystr;
  am_advice_id : option pystr;
  am_input_hash : pystr;
  am_model_id : pystr;
  am_prompt_hash : pystr;
  evaluation_id : pystr;
  evaluation_policy_hash : pystr;
  evaluation_passed : bool;
  parse_valid : bool;
  accepted : bool;
  am_reasons : list pystr;
}.

Definition AdviceAuditMetadata_check (a : AdviceAuditMetadata) : res unit :=
  advice_require_sha256 (advice_hash a) (u "advice hash") ;;
  advice_require_sha256 (am_input_hash a) (u "advice input hash") ;;
  _require_bounded_text (am_model_id a) (u "advice model id") 256 ;;
  advice_require_sha256 (am_prompt_hash a) (u "advice prompt hash") ;;
  _require_bounded_text (evaluation_id a) (u "evaluator id") 256 ;;
  advice_require_sha256 (evaluation_policy_hash a) (u "evaluation policy hash") ;;
  require_canonical (am_reasons a) (ValueError (u "advice audit reasons must be canonical")).

Inductive AdviceAdmission :=
  | AdmittedAdvice (advice : AgentAdvice) (audit : AdviceAuditMetadata)
  | RejectedAdvice (audit : AdviceAuditMetadata).

Record AdviceInputPackage := {
  ap_input_hash : pystr;
  deterministic_plan_id : pystr;
  ap_policy_hash : pystr;
  obligation_ids : list pystr;
}.

(** ** [admission.py] *)

Definition build_advice_input (input : PlanningInput) (p : DeterministicPlan) : res AdviceInputPackage :=
  ids ← sorted_unique ((so_obligation_id <$> selected_obligations p) ++ (oo_obligation_id <$> omitted_obligations p));
  advice_require_canonical ids (u "obligation_ids") ;;
  Ok {| ap_input_hash := input_hash input; deterministic_plan_id := plan_id p;
        ap_policy_hash := plan_policy_hash p; obligation_ids := ids |}.

Definition _MAX_ADVICE_ITEMS : nat := 1024.
Definition _REQUIRED_ADVICE_KEYS : list pystr :=
  [u "schemaVersion"; u "adviceId"; u "confidence"; u "addObligations"; u "increaseDepth"; u "riskFindings";
   u "rationale"].
Definition _ADVICE_KEYS : list pystr := u "fallbackRecommendation" :: _REQUIRED_ADVICE_KEYS.

Definition invalid {A} (s : string) : res A := Raise (ValueError (u s)).

Definition _schema_version (value : pyval) : res unit :=
  match value with
  | VStr s => if bool_decide (s = AGENT_ADVICE_SCHEMA_VERSION) then Ok tt else invalid "agent_advice_schema_unsupported"
  | _ => invalid "agent_advice_schema_unsupported"
  end.

Definition _string (value : pyval) (field_name : pystr) (maximum_bytes : Z) : res pystr :=
  let refused := Raise (ValueError (u "agent_advice_" ++ field_name ++ u "_invalid")) in
  match value with
  | VStr s => if is_bounded_text s maximum_bytes then Ok s else refused
  | _ => refused
  end.

Definition _confidence (value : pyval) : res spec_float :=
  numeric ← match value with
            | VInt z => if negb ((0 <=? z) && (z <=? 1)) then invalid "agent_advice_confidence_invalid"
                        else py_float_of_int z
            | VFloat f => Ok f
            | _ => invalid "agent_advice_confidence_invalid"
            end;
  if negb (float_isfinite numeric) || negb (SFleb (float_of_Z 0) numeric && SFleb numeric (float_of_Z 1))
  then invalid "agent_advice_confidence_invalid" else Ok numeric.

Definition advice_items (value : pyval) (refused : string) : res (list pyval) :=
  match value with
  | VList _ l => if bool_decide (_MAX_ADVICE_ITEMS < length l)%nat then invalid refused else Ok l
  | _ => invalid refused
  end.

Definition _strings (value : pyval) (field_name : pystr) : res (list pystr) :=
  match value with
  | VList _ l => if bool_decide (_MAX_ADVICE_ITEMS < length l)%nat
                 then Raise (ValueError (u "agent_advice_" ++ field_name ++ u "_invalid"))
                 else mapR (fun item => _string item field_name 256) l
  | _ => Raise (ValueError (u "agent_advice_" ++ field_name ++ u "_invalid"))
  end.

Definition exact_keys (l : list (dkey * pyval)) (keys : list pystr) : bool :=
  bool_decide (str_set (dict_keys l) = str_set keys).

Definition _depth_increases (value : pyval) : res (list AdviceDepthIncrease) :=
  items ← advice_items value "agent_advice_increase_depth_invalid";
  mapR (fun item =>
    match item with
    | VDict _ l =>
        if negb (exact_keys l [u "obligationId"; u "minDepth"]) then invalid "agent_advice_increase_depth_invalid"
        else
          depth ← match validation_depth (dict_get l "minDepth") (u "agent advice minimum depth") with
                  | Ok d => Ok d
                  | Raise _ => invalid "agent_advice_increase_depth_invalid"
                  end;
          oid ← _string (dict_get l "obligationId") (u "obligation_id") 256;
          Ok {| inc_obligation_id := oid; min_depth := depth |}
    | _ => invalid "agent_advice_increase_depth_invalid"
    end) items.

Definition _risk_findings (value : pyval) : res (list AdviceRiskFinding) :=
  items ← advice_items value "agent_advice_risk_findings_invalid";
  mapR (fun item =>
    match item with
    | VDict _ l =>
        if negb (exact_keys l [u "obligationId"; u "reason"]) then invalid "agent_advice_risk_findings_invalid"
        else
          oid ← _string (dict_get l "obligationId") (u "obligation_id") 256;
          reason ← _string (dict_get l "reason") (u "risk_reason") 4096;
          Ok {| rf_obligation_id := oid; rf_reason := reason |}
    | _ => invalid "agent_advice_risk_findings_invalid"
    end) items.

Definition _fallback_recommendation (value : pyval) : res bool :=
  match value with
  | VNone => Ok false
  | VStr s => if bool_decide (s = u "full-ci") then Ok true
              else invalid "agent_advice_fallback_recommendation_invalid"
  | _ => invalid "agent_advice_fallback_recommendation_invalid"
  end.

(** The constructor call of [_parse], arguments in source order. *)
Definition parse_fields (l : list (dkey * pyval)) : res AgentAdvice :=
  _schema_version (dict_get l "schemaVersion") ;;
  aid ← _string (dict_get l "adviceId") (u "advice_id") 256;
  conf ← _confidence (dict_get l "confidence");
  adds ← _strings (dict_get l "addObligations") (u "add_obligations");
  incs ← _depth_increases (dict_get l "increaseDepth");
  risks ← _risk_findings (dict_get l "riskFindings");
  fb ← _fallback_recommendation (dict_get l "fallbackRecommendation");
  rat ← _string (dict_get l "rationale") (u "rationale") 4096;
  let a := {| advice_id := aid; confidence := conf; add_obligations := adds; increase_depth := incs;
              risk_findings := risks; rationale := rat; recommends_full_ci := fb |} in
  AgentAdvice_check a ;; Ok a.

Inductive parsed := Parsed (a : AgentAdvice) | ParseFailed (reasons : list pystr).

(** [str(error)] of a caught [ValueError]; the text of an encoding error is not
    modelled (parsed strings are scalar, so none is raised). *)
Definition error_text (e : exn) : pystr :=
  match e with ValueError m => m | _ => u "'utf-16-be' codec can't encode character" end.

Definition parse_object (l : list (dkey * pyval)) : res parsed :=
  unknown ← sorted_unique (filter (fun k => k ∉ _ADVICE_KEYS) (dict_keys l));
  if bool_decide (unknown <> [])
  then Ok (ParseFailed [u "agent_advice_unknown_fields:" ++ join (u ",") unknown])
  else
    missing ← sorted_unique (filter (fun k => k ∉ dict_keys l) _REQUIRED_ADVICE_KEYS);
    if bool_decide (missing <> [])
    then Ok (ParseFailed [u "agent_advice_missing_fields:" ++ join (u ",") missing])
    else match parse_fields l with
         | Ok a => Ok (Parsed a)
         | Raise e => if is_value_error e then Ok (ParseFailed [error_text e]) else Raise e
         end.

Section admission.
Context (decode : list Z -> res pyval).

Definition _parse (raw : list Z) : res parsed :=
  match decode raw with
  | Raise (StrictJsonError _) => Ok (ParseFailed [u "agent_advice_invalid_json"])
  | Raise e => Raise e
  | Ok (VDict _ l) => parse_object l
  | Ok _ => Ok (ParseFailed [u "agent_advice_not_object"])
  end.

(** [confidence < min_confidence]. *)
Definition below (f : spec_float) (n : num) : bool :=
  match n with NInt z => SFltb f (float_of_Z z) | NFloat g => SFltb f g end.

(** [any(increase.min_depth not in witnesses[wid].supported_depths for wid in ...)]. *)
Fixpoint any_unsupported (ws : gmap pystr ExecutableWitness) (d : ValidationDepth) (wids : list pystr) : res bool :=
  match wids with
  | [] => Ok false
  | wid :: r => w ← from_option KeyError (ws !! wid);
                if negb (bool_decide (d ∈ supported_depths w)) then Ok true else any_unsupported ws d r
  end.

Definition increase_reasons (os : gmap pystr ValidationObligation) (ws : gmap pystr ExecutableWitness)
    (i : AdviceDepthIncrease) : res (list pystr) :=
  match os !! inc_obligation_id i with
  | None => Ok [u "agent_advice_unknown_obligation"]
  | Some o =>
      if depth_rank (full_depth o) <? depth_rank (min_depth i) then Ok [u "agent_advice_depth_unsupported"]
      else bad ← any_unsupported ws (min_depth i) (required_witness_ids o);
           Ok (reason_if bad "agent_advice_depth_unsupported")
  end.

Definition _policy_reasons (a : AgentAdvice) (e : AdviceExecutionEnvelope) (input : PlanningInput)
    (pol : PlanningPolicy) : res (list pystr) :=
  let adm := agent_advice pol in
  let os := dict_by obligation_id id (obligations (catalog pol)) in
  let ws := dict_by witness_id id (witnesses (catalog pol)) in
  let known i := bool_decide (is_Some (os !! i)) in
  incs ← mapR (increase_reasons os ws) (increase_depth a);
  sorted_unique (
    reason_if (negb (enabled adm)) "agent_advice_disabled" ++
    reason_if (bool_decide (env_input_hash e <> input_hash input)) "agent_advice_input_hash_mismatch" ++
    reason_if (negb (bool_decide (model_id e ∈ model_id_allowlist adm))) "agent_advice_model_not_allowed" ++
    reason_if (negb (bool_decide (prompt_hash e ∈ prompt_hash_allowlist adm))) "agent_advice_prompt_not_allowed" ++
    reason_if (below (confidence a) (min_confidence adm)) "agent_advice_confidence_too_low" ++
    reason_if (prompt_injection_eval_required adm && negb (passed (evaluation e)))
      "agent_advice_evaluation_rejected" ++
    reason_if (existsb (fun i => negb (known i)) (add_obligations a)) "agent_advice_unknown_obligation" ++
    concat incs ++
    reason_if (existsb (fun f => negb (known (rf_obligation_id f))) (risk_findings a))
      "agent_advice_unknown_obligation").

Definition _audit (e : AdviceExecutionEnvelope) (aid : option pystr) (valid acc : bool) (reasons : list pystr)
    : res AdviceAuditMetadata :=
  rs ← sorted_unique reasons;
  let a := {| advice_hash := output_hash (evaluation e); am_advice_id := aid; am_input_hash := env_input_hash e;
              am_model_id := model_id e; am_prompt_hash := prompt_hash e;
              evaluation_id := evaluator_id (evaluation e);
              evaluation_policy_hash := ae_policy_hash (evaluation e);
              evaluation_passed := passed (evaluation e); parse_valid := valid; accepted := acc;
              am_reasons := rs |} in
  AdviceAuditMetadata_check a ;; Ok a.

Definition admit_advice (e : AdviceExecutionEnvelope) (input : PlanningInput) (pol : PlanningPolicy)
    : res AdviceAdmission :=
  p ← _parse (raw_output e);
  match p with
  | ParseFailed reasons => RejectedAdvice <$> _audit e None false false reasons
  | Parsed a =>
      reasons ← _policy_reasons a e input pol;
      if bool_decide (reasons <> [])
      then RejectedAdvice <$> _audit e (Some (advice_id a)) true false reasons
      else AdmittedAdvice a <$> _audit e (Some (advice_id a)) true true []
  end.
End admission.

(** ** What admission guarantees *)

(** Advice the verifier may apply: enabled by policy, for this input, from an
    allowed model and prompt, evaluated, confident enough, and only about
    obligations of the catalog at depths their witnesses support. *)
Record advice_admissible (e : AdviceExecutionEnvelope) (input : PlanningInput) (pol : PlanningPolicy)
    (a : AgentAdvice) : Prop := {
  aa_enabled : enabled (agent_advice pol) = true;
  aa_input : env_input_hash e = input_hash input;
  aa_model : model_id e ∈ model_id_allowlist (agent_advice pol);
  aa_prompt : prompt_hash e ∈ prompt_hash_allowlist (agent_advice pol);
  aa_confidence : below (confidence a) (min_confidence (agent_advice pol)) = false;
  aa_evaluation : prompt_injection_eval_required (agent_advice pol) = true -> passed (evaluation e) = true;
  aa_adds : forall i, i ∈ add_obligations a -> i ∈ obligation_id <$> obligations (catalog pol);
  aa_risks : forall f, f ∈ risk_findings a -> rf_obligation_id f ∈ obligation_id <$> obligations (catalog pol);
  aa_depths : forall i, i ∈ increase_depth a -> exists o,
    dict_by obligation_id id (obligations (catalog pol)) !! inc_obligation_id i = Some o /\
    depth_rank (min_depth i) <= depth_rank (full_depth o) /\
    forall wid, wid ∈ required_witness_ids o -> exists w,
      dict_by witness_id id (witnesses (catalog pol)) !! wid = Some w /\ min_depth i ∈ supported_depths w;
}.

Lemma any_unsupported_false ws d wids :
  any_unsupported ws d wids = Ok false ->
  forall wid, wid ∈ wids -> exists w, ws !! wid = Some w /\ d ∈ supported_depths w.
Proof.
  induction wids as [|wid wids IH]; intros H wid' Hin; [set_solver|]. simpl in H.
  apply bind_Ok in H as (w & Hw%from_option_Ok & H).
  destruct (bool_decide_reflect (d ∈ supported_depths w)); [|done]. simpl in H.
  apply elem_of_cons in Hin as [->|Hin]; [eauto|]. by apply IH.
Qed.

Lemma policy_reasons_nil a e input pol :
  _policy_reasons a e input pol = Ok [] -> advice_admissible e input pol a.
Proof.
  unfold _policy_reasons. intros (incs & Hincs & Hr)%bind_Ok. apply sorted_unique_nil in Hr. no_reasons.
  repeat match goal with E : existsb _ _ = false |- _ => rewrite existsb_false in E end.
  split; try done.
  - match goal with E : _ && negb (passed _) = false |- _ => rename E into He end.
    intros Hp. rewrite Hp in He. simpl in He. by bdec.
  - intros i Hi. match goal with E : forall x, x ∈ add_obligations a -> _ |- _ => specialize (E _ Hi) end. bdec.
    match goal with E : is_Some _ |- _ => by apply dict_by_elem in E end.
  - intros f Hf. match goal with E : forall x, x ∈ risk_findings a -> _ |- _ => specialize (E _ Hf) end. bdec.
    match goal with E : is_Some _ |- _ => by apply dict_by_elem in E end.
  - intros i Hi. destruct (mapR_elem _ _ _ _ Hincs Hi) as (rs & Hrs & Hin).
    assert (rs = []) as ->.
    { match goal with E : concat incs = [] |- _ => clear -E Hin; rename E into Ec end.
      induction incs as [|r incs IH]; [set_solver|]. simpl in Ec. apply app_eq_nil in Ec as [-> Ec].
      apply elem_of_cons in Hin as [->|Hin]; [done|]. by apply IH. }
    unfold increase_reasons in Hrs. destruct (_ !! inc_obligation_id i) as [o|] eqn:Ho; [|done].
    exists o. split; [done|]. destruct (Z.ltb_spec (depth_rank (full_depth o)) (depth_rank (min_depth i))); [done|].
    split; [lia|]. apply bind_Ok in Hrs as (bad & Hbad & Hn). injection Hn as ->%reason_if_nil.
    by apply any_unsupported_false.
Qed.

Lemma parse_checked decode raw a : _parse decode raw = Ok (Parsed a) -> AgentAdvice_check a = Ok tt.
Proof.
  unfold _parse. destruct (decode raw) as [v|[]]; try done. destruct v; try done.
  unfold parse_object. intros (unk & _ & H)%bind_Ok. destruct (bool_decide _); [done|].
  apply bind_Ok in H as (mis & _ & H). destruct (bool_decide _); [done|].
  destruct (parse_fields items) as [a'|e'] eqn:E; [|by destruct (is_value_error e')]. injection H as ->.
  unfold parse_fields in E. apply bind_Ok in E as ([] & _ & E).
  repeat match type of E with ((_ ≫= _) = _) => apply bind_Ok in E as (? & ? & E) end.
  injection E as <-. match goal with H : AgentAdvice_check _ = Ok ?x |- _ => destruct x; exact H end.
Qed.

Lemma audit_fields e aid valid acc rs a :
  _audit e aid valid acc rs = Ok a ->
  accepted a = acc /\ parse_valid a = valid /\ am_advice_id a = aid /\ advice_hash a = output_hash (evaluation e) /\
  sorted_unique rs = Ok (am_reasons a) /\ AdviceAuditMetadata_check a = Ok tt.
Proof.
  unfold _audit. intros (r & Hr & H)%bind_Ok. apply bind_Ok in H as ([] & Hc & H). injection H as <-.
  cbn. split_and!; try reflexivity; [exact Hr|exact Hc].
Qed.

Lemma admit_advice_admitted decode e input pol a audit :
  admit_advice decode e input pol = Ok (AdmittedAdvice a audit) ->
  advice_admissible e input pol a /\ AgentAdvice_check a = Ok tt /\ accepted audit = true /\
  am_reasons audit = [] /\ advice_hash audit = output_hash (evaluation e) /\ AdviceAuditMetadata_check audit = Ok tt.
Proof.
  unfold admit_advice. intros (p & Hp & H)%bind_Ok. destruct p as [a'|rs].
  2: { by apply fmap_Ok in H as (x & _ & [=]). }
  apply bind_Ok in H as (rs & Hrs & H). destruct (bool_decide_reflect (rs <> [])) as [Hn|Hn%dec_stable].
  { by apply fmap_Ok in H as (x & _ & [=]). }
  apply fmap_Ok in H as (x & Hx & [= <- <-]). subst rs.
  apply audit_fields in Hx as (H1 & _ & _ & H2 & H3 & H4). split_and!; try done.
  - by apply policy_reasons_nil.
  - by eapply parse_checked.
  - assert (sorted_unique [] = Ok []) as E by done. congruence.
Qed.

(** ** Properties *)

(** Advice is admitted only when the policy enables it, it is for this input,
    its model and prompt are allowed, the required evaluation passed, it is
    confident enough, and it names only obligations of the catalog at depths
    their witnesses support; the admitted advice passed its constructor, and its
    audit record accepts it and is bound to the evaluated output. *)
Theorem admitted_advice_admissible decode e input pol a audit :
  admit_advice decode e input pol = Ok (AdmittedAdvice a audit) ->
  advice_admissible e input pol a /\ AgentAdvice_check a = Ok tt /\ accepted audit = true /\
  am_reasons audit = [] /\ advice_hash audit = output_hash (evaluation e) /\ AdviceAuditMetadata_check audit = Ok tt.
Proof. apply admit_advice_admitted. Qed.
