(* ===== verification/Verification.v ===== *)
(** * The plan verifier

    Models [verification_core/coverage.py], [witnesses.py],
    [deterministic_admission.py], [model.py] and [verifier.py].  The verifier
    trusts nothing of a candidate plan: it recomputes the coordinates, the
    impact and the witness closure, falls back to the full catalog when
    anything differs, and lets admitted advice only add coverage. *)

From stdpp Require Import base gmap sets list sorting strings.
From Stdlib Require Import ZArith Lia.
From Stdlib Require Import SpecFloat.
From S2P Require Import Prelude Text PathPatterns PyFloat CanonicalJson Hashing Contract RepoContext Planning Advice.

(** [b and k()]: the second operand is evaluated when the first is true. *)
Definition andR (b : bool) (k : res bool) : res bool := if b then k else Ok false.

(** ** [coverage.py] *)

Inductive coverage_relation := equal | strictly_greater | incomparable | less.

#[export] Instance coverage_relation_eq_dec : EqDecision coverage_relation.
Proof. solve_decision. Defined.

Record CoverageComparison := { relation : coverage_relation; cc_reasons : list pystr }.

(** One iteration over the baseline obligations: reasons and the flag. *)
Definition compare_obligation (cands : gmap pystr SelectedObligation) (entry : pystr * SelectedObligation)
    : list pystr * bool :=
  match cands !! entry.1 with
  | None => ([u "selected_obligation_removed:" ++ entry.1], false)
  | Some c =>
      ((if bool_decide (so_required_witness_ids c <> so_required_witness_ids entry.2)
        then [u "obligation_requirements_changed:" ++ entry.1] else []) ++
       (if depth_rank (so_depth c) <? depth_rank (so_depth entry.2)
        then [u "obligation_depth_lowered:" ++ entry.1] else []),
       depth_rank (so_depth entry.2) <? depth_rank (so_depth c))
  end.

Definition compare_witness (cands : gmap pystr SelectedWitness) (entry : pystr * SelectedWitness)
    : list pystr * bool :=
  match cands !! entry.1 with
  | None => ([u "selected_witness_removed:" ++ entry.1], false)
  | Some c =>
      ((if negb (bool_decide (str_set (required_by_obligation_ids entry.2) ⊆ str_set (required_by_obligation_ids c)))
        then [u "witness_requirement_edge_removed:" ++ entry.1] else []) ++
       (if depth_rank (sw_depth c) <? depth_rank (sw_depth entry.2)
        then [u "witness_depth_lowered:" ++ entry.1] else []),
       depth_rank (sw_depth entry.2) <? depth_rank (sw_depth c))
  end.

(** The reasons are sorted and the flag is a disjunction, so the order of the
    dicts' items is irrelevant. *)
Definition compare_coverage (base_o : list SelectedObligation) (base_w : list SelectedWitness)
    (cand_o : list SelectedObligation) (cand_w : list SelectedWitness) : CoverageComparison :=
  let bo := dict_by so_obligation_id id base_o in
  let co := dict_by so_obligation_id id cand_o in
  let bw := dict_by sw_witness_id id base_w in
  let cw := dict_by sw_witness_id id cand_w in
  let ro := compare_obligation co <$> map_to_list bo in
  let rw := compare_witness cw <$> map_to_list bw in
  let reasons := isort lex_leb (flat_map fst ro ++ flat_map fst rw) in
  let strengthened := existsb snd ro || bool_decide (dom co ∖ dom bo <> ∅) ||
                      existsb snd rw || bool_decide (dom cw ∖ dom bw <> ∅) in
  if bool_decide (reasons <> [])
  then {| relation := if strengthened then incomparable else less; cc_reasons := reasons |}
  else {| relation := if strengthened then strictly_greater else equal; cc_reasons := [] |}.

(** ** [witnesses.py] *)

Module Witnesses.

Definition require_witness (by_id : gmap pystr ExecutableWitness) (s : SelectedObligation)
    (m : gmap pystr (list SelectedObligation)) (wid : pystr) : res (gmap pystr (list SelectedObligation)) :=
  let refused := ValueError (u "selected depth is unsupported by a required witness") in
  w ← from_option refused (by_id !! wid);
  raise_if (negb (bool_decide (so_depth s ∈ supported_depths w))) refused ;;
  Ok (<[wid := default [] (m !! wid) ++ [s]]> m).

Definition require_witnesses (c : ValidationCatalog) (m : gmap pystr (list SelectedObligation))
    (s : SelectedObligation) : res (gmap pystr (list SelectedObligation)) :=
  let refused := ValueError (u "selected obligation requirements must match the validation catalog") in
  o ← from_option refused (dict_by obligation_id id (obligations c) !! so_obligation_id s);
  raise_if (bool_decide (so_required_witness_ids s <> required_witness_ids o)) refused ;;
  foldR (require_witness (dict_by witness_id id (witnesses c)) s) m (so_required_witness_ids s).

Definition close_selected_witnesses (c : ValidationCatalog) (selected : list SelectedObligation)
    : res (list SelectedWitness) :=
  required_by ← foldR (require_witnesses c) ∅ selected;
  entries ← sorted_by_id fst (map_to_list required_by);
  mapR close_witness entries.

End Witnesses.

(** ** [deterministic_admission.py] *)

Inductive DeterministicPlanRejectionReason := deterministic_plan_mismatch | omission_proof_mismatch.

Definition rejection_str (r : DeterministicPlanRejectionReason) : pystr :=
  match r with
  | deterministic_plan_mismatch => u "deterministic_plan_mismatch"
  | omission_proof_mismatch => u "omission_proof_mismatch"
  end.

Record _ImpactFacts := ImpactFacts {
  f_impacted : gset pystr;
  f_risks : gset pystr;
  f_unknown : gset pystr;
  f_global : gset pystr;
}.

Definition _policy_context_is_current (input : PlanningInput) (pol : PlanningPolicy) : bool :=
  bool_decide (pp_config_epoch_id pol = epoch_id (policy input)) &&
  bool_decide (pp_compiled_policy_hash pol = ps_compiled_policy_hash (policy input)) &&
  bool_decide (pp_policy_hash pol = ps_policy_hash (policy input)).

(** The [while pending] loop of [_derive_impact]: a stack, its top first. *)
Fixpoint derive_walk (fuel : nat) (by_path : gmap pystr DependencyGraphNode) (pending : list pystr)
    (impacted risks : gset pystr) : res (gset pystr * gset pystr) :=
  match pending with
  | [] => Ok (impacted, risks)
  | p :: rest =>
      match fuel with
      | O => Raise OutOfFuel
      | S f =>
          match by_path !! p with
          | None => derive_walk f by_path rest impacted risks
          | Some node =>
              let '(impacted, new) := visit_dependents (dependents node) impacted in
              derive_walk f by_path (reverse new ++ rest) impacted (str_set (risk_classes node) ∪ risks)
          end
      end
  end.

(** [pending] is [list(changed_paths)]: any order of the set. *)
Definition derive_impact_from (input : PlanningInput) (changed : gset pystr) (pending : list pystr)
    : res _ImpactFacts :=
  let ns := nodes (dependency_graph input) in
  let by_path := dict_by node_path id ns in
  '(impacted, risks) ← derive_walk (walk_fuel pending ns) by_path (reverse pending) changed ∅;
  Ok (ImpactFacts impacted risks (changed ∖ dom by_path)
        (filter (fun p => existsb (fun g => matches_path_pattern g p)
                            (global_risk_paths (dependency_graph input)) = true) changed)).

Definition _derive_impact (input : PlanningInput) : res _ImpactFacts :=
  paths ← changed_paths (diff input);
  let changed := str_set paths in
  derive_impact_from input changed (elements changed).

Definition _omission_is_valid (input : PlanningInput) (pol : PlanningPolicy) (omitted : OmittedObligation)
    (impact : _ImpactFacts) (os : gmap pystr ValidationObligation) (epoch_hash : pystr) : bool :=
  match os !! oo_obligation_id omitted with
  | None => false
  | Some o =>
      let p := oo_proof omitted in
      omit_allowed o && bool_decide (oo_required_witness_ids omitted = required_witness_ids o) &&
      bool_decide (op_obligation_id p = obligation_id o) &&
      bool_decide (rule_id p = obligation_id o ++ u ":no-impact") &&
      bool_decide (op_repo_epoch_hash p = epoch_hash) &&
      bool_decide (op_diff_hash p = diff_hash (diff input)) &&
      bool_decide (op_policy_hash p = pp_policy_hash pol) &&
      bool_decide (op_graph_hash p = graph_hash (dependency_graph input)) &&
      bool_decide (op_catalog_hash p = pp_catalog_hash pol) &&
      bool_decide (predicates p = default_predicates) &&
      bool_decide (assumptions p = ASSUMPTIONS) && bool_decide (invalidates_when p = INVALIDATES_WHEN) &&
      negb (existsb (fun r => bool_decide (r ∈ f_risks impact)) (responsibility_risk_classes o)) &&
      negb (existsb (fun pattern => existsb (matches_path_pattern pattern) (elements (f_impacted impact)))
              (responsibility_paths o))
  end.

(** The evidence loop: one entry per obligation, [None] on a bad one. *)
Fixpoint evidence_by_obligation (l : list PlanEvidence) (m : gmap pystr PlanEvidence)
    : option (gmap pystr PlanEvidence) :=
  match l with
  | [] => Some m
  | e :: l' =>
      match kind e, ev_obligation_id e with
      | KFallback, _ | _, None => None
      | _, Some i => if bool_decide (is_Some (m !! i)) then None else evidence_by_obligation l' (<[i := e]> m)
      end
  end.

Definition _expected_selected (c : ValidationCatalog) (use_full : bool) : res (list SelectedObligation) :=
  mapR (fun o => SelectedObligation_new (obligation_id o) (if use_full then full_depth o else default_depth o)
                   (required_witness_ids o)) (obligations c).

Definition _is_complete_selective_structure (candidate : DeterministicPlan) (c : ValidationCatalog) : res bool :=
  let os := dict_by obligation_id id (obligations c) in
  let selected_ids := str_set (so_obligation_id <$> selected_obligations candidate) in
  let omitted_ids := str_set (oo_obligation_id <$> omitted_obligations candidate) in
  if bool_decide (fb_reason (fallback candidate) <> None) || bool_decide (selected_ids ∩ omitted_ids <> ∅) ||
     bool_decide (selected_ids ∪ omitted_ids <> dom os) then Ok false
  else
    wrong ← mapR (fun s =>
      o ← from_option KeyError (os !! so_obligation_id s);
      Ok (bool_decide (so_required_witness_ids s <> required_witness_ids o) ||
          bool_decide (so_depth s <> default_depth o))) (selected_obligations candidate);
    if existsb id wrong then Ok false
    else
      ws ← Witnesses.close_selected_witnesses c (selected_obligations candidate);
      if bool_decide (selected_witnesses candidate <> ws) then Ok false
      else match evidence_by_obligation (evidence candidate) ∅ with
           | None => Ok false
           | Some ev => Ok (bool_decide (dom ev = dom os) &&
               forallb (fun i =>
                 match ev !! i with
                 | Some e => bool_decide (kind e = if bool_decide (i ∈ selected_ids) then KSelected else KOmitted)
                 | None => false
                 end) (elements (dom os)))
           end.

Section admission.
Context `{Sha256}.

Definition _input_coordinates_are_current (input : PlanningInput) (pol : PlanningPolicy) : res bool :=
  diff_hash' ← hash_mapping (DiffContext_mapping (diff input));
  input_hash' ← hash_mapping (obj [("repoEpoch", RepositoryEpoch_mapping (repo_epoch input));
      ("configEpochId", VStr (epoch_id (policy input)));
      ("compiledPolicyHash", VStr (ps_compiled_policy_hash (policy input)));
      ("diffHash", VStr (diff_hash (diff input))); ("policyHash", VStr (ps_policy_hash (policy input)));
      ("dependencyGraphHash", VStr (graph_hash (dependency_graph input)))]%string);
  Ok (_policy_context_is_current input pol && bool_decide (diff_hash (diff input) = diff_hash') &&
      bool_decide (input_hash input = input_hash')).

Definition _coordinates_are_current (input : PlanningInput) (pol : PlanningPolicy) (c : DeterministicPlan)
    : res bool :=
  epoch_hash ← hash_mapping (RepositoryEpoch_mapping (repo_epoch input));
  current ← _input_coordinates_are_current input pol;
  andR current (
    h ← hash_mapping (identity_mapping c);
    Ok (bool_decide (plan_id c = u "dynamic_ci_plan_" ++ take 32 h) &&
        bool_decide (config_epoch_id c = epoch_id (policy input)) &&
        bool_decide (repo_epoch_hash c = epoch_hash) && bool_decide (plan_input_hash c = input_hash input) &&
        bool_decide (plan_diff_hash c = diff_hash (diff input)) &&
        bool_decide (compiled_policy_hash c = pp_compiled_policy_hash pol) &&
        bool_decide (plan_policy_hash c = pp_policy_hash pol) &&
        bool_decide (dependency_graph_hash c = graph_hash (dependency_graph input)) &&
        bool_decide (plan_catalog_hash c = pp_catalog_hash pol))).

Definition _selective_context_is_admitted (input : PlanningInput) : res bool :=
  let g := dependency_graph input in
  let d := diff input in
  epoch_hash ← hash_mapping (RepositoryEpoch_mapping (repo_epoch input));
  Ok (bool_decide (fallback_reasons input = []) && bool_decide (diff_invalidating_reasons d = []) &&
      negb (truncated d) && complete (source d) && (file_count (source d) =? Z.of_nat (length (files d))) &&
      (file_count (source d) <=? max_files (source d)) && bool_decide (graph_invalidating_reasons g = []) &&
      graph_fresh g && bool_decide (re_base_sha (repo_epoch input) = base_sha d) &&
      bool_decide (re_head_sha (repo_epoch input) = head_sha d) &&
      bool_decide (admitted_repo_epoch_hash g = epoch_hash) && bool_decide (admitted_diff_hash g = diff_hash d) &&
      bool_decide (admitted_config_epoch_id g = epoch_id (policy input)) &&
      bool_decide (admitted_policy_hash g = ps_policy_hash (policy input)) &&
      bool_decide (admitted_compiled_policy_hash g = ps_compiled_policy_hash (policy input))).

Definition _is_exact_full_ci (candidate : DeterministicPlan) (pol : PlanningPolicy) : res bool :=
  expected ← _expected_selected (catalog pol) true;
  andR ((timeout_seconds (fallback candidate) =? fallback_timeout_seconds pol) &&
        bool_decide (fb_reason (fallback candidate) <> None) &&
        bool_decide (selected_obligations candidate = expected)) (
    ws ← Witnesses.close_selected_witnesses (catalog pol) expected;
    andR (bool_decide (selected_witnesses candidate = ws) && bool_decide (omitted_obligations candidate = [])) (
      match fb_reason (fallback candidate) with
      | Some reason => ev ← PlanEvidence_new KFallback None reason; Ok (bool_decide (evidence candidate = [ev]))
      | None => Ok false
      end)).

Definition _omissions_are_valid (input : PlanningInput) (pol : PlanningPolicy) (omitted : list OmittedObligation)
    (impact : _ImpactFacts) : res bool :=
  epoch_hash ← hash_mapping (RepositoryEpoch_mapping (repo_epoch input));
  let os := dict_by obligation_id id (obligations (catalog pol)) in
  Ok (forallb (fun o => _omission_is_valid input pol o impact os epoch_hash) omitted).

Definition validate_omission_proof (input : PlanningInput) (pol : PlanningPolicy) (omitted : OmittedObligation)
    : res bool :=
  current ← _input_coordinates_are_current input pol;
  if negb current then Ok false else
  admitted ← _selective_context_is_admitted input;
  if negb admitted then Ok false else
  impact ← _derive_impact input;
  let os := dict_by obligation_id id (obligations (catalog pol)) in
  andR (bool_decide (f_unknown impact = ∅) && bool_decide (f_global impact = ∅)) (
    epoch_hash ← hash_mapping (RepositoryEpoch_mapping (repo_epoch input));
    Ok (_omission_is_valid input pol omitted impact os epoch_hash)).

Definition admit_deterministic_plan (input : PlanningInput) (pol : PlanningPolicy) (candidate : DeterministicPlan)
    : res (option DeterministicPlanRejectionReason) :=
  current ← _coordinates_are_current input pol candidate;
  if negb current then Ok (Some deterministic_plan_mismatch)
  else if triggered (fallback candidate)
  then exact ← _is_exact_full_ci candidate pol;
       Ok (if (exact : bool) then None else Some deterministic_plan_mismatch)
  else
    admitted ← _selective_context_is_admitted input;
    if negb admitted then Ok (Some deterministic_plan_mismatch)
    else
      structure ← (if negb (timeout_seconds (fallback candidate) =? fallback_timeout_seconds pol) then Ok false
                   else _is_complete_selective_structure candidate (catalog pol));
      if negb structure then Ok (Some deterministic_plan_mismatch)
      else
        impact ← _derive_impact input;
        if bool_decide (f_unknown impact <> ∅) || bool_decide (f_global impact <> ∅)
        then Ok (Some omission_proof_mismatch)
        else
          valid ← _omissions_are_valid input pol (omitted_obligations candidate) impact;
          Ok (if (valid : bool) then None else Some omission_proof_mismatch).
End admission.
