(* ===== verification/VerificationFacts.v ===== *)
(** * Facts about the verifier's parts

    Coverage comparison is the comparison of depths obligation by obligation;
    the verifier's witness closure is the planner's; its own impact derivation
    is graph reachability; and what an admitted candidate plan satisfies. *)

From stdpp Require Import base gmap sets list sorting strings.
From Stdlib Require Import ZArith Lia.
From S2P Require Import Prelude Text PathPatterns PyFloat CanonicalJson Hashing Contract RepoContext Planning ImpactFacts PlannerFacts Planner Advice Verification.

(** ** Coverage *)

(** [cand] covers [base]: every obligation of [base] with the same witnesses, at
    least as deep. *)
Definition covers (cand base : list SelectedObligation) : Prop :=
  forall s, s ∈ base -> exists s', s' ∈ cand /\ so_obligation_id s' = so_obligation_id s /\
    so_required_witness_ids s' = so_required_witness_ids s /\ depth_rank (so_depth s) <= depth_rank (so_depth s').

(** Two selections of one catalog: the identity fixes the witnesses. *)
Definition same_requirements (l l' : list SelectedObligation) : Prop :=
  forall s s', s ∈ l -> s' ∈ l' -> so_obligation_id s = so_obligation_id s' ->
    so_required_witness_ids s = so_required_witness_ids s'.

Definition witness_covers (cand base : list SelectedWitness) : Prop :=
  forall w, w ∈ base -> exists w', w' ∈ cand /\ sw_witness_id w' = sw_witness_id w /\
    (forall i, i ∈ required_by_obligation_ids w -> i ∈ required_by_obligation_ids w') /\
    depth_rank (sw_depth w) <= depth_rank (sw_depth w').

Lemma covers_refl l : covers l l.
Proof. intros s Hs. exists s. split_and!; auto; lia. Qed.

(** More coverage of obligations is more coverage of their witnesses. *)
Lemma closure_covers cand base cw bw :
  covers cand base -> closure_spec cand cw -> closure_spec base bw -> witness_covers cw bw.
Proof.
  intros Hcov Hc Hb w Hw.
  assert (exists s, s ∈ base /\ sw_witness_id w ∈ so_required_witness_ids s) as (s0 & Hs0 & Hw0).
  { apply (cs_dom _ _ Hb). by apply list_elem_of_fmap_2. }
  destruct (Hcov s0 Hs0) as (s0' & Hs0' & _ & E0 & _). rewrite <-E0 in Hw0.
  assert (sw_witness_id w ∈ sw_witness_id <$> cw) as Hin by (apply (cs_dom _ _ Hc); eauto).
  apply list_elem_of_fmap in Hin as (w' & E & Hw'). exists w'. split_and!; [done|done| |].
  - intros i. rewrite (cs_by _ _ Hb w Hw), (cs_by _ _ Hc w' Hw').
    intros (s & -> & [Hr Hs]%requiring_elem)%list_elem_of_fmap.
    destruct (Hcov s Hs) as (s' & Hs' & <- & Er & _). apply list_elem_of_fmap_2, requiring_elem.
    rewrite <-E, Er. done.
  - pose proof (cs_depth _ _ Hb w Hw) as D1. pose proof (cs_depth _ _ Hc w' Hw') as D2.
    apply max_of_depths_spec in D1 as [(s & -> & [Hr Hs]%requiring_elem)%list_elem_of_fmap _].
    apply max_of_depths_spec in D2 as [_ D2].
    destruct (Hcov s Hs) as (s' & Hs' & _ & Er & Hd). etransitivity; [exact Hd|]. apply D2.
    apply list_elem_of_fmap_2, requiring_elem. rewrite <-E, Er. done.
Qed.

Lemma dict_entries {A} (key : A -> pystr) (l : list A) k x :
  NoDup (key <$> l) -> (k, x) ∈ map_to_list (dict_by key id l) <-> x ∈ l /\ k = key x.
Proof.
  intros Hn. rewrite elem_of_map_to_list. split.
  - intros (y & Hy & <- & <-)%dict_by_Some. done.
  - intros [Hx ->]. by apply (dict_by_lookup key id).
Qed.

Lemma flat_map_fst_nil {A} (f : A -> list pystr * bool) l :
  flat_map fst (f <$> l) = [] <-> forall x, x ∈ l -> (f x).1 = [].
Proof.
  induction l as [|x l IH]; csimpl; [set_solver|].
  rewrite app_nil. rewrite IH. setoid_rewrite elem_of_cons. naive_solver.
Qed.

Section compare.
Context (bo co : list SelectedObligation) (bw cw : list SelectedWitness).
Context (Hbo : NoDup (so_obligation_id <$> bo)) (Hco : NoDup (so_obligation_id <$> co)).
Context (Hreq : same_requirements bo co) (Hb : closure_spec bo bw) (Hc : closure_spec co cw).

Let Hbw : NoDup (sw_witness_id <$> bw) := canonical_NoDup _ (cs_ids _ _ Hb).
Let Hcw : NoDup (sw_witness_id <$> cw) := canonical_NoDup _ (cs_ids _ _ Hc).

Lemma compare_reasons_nil :
  cc_reasons (compare_coverage bo bw co cw) = [] <-> covers co bo.
Proof.
  transitivity (flat_map fst (compare_obligation (dict_by so_obligation_id id co) <$>
      map_to_list (dict_by so_obligation_id id bo)) ++
    flat_map fst (compare_witness (dict_by sw_witness_id id cw) <$>
      map_to_list (dict_by sw_witness_id id bw)) = []).
  { unfold compare_coverage. set (l := flat_map fst _ ++ flat_map fst _).
    assert (isort lex_leb l = [] <-> l = []) as Hl.
    { split; [|by intros ->]. intros E. apply Permutation_nil. by rewrite <-E, isort_perm. }
    rewrite <-Hl. case_bool_decide as E; cbn; [done|by rewrite E]. }
  rewrite app_nil, !flat_map_fst_nil. split.
  - intros [H1 _] s Hs. specialize (H1 (so_obligation_id s, s)). unfold compare_obligation in H1. cbn in H1.
    destruct (dict_by so_obligation_id id co !! so_obligation_id s) as [c|] eqn:Ec.
    2: { exfalso. by discriminate H1; apply dict_entries. }
    apply dict_by_Some in Ec as (x & Hx & Ex & <-). exists x. cbn in H1.
    specialize (H1 (proj2 (dict_entries _ _ _ _ Hbo) (conj Hs eq_refl))).
    split_and!; [done|done|symmetry; by apply Hreq|]. apply app_eq_nil in H1 as [_ H1].
    destruct (Z.ltb_spec (depth_rank (so_depth x)) (depth_rank (so_depth s))); [done|lia].
  - intros Hcov. split.
    + intros [k s] [Hs ->]%dict_entries; [|done]. destruct (Hcov s Hs) as (s' & Hs' & Ei & Er & Hd).
      unfold compare_obligation. cbn. rewrite <-Ei, (dict_by_lookup so_obligation_id id) by done. cbn.
      rewrite Er, bool_decide_eq_false_2 by (intros Hn; by apply Hn). cbn.
      destruct (Z.ltb_spec (depth_rank (so_depth s')) (depth_rank (so_depth s))); [lia|done].
    + intros [k w] [Hw ->]%dict_entries; [|done].
      destruct (closure_covers _ _ _ _ Hcov Hc Hb w Hw) as (w' & Hw' & Ei & Hedges & Hd).
      unfold compare_witness. cbn. rewrite <-Ei, (dict_by_lookup sw_witness_id id) by done. cbn.
      rewrite bool_decide_eq_true_2.
      2: { unfold str_set. intros i. rewrite !elem_of_list_to_set. apply Hedges. } cbn.
      destruct (Z.ltb_spec (depth_rank (sw_depth w')) (depth_rank (sw_depth w))); [lia|done].
Qed.

Definition strengthened : bool :=
  existsb snd (compare_obligation (dict_by so_obligation_id id co) <$> map_to_list (dict_by so_obligation_id id bo)) ||
  bool_decide (dom (dict_by so_obligation_id id co) ∖ dom (dict_by so_obligation_id id bo) <> ∅) ||
  existsb snd (compare_witness (dict_by sw_witness_id id cw) <$> map_to_list (dict_by sw_witness_id id bw)) ||
  bool_decide (dom (dict_by sw_witness_id id cw) ∖ dom (dict_by sw_witness_id id bw) <> ∅).

Lemma no_new_keys {A} (key : A -> pystr) (l l' : list A) :
  bool_decide (dom (dict_by key id l') ∖ dom (dict_by key id l) <> ∅) = false <->
  forall x, x ∈ l' -> key x ∈ key <$> l.
Proof.
  rewrite bool_decide_eq_false. split.
  - intros E%dec_stable x Hx. apply (dict_by_elem key id), elem_of_dom.
    destruct (decide (key x ∈ dom (dict_by key id l))); [done|]. exfalso.
    assert (key x ∈ (∅ : gset pystr)) as He; [|set_solver]. rewrite <-E. apply elem_of_difference. split; [|done].
    apply elem_of_dom, (dict_by_elem key id). by apply list_elem_of_fmap_2.
  - intros H Hn. apply Hn, set_eq. intros k. rewrite elem_of_difference, !elem_of_dom, !dict_by_elem.
    split; [|set_solver]. intros [(x & -> & Hx)%list_elem_of_fmap Hk]. by apply H in Hx.
Qed.

Lemma strengthened_false : strengthened = false <-> covers bo co.
Proof.
  unfold strengthened. rewrite !orb_false_iff', !no_new_keys, !existsb_false. split.
  - intros [[[H1 H2] _] _] s Hs. pose proof (H2 s Hs) as Hk.
    apply list_elem_of_fmap in Hk as (x & Ex & Hx). exists x. split_and!; [done|done|by apply Hreq|].
    assert ((compare_obligation (dict_by so_obligation_id id co) (so_obligation_id x, x)).2 = false) as Hf.
    { apply H1, list_elem_of_fmap_2. by apply dict_entries. }
    unfold compare_obligation in Hf. cbn in Hf. rewrite <-Ex, (dict_by_lookup so_obligation_id id) in Hf by done.
    cbn in Hf. by bdec.
  - intros Hcov. pose proof (closure_covers _ _ _ _ Hcov Hb Hc) as Hwc. split_and!.
    + intros y ([k s] & -> & Hin)%list_elem_of_fmap. apply dict_entries in Hin as [Hs ->]; [|done]. unfold compare_obligation. cbn.
      destruct (dict_by so_obligation_id id co !! so_obligation_id s) as [c|] eqn:Ec; [|done].
      apply dict_by_Some in Ec as (x & Hx & Ex & <-). cbn. destruct (Hcov x Hx) as (s' & Hs' & Ei & _ & Hd).
      assert (s' = s) as ->.
      { pose proof (dict_by_lookup so_obligation_id id bo s' Hbo Hs') as L1.
        rewrite Ei, Ex, (dict_by_lookup so_obligation_id id bo s Hbo Hs) in L1. by injection L1. }
      apply Z.ltb_ge. lia.
    + intros s Hs. destruct (Hcov s Hs) as (s' & Hs' & <- & _). by apply list_elem_of_fmap_2.
    + intros y ([k s] & -> & Hin)%list_elem_of_fmap. apply dict_entries in Hin as [Hs ->]; [|done]. unfold compare_witness. cbn.
      destruct (dict_by sw_witness_id id cw !! sw_witness_id s) as [c|] eqn:Ec; [|done].
      apply dict_by_Some in Ec as (x & Hx & Ex & <-). cbn. destruct (Hwc x Hx) as (s' & Hs' & Ei & _ & Hd).
      assert (s' = s) as ->.
      { pose proof (dict_by_lookup sw_witness_id id bw s' Hbw Hs') as L1.
        rewrite Ei, Ex, (dict_by_lookup sw_witness_id id bw s Hbw Hs) in L1. by injection L1. }
      apply Z.ltb_ge. lia.
    + intros s Hs. destruct (Hwc s Hs) as (s' & Hs' & <- & _). by apply list_elem_of_fmap_2.
Qed.

Lemma compare_relation :
  relation (compare_coverage bo bw co cw) =
  if bool_decide (cc_reasons (compare_coverage bo bw co cw) = [])
  then if strengthened then strictly_greater else equal
  else if strengthened then incomparable else less.
Proof.
  unfold compare_coverage. fold strengthened. case_bool_decide as E; cbn.
  - by rewrite (bool_decide_eq_false_2 (_ = [])).
  - done.
Qed.
End compare.

(** ** The two witness closures agree *)

(** An obligation of the selection carries the catalog's requirements. *)
Definition keeps_requirements (c : ValidationCatalog) (s : SelectedObligation) : Prop :=
  exists o, dict_by obligation_id id (obligations c) !! so_obligation_id s = Some o /\
    so_required_witness_ids s = required_witness_ids o.

Lemma require_witness_same by_id s m wid m' :
  Witnesses.require_witness by_id s m wid = Ok m' <-> require_witness by_id s m wid = Ok m'.
Proof.
  unfold Witnesses.require_witness, require_witness. destruct (by_id !! wid); cbn [from_option mbind res_bind]; [|done].
  done.
Qed.

Lemma foldR_same {A S} (f g : S -> A -> res S) l s s' :
  (forall s x s', x ∈ l -> f s x = Ok s' <-> g s x = Ok s') -> foldR f s l = Ok s' <-> foldR g s l = Ok s'.
Proof.
  revert s. induction l as [|x l IH]; intros s Hfg; cbn [foldR]; [done|]. rewrite !bind_Ok.
  split; intros (y & Hy & Hr); exists y.
  - split; [apply Hfg; [set_solver|done]|]. apply IH; [|done]. intros. apply Hfg. set_solver.
  - split; [apply Hfg; [set_solver|done]|]. apply IH; [|done]. intros. apply Hfg. set_solver.
Qed.

Lemma require_witnesses_same c m s m' :
  keeps_requirements c s -> Witnesses.require_witnesses c m s = Ok m' <-> require_witnesses c m s = Ok m'.
Proof.
  intros (o & Ho & Er). unfold Witnesses.require_witnesses, require_witnesses. rewrite Ho. cbn [from_option mbind res_bind].
  rewrite Er, bool_decide_eq_false_2 by (intros Hn; by apply Hn). cbn [raise_if mbind res_bind].
  apply foldR_same. intros. apply require_witness_same.
Qed.

Lemma closure_keeps_requirements c l m m' :
  foldR (Witnesses.require_witnesses c) m l = Ok m' -> Forall (keeps_requirements c) l.
Proof.
  revert m. induction l as [|s l IH]; intros m Hf; [constructor|]. cbn [foldR] in Hf.
  apply bind_Ok in Hf as (m1 & Hs & Hf). constructor; [|by eapply IH].
  unfold Witnesses.require_witnesses in Hs. apply bind_Ok in Hs as (o & Ho%from_option_Ok & Hs).
  apply bind_Ok in Hs as ([] & Hr%raise_if_Ok & _). bdec. by exists o.
Qed.

(** The verifier's closure is the planner's on selections that keep the
    catalog's requirements, and refuses every other selection. *)
Lemma closures_agree c l ws :
  Witnesses.close_selected_witnesses c l = Ok ws <->
  Forall (keeps_requirements c) l /\ close_selected_witnesses c l = Ok ws.
Proof.
  unfold Witnesses.close_selected_witnesses, close_selected_witnesses. rewrite !bind_Ok. split.
  - intros (m & Hm & Hr). pose proof (closure_keeps_requirements _ _ _ _ Hm) as Hk. split; [done|].
    exists m. split; [|done]. eapply foldR_same; [|exact Hm]. intros. symmetry. apply require_witnesses_same.
    rewrite Forall_forall in Hk. auto.
  - intros (Hk & m & Hm & Hr). exists m. split; [|done]. eapply foldR_same; [|exact Hm]. intros.
    apply require_witnesses_same. rewrite Forall_forall in Hk. auto.
Qed.

Lemma require_witness_supported by_id s m wids m' :
  foldR (require_witness by_id s) m wids = Ok m' ->
  forall wid, wid ∈ wids -> exists w, by_id !! wid = Some w /\ so_depth s ∈ supported_depths w.
Proof.
  revert m. induction wids as [|wid wids IH]; intros m Hf wid' Hin; [set_solver|]. cbn [foldR] in Hf.
  apply bind_Ok in Hf as (m1 & Hs & Hf). apply elem_of_cons in Hin as [->|Hin]; [|by eapply IH].
  unfold require_witness in Hs. apply bind_Ok in Hs as (w & Hw%from_option_Ok & Hs).
  apply bind_Ok in Hs as ([] & Hd%raise_if_Ok & _). bdec. by exists w.
Qed.

Lemma require_witnesses_selects c l m m' :
  Forall (keeps_requirements c) l -> foldR (require_witnesses c) m l = Ok m' -> Forall (selects c) l.
Proof.
  intros Hk. revert m. induction Hk as [|s l (o & Ho & Er) Hk IH]; intros m Hf; [constructor|]. cbn [foldR] in Hf.
  apply bind_Ok in Hf as (m1 & Hs & Hf). constructor; [|by eapply IH].
  unfold require_witnesses in Hs. rewrite Ho in Hs. cbn [from_option mbind res_bind] in Hs.
  apply dict_by_Some in Ho as (o' & Ho' & Ei & E). cbn in E. subst o'. exists o. split_and!; [done|done|done|].
  by eapply require_witness_supported.
Qed.

(** What a selection the verifier can close satisfies, and its closure. *)
Lemma verifier_closure_spec c l ws :
  catalog_ok c -> canonical (so_obligation_id <$> l) -> Witnesses.close_selected_witnesses c l = Ok ws ->
  Forall (selects c) l /\ closure_spec l ws.
Proof.
  intros Hc Hl [Hk Hw]%closures_agree. assert (Forall (selects c) l) as Hs.
  { unfold close_selected_witnesses in Hw. apply bind_Ok in Hw as (m & Hm & _). by eapply require_witnesses_selects. }
  split; [done|]. destruct (close_selected_witnesses_total c l Hc Hs Hl) as (ws' & E & Hspec). congruence.
Qed.

Lemma selects_keeps c s : catalog_ok c -> selects c s -> keeps_requirements c s.
Proof. intros Hc (o & Ho & Ei & Er & _). exists o. rewrite Ei. split; [by apply catalog_lookup|done]. Qed.

Lemma verifier_closure_total c l :
  catalog_ok c -> Forall (selects c) l -> canonical (so_obligation_id <$> l) ->
  exists ws, Witnesses.close_selected_witnesses c l = Ok ws /\ closure_spec l ws.
Proof.
  intros Hc Hs Hl. destruct (close_selected_witnesses_total c l Hc Hs Hl) as (ws & E & Hspec).
  exists ws. split; [|done]. apply closures_agree. split; [|done].
  eapply Forall_impl; [exact Hs|]. intros s. by apply selects_keeps.
Qed.

(** ** The verifier's impact derivation *)

Lemma walk_inv_ext by_path changed todo todo' st :
  (forall p, p ∈ todo <-> p ∈ todo') -> walk_inv by_path changed todo st -> walk_inv by_path changed todo' st.
Proof.
  intros E [H1 H2 H3 H4 H5 H6 H7 H8]. split; [done| |done| | | |done|done].
  - intros p. rewrite <-E. apply H2.
  - intros p node dep. rewrite <-E. apply H4.
  - intros p node r. rewrite <-E. apply H5.
  - intros p. rewrite <-E. apply H6.
Qed.

Lemma derive_walk_total by_path changed all :
  (forall p node dep, by_path !! p = Some node -> dep ∈ dependents node -> dep ∈ all) ->
  forall fuel todo impacted risks unk,
  walk_inv by_path changed todo (ImpactState impacted risks unk) ->
  (length todo + size (all ∖ impacted) <= fuel)%nat ->
  exists impacted' risks' unk', derive_walk fuel by_path todo impacted risks = Ok (impacted', risks') /\
    walk_inv by_path changed [] (ImpactState impacted' risks' unk').
Proof.
  intros Hall fuel. induction fuel as [|f IH]; intros [|p rest] impacted risks unk Hinv Hm; simpl.
  - by exists impacted, risks, unk.
  - simpl in Hm. lia.
  - by exists impacted, risks, unk.
  - destruct (by_path !! p) as [node|] eqn:Hp.
    + destruct (visit_dependents _ _) as [s' new] eqn:Hv.
      apply (IH _ _ _ unk).
      * eapply walk_inv_ext; [|by eapply (walk_inv_node _ _ all Hall p rest (ImpactState impacted risks unk))].
        intros q. rewrite !elem_of_app, elem_of_reverse. tauto.
      * pose proof (walk_measure_node by_path all Hall _ rest (ImpactState impacted risks unk) _ _ _ Hp Hv) as Hms.
        rewrite !length_app, length_reverse in *. simpl in *. lia.
    + apply (IH _ _ _ ({[p]} ∪ unk)); [exact (walk_inv_unknown _ _ all Hall _ _ _ Hinv Hp)|]. simpl in Hm. lia.
Qed.

(** What the derived facts are, on the input alone. *)
Record facts_spec (input : PlanningInput) (changed : list pystr) (f : _ImpactFacts) : Prop := {
  fs_impacted : forall p, p ∈ f_impacted f <-> reached (node_map input) changed p;
  fs_risks : forall r, r ∈ f_risks f <-> reached_risk (node_map input) changed r;
  fs_unknown : forall p, p ∈ f_unknown f <-> p ∈ changed /\ node_map input !! p = None;
  fs_global : forall p, p ∈ f_global f <-> p ∈ changed /\ is_global_risk input p = true;
}.

Lemma graph_dependents (ns : list DependencyGraphNode) p node dep :
  dict_by node_path id ns !! p = Some node -> dep ∈ dependents node -> dep ∈ str_set (flat_map dependents ns).
Proof.
  intros (n & Hn & _ & E)%dict_by_Some Hd. simpl in E. subst node. unfold str_set.
  apply elem_of_list_to_set, list_elem_of_In, in_flat_map. exists n. by rewrite <-!list_elem_of_In.
Qed.

Lemma size_str_set (l : list pystr) : (size (str_set l) <= length l)%nat.
Proof.
  unfold str_set. induction l as [|x l IH]; simpl; [done|].
  rewrite size_union_alt, size_singleton.
  assert (size ((list_to_set l : gset pystr) ∖ {[x]}) <= size (list_to_set l : gset pystr))%nat
    by (apply subseteq_size; set_solver). lia.
Qed.

(** The order in which the set of changed paths is listed does not matter. *)
Lemma derive_impact_from_spec input changed pending :
  (forall p, p ∈ pending <-> p ∈ changed) ->
  exists f, derive_impact_from input (str_set changed) pending = Ok f /\ facts_spec input changed f.
Proof.
  intros Hp. unfold derive_impact_from. set (ns := nodes (dependency_graph input)).
  assert (forall p : pystr, p ∈ str_set changed <-> p ∈ changed) as Hset.
  { intros p. unfold str_set. apply elem_of_list_to_set. }
  destruct (derive_walk_total (dict_by node_path id ns) changed (str_set (flat_map dependents ns))
    (graph_dependents ns) (walk_fuel pending ns) (reverse pending) (str_set changed) ∅
    (str_set (filter (fun p => dict_by node_path id ns !! p = None) changed)))
    as (impacted & risks & unk & E & Hinv).
  - split; simpl.
    + intros p. apply Hset.
    + intros p. by rewrite elem_of_reverse, Hp, Hset.
    + intros p Hc%Hset. by apply reached_changed.
    + intros p node dep Hc%Hset Hn. exfalso. apply Hn. by rewrite elem_of_reverse, Hp.
    + intros p node dep Hc%Hset Hn. exfalso. apply Hn. by rewrite elem_of_reverse, Hp.
    + intros p Hc%Hset Hn. exfalso. apply Hn. by rewrite elem_of_reverse, Hp.
    + set_solver.
    + intros p [Hn Hc]%elem_of_list_to_set%list_elem_of_filter. split; [by apply reached_changed|done].
  - unfold walk_fuel. rewrite length_reverse. apply Nat.add_le_mono_l.
    etransitivity; [|apply size_str_set]. apply subseteq_size. set_solver.
  - rewrite E. cbn [mbind res_bind]. eexists; split; [done|].
    destruct (walk_final (dict_by node_path id ns) changed _ (graph_dependents ns) _ Hinv) as (F1 & F2 & _). simpl in F1, F2.
    split; cbn.
    + exact F1.
    + exact F2.
    + intros p. rewrite elem_of_difference, Hset, elem_of_dom. unfold node_map, ns.
      rewrite <-eq_None_not_Some. done.
    + intros p. rewrite elem_of_filter, Hset. unfold is_global_risk. tauto.
Qed.

Lemma derive_impact_spec input changed :
  changed_paths (diff input) = Ok changed ->
  exists f, _derive_impact input = Ok f /\ facts_spec input changed f.
Proof.
  intros Hc. unfold _derive_impact. rewrite Hc. cbn [mbind res_bind]. apply derive_impact_from_spec.
  intros p. rewrite elem_of_elements. unfold str_set. apply elem_of_list_to_set.
Qed.

(** ** What an admitted candidate satisfies *)

(** The context in which omissions may be considered at all. *)
Record context_admitted `{Sha256} (input : PlanningInput) : Prop := {
  cx_reasons : fallback_reasons input = [];
  cx_diff : diff_invalidating_reasons (diff input) = [] /\ truncated (diff input) = false;
  cx_complete : complete (source (diff input)) = true;
  cx_count : file_count (source (diff input)) = Z.of_nat (length (files (diff input))) /\
    file_count (source (diff input)) <= max_files (source (diff input));
  cx_graph : graph_invalidating_reasons (dependency_graph input) = [] /\ graph_fresh (dependency_graph input) = true;
  cx_shas : re_base_sha (repo_epoch input) = base_sha (diff input) /\ re_head_sha (repo_epoch input) = head_sha (diff input);
  cx_epoch : hash_mapping (RepositoryEpoch_mapping (repo_epoch input)) =
    Ok (admitted_repo_epoch_hash (dependency_graph input));
  cx_diff_hash : admitted_diff_hash (dependency_graph input) = diff_hash (diff input);
  cx_policy : admitted_config_epoch_id (dependency_graph input) = epoch_id (policy input) /\
    admitted_policy_hash (dependency_graph input) = ps_policy_hash (policy input) /\
    admitted_compiled_policy_hash (dependency_graph input) = ps_compiled_policy_hash (policy input);
}.

(** The verifier's own condition for leaving an obligation out. *)
Record omission_admissible `{Sha256} (input : PlanningInput) (changed : list pystr) (o : ValidationObligation) : Prop := {
  oa_allowed : omit_allowed o = true;
  oa_context : context_admitted input;
  oa_global : forall p, p ∈ changed -> is_global_risk input p = false;
  oa_known : forall p, p ∈ changed -> node_map input !! p <> None;
  oa_paths : forall p, reached (node_map input) changed p -> path_in_responsibility o p = false;
  oa_risks : forall r, reached_risk (node_map input) changed r -> r ∉ responsibility_risk_classes o;
}.

Record plan_admitted `{Sha256} (input : PlanningInput) (pol : PlanningPolicy) (changed : list pystr)
    (p : DeterministicPlan) : Prop := {
  pa_coordinates : coordinates_match input pol;
  pa_bound : plan_input_hash p = input_hash input /\ plan_catalog_hash p = pp_catalog_hash pol;
  pa_timeout : timeout_seconds (fallback p) = fallback_timeout_seconds pol;
  pa_partition : (so_obligation_id <$> selected_obligations p) ++ (oo_obligation_id <$> omitted_obligations p)
    ≡ₚ obligation_id <$> obligations (catalog pol);
  pa_closure : closure_spec (selected_obligations p) (selected_witnesses p);
  pa_selects : Forall (selects (catalog pol)) (selected_obligations p);
  pa_depth : forall s, s ∈ selected_obligations p -> exists o, o ∈ obligations (catalog pol) /\
    s = selection (if triggered (fallback p) then full_depth else default_depth) o;
  pa_fallback : triggered (fallback p) = true -> omitted_obligations p = [];
  pa_omitted : forall om, om ∈ omitted_obligations p -> exists o, o ∈ obligations (catalog pol) /\
    oo_obligation_id om = obligation_id o /\ oo_required_witness_ids om = required_witness_ids o /\
    proof_for input pol o (oo_proof om) /\ omission_admissible input changed o;
}.

Lemma andR_true b k : andR b k = Ok true <-> b = true /\ k = Ok true.
Proof. destruct b; cbn; naive_solver. Qed.

Lemma selective_context_admitted `{Sha256} input :
  _selective_context_is_admitted input = Ok true -> context_admitted input.
Proof.
  unfold _selective_context_is_admitted. intros (eh & Heh & E)%bind_Ok. injection E as E. bdec.
  split; split_and?; assumption.
Qed.

Lemma coordinates_current `{Sha256} input pol c :
  _coordinates_are_current input pol c = Ok true ->
  coordinates_match input pol /\ plan_input_hash c = input_hash input /\ plan_catalog_hash c = pp_catalog_hash pol.
Proof.
  unfold _coordinates_are_current. intros (eh & Heh & E)%bind_Ok. apply bind_Ok in E as (cur & Hcur & E).
  apply andR_true in E as [-> E]. apply bind_Ok in E as (h & _ & E). injection E as E.
  unfold _input_coordinates_are_current in Hcur. apply bind_Ok in Hcur as (dh & _ & Hcur).
  apply bind_Ok in Hcur as (ih & _ & Hcur). injection Hcur as Hcur. unfold _policy_context_is_current in Hcur.
  bdec. unfold coordinates_match. split_and!; assumption.
Qed.

Lemma omission_valid_admissible `{Sha256} input pol changed om f eh :
  catalog_ok (catalog pol) -> facts_spec input changed f -> context_admitted input ->
  f_unknown f = ∅ -> f_global f = ∅ ->
  hash_mapping (RepositoryEpoch_mapping (repo_epoch input)) = Ok eh ->
  _omission_is_valid input pol om f (dict_by obligation_id id (obligations (catalog pol))) eh = true ->
  exists o, o ∈ obligations (catalog pol) /\ oo_obligation_id om = obligation_id o /\
    oo_required_witness_ids om = required_witness_ids o /\ proof_for input pol o (oo_proof om) /\
    omission_admissible input changed o.
Proof.
  intros Hc [F1 F2 F3 F4] Hctx Hu Hg Heh. unfold _omission_is_valid.
  destruct (_ !! oo_obligation_id om) as [o|] eqn:Ho; [|done]. intros E.
  apply dict_by_Some in Ho as (o' & Ho & Ei & Eo). cbn in Eo. subst o'. bdec.
  repeat match goal with E : existsb _ _ = false |- _ => rewrite existsb_false in E end.
  exists o. do 3 (split; [by auto|]). split; [unfold proof_for; split_and!; congruence|].
  split; [assumption|assumption| | | |].
  - intros p Hp. destruct (is_global_risk input p) eqn:Eg; [|done]. exfalso.
    assert (p ∈ f_global f) as Hx by (apply F4; split; assumption). rewrite Hg in Hx. by apply elem_of_empty in Hx.
  - intros p Hp En. assert (p ∈ f_unknown f) as Hx by (apply F3; split; assumption). rewrite Hu in Hx. by apply elem_of_empty in Hx.
  - intros p Hp%F1. unfold path_in_responsibility. apply existsb_false. intros pat Hpat.
    match goal with E : forall x, x ∈ responsibility_paths o -> _ |- _ => specialize (E pat Hpat) end. cbn in *.
    match goal with E : existsb _ (elements _) = false |- _ => rewrite existsb_false in E; apply E end.
    by apply elem_of_elements.
  - intros r Hr%F2 Hin.
    match goal with E : forall x, x ∈ responsibility_risk_classes o -> _ |- _ => specialize (E r Hin) end. by bdec.
Qed.

Lemma expected_selected_Ok c (use_full : bool) l :
  _expected_selected c use_full = Ok l ->
  l = selection (if use_full then full_depth else default_depth) <$> obligations c.
Proof.
  unfold _expected_selected. intros Hl%mapR_Ok. induction Hl as [|o s os l Hs Hl IH]; [done|]. csimpl.
  f_equal; [|done]. unfold SelectedObligation_new in Hs. apply bind_Ok in Hs as ([] & _ & Hs). injection Hs as <-.
  by destruct use_full.
Qed.

Lemma plan_check_canonical `{Sha256} p :
  DeterministicPlan_check p = Ok tt ->
  canonical (so_obligation_id <$> selected_obligations p) /\ canonical (sw_witness_id <$> selected_witnesses p) /\
  canonical (oo_obligation_id <$> omitted_obligations p).
Proof.
  unfold DeterministicPlan_check. intros Hck.
  repeat match type of Hck with (_ ≫= _) = _ => apply bind_Ok in Hck as (? & ? & Hck) end.
  repeat match goal with E : _require_ordered_ids _ _ = _ |- _ => apply require_ordered_ids_Ok in E end. split_and!; assumption.
Qed.

Lemma exact_full_ci_spec p pol :
  catalog_ok (catalog pol) -> _is_exact_full_ci p pol = Ok true ->
  timeout_seconds (fallback p) = fallback_timeout_seconds pol /\ omitted_obligations p = [] /\
  selected_obligations p = selection full_depth <$> obligations (catalog pol) /\
  Witnesses.close_selected_witnesses (catalog pol) (selected_obligations p) = Ok (selected_witnesses p).
Proof.
  intros Hc. unfold _is_exact_full_ci. intros (l & Hl%expected_selected_Ok & E)%bind_Ok.
  apply andR_true in E as [E1 E]. apply bind_Ok in E as (ws & Hws & E). apply andR_true in E as [E2 _]. bdec.
  split_and!; congruence.
Qed.

(** The ids of a complete structure partition the catalog. *)
Lemma partition_of_sets (sel om cat : list pystr) :
  NoDup sel -> NoDup om -> NoDup cat -> str_set sel ∩ str_set om = ∅ ->
  (forall i, i ∈ str_set sel ∪ str_set om <-> i ∈ cat) -> sel ++ om ≡ₚ cat.
Proof.
  unfold str_set. intros H1 H2 H3 Hd He. apply NoDup_Permutation; [|done|].
  - apply NoDup_app. split_and!; [done| |done]. intros i Hs Ho.
    assert (i ∈ (∅ : gset pystr)) as Hx; [|set_solver]. rewrite <-Hd. set_solver.
  - intros i. rewrite <-He, elem_of_app, elem_of_union, !elem_of_list_to_set. done.
Qed.

Lemma selective_structure_spec `{Sha256} p pol :
  catalog_ok (catalog pol) -> DeterministicPlan_check p = Ok tt ->
  _is_complete_selective_structure p (catalog pol) = Ok true ->
  (so_obligation_id <$> selected_obligations p) ++ (oo_obligation_id <$> omitted_obligations p)
    ≡ₚ obligation_id <$> obligations (catalog pol) /\
  (forall s, s ∈ selected_obligations p -> exists o, o ∈ obligations (catalog pol) /\ s = selection default_depth o) /\
  Witnesses.close_selected_witnesses (catalog pol) (selected_obligations p) = Ok (selected_witnesses p).
Proof.
  intros Hc Hck. destruct (plan_check_canonical _ Hck) as (C1 & _ & C3). clear Hck.
  unfold _is_complete_selective_structure.
  destruct (_ || _) eqn:E1; [done|]. intros E. apply bind_Ok in E as (wrong & Hw & E).
  destruct (existsb id wrong) eqn:E2; [done|]. apply bind_Ok in E as (ws & Hws & E).
  destruct (bool_decide_reflect (selected_witnesses p <> ws)) as [|<-%dec_stable]; [done|]. clear E. bdec.
  split_and!; [| |done].
  - apply partition_of_sets; try by apply canonical_NoDup.
    + apply canonical_NoDup, Hc.
    + done.
    + intros i. match goal with E : _ ∪ _ = dom _ |- _ => rewrite E end. by rewrite elem_of_dom, dict_by_elem.
  - intros s Hs. destruct (mapR_elem _ _ _ _ Hw Hs) as (b & Hb & Hin). rewrite existsb_false in E2.
    specialize (E2 b Hin). cbn in E2. subst b. apply bind_Ok in Hb as (o & Ho%from_option_Ok & Hb).
    injection Hb as Hb. bdec. apply dict_by_Some in Ho as (o' & Ho & Ei & Eo). cbn in Eo. subst o'.
    exists o. split; [done|]. destruct s; unfold selection; cbn in *. congruence.
Qed.

(** Admission is sound for every candidate, whoever built it. *)
Lemma admit_plan_sound `{Sha256} input pol changed p :
  catalog_ok (catalog pol) -> DeterministicPlan_check p = Ok tt -> changed_paths (diff input) = Ok changed ->
  admit_deterministic_plan input pol p = Ok None -> plan_admitted input pol changed p.
Proof.
  intros Hc Hck Hch. unfold admit_deterministic_plan. intros (cur & Hcur & E)%bind_Ok.
  destruct cur; [|done]. cbn [negb] in E. apply coordinates_current in Hcur as (K1 & K2).
  destruct (plan_check_canonical _ Hck) as (C1 & _ & C3).
  destruct (triggered (fallback p)) eqn:Et.
  - apply bind_Ok in E as (b & Hb & E). destruct b; [|done].
    apply exact_full_ci_spec in Hb as (T & Eo & Es & Hws); [|done].
    destruct (verifier_closure_spec _ _ _ Hc C1 Hws) as [Hsel Hcl].
    split; try done; rewrite ?Et, ?Eo.
    + by rewrite Es, selection_ids, app_nil_r.
    + intros s. rewrite Es. intros (o & -> & Ho)%list_elem_of_fmap. eauto.
    + set_solver.
  - apply bind_Ok in E as (adm & Hadm & E). destruct adm; [|done]. apply selective_context_admitted in Hadm.
    cbn [negb] in E. apply bind_Ok in E as (str & Hstr & E). destruct str; [|done]. cbn [negb] in E.
    destruct (Z.eqb_spec (timeout_seconds (fallback p)) (fallback_timeout_seconds pol)) as [T|]; [|done].
    cbn [negb] in Hstr. apply selective_structure_spec in Hstr as (P1 & P2 & Hws); [|done|done].
    destruct (verifier_closure_spec _ _ _ Hc C1 Hws) as [Hsel Hcl].
    destruct (derive_impact_spec input changed Hch) as (f & Ef & Hf). rewrite Ef in E. cbn [mbind res_bind] in E.
    destruct (bool_decide (f_unknown f <> ∅) || bool_decide (f_global f <> ∅)) eqn:Eu; [done|]. bdec.
    apply bind_Ok in E as (v & Hv & E). destruct v; [|done]. clear E.
    split; try assumption; rewrite ?Et; [exact P2|discriminate|].
    intros om Hom. unfold _omissions_are_valid in Hv. apply bind_Ok in Hv as (eh & Heh & Hv). injection Hv as Hv.
    rewrite forallb_elem in Hv. by eapply omission_valid_admissible; eauto.
Qed.

(** ** Properties *)

(** C4: admission is sound for every candidate, whoever built it: an admitted
    plan is bound to the current input and policy, decides every obligation once
    with its own witnesses, closes the selection, runs it at full depth with no
    omission when it is a fallback and at default depth otherwise, and carries
    for every omission a proof bound to this input whose claims the verifier
    derived itself. *)
Theorem admitted_plan_sound `{Sha256} input pol changed p :
  catalog_ok (catalog pol) ->
  DeterministicPlan_check p = Ok tt ->
  changed_paths (diff input) = Ok changed ->
  admit_deterministic_plan input pol p = Ok None ->
  plan_admitted input pol changed p.
Proof. apply admit_plan_sound. Qed.

(** C16: on selections of one catalog closed to their witnesses, the coverage
    comparison is the order of the selections: covering the base both ways is
    equal, one way strictly greater or less, neither way incomparable. *)
Theorem compare_coverage_correct bo bw co cw :
  NoDup (so_obligation_id <$> bo) ->
  NoDup (so_obligation_id <$> co) ->
  same_requirements bo co ->
  closure_spec bo bw ->
  closure_spec co cw ->
  match relation (compare_coverage bo bw co cw) with
  | equal => covers co bo /\ covers bo co
  | strictly_greater => covers co bo /\ ¬ covers bo co
  | less => ¬ covers co bo /\ covers bo co
  | incomparable => ¬ covers co bo /\ ¬ covers bo co
  end.
Proof.
  intros H1 H2 H3 H4 H5. pose proof (compare_reasons_nil _ _ _ _ H1 H2 H3 H4 H5) as Hr.
  pose proof (strengthened_false _ _ _ _ H1 H2 H3 H4 H5) as Hs. rewrite compare_relation.
  destruct (bool_decide_reflect (cc_reasons (compare_coverage bo bw co cw) = [])) as [E|E];
    rewrite Hr in E; destruct (strengthened bo co bw cw) eqn:Es; (split; [done|]);
    first [by apply Hs | intros Hx%Hs; congruence].
Qed.

(** The verifier's impact derivation returns for any listing of the changed
    paths, and its result does not depend on the listing: the impacted paths are
    the ones reachable in the dependency graph, the risks those of the nodes
    reached, and the unknown and global risk paths those of the change. *)
Theorem derive_impact_is_reachability input changed pending :
  (forall p, p ∈ pending <-> p ∈ changed) ->
  exists f, derive_impact_from input (str_set changed) pending = Ok f /\ facts_spec input changed f.
Proof. apply derive_impact_from_spec. Qed.

(** The verifier's witness closure is the planner's on the selections that
    keep the catalog's requirements, and it refuses every other selection. *)
Theorem witness_closures_agree c l ws :
  Witnesses.close_selected_witnesses c l = Ok ws <->
  Forall (keeps_requirements c) l /\ close_selected_witnesses c l = Ok ws.
Proof. apply closures_agree. Qed.
