(* ===== verification/ConfigControl.v ===== *)
(** * Admitted configuration epochs and their planning projection

    Models, of [config_control], [contracts.py] (scopes and validated drafts),
    the identities of [_compiler.py] and [planning_projection.py], and
    [PlanningPolicy.from_projection] of [planning_core/policy.py]: from the
    bytes of a retained epoch to the policy the planner is run with.  Drafts
    made by parsing a document are not modelled: a draft here is any value its
    constructor accepts. *)

From stdpp Require Import base gmap sets list sorting strings.
From Stdlib Require Import ZArith Lia.
From Stdlib Require Import SpecFloat.
From S2P Require Import Prelude Text PathPatterns PyFloat CanonicalJson Hashing JsonLoads Contract RepoContext Planning.

(** ** [contracts.py] *)

Record RepositoryScope := { scope_installation_id : Z; scope_repository_id : Z }.
#[export] Instance RepositoryScope_eq_dec : EqDecision RepositoryScope.
Proof. solve_decision. Defined.

Definition RepositoryScope_check (s : RepositoryScope) : res unit :=
  let require value field_name :=
    raise_if (negb ((1 <=? value) && (value <=? MAX_SAFE_JSON_INTEGER)))
      (ValueError (field_name ++ u " must be a positive JSON safe integer")) in
  require (scope_installation_id s) (u "installation_id") ;;
  require (scope_repository_id s) (u "repository_id").

Inductive PolicySourceFormat := FormatJson | FormatYaml12.
#[export] Instance PolicySourceFormat_eq_dec : EqDecision PolicySourceFormat.
Proof. solve_decision. Defined.

Definition source_format_str (f : PolicySourceFormat) : pystr :=
  match f with FormatJson => u "json" | FormatYaml12 => u "yaml-1.2" end.

Definition MAX_CONFIG_CONTRACT_ID_UTF8_BYTES : Z := 4096.
Definition MAX_POLICY_SOURCE_BYTES : Z := 2097152.
Definition _MAX_OUTPUT_BYTES : Z := 4194304.

Record ValidatedEpochDraft := {
  source_format : PolicySourceFormat;
  source_bytes : list Z;
  draft_scope : RepositoryScope;
  normalized_document_bytes : list Z;
  compiled_policy_bytes : list Z;
  document_schema_id : pystr;
  document_profile_id : pystr;
  semantic_profile_id : pystr;
  compiled_schema_id : pystr;
  producer_resource_profile_id : pystr;
  producer_byte_profile_id : pystr;
  producer_feasibility_profile_id : pystr;
  source_hash : pystr;
  document_hash : pystr;
  epoch_hash : pystr;
  draft_epoch_id : pystr;
}.
#[export] Instance ValidatedEpochDraft_eq_dec : EqDecision ValidatedEpochDraft.
Proof. solve_decision. Defined.

Definition _require_bytes (value : list Z) (field_name : pystr) (minimum maximum : Z) : res unit :=
  raise_if (negb ((minimum <=? Z.of_nat (length value)) && (Z.of_nat (length value) <=? maximum)))
    (ValueError (field_name ++ u " must be exact bytes with length " ++ int_str minimum ++ u ".." ++ int_str maximum)).

Definition _require_unicode_scalar_string (value field_name : pystr) (maximum_utf8_bytes : Z) : res unit :=
  raise_if (bool_decide (value = [])) (ValueError (field_name ++ u " must be a non-empty Unicode scalar string")) ;;
  raise_if (negb (is_unicode_scalar_string value))
    (ValueError (field_name ++ u " must contain only Unicode scalar values")) ;;
  n ← utf8_length value;
  raise_if (maximum_utf8_bytes <? n) (ValueError (field_name ++ u " exceeds its UTF-8 byte limit")).

Definition ValidatedEpochDraft_check (d : ValidatedEpochDraft) : res unit :=
  _require_bytes (source_bytes d) (u "source_bytes") 0 MAX_POLICY_SOURCE_BYTES ;;
  _require_bytes (normalized_document_bytes d) (u "normalized_document_bytes") 1 _MAX_OUTPUT_BYTES ;;
  _require_bytes (compiled_policy_bytes d) (u "compiled_policy_bytes") 1 _MAX_OUTPUT_BYTES ;;
  mapR (fun '(value, field_name) => _require_unicode_scalar_string value (u field_name) MAX_CONFIG_CONTRACT_ID_UTF8_BYTES)
    [(document_schema_id d, "document_schema_id"); (document_profile_id d, "document_profile_id");
     (semantic_profile_id d, "semantic_profile_id"); (compiled_schema_id d, "compiled_schema_id");
     (producer_resource_profile_id d, "producer_resource_profile_id");
     (producer_byte_profile_id d, "producer_byte_profile_id");
     (producer_feasibility_profile_id d, "producer_feasibility_profile_id")]%string ;;
  mapR (fun '(value, field_name) => raise_if (negb (is_sha256_hex value))
          (ValueError (u field_name ++ u " must be lowercase SHA-256 hexadecimal")))
    [(source_hash d, "source_hash"); (document_hash d, "document_hash"); (epoch_hash d, "epoch_hash");
     (draft_epoch_id d, "epoch_id")]%string ;;
  Ok tt.

(** ** Identities, [_compiler.py] *)

Section identities.
Context `{Sha256}.

Definition _COMPILED_DOMAIN : list Z := u "ci-compiled-repository-policy/v1" ++ [0].
Definition _EPOCH_ID_DOMAIN : list Z := u "ci-config-epoch/v1" ++ [0].

Definition compiled_policy_hash_of (compiled_policy_bytes : list Z) : pystr :=
  sha256_hex (_COMPILED_DOMAIN ++ compiled_policy_bytes).

(** [value.encode("ascii")]. *)
Definition encode_ascii (value : pystr) : res (list Z) :=
  if forallb (fun c => c <? 128) value then Ok value else Raise UnicodeEncodeError.

Definition scope_mapping (scope : RepositoryScope) : pyval :=
  obj [("installationId", VInt (scope_installation_id scope)); ("repositoryId", VInt (scope_repository_id scope))]%string.

Definition config_epoch_id_of (scope : RepositoryScope) (source_hash document_hash epoch_hash : pystr) : res pystr :=
  scope_bytes ← canonical_json None (fresh 0 (scope_mapping scope));
  source ← encode_ascii source_hash;
  document ← encode_ascii document_hash;
  epoch ← encode_ascii epoch_hash;
  Ok (sha256_hex (_EPOCH_ID_DOMAIN ++ scope_bytes ++ [0] ++ source ++ [0] ++ document ++ [0] ++ epoch)).

(** ** [planning_projection.py]: fields of decoded JSON *)

Definition _object (value : pyval) (field_name : pystr) : res (list (dkey * pyval)) :=
  let refused := ValueError (field_name ++ u " must be an object") in
  match value with
  | VDict _ items =>
      if forallb (fun kv : dkey * pyval => match kv.1 with KStr _ => true | KOther _ => false end) items
      then Ok items else Raise refused
  | _ => Raise refused
  end.

Definition _array (value : pyval) (field_name : pystr) : res (list pyval) :=
  match value with
  | VList _ items => Ok items
  | _ => Raise (ValueError (field_name ++ u " must be an array"))
  end.

Definition _objects (value : pyval) (field_name : pystr) : res (list (list (dkey * pyval))) :=
  items ← _array value field_name;
  mapR (fun item => _object item (field_name ++ u " item")) items.

Definition _nonempty_string (value : pyval) (field_name : pystr) : res pystr :=
  let refused := ValueError (field_name ++ u " must be a non-empty Unicode scalar string") in
  match value with
  | VStr s => if bool_decide (s <> []) && is_unicode_scalar_string s then Ok s else Raise refused
  | _ => Raise refused
  end.

Definition _canonical_strings (value : pyval) (field_name : pystr) (require_nonempty : bool) : res (list pystr) :=
  items ← _array value field_name;
  values ← mapR (fun item => _nonempty_string item (field_name ++ u " item")) items;
  raise_if (require_nonempty && bool_decide (values = [])) (ValueError (field_name ++ u " must not be empty")) ;;
  ordered ← sorted_unique values;
  raise_if (bool_decide (values <> ordered)) (ValueError (field_name ++ u " must be canonical")) ;;
  Ok values.

Definition _sha256 (value : pyval) (field_name : pystr) : res pystr :=
  result ← _nonempty_string value field_name;
  raise_if (negb (is_sha256_hex result)) (ValueError (field_name ++ u " must be lowercase SHA-256 hexadecimal")) ;;
  Ok result.

Definition _dependency_graph_source (value : pyval) (field_name : pystr) : res graph_source :=
  result ← _nonempty_string value field_name;
  if bool_decide (result = u "configured") then Ok configured
  else if bool_decide (result = u "generated") then Ok generated
  else Raise (ValueError (field_name ++ u " is not an admitted dependency graph source")).

Definition _depth (value : pyval) (field_name : pystr) : res ValidationDepth :=
  match validation_depth value field_name with
  | Raise (ValueError _) => Raise (ValueError (field_name ++ u " is not an admitted validation depth"))
  | r => r
  end.

Definition _integer (value : pyval) (field_name : pystr) (minimum maximum : Z) : res Z :=
  let refused := ValueError (field_name ++ u " is outside its admitted range") in
  match value with
  | VInt z => if (minimum <=? z) && (z <=? maximum) then Ok z else Raise refused
  | _ => Raise refused
  end.

Definition _number (value : pyval) (field_name : pystr) (minimum maximum : Z) : res spec_float :=
  let refused := ValueError (field_name ++ u " is outside its admitted range") in
  result ← match value with
           | VInt z => py_float_of_int z
           | VFloat f => Ok f
           | _ => Raise refused
           end;
  if SFleb (float_of_Z minimum) result && SFleb result (float_of_Z maximum) then Ok result else Raise refused.

Definition _boolean (value : pyval) (field_name : pystr) : res bool :=
  match value with
  | VBool b => Ok b
  | _ => Raise (ValueError (field_name ++ u " must be a boolean"))
  end.

(** ** [planning_projection.py]: the projection *)

Record _CompiledAgentAdvice := {
  ca_enabled : bool;
  ca_model_id_allowlist : list pystr;
  ca_prompt_hash_allowlist : list pystr;
  ca_min_confidence : spec_float;
  ca_prompt_injection_eval_required : bool;
}.

(** [==] of the dataclass. *)
Definition advice_eqb (a b : _CompiledAgentAdvice) : bool :=
  Bool.eqb (ca_enabled a) (ca_enabled b) &&
  bool_decide (ca_model_id_allowlist a = ca_model_id_allowlist b) &&
  bool_decide (ca_prompt_hash_allowlist a = ca_prompt_hash_allowlist b) &&
  SFeqb (ca_min_confidence a) (ca_min_confidence b) &&
  Bool.eqb (ca_prompt_injection_eval_required a) (ca_prompt_injection_eval_required b).

Record DynamicCiPlanningProjection := {
  _admitted_epoch : ValidatedEpochDraft;
  pr_epoch_id : pystr;
  pr_compiled_policy_hash : pystr;
  pr_policy_hash : pystr;
  pr_dependency_graph_source : graph_source;
  pr_global_risk_paths : list pystr;
  pr_risk_classes : list pystr;
  pr_agent_advice : _CompiledAgentAdvice;
  pr_fallback_timeout_seconds : Z;
  pr_validation_catalog : ValidationCatalog;
}.

Definition projection_eqb (p q : DynamicCiPlanningProjection) : bool :=
  bool_decide (_admitted_epoch p = _admitted_epoch q) && bool_decide (pr_epoch_id p = pr_epoch_id q) &&
  bool_decide (pr_compiled_policy_hash p = pr_compiled_policy_hash q) &&
  bool_decide (pr_policy_hash p = pr_policy_hash q) &&
  bool_decide (pr_dependency_graph_source p = pr_dependency_graph_source q) &&
  bool_decide (pr_global_risk_paths p = pr_global_risk_paths q) &&
  bool_decide (pr_risk_classes p = pr_risk_classes q) && advice_eqb (pr_agent_advice p) (pr_agent_advice q) &&
  (pr_fallback_timeout_seconds p =? pr_fallback_timeout_seconds q) &&
  ValidationCatalog_eqb (pr_validation_catalog p) (pr_validation_catalog q).

Definition _agent_advice (value : pyval) : res _CompiledAgentAdvice :=
  advice ← _object value (u "dynamicCi.agentAdvice");
  confidence ← _number (dict_get advice "minConfidence") (u "dynamicCi.agentAdvice.minConfidence") 0 1;
  on ← _boolean (dict_get advice "enabled") (u "dynamicCi.agentAdvice.enabled");
  models ← _canonical_strings (dict_get advice "modelIdAllowlist") (u "dynamicCi.agentAdvice.modelIdAllowlist") false;
  prompts ← _canonical_strings (dict_get advice "promptHashAllowlist")
              (u "dynamicCi.agentAdvice.promptHashAllowlist") false;
  eval ← _boolean (dict_get advice "promptInjectionEvalRequired")
           (u "dynamicCi.agentAdvice.promptInjectionEvalRequired");
  Ok {| ca_enabled := on; ca_model_id_allowlist := models; ca_prompt_hash_allowlist := prompts;
        ca_min_confidence := confidence; ca_prompt_injection_eval_required := eval |}.

Definition _validation_obligation (value : list (dkey * pyval)) : res ValidationObligation :=
  responsibility ← _object (dict_get value "responsibility") (u "dynamicCi.obligation.responsibility");
  oid ← _nonempty_string (dict_get value "obligationId") (u "dynamicCi.obligation.obligationId");
  paths ← _canonical_strings (dict_get responsibility "paths") (u "dynamicCi.obligation.responsibility.paths") false;
  risks ← _canonical_strings (dict_get responsibility "riskClasses")
            (u "dynamicCi.obligation.responsibility.riskClasses") false;
  required ← _canonical_strings (dict_get value "requiredWitnessIds") (u "dynamicCi.obligation.requiredWitnessIds") true;
  default_d ← _depth (dict_get value "defaultDepth") (u "dynamicCi.obligation.defaultDepth");
  full_d ← _depth (dict_get value "fullDepth") (u "dynamicCi.obligation.fullDepth");
  omit ← _boolean (dict_get value "omitAllowed") (u "dynamicCi.obligation.omitAllowed");
  let o := {| obligation_id := oid; responsibility_paths := paths; responsibility_risk_classes := risks;
              required_witness_ids := required; default_depth := default_d; full_depth := full_d;
              omit_allowed := omit |} in
  ValidationObligation_check o ;; Ok o.

Definition _executable_witness (value : list (dkey * pyval)) : res ExecutableWitness :=
  items ← _array (dict_get value "supportedDepths") (u "supportedDepths");
  depths ← mapR (fun item => _depth item (u "dynamicCi.witness.supportedDepths item")) items;
  raise_if (bool_decide (depths <> sorted_depths depths))
    (ValueError (u "dynamicCi.witness.supportedDepths must be canonical")) ;;
  wid ← _nonempty_string (dict_get value "witnessId") (u "dynamicCi.witness.witnessId");
  pid ← _nonempty_string (dict_get value "executionProfileId") (u "dynamicCi.witness.executionProfileId");
  let w := {| witness_id := wid; execution_profile_id := pid; supported_depths := depths |} in
  ExecutableWitness_check w ;; Ok w.

Definition _profile_string (profile : list (dkey * pyval)) (field : string) : res pystr :=
  _nonempty_string (dict_get profile field) (u "dynamicCi.executionProfile." ++ u field).

Definition _bounded_integer (value : list (dkey * pyval)) (field : string) (maximum : Z) : res Z :=
  _integer (dict_get value field) (u "dynamicCi.executionProfile.shardingPolicy." ++ u field) 1 maximum.

Definition bounded_float (value : list (dkey * pyval)) (field : string) (maximum : Z) : res spec_float :=
  _number (dict_get value field) (u "dynamicCi.executionProfile.shardingPolicy." ++ u field) 0 maximum.

Definition _execution_profile (value : list (dkey * pyval)) : res ExecutionProfile :=
  sharding ← _object (dict_get value "shardingPolicy") (u "dynamicCi.executionProfile.shardingPolicy");
  pid ← _profile_string value "profileId";
  runner ← _profile_string value "runnerProfileId";
  permission ← _profile_string value "permissionProfileId";
  credential ← _profile_string value "credentialProfileId";
  fixture ← _profile_string value "fixtureProfileId";
  services ← _canonical_strings (dict_get value "serviceProfileIds")
               (u "dynamicCi.executionProfile.serviceProfileIds") false;
  capacity ← _profile_string value "capacityClassId";
  shards ← _bounded_integer sharding "maxShards" 256;
  parallel ← _bounded_integer sharding "maxParallel" 256;
  items ← _bounded_integer sharding "maxItemsPerShard" 10000;
  setup ← bounded_float sharding "setupSecondsPerShard" 3600;
  cpu ← bounded_float sharding "cpuWeight" 1000;
  wall ← bounded_float sharding "wallWeight" 1000;
  oper ← bounded_float sharding "operatorWeight" 1000;
  let policy := {| max_shards := shards; max_parallel := parallel; max_items_per_shard := items;
                   setup_seconds_per_shard := NFloat setup; cpu_weight := NFloat cpu; wall_weight := NFloat wall;
                   operator_weight := NFloat oper |} in
  ShardingPolicy_check policy ;;
  let p := {| profile_id := pid; runner_profile_id := runner; permission_profile_id := permission;
              credential_profile_id := credential; fixture_profile_id := fixture; service_profile_ids := services;
              capacity_class_id := capacity; sharding_policy := policy |} in
  ExecutionProfile_check p ;; Ok p.

Definition _verify_epoch_identity (draft : ValidatedEpochDraft) : res unit :=
  let compiled_hash := compiled_policy_hash_of (compiled_policy_bytes draft) in
  raise_if (bool_decide (compiled_hash <> epoch_hash draft)) (ValueError (u "compiled policy bytes do not match epoch hash")) ;;
  expected_epoch_id ← config_epoch_id_of (draft_scope draft) (source_hash draft) (document_hash draft) compiled_hash;
  raise_if (bool_decide (expected_epoch_id <> draft_epoch_id draft))
    (ValueError (u "validated epoch fields do not match epoch identity")).

(** The catalog of [compiled["dynamicCi"]]. *)
Definition projected_catalog (value : list (dkey * pyval)) : res ValidationCatalog :=
  os ← _objects (dict_get value "obligations") (u "dynamicCi.obligations");
  os ← mapR _validation_obligation os;
  ws ← _objects (dict_get value "witnesses") (u "dynamicCi.witnesses");
  ws ← mapR _executable_witness ws;
  ps ← _objects (dict_get value "executionProfiles") (u "dynamicCi.executionProfiles");
  ps ← mapR _execution_profile ps;
  ValidationCatalog_new os ws ps.

Definition _project_verified_epoch (draft : ValidatedEpochDraft) : res (option DynamicCiPlanningProjection) :=
  decoded ← json_loads_bytes (compiled_policy_bytes draft);
  compiled ← _object decoded (u "compiled policy");
  match dict_get compiled "dynamicCi" with
  | VNone => Ok None
  | dynamic =>
      value ← _object dynamic (u "compiled dynamic CI policy");
      catalog ← projected_catalog value;
      configured_catalog_hash ← _sha256 (dict_get value "configuredValidationCatalogHash")
                                  (u "dynamicCi.configuredValidationCatalogHash");
      raise_if (bool_decide (catalog_hash catalog <> configured_catalog_hash))
        (ValueError (u "configured validation catalog hash does not match catalog facts")) ;;
      policy_hash ← _sha256 (dict_get value "policyHash") (u "dynamicCi.policyHash");
      source ← _dependency_graph_source (dict_get value "dependencyGraphSource") (u "dynamicCi.dependencyGraphSource");
      global_paths ← _canonical_strings (dict_get value "globalRiskPaths") (u "dynamicCi.globalRiskPaths") false;
      risks ← _canonical_strings (dict_get value "riskClasses") (u "dynamicCi.riskClasses") false;
      advice ← _agent_advice (dict_get value "agentAdvice");
      timeout ← _integer (dict_get value "fallbackTimeoutSeconds") (u "dynamicCi.fallbackTimeoutSeconds") 1 3600;
      Ok (Some {| _admitted_epoch := draft; pr_epoch_id := draft_epoch_id draft;
                  pr_compiled_policy_hash := epoch_hash draft; pr_policy_hash := policy_hash;
                  pr_dependency_graph_source := source; pr_global_risk_paths := global_paths;
                  pr_risk_classes := risks; pr_agent_advice := advice; pr_fallback_timeout_seconds := timeout;
                  pr_validation_catalog := catalog |})
  end.

Definition project_dynamic_ci_planning (draft : ValidatedEpochDraft) : res (option DynamicCiPlanningProjection) :=
  _verify_epoch_identity draft ;; _project_verified_epoch draft.

Definition assert_integrity (p : DynamicCiPlanningProjection) : res unit :=
  _verify_epoch_identity (_admitted_epoch p) ;;
  q ← _project_verified_epoch (_admitted_epoch p);
  raise_if (negb match q with Some q => projection_eqb p q | None => false end)
    (ValueError (u "planning projection facts do not match the admitted epoch")).

(** ** [planning_core/policy.py] *)

Definition from_projection (projection : DynamicCiPlanningProjection) : res PlanningPolicy :=
  assert_integrity projection ;;
  let advice := pr_agent_advice projection in
  advice ← AgentAdvicePolicy_new
    {| enabled := ca_enabled advice; model_id_allowlist := ca_model_id_allowlist advice;
       prompt_hash_allowlist := ca_prompt_hash_allowlist advice; min_confidence := NFloat (ca_min_confidence advice);
       prompt_injection_eval_required := ca_prompt_injection_eval_required advice |};
  let p := {| pp_config_epoch_id := pr_epoch_id projection;
              pp_compiled_policy_hash := pr_compiled_policy_hash projection; pp_policy_hash := pr_policy_hash projection;
              catalog := pr_validation_catalog projection;
              fallback_timeout_seconds := pr_fallback_timeout_seconds projection; agent_advice := advice |} in
  PlanningPolicy_check p ;; Ok p.

(** ** What a projection guarantees *)

Lemma project_verified d p :
  project_dynamic_ci_planning d = Ok (Some p) ->
  _admitted_epoch p = d /\ pr_epoch_id p = draft_epoch_id d /\ pr_compiled_policy_hash p = epoch_hash d /\
  catalog_ok (pr_validation_catalog p).
Proof.
  unfold project_dynamic_ci_planning, _project_verified_epoch. intros Hp. inv_res.
  destruct (dict_get _ "dynamicCi"); inv_res; try discriminate. simplify_eq/=. split_and!; [done..|].
  unfold projected_catalog in *. inv_res. eapply ValidationCatalog_new_ok; [eassumption|].
  apply Forall_forall. intros o Ho.
  match goal with E : mapR _validation_obligation _ = Ok _ |- _ => destruct (mapR_elem_inv _ _ _ _ E Ho) as (v & Hv & _) end.
  unfold _validation_obligation in Hv. inv_res. done.
Qed.

Lemma from_projection_facts p pol :
  from_projection p = Ok pol ->
  catalog pol = pr_validation_catalog p /\ fallback_timeout_seconds pol = pr_fallback_timeout_seconds p /\
  pp_config_epoch_id pol = pr_epoch_id p /\ pp_compiled_policy_hash pol = pr_compiled_policy_hash p /\
  pp_policy_hash pol = pr_policy_hash p /\ PlanningPolicy_check pol = Ok tt.
Proof.
  unfold from_projection. intros Hp. inv_res. simplify_eq/=. split_and!; try done.
Qed.

(** A projection depends on nothing of the draft but its compiled bytes, up to
    the draft itself and its identities. *)
Lemma project_same_bytes d e p q :
  compiled_policy_bytes d = compiled_policy_bytes e ->
  project_dynamic_ci_planning d = Ok (Some p) -> project_dynamic_ci_planning e = Ok (Some q) ->
  pr_validation_catalog p = pr_validation_catalog q.
Proof.
  unfold project_dynamic_ci_planning, _project_verified_epoch. intros E Hp Hq.
  apply bind_Ok in Hp as ([] & _ & Hp). apply bind_Ok in Hq as ([] & _ & Hq). rewrite E in Hp.
  apply bind_Ok in Hp as (v & Hv & Hp). rewrite Hv in Hq. cbn [mbind res_bind] in Hq.
  apply bind_Ok in Hp as (c & Hc & Hp). rewrite Hc in Hq. cbn [mbind res_bind] in Hq.
  destruct (dict_get c "dynamicCi"); inv_res; try discriminate; simplify_eq/=; congruence.
Qed.
End identities.
