(* ===== verification/ContextInputs.v ===== *)
(** * The planning input of a change under a policy

    Models [PolicySnapshot.from_projection] of [repo_context/planning_input.py]
    and the last step of [integrations/github/repository_context.py]: what is
    read of the repository does not depend on the policy, and the policy's
    snapshot turns it into a dependency graph and a planning input. *)

From stdpp Require Import base gmap sets list sorting strings.
From Stdlib Require Import ZArith Lia.
From S2P Require Import Prelude Text PathPatterns PyFloat CanonicalJson Hashing JsonLoads Contract RepoContext Planning ConfigControl.

Section inputs.
Context `{Sha256}.

(** [PolicySnapshot.from_projection]. *)
Definition snapshot_from_projection (projection : DynamicCiPlanningProjection) : res PolicySnapshot :=
  assert_integrity projection ;;
  let p := {| epoch_id := pr_epoch_id projection; ps_compiled_policy_hash := pr_compiled_policy_hash projection;
              ps_policy_hash := pr_policy_hash projection; dependency_graph_source := pr_dependency_graph_source projection;
              ps_global_risk_paths := pr_global_risk_paths projection; ps_risk_classes := pr_risk_classes projection |} in
  PolicySnapshot_check p ;; Ok p.

(** The graph used when the repository's artifact cannot be. *)
Definition _fallback_graph (epoch : RepositoryEpoch) (d : DiffContext) (policy : PolicySnapshot) : res DependencyGraphContext :=
  build_dependency_graph epoch d policy
    {| da_provenance := {| gp_source := dependency_graph_source policy; schema_version := []; generator := [];
                           retrieved_for_sha := re_head_sha epoch; trusted := false; invalidates_when_changed := [] |};
       da_nodes := []; da_global_risk_paths := ps_global_risk_paths policy |}.

(** What is read of the repository for one change: its diff, and the artifact of
    the dependency graph unless there is none to be used. *)
Record repository_change := {
  change_epoch : RepositoryEpoch;
  change_diff : DiffContext;
  change_artifact : option DependencyGraphArtifact;
}.

Definition change_input (c : repository_change) (policy : PolicySnapshot) : res PlanningInput :=
  graph ← match change_artifact c with
          | Some artifact => build_dependency_graph (change_epoch c) (change_diff c) policy artifact
          | None => _fallback_graph (change_epoch c) (change_diff c) policy
          end;
  build_planning_input (change_epoch c) (change_diff c) graph policy.

(** The input of a change under the policy of a retained epoch. *)
Definition input_under (c : repository_change) (draft : ValidatedEpochDraft) (input : PlanningInput) : Prop :=
  exists projection policy, project_dynamic_ci_planning draft = Ok (Some projection) /\
    snapshot_from_projection projection = Ok policy /\ change_input c policy = Ok input.

Lemma snapshot_facts projection policy : snapshot_from_projection projection = Ok policy ->
  dependency_graph_source policy = pr_dependency_graph_source projection /\
  ps_global_risk_paths policy = pr_global_risk_paths projection /\ ps_risk_classes policy = pr_risk_classes projection.
Proof. unfold snapshot_from_projection. intros E. inv_res. simplify_eq/=. done. Qed.

(** ** Snapshots that read a repository alike *)

Record snapshots_agree (s s' : PolicySnapshot) : Prop := {
  sa_source : dependency_graph_source s = dependency_graph_source s';
  sa_global : ps_global_risk_paths s = ps_global_risk_paths s';
  sa_risks : ps_risk_classes s = ps_risk_classes s';
}.

Lemma freshness_agrees s s' re d prov ns risk : snapshots_agree s s' ->
  _freshness_reasons re d s prov ns risk = _freshness_reasons re d s' prov ns risk.
Proof. intros [E1 E2 E3]. unfold _freshness_reasons. by rewrite E1, E2, E3. Qed.

(** A graph that is built, with its artifact normalised. *)
Lemma graph_built re d s a g : build_dependency_graph re d s a = Ok g -> exists eh p ns risk reasons,
  _normalized_nodes (da_nodes a) = Ok ns /\ sorted_unique (da_global_risk_paths a) = Ok risk /\
  _normalized_provenance (da_provenance a) = Ok p /\ _freshness_reasons re d s p ns risk = Ok reasons /\
  sorted_unique reasons = Ok (graph_invalidating_reasons g) /\ hash_mapping (RepositoryEpoch_mapping re) = Ok eh /\
  nodes g = ns /\ global_risk_paths g = ps_global_risk_paths s /\ admitted_repo_epoch_hash g = eh /\ admitted_diff_hash g = diff_hash d /\
  admitted_config_epoch_id g = epoch_id s /\ admitted_policy_hash g = ps_policy_hash s /\ admitted_compiled_policy_hash g = ps_compiled_policy_hash s.
Proof.
  unfold build_dependency_graph. intros Hb.
  apply bind_Ok in Hb as (ns & Hns & Hb). apply bind_Ok in Hb as (risk & Hrisk & Hb). apply bind_Ok in Hb as (prov & Hprov & Hb).
  apply bind_Ok in Hb as (reasons & Hreasons & Hb). apply bind_Ok in Hb as (inv & Hinv & Hb). apply bind_Ok in Hb as (eh & Heh & Hb).
  apply bind_Ok in Hb as (h & _ & Hb). apply bind_Ok in Hb as ([] & _ & Hb). injection Hb as <-.
  exists eh, prov, ns, risk, reasons. repeat (split; [first [eassumption|reflexivity]|]). reflexivity.
Qed.

Lemma graphs_agree s s' re d a g g' : snapshots_agree s s' ->
  build_dependency_graph re d s a = Ok g -> build_dependency_graph re d s' a = Ok g' ->
  nodes g = nodes g' /\ global_risk_paths g = global_risk_paths g' /\ graph_invalidating_reasons g = graph_invalidating_reasons g'.
Proof.
  intros Hs (eh & p & ns & risk & rs & N & R & P & F & I & _ & En & Eg & _)%graph_built (eh' & p' & ns' & risk' & rs' & N' & R' & P' & F' & I' & _ & En' & Eg' & _)%graph_built.
  assert (ns = ns') as <- by congruence. assert (risk = risk') as <- by congruence. assert (p = p') as <- by congruence.
  rewrite (freshness_agrees s s') in F by done. assert (rs = rs') as <- by congruence. destruct Hs as [_ Hg _]. split_and!; congruence.
Qed.

Lemma differs_not `{EqDecision A} (x : A) : bool_decide (x <> x) = false.
Proof. apply bool_decide_eq_false_2. intros Hn. by apply Hn. Qed.

(** The two inputs of one change differ in nothing a plan depends on but the
    identities of the policy. *)
Lemma change_inputs_agree c s s' i j : snapshots_agree s s' -> change_input c s = Ok i -> change_input c s' = Ok j ->
  diff i = change_diff c /\ diff j = change_diff c /\ nodes (dependency_graph i) = nodes (dependency_graph j) /\
  global_risk_paths (dependency_graph i) = global_risk_paths (dependency_graph j) /\ fallback_reasons i = fallback_reasons j.
Proof.
  intros Hs (g & Eg & Ei)%bind_Ok (g' & Eg' & Ej)%bind_Ok.
  destruct (build_planning_input_fields _ _ _ _ _ Ei) as (_ & -> & Gi & _), (build_planning_input_fields _ _ _ _ _ Ej) as (_ & -> & Gj & _). rewrite Gi, Gj.
  assert (Hg : exists a, build_dependency_graph (change_epoch c) (change_diff c) s a = Ok g /\ build_dependency_graph (change_epoch c) (change_diff c) s' a = Ok g').
  { destruct (change_artifact c) as [a|]; [exists a; exact (conj Eg Eg')|]. unfold _fallback_graph in Eg, Eg'. rewrite <- (sa_source _ _ Hs), <- (sa_global _ _ Hs) in Eg'. eexists. exact (conj Eg Eg'). }
  destruct Hg as (a & B & B'). destruct (graphs_agree _ _ _ _ _ _ _ Hs B B') as (En & Er & Ereasons). split_and!; [done..|].
  apply graph_built in B as (eh & _ & _ & _ & _ & _ & _ & _ & _ & _ & H1 & _ & _ & A1 & A2 & A3 & A4 & A5).
  apply graph_built in B' as (eh' & _ & _ & _ & _ & _ & _ & _ & _ & _ & H1' & _ & _ & A1' & A2' & A3' & A4' & A5').
  assert (eh' = eh) as -> by (rewrite H1 in H1'; by injection H1').
  unfold build_planning_input in Ei, Ej. rewrite H1 in Ei, Ej. cbn [mbind res_bind] in Ei, Ej.
  apply bind_Ok in Ei as (h & _ & Ei). apply bind_Ok in Ej as (h' & _ & Ej). apply bind_Ok in Ei as (f & F & [= <-]). apply bind_Ok in Ej as (f' & F' & [= <-]).
  cbn [fallback_reasons]. rewrite A1, A2, A3, A4, A5, Ereasons in F. rewrite A1', A2', A3', A4', A5' in F'.
  rewrite !differs_not in F, F'. congruence.
Qed.
End inputs.
