(* ===== verification/Rollback.v ===== *)
(** * Rollback between retained epochs

    Models [planning_core/rollback_coverage.py], the conservative comparison of
    the coverage of two retained epochs, and [config_epochs/rollback.py], which
    admits a rollback on the relation a comparator gives. *)

From stdpp Require Import base gmap sets list sorting strings.
From Stdlib Require Import ZArith Lia.
From Stdlib Require Import SpecFloat.
From S2P Require Import Prelude Text PathPatterns PyFloat CanonicalJson Hashing JsonLoads Contract RepoContext Planning ConfigControl.

(** ** [==] of decoded JSON

    A bool, an int and a float are compared by value; dicts are compared as
    maps.  The decoder gives one and the same NaN object, and containers take
    an item to equal itself. *)

Definition py_number (v : pyval) : option num :=
  match v with
  | VBool b => Some (NInt (if b then 1 else 0))
  | VInt z => Some (NInt z)
  | VFloat f => Some (NFloat f)
  | _ => None
  end.

Fixpoint pyeq (v w : pyval) {struct v} : bool :=
  match v, w with
  | VNone, VNone | VFloat S754_nan, VFloat S754_nan => true
  | VStr s, VStr t => bool_decide (s = t)
  | VList _ l, VList _ m => (fix items (l m : list pyval) :=
      match l, m with
      | [], [] => true
      | x :: l', y :: m' => pyeq x y && items l' m'
      | _, _ => false
      end) l m
  | VDict _ l, VDict _ m =>
      (length l =? length m)%nat &&
      forallb (fun kp : dkey * (pyval -> bool) =>
        match List.find (fun kw => bool_decide (kw.1 = kp.1)) m with Some kw => kp.2 kw.2 | None => false end)
        (map (fun kv => (kv.1, pyeq kv.2)) l)
  | _, _ => match py_number v, py_number w with Some a, Some b => num_eqb a b | _, _ => false end
  end.

(** ** [config_epochs/rollback.py]: relations *)

Inductive CoverageRelation := cov_equal | cov_greater | cov_less | cov_incomparable | cov_unknown | cov_unavailable.
#[export] Instance CoverageRelation_eq_dec : EqDecision CoverageRelation.
Proof. solve_decision. Defined.

(** ** [planning_core/rollback_coverage.py] *)

Definition _compiled_policy_parts (value : list Z) : res (list (dkey * pyval) * pyval) :=
  decoded ← json_loads_bytes value;
  match decoded with
  | VDict _ compiled =>
      if bool_decide (KStr (u "dynamicCi") ∈ compiled.*1)
      then Ok (List.filter (fun kv => negb (bool_decide (kv.1 = KStr (u "dynamicCi")))) compiled, dict_get compiled "dynamicCi")
      else Raise (ValueError (u "compiled policy is missing dynamic CI state"))
  | _ => Raise (ValueError (u "compiled policy must be an object"))
  end.

Definition _set_order (active target : list pystr) : option Z :=
  let active_set := str_set active in
  let target_set := str_set target in
  if bool_decide (active_set = target_set) then Some 0
  else if bool_decide (active_set ⊂ target_set) then Some 1
  else if bool_decide (target_set ⊂ active_set) then Some (-1)
  else None.

Definition _order (active target : Z) : Z := (if active <? target then 1 else 0) - (if target <? active then 1 else 0).

Definition _collapse_directions (directions : list Z) : CoverageRelation :=
  let greater := existsb (fun d => 0 <? d) directions in
  let less := existsb (fun d => d <? 0) directions in
  if greater && less then cov_incomparable
  else if greater then cov_greater
  else if less then cov_less
  else cov_equal.

(** [int(b)]. *)
Definition int_of_bool (b : bool) : Z := if b then 1 else 0.

Definition _compare_obligation_coverage (active target : ValidationObligation) : option (list Z) :=
  if bool_decide (obligation_id active <> obligation_id target) ||
     bool_decide (required_witness_ids active <> required_witness_ids target) then None
  else
    let directions :=
      [_order (depth_rank (default_depth active)) (depth_rank (default_depth target));
       _order (depth_rank (full_depth active)) (depth_rank (full_depth target));
       _order (int_of_bool (omit_allowed active)) (int_of_bool (omit_allowed target)) * -1] in
    if omit_allowed active && omit_allowed target then
      match _set_order (responsibility_paths active) (responsibility_paths target),
            _set_order (responsibility_risk_classes active) (responsibility_risk_classes target) with
      | Some path_direction, Some risk_direction => Some (directions ++ [path_direction; risk_direction])
      | _, _ => None
      end
    else Some directions.

(** The loop over the zipped obligations; [None] is the early return of
    [incomparable], and [strict=True] raises on a difference of lengths. *)
Fixpoint obligation_directions (directions : list Z) (active target : list ValidationObligation)
    : res (option (list Z)) :=
  match active, target with
  | [], [] => Ok (Some directions)
  | a :: active', t :: target' =>
      match _compare_obligation_coverage a t with
      | None => Ok None
      | Some relation => obligation_directions (directions ++ relation) active' target'
      end
  | _, _ => Raise (ValueError (u "zip() argument 2 does not match argument 1"))
  end.

Section comparison.
Context `{Sha256}.

Definition _compare_retained_epoch_coverage (active target : ValidatedEpochDraft) : res CoverageRelation :=
  if bool_decide (compiled_policy_bytes active = compiled_policy_bytes target) then Ok cov_equal
  else
    '(active_outer, active_dynamic) ← _compiled_policy_parts (compiled_policy_bytes active);
    '(target_outer, target_dynamic) ← _compiled_policy_parts (compiled_policy_bytes target);
    if negb (pyeq (VDict 0 active_outer) (VDict 0 target_outer)) ||
       match active_dynamic, target_dynamic with VNone, _ | _, VNone => true | _, _ => false end
    then Ok cov_incomparable
    else
      active_projection ← project_dynamic_ci_planning active;
      target_projection ← project_dynamic_ci_planning target;
      match active_projection, target_projection with
      | Some a, Some t =>
          if bool_decide (pr_dependency_graph_source a <> pr_dependency_graph_source t) ||
             bool_decide (pr_global_risk_paths a <> pr_global_risk_paths t) ||
             bool_decide (pr_risk_classes a <> pr_risk_classes t) ||
             negb (advice_eqb (pr_agent_advice a) (pr_agent_advice t)) ||
             negb (pr_fallback_timeout_seconds a =? pr_fallback_timeout_seconds t)
          then Ok cov_incomparable
          else
            active_policy ← from_projection a;
            target_policy ← from_projection t;
            let ac := catalog active_policy in
            let tc := catalog target_policy in
            if bool_decide (witnesses ac <> witnesses tc) ||
               negb (list_eqb ExecutionProfile_eqb (execution_profiles ac) (execution_profiles tc)) ||
               bool_decide (obligation_id <$> obligations ac <> obligation_id <$> obligations tc)
            then Ok cov_incomparable
            else
              directions ← obligation_directions [] (obligations ac) (obligations tc);
              Ok match directions with
                 | None => cov_incomparable
                 | Some directions => _collapse_directions directions
                 end
      | _, _ => Ok cov_incomparable
      end.

Record ConservativeEpochCoverageComparator := {
  comparator_active : ValidatedEpochDraft;
  comparator_target : ValidatedEpochDraft;
}.

(** [except (TypeError, ValueError, UnicodeError, json.JSONDecodeError)]. *)
Definition is_comparison_error (e : exn) : bool :=
  is_value_error e || match e with TypeError _ => true | _ => false end.

Definition compare (self : ConservativeEpochCoverageComparator) (scope : RepositoryScope)
    (active_epoch_id target_epoch_id : pystr) : res CoverageRelation :=
  let active := comparator_active self in
  let target := comparator_target self in
  if bool_decide (draft_scope active <> scope) || bool_decide (draft_scope target <> scope) ||
     bool_decide (draft_epoch_id active <> active_epoch_id) || bool_decide (draft_epoch_id target <> target_epoch_id)
  then Ok cov_unknown
  else match _compare_retained_epoch_coverage active target with
       | Ok relation => Ok relation
       | Raise e => if is_comparison_error e then Ok cov_unknown else Raise e
       end.

(** ** [config_epochs/rollback.py]: admission *)

(** The protocol [EpochCoverageComparator]; a call may raise. *)
Class EpochCoverageComparator (C : Type) :=
  comparator_compare : C -> RepositoryScope -> pystr -> pystr -> res CoverageRelation.

#[global] Instance conservative_comparator : EpochCoverageComparator ConservativeEpochCoverageComparator := compare.

Definition MAX_ROLLBACK_REASON_UTF8_BYTES : Z := 512.
Definition _MAX_ROLLBACK_ACTOR_UTF8_BYTES : Z := 512.

Record RollbackCommand := {
  rb_scope : RepositoryScope;
  rb_active_epoch_id : pystr;
  rb_target_epoch_id : pystr;
  rb_actor : pystr;
  rb_reason : pystr;
}.

Definition rb_require_bounded_text (value name : pystr) (maximum_bytes : Z) : res unit :=
  let refused := ValueError (u "rollback " ++ name ++ u " must be bounded non-empty text") in
  raise_if (bool_decide (value = []) || negb (is_unicode_scalar_string value)) refused ;;
  n ← utf8_length value;
  raise_if (maximum_bytes <? n) refused.

(** [_require_nonempty_scalar_text], [_require_bounded_text] and
    [validate_rollback_reason] of [contracts.py]. *)
Definition _require_nonempty_scalar_text (value field_name : pystr) : res unit :=
  raise_if (bool_decide (value = []) || has_char 0 value || negb (is_unicode_scalar_string value))
    (ValueError (field_name ++ u " must be a non-empty Unicode scalar string")).

Definition _require_bounded_text (value field_name : pystr) (maximum_utf8_bytes : Z) : res unit :=
  _require_nonempty_scalar_text value field_name ;;
  n ← utf8_length value;
  raise_if (maximum_utf8_bytes <? n) (ValueError (field_name ++ u " exceeds the UTF-8 byte limit")).

Definition validate_rollback_reason (value : pystr) : res unit :=
  _require_bounded_text value (u "reason") MAX_ROLLBACK_REASON_UTF8_BYTES.

Definition rb_require_epoch_id (value name : pystr) : res unit :=
  raise_if (negb (is_sha256_hex value)) (ValueError (u "rollback " ++ name ++ u " must be lowercase SHA-256 hexadecimal")).

Definition RollbackCommand_check (c : RollbackCommand) : res unit :=
  rb_require_epoch_id (rb_active_epoch_id c) (u "active epoch id") ;;
  rb_require_epoch_id (rb_target_epoch_id c) (u "target epoch id") ;;
  rb_require_bounded_text (rb_actor c) (u "actor") _MAX_ROLLBACK_ACTOR_UTF8_BYTES ;;
  validate_rollback_reason (rb_reason c).

Inductive ProvenCoverageRelation := proven_equal | proven_greater.
#[export] Instance ProvenCoverageRelation_eq_dec : EqDecision ProvenCoverageRelation.
Proof. solve_decision. Defined.

Inductive rejection_code := coverage_reducing | coverage_incomparable | coverage_unknown | coverage_unavailable.

Inductive RollbackAdmission :=
  | RollbackAllowed (relation : ProvenCoverageRelation)
  | RollbackRejected (code : rejection_code).

Definition admit_rollback `{EpochCoverageComparator C} (command : RollbackCommand) (comparator : C) : res RollbackAdmission :=
  relation ← comparator_compare comparator (rb_scope command) (rb_active_epoch_id command) (rb_target_epoch_id command);
  Ok match relation with
     | cov_equal => RollbackAllowed proven_equal
     | cov_greater => RollbackAllowed proven_greater
     | cov_less => RollbackRejected coverage_reducing
     | cov_incomparable => RollbackRejected coverage_incomparable
     | cov_unavailable => RollbackRejected coverage_unavailable
     | cov_unknown => RollbackRejected coverage_unknown
     end.
End comparison.
