(* ===== verification/RollbackFacts.v ===== *)
(** * What the coverage relation of a rollback guarantees

    The relation a comparator finds between two retained epochs is a promise
    about the plans made under them: on the same change the policy of greater
    coverage selects at least what the other selects, at least as deep. *)

From stdpp Require Import base gmap sets list sorting strings.
From Stdlib Require Import ZArith Lia.
From Stdlib Require Import SpecFloat.
From S2P Require Import Prelude Text PathPatterns PyFloat CanonicalJson Hashing JsonLoads Contract RepoContext Planning ImpactFacts PlannerFacts Planner.
From S2P Require Import Advice Verification VerificationFacts ConfigControl ContextInputs Rollback.

(** ** The order of obligations *)

(** [t] asks for at least as much as [a]. *)
Record obligation_le (a t : ValidationObligation) : Prop := {
  le_id : obligation_id a = obligation_id t;
  le_witnesses : required_witness_ids a = required_witness_ids t;
  le_default : depth_rank (default_depth a) <= depth_rank (default_depth t);
  le_full : depth_rank (full_depth a) <= depth_rank (full_depth t);
  le_omit : omit_allowed t = true -> omit_allowed a = true;
  le_paths : omit_allowed t = true -> forall p, p ∈ responsibility_paths a -> p ∈ responsibility_paths t;
  le_risks : omit_allowed t = true -> forall r, r ∈ responsibility_risk_classes a -> r ∈ responsibility_risk_classes t;
}.

Definition bound (c : bool) (d : Z) : Prop := if c then 0 <= d else d <= 0.
(** [a] below [t] when [c], [t] below [a] otherwise. *)
Definition ordered (c : bool) (a t : ValidationObligation) : Prop := if c then obligation_le a t else obligation_le t a.

Lemma order_bound c a t : bound c (_order a t) <-> if c then a <= t else t <= a.
Proof. unfold _order, bound. destruct c; repeat case_match; bdec; lia. Qed.

Lemma set_order_bound (c : bool) l m d :
  _set_order l m = Some d -> bound c d -> forall x, if c then x ∈ l -> x ∈ m else x ∈ m -> x ∈ l.
Proof.
  unfold _set_order, bound. intros Hd Hc x.
  assert (forall l m : list pystr, str_set l ⊆ str_set m -> x ∈ l -> x ∈ m) as Hsub.
  { unfold str_set. intros l0 m0 H. specialize (H x). by rewrite !elem_of_list_to_set in H. }
  repeat case_bool_decide; simplify_eq; destruct c; try lia; apply Hsub; set_solver.
Qed.

Lemma compare_obligation_le a t ds c :
  _compare_obligation_coverage a t = Some ds -> Forall (bound c) ds -> ordered c a t.
Proof.
  unfold _compare_obligation_coverage. intros Hd Hc. destruct (_ || _) eqn:E in Hd; [discriminate|].
  apply orb_false_iff' in E as [E1 E2]. bdec.
  assert (bound c (_order (depth_rank (default_depth a)) (depth_rank (default_depth t))) /\
          bound c (_order (depth_rank (full_depth a)) (depth_rank (full_depth t))) /\
          bound c (_order (int_of_bool (omit_allowed a)) (int_of_bool (omit_allowed t)) * -1) /\
          (omit_allowed a && omit_allowed t = true -> exists d1 d2,
             _set_order (responsibility_paths a) (responsibility_paths t) = Some d1 /\
             _set_order (responsibility_risk_classes a) (responsibility_risk_classes t) = Some d2 /\
             bound c d1 /\ bound c d2)) as (B1 & B2 & B3 & B4).
  { destruct (omit_allowed a && omit_allowed t).
    - destruct (_set_order _ _) as [d1|]; [|discriminate]. destruct (_set_order _ _) as [d2|]; [|discriminate].
      injection Hd as <-. rewrite !Forall_cons in Hc. destruct Hc as (? & ? & ? & ? & ? & _). split_and!; eauto 10.
    - injection Hd as <-. rewrite !Forall_cons in Hc. destruct Hc as (? & ? & ? & _). split_and!; done. }
  rewrite order_bound in B1, B2. unfold _order, int_of_bool in B3.
  destruct c; cbn in *; (split; [done|done|done|done| | |]);
    destruct (omit_allowed a), (omit_allowed t); cbn in *; try done; try (intros; lia);
    destruct B4 as (d1 & d2 & S1 & S2 & D1 & D2); try done; intros _ x;
    first [apply (set_order_bound true _ _ _ S1 D1 x)|apply (set_order_bound true _ _ _ S2 D2 x)
          |apply (set_order_bound false _ _ _ S1 D1 x)|apply (set_order_bound false _ _ _ S2 D2 x)].
Qed.

Lemma directions_le c os ts pre ds :
  obligation_directions pre os ts = Ok (Some ds) -> Forall (bound c) ds -> Forall2 (ordered c) os ts /\ Forall (bound c) pre.
Proof.
  revert ts pre. induction os as [|o os IH]; intros [|t ts] pre Hd Hc; cbn in Hd; try discriminate.
  - injection Hd as ->. done.
  - destruct (_compare_obligation_coverage o t) as [rel|] eqn:E; [|discriminate].
    destruct (IH _ _ Hd Hc) as [H1 H2]. apply Forall_app in H2 as [H2 H3].
    split; [|done]. constructor; [|done]. by eapply compare_obligation_le.
Qed.

Lemma collapse_bound ds :
  match _collapse_directions ds with
  | cov_equal => Forall (bound true) ds /\ Forall (bound false) ds
  | cov_greater => Forall (bound true) ds
  | cov_less => Forall (bound false) ds
  | _ => True
  end.
Proof.
  unfold _collapse_directions.
  destruct (existsb (fun d => 0 <? d) ds) eqn:E1; destruct (existsb (fun d => d <? 0) ds) eqn:E2; cbn; try done;
    rewrite ?existsb_false in *; rewrite ?Forall_forall; unfold bound; [intros d Hd|intros d Hd|split; intros d Hd];
    repeat match goal with H : forall x, x ∈ ds -> _ |- _ => specialize (H _ Hd) end; bdec; lia.
Qed.

(** ** Plans of ordered policies *)

(** Two inputs a plan reads the same change of the repository from.  That the
    inputs of one change under two epochs are such is what the comparator's
    guards establish ([inputs_same_change] below). *)
Record same_change (i j : PlanningInput) : Prop := {
  sc_diff : changed_paths (diff i) = changed_paths (diff j);
  sc_nodes : nodes (dependency_graph i) = nodes (dependency_graph j);
  sc_global : global_risk_paths (dependency_graph i) = global_risk_paths (dependency_graph j);
  sc_reasons : fallback_reasons i = [] <-> fallback_reasons j = [];
}.

#[global] Instance same_change_sym : Symmetric same_change.
Proof. intros i j [? ? ? ?]. by split. Qed.

(** [q] selects what [p] selects, at least as deep, and omits nothing else. *)
Record plan_covers (q p : DeterministicPlan) : Prop := {
  pc_obligations : covers (selected_obligations q) (selected_obligations p);
  pc_witnesses : witness_covers (selected_witnesses q) (selected_witnesses p);
  pc_omitted : forall i, i ∈ oo_obligation_id <$> omitted_obligations q -> i ∈ oo_obligation_id <$> omitted_obligations p;
}.

Lemma path_in_responsibility_monotone a t p :
  (forall g, g ∈ responsibility_paths a -> g ∈ responsibility_paths t) ->
  path_in_responsibility t p = false -> path_in_responsibility a p = false.
Proof. unfold path_in_responsibility. rewrite !existsb_false. intros Hs Ht g Hg. apply Ht, Hs, Hg. Qed.

Section monotone.
Context `{Sha256} (i j : PlanningInput) (Hsame : same_change i j).

Lemma same_nodes : node_map i = node_map j.
Proof. unfold node_map. by rewrite (sc_nodes _ _ Hsame). Qed.

Lemma justified_monotone changed a t :
  obligation_le a t -> omission_justified j changed t -> omission_justified i changed a.
Proof.
  intros Hle [J1 J2 J3 J4 J5 J6]. rewrite <-same_nodes in J4, J5, J6. split.
  - by apply (le_omit _ _ Hle).
  - by apply (sc_reasons _ _ Hsame).
  - intros p Hp. unfold is_global_risk. rewrite (sc_global _ _ Hsame). by apply J3.
  - exact J4.
  - intros p Hp. eapply path_in_responsibility_monotone; [by apply (le_paths _ _ Hle)|by apply J5].
  - intros r Hr Hin. apply (J6 r Hr). by apply (le_risks _ _ Hle).
Qed.

Lemma omits_monotone ci cj ai aj a t :
  impact_spec i ci ai -> impact_spec j cj aj -> fallback_reasons j = [] -> unknown_paths aj = [] ->
  obligation_le a t -> omits aj t = true -> omits ai a = true.
Proof.
  intros Hi Hj Hr Hu Hle Ho. apply (omits_justified j cj aj t Hj Hr Hu) in Ho.
  destruct (is_changed _ _ _ Hi) as [Ei _]. destruct (is_changed _ _ _ Hj) as [Ej _].
  rewrite (sc_diff _ _ Hsame) in Ei. assert (ci = cj) as -> by congruence.
  apply (omits_justified i cj ai a Hi); [by apply (sc_reasons _ _ Hsame)| |by eapply justified_monotone].
  destruct (unknown_paths ai) as [|q l] eqn:E; [done|exfalso].
  assert (q ∈ unknown_paths ai) as Hq%(is_unknown _ _ _ Hi) by (rewrite E; set_solver).
  rewrite same_nodes in Hq. apply (is_unknown _ _ _ Hj) in Hq. rewrite Hu in Hq. set_solver.
Qed.

Context (pi pj : PlanningPolicy) (p q : DeterministicPlan).
Context (Hok : catalog_ok (catalog pi)) (Hok' : catalog_ok (catalog pj)).
Context (Hle : Forall2 obligation_le (obligations (catalog pi)) (obligations (catalog pj))).
Context (Hp : plan i pi = Ok (Planned p)) (Hq : plan j pj = Ok (Planned q)).

Lemma le_target a : a ∈ obligations (catalog pi) -> exists t, t ∈ obligations (catalog pj) /\ obligation_le a t.
Proof.
  intros [n Hn]%list_elem_of_lookup. destruct (Forall2_lookup_l _ _ _ _ _ Hle Hn) as (t & Ht & Hat).
  exists t. split; [by eapply list_elem_of_lookup_2|done].
Qed.

Lemma le_source t : t ∈ obligations (catalog pj) -> exists a, a ∈ obligations (catalog pi) /\ obligation_le a t.
Proof.
  intros [n Hn]%list_elem_of_lookup. destruct (Forall2_lookup_r _ _ _ _ _ Hle Hn) as (a & Ha & Hat).
  exists a. split; [by eapply list_elem_of_lookup_2|done].
Qed.

(** A selection of the active policy at a depth the target's selection reaches. *)
Lemma selection_covered d d' a t (sel : list SelectedObligation) :
  obligation_le a t -> depth_rank (d a) <= depth_rank (d' t) -> selection d' t ∈ sel ->
  exists s', s' ∈ sel /\ so_obligation_id s' = so_obligation_id (selection d a) /\
    so_required_witness_ids s' = so_required_witness_ids (selection d a) /\
    depth_rank (so_depth (selection d a)) <= depth_rank (so_depth s').
Proof.
  intros Hat Hd Hin. exists (selection d' t). cbn. split_and!; [done| | |done]; symmetry; [apply Hat|apply Hat].
Qed.

Lemma source_depths a : a ∈ obligations (catalog pi) -> depth_rank (default_depth a) <= depth_rank (full_depth a).
Proof. intros Ha. pose proof (ca_obligations _ Hok) as Hf. rewrite Forall_forall in Hf. by apply (ob_depths a (Hf a Ha)). Qed.

Lemma selected_covered : covers (selected_obligations q) (selected_obligations p).
Proof.
  intros s Hs. pose proof (plan_partition_facts _ _ _ Hp) as (_ & _ & Hsel).
  destruct (Hsel s Hs) as (a & Ha & ->). destruct (le_target a Ha) as (t & Ht & Hat).
  pose proof (source_depths a Ha) as Hda. pose proof (le_full _ _ Hat) as Hf. pose proof (le_default _ _ Hat) as Hd.
  destruct (plan_has_shape _ _ _ Hq) as [[[Sq _ _] _]|(cj & aj & st & [Hr Hj Hu Hl Sq _ _])].
  - eapply (selection_covered _ full_depth a t); [done|destruct (triggered _); lia|].
    rewrite (sl_selected _ _ _ _ _ _ _ Sq). by apply list_elem_of_fmap_2.
  - destruct (plan_has_shape _ _ _ Hp) as [[_ Hwhy]|(ci & ai & st' & [_ Hi _ Hl' Sp _ Ht'])].
    { exfalso. destruct Hwhy as [Hne|(c & x & E & Hx)]; [by apply Hne, (sc_reasons _ _ Hsame)|].
      rewrite same_nodes in Hx. destruct (is_changed _ _ _ Hj) as [E' _]. rewrite (sc_diff _ _ Hsame) in E.
      assert (c = cj) as -> by congruence. apply (is_unknown _ _ _ Hj) in Hx. rewrite Hu in Hx. set_solver. }
    rewrite Ht' in Hs |- *. rewrite (sl_selected _ _ _ _ _ _ _ Sp), (ls_selected _ _ _ _ _ Hl') in Hs.
    apply list_elem_of_fmap in Hs as (a' & Ea & [Hno Ha']%list_elem_of_filter).
    assert (a' = a) as ->.
    { injection Ea as Eid _ _. pose proof (catalog_lookup _ _ Hok Ha) as E1. rewrite Eid, (catalog_lookup _ _ Hok Ha') in E1. congruence. }
    eapply (selection_covered _ default_depth a t); [done|lia|].
    rewrite (sl_selected _ _ _ _ _ _ _ Sq), (ls_selected _ _ _ _ _ Hl). apply list_elem_of_fmap_2, list_elem_of_filter.
    split; [|done]. destruct (omits aj t) eqn:E; [|done]. by rewrite (omits_monotone _ _ _ _ _ _ Hi Hj Hr Hu Hat E) in Hno.
Qed.

Lemma omitted_covered id : id ∈ oo_obligation_id <$> omitted_obligations q -> id ∈ oo_obligation_id <$> omitted_obligations p.
Proof.
  intros Hid. pose proof (plan_partition_facts _ _ _ Hq) as (Hperm & _ & _).
  assert (id ∈ obligation_id <$> obligations (catalog pj)) as (t & -> & Ht)%list_elem_of_fmap
    by (rewrite <-Hperm; set_solver).
  destruct (le_source t Ht) as (a & Ha & Hat). rewrite <-(le_id _ _ Hat).
  destruct (plan_has_shape _ _ _ Hq) as [[[Sq _ _] _]|(c & aj & st & [_ Hj _ _ _ _ _])].
  { rewrite (sl_omitted _ _ _ _ _ _ _ Sq) in Hid. set_solver. }
  destruct (is_changed _ _ _ Hj) as [Ej _].
  apply (plan_omission_facts i pi p c a Hp Hok); [by rewrite (sc_diff _ _ Hsame)|done|].
  apply (plan_omission_facts j pj q c t Hq Hok' Ej Ht) in Hid. by eapply justified_monotone.
Qed.

Lemma plans_covered : plan_covers q p.
Proof.
  pose proof selected_covered as Hc. split; [done| |apply omitted_covered].
  eapply closure_covers; [exact Hc|by eapply plan_witnesses_close_selection|by eapply plan_witnesses_close_selection].
Qed.
End monotone.

(** ** The relation of two epochs *)

(** The planning policy of a retained epoch. *)
Definition epoch_policy `{Sha256} (d : ValidatedEpochDraft) (pol : PlanningPolicy) : Prop :=
  exists p, project_dynamic_ci_planning d = Ok (Some p) /\ from_projection p = Ok pol.

Lemma epoch_catalog_ok `{Sha256} d pol : epoch_policy d pol -> catalog_ok (catalog pol).
Proof. intros (p & Hp & (-> & _)%from_projection_facts). apply project_verified in Hp as (_ & _ & _ & Hc). exact Hc. Qed.

Lemma obligation_le_refl : Reflexive obligation_le.
Proof. by split. Qed.

(** What each relation says of the obligations of the two policies. *)
Lemma coverage_orders_obligations `{Sha256} active target rel pa pt :
  _compare_retained_epoch_coverage active target = Ok rel -> epoch_policy active pa -> epoch_policy target pt ->
  let os := obligations (catalog pa) in let ts := obligations (catalog pt) in
  match rel with
  | cov_equal => Forall2 obligation_le os ts /\ Forall2 obligation_le ts os
  | cov_greater => Forall2 obligation_le os ts
  | cov_less => Forall2 obligation_le ts os
  | _ => True
  end.
Proof.
  intros Hrel (a & Ha & Hpa) (t & Ht & Hpt). cbn zeta.
  destruct (from_projection_facts _ _ Hpa) as (-> & _). destruct (from_projection_facts _ _ Hpt) as (-> & _).
  unfold _compare_retained_epoch_coverage in Hrel. case_bool_decide as Eb.
  { injection Hrel as <-. rewrite (project_same_bytes _ _ _ _ Eb Ha Ht).
    split; apply Forall_Forall2_diag, Forall_true, obligation_le_refl. }
  apply bind_Ok in Hrel as ([ao ad] & _ & Hrel). apply bind_Ok in Hrel as ([to td] & _ & Hrel).
  destruct (_ || _) in Hrel; [by injection Hrel as <-|].
  rewrite Ha, Ht in Hrel. cbn [mbind res_bind] in Hrel. destruct (_ || _) in Hrel; [by injection Hrel as <-|].
  rewrite Hpa, Hpt in Hrel. cbn [mbind res_bind] in Hrel. destruct (_ || _) in Hrel; [by injection Hrel as <-|].
  destruct (from_projection_facts _ _ Hpa) as (Ea & _). destruct (from_projection_facts _ _ Hpt) as (Et & _).
  rewrite Ea, Et in Hrel. apply bind_Ok in Hrel as (ds & Hds & [= <-]). destruct ds as [ds|]; [|done].
  pose proof (collapse_bound ds) as Hb.
  destruct (_collapse_directions ds); try done; [destruct Hb as [Hb1 Hb2]; split| |].
  all: first [by apply (directions_le true _ _ _ _ Hds)|apply Forall2_flip, (directions_le false _ _ _ _ Hds)]; done.
Qed.

Lemma comparator_relation `{Sha256} c scope aid tid rel :
  compare c scope aid tid = Ok rel ->
  rel = cov_unknown \/ _compare_retained_epoch_coverage (comparator_active c) (comparator_target c) = Ok rel /\
    draft_scope (comparator_active c) = scope /\ draft_scope (comparator_target c) = scope /\
    draft_epoch_id (comparator_active c) = aid /\ draft_epoch_id (comparator_target c) = tid.
Proof.
  unfold compare. destruct (_ || _) eqn:E; [intros [= <-]; by left|].
  rewrite !orb_false_iff' in E. destruct E as [[[E1 E2] E3] E4]. bdec.
  destruct (_compare_retained_epoch_coverage _ _) as [r|e]; [intros [= <-]; right; by split_and!|].
  destruct (is_comparison_error e); [intros [= <-]; by left|discriminate].
Qed.

(** ** What the epochs share *)

(** Nothing but the obligations differs: the graph's source, the paths and
    classes of risk, the admission of advice, the timeout, and what the
    witnesses and execution profiles of the plans are. *)
Record same_frame (a t : DynamicCiPlanningProjection) : Prop := {
  sf_source : pr_dependency_graph_source a = pr_dependency_graph_source t;
  sf_global : pr_global_risk_paths a = pr_global_risk_paths t;
  sf_risks : pr_risk_classes a = pr_risk_classes t;
  sf_advice : pr_agent_advice a = pr_agent_advice t \/ advice_eqb (pr_agent_advice a) (pr_agent_advice t) = true;
  sf_timeout : pr_fallback_timeout_seconds a = pr_fallback_timeout_seconds t;
  sf_witnesses : witnesses (pr_validation_catalog a) = witnesses (pr_validation_catalog t);
  sf_profiles : execution_profiles (pr_validation_catalog a) = execution_profiles (pr_validation_catalog t) \/
    list_eqb ExecutionProfile_eqb (execution_profiles (pr_validation_catalog a)) (execution_profiles (pr_validation_catalog t)) = true;
}.

(** The same of the whole compiled policies. *)
Record keeps_frame `{Sha256} (active target : ValidatedEpochDraft) : Prop := {
  kf_dynamic : forall a t, project_dynamic_ci_planning active = Ok (Some a) -> project_dynamic_ci_planning target = Ok (Some t) -> same_frame a t;
  kf_outer : forall ao ad to td, _compiled_policy_parts (compiled_policy_bytes active) = Ok (ao, ad) ->
    _compiled_policy_parts (compiled_policy_bytes target) = Ok (to, td) -> ao = to \/ pyeq (VDict 0 ao) (VDict 0 to) = true;
}.

(** Projections of the same bytes. *)
Lemma same_bytes_frame `{Sha256} d e p q :
  compiled_policy_bytes d = compiled_policy_bytes e ->
  project_dynamic_ci_planning d = Ok (Some p) -> project_dynamic_ci_planning e = Ok (Some q) -> same_frame p q.
Proof.
  unfold project_dynamic_ci_planning, _project_verified_epoch. intros E Hp Hq.
  apply bind_Ok in Hp as ([] & _ & Hp). apply bind_Ok in Hq as ([] & _ & Hq). rewrite E in Hp.
  apply bind_Ok in Hp as (v & Hv & Hp). rewrite Hv in Hq. cbn [mbind res_bind] in Hq.
  apply bind_Ok in Hp as (c & Hc & Hp). rewrite Hc in Hq. cbn [mbind res_bind] in Hq.
  destruct (dict_get c "dynamicCi"); inv_res; try discriminate; simplify_eq/=; split; cbn [pr_dependency_graph_source pr_global_risk_paths pr_risk_classes
    pr_agent_advice pr_fallback_timeout_seconds pr_validation_catalog]; try (left; congruence); congruence.
Qed.

(** The comparator relates only epochs that share their frame. *)
Lemma coverage_keeps_frame `{Sha256} active target rel :
  _compare_retained_epoch_coverage active target = Ok rel -> rel <> cov_incomparable -> keeps_frame active target.
Proof.
  intros Hrel Hne. unfold _compare_retained_epoch_coverage in Hrel. case_bool_decide as Eb.
  { split; [intros a t Ha Ht; by eapply same_bytes_frame|]. intros ao ad to td Ha Ht. rewrite Eb in Ha. left. congruence. }
  apply bind_Ok in Hrel as ([ao ad] & Eo & Hrel). apply bind_Ok in Hrel as ([to td] & Eo' & Hrel).
  destruct (_ || _) eqn:Eouter in Hrel; [by injection Hrel as <-|]. apply orb_false_iff' in Eouter as [Eouter%negb_false_iff' _].
  split; [|intros ao' ad' to' td' Ha Ht; right; congruence].
  intros a t Ha Ht. rewrite Ha, Ht in Hrel. cbn [mbind res_bind] in Hrel. destruct (_ || _) eqn:Eg in Hrel; [by injection Hrel as <-|].
  apply bind_Ok in Hrel as (pa & Hpa & Hrel). apply bind_Ok in Hrel as (pt & Hpt & Hrel). cbv zeta in Hrel. destruct (_ || _) eqn:Ec in Hrel; [by injection Hrel as <-|]. clear Hrel.
  destruct (from_projection_facts _ _ Hpa) as (Ea & _), (from_projection_facts _ _ Hpt) as (Et & _). rewrite Ea, Et in Ec.
  apply orb_false_iff' in Eg as [Eg G5%negb_false_iff']. apply orb_false_iff' in Eg as [Eg G4%negb_false_iff']. apply orb_false_iff' in Eg as [Eg G3]. apply orb_false_iff' in Eg as [G1 G2].
  apply orb_false_iff' in Ec as [Ec _]. apply orb_false_iff' in Ec as [C1 C2%negb_false_iff'].
  apply bool_decide_eq_false in G1, G2, G3, C1. apply dec_stable in G1, G2, G3, C1. apply Z.eqb_eq in G5. by split; first [assumption|right].
Qed.

(** The inputs of one change under two epochs that share their frame. *)
Lemma inputs_same_change `{Sha256} c active target i j :
  keeps_frame active target -> input_under c active i -> input_under c target j -> same_change i j.
Proof.
  intros [Hk _] (a & s & Ha & Es & Ei) (t & s' & Ht & Es' & Ej). destruct (Hk a t Ha Ht) as [F1 F2 F3 _ _ _ _].
  destruct (snapshot_facts _ _ Es) as (S1 & S2 & S3), (snapshot_facts _ _ Es') as (S1' & S2' & S3').
  destruct (change_inputs_agree c s s' i j) as (D & D' & N & G & R); [split; congruence|done|done|]. split; [by rewrite D, D'|done|done|by rewrite R].
Qed.

(** ** Comparators *)

(** The target's plans cover the active epoch's on every change. *)
Definition plans_cover `{Sha256} (active target : ValidatedEpochDraft) : Prop :=
  forall c pa pt i j p q, epoch_policy active pa -> epoch_policy target pt -> input_under c active i -> input_under c target j ->
    plan i pa = Ok (Planned p) -> plan j pt = Ok (Planned q) -> plan_covers q p.

(** And the checks of the plans are the same. *)
Record never_reduces `{Sha256} (active target : ValidatedEpochDraft) : Prop := {
  nr_plans : plans_cover active target;
  nr_frame : keeps_frame active target;
}.

Lemma retained_coverage_sound `{Sha256} active target rel :
  _compare_retained_epoch_coverage active target = Ok rel ->
  match rel with
  | cov_equal => never_reduces active target /\ plans_cover target active
  | cov_greater => never_reduces active target
  | cov_less => plans_cover target active
  | _ => True
  end.
Proof.
  intros Hrel. pose proof (fun pa pt => coverage_orders_obligations active target rel pa pt Hrel) as Ho.
  assert (Hf : rel <> cov_incomparable -> keeps_frame active target) by (by apply coverage_keeps_frame).
  assert (Hup : (rel = cov_equal \/ rel = cov_greater) -> never_reduces active target).
  { intros Hr. assert (Hk : keeps_frame active target) by (apply Hf; by destruct Hr as [-> | ->]). split; [|exact Hk].
    intros c pa pt i j p q Ha Ht Hi Hj Hp Hq. pose proof (inputs_same_change c _ _ i j Hk Hi Hj) as Hs.
    refine (plans_covered i j Hs pa pt p q (epoch_catalog_ok _ _ Ha) (epoch_catalog_ok _ _ Ht) _ Hp Hq).
    specialize (Ho pa pt Ha Ht). by destruct Hr as [-> | ->]; [destruct Ho|]. }
  assert (Hdown : (rel = cov_equal \/ rel = cov_less) -> plans_cover target active).
  { intros Hr c pt pa j i q p Ht Ha Hj Hi Hq Hp. assert (Hk : keeps_frame active target) by (apply Hf; by destruct Hr as [-> | ->]).
    pose proof (inputs_same_change c _ _ i j Hk Hi Hj) as Hs. symmetry in Hs.
    refine (plans_covered j i Hs pt pa q p (epoch_catalog_ok _ _ Ht) (epoch_catalog_ok _ _ Ha) _ Hq Hp).
    specialize (Ho pa pt Ha Ht). by destruct Hr as [-> | ->]; [destruct Ho|]. }
  destruct rel; auto.
Qed.

(** What a comparator has to promise for a rollback to be safe: a relation it
    calls equal or greater never reduces coverage from the epoch to the target
    it was asked about. *)
Class SoundComparator `{Sha256} (C : Type) `{EpochCoverageComparator C} := {
  compares : C -> ValidatedEpochDraft -> ValidatedEpochDraft -> Prop;
  comparator_sound : forall c scope active target rel,
    compares c active target ->
    comparator_compare c scope (draft_epoch_id active) (draft_epoch_id target) = Ok rel ->
    rel = cov_equal \/ rel = cov_greater -> never_reduces active target;
}.

#[export] Instance conservative_sound `{Sha256} : SoundComparator ConservativeEpochCoverageComparator.
Proof.
  refine {| compares c active target := comparator_active c = active /\ comparator_target c = target |}.
  intros c scope active target rel [<- <-] Hc Hrel.
  destruct (comparator_relation _ _ _ _ _ Hc) as [->|[Hr _]]; [by destruct Hrel|].
  apply retained_coverage_sound in Hr. destruct Hrel as [-> | ->]; apply Hr.
Defined.

Lemma admitted_relation `{EpochCoverageComparator C} command (c : C) rel :
  admit_rollback command c = Ok (RollbackAllowed rel) ->
  comparator_compare c (rb_scope command) (rb_active_epoch_id command) (rb_target_epoch_id command) =
    Ok (match rel with proven_equal => cov_equal | proven_greater => cov_greater end).
Proof. unfold admit_rollback. intros (r & Hr & [= E])%bind_Ok. rewrite Hr. by destruct r; simplify_eq. Qed.

Lemma sound_rollback `{SoundComparator C} command c active target rel :
  admit_rollback command c = Ok (RollbackAllowed rel) -> compares c active target ->
  rb_active_epoch_id command = draft_epoch_id active -> rb_target_epoch_id command = draft_epoch_id target ->
  never_reduces active target.
Proof.
  intros Ha%admitted_relation Hc Ei Et. rewrite Ei, Et in Ha. eapply comparator_sound; [exact Hc|exact Ha|].
  destruct rel; auto.
Qed.

(** C5: a rollback admitted on the comparison of two retained epochs never
    reduces validation.  Whatever change of the repository is read, and planned
    on the input each epoch's own projection gives, a plan made under the
    target's policy selects everything the active policy's plan selects, with
    its witnesses and at least as deep, and omits nothing it keeps; when the
    relation is called equal the two plans cover each other.  Nothing else of
    the policies differs: what the witnesses and the execution profiles are, the
    graph's source, the risk paths and classes, the advice, the timeout and
    everything outside dynamic CI. *)
Theorem admitted_rollback_never_reduces `{Sha256} command active target rel c pa pt i j p q :
  admit_rollback command (Build_ConservativeEpochCoverageComparator active target) = Ok (RollbackAllowed rel) ->
  epoch_policy active pa -> epoch_policy target pt -> input_under c active i -> input_under c target j ->
  plan i pa = Ok (Planned p) -> plan j pt = Ok (Planned q) ->
  plan_covers q p /\ (rel = proven_equal -> plan_covers p q) /\ keeps_frame active target /\
  draft_epoch_id active = rb_active_epoch_id command /\ draft_epoch_id target = rb_target_epoch_id command /\
  draft_scope active = rb_scope command /\ draft_scope target = rb_scope command.
Proof.
  intros Ha%admitted_relation Hpa Hpt Hi Hj Hp Hq. apply comparator_relation in Ha as [E|(Hr & E1 & E2 & E3 & E4)]; [by destruct rel|].
  cbn in Hr, E1, E2, E3, E4. apply retained_coverage_sound in Hr.
  assert (Hn : never_reduces active target) by (destruct rel; [apply Hr|exact Hr]). split_and!; [| |apply Hn|done..].
  - by apply (nr_plans _ _ Hn c pa pt i j).
  - intros ->. by apply (proj2 Hr c pt pa j i).
Qed.
