(* ===== verification/PlannerAdmitted.v ===== *)
(** * The verifier admits what the planner proves

    The two cores derive the impact of a change independently.  On inputs made
    by the repository-context builders their decisions agree, except that the
    verifier refuses every selective plan when a global risk path changed. *)

From stdpp Require Import base gmap sets list sorting strings.
From Stdlib Require Import ZArith Lia.
From S2P Require Import Prelude Text PathPatterns PyFloat CanonicalJson Hashing Contract RepoContext Planning ImpactFacts PlannerFacts Planner Advice Verification VerificationFacts.

(** An input made by the builders of [repo_context]. *)
Definition built `{Sha256} (input : PlanningInput) : Prop :=
  exists bi d re p a g, build_diff_context bi = Ok d /\ build_dependency_graph re d p a = Ok g /\
    build_planning_input re d g p = Ok input.

Lemma build_diff_context_hash `{Sha256} bi d :
  build_diff_context bi = Ok d -> hash_mapping (DiffContext_mapping d) = Ok (diff_hash d) /\ source d = b_source bi.
Proof.
  unfold build_diff_context. intros Hb. apply bind_Ok in Hb as (nf & _ & Hb). apply bind_Ok in Hb as (fs & _ & Hb).
  apply bind_Ok in Hb as (rs & _ & Hb). apply bind_Ok in Hb as (h & Hh & Hb). apply bind_Ok in Hb as ([] & _ & Hb).
  injection Hb as <-. cbn. split; [exact Hh|reflexivity].
Qed.

(** The fresh mappings hash to the sealed identities. *)
Lemma built_coordinates `{Sha256} input pol :
  built input -> _input_coordinates_are_current input pol = Ok (_policy_context_is_current input pol) /\
  exists eh, hash_mapping (RepositoryEpoch_mapping (repo_epoch input)) = Ok eh.
Proof.
  intros (bi & d & re & p & a & g & Hd & _ & Hi).
  destruct (build_diff_context_hash _ _ Hd) as [Hdh _].
  unfold build_planning_input in Hi. apply bind_Ok in Hi as (eh & Heh & Hi).
  apply bind_Ok in Hi as (h & Hh & Hi). apply bind_Ok in Hi as (fb & _ & Hi). injection Hi as <-.
  split; [|eauto]. unfold _input_coordinates_are_current. cbn [diff repo_epoch policy dependency_graph input_hash].
  rewrite Hdh. cbn [mbind res_bind]. rewrite Hh. cbn [mbind res_bind].
  rewrite !bool_decide_eq_true_2 by reflexivity. by rewrite !andb_true_r.
Qed.

Lemma diff_trusted_files `{Sha256} bi d :
  build_diff_context bi = Ok d -> length (files d) = length (b_files bi).
Proof.
  unfold build_diff_context. intros Hb. apply bind_Ok in Hb as (nf & Hn & Hb). apply bind_Ok in Hb as (fs & Hf & Hb).
  apply bind_Ok in Hb as (rs & _ & Hb). apply bind_Ok in Hb as (h & _ & Hb). apply bind_Ok in Hb as ([] & _ & Hb).
  injection Hb as <-. cbn. apply sort_files_perm in Hf. rewrite Hf, length_fmap. by eapply mapR_length.
Qed.

Lemma build_dependency_graph_fresh `{Sha256} re d p a g :
  build_dependency_graph re d p a = Ok g -> graph_invalidating_reasons g = [] -> graph_fresh g = true.
Proof.
  unfold build_dependency_graph. intros Hb Hr.
  apply bind_Ok in Hb as (ns & _ & Hb). apply bind_Ok in Hb as (risk & _ & Hb).
  apply bind_Ok in Hb as (prov & _ & Hb). apply bind_Ok in Hb as (reasons & _ & Hb).
  apply bind_Ok in Hb as (inv & Hinv & Hb). apply bind_Ok in Hb as (eh & _ & Hb).
  apply bind_Ok in Hb as (h & _ & Hb). apply bind_Ok in Hb as ([] & _ & Hb). injection Hb as <-.
  cbn in *. subst inv. apply sorted_unique_nil in Hinv as ->. done.
Qed.

(** A built input without fallback reasons is a context the verifier admits,
    and its graph is closed under dependents. *)
Lemma built_context `{Sha256} input :
  built input -> fallback_reasons input = [] ->
  _selective_context_is_admitted input = Ok true /\
  (forall p node dep, node_map input !! p = Some node -> dep ∈ dependents node -> node_map input !! dep <> None).
Proof.
  intros (bi & d & re & p & a & g & Hd & Hg & Hi) Hr.
  destruct (build_planning_input_fields _ _ _ _ _ Hi) as (E1 & E2 & E3 & E4).
  apply (build_planning_input_trusted _ _ _ _ _ Hi) in Hr as Ht. destruct Ht as [Ht Hepoch]. clear Hi.
  pose proof (it_diff _ Ht) as D. rewrite E2 in D. pose proof (it_graph _ Ht) as G. rewrite E3 in G.
  pose proof (build_diff_context_trusted _ _ Hd D) as Td. pose proof (build_dependency_graph_trusted _ _ _ _ _ Hg G) as Tg.
  pose proof (build_dependency_graph_fresh _ _ _ _ _ Hg G) as Hf.
  destruct (build_diff_context_hash _ _ Hd) as [_ Es]. pose proof (diff_trusted_files _ _ Hd) as Hlen. split.
  - unfold _selective_context_is_admitted. rewrite E1, Hepoch. cbn [mbind res_bind]. f_equal.
    rewrite Hr. destruct Ht as [T1 T2 T3 T4 T5 T6 T7 T8]. rewrite E1, E2, E3, E4 in *.
    rewrite T1, T2, T3, T4, T5, T6, T7, T8, Hf, Es.
    rewrite (dt_complete _ _ Td), (dt_truncated _ _ Td), Hlen, <-(dt_count _ _ Td), Z.eqb_refl.
    rewrite !bool_decide_eq_true_2 by reflexivity. cbn [negb andb].
    pose proof (dt_limit _ _ Td) as Hl. rewrite <-(dt_count _ _ Td) in Hl. apply Z.leb_le in Hl. by rewrite Hl.
  - unfold node_map. rewrite E3. intros q node dep Hq Hdep Hnone.
    apply dict_by_Some in Hq as (n & Hn & _ & En). cbn in En. subst node.
    apply dict_by_None in Hnone. apply Hnone. by eapply gt_closed.
Qed.

(** In a closed graph only a changed path can be unknown. *)
Lemma reached_unknown_closed by_path changed q :
  (forall p node dep, by_path !! p = Some node -> dep ∈ dependents node -> by_path !! dep <> None) ->
  reached_unknown by_path changed q <-> q ∈ changed /\ by_path !! q = None.
Proof.
  intros Hc. split.
  - intros [Hr Hn]. split; [|done]. destruct Hr as [q Hq|q node dep Hr Hl Hd]; [done|]. by destruct (Hc _ _ _ Hl Hd).
  - intros [Hq Hn]. split; [by apply reached_changed|done].
Qed.

(** ** The coordinates of a sealed plan *)

Lemma sealed_identity `{Sha256} p :
  DeterministicPlan_check p = Ok tt ->
  exists h, hash_mapping (identity_mapping p) = Ok h /\ plan_id p = u "dynamic_ci_plan_" ++ take 32 h.
Proof.
  unfold DeterministicPlan_check. intros Hck.
  repeat match type of Hck with
  | (hash_mapping _ ≫= _) = _ => fail 1
  | (_ ≫= _) = _ => apply bind_Ok in Hck as (? & _ & Hck)
  end.
  apply bind_Ok in Hck as (h & Hh & Hid%raise_if_Ok). exists h. split; [done|].
  by apply bool_decide_eq_false_1, dec_stable in Hid.
Qed.

Lemma sealed_coordinates `{Sha256} input pol sel om fb ev p :
  built input -> coordinates_match input pol -> plan_sealed input pol sel om fb ev p ->
  _coordinates_are_current input pol p = Ok true.
Proof.
  intros Hb (M1 & M2 & M3) Hs. destruct (built_coordinates input pol Hb) as [Hcur [eh Heh]].
  destruct (sealed_identity p (sl_check _ _ _ _ _ _ _ Hs)) as (h & Hh & Hid).
  pose proof (sl_epoch _ _ _ _ _ _ _ Hs) as Ee.
  unfold _coordinates_are_current. rewrite Ee. cbn [mbind res_bind]. rewrite Hcur. cbn [mbind res_bind].
  unfold _policy_context_is_current. rewrite M1, M2, M3, !bool_decide_eq_true_2 by reflexivity. cbn [andb andR].
  rewrite Hh. cbn [mbind res_bind]. f_equal. rewrite Hid.
  destruct Hs as [_ _ _ _ S1 S2 S3 S4 S5 S6 S7 _ _ _]. rewrite S1, S2, S3, S4, S5, S6, S7, ?M2, ?M3.
  by rewrite ?bool_decide_eq_true_2 by reflexivity.
Qed.

(** ** Fallback plans are exact *)

Lemma canonical_perm_eq {A} (f : A -> pystr) (l l' : list A) :
  canonical (f <$> l) -> canonical (f <$> l') -> l ≡ₚ l' -> l = l'.
Proof.
  intros H1 H2 Hp. assert (f <$> l = f <$> l') as E.
  { apply canonical_unique; [done|done|]. intros x. by rewrite Hp. }
  pose proof (canonical_NoDup _ H2) as Hn. clear H1 H2.
  assert (forall x y, x ∈ l' -> y ∈ l' -> f x = f y -> x = y) as Hinj.
  { clear -Hn. induction l' as [|z l' IH]; intros x y Hx Hy Exy; [set_solver|]. csimpl in Hn.
    apply NoDup_cons in Hn as [Hz Hn].
    apply elem_of_cons in Hx as [->|Hx]; apply elem_of_cons in Hy as [->|Hy]; [done| | |by apply IH].
    - exfalso. apply Hz. rewrite Exy. by apply list_elem_of_fmap_2.
    - exfalso. apply Hz. rewrite <-Exy. by apply list_elem_of_fmap_2. }
  assert (forall x, x ∈ l -> x ∈ l') as Hin by (intros x; by rewrite Hp). clear Hp Hn.
  assert (forall l2, (forall x, x ∈ l2 -> x ∈ l') -> f <$> l = f <$> l2 -> l = l2) as Hgen; [|by apply Hgen].
  clear E. induction l as [|x l IH]; intros [|y l2] H2 E; try done. csimpl in E. injection E as E1 E2. f_equal.
  - apply Hinj; [apply Hin; set_solver|apply H2; set_solver|done].
  - apply IH; [|intros; apply H2; set_solver|done]. intros z Hz. apply Hin. set_solver.
Qed.

Lemma expected_full_total c :
  catalog_ok c -> _expected_selected c true = Ok (selection full_depth <$> obligations c).
Proof.
  intros Hc. unfold _expected_selected. apply mapR_pure. intros o Ho. unfold SelectedObligation_new.
  fold (selection full_depth o). by rewrite (selection_checked _ _ Hc Ho).
Qed.

Lemma fallback_plan_exact `{Sha256} input pol p :
  catalog_ok (catalog pol) -> fallback_plan input pol p -> _is_exact_full_ci p pol = Ok true.
Proof.
  intros Hc [Hs Ht (reason & Hfb & ev & Hev & Ee)].
  destruct (plan_check_canonical _ (sl_check _ _ _ _ _ _ _ Hs)) as (C1 & _).
  assert (selected_obligations p = selection full_depth <$> obligations (catalog pol)) as Es.
  { apply (canonical_perm_eq so_obligation_id); [done| |apply Hs]. rewrite selection_ids. apply Hc. }
  pose proof (sl_omitted _ _ _ _ _ _ _ Hs) as Eo%Permutation_nil_r.
  assert (Forall (selects (catalog pol)) (selected_obligations p)) as Hsel.
  { rewrite Es. apply Forall_fmap, Forall_forall. intros o Ho. apply selection_selects; auto. }
  assert (Witnesses.close_selected_witnesses (catalog pol) (selection full_depth <$> obligations (catalog pol)) =
    Ok (selected_witnesses p)) as Hw.
  { rewrite <-Es. apply closures_agree. split; [|apply Hs]. eapply Forall_impl; [exact Hsel|].
    intros s. by apply selects_keeps. }
  unfold PlanFallback_new in Hfb. apply bind_Ok in Hfb as ([] & _ & Hfb). injection Hfb as Hfb.
  unfold _is_exact_full_ci. rewrite expected_full_total by done. cbn [mbind res_bind]. rewrite Hw, Eo, Es, <-Hfb.
  cbn [timeout_seconds fb_reason]. rewrite Z.eqb_refl, !bool_decide_eq_true_2 by done. cbn [andb andR mbind res_bind].
  rewrite !bool_decide_eq_true_2 by done. cbn [andb andR]. rewrite Hev. cbn [mbind res_bind].
  by rewrite Ee, bool_decide_eq_true_2.
Qed.

(** ** Decided plans are complete *)

Lemma evidence_by_obligation_total l m :
  Forall (fun e => kind e <> KFallback /\ is_Some (ev_obligation_id e)) l ->
  NoDup (ev_obligation_id <$> l) -> (forall i, Some i ∈ ev_obligation_id <$> l -> m !! i = None) ->
  exists m', evidence_by_obligation l m = Some m' /\
    forall i e, m' !! i = Some e <-> m !! i = Some e \/ (e ∈ l /\ ev_obligation_id e = Some i).
Proof.
  intros Hf. revert m. induction Hf as [|e l [Hk [i Hi]] Hf IH]; intros m Hn Hm; cbn [evidence_by_obligation].
  { exists m. split; [done|]. set_solver. }
  csimpl in Hn. csimpl in Hm. apply NoDup_cons in Hn as [Hni Hn]. rewrite Hi in *.
  assert (m !! i = None) as Hmi by (apply Hm; set_solver).
  destruct (IH (<[i := e]> m) Hn) as (m' & E & Hm').
  { intros j Hj. rewrite lookup_insert_ne by (intros ->; done). apply Hm. set_solver. }
  exists m'. split.
  - assert (bool_decide (is_Some (m !! i)) = false) as E' by (apply bool_decide_eq_false_2; rewrite Hmi; by intros []).
    destruct (kind e); [| |done]; by rewrite E'.
  - intros j x. rewrite Hm'. destruct (decide (i = j)) as [<-|Hne].
    + rewrite lookup_insert_eq, Hmi. split.
      * intros [[= <-]|[Hx Ex]]; right; (split; [set_solver|done]).
      * intros [?|[[->|Hx]%elem_of_cons Ex]]; [done|by left|by right].
    + rewrite lookup_insert_ne by done. split.
      * intros [?|[Hx Ex]]; [by left|right; split; [set_solver|done]].
      * intros [?|[[->|Hx]%elem_of_cons Ex]]; [by left|congruence|by right].
Qed.

Section decided.
Context `{Sha256} (input : PlanningInput) (pol : PlanningPolicy) (changed : list pystr)
  (impact : ImpactAnalysis) (st : plan_lists) (p : DeterministicPlan).
Context (Hc : catalog_ok (catalog pol)) (Hd : decided_plan input pol changed impact st p).

Let os := obligations (catalog pol).
Let Hl := dp_lists _ _ _ _ _ _ Hd.
Let Hs := dp_sealed _ _ _ _ _ _ Hd.

Lemma decided_evidence e :
  e ∈ evidence p -> exists o, o ∈ os /\
    kind e = (if omits impact o then KOmitted else KSelected) /\ ev_obligation_id e = Some (obligation_id o).
Proof.
  rewrite (sl_evidence _ _ _ _ _ _ _ Hs). intros He.
  apply (list_elem_of_fmap_2 (fun e => (kind e, ev_obligation_id e))) in He.
  rewrite (ls_evidence _ _ _ _ _ Hl) in He. apply list_elem_of_fmap in He as (o & E & Ho).
  injection E as E1 E2. by exists o.
Qed.

Lemma decided_evidence_ids : ev_obligation_id <$> evidence p ≡ₚ Some <$> (obligation_id <$> os).
Proof.
  rewrite (sl_evidence _ _ _ _ _ _ _ Hs).
  assert (ev_obligation_id <$> pl_evidence st =
    snd <$> ((fun e => (kind e, ev_obligation_id e)) <$> pl_evidence st)) as ->
    by (rewrite <-list_fmap_compose; done).
  rewrite (ls_evidence _ _ _ _ _ Hl), <-!list_fmap_compose. done.
Qed.

Lemma decided_selected_id o :
  o ∈ os -> obligation_id o ∈ so_obligation_id <$> selected_obligations p <-> omits impact o = false.
Proof.
  intros Ho. rewrite (sl_selected _ _ _ _ _ _ _ Hs), (ls_selected _ _ _ _ _ Hl), selection_ids, list_elem_of_fmap.
  split.
  - intros (o' & E & [Hf Ho']%list_elem_of_filter). replace o with o'; [done|].
    pose proof (catalog_lookup _ _ Hc Ho) as L. rewrite E, (catalog_lookup _ _ Hc Ho') in L. by injection L.
  - intros Hf. exists o. split; [done|]. by apply list_elem_of_filter.
Qed.

Lemma decided_partition :
  (so_obligation_id <$> selected_obligations p) ++ (oo_obligation_id <$> omitted_obligations p)
    ≡ₚ obligation_id <$> os.
Proof.
  rewrite (sl_selected _ _ _ _ _ _ _ Hs), (sl_omitted _ _ _ _ _ _ _ Hs).
  rewrite (ls_selected _ _ _ _ _ Hl), (ls_omitted _ _ _ _ _ Hl), selection_ids, <-fmap_app.
  by rewrite filter_bool_perm.
Qed.

Lemma decided_selections s :
  s ∈ selected_obligations p -> exists o, o ∈ os /\ s = selection default_depth o.
Proof.
  rewrite (sl_selected _ _ _ _ _ _ _ Hs), (ls_selected _ _ _ _ _ Hl).
  intros (o & -> & [_ Ho]%list_elem_of_filter)%list_elem_of_fmap. eauto.
Qed.

Lemma decided_closure :
  Witnesses.close_selected_witnesses (catalog pol) (selected_obligations p) = Ok (selected_witnesses p).
Proof.
  apply closures_agree. split; [|apply Hs]. apply Forall_forall. intros s (o & Ho & ->)%decided_selections.
  apply selects_keeps; [done|]. apply selection_selects; auto.
Qed.

Lemma decided_requirements :
  mapR (fun s =>
    o ← from_option KeyError (dict_by obligation_id id os !! so_obligation_id s);
    Ok (bool_decide (so_required_witness_ids s <> required_witness_ids o) ||
        bool_decide (so_depth s <> default_depth o))) (selected_obligations p) =
  Ok ((fun _ => false) <$> selected_obligations p).
Proof.
  apply mapR_pure. intros s (o & Ho & ->)%decided_selections. cbn [selection so_obligation_id].
  unfold os in *. rewrite (catalog_lookup _ _ Hc Ho). cbn [from_option mbind res_bind so_required_witness_ids so_depth].
  by rewrite !bool_decide_eq_false_2 by (intros Hn; by apply Hn).
Qed.

Lemma decided_structure : _is_complete_selective_structure p (catalog pol) = Ok true.
Proof.
  pose proof decided_partition as Hpart. unfold _is_complete_selective_structure.
  pose proof (dp_timeout _ _ _ _ _ _ Hd) as Hfb. unfold PlanFallback_new in Hfb.
  apply bind_Ok in Hfb as ([] & _ & Hfb). injection Hfb as Hfb. rewrite <-Hfb. clear Hfb.
  assert (NoDup ((so_obligation_id <$> selected_obligations p) ++ (oo_obligation_id <$> omitted_obligations p))) as Hnd.
  { rewrite Hpart. apply canonical_NoDup, Hc. }
  apply NoDup_app in Hnd as (_ & Hdis & _).
  rewrite (bool_decide_eq_false_2 (fb_reason _ <> None)) by (intros Hn; by apply Hn).
  rewrite (bool_decide_eq_false_2 (_ ∩ _ <> ∅)) by (intros Hn; apply Hn, str_set_disjoint; exact Hdis).
  rewrite (bool_decide_eq_false_2 (_ ∪ _ <> _)).
  2: { intros Hn. apply Hn, set_eq. intros i. unfold str_set.
       rewrite elem_of_union, !elem_of_list_to_set, <-elem_of_app, Hpart, elem_of_dom. by rewrite dict_by_elem. }
  cbn [orb]. fold os. rewrite decided_requirements. cbn [mbind res_bind].
  assert (existsb id ((fun _ => false) <$> selected_obligations p) = false) as ->.
  { apply existsb_false. intros b (s & -> & _)%list_elem_of_fmap. done. }
  rewrite decided_closure. cbn [mbind res_bind]. rewrite bool_decide_eq_false_2 by (intros Hn; by apply Hn).
  destruct (evidence_by_obligation_total (evidence p) ∅) as (m & -> & Hm).
  - apply Forall_forall. intros e (o & Ho & Ek & Ei)%decided_evidence. rewrite Ek, Ei.
    split; [by destruct (omits impact o)|eauto].
  - rewrite decided_evidence_ids. apply (NoDup_fmap_2 Some), canonical_NoDup, Hc.
  - done.
  - f_equal. apply andb_true_iff'. split.
    + apply bool_decide_eq_true_2, set_eq. intros i. rewrite !elem_of_dom, dict_by_elem. split.
      * intros [e [He|[He Ei]]%Hm]; [done|]. apply decided_evidence in He as (o & Ho & _ & Ei').
        rewrite Ei in Ei'. injection Ei' as ->. by apply list_elem_of_fmap_2.
      * intros Hi. assert (Some i ∈ ev_obligation_id <$> evidence p) as Hx.
        { rewrite decided_evidence_ids. by apply list_elem_of_fmap_2. }
        apply list_elem_of_fmap in Hx as (e & Ee & He). exists e. apply Hm. by right.
    + apply forallb_elem. intros i Hi. apply elem_of_elements, elem_of_dom, dict_by_elem in Hi as Hi'.
      assert (Some i ∈ ev_obligation_id <$> evidence p) as Hx.
      { rewrite decided_evidence_ids. by apply list_elem_of_fmap_2. }
      apply list_elem_of_fmap in Hx as (e & Ee & He).
      assert (m !! i = Some e) as -> by (apply Hm; by right). apply bool_decide_eq_true_2.
      destruct (decided_evidence e He) as (o & Ho & -> & Ei). rewrite Ei in Ee. injection Ee as ->.
      pose proof (decided_selected_id o Ho) as Hsel. unfold str_set.
      destruct (omits impact o).
      * rewrite bool_decide_eq_false_2; [done|]. intros Hin%elem_of_list_to_set%Hsel. done.
      * rewrite bool_decide_eq_true_2; [done|]. apply elem_of_list_to_set. by apply Hsel.
Qed.

Lemma decided_omission_valid f eh om :
  facts_spec input changed f -> hash_mapping (RepositoryEpoch_mapping (repo_epoch input)) = Ok eh ->
  om ∈ omitted_obligations p -> _omission_is_valid input pol om f (dict_by obligation_id id os) eh = true.
Proof.
  intros [F1 F2 F3 F4] Heh Hom. rewrite (sl_omitted _ _ _ _ _ _ _ Hs) in Hom.
  destruct (ls_proofs _ _ _ _ _ Hl om Hom) as (o & Ho & Hoo & Ei & Er & Hp).
  destruct Hp as (P1 & P2 & P3 & P4 & P5 & P6 & P7 & P8 & P9 & P10).
  assert (op_repo_epoch_hash (oo_proof om) = eh) as P3' by congruence.
  destruct (dp_impact _ _ _ _ _ _ Hd) as [_ I1 I2 _ _ _].
  unfold omits in Hoo. apply andb_true_iff' in Hoo as [[[O1 O2]%andb_true_iff' O3]%andb_true_iff' O4].
  apply Bool.negb_true_iff in O3, O4. rewrite existsb_false in O3, O4.
  unfold _omission_is_valid, os. rewrite Ei, (catalog_lookup _ _ Hc Ho).
  rewrite O1, Er, P1, P2, P3', P4, P5, P6, P7, P8, P9, P10, !bool_decide_eq_true_2 by reflexivity. cbn [andb].
  rewrite andb_true_iff', !Bool.negb_true_iff, !existsb_false. split.
  - intros r Hr. specialize (O4 r Hr). apply bool_decide_eq_false_2. intros Hx%F2%I2.
    by apply bool_decide_eq_false_1 in O4.
  - intros pat Hpat. apply existsb_false. intros q Hq%elem_of_elements%F1%I1. specialize (O3 q Hq).
    unfold path_in_responsibility in O3. rewrite existsb_false in O3. by apply O3.
Qed.
End decided.

(** ** Agreement *)

(** Some changed path is a global risk path of the graph. *)
Definition global_risk_changed (input : PlanningInput) (changed : list pystr) : bool :=
  existsb (is_global_risk input) changed.

Lemma planner_plan_admission `{Sha256} input pol changed p :
  built input -> catalog_ok (catalog pol) -> changed_paths (diff input) = Ok changed ->
  plan input pol = Ok (Planned p) ->
  admit_deterministic_plan input pol p =
    Ok (if negb (triggered (fallback p)) && global_risk_changed input changed
        then Some omission_proof_mismatch else None).
Proof.
  intros Hb Hc Hch Hp. assert (coordinates_match input pol) as Hm.
  { apply plan_branches in Hp. remember (Planned p) as r eqn:Er. destruct Hp; by simplify_eq. }
  apply plan_has_shape in Hp as [[Hf _]|(ch & impact & st & Hd)]; unfold admit_deterministic_plan.
  - rewrite (sealed_coordinates _ _ _ _ _ _ _ Hb Hm (fp_sealed _ _ _ Hf)). cbn [mbind res_bind negb].
    rewrite (fp_triggered _ _ _ Hf). by rewrite (fallback_plan_exact _ _ _ Hc Hf).
  - assert (ch = changed) as -> by (destruct (is_changed _ _ _ (dp_impact _ _ _ _ _ _ Hd)); congruence).
    rewrite (sealed_coordinates _ _ _ _ _ _ _ Hb Hm (dp_sealed _ _ _ _ _ _ Hd)). cbn [mbind res_bind negb].
    rewrite (dp_triggered _ _ _ _ _ _ Hd).
    destruct (built_context input Hb (dp_reasons _ _ _ _ _ _ Hd)) as [-> Hclosed]. cbn [mbind res_bind negb].
    assert ((timeout_seconds (fallback p) =? fallback_timeout_seconds pol) = true) as ->.
    { pose proof (dp_timeout _ _ _ _ _ _ Hd) as Hfb. unfold PlanFallback_new in Hfb.
      apply bind_Ok in Hfb as ([] & _ & Hfb). injection Hfb as <-. apply Z.eqb_refl. }
    cbn [negb]. rewrite (decided_structure _ _ _ _ _ _ Hc Hd). cbn [mbind res_bind negb andb].
    destruct (derive_impact_spec input changed Hch) as (f & -> & Hf). cbn [mbind res_bind].
    assert (f_unknown f = ∅) as Hu.
    { apply set_eq. intros q. rewrite (fs_unknown _ _ _ Hf), <-(reached_unknown_closed _ _ _ Hclosed).
      rewrite <-(is_unknown _ _ _ (dp_impact _ _ _ _ _ _ Hd)), (dp_known _ _ _ _ _ _ Hd). set_solver. }
    rewrite Hu, (bool_decide_eq_false_2 (∅ <> ∅)) by (intros Hn; by apply Hn). cbn [orb].
    assert (bool_decide (f_global f <> ∅) = global_risk_changed input changed) as ->.
    { apply Bool.eq_iff_eq_true. unfold global_risk_changed. rewrite bool_decide_eq_true, existsb_elem. split.
      - intros (q & Hq)%set_choose_L. exists q. by apply (fs_global _ _ _ Hf).
      - intros (q & Hq%(fs_global _ _ _ Hf)) E. rewrite E in Hq. set_solver. }
    destruct (global_risk_changed input changed); [done|].
    unfold _omissions_are_valid. destruct (built_coordinates input pol Hb) as [_ [eh Heh]]. rewrite Heh.
    cbn [mbind res_bind]. replace (forallb _ (omitted_obligations p)) with true; [done|]. symmetry.
    apply forallb_elem. intros om Hom. by eapply decided_omission_valid.
Qed.

(** ** Properties *)

(** C8: on inputs of the repository-context builders the verifier admits exactly
    the planner's plans that are fallbacks or were made with no global risk path
    changed; the others it refuses with [omission_proof_mismatch]. *)
Theorem planner_plans_admitted `{Sha256} input pol changed p :
  built input ->
  catalog_ok (catalog pol) ->
  changed_paths (diff input) = Ok changed ->
  plan input pol = Ok (Planned p) ->
  admit_deterministic_plan input pol p =
    Ok (if negb (triggered (fallback p)) && global_risk_changed input changed
        then Some omission_proof_mismatch else None).
Proof. apply planner_plan_admission. Qed.
