(* ===== verification/Verifier.v ===== *)
(** * Verified plans

    Models [verification_core/model.py] and [verifier.py]: the verified plan,
    its constructor's checks and content identity, and [verify], which admits a
    candidate plan, applies admitted advice, and replaces what it cannot admit
    by the full catalog at full depth. *)

From stdpp Require Import base gmap sets list sorting strings.
From Stdlib Require Import ZArith Lia.
From S2P Require Import Prelude Text PathPatterns PyFloat CanonicalJson Hashing Contract RepoContext Planning Advice Verification.

(** [any(f(x) for x in l)], which stops at the first true one. *)
Fixpoint anyR {A} (f : A -> res bool) (l : list A) : res bool :=
  match l with
  | [] => Ok false
  | x :: r => b ← f x; if (b : bool) then Ok true else anyR f r
  end.

(** A loop of checks. *)
Definition eachR {A} (f : A -> res unit) (l : list A) : res unit := mapR f l ;; Ok tt.

(** ** [model.py] *)

Inductive VerificationEvidenceKind := VDeterministic | VAdviceAccepted | VAdviceRejected.

Definition verification_kind_str (k : VerificationEvidenceKind) : pystr :=
  match k with
  | VDeterministic => u "deterministic"
  | VAdviceAccepted => u "agent_advice_accepted"
  | VAdviceRejected => u "agent_advice_rejected"
  end.

Record VerificationEvidence := { ve_kind : VerificationEvidenceKind; ve_message : pystr }.

Record VerifiedPlan := {
  execution_plan_id : pystr;
  source_plan : DeterministicPlan;
  vp_catalog : ValidationCatalog;
  vp_selected : list SelectedObligation;
  vp_witnesses : list SelectedWitness;
  vp_omitted : list OmittedObligation;
  vp_fallback : PlanFallback;
  deterministic_evidence : list PlanEvidence;
  verification_evidence : list VerificationEvidence;
  vp_advice : option AdviceAuditMetadata;
}.

Definition VerificationEvidence_mapping (e : VerificationEvidence) : pyval :=
  obj [("kind", VStr (verification_kind_str (ve_kind e))); ("message", VStr (ve_message e))]%string.

Definition _advice_identity (a : AdviceAuditMetadata) : pyval :=
  obj [("adviceHash", VStr (advice_hash a)); ("adviceId", opt_str (am_advice_id a));
       ("inputHash", VStr (am_input_hash a)); ("modelId", VStr (am_model_id a));
       ("promptHash", VStr (am_prompt_hash a)); ("evaluationId", VStr (evaluation_id a));
       ("evaluationPolicyHash", VStr (evaluation_policy_hash a)); ("evaluationPassed", VBool (evaluation_passed a));
       ("parseValid", VBool (parse_valid a)); ("accepted", VBool (accepted a));
       ("reasons", str_list (am_reasons a))]%string.

Definition catalog_mapping (c : ValidationCatalog) : res pyval :=
  ValidationCatalog_mapping (obligations c) (witnesses c) (execution_profiles c).

Definition VerifiedPlan_mapping (p : VerifiedPlan) : res pyval :=
  c ← catalog_mapping (vp_catalog p);
  Ok (obj [("sourcePlan", identity_mapping (source_plan p)); ("validationCatalog", c);
           ("selectedObligations", arr (SelectedObligation_mapping <$> vp_selected p));
           ("selectedWitnesses", arr (SelectedWitness_mapping <$> vp_witnesses p));
           ("omittedObligations", arr (OmittedObligation_mapping <$> vp_omitted p));
           ("fallback", PlanFallback_mapping (vp_fallback p));
           ("deterministicEvidence", arr (PlanEvidence_mapping <$> deterministic_evidence p));
           ("verificationEvidence", arr (VerificationEvidence_mapping <$> verification_evidence p));
           ("agentAdvice", match vp_advice p with None => VNone | Some a => _advice_identity a end)]%string).

Definition _require_canonical_ids (values : list pystr) (field_name : pystr) : res unit :=
  require_canonical values (ValueError (field_name ++ u " must be canonical")).

(** The loop over the source's selected obligations. *)
Definition check_source_selected (selected : gmap pystr SelectedObligation) (s : SelectedObligation) : res unit :=
  c ← from_option (ValueError (u "verified plan cannot omit a selected obligation"))
        (selected !! so_obligation_id s);
  raise_if (bool_decide (so_required_witness_ids c <> so_required_witness_ids s) ||
            (depth_rank (so_depth c) <? depth_rank (so_depth s)))
    (ValueError (u "verified plan cannot weaken deterministic obligation coverage")).

(** The loop over the candidate's selected obligations. *)
Definition check_candidate_selected (src_selected : gmap pystr SelectedObligation)
    (src_omitted : gmap pystr OmittedObligation) (s : SelectedObligation) : res unit :=
  let source_required_witnesses :=
    match src_selected !! so_obligation_id s, src_omitted !! so_obligation_id s with
    | Some x, _ => Some (so_required_witness_ids x)
    | None, Some y => Some (oo_required_witness_ids y)
    | None, None => None
    end in
  raise_if (bool_decide (source_required_witnesses <> Some (so_required_witness_ids s)))
    (ValueError (u "verified obligation requirements must preserve source identity")).

Definition check_candidate_omitted (src_omitted : gmap pystr OmittedObligation) (o : OmittedObligation) : res unit :=
  raise_if (bool_decide (src_omitted !! oo_obligation_id o <> Some o))
    (ValueError (u "verified omissions must preserve deterministic proofs")).

Definition check_source_witness (ws : gmap pystr SelectedWitness) (s : SelectedWitness) : res unit :=
  let refused := ValueError (u "verified plan cannot weaken deterministic witness coverage") in
  c ← from_option refused (ws !! sw_witness_id s);
  raise_if (depth_rank (sw_depth c) <? depth_rank (sw_depth s)) refused ;;
  raise_if (negb (bool_decide (str_set (required_by_obligation_ids s) ⊆ str_set (required_by_obligation_ids c))))
    (ValueError (u "verified plan cannot remove witness requirement edges")).

Section verified_plan.
Context `{Sha256}.

(** [__post_init__]. *)
Definition VerifiedPlan_check (p : VerifiedPlan) : res unit :=
  let src := source_plan p in
  raise_if (bool_decide (catalog_hash (vp_catalog p) <> plan_catalog_hash src))
    (ValueError (u "verified catalog must match the source plan catalog hash")) ;;
  _require_canonical_ids (so_obligation_id <$> vp_selected p) (u "verified selected obligations") ;;
  _require_canonical_ids (sw_witness_id <$> vp_witnesses p) (u "verified selected witnesses") ;;
  _require_canonical_ids (oo_obligation_id <$> vp_omitted p) (u "verified omitted obligations") ;;
  ws ← Witnesses.close_selected_witnesses (vp_catalog p) (vp_selected p);
  raise_if (bool_decide (vp_witnesses p <> ws))
    (ValueError (u "verified witnesses must exactly close catalog requirements")) ;;
  let source_selected := dict_by so_obligation_id id (selected_obligations src) in
  let source_omitted := dict_by oo_obligation_id id (omitted_obligations src) in
  let candidate_selected := dict_by so_obligation_id id (vp_selected p) in
  let candidate_omitted := dict_by oo_obligation_id id (vp_omitted p) in
  raise_if (bool_decide (dom candidate_selected ∩ dom candidate_omitted <> ∅))
    (ValueError (u "verified plan obligations must be disjoint")) ;;
  let catalog_obligations := dict_by obligation_id id (obligations (vp_catalog p)) in
  raise_if (bool_decide (dom candidate_selected ∪ dom candidate_omitted <> dom catalog_obligations))
    (ValueError (u "verified plan must classify every catalog obligation")) ;;
  weak ← andR (triggered (vp_fallback p))
    (if bool_decide (vp_omitted p <> []) then Ok true
     else anyR (fun s =>
            o ← from_option KeyError (catalog_obligations !! so_obligation_id s);
            Ok (depth_rank (so_depth s) <? depth_rank (full_depth o))) (vp_selected p));
  raise_if weak (ValueError (u "verified fallback must select the full catalog at full depth")) ;;
  raise_if (bool_decide (dom candidate_selected ∪ dom candidate_omitted <> dom source_selected ∪ dom source_omitted))
    (ValueError (u "verified plan must classify every deterministic obligation")) ;;
  eachR (check_source_selected candidate_selected) (selected_obligations src) ;;
  eachR (check_candidate_selected source_selected source_omitted) (vp_selected p) ;;
  eachR (check_candidate_omitted source_omitted) (vp_omitted p) ;;
  eachR (check_source_witness (dict_by sw_witness_id id (vp_witnesses p))) (selected_witnesses src) ;;
  m ← VerifiedPlan_mapping p;
  h ← hash_mapping m;
  raise_if (bool_decide (execution_plan_id p <> u "verified_plan_" ++ take 32 h))
    (ValueError (u "verified plan id does not bind its execution identity")).

(** The plan with its identity field left open: [identity] of the source. *)
Definition make_verified_plan (src : DeterministicPlan) (c : ValidationCatalog)
    (selected_obligations : list SelectedObligation) (selected_witnesses : list SelectedWitness)
    (omitted_obligations : list OmittedObligation) (fb : PlanFallback) (det : list PlanEvidence)
    (ver : list VerificationEvidence) (advice : option AdviceAuditMetadata) : res VerifiedPlan :=
  selected ← sorted_by_id so_obligation_id selected_obligations;
  ws ← sorted_by_id sw_witness_id selected_witnesses;
  omitted ← sorted_by_id oo_obligation_id omitted_obligations;
  cm ← catalog_mapping c;
  let identity :=
    obj [("sourcePlan", identity_mapping src); ("validationCatalog", cm);
         ("selectedObligations", arr (SelectedObligation_mapping <$> selected));
         ("selectedWitnesses", arr (SelectedWitness_mapping <$> ws));
         ("omittedObligations", arr (OmittedObligation_mapping <$> omitted));
         ("fallback", PlanFallback_mapping fb);
         ("deterministicEvidence", arr (PlanEvidence_mapping <$> det));
         ("verificationEvidence", arr (VerificationEvidence_mapping <$> ver));
         ("agentAdvice", match advice with None => VNone | Some a => _advice_identity a end)]%string in
  h ← hash_mapping identity;
  let p := {| execution_plan_id := u "verified_plan_" ++ take 32 h; source_plan := src; vp_catalog := c;
              vp_selected := selected; vp_witnesses := ws; vp_omitted := omitted; vp_fallback := fb;
              deterministic_evidence := det; verification_evidence := ver; vp_advice := advice |} in
  VerifiedPlan_check p ;; Ok p.
End verified_plan.

(** ** [verifier.py] *)

Definition _selected (o : ValidationObligation) : res SelectedObligation :=
  SelectedObligation_new (obligation_id o) (default_depth o) (required_witness_ids o).

(** The tuple of [_execution_authorities]. *)
Definition authority (p : ExecutionProfile) : pystr * pystr * pystr * pystr * list pystr * pystr :=
  (runner_profile_id p, permission_profile_id p, credential_profile_id p, fixture_profile_id p,
   service_profile_ids p, capacity_class_id p).

Definition _execution_authorities (c : ValidationCatalog) (ws : list SelectedWitness)
    : res (list (pystr * pystr * pystr * pystr * list pystr * pystr)) :=
  let witness_profiles := dict_by witness_id execution_profile_id (witnesses c) in
  let profiles := dict_by profile_id id (execution_profiles c) in
  mapR (fun w =>
    pid ← from_option KeyError (witness_profiles !! sw_witness_id w);
    profile ← from_option KeyError (profiles !! pid);
    Ok (authority profile)) ws.

Definition _rejected_audit (a : AdviceAuditMetadata) (reason : pystr) : res AdviceAuditMetadata :=
  rs ← sorted_unique (am_reasons a ++ [reason]);
  let r := {| advice_hash := advice_hash a; am_advice_id := am_advice_id a; am_input_hash := am_input_hash a;
              am_model_id := am_model_id a; am_prompt_hash := am_prompt_hash a; evaluation_id := evaluation_id a;
              evaluation_policy_hash := evaluation_policy_hash a; evaluation_passed := evaluation_passed a;
              parse_valid := parse_valid a; accepted := false; am_reasons := rs |} in
  AdviceAuditMetadata_check r ;; Ok r.

(** The three loops of [_apply_advice] over the [selected] dict. *)
Definition apply_add (os : gmap pystr ValidationObligation) (m : gmap pystr SelectedObligation) (i : pystr)
    : res (gmap pystr SelectedObligation) :=
  o ← from_option KeyError (os !! i);
  s ← _selected o;
  Ok (match m !! i with Some _ => m | None => <[i := s]> m end).

Definition apply_increase (os : gmap pystr ValidationObligation) (m : gmap pystr SelectedObligation)
    (inc : AdviceDepthIncrease) : res (gmap pystr SelectedObligation) :=
  o ← from_option KeyError (os !! inc_obligation_id inc);
  s ← _selected o;
  let current := default s (m !! inc_obligation_id inc) in
  s' ← SelectedObligation_new (so_obligation_id current) (max_depth (so_depth current) (min_depth inc))
         (so_required_witness_ids current);
  Ok (<[inc_obligation_id inc := s']> m).

Definition advised_selection (c : ValidationCatalog) (base : list SelectedObligation) (a : AgentAdvice)
    : res (gmap pystr SelectedObligation) :=
  let os := dict_by obligation_id id (obligations c) in
  m1 ← foldR (apply_add os) (dict_by so_obligation_id id base) (add_obligations a);
  m2 ← foldR (apply_increase os) m1 (increase_depth a);
  foldR (apply_add os) m2 (rf_obligation_id <$> risk_findings a).

Definition accepted_evidence (prefix i : pystr) : VerificationEvidence :=
  {| ve_kind := VAdviceAccepted; ve_message := prefix ++ i |}.

Definition advice_evidence (a : AgentAdvice) : list VerificationEvidence :=
  (accepted_evidence (u "added:") <$> add_obligations a) ++
  (accepted_evidence (u "depth:") <$> (inc_obligation_id <$> increase_depth a)) ++
  (accepted_evidence (u "risk:") <$> (rf_obligation_id <$> risk_findings a)).

Definition deterministic_ok : VerificationEvidence :=
  {| ve_kind := VDeterministic; ve_message := u "independently admitted deterministic plan" |}.

Section verifier.
Context `{Sha256} (decode : list Z -> res pyval).

Definition _full_ci_fallback_plan (input : PlanningInput) (pol : PlanningPolicy) (reason : pystr)
    : res DeterministicPlan :=
  selected ← mapR (fun o => SelectedObligation_new (obligation_id o) (full_depth o) (required_witness_ids o))
               (obligations (catalog pol));
  ws ← Witnesses.close_selected_witnesses (catalog pol) selected;
  fb ← PlanFallback_new (fallback_timeout_seconds pol) true (Some reason);
  ev ← PlanEvidence_new KFallback None reason;
  epoch_hash ← hash_mapping (RepositoryEpoch_mapping (repo_epoch input));
  let identity :=
    obj [("schemaVersion", VStr (u "deterministic-plan/v1")); ("plannerVersion", VStr (u "planning-core/v1"));
         ("configEpochId", VStr (epoch_id (policy input))); ("repoEpochHash", VStr epoch_hash);
         ("inputHash", VStr (input_hash input)); ("diffHash", VStr (diff_hash (diff input)));
         ("compiledPolicyHash", VStr (pp_compiled_policy_hash pol)); ("policyHash", VStr (pp_policy_hash pol));
         ("dependencyGraphHash", VStr (graph_hash (dependency_graph input)));
         ("catalogHash", VStr (pp_catalog_hash pol));
         ("selectedObligations", arr (SelectedObligation_mapping <$> selected));
         ("selectedWitnesses", arr (SelectedWitness_mapping <$> ws));
         ("omittedObligations", arr []); ("fallback", PlanFallback_mapping fb);
         ("evidence", arr [PlanEvidence_mapping ev])]%string in
  h ← hash_mapping identity;
  let p := {| plan_id := u "dynamic_ci_plan_" ++ take 32 h; plan_schema_version := u "deterministic-plan/v1";
              planner_version := u "planning-core/v1"; config_epoch_id := epoch_id (policy input);
              repo_epoch_hash := epoch_hash; plan_input_hash := input_hash input;
              plan_diff_hash := diff_hash (diff input); compiled_policy_hash := pp_compiled_policy_hash pol;
              plan_policy_hash := pp_policy_hash pol;
              dependency_graph_hash := graph_hash (dependency_graph input);
              plan_catalog_hash := pp_catalog_hash pol; selected_obligations := selected;
              selected_witnesses := ws; omitted_obligations := []; fallback := fb; evidence := [ev] |} in
  DeterministicPlan_check p ;; Ok p.

Definition _base (p : DeterministicPlan) (c : ValidationCatalog) (advice : option AdviceAuditMetadata)
    (ev : list VerificationEvidence) : res VerifiedPlan :=
  make_verified_plan p c (selected_obligations p) (selected_witnesses p) (omitted_obligations p) (fallback p)
    (evidence p) (deterministic_ok :: ev) advice.

(** A fallback plan as a verified plan, with its verification evidence. *)
Definition from_fallback_plan (f : DeterministicPlan) (pol : PlanningPolicy) (ev : list VerificationEvidence)
    (advice : option AdviceAuditMetadata) : res VerifiedPlan :=
  make_verified_plan f (catalog pol) (selected_obligations f) (selected_witnesses f) (omitted_obligations f)
    (fallback f) (evidence f) ev advice.

Definition _fallback (input : PlanningInput) (pol : PlanningPolicy) (reason : pystr)
    (advice : option AdviceAuditMetadata) : res VerifiedPlan :=
  f ← _full_ci_fallback_plan input pol reason;
  from_fallback_plan f pol [{| ve_kind := VDeterministic; ve_message := reason |}] advice.

Definition _apply_advice (input : PlanningInput) (pol : PlanningPolicy) (base : DeterministicPlan)
    (a : AgentAdvice) (audit : AdviceAuditMetadata) : res VerifiedPlan :=
  if recommends_full_ci a then
    let reason := u "agent_advice_recommended_full_ci" in
    f ← _full_ci_fallback_plan input pol reason;
    from_fallback_plan f pol [{| ve_kind := VDeterministic; ve_message := reason |};
                              {| ve_kind := VAdviceAccepted; ve_message := reason |}] (Some audit)
  else
    selected ← advised_selection (catalog pol) (selected_obligations base) a;
    final_selected ← sorted_by_id so_obligation_id (snd <$> map_to_list selected);
    final_witnesses ← Witnesses.close_selected_witnesses (catalog pol) final_selected;
    final_authorities ← _execution_authorities (catalog pol) final_witnesses;
    base_authorities ← _execution_authorities (catalog pol) (selected_witnesses base);
    if negb (forallb (fun x => bool_decide (x ∈ base_authorities)) final_authorities) then
      let reason := u "agent_advice_authority_expansion" in
      r ← _rejected_audit audit reason; _fallback input pol reason (Some r)
    else
      let comparison := compare_coverage (selected_obligations base) (selected_witnesses base)
                          final_selected final_witnesses in
      if bool_decide (relation comparison = less) || bool_decide (relation comparison = incomparable) then
        let reason := u "agent_advice_coverage_regression" in
        r ← _rejected_audit audit reason; _fallback input pol reason (Some r)
      else
        let selected_ids := so_obligation_id <$> final_selected in
        let final_omitted := filter (fun o => oo_obligation_id o ∉ selected_ids) (omitted_obligations base) in
        make_verified_plan base (catalog pol) final_selected final_witnesses final_omitted (fallback base)
          (evidence base) (deterministic_ok :: advice_evidence a) (Some audit).

Definition verify (input : PlanningInput) (pol : PlanningPolicy) (p : DeterministicPlan)
    (advice : option AdviceExecutionEnvelope) : res VerifiedPlan :=
  rejection ← admit_deterministic_plan input pol p;
  match rejection with
  | Some reason => _fallback input pol (rejection_str reason) None
  | None =>
      match advice with
      | None => _base p (catalog pol) None []
      | Some e =>
          admission ← admit_advice decode e input pol;
          match admission with
          | RejectedAdvice audit =>
              _base p (catalog pol) (Some audit)
                [{| ve_kind := VAdviceRejected; ve_message := join (u ";") (am_reasons audit) |}]
          | AdmittedAdvice a audit => _apply_advice input pol p a audit
          end
      end
  end.
End verifier.
