(* ===== verification/VerifierFacts.v ===== *)
(** * Correctness of the verifier

    What the constructor of a verified plan guarantees, and the properties of
    [verify]: whatever candidate and advice it is given, what it returns omits
    only what its own derivation justifies, never weakens the candidate, and
    falls back to the full catalog at full depth. *)

From stdpp Require Import base gmap sets list sorting strings.
From Stdlib Require Import ZArith Lia.
From S2P Require Import Prelude Text PathPatterns PyFloat CanonicalJson Hashing Contract RepoContext Planning ImpactFacts PlannerFacts Planner Advice Verification VerificationFacts PlannerAdmitted Verifier.

Lemma eachR_Ok {A} (f : A -> res unit) l x : eachR f l = Ok x <-> forall y, y ∈ l -> f y = Ok tt.
Proof.
  unfold eachR. destruct x. split.
  - intros (us & Hus & _)%bind_Ok y Hy. by destruct (mapR_elem _ _ _ _ Hus Hy) as ([] & ? & _).
  - intros Hall. destruct (mapR_total f l) as [us ->]; [|done]. intros y Hy. eauto.
Qed.

Lemma anyR_false {A} (f : A -> res bool) l : anyR f l = Ok false <-> forall x, x ∈ l -> f x = Ok false.
Proof.
  induction l as [|x l IH]; cbn [anyR]; [split; [set_solver|done]|]. split.
  - intros (b & Hb & Hr)%bind_Ok. destruct b; [done|]. pose proof (proj1 IH Hr) as Hr'.
    intros y [->|Hy]%elem_of_cons; auto.
  - intros Hall. rewrite (Hall x) by set_solver. cbn [mbind res_bind]. apply IH. intros y Hy. apply Hall. set_solver.
Qed.

(** ** The constructor of a verified plan *)

Record verified_ok `{Sha256} (v : VerifiedPlan) : Prop := {
  vo_catalog : catalog_hash (vp_catalog v) = plan_catalog_hash (source_plan v);
  vo_selected_ids : canonical (so_obligation_id <$> vp_selected v);
  vo_omitted_ids : canonical (oo_obligation_id <$> vp_omitted v);
  vo_closure : Witnesses.close_selected_witnesses (vp_catalog v) (vp_selected v) = Ok (vp_witnesses v);
  vo_disjoint : forall i, i ∈ so_obligation_id <$> vp_selected v -> i ∈ oo_obligation_id <$> vp_omitted v -> False;
  vo_complete : forall i, i ∈ so_obligation_id <$> vp_selected v \/ i ∈ oo_obligation_id <$> vp_omitted v <->
    i ∈ obligation_id <$> obligations (vp_catalog v);
  vo_fallback : triggered (vp_fallback v) = true -> vp_omitted v = [] /\
    forall s, s ∈ vp_selected v -> exists o,
      dict_by obligation_id id (obligations (vp_catalog v)) !! so_obligation_id s = Some o /\
      depth_rank (full_depth o) <= depth_rank (so_depth s);
  vo_covers : covers (vp_selected v) (selected_obligations (source_plan v));
  vo_omitted : forall om, om ∈ vp_omitted v -> om ∈ omitted_obligations (source_plan v);
  vo_witnesses : witness_covers (vp_witnesses v) (selected_witnesses (source_plan v));
  vo_identity : exists m h, VerifiedPlan_mapping v = Ok m /\ hash_mapping m = Ok h /\
    execution_plan_id v = u "verified_plan_" ++ take 32 h;
}.

Lemma dom_dict_by {A} (key : A -> pystr) (l : list A) i : i ∈ dom (dict_by key id l) <-> i ∈ key <$> l.
Proof. by rewrite elem_of_dom, dict_by_elem. Qed.

Lemma source_selected_covers cand src :
  (forall s, s ∈ src -> check_source_selected (dict_by so_obligation_id id cand) s = Ok tt) -> covers cand src.
Proof.
  intros Hall s Hs. specialize (Hall s Hs). unfold check_source_selected in Hall.
  apply bind_Ok in Hall as (c & Hc%from_option_Ok & Hr%raise_if_Ok).
  apply dict_by_Some in Hc as (x & Hx & Ex & E). cbn in E. subst c. bdec. by exists x.
Qed.

Lemma source_witness_covers cand src :
  (forall w, w ∈ src -> check_source_witness (dict_by sw_witness_id id cand) w = Ok tt) -> witness_covers cand src.
Proof.
  intros Hall w Hw. specialize (Hall w Hw). unfold check_source_witness in Hall.
  apply bind_Ok in Hall as (c & Hc%from_option_Ok & Hr). apply bind_Ok in Hr as ([] & Hd%raise_if_Ok & He%raise_if_Ok).
  apply dict_by_Some in Hc as (x & Hx & Ex & E). cbn in E. subst c. bdec. exists x. split_and!; [done|done| |done].
  intros i Hi. unfold str_set in *.
  match goal with E : _ ⊆ _ |- _ => specialize (E i); rewrite !elem_of_list_to_set in E; auto end.
Qed.

Lemma VerifiedPlan_check_ok `{Sha256} v : VerifiedPlan_check v = Ok tt -> verified_ok v.
Proof.
  unfold VerifiedPlan_check. intros Hk.
  apply bind_Ok in Hk as ([] & K1%raise_if_Ok & Hk). apply bind_Ok in Hk as ([] & K2%require_canonical_Ok & Hk).
  apply bind_Ok in Hk as ([] & _ & Hk). apply bind_Ok in Hk as ([] & K3%require_canonical_Ok & Hk).
  apply bind_Ok in Hk as (ws & K4 & Hk). apply bind_Ok in Hk as ([] & K5%raise_if_Ok & Hk).
  apply bind_Ok in Hk as ([] & K6%raise_if_Ok & Hk). apply bind_Ok in Hk as ([] & K7%raise_if_Ok & Hk).
  apply bind_Ok in Hk as (weak & K8 & Hk). apply bind_Ok in Hk as ([] & K9%raise_if_Ok & Hk).
  apply bind_Ok in Hk as ([] & _ & Hk). apply bind_Ok in Hk as ([] & K10 & Hk).
  apply bind_Ok in Hk as ([] & _ & Hk). apply bind_Ok in Hk as ([] & K11 & Hk).
  apply bind_Ok in Hk as ([] & K12 & Hk). apply bind_Ok in Hk as (m & Hm & Hk).
  apply bind_Ok in Hk as (h & Hh & K13%raise_if_Ok).
  apply bool_decide_eq_false_1, dec_stable in K1, K5, K6, K7, K13. subst weak ws.
  rewrite eachR_Ok in K10. rewrite eachR_Ok in K11. rewrite eachR_Ok in K12. split; try assumption.
  - intros i H1 H2. assert (i ∈ (∅ : gset pystr)) as Hx; [|by apply elem_of_empty in Hx].
    rewrite <-K6, elem_of_intersection, !dom_dict_by. done.
  - intros i. rewrite <-!dom_dict_by, <-K7, elem_of_union, !dom_dict_by. done.
  - intros Ht. rewrite Ht in K8. cbn [andR] in K8.
    destruct (bool_decide_reflect (vp_omitted v <> [])) as [|Eo%dec_stable]; [done|]. split; [done|].
    rewrite anyR_false in K8. intros s Hs. specialize (K8 s Hs). apply bind_Ok in K8 as (o & Ho%from_option_Ok & K8).
    injection K8 as K8%Z.ltb_ge. by exists o.
  - by apply source_selected_covers.
  - intros om Hom. specialize (K11 om Hom). unfold check_candidate_omitted in K11. apply raise_if_Ok in K11.
    apply bool_decide_eq_false_1, dec_stable in K11. apply dict_by_Some in K11 as (x & Hx & _ & <-). done.
  - by apply source_witness_covers.
  - by exists m, h.
Qed.

Lemma make_verified_plan_ok `{Sha256} src c sel ws om fb det ver adv v :
  make_verified_plan src c sel ws om fb det ver adv = Ok v ->
  verified_ok v /\ source_plan v = src /\ vp_catalog v = c /\ vp_selected v ≡ₚ sel /\ vp_omitted v ≡ₚ om /\
  vp_fallback v = fb /\ vp_advice v = adv /\ vp_witnesses v ≡ₚ ws.
Proof.
  unfold make_verified_plan. intros Hk. apply bind_Ok in Hk as (s' & Hs & Hk). apply bind_Ok in Hk as (w' & Hw & Hk).
  apply bind_Ok in Hk as (o' & Ho & Hk). apply bind_Ok in Hk as (cm & _ & Hk). apply bind_Ok in Hk as (h & _ & Hk).
  apply bind_Ok in Hk as ([] & Hck & Hk). injection Hk as <-. split; [by apply VerifiedPlan_check_ok|].
  cbn. split_and!; try reflexivity; by eapply sorted_by_id_perm.
Qed.

(** ** The fallback plan of the verifier *)

Lemma full_ci_fallback_plan_spec `{Sha256} input pol reason f :
  _full_ci_fallback_plan input pol reason = Ok f ->
  selected_obligations f = selection full_depth <$> obligations (catalog pol) /\ omitted_obligations f = [] /\
  triggered (fallback f) = true.
Proof.
  unfold _full_ci_fallback_plan. intros Hk. apply bind_Ok in Hk as (sel & Hsel%full_ci_selection & Hk).
  apply bind_Ok in Hk as (ws & _ & Hk). apply bind_Ok in Hk as (fb & Hfb & Hk).
  apply bind_Ok in Hk as (ev & _ & Hk). apply bind_Ok in Hk as (eh & _ & Hk). apply bind_Ok in Hk as (h & _ & Hk).
  apply bind_Ok in Hk as ([] & _ & Hk). injection Hk as <-. cbn. split_and!; [done|done|].
  unfold PlanFallback_new in Hfb. apply bind_Ok in Hfb as ([] & _ & Hfb). by injection Hfb as <-.
Qed.

(** A verified plan that runs everything. *)
Record full_ci `{Sha256} (pol : PlanningPolicy) (v : VerifiedPlan) : Prop := {
  fc_ok : verified_ok v;
  fc_catalog : vp_catalog v = catalog pol;
  fc_selected : vp_selected v ≡ₚ selection full_depth <$> obligations (catalog pol);
  fc_omitted : vp_omitted v = [];
  fc_triggered : triggered (vp_fallback v) = true;
}.

Lemma from_fallback_full `{Sha256} input pol reason f ev adv v :
  _full_ci_fallback_plan input pol reason = Ok f -> from_fallback_plan f pol ev adv = Ok v -> full_ci pol v.
Proof.
  intros (E1 & E2 & E3)%full_ci_fallback_plan_spec (V1 & V2 & V3 & V4 & V5 & V6 & _)%make_verified_plan_ok.
  rewrite E1 in V4. rewrite E2 in V5. apply Permutation_nil_r in V5. split; try assumption. by rewrite V6.
Qed.

Lemma fallback_full `{Sha256} input pol reason adv v :
  _fallback input pol reason adv = Ok v -> full_ci pol v.
Proof. unfold _fallback. intros (f & Hf & Hv)%bind_Ok. by eapply from_fallback_full. Qed.

(** ** The outcomes of [verify] *)

(** The execution authority of a witness: the profile tuple the catalog gives
    it, and that one selection needs none another does not have. *)
Definition witness_authority (c : ValidationCatalog) (w : SelectedWitness)
    : option (pystr * pystr * pystr * pystr * list pystr * pystr) :=
  pid ← dict_by witness_id execution_profile_id (witnesses c) !! sw_witness_id w;
  authority <$> dict_by profile_id id (execution_profiles c) !! pid.

Definition authority_within (c : ValidationCatalog) (ws ws' : list SelectedWitness) : Prop :=
  forall w a, w ∈ ws -> witness_authority c w = Some a -> exists w', w' ∈ ws' /\ witness_authority c w' = Some a.

Lemma execution_authorities_spec c ws l :
  _execution_authorities c ws = Ok l ->
  forall a, a ∈ l <-> exists w, w ∈ ws /\ witness_authority c w = Some a.
Proof.
  unfold _execution_authorities. intros Hl a.
  assert (forall w b, (pid ← from_option KeyError (dict_by witness_id execution_profile_id (witnesses c) !! sw_witness_id w);
      profile ← from_option KeyError (dict_by profile_id id (execution_profiles c) !! pid);
      Ok (authority profile)) = Ok b <-> witness_authority c w = Some b) as Hone.
  { intros w b. unfold witness_authority. destruct (_ !! sw_witness_id w) as [pid|]; cbn; [|done].
    destruct (_ !! pid); cbn; naive_solver. }
  split.
  - intros Ha. destruct (mapR_elem_inv _ _ _ _ Hl Ha) as (w & Hw & Hin). exists w. split; [done|]. by apply Hone.
  - intros (w & Hin & Hw%Hone). destruct (mapR_elem _ _ _ _ Hl Hin) as (b & Hb & Hbin).
    rewrite Hw in Hb. by injection Hb as <-.
Qed.

(** A verified plan built from the admitted candidate. *)
Record from_candidate `{Sha256} (pol : PlanningPolicy) (p : DeterministicPlan) (v : VerifiedPlan) : Prop := {
  fk_ok : verified_ok v;
  fk_source : source_plan v = p;
  fk_catalog : vp_catalog v = catalog pol;
  fk_fallback : vp_fallback v = fallback p;
  fk_authority : authority_within (catalog pol) (vp_witnesses v) (selected_witnesses p);
}.

Lemma base_from_candidate `{Sha256} p pol adv ev v :
  _base p (catalog pol) adv ev = Ok v -> from_candidate pol p v.
Proof.
  intros (V1 & V2 & V3 & V4 & V5 & V6 & V7 & V8)%make_verified_plan_ok. split; try assumption.
  intros w a. rewrite V8. eauto.
Qed.

Lemma apply_advice_outcome `{Sha256} input pol p a audit v :
  _apply_advice input pol p a audit = Ok v -> full_ci pol v \/ from_candidate pol p v.
Proof.
  unfold _apply_advice. destruct (recommends_full_ci a).
  { intros (f & Hf & Hv)%bind_Ok. left. by eapply from_fallback_full. }
  intros (m & _ & Hk)%bind_Ok. apply bind_Ok in Hk as (fs & _ & Hk). apply bind_Ok in Hk as (fw & _ & Hk).
  apply bind_Ok in Hk as (fa & Hfa & Hk). apply bind_Ok in Hk as (ba & Hba & Hk).
  destruct (forallb _ fa) eqn:Ea; cbn [negb] in Hk.
  2: { apply bind_Ok in Hk as (r & _ & Hk). left. by eapply fallback_full. }
  destruct (_ || _).
  { apply bind_Ok in Hk as (r & _ & Hk). left. by eapply fallback_full. }
  right. apply make_verified_plan_ok in Hk as (V1 & V2 & V3 & V4 & V5 & V6 & V7 & V8). split; try assumption.
  intros w x. rewrite V8. intros Hw Hx. rewrite forallb_elem in Ea.
  assert (x ∈ fa) as Hin by (apply (execution_authorities_spec _ _ _ Hfa); eauto).
  specialize (Ea x Hin). apply bool_decide_eq_true_1 in Ea.
  by apply (execution_authorities_spec _ _ _ Hba).
Qed.

Lemma verify_outcome `{Sha256} decode input pol p adv v :
  verify decode input pol p adv = Ok v ->
  full_ci pol v \/ (admit_deterministic_plan input pol p = Ok None /\ from_candidate pol p v).
Proof.
  unfold verify. intros (rej & Hrej & Hk)%bind_Ok. destruct rej as [r|].
  { left. by eapply fallback_full. }
  destruct adv as [e|]; [|right; split; [done|by eapply base_from_candidate]].
  apply bind_Ok in Hk as (adm & _ & Hk). destruct adm as [a audit|audit].
  - apply apply_advice_outcome in Hk as [Hf|Hf]; [by left|by right].
  - right. split; [done|by eapply base_from_candidate].
Qed.

(** ** Soundness *)

Lemma verified_partition `{Sha256} v :
  verified_ok v -> catalog_ok (vp_catalog v) ->
  (so_obligation_id <$> vp_selected v) ++ (oo_obligation_id <$> vp_omitted v)
    ≡ₚ obligation_id <$> obligations (vp_catalog v).
Proof.
  intros Hv Hc. apply partition_of_sets.
  - apply canonical_NoDup, Hv.
  - apply canonical_NoDup, Hv.
  - apply canonical_NoDup, Hc.
  - apply str_set_disjoint, Hv.
  - intros i. rewrite <-(vo_complete _ Hv). unfold str_set. by rewrite elem_of_union, !elem_of_list_to_set.
Qed.

(** What the verifier promises for any candidate and any advice. *)
Record verification_sound `{Sha256} (input : PlanningInput) (pol : PlanningPolicy) (changed : list pystr)
    (v : VerifiedPlan) : Prop := {
  vs_partition : (so_obligation_id <$> vp_selected v) ++ (oo_obligation_id <$> vp_omitted v)
    ≡ₚ obligation_id <$> obligations (catalog pol);
  vs_closure : closure_spec (vp_selected v) (vp_witnesses v);
  vs_requirements : forall s, s ∈ vp_selected v -> exists o, o ∈ obligations (catalog pol) /\
    so_obligation_id s = obligation_id o /\ so_required_witness_ids s = required_witness_ids o;
  vs_omitted : forall om, om ∈ vp_omitted v -> exists o, o ∈ obligations (catalog pol) /\
    oo_obligation_id om = obligation_id o /\ proof_for input pol o (oo_proof om) /\ omission_admissible input changed o;
  vs_fallback : triggered (vp_fallback v) = true -> vp_omitted v = [] /\
    forall s o, s ∈ vp_selected v -> o ∈ obligations (catalog pol) -> so_obligation_id s = obligation_id o ->
      depth_rank (full_depth o) <= depth_rank (so_depth s);
}.

Lemma verify_sound_facts `{Sha256} decode input pol p adv changed v :
  catalog_ok (catalog pol) -> DeterministicPlan_check p = Ok tt -> changed_paths (diff input) = Ok changed ->
  verify decode input pol p adv = Ok v -> verification_sound input pol changed v.
Proof.
  intros Hc Hck Hch Hv%verify_outcome.
  assert (verified_ok v /\ vp_catalog v = catalog pol /\ forall om, om ∈ vp_omitted v -> exists o,
    o ∈ obligations (catalog pol) /\ oo_obligation_id om = obligation_id o /\
    proof_for input pol o (oo_proof om) /\ omission_admissible input changed o) as (Hok & Ecat & Hom).
  { destruct Hv as [[V1 V2 _ V3 _]|[Hadm [V1 V2 V3 V4 _]]].
    - split_and!; [done|done|]. rewrite V3. set_solver.
    - split_and!; [done|done|]. intros om Hom%(vo_omitted _ V1). rewrite V2 in Hom.
      destruct (pa_omitted _ _ _ _ (admit_plan_sound _ _ _ _ Hc Hck Hch Hadm) om Hom) as (o & ? & ? & _ & ? & ?). eauto. }
  clear Hv. assert (catalog_ok (vp_catalog v)) as Hc' by by rewrite Ecat.
  destruct (verifier_closure_spec _ _ _ Hc' (vo_selected_ids _ Hok) (vo_closure _ Hok)) as [Hsel Hcl].
  rewrite Ecat in Hsel. split.
  - rewrite <-Ecat. by apply verified_partition.
  - done.
  - intros s Hs. rewrite Forall_forall in Hsel. destruct (Hsel s Hs) as (o & ? & ? & ? & _). eauto.
  - done.
  - intros Ht. destruct (vo_fallback _ Hok Ht) as [Eo Hd]. split; [done|]. intros s o Hs Ho Ei.
    destruct (Hd s Hs) as (o' & Ho' & Hr). rewrite Ecat, Ei, (catalog_lookup _ _ Hc Ho) in Ho'. by injection Ho' as <-.
Qed.

(** ** Applying advice *)

(** The dict of selected obligations: keyed by identity, requirements and at
    least the default depth of the catalog. *)
Definition selection_map (os : gmap pystr ValidationObligation) (m : gmap pystr SelectedObligation) : Prop :=
  forall i s, m !! i = Some s -> so_obligation_id s = i /\ exists o, os !! i = Some o /\
    so_required_witness_ids s = required_witness_ids o /\ depth_rank (default_depth o) <= depth_rank (so_depth s).

(** One dict extends another: entries keep their requirements and do not lose
    depth. *)
Definition grows (m m' : gmap pystr SelectedObligation) : Prop :=
  forall i s, m !! i = Some s -> exists s', m' !! i = Some s' /\
    so_required_witness_ids s' = so_required_witness_ids s /\ depth_rank (so_depth s) <= depth_rank (so_depth s').

#[export] Instance grows_preorder : PreOrder grows.
Proof.
  split.
  - intros m i s Hs. exists s. split_and!; [done|done|lia].
  - intros m1 m2 m3 H1 H2 i s Hs. destruct (H1 i s Hs) as (s2 & Hs2 & E2 & D2).
    destruct (H2 i s2 Hs2) as (s3 & Hs3 & E3 & D3). exists s3. split_and!; [done|congruence|lia].
Qed.

Section apply.
Context (os : gmap pystr ValidationObligation) (Hos : forall i o, os !! i = Some o -> obligation_id o = i).

Lemma selected_Ok o s : _selected o = Ok s -> s = selection default_depth o.
Proof. unfold _selected, SelectedObligation_new. intros ([] & _ & E)%bind_Ok. by injection E as <-. Qed.

Lemma apply_add_spec m i m' :
  selection_map os m -> apply_add os m i = Ok m' ->
  selection_map os m' /\ grows m m' /\ (forall j, is_Some (m' !! j) <-> is_Some (m !! j) \/ j = i).
Proof.
  intros Hm. unfold apply_add. intros (o & Ho%from_option_Ok & Hk)%bind_Ok.
  apply bind_Ok in Hk as (s & ->%selected_Ok & Hk). injection Hk as <-.
  destruct (m !! i) as [s0|] eqn:Ei.
  - split_and!; [done|done|]. intros j. split; [by left|]. intros [?| ->]; [done|eauto].
  - split_and!.
    + intros j s. destruct (decide (i = j)) as [<-|Hne].
      * rewrite lookup_insert_eq. intros [= <-]. cbn. split; [by apply Hos|]. exists o. split_and!; [done|done|lia].
      * rewrite lookup_insert_ne by done. apply Hm.
    + intros j s Hs. exists s. split_and!; [|done|lia]. rewrite lookup_insert_ne; [done|congruence].
    + intros j. destruct (decide (i = j)) as [<-|Hne]; [rewrite lookup_insert_eq; naive_solver|].
      rewrite lookup_insert_ne by done. naive_solver.
Qed.

Lemma apply_increase_spec m inc m' :
  selection_map os m -> apply_increase os m inc = Ok m' ->
  selection_map os m' /\ grows m m' /\
  (forall j, is_Some (m' !! j) <-> is_Some (m !! j) \/ j = inc_obligation_id inc) /\
  exists s, m' !! inc_obligation_id inc = Some s /\ depth_rank (min_depth inc) <= depth_rank (so_depth s).
Proof.
  intros Hm. unfold apply_increase. intros (o & Ho%from_option_Ok & Hk)%bind_Ok.
  apply bind_Ok in Hk as (s & ->%selected_Ok & Hk). apply bind_Ok in Hk as (s' & Hs' & Hk). injection Hk as <-.
  set (i := inc_obligation_id inc) in *. set (cur := default (selection default_depth o) (m !! i)) in *.
  unfold SelectedObligation_new in Hs'. apply bind_Ok in Hs' as ([] & _ & Hs'). injection Hs' as <-.
  assert (so_obligation_id cur = i /\ so_required_witness_ids cur = required_witness_ids o /\
    depth_rank (default_depth o) <= depth_rank (so_depth cur)) as (C1 & C2 & C3).
  { unfold cur. destruct (m !! i) as [s0|] eqn:Ei; cbn.
    - destruct (Hm i s0 Ei) as (? & o' & Ho' & ? & ?). rewrite Ho in Ho'. by injection Ho' as <-.
    - split_and!; [by apply Hos|done|lia]. }
  pose proof (max_depth_l (so_depth cur) (min_depth inc)). pose proof (max_depth_r (so_depth cur) (min_depth inc)).
  split_and!.
  - intros j s. destruct (decide (i = j)) as [<-|Hne].
    + rewrite lookup_insert_eq. intros [= <-]. cbn. split; [done|]. exists o. split_and!; [done|done|lia].
    + rewrite lookup_insert_ne by done. apply Hm.
  - intros j s Hs. destruct (decide (i = j)) as [<-|Hne].
    + rewrite lookup_insert_eq. eexists; split; [done|]. cbn.
      assert (cur = s) as <- by (unfold cur; by rewrite Hs). done.
    + rewrite lookup_insert_ne by done. exists s. split_and!; [done|done|lia].
  - intros j. destruct (decide (i = j)) as [<-|Hne]; [rewrite lookup_insert_eq; naive_solver|].
    rewrite lookup_insert_ne by done. naive_solver.
  - rewrite lookup_insert_eq. eexists; split; [done|]. cbn. lia.
Qed.

Lemma apply_adds_spec l m m' :
  selection_map os m -> foldR (apply_add os) m l = Ok m' ->
  selection_map os m' /\ grows m m' /\ (forall j, is_Some (m' !! j) <-> is_Some (m !! j) \/ j ∈ l).
Proof.
  revert m. induction l as [|i l IH]; intros m Hm; cbn [foldR].
  { intros [= <-]. split_and!; [done|done|]. set_solver. }
  intros (m1 & H1 & H2)%bind_Ok. destruct (apply_add_spec _ _ _ Hm H1) as (A1 & A2 & A3).
  destruct (IH _ A1 H2) as (B1 & B2 & B3). split_and!; [done|by etransitivity|].
  intros j. rewrite B3, A3, elem_of_cons. tauto.
Qed.

Lemma apply_increases_spec l m m' :
  selection_map os m -> foldR (apply_increase os) m l = Ok m' ->
  selection_map os m' /\ grows m m' /\ (forall j, is_Some (m' !! j) <-> is_Some (m !! j) \/ j ∈ inc_obligation_id <$> l) /\
  forall inc, inc ∈ l -> exists s, m' !! inc_obligation_id inc = Some s /\
    depth_rank (min_depth inc) <= depth_rank (so_depth s).
Proof.
  revert m. induction l as [|inc l IH]; intros m Hm; cbn [foldR].
  { intros [= <-]. split_and!; [done|done|set_solver|set_solver]. }
  intros (m1 & H1 & H2)%bind_Ok. destruct (apply_increase_spec _ _ _ Hm H1) as (A1 & A2 & A3 & s1 & A4 & A5).
  destruct (IH _ A1 H2) as (B1 & B2 & B3 & B4). split_and!; [done|by etransitivity| |].
  - intros j. csimpl. rewrite B3, A3, elem_of_cons. tauto.
  - intros inc' [->|Hin]%elem_of_cons; [|by apply B4]. destruct (B2 _ _ A4) as (s2 & Hs2 & _ & D2).
    exists s2. split; [done|lia].
Qed.

(** The depth an obligation has, or would be selected at. *)
Definition depth_from (m : gmap pystr SelectedObligation) (i : pystr) : option ValidationDepth :=
  match m !! i with Some s => Some (so_depth s) | None => default_depth <$> os !! i end.

(** The minimum depths that are asked for, one by one. *)
Definition raised (l : list AdviceDepthIncrease) (i : pystr) (d : ValidationDepth) : ValidationDepth :=
  foldl max_depth d (min_depth <$> List.filter (fun inc => bool_decide (inc_obligation_id inc = i)) l).

Lemma apply_add_depth m i m' : apply_add os m i = Ok m' -> forall j, depth_from m' j = depth_from m j.
Proof.
  unfold apply_add. intros (o & Ho%from_option_Ok & Hk)%bind_Ok j. apply bind_Ok in Hk as (s & ->%selected_Ok & [= <-]).
  destruct (m !! i) as [s0|] eqn:Ei; [done|]. unfold depth_from. destruct (decide (i = j)) as [<-|Hne].
  - by rewrite lookup_insert_eq, Ei, Ho.
  - by rewrite lookup_insert_ne.
Qed.

Lemma apply_increase_depth m inc m' :
  apply_increase os m inc = Ok m' -> forall j, depth_from m' j = raised [inc] j <$> depth_from m j.
Proof.
  unfold apply_increase. intros (o & Ho%from_option_Ok & Hk)%bind_Ok j.
  apply bind_Ok in Hk as (s & ->%selected_Ok & Hk). apply bind_Ok in Hk as (s' & Hs' & [= <-]).
  unfold SelectedObligation_new in Hs'. apply bind_Ok in Hs' as ([] & _ & [= <-]). unfold raised, depth_from. cbn [List.filter].
  destruct (decide (inc_obligation_id inc = j)) as [<-|Hne].
  - rewrite lookup_insert_eq, bool_decide_eq_true_2 by done. cbn. destruct (m !! _); [done|]. by rewrite Ho.
  - rewrite lookup_insert_ne, bool_decide_eq_false_2 by done. cbn. by destruct (match m !! j with Some _ => _ | None => _ end).
Qed.

Lemma apply_adds_depth l m m' : foldR (apply_add os) m l = Ok m' -> forall j, depth_from m' j = depth_from m j.
Proof.
  revert m. induction l as [|i l IH]; intros m; cbn [foldR]; [by intros [= <-]|].
  intros (m1 & H1 & H2)%bind_Ok j. by rewrite (IH _ H2), (apply_add_depth _ _ _ H1).
Qed.

Lemma apply_increases_depth l m m' :
  foldR (apply_increase os) m l = Ok m' -> forall j, depth_from m' j = raised l j <$> depth_from m j.
Proof.
  revert m. induction l as [|inc l IH]; intros m; cbn [foldR].
  { intros [= <-] j. by destruct (depth_from m j). }
  intros (m1 & H1 & H2)%bind_Ok j. rewrite (IH _ H2), (apply_increase_depth _ _ _ H1). destruct (depth_from m j) as [d|]; [|done].
  cbn. unfold raised. cbn [List.filter]. by destruct (bool_decide (inc_obligation_id inc = j)).
Qed.
End apply.

Lemma raised_rank l i d : depth_rank (raised l i d) =
  foldl Z.max (depth_rank d) ((fun inc => depth_rank (min_depth inc)) <$> List.filter (fun inc => bool_decide (inc_obligation_id inc = i)) l).
Proof.
  unfold raised. revert d. induction (List.filter _ l) as [|inc l' IH]; intros d; [done|]. cbn. rewrite IH. f_equal.
  unfold max_depth. destruct (Z.leb_spec (depth_rank (min_depth inc)) (depth_rank d)); lia.
Qed.

(** The rank of the depth advice gives an obligation: the greatest of the depth
    it was selected at, or its default depth when it was not selected, and of
    every minimum depth the advice asks of it. *)
Definition advised_rank (c : ValidationCatalog) (base : list SelectedObligation) (a : AgentAdvice) (i : pystr) : option Z :=
  (fun d => foldl Z.max (depth_rank d) ((fun inc => depth_rank (min_depth inc)) <$>
     List.filter (fun inc => bool_decide (inc_obligation_id inc = i)) (increase_depth a))) <$>
  depth_from (dict_by obligation_id id (obligations c)) (dict_by so_obligation_id id base) i.

(** The obligations advice names. *)
Definition advised_ids (a : AgentAdvice) : list pystr :=
  add_obligations a ++ (inc_obligation_id <$> increase_depth a) ++ (rf_obligation_id <$> risk_findings a).

Record advised (c : ValidationCatalog) (base : list SelectedObligation) (a : AgentAdvice)
    (final : list SelectedObligation) : Prop := {
  ad_ids : canonical (so_obligation_id <$> final);
  ad_exact : forall i, i ∈ so_obligation_id <$> final <-> i ∈ so_obligation_id <$> base \/ i ∈ advised_ids a;
  ad_covers : covers final base;
  ad_depth : forall s, s ∈ final -> exists o, o ∈ obligations c /\ so_obligation_id s = obligation_id o /\
    so_required_witness_ids s = required_witness_ids o /\ depth_rank (default_depth o) <= depth_rank (so_depth s);
  ad_increase : forall inc s, inc ∈ increase_depth a -> s ∈ final -> so_obligation_id s = inc_obligation_id inc ->
    depth_rank (min_depth inc) <= depth_rank (so_depth s);
  ad_depths : forall s, s ∈ final -> advised_rank c base a (so_obligation_id s) = Some (depth_rank (so_depth s));
}.

Lemma advised_selection_spec c base a m final :
  catalog_ok c -> NoDup (so_obligation_id <$> base) ->
  (forall s, s ∈ base -> exists o, o ∈ obligations c /\ so_obligation_id s = obligation_id o /\
     so_required_witness_ids s = required_witness_ids o /\ depth_rank (default_depth o) <= depth_rank (so_depth s)) ->
  advised_selection c base a = Ok m ->
  sorted_by_id so_obligation_id (snd <$> map_to_list m) = Ok final -> advised c base a final.
Proof.
  intros Hc Hnd Hbase Hm Hf. unfold advised_selection in Hm.
  set (os := dict_by obligation_id id (obligations c)) in *. set (m0 := dict_by so_obligation_id id base) in *.
  assert (forall i o, os !! i = Some o -> obligation_id o = i /\ o ∈ obligations c) as Hos.
  { intros i o (x & Hx & Ex & E)%dict_by_Some. cbn in E. subst x. done. }
  assert (selection_map os m0) as H0.
  { intros i s (x & Hx & Ex & E)%dict_by_Some. cbn in E. subst x. split; [done|].
    destruct (Hbase s Hx) as (o & Ho & Ei & Er & Hd). exists o. split_and!; [|done|done].
    rewrite <-Ex, Ei. by apply catalog_lookup. }
  apply bind_Ok in Hm as (m1 & H1 & Hm). apply bind_Ok in Hm as (m2 & H2 & H3).
  destruct (apply_adds_spec os (fun i o Ho => proj1 (Hos i o Ho)) _ _ _ H0 H1) as (A1 & A2 & A3).
  destruct (apply_increases_spec os (fun i o Ho => proj1 (Hos i o Ho)) _ _ _ A1 H2) as (B1 & B2 & B3 & B4).
  destruct (apply_adds_spec os (fun i o Ho => proj1 (Hos i o Ho)) _ _ _ B1 H3) as (C1 & C2 & C3).
  assert (forall s, s ∈ final <-> m !! so_obligation_id s = Some s) as Hel.
  { intros s. rewrite (sorted_by_id_perm _ _ _ Hf), list_elem_of_fmap. split.
    - intros ([i x] & -> & Hin%elem_of_map_to_list). cbn. by destruct (C1 _ _ Hin) as [-> _].
    - intros Hs. exists (so_obligation_id s, s). split; [done|]. by apply elem_of_map_to_list. }
  assert (forall i s, m !! i = Some s -> s ∈ final /\ so_obligation_id s = i) as Hin.
  { intros i s Hs. destruct (C1 _ _ Hs) as [Ei _]. split; [|done]. apply Hel. by rewrite Ei. }
  assert (grows m0 m) as Hg by (etransitivity; [exact A2|]; etransitivity; [exact B2|exact C2]).
  assert (forall s, s ∈ base -> m0 !! so_obligation_id s = Some s) as Hm0.
  { intros s Hs. by apply (dict_by_lookup so_obligation_id id). }
  assert (NoDup (so_obligation_id <$> (snd <$> map_to_list m))) as Hnd'.
  { assert (so_obligation_id <$> (snd <$> map_to_list m) = fst <$> map_to_list m) as ->.
    { rewrite <-list_fmap_compose. apply list_fmap_ext. intros j [i s] Hj. cbn.
      apply list_elem_of_lookup_2, elem_of_map_to_list in Hj. by destruct (C1 _ _ Hj). }
    apply NoDup_fst_map_to_list. }
  split.
  - split; [exact (sorted_by_id_strict _ _ _ Hf Hnd')|]. apply Forall_fmap, Forall_forall.
    intros s Hs%Hel. destruct (C1 _ _ Hs) as (_ & o & Ho & _). apply Hos in Ho as [Ei Ho].
    cbn. rewrite <-Ei. apply identifier_scalar.
    apply (ob_id _ (proj1 (Forall_forall _ _) (ca_obligations _ Hc) o Ho)).
  - intros i. transitivity (is_Some (m !! i)).
    { split.
      - intros (s & -> & Hs%Hel)%list_elem_of_fmap. eauto.
      - intros [s Hs]. destruct (Hin _ _ Hs) as [Hs' <-]. by apply list_elem_of_fmap_2. }
    unfold advised_ids. rewrite C3, B3, A3, !elem_of_app. unfold m0. rewrite dict_by_elem. tauto.
  - intros s Hs. destruct (Hg _ _ (Hm0 s Hs)) as (s' & Hs' & Er & Hd). destruct (Hin _ _ Hs') as [Hx Ex].
    exists s'. done.
  - intros s Hs%Hel. destruct (C1 _ _ Hs) as (_ & o & Ho & Er & Hd). apply Hos in Ho as [Ei Ho]. exists o. done.
  - intros inc s Hinc Hs%Hel Ei. destruct (B4 _ Hinc) as (s1 & Hs1 & D1).
    destruct (C2 _ _ Hs1) as (s2 & Hs2 & _ & D2). rewrite <-Ei, Hs in Hs2. injection Hs2 as <-. lia.
  - intros s Hs%Hel. unfold advised_rank. fold os m0.
    assert (E : raised (increase_depth a) (so_obligation_id s) <$> depth_from os m0 (so_obligation_id s) = Some (so_depth s)).
    { rewrite <-(apply_adds_depth os _ _ _ H1), <-(apply_increases_depth os _ _ _ H2), <-(apply_adds_depth os _ _ _ H3).
      unfold depth_from. by rewrite Hs. }
    destruct (depth_from os m0 _) as [d|]; [|discriminate E]. injection E as <-. cbn. by rewrite raised_rank.
Qed.

(** The outcomes of applying advice. *)
Inductive advice_outcome `{Sha256} (pol : PlanningPolicy) (p : DeterministicPlan) (a : AgentAdvice)
    (audit : AdviceAuditMetadata) (v : VerifiedPlan) : Prop :=
  | ao_recommended : recommends_full_ci a = true -> full_ci pol v -> advice_outcome pol p a audit v
  | ao_authority final ws :
      recommends_full_ci a = false -> full_ci pol v ->
      advised (catalog pol) (selected_obligations p) a final -> closure_spec final ws ->
      ¬ authority_within (catalog pol) ws (selected_witnesses p) -> advice_outcome pol p a audit v
  | ao_applied :
      recommends_full_ci a = false -> from_candidate pol p v -> vp_advice v = Some audit ->
      advised (catalog pol) (selected_obligations p) a (vp_selected v) ->
      (forall om, om ∈ vp_omitted v <-> om ∈ omitted_obligations p /\ oo_obligation_id om ∉ advised_ids a) ->
      advice_outcome pol p a audit v.

Section admitted_base.
Context `{Sha256} (input : PlanningInput) (pol : PlanningPolicy) (changed : list pystr) (p : DeterministicPlan).
Context (Hc : catalog_ok (catalog pol)) (Hp : plan_admitted input pol changed p).
Context (Hnd : NoDup (so_obligation_id <$> selected_obligations p)).

Lemma admitted_selections s :
  s ∈ selected_obligations p -> exists o, o ∈ obligations (catalog pol) /\ so_obligation_id s = obligation_id o /\
    so_required_witness_ids s = required_witness_ids o /\ depth_rank (default_depth o) <= depth_rank (so_depth s) /\
    depth_rank (so_depth s) <= depth_rank (full_depth o).
Proof.
  intros (o & Ho & ->)%(pa_depth _ _ _ _ Hp). exists o.
  pose proof (ob_depths _ (proj1 (Forall_forall _ _) (ca_obligations _ Hc) o Ho)).
  split_and!; [done|done|done| |]; cbn; destruct (triggered (fallback p)); lia.
Qed.

Lemma advised_covers_base a m final :
  advised_selection (catalog pol) (selected_obligations p) a = Ok m ->
  sorted_by_id so_obligation_id (snd <$> map_to_list m) = Ok final ->
  advised (catalog pol) (selected_obligations p) a final.
Proof.
  apply advised_selection_spec; [done|done|]. intros s (o & ? & ? & ? & ? & _)%admitted_selections. eauto.
Qed.

(** Advised selections cover the base, so the coverage comparison never finds
    a regression. *)
Lemma advised_relation a final ws :
  advised (catalog pol) (selected_obligations p) a final ->
  Witnesses.close_selected_witnesses (catalog pol) final = Ok ws ->
  relation (compare_coverage (selected_obligations p) (selected_witnesses p) final ws) <> less /\
  relation (compare_coverage (selected_obligations p) (selected_witnesses p) final ws) <> incomparable.
Proof.
  intros Had Hws. destruct (verifier_closure_spec _ _ _ Hc (ad_ids _ _ _ _ Had) Hws) as [_ Hcl].
  assert (same_requirements (selected_obligations p) final) as Hreq.
  { intros s s' Hs Hs' E. destruct (admitted_selections s Hs) as (o & Ho & Ei & Er & _).
    destruct (ad_depth _ _ _ _ Had s' Hs') as (o' & Ho' & Ei' & Er' & _).
    assert (o = o') as <-; [|congruence]. pose proof (catalog_lookup _ _ Hc Ho) as L1.
    rewrite <-Ei, E, Ei', (catalog_lookup _ _ Hc Ho') in L1. congruence. }
  rewrite compare_relation. rewrite bool_decide_eq_true_2; [by destruct (strengthened _ _ _ _)|].
  apply compare_reasons_nil; [done|by apply canonical_NoDup, Had|done|apply Hp|done|apply Had].
Qed.

(** The effect of admitted advice on an admitted plan. *)
Lemma apply_advice_exact a audit v :
  _apply_advice input pol p a audit = Ok v ->
  advice_outcome pol p a audit v.
Proof.
  intros Hk. unfold _apply_advice in Hk.
  destruct (recommends_full_ci a) eqn:Er.
  { apply bind_Ok in Hk as (f & Hf & Hv). apply ao_recommended; [done|by eapply from_fallback_full]. }
  apply bind_Ok in Hk as (m & Hm & Hk). apply bind_Ok in Hk as (fs & Hfs & Hk).
  pose proof (advised_covers_base _ _ _ Hm Hfs) as Had. apply bind_Ok in Hk as (fw & Hfw & Hk).
  apply bind_Ok in Hk as (fa & Hfa & Hk). apply bind_Ok in Hk as (ba & Hba & Hk).
  destruct (forallb _ fa) eqn:Ea; cbn [negb] in Hk.
  2: { apply bind_Ok in Hk as (r & _ & Hk). apply (ao_authority _ _ _ _ _ fs fw); [done|by eapply fallback_full|done| |].
       - by eapply verifier_closure_spec; [|apply Had|].
       - intros Hw. apply not_true_iff_false in Ea. apply Ea, forallb_elem. intros x Hx.
         apply bool_decide_eq_true_2. apply (execution_authorities_spec _ _ _ Hfa) in Hx as (w & Hin & Ex).
         apply (execution_authorities_spec _ _ _ Hba). by apply (Hw w x). }
  destruct (advised_relation a fs fw Had Hfw) as [R1 R2].
  rewrite (bool_decide_eq_false_2 (_ = less) R1), (bool_decide_eq_false_2 (_ = incomparable) R2) in Hk.
  cbn [orb] in Hk. apply make_verified_plan_ok in Hk as (V1 & V2 & V3 & V4 & V5 & V6 & V7 & V8).
  assert (from_candidate pol p v) as Hf.
  { split; try assumption. intros w x. rewrite V8. intros Hw Hx. rewrite forallb_elem in Ea.
    assert (x ∈ fa) as Hin by (apply (execution_authorities_spec _ _ _ Hfa); eauto).
    specialize (Ea x Hin). apply bool_decide_eq_true_1 in Ea. by apply (execution_authorities_spec _ _ _ Hba). }
  apply ao_applied; [done|done|done| |].
  { by rewrite (canonical_perm_eq so_obligation_id _ fs (vo_selected_ids _ V1) (ad_ids _ _ _ _ Had) V4). }
  intros om. rewrite V5, list_elem_of_filter. rewrite (ad_exact _ _ _ _ Had).
  split; [tauto|]. intros [Hom Hn]. split; [|done]. intros [Hs|Ha]; [|done].
  assert (NoDup ((so_obligation_id <$> selected_obligations p) ++ (oo_obligation_id <$> omitted_obligations p))) as Hx.
  { rewrite (pa_partition _ _ _ _ Hp). apply canonical_NoDup, Hc. }
  apply NoDup_app in Hx as (_ & Hd & _). apply (Hd _ Hs). by apply list_elem_of_fmap_2.
Qed.

Lemma full_ci_covers v : full_ci pol v -> covers (vp_selected v) (selected_obligations p).
Proof.
  intros Hf s Hs. destruct (admitted_selections s Hs) as (o & Ho & Ei & Er & _ & Hd).
  exists (selection full_depth o). split_and!; [|done|done|done].
  rewrite (fc_selected _ _ Hf). by apply list_elem_of_fmap_2.
Qed.
End admitted_base.

(** ** Properties *)

(** C1: whatever candidate plan and whatever advice it is given, the verifier's
    result decides every obligation of the catalog exactly once, closes the
    selection to witnesses, and leaves an obligation out only under a proof
    bound to this input and policy and when its own derivation justifies it: the
    policy allows it, the context is admitted, no global risk path changed,
    every changed path is in the graph, and no path or risk class reachable
    from the change is the obligation's responsibility; a fallback omits
    nothing and runs every obligation at full depth or more. *)
Theorem verify_sound `{Sha256} decode input pol p adv changed v :
  catalog_ok (catalog pol) ->
  DeterministicPlan_check p = Ok tt ->
  changed_paths (diff input) = Ok changed ->
  verify decode input pol p adv = Ok v ->
  verification_sound input pol changed v.
Proof. apply verify_sound_facts. Qed.

(** C6: advice can only add coverage: with advice the verifier selects what it
    selects without it, as deep or deeper and with the same witnesses, omits no
    more, and needs no execution authority the plan without advice does not
    have, unless it replaced the plan by the full catalog. *)
Theorem verify_advice_monotone `{Sha256} decode input pol p e changed v v0 :
  catalog_ok (catalog pol) ->
  DeterministicPlan_check p = Ok tt ->
  changed_paths (diff input) = Ok changed ->
  verify decode input pol p (Some e) = Ok v ->
  verify decode input pol p None = Ok v0 ->
  covers (vp_selected v) (vp_selected v0) /\
  (forall om, om ∈ vp_omitted v -> om ∈ vp_omitted v0) /\
  (authority_within (catalog pol) (vp_witnesses v) (vp_witnesses v0) \/ full_ci pol v).
Proof.
  intros Hc Hck Hch Hv Hv0. destruct (plan_check_canonical _ Hck) as (C1 & _).
  pose proof (verify_outcome _ _ _ _ _ _ Hv) as Hout. unfold verify in Hv, Hv0.
  apply bind_Ok in Hv as (rej & Hrej & Hv). rewrite Hrej in Hv0. cbn [mbind res_bind] in Hv0.
  destruct rej as [r|].
  { rewrite Hv in Hv0. injection Hv0 as <-. split_and!; [apply covers_refl|done|]. right. by eapply fallback_full. }
  pose proof (admit_plan_sound _ _ _ _ Hc Hck Hch Hrej) as Hp. clear Hv.
  apply make_verified_plan_ok in Hv0 as (_ & _ & _ & S0 & O0 & _ & _ & W0).
  assert (forall l, covers l (selected_obligations p) -> covers l (vp_selected v0)) as Hcov.
  { intros l Hl s Hs. apply Hl. by rewrite <-S0. }
  destruct Hout as [Hf|[_ Hf]].
  - split_and!; [|rewrite (fc_omitted _ _ Hf); set_solver|by right]. apply Hcov.
    by apply (full_ci_covers input pol changed p).
  - destruct Hf as [V1 V2 V3 V4 V5]. split_and!.
    + apply Hcov. rewrite <-V2. apply V1.
    + intros om Hom%(vo_omitted _ V1). by rewrite O0, <-V2.
    + left. intros w a Hw Ha. destruct (V5 w a Hw Ha) as (w' & Hw' & Ha'). exists w'. by rewrite W0.
Qed.

(** C7: the effect of advice on an admitted plan is exact.  Advice that asks for
    full CI gives the full catalog.  Otherwise the selection becomes the plan's
    plus the obligations the advice names, each at exactly the greatest of the
    depth the plan selects it at (its default depth when the plan does not) and
    the minimum depths the advice asks of it, and the named obligations leave
    the omissions; only when that selection needs an execution authority the
    plan does not have is it replaced by the full catalog. *)
Theorem apply_advice_effect `{Sha256} input pol changed p a audit v :
  catalog_ok (catalog pol) ->
  DeterministicPlan_check p = Ok tt ->
  changed_paths (diff input) = Ok changed ->
  admit_deterministic_plan input pol p = Ok None ->
  _apply_advice input pol p a audit = Ok v ->
  advice_outcome pol p a audit v.
Proof.
  intros Hc Hck Hch Hadm. destruct (plan_check_canonical _ Hck) as (C1 & _).
  apply (apply_advice_exact input pol changed p Hc); [by apply admit_plan_sound|by apply canonical_NoDup].
Qed.

(** The guard against coverage regressions never fires on an admitted plan:
    applying advice always gives equal or strictly greater coverage. *)
Theorem advice_never_regresses `{Sha256} input pol changed p a m final ws :
  catalog_ok (catalog pol) ->
  DeterministicPlan_check p = Ok tt ->
  changed_paths (diff input) = Ok changed ->
  admit_deterministic_plan input pol p = Ok None ->
  advised_selection (catalog pol) (selected_obligations p) a = Ok m ->
  sorted_by_id so_obligation_id (snd <$> map_to_list m) = Ok final ->
  Witnesses.close_selected_witnesses (catalog pol) final = Ok ws ->
  relation (compare_coverage (selected_obligations p) (selected_witnesses p) final ws) = equal \/
  relation (compare_coverage (selected_obligations p) (selected_witnesses p) final ws) = strictly_greater.
Proof.
  intros Hc Hck Hch Hadm Hm Hf Hws. destruct (plan_check_canonical _ Hck) as (C1 & _).
  pose proof (admit_plan_sound _ _ _ _ Hc Hck Hch Hadm) as Hp. apply canonical_NoDup in C1.
  destruct (advised_relation input pol changed p Hc Hp C1 a final ws) as [H1 H2];
    [by eapply advised_covers_base|done|].
  destruct (relation _); [by left|by right|done|done].
Qed.
