(* ===== verification/VerifierTotal.v ===== *)
(** * Verification returns

    The verifier's fallback plan is the planner's, and without advice [verify]
    returns a plan for every candidate its constructor accepts; on the planner's
    own plans it returns the plan itself, or the full catalog when a global risk
    path changed. *)

From stdpp Require Import base gmap sets list sorting strings.
From Stdlib Require Import ZArith Lia.
From S2P Require Import Prelude Text PathPatterns PyFloat CanonicalJson Hashing Contract RepoContext Planning ImpactFacts PlannerFacts Planner Advice Verification VerificationFacts PlannerAdmitted Verifier VerifierFacts.

(** ** One fallback plan *)

Lemma PlanEvidence_new_Ok k i m e : PlanEvidence_new k i m = Ok e -> PlanEvidence_check e = Ok tt.
Proof. unfold PlanEvidence_new. intros ([] & Hc & E)%bind_Ok. by injection E as <-. Qed.

Lemma fallback_plans_agree `{Sha256} input pol reason :
  catalog_ok (catalog pol) -> _full_ci_fallback_plan input pol reason = full_ci_fallback_plan input pol reason.
Proof.
  intros Hc. unfold full_ci_fallback_plan, _full_ci_plan, _full_ci_fallback_plan, _finalize_plan.
  rewrite (mapR_pure _ (selection full_depth)).
  2: { intros o Ho. unfold SelectedObligation_new. fold (selection full_depth o).
       by rewrite (selection_checked _ _ Hc Ho). }
  cbn [mbind res_bind].
  assert (canonical (so_obligation_id <$> (selection full_depth <$> obligations (catalog pol)))) as Hids.
  { rewrite selection_ids. apply Hc. }
  assert (Forall (selects (catalog pol)) (selection full_depth <$> obligations (catalog pol))) as Hsel.
  { apply Forall_fmap, Forall_forall. intros o Ho. apply selection_selects; auto. }
  destruct (verifier_closure_total _ _ Hc Hsel Hids) as (ws & Hws & _). rewrite Hws.
  apply closures_agree in Hws as [_ Hws]. cbn [mbind res_bind].
  destruct (PlanFallback_new _ _ _) as [fb|]; [|done]. cbn [mbind res_bind].
  destruct (PlanEvidence_new _ _ _) as [ev|] eqn:Hev; [|done]. cbn [mbind res_bind].
  rewrite (sorted_by_id_canonical so_obligation_id _ Hids). cbn [mbind res_bind]. rewrite Hws. cbn [mbind res_bind].
  rewrite (sorted_by_id_canonical oo_obligation_id []) by apply canonical_nil. cbn [mbind res_bind].
  rewrite (sorted_by_id_total evidence_sort_id [ev]).
  2: { intros e ->%list_elem_of_singleton. apply evidence_id_scalar. by eapply PlanEvidence_new_Ok. }
  reflexivity.
Qed.

(** ** Sealing a verified plan *)

(** What the constructors of a candidate's parts guarantee. *)
Record candidate_ok `{Sha256} (p : DeterministicPlan) : Prop := {
  cd_check : DeterministicPlan_check p = Ok tt;
  cd_selected : Forall (fun s => SelectedObligation_check s = Ok tt) (selected_obligations p);
  cd_witnesses : Forall (fun w => SelectedWitness_check w = Ok tt) (selected_witnesses p);
  cd_omitted : Forall (fun o => OmittedObligation_check o = Ok tt /\ OmissionProof_check (oo_proof o) = Ok tt)
    (omitted_obligations p);
  cd_fallback : PlanFallback_check (fallback p) = Ok tt;
  cd_evidence : Forall (fun e => PlanEvidence_check e = Ok tt) (evidence p);
}.

(** The catalog's mapping is a JSON value. *)
Definition catalog_jsonable (c : ValidationCatalog) : Prop :=
  exists m, catalog_mapping c = Ok m /\ jsonable m = true.

Lemma candidate_jsonable `{Sha256} p : candidate_ok p -> jsonable (identity_mapping p) = true.
Proof.
  intros [C1 C2 C3 C4 C5 C6]. apply jsonable_plan; try assumption.
  unfold DeterministicPlan_check, _require_sha256 in C1.
  apply bind_Ok in C1 as ([] & _ & C1). apply bind_Ok in C1 as ([] & E1%raise_if_Ok & C1).
  apply bind_Ok in C1 as ([] & E2%raise_if_Ok & C1). apply bool_decide_eq_false_1, dec_stable in E1, E2.
  rewrite E1, E2.
  do 8 (apply bind_Ok in C1 as ([] & ?%require_sha256_Ok & C1)).
  repeat (constructor; [first [apply scalar_u | apply sha256_hex_scalar; assumption]|]). constructor.
Qed.

(** A verified plan whose selection is the source's own. *)
Record sealable `{Sha256} (c : ValidationCatalog) (p : DeterministicPlan) : Prop := {
  sb_candidate : candidate_ok p;
  sb_hash : catalog_hash c = plan_catalog_hash p;
  sb_closure : Witnesses.close_selected_witnesses c (selected_obligations p) = Ok (selected_witnesses p);
  sb_partition : (so_obligation_id <$> selected_obligations p) ++ (oo_obligation_id <$> omitted_obligations p)
    ≡ₚ obligation_id <$> obligations c;
  sb_fallback : triggered (fallback p) = true -> omitted_obligations p = [] /\
    forall s, s ∈ selected_obligations p -> exists o,
      dict_by obligation_id id (obligations c) !! so_obligation_id s = Some o /\
      depth_rank (full_depth o) <= depth_rank (so_depth s);
}.

Section seal.
Context `{Sha256} (c : ValidationCatalog) (p : DeterministicPlan) (Hc : catalog_ok c) (Hs : sealable c p).

Let Hids := plan_check_canonical p (cd_check _ (sb_candidate _ _ Hs)).
Let C1 := proj1 Hids.
Let C2 := proj1 (proj2 Hids).
Let C3 := proj2 (proj2 Hids).

Lemma seal_dom i :
  i ∈ dom (dict_by so_obligation_id id (selected_obligations p)) ∪
      dom (dict_by oo_obligation_id id (omitted_obligations p)) <->
  i ∈ obligation_id <$> obligations c.
Proof. by rewrite elem_of_union, !dom_dict_by, <-elem_of_app, (sb_partition _ _ Hs). Qed.

Lemma seal_disjoint i :
  i ∈ so_obligation_id <$> selected_obligations p -> i ∈ oo_obligation_id <$> omitted_obligations p -> False.
Proof.
  assert (NoDup ((so_obligation_id <$> selected_obligations p) ++ (oo_obligation_id <$> omitted_obligations p))) as Hnd.
  { rewrite (sb_partition _ _ Hs). apply canonical_NoDup, Hc. }
  apply NoDup_app in Hnd as (_ & Hd & _). apply Hd.
Qed.

Lemma seal_not_weak :
  andR (triggered (fallback p)) (if bool_decide (omitted_obligations p <> []) then Ok true
     else anyR (fun s => o ← from_option KeyError (dict_by obligation_id id (obligations c) !! so_obligation_id s);
            Ok (depth_rank (so_depth s) <? depth_rank (full_depth o))) (selected_obligations p)) = Ok false.
Proof.
  destruct (triggered (fallback p)) eqn:Et; [|done]. cbn [andR].
  destruct (sb_fallback _ _ Hs Et) as [-> Hd]. rewrite bool_decide_eq_false_2 by (intros Hn; by apply Hn).
  apply anyR_false. intros s (o & Ho & Hr)%Hd. rewrite Ho. cbn [from_option mbind res_bind]. f_equal. by apply Z.ltb_ge.
Qed.

Lemma seal_source_selected s :
  s ∈ selected_obligations p ->
  check_source_selected (dict_by so_obligation_id id (selected_obligations p)) s = Ok tt.
Proof.
  intros Hin. unfold check_source_selected.
  rewrite (dict_by_lookup so_obligation_id id _ _ (canonical_NoDup _ C1) Hin). cbn [id from_option mbind res_bind].
  rewrite Z.ltb_irrefl, bool_decide_eq_false_2; [done|]. intros Hn. by apply Hn.
Qed.

Lemma seal_candidate_selected s :
  s ∈ selected_obligations p ->
  check_candidate_selected (dict_by so_obligation_id id (selected_obligations p))
    (dict_by oo_obligation_id id (omitted_obligations p)) s = Ok tt.
Proof.
  intros Hin. unfold check_candidate_selected.
  rewrite (dict_by_lookup so_obligation_id id _ _ (canonical_NoDup _ C1) Hin).
  rewrite bool_decide_eq_false_2; [done|]. intros Hn. by apply Hn.
Qed.

Lemma seal_candidate_omitted o :
  o ∈ omitted_obligations p ->
  check_candidate_omitted (dict_by oo_obligation_id id (omitted_obligations p)) o = Ok tt.
Proof.
  intros Hin. unfold check_candidate_omitted.
  rewrite (dict_by_lookup oo_obligation_id id _ _ (canonical_NoDup _ C3) Hin).
  rewrite bool_decide_eq_false_2; [done|]. intros Hn. by apply Hn.
Qed.

Lemma seal_source_witness w :
  w ∈ selected_witnesses p -> check_source_witness (dict_by sw_witness_id id (selected_witnesses p)) w = Ok tt.
Proof.
  intros Hin. unfold check_source_witness.
  rewrite (dict_by_lookup sw_witness_id id _ _ (canonical_NoDup _ C2) Hin).
  cbn [id from_option mbind res_bind]. rewrite Z.ltb_irrefl. cbn [raise_if mbind res_bind].
  by rewrite bool_decide_eq_true_2.
Qed.

Lemma seal_check i ver m h :
  let v := {| execution_plan_id := i; source_plan := p; vp_catalog := c; vp_selected := selected_obligations p;
              vp_witnesses := selected_witnesses p; vp_omitted := omitted_obligations p; vp_fallback := fallback p;
              deterministic_evidence := evidence p; verification_evidence := ver; vp_advice := None |} in
  VerifiedPlan_mapping v = Ok m -> hash_mapping m = Ok h -> i = u "verified_plan_" ++ take 32 h ->
  VerifiedPlan_check v = Ok tt.
Proof.
  intros v Hm Hh Hi. unfold VerifiedPlan_check.
  assert (forall P : Prop, forall `{Decision P}, P -> bool_decide (¬ P) = false) as Hfalse.
  { intros P ? HP. apply bool_decide_eq_false_2. intros Hn. by apply Hn. }
  apply bind_Ok. exists tt. split; [apply raise_if_Ok, Hfalse, Hs|].
  apply bind_Ok. exists tt. split; [apply require_canonical_Ok, C1|].
  apply bind_Ok. exists tt. split; [apply require_canonical_Ok, C2|].
  apply bind_Ok. exists tt. split; [apply require_canonical_Ok, C3|].
  apply bind_Ok. exists (selected_witnesses p). split; [apply Hs|].
  apply bind_Ok. exists tt. split; [by apply raise_if_Ok, Hfalse|].
  apply bind_Ok. exists tt. split.
  { apply raise_if_Ok, Hfalse, set_eq. intros j. rewrite elem_of_intersection, !dom_dict_by, elem_of_empty.
    split; [|done]. intros [A B]. by apply (seal_disjoint j). }
  apply bind_Ok. exists tt. split.
  { apply raise_if_Ok, Hfalse, set_eq. intros j. etransitivity; [apply seal_dom|symmetry; apply dom_dict_by]. }
  apply bind_Ok. exists false. split; [exact seal_not_weak|].
  apply bind_Ok. exists tt. split; [done|].
  apply bind_Ok. exists tt. split; [by apply raise_if_Ok, Hfalse|].
  apply bind_Ok. exists tt. split; [apply eachR_Ok; exact seal_source_selected|].
  apply bind_Ok. exists tt. split; [apply eachR_Ok; exact seal_candidate_selected|].
  apply bind_Ok. exists tt. split; [apply eachR_Ok; exact seal_candidate_omitted|].
  apply bind_Ok. exists tt. split; [apply eachR_Ok; exact seal_source_witness|].
  apply bind_Ok. exists m. split; [exact Hm|]. apply bind_Ok. exists h. split; [exact Hh|].
  apply raise_if_Ok, Hfalse. exact Hi.
Qed.

Lemma seal_total ver :
  catalog_jsonable c -> (forall e, e ∈ ver -> is_unicode_scalar_string (ve_message e) = true) ->
  exists v, make_verified_plan p c (selected_obligations p) (selected_witnesses p) (omitted_obligations p)
      (fallback p) (evidence p) ver None = Ok v /\
    source_plan v = p /\ vp_selected v = selected_obligations p /\ vp_omitted v = omitted_obligations p.
Proof.
  intros (cm & Hcm & Hj) Hver. pose proof (sb_candidate _ _ Hs) as [_ D2 D3 D4 D5 D6].
  pose proof (candidate_jsonable p (sb_candidate _ _ Hs)) as Hp. unfold make_verified_plan.
  rewrite (sorted_by_id_canonical so_obligation_id _ C1). cbn [mbind res_bind].
  rewrite (sorted_by_id_canonical sw_witness_id _ C2). cbn [mbind res_bind].
  rewrite (sorted_by_id_canonical oo_obligation_id _ C3). cbn [mbind res_bind].
  rewrite Hcm. cbn [mbind res_bind].
  pose (v0 i := {| execution_plan_id := i; source_plan := p; vp_catalog := c;
     vp_selected := selected_obligations p; vp_witnesses := selected_witnesses p;
     vp_omitted := omitted_obligations p; vp_fallback := fallback p;
     deterministic_evidence := evidence p; verification_evidence := ver; vp_advice := None |}).
  set (m := obj _).
  assert (jsonable m = true) as Hm.
  { unfold m. rewrite Forall_forall in D2. rewrite Forall_forall in D3. rewrite Forall_forall in D4. rewrite Forall_forall in D6. json_parts.
    - exact Hp.
    - exact Hj.
    - apply jsonable_arr. intros s Hin. by apply jsonable_selected, D2.
    - apply jsonable_arr. intros s Hin. by apply jsonable_selected_witness, D3.
    - apply jsonable_arr. intros s Hin. apply jsonable_omitted; by apply D4.
    - by apply jsonable_fallback.
    - apply jsonable_arr. intros s Hin. by apply jsonable_evidence, D6.
    - apply jsonable_arr. intros e He. unfold VerificationEvidence_mapping. json_parts; [|by apply Hver].
      destruct (ve_kind e); apply scalar_u. }
  destruct (hash_mapping_total m Hm) as (h & Hh & _). rewrite Hh. cbn [mbind res_bind].
  exists (v0 (u "verified_plan_" ++ take 32 h)).
  assert (VerifiedPlan_check (v0 (u "verified_plan_" ++ take 32 h)) = Ok tt) as Hck.
  { apply (seal_check _ _ m h); [|exact Hh|reflexivity]. unfold VerifiedPlan_mapping.
    cbn [vp_catalog]. rewrite Hcm. reflexivity. }
  unfold v0 in Hck. rewrite Hck. split_and!; reflexivity.
Qed.
End seal.

(** ** Admission returns *)

Lemma exact_full_ci_total p pol :
  catalog_ok (catalog pol) -> PlanFallback_check (fallback p) = Ok tt -> exists b, _is_exact_full_ci p pol = Ok b.
Proof.
  intros Hc Hf. unfold _is_exact_full_ci. rewrite expected_full_total by done. cbn [mbind res_bind].
  destruct (_ && _); cbn [andR]; [|eauto].
  destruct (verifier_closure_total (catalog pol) (selection full_depth <$> obligations (catalog pol))) as (ws & -> & _).
  - done.
  - apply Forall_fmap, Forall_forall. intros o Ho. apply selection_selects; auto.
  - rewrite selection_ids. apply Hc.
  - cbn [mbind res_bind]. destruct (_ && _); cbn [andR]; [|eauto].
    destruct (fb_reason (fallback p)) as [r|] eqn:Er; [|eauto].
    unfold PlanFallback_check in Hf. apply bind_Ok in Hf as ([] & _ & Hf). apply bind_Ok in Hf as ([] & _ & Hf).
    apply bind_Ok in Hf as ([] & Hr & _). rewrite Er in Hr. apply require_non_empty_string_Ok in Hr as [Hne Hsc].
    destruct (evidence_total KFallback None r) as (ev & -> & _); [done|done|done|]. cbn [mbind res_bind]. eauto.
Qed.

Lemma selective_structure_total `{Sha256} p c :
  catalog_ok c -> DeterministicPlan_check p = Ok tt -> exists b, _is_complete_selective_structure p c = Ok b.
Proof.
  intros Hc Hck. destruct (plan_check_canonical _ Hck) as (C1 & _). unfold _is_complete_selective_structure.
  destruct (_ || _) eqn:E1; [eauto|]. apply orb_false_iff' in E1 as [_ E1].
  apply bool_decide_eq_false_1, dec_stable in E1.
  match goal with |- context [mapR ?f _] => destruct (mapR_total f (selected_obligations p)) as [wrong Hw] end.
  { intros s Hs. assert (is_Some (dict_by obligation_id id (obligations c) !! so_obligation_id s)) as [o ->].
    { apply elem_of_dom. rewrite <-E1. unfold str_set. apply elem_of_union_l, elem_of_list_to_set.
      by apply list_elem_of_fmap_2. }
    cbn [from_option mbind res_bind]. eauto. }
  rewrite Hw. cbn [mbind res_bind]. destruct (existsb id wrong) eqn:Ew; [eauto|].
  assert (Forall (selects c) (selected_obligations p)) as Hsel.
  { apply Forall_forall. intros s Hs. destruct (mapR_elem _ _ _ _ Hw Hs) as (b & Hb & Hin).
    rewrite existsb_false in Ew. specialize (Ew b Hin). cbn in Ew. subst b.
    apply bind_Ok in Hb as (o & Ho%from_option_Ok & Hb). injection Hb as Hb.
    apply dict_by_Some in Ho as (o' & Ho & Ei & Eo). cbn in Eo. subst o'. bdec.
    apply (selects_depth c o); auto. }
  destruct (verifier_closure_total c _ Hc Hsel C1) as (ws & -> & _). cbn [mbind res_bind].
  destruct (bool_decide _); [eauto|]. destruct (evidence_by_obligation _ _); eauto.
Qed.

Lemma admit_total `{Sha256} input pol changed p :
  built input -> catalog_ok (catalog pol) -> candidate_ok p -> changed_paths (diff input) = Ok changed ->
  exists r, admit_deterministic_plan input pol p = Ok r.
Proof.
  intros Hb Hc Hp Hch. destruct (built_coordinates input pol Hb) as [Hcur [eh Heh]].
  destruct (sealed_identity p (cd_check _ Hp)) as (h & Hh & _). unfold admit_deterministic_plan.
  assert (exists b, _coordinates_are_current input pol p = Ok b) as [b ->].
  { unfold _coordinates_are_current. rewrite Heh. cbn [mbind res_bind]. rewrite Hcur. cbn [mbind res_bind].
    destruct (_policy_context_is_current input pol); cbn [andR]; [|eauto]. rewrite Hh. cbn [mbind res_bind]. eauto. }
  cbn [mbind res_bind]. destruct b; cbn [negb]; [|eauto]. destruct (triggered (fallback p)).
  { destruct (exact_full_ci_total p pol Hc (cd_fallback _ Hp)) as [b ->]. cbn [mbind res_bind]. eauto. }
  unfold _selective_context_is_admitted. rewrite Heh. cbn [mbind res_bind].
  match goal with |- context [if negb ?x then _ else _] => destruct x end; cbn [negb]; [|eauto].
  assert (exists b, (if negb (timeout_seconds (fallback p) =? fallback_timeout_seconds pol) then Ok false
    else _is_complete_selective_structure p (catalog pol)) = Ok b) as [b ->].
  { destruct (negb _); [eauto|]. apply selective_structure_total; [done|apply Hp]. }
  cbn [mbind res_bind]. destruct b; cbn [negb]; [|eauto].
  destruct (derive_impact_spec input changed Hch) as (f & -> & _). cbn [mbind res_bind].
  destruct (_ || _); [eauto|]. unfold _omissions_are_valid. rewrite Heh. cbn [mbind res_bind]. eauto.
Qed.

(** ** Verification without advice *)

Lemma admitted_sealable `{Sha256} input pol changed p :
  catalog_ok (catalog pol) -> candidate_ok p -> plan_admitted input pol changed p -> sealable (catalog pol) p.
Proof.
  intros Hc Hp Ha. destruct (plan_check_canonical _ (cd_check _ Hp)) as (C1 & _). split; [done| | | |].
  - symmetry. apply Ha.
  - destruct (verifier_closure_total _ _ Hc (pa_selects _ _ _ _ Ha) C1) as (ws & E & Hcl).
    by rewrite (closure_spec_unique _ _ _ (pa_closure _ _ _ _ Ha) Hcl).
  - apply Ha.
  - intros Ht. split; [by apply Ha|]. intros s Hs. destruct (pa_depth _ _ _ _ Ha s Hs) as (o & Ho & ->).
    exists o. rewrite Ht. cbn. split; [by apply catalog_lookup|lia].
Qed.

Lemma fallback_sealable `{Sha256} input pol f :
  catalog_ok (catalog pol) -> fallback_plan input pol f -> sealable (catalog pol) f.
Proof.
  intros Hc Hf. pose proof (fp_sealed _ _ _ Hf) as Hs. pose proof (sl_check _ _ _ _ _ _ _ Hs) as Hck.
  destruct (plan_check_canonical _ Hck) as (C1 & _).
  pose proof (sl_omitted _ _ _ _ _ _ _ Hs) as Eo%Permutation_nil_r.
  destruct (exact_full_ci_spec f pol Hc (fallback_plan_exact _ _ _ Hc Hf)) as (_ & _ & Es & Hws).
  split; [split| | | |].
  - exact Hck.
  - rewrite Es. apply Forall_fmap, Forall_forall. intros o Ho. by apply (selection_checked _ _ Hc Ho).
  - apply closures_agree in Hws as [_ Hws]. by eapply close_selected_witnesses_checked.
  - rewrite Eo. constructor.
  - destruct (fp_reason _ _ _ Hf) as (r & Hfb & _). unfold PlanFallback_new in Hfb.
    apply bind_Ok in Hfb as ([] & Hc' & Hfb). injection Hfb as <-. exact Hc'.
  - destruct (fp_reason _ _ _ Hf) as (r & _ & ev & Hev & ->). constructor; [|constructor].
    by eapply PlanEvidence_new_Ok.
  - symmetry. apply Hs.
  - exact Hws.
  - by rewrite Es, Eo, selection_ids, app_nil_r.
  - intros _. split; [done|]. rewrite Es. intros s (o & -> & Ho)%list_elem_of_fmap. exists o.
    split; [by apply catalog_lookup|cbn; lia].
Qed.

Lemma fallback_total `{Sha256} input pol reason :
  input_ok input -> policy_ok pol -> catalog_jsonable (catalog pol) ->
  reason <> [] -> is_unicode_scalar_string reason = true ->
  exists v, _fallback input pol reason None = Ok v /\ full_ci pol v.
Proof.
  intros Hi Hp Hj Hne Hsc. pose proof (proj2 Hp) as Hc. cut (exists v, _fallback input pol reason None = Ok v).
  { intros [v Hv]. exists v. split; [done|by eapply fallback_full]. }
  destruct (full_ci_plan_total input pol reason Hi Hp Hne Hsc) as [f Hf].
  unfold _fallback. rewrite (fallback_plans_agree _ _ _ Hc). unfold full_ci_fallback_plan. rewrite Hf.
  cbn [mbind res_bind]. apply full_ci_plan_fallback in Hf.
  destruct (seal_total (catalog pol) f Hc (fallback_sealable _ _ _ Hc Hf)
    [{| ve_kind := VDeterministic; ve_message := reason |}] Hj) as (v & Hv & _); [|by exists v].
  intros e ->%list_elem_of_singleton. exact Hsc.
Qed.

Lemma rejection_text r : rejection_str r <> [] /\ is_unicode_scalar_string (rejection_str r) = true.
Proof. destruct r; (split; [apply u_nonempty|apply scalar_u]). Qed.

(** [verify] without advice, on an admitted and on a refused candidate. *)
Lemma verify_none_total `{Sha256} decode input pol changed p :
  built input -> input_ok input -> policy_ok pol -> catalog_jsonable (catalog pol) -> candidate_ok p ->
  changed_paths (diff input) = Ok changed ->
  exists r v, admit_deterministic_plan input pol p = Ok r /\ verify decode input pol p None = Ok v /\
    match r with
    | None => source_plan v = p /\ vp_selected v = selected_obligations p /\ vp_omitted v = omitted_obligations p
    | Some _ => full_ci pol v
    end.
Proof.
  intros Hb Hi Hpol Hj Hp Hch. pose proof (proj2 Hpol) as Hc.
  destruct (admit_total input pol changed p Hb Hc Hp Hch) as [r Hr]. exists r. unfold verify. rewrite Hr.
  cbn [mbind res_bind]. destruct r as [r|].
  - destruct (rejection_text r) as [T1 T2].
    destruct (fallback_total input pol (rejection_str r) Hi Hpol Hj T1 T2) as (v & Hv & Hf). by exists v.
  - pose proof (admit_plan_sound _ _ _ _ Hc (cd_check _ Hp) Hch Hr) as Ha.
    destruct (seal_total (catalog pol) p Hc (admitted_sealable _ _ _ _ Hc Hp Ha) [deterministic_ok] Hj)
      as (v & Hv & E). { intros e ->%list_elem_of_singleton. apply scalar_u. }
    exists v. split; [done|]. split; [exact Hv|exact E].
Qed.

(** ** Properties *)

(** C9: without advice the verifier returns for every candidate its constructors
    accept: the candidate's own selection and omissions when it is admitted, the
    full catalog at full depth when it is not. *)
Theorem verify_total `{Sha256} decode input pol changed p :
  built input ->
  input_ok input ->
  policy_ok pol ->
  catalog_jsonable (catalog pol) ->
  candidate_ok p ->
  changed_paths (diff input) = Ok changed ->
  exists r v, admit_deterministic_plan input pol p = Ok r /\ verify decode input pol p None = Ok v /\
    match r with
    | None => source_plan v = p /\ vp_selected v = selected_obligations p /\ vp_omitted v = omitted_obligations p
    | Some _ => full_ci pol v
    end.
Proof. apply verify_none_total. Qed.

(** The fallback plan the verifier computes on its own is the planner's
    fallback plan, for the same reason, errors included. *)
Theorem verifier_fallback_is_planner_fallback `{Sha256} input pol reason :
  catalog_ok (catalog pol) ->
  _full_ci_fallback_plan input pol reason = full_ci_fallback_plan input pol reason.
Proof. apply fallback_plans_agree. Qed.

Lemma planner_candidate_ok `{Sha256} input pol p :
  catalog_ok (catalog pol) -> plan input pol = Ok (Planned p) -> candidate_ok p.
Proof.
  intros Hc Hp. apply plan_has_shape in Hp as [[Hf _]|(ch & impact & st & Hd)].
  { apply (sb_candidate (catalog pol)). by eapply fallback_sealable. }
  pose proof (dp_sealed _ _ _ _ _ _ Hd) as Hs. pose proof (dp_lists _ _ _ _ _ _ Hd) as Hl. split.
  - apply (sl_check _ _ _ _ _ _ _ Hs).
  - rewrite (sl_selected _ _ _ _ _ _ _ Hs). apply Hl.
  - exact (close_selected_witnesses_checked _ _ _ (sl_witnesses _ _ _ _ _ _ _ Hs)).
  - rewrite (sl_omitted _ _ _ _ _ _ _ Hs). apply Hl.
  - pose proof (dp_timeout _ _ _ _ _ _ Hd) as Hfb. unfold PlanFallback_new in Hfb.
    apply bind_Ok in Hfb as ([] & Hc' & Hfb). injection Hfb as <-. exact Hc'.
  - rewrite (sl_evidence _ _ _ _ _ _ _ Hs). apply Hl.
Qed.

(** C3: planning followed by verification always ends in a verified plan: the
    planner's own selection and omissions, except that a selective plan is
    replaced by the full catalog at full depth when a global risk path
    changed. *)
Theorem planned_plan_verified `{Sha256} decode input pol changed p :
  built input ->
  input_ok input ->
  policy_ok pol ->
  catalog_jsonable (catalog pol) ->
  changed_paths (diff input) = Ok changed ->
  plan input pol = Ok (Planned p) ->
  exists v, verify decode input pol p None = Ok v /\
    if negb (triggered (fallback p)) && global_risk_changed input changed then full_ci pol v
    else source_plan v = p /\ vp_selected v = selected_obligations p /\ vp_omitted v = omitted_obligations p.
Proof.
  intros Hb Hi Hpol Hj Hch Hp. pose proof (proj2 Hpol) as Hc.
  destruct (verify_none_total decode input pol changed p) as (r & v & Hr & Hv & Hout); try done.
  { by eapply planner_candidate_ok. }
  exists v. split; [done|]. rewrite (planner_plan_admission input pol changed p Hb Hc Hch Hp) in Hr.
  injection Hr as <-. by destruct (_ && _).
Qed.
