(* ===== verification/Scenario.v ===== *)
(** * A concrete run

    One repository, one change and one policy, evaluated through the builders,
    the planner and the verifier with the checksum digest.  The witnesses of the
    planning and verification properties instantiate their theorems here. *)

From stdpp Require Import base gmap sets list sorting strings.
From Stdlib Require Import ZArith Lia.
From S2P Require Import Prelude Text PathPatterns PyFloat CanonicalJson Hashing Contract RepoContext Planning ImpactFacts PlannerFacts Planner Advice Verification VerificationFacts PlannerAdmitted Verifier VerifierFacts VerifierTotal.

#[local] Existing Instance Sha256_checksum.
#[local] Remove Hints Sha256_fips : typeclass_instances.

(** A change of [lib/a], on which [app/b] depends. *)
Definition sc_change : DiffFileChangeInput :=
  {| i_path := VStr (u "lib/a"); i_status := VStr (u "modified"); i_additions := VInt 3; i_deletions := VInt 1;
     i_patch := VNone; i_previous_path := VNone |}.

Definition sc_build : DiffBuildInput :=
  {| b_base_sha := sha40; b_head_sha := sha40'; b_files := [sc_change];
     b_source := {| complete := true; page_count := 1; file_count := 1; max_files := 300 |} |}.

Definition sc_epoch : RepositoryEpoch :=
  {| installation_id := 1; repository_id := 2; owner := u "o"; name := u "n"; event_name := pull_request;
     ref := u "r"; re_base_sha := sha40; re_head_sha := sha40' |}.

Definition sc_snapshot : PolicySnapshot :=
  {| epoch_id := hex64; ps_compiled_policy_hash := hex64; ps_policy_hash := hex64;
     dependency_graph_source := configured; ps_global_risk_paths := [u "ci/**"]; ps_risk_classes := [u "pay"] |}.

Definition sc_node (p : string) (deps risks : list pystr) : DependencyGraphNode :=
  {| node_path := u p; dependents := deps; risk_classes := risks |}.

Definition sc_artifact : DependencyGraphArtifact :=
  {| da_provenance := {| gp_source := configured; schema_version := u "1"; generator := u "g";
       retrieved_for_sha := sha40'; trusted := true; invalidates_when_changed := [u "ci/**"] |};
     da_nodes := [sc_node "app/b" [] [u "pay"]; sc_node "lib/a" [u "app/b"] []; sc_node "web/c" [] []];
     da_global_risk_paths := [u "ci/**"] |}.

Definition sc_diff : DiffContext := Eval vm_compute in get_ok (build_diff_context (H:=Sha256_checksum) sc_build) ltac:(vm_compute; reflexivity).
Lemma sc_diff_ok : build_diff_context sc_build = Ok sc_diff.
Proof. vm_compute. reflexivity. Qed.

Definition sc_graph : DependencyGraphContext := Eval vm_compute in
  get_ok (build_dependency_graph (H:=Sha256_checksum) sc_epoch sc_diff sc_snapshot sc_artifact) ltac:(vm_compute; reflexivity).
Lemma sc_graph_ok : build_dependency_graph sc_epoch sc_diff sc_snapshot sc_artifact = Ok sc_graph.
Proof. vm_compute. reflexivity. Qed.

Definition sc_input : PlanningInput := Eval vm_compute in
  get_ok (build_planning_input (H:=Sha256_checksum) sc_epoch sc_diff sc_graph sc_snapshot) ltac:(vm_compute; reflexivity).
Lemma sc_input_ok : build_planning_input sc_epoch sc_diff sc_graph sc_snapshot = Ok sc_input.
Proof. vm_compute. reflexivity. Qed.

(** A catalog of two obligations on one execution profile. *)
Definition sc_sharding : ShardingPolicy :=
  {| max_shards := 4; max_parallel := 2; max_items_per_shard := 100; setup_seconds_per_shard := NInt 0;
     cpu_weight := NInt 1; wall_weight := NInt 1; operator_weight := NInt 0 |}.

Definition sc_profile : ExecutionProfile :=
  {| profile_id := u "p"; runner_profile_id := u "r"; permission_profile_id := u "q"; credential_profile_id := u "c";
     fixture_profile_id := u "f"; service_profile_ids := []; capacity_class_id := u "k"; sharding_policy := sc_sharding |}.

Definition sc_witness (i : string) : ExecutableWitness :=
  {| witness_id := u i; execution_profile_id := u "p"; supported_depths := [smoke; standard; full] |}.

Definition sc_obligation (i w : string) (paths : list pystr) : ValidationObligation :=
  {| obligation_id := u i; responsibility_paths := paths; responsibility_risk_classes := [];
     required_witness_ids := [u w]; default_depth := smoke; full_depth := full; omit_allowed := true |}.

Definition sc_obligations : list ValidationObligation :=
  [sc_obligation "app" "w1" [u "app/**"]; sc_obligation "web" "w2" [u "web/**"]].

Definition sc_catalog : ValidationCatalog := Eval vm_compute in
  get_ok (ValidationCatalog_new (H:=Sha256_checksum) sc_obligations [sc_witness "w1"; sc_witness "w2"] [sc_profile]) ltac:(vm_compute; reflexivity).
Lemma sc_catalog_new : ValidationCatalog_new sc_obligations [sc_witness "w1"; sc_witness "w2"] [sc_profile] = Ok sc_catalog.
Proof. vm_compute. reflexivity. Qed.

Lemma sc_catalog_ok : catalog_ok sc_catalog.
Proof.
  apply (ValidationCatalog_new_ok _ _ _ _ sc_catalog_new).
  repeat constructor; vm_compute; reflexivity.
Qed.

(** Advice is enabled for one model and one prompt. *)
Definition sc_advice_policy : AgentAdvicePolicy :=
  {| enabled := true; model_id_allowlist := [u "m"]; prompt_hash_allowlist := [hex64]; min_confidence := NInt 0;
     prompt_injection_eval_required := true |}.

Definition sc_policy : PlanningPolicy :=
  {| pp_config_epoch_id := hex64; pp_compiled_policy_hash := hex64; pp_policy_hash := hex64; catalog := sc_catalog;
     fallback_timeout_seconds := 60; agent_advice := sc_advice_policy |}.

Lemma sc_policy_ok : policy_ok sc_policy.
Proof. split; [vm_compute; reflexivity|apply sc_catalog_ok]. Qed.

Lemma sc_built : built sc_input.
Proof.
  exists sc_build, sc_diff, sc_epoch, sc_snapshot, sc_artifact, sc_graph.
  split_and!; [apply sc_diff_ok|apply sc_graph_ok|apply sc_input_ok].
Qed.

Definition sc_changed : list pystr := [u "lib/a"].
Lemma sc_changed_ok : changed_paths (diff sc_input) = Ok sc_changed.
Proof. vm_compute. reflexivity. Qed.

Lemma sc_inputs_ok : input_ok sc_input.
Proof.
  split.
  - eexists. vm_compute. reflexivity.
  - eexists. apply sc_changed_ok.
  - vm_compute. reflexivity.
  - vm_compute. reflexivity.
  - vm_compute. reflexivity.
  - vm_compute. reflexivity.
  - split; [apply canonical_nil|set_solver].
Qed.

(** The plan omits [web] and selects [app], which depends on the change. *)
Definition sc_result : res PlanningResult := Eval vm_compute in plan sc_input sc_policy.
Definition sc_plan : DeterministicPlan := Eval vm_compute in
  match sc_result as r return match r with Ok (Planned _) => DeterministicPlan | _ => unit end with
  | Ok (Planned p) => p
  | _ => tt
  end.

Lemma sc_plan_ok : plan sc_input sc_policy = Ok (Planned sc_plan).
Proof. vm_compute. reflexivity. Qed.

Example sc_plan_decides :
  so_obligation_id <$> selected_obligations sc_plan = [u "app"] /\
  oo_obligation_id <$> omitted_obligations sc_plan = [u "web"].
Proof. vm_compute. split; reflexivity. Qed.

Lemma sc_catalog_jsonable : catalog_jsonable (catalog sc_policy).
Proof. eexists. split; [vm_compute; reflexivity|vm_compute; reflexivity]. Qed.

(** Advice that adds [web]; the decoder is instantiated by a constant. *)
Definition sc_decoded : pyval :=
  VDict 0 [(KStr (u "schemaVersion"), VStr AGENT_ADVICE_SCHEMA_VERSION); (KStr (u "adviceId"), VStr (u "x"));
           (KStr (u "confidence"), VInt 1); (KStr (u "addObligations"), VList 1 [VStr (u "web")]);
           (KStr (u "increaseDepth"), VList 2 [VDict 3 [(KStr (u "obligationId"), VStr (u "app"));
                                                      (KStr (u "minDepth"), VStr (u "full"))]]);
           (KStr (u "riskFindings"), VList 4 []); (KStr (u "rationale"), VStr (u "z"))].

Definition sc_decode (raw : list Z) : res pyval := Ok sc_decoded.

Definition sc_envelope : AdviceExecutionEnvelope :=
  {| raw_output := [123; 125]; env_input_hash := input_hash sc_input; model_id := u "m"; prompt_hash := hex64;
     evaluation := {| output_hash := hex64; evaluator_id := u "e"; ae_policy_hash := hex64; passed := true |} |}.

Definition sc_admission : res AdviceAdmission := Eval vm_compute in
  admit_advice sc_decode sc_envelope sc_input sc_policy.
Definition sc_advice_parts : AgentAdvice * AdviceAuditMetadata := Eval vm_compute in
  match sc_admission as r
    return match r with Ok (AdmittedAdvice _ _) => AgentAdvice * AdviceAuditMetadata | _ => unit end with
  | Ok (AdmittedAdvice a audit) => (a, audit)
  | _ => tt
  end.

Lemma sc_admitted :
  admit_advice sc_decode sc_envelope sc_input sc_policy = Ok (AdmittedAdvice sc_advice_parts.1 sc_advice_parts.2).
Proof. vm_compute. reflexivity. Qed.

Definition sc_verified : VerifiedPlan := Eval vm_compute in
  get_ok (verify (H:=Sha256_checksum) sc_decode sc_input sc_policy sc_plan None) ltac:(vm_compute; reflexivity).
Lemma sc_verified_ok : verify sc_decode sc_input sc_policy sc_plan None = Ok sc_verified.
Proof. vm_compute. reflexivity. Qed.

Definition sc_advised : VerifiedPlan := Eval vm_compute in
  get_ok (verify (H:=Sha256_checksum) sc_decode sc_input sc_policy sc_plan (Some sc_envelope))
    ltac:(vm_compute; reflexivity).
Lemma sc_advised_ok : verify sc_decode sc_input sc_policy sc_plan (Some sc_envelope) = Ok sc_advised.
Proof. vm_compute. reflexivity. Qed.

(** With the advice both obligations are selected, [app] at full depth. *)
Example sc_advised_decides :
  (fun s => (so_obligation_id s, so_depth s)) <$> vp_selected sc_advised = [(u "app", full); (u "web", smoke)] /\
  vp_omitted sc_advised = [].
Proof. vm_compute. split; reflexivity. Qed.

Lemma sc_plan_checked : DeterministicPlan_check sc_plan = Ok tt.
Proof. vm_compute. reflexivity. Qed.

Lemma sc_plan_admitted : admit_deterministic_plan sc_input sc_policy sc_plan = Ok None.
Proof. vm_compute. reflexivity. Qed.

(** ** Witnesses *)

Lemma planning_input_without_reasons_trusted_witness :
  input_trusted sc_input /\ diff_trusted sc_build (diff sc_input) /\
  graph_trusted sc_epoch (diff sc_input) sc_snapshot (dependency_graph sc_input).
Proof.
  apply (planning_input_without_reasons_trusted sc_build sc_diff sc_epoch sc_snapshot sc_artifact sc_graph sc_input
    sc_diff_ok sc_graph_ok sc_input_ok). reflexivity.
Defined.

Lemma sc_graph_scalar : graph_scalar sc_input.
Proof. apply graph_check_scalar. apply sc_inputs_ok. Qed.

Lemma analyze_impact_correct_witness :
  exists a, analyze_impact sc_input = Ok a /\ impact_spec sc_input sc_changed a.
Proof. exact (analyze_impact_correct sc_input sc_changed sc_changed_ok sc_graph_scalar). Defined.

Definition sc_web : ValidationObligation := sc_obligation "web" "w2" [u "web/**"].
Lemma sc_web_in : sc_web ∈ obligations (catalog sc_policy).
Proof. vm_compute. right. left. Qed.

Lemma plan_omits_exactly_justified_witness : omission_justified sc_input sc_changed sc_web.
Proof.
  apply (plan_omits_exactly_justified sc_input sc_policy sc_plan sc_changed sc_web sc_plan_ok sc_catalog_ok
    sc_changed_ok sc_web_in). vm_compute. left.
Defined.

Lemma plan_partitions_catalog_witness :
  (so_obligation_id <$> selected_obligations sc_plan) ++ (oo_obligation_id <$> omitted_obligations sc_plan)
    ≡ₚ obligation_id <$> obligations (catalog sc_policy).
Proof. exact (proj1 (plan_partitions_catalog sc_input sc_policy sc_plan sc_plan_ok)). Defined.

Lemma plan_witnesses_close_selection_witness :
  closure_spec (selected_obligations sc_plan) (selected_witnesses sc_plan).
Proof. exact (plan_witnesses_close_selection sc_input sc_policy sc_plan sc_plan_ok sc_catalog_ok). Defined.

Lemma plan_total_witness :
  exists r, plan sc_input sc_policy = Ok r /\
    match r with
    | PlanningRejected _ => ¬ coordinates_match sc_input sc_policy
    | Planned _ => coordinates_match sc_input sc_policy
    end.
Proof. exact (plan_total sc_input sc_policy sc_inputs_ok sc_policy_ok). Defined.

Lemma advice_admissible :
  advice_admissible sc_envelope sc_input sc_policy sc_advice_parts.1.
Proof. exact (proj1 (admitted_advice_admissible _ _ _ _ _ _ sc_admitted)). Defined.

Lemma admitted_plan_sound_witness : plan_admitted sc_input sc_policy sc_changed sc_plan.
Proof.
  exact (admitted_plan_sound sc_input sc_policy sc_changed sc_plan sc_catalog_ok sc_plan_checked sc_changed_ok
    sc_plan_admitted).
Defined.

Lemma derive_impact_is_reachability_witness :
  exists f, derive_impact_from sc_input (str_set sc_changed) (reverse sc_changed) = Ok f /\
    facts_spec sc_input sc_changed f.
Proof.
  apply (derive_impact_is_reachability sc_input sc_changed (reverse sc_changed)). intros p. apply elem_of_reverse.
Defined.

Lemma planner_plans_admitted_witness : admit_deterministic_plan sc_input sc_policy sc_plan = Ok None.
Proof.
  rewrite (planner_plans_admitted sc_input sc_policy sc_changed sc_plan sc_built sc_catalog_ok sc_changed_ok sc_plan_ok).
  vm_compute. reflexivity.
Defined.

Lemma verify_sound_witness : verification_sound sc_input sc_policy sc_changed sc_advised.
Proof.
  exact (verify_sound sc_decode sc_input sc_policy sc_plan (Some sc_envelope) sc_changed sc_advised sc_catalog_ok
    sc_plan_checked sc_changed_ok sc_advised_ok).
Defined.

Lemma verify_advice_monotone_witness :
  covers (vp_selected sc_advised) (vp_selected sc_verified) /\
  (forall om, om ∈ vp_omitted sc_advised -> om ∈ vp_omitted sc_verified) /\
  (authority_within (catalog sc_policy) (vp_witnesses sc_advised) (vp_witnesses sc_verified) \/
   full_ci sc_policy sc_advised).
Proof.
  exact (verify_advice_monotone sc_decode sc_input sc_policy sc_plan sc_envelope sc_changed sc_advised sc_verified
    sc_catalog_ok sc_plan_checked sc_changed_ok sc_advised_ok sc_verified_ok).
Defined.

Lemma sc_applied :
  _apply_advice sc_input sc_policy sc_plan sc_advice_parts.1 sc_advice_parts.2 = Ok sc_advised.
Proof. vm_compute. reflexivity. Qed.

Lemma apply_advice_effect_witness :
  advice_outcome sc_policy sc_plan sc_advice_parts.1 sc_advice_parts.2 sc_advised.
Proof.
  exact (apply_advice_effect sc_input sc_policy sc_changed sc_plan _ _ sc_advised sc_catalog_ok sc_plan_checked
    sc_changed_ok sc_plan_admitted sc_applied).
Defined.

Definition sc_advised_map : gmap pystr SelectedObligation := Eval vm_compute in
  get_ok (advised_selection (catalog sc_policy) (selected_obligations sc_plan) sc_advice_parts.1)
    ltac:(vm_compute; reflexivity).

Lemma sc_advised_map_ok :
  advised_selection (catalog sc_policy) (selected_obligations sc_plan) sc_advice_parts.1 = Ok sc_advised_map.
Proof. vm_compute. reflexivity. Qed.

Lemma advice_never_regresses_witness :
  relation (compare_coverage (selected_obligations sc_plan) (selected_witnesses sc_plan)
    (vp_selected sc_advised) (vp_witnesses sc_advised)) = equal \/
  relation (compare_coverage (selected_obligations sc_plan) (selected_witnesses sc_plan)
    (vp_selected sc_advised) (vp_witnesses sc_advised)) = strictly_greater.
Proof.
  apply (advice_never_regresses sc_input sc_policy sc_changed sc_plan sc_advice_parts.1 sc_advised_map
    (vp_selected sc_advised) (vp_witnesses sc_advised) sc_catalog_ok sc_plan_checked sc_changed_ok sc_plan_admitted
    sc_advised_map_ok); vm_compute; reflexivity.
Defined.

Lemma sc_verified_closure : closure_spec (vp_selected sc_advised) (vp_witnesses sc_advised).
Proof.
  apply (verifier_closure_spec sc_catalog); [apply sc_catalog_ok| |vm_compute; reflexivity].
  apply sorted_unique_canonical. vm_compute. reflexivity.
Qed.

Lemma sc_plan_closure : closure_spec (selected_obligations sc_plan) (selected_witnesses sc_plan).
Proof.
  apply (verifier_closure_spec sc_catalog); [apply sc_catalog_ok| |vm_compute; reflexivity].
  apply sorted_unique_canonical. vm_compute. reflexivity.
Qed.

Lemma sc_same_requirements : same_requirements (selected_obligations sc_plan) (vp_selected sc_advised).
Proof.
  intros s s' Hs Hs'. cbn in Hs, Hs'. rewrite !elem_of_cons, elem_of_nil in Hs. rewrite !elem_of_cons, elem_of_nil in Hs'.
  destruct Hs as [->|[]]; destruct Hs' as [->|[->|[]]]; done.
Qed.

Lemma compare_coverage_correct_witness :
  covers (vp_selected sc_advised) (selected_obligations sc_plan) /\
  ¬ covers (selected_obligations sc_plan) (vp_selected sc_advised).
Proof.
  apply (compare_coverage_correct (selected_obligations sc_plan) (selected_witnesses sc_plan)
    (vp_selected sc_advised) (vp_witnesses sc_advised)); [..|exact sc_same_requirements|exact sc_plan_closure
    |exact sc_verified_closure]; vm_compute; repeat constructor; set_solver.
Defined.

Lemma sc_candidate : candidate_ok sc_plan.
Proof. apply (planner_candidate_ok sc_input sc_policy); [apply sc_catalog_ok|apply sc_plan_ok]. Qed.

Lemma verify_total_witness :
  exists r v, admit_deterministic_plan sc_input sc_policy sc_plan = Ok r /\
    verify sc_decode sc_input sc_policy sc_plan None = Ok v /\
    match r with
    | None => source_plan v = sc_plan /\ vp_selected v = selected_obligations sc_plan /\
              vp_omitted v = omitted_obligations sc_plan
    | Some _ => full_ci sc_policy v
    end.
Proof.
  exact (verify_total sc_decode sc_input sc_policy sc_changed sc_plan sc_built sc_inputs_ok sc_policy_ok
    sc_catalog_jsonable sc_candidate sc_changed_ok).
Defined.

Lemma verifier_fallback_is_planner_fallback_witness :
  _full_ci_fallback_plan sc_input sc_policy (u "x") = full_ci_fallback_plan sc_input sc_policy (u "x").
Proof. exact (verifier_fallback_is_planner_fallback sc_input sc_policy (u "x") sc_catalog_ok). Defined.

Lemma planned_plan_verified_witness :
  exists v, verify sc_decode sc_input sc_policy sc_plan None = Ok v /\
    if negb (triggered (fallback sc_plan)) && global_risk_changed sc_input sc_changed then full_ci sc_policy v
    else source_plan v = sc_plan /\ vp_selected v = selected_obligations sc_plan /\
         vp_omitted v = omitted_obligations sc_plan.
Proof.
  exact (planned_plan_verified sc_decode sc_input sc_policy sc_changed sc_plan sc_built sc_inputs_ok sc_policy_ok
    sc_catalog_jsonable sc_changed_ok sc_plan_ok).
Defined.
