(* ===== verification/EpochScenario.v ===== *)
(** * Two retained epochs

    The epochs of one repository, evaluated from their compiled bytes with the
    checksum digest: the target keeps the active epoch's obligations and asks
    for more.  The witnesses of the properties of epochs instantiate their
    theorems here. *)

From stdpp Require Import base gmap sets list sorting strings.
From Stdlib Require Import ZArith Lia.
From S2P Require Import Prelude Text PathPatterns PyFloat CanonicalJson Hashing JsonLoads Contract RepoContext Planning ImpactFacts PlannerFacts Planner.
From S2P Require Import Advice Verification VerificationFacts ConfigControl ContextInputs Rollback RollbackFacts Scenario.

#[local] Existing Instance Sha256_checksum.
#[local] Remove Hints Sha256_fips : typeclass_instances.

Definition es_scope : RepositoryScope := {| scope_installation_id := 1; scope_repository_id := 2 |}.

(** A compiled policy with a catalog of the given obligations. *)
Definition es_compiled (os : list ValidationObligation) : res (list Z) :=
  let ws := [sc_witness "w1"; sc_witness "w2"] in
  c ← ValidationCatalog_new os ws [sc_profile];
  profiles ← mapR ExecutionProfile_mapping [sc_profile];
  canonical_json None (fresh 0 (obj
    [("schemaVersion", VStr (u "v1"));
     ("dynamicCi", obj
       [("obligations", arr (ValidationObligation_mapping <$> os)); ("witnesses", arr (ExecutableWitness_mapping <$> ws));
        ("executionProfiles", arr profiles); ("configuredValidationCatalogHash", VStr (catalog_hash c));
        ("policyHash", VStr hex64); ("dependencyGraphSource", VStr (u "configured"));
        ("globalRiskPaths", str_list [u "ci/**"]); ("riskClasses", str_list [u "pay"]);
        ("agentAdvice", obj [("enabled", VBool true); ("modelIdAllowlist", str_list [u "m"]);
                             ("promptHashAllowlist", str_list [hex64]); ("minConfidence", VInt 0);
                             ("promptInjectionEvalRequired", VBool true)]);
        ("fallbackTimeoutSeconds", VInt 60)])]%string)).

Definition es_make (os : list ValidationObligation) : res ValidatedEpochDraft :=
  bytes ← es_compiled os;
  epoch_id ← config_epoch_id_of es_scope hex64 hex64 (compiled_policy_hash_of bytes);
  let d := {| source_format := FormatJson; source_bytes := []; draft_scope := es_scope; normalized_document_bytes := [123; 125];
              compiled_policy_bytes := bytes; document_schema_id := u "d"; document_profile_id := u "d";
              semantic_profile_id := u "s"; compiled_schema_id := u "c"; producer_resource_profile_id := u "r";
              producer_byte_profile_id := u "b"; producer_feasibility_profile_id := u "f"; source_hash := hex64;
              document_hash := hex64; epoch_hash := compiled_policy_hash_of bytes; draft_epoch_id := epoch_id |} in
  ValidatedEpochDraft_check d ;; Ok d.

Definition es_active : ValidatedEpochDraft := Eval vm_compute in get_ok (es_make sc_obligations) ltac:(vm_compute; reflexivity).

(** The target runs [web] deeper and on more paths. *)
Definition es_stronger : list ValidationObligation :=
  [sc_obligation "app" "w1" [u "app/**"];
   {| obligation_id := u "web"; responsibility_paths := [u "app/**"; u "web/**"]; responsibility_risk_classes := [];
      required_witness_ids := [u "w2"]; default_depth := standard; full_depth := full; omit_allowed := true |}].
Definition es_target : ValidatedEpochDraft := Eval vm_compute in get_ok (es_make es_stronger) ltac:(vm_compute; reflexivity).

Definition es_policy (d : ValidatedEpochDraft) : res PlanningPolicy :=
  p ← project_dynamic_ci_planning d;
  match p with Some p => from_projection p | None => Raise KeyError end.

Lemma es_policy_epoch d pol : es_policy d = Ok pol -> epoch_policy d pol.
Proof. unfold es_policy. intros ([p|] & Hp & Hpol)%bind_Ok; [by exists p|discriminate]. Qed.

Definition es_active_policy : PlanningPolicy := Eval vm_compute in get_ok (es_policy es_active) ltac:(vm_compute; reflexivity).
Definition es_target_policy : PlanningPolicy := Eval vm_compute in get_ok (es_policy es_target) ltac:(vm_compute; reflexivity).

(** The change of [Scenario], read under each epoch's own projection. *)
Definition es_change : repository_change :=
  {| change_epoch := sc_epoch; change_diff := sc_diff; change_artifact := Some sc_artifact |}.

Definition es_input (d : ValidatedEpochDraft) : res PlanningInput :=
  p ← project_dynamic_ci_planning d;
  match p with Some p => s ← snapshot_from_projection p; change_input es_change s | None => Raise KeyError end.

Lemma es_input_under d i : es_input d = Ok i -> input_under es_change d i.
Proof. unfold es_input. intros ([p|] & Hp & Hi)%bind_Ok; [|discriminate]. apply bind_Ok in Hi as (s & Hs & Hi). by exists p, s. Qed.

Definition es_active_input : PlanningInput := Eval vm_compute in get_ok (es_input es_active) ltac:(vm_compute; reflexivity).
Definition es_target_input : PlanningInput := Eval vm_compute in get_ok (es_input es_target) ltac:(vm_compute; reflexivity).

Definition es_active_result : res PlanningResult := Eval vm_compute in plan es_active_input es_active_policy.
Definition es_target_result : res PlanningResult := Eval vm_compute in plan es_target_input es_target_policy.
Definition es_active_plan : DeterministicPlan := Eval vm_compute in
  match es_active_result as r return match r with Ok (Planned _) => DeterministicPlan | _ => unit end with
  | Ok (Planned p) => p
  | _ => tt
  end.
Definition es_target_plan : DeterministicPlan := Eval vm_compute in
  match es_target_result as r return match r with Ok (Planned _) => DeterministicPlan | _ => unit end with
  | Ok (Planned p) => p
  | _ => tt
  end.

Example es_plans_differ :
  so_obligation_id <$> selected_obligations es_active_plan = [u "app"] /\
  so_obligation_id <$> selected_obligations es_target_plan = [u "app"; u "web"].
Proof. vm_compute. split; reflexivity. Qed.

Definition es_command : RollbackCommand :=
  {| rb_scope := es_scope; rb_active_epoch_id := draft_epoch_id es_active; rb_target_epoch_id := draft_epoch_id es_target;
     rb_actor := u "a"; rb_reason := u "why" |}.

Lemma admitted_rollback_never_reduces_witness :
  plan_covers es_target_plan es_active_plan /\ (proven_greater = proven_equal -> plan_covers es_active_plan es_target_plan) /\ keeps_frame es_active es_target /\
  draft_epoch_id es_active = rb_active_epoch_id es_command /\ draft_epoch_id es_target = rb_target_epoch_id es_command /\
  draft_scope es_active = rb_scope es_command /\ draft_scope es_target = rb_scope es_command.
Proof.
  apply (admitted_rollback_never_reduces es_command es_active es_target proven_greater es_change es_active_policy es_target_policy
    es_active_input es_target_input).
  - vm_compute. reflexivity.
  - apply es_policy_epoch. vm_compute. reflexivity.
  - apply es_policy_epoch. vm_compute. reflexivity.
  - apply es_input_under. vm_compute. reflexivity.
  - apply es_input_under. vm_compute. reflexivity.
  - vm_compute. reflexivity.
  - vm_compute. reflexivity.
Defined.

(** The way back is refused. *)
Example rollback_back_refused :
  admit_rollback {| rb_scope := es_scope; rb_active_epoch_id := draft_epoch_id es_target; rb_target_epoch_id := draft_epoch_id es_active;
                    rb_actor := u "a"; rb_reason := u "why" |}
    (Build_ConservativeEpochCoverageComparator es_target es_active) = Ok (RollbackRejected coverage_reducing).
Proof. vm_compute. reflexivity. Qed.
