(* ===== verification/Admission.v ===== *)
(** * No-queue admission and its leases

    Models [kernel/admission.py].  The fields of [NoQueueAdmission],
    [WeightedNoQueueAdmission] and [GrowingAdmissionLease] are only touched
    under the owner's lock, so each of their critical sections is one function.
    [AdmissionLease.release] is not atomic: it holds the lease's own lock while
    it checks the flag, calls back into the owner and sets the flag; the system
    below interleaves these steps of any number of threads.

    The lease is generic in the owner it calls back: the class [Owner] is what
    a lease needs of its owner, the theorems about interleavings are proved
    against it, and both admissions are instances. *)

From stdpp Require Import base gmap sets list sorting strings.
From Stdlib Require Import ZArith Lia.
From S2P Require Import Prelude.

(** ** The owners *)

Record NoQueueAdmission := MkNoQueue { _limit : Z; nq_active : Z }.

Definition NoQueueAdmission_init (limit : Z) : res NoQueueAdmission :=
  raise_if (limit <? 1) (ValueError (u "no-queue admission limit must be positive")) ;;
  Ok (MkNoQueue limit 0).

(** [None]: no capacity; otherwise the state the new lease is accounted in. *)
Definition nq_try_acquire (s : NoQueueAdmission) : option NoQueueAdmission :=
  if nq_active s >=? _limit s then None else Some (MkNoQueue (_limit s) (nq_active s + 1)).

Definition nq_release (s : NoQueueAdmission) : res NoQueueAdmission :=
  raise_if (nq_active s <? 1) (RuntimeError (u "no-queue admission release has no owner")) ;;
  Ok (MkNoQueue (_limit s) (nq_active s - 1)).

Record GrowingAdmissionLease := MkGrowing { _weight : Z; g_released : bool }.

Record WeightedNoQueueAdmission := MkWeighted {
  _maximum_weight : Z;
  _retained_weight : Z;
  w_active : Z;
}.

(** A weighted admission and the growing leases it has created: the leases'
    fields belong to the owner's lock. *)
Record WeightedPool := MkPool { admission : WeightedNoQueueAdmission; growing : list GrowingAdmissionLease }.

Definition WeightedNoQueueAdmission_init (maximum_weight : Z) : res WeightedNoQueueAdmission :=
  raise_if (maximum_weight <? 1) (ValueError (u "weighted admission maximum must be positive")) ;;
  Ok (MkWeighted maximum_weight 0 0).

Definition _validate_weight (s : WeightedNoQueueAdmission) (weight : Z) : res unit :=
  raise_if (negb ((0 <=? weight) && (weight <=? _maximum_weight s)))
    (ValueError (u "admission weight must fit the declared budget")).

Definition w_try_acquire (weight : Z) (s : WeightedNoQueueAdmission) : res (option WeightedNoQueueAdmission) :=
  _validate_weight s weight ;;
  let retained_weight := _retained_weight s + weight in
  Ok (if retained_weight >? _maximum_weight s then None
      else Some (MkWeighted (_maximum_weight s) retained_weight (w_active s + 1))).

Definition _release_locked (weight : Z) (s : WeightedNoQueueAdmission) : res WeightedNoQueueAdmission :=
  raise_if ((w_active s <? 1) || (_retained_weight s <? weight))
    (RuntimeError (u "weighted admission release has no owner")) ;;
  Ok (MkWeighted (_maximum_weight s) (_retained_weight s - weight) (w_active s - 1)).

Definition w_release (weight : Z) (s : WeightedNoQueueAdmission) : res WeightedNoQueueAdmission :=
  _release_locked weight s.

Definition w_try_acquire_growing (weight : Z) (s : WeightedNoQueueAdmission)
    : res (option (WeightedNoQueueAdmission * GrowingAdmissionLease)) :=
  _validate_weight s weight ;;
  let retained_weight := _retained_weight s + weight in
  Ok (if retained_weight >? _maximum_weight s then None
      else Some (MkWeighted (_maximum_weight s) retained_weight (w_active s + 1), MkGrowing weight false)).

Definition already_released : exn := RuntimeError (u "admission lease was already released").

(** The result is the new state of the owner and of the lease, and the value returned. *)
Definition _try_grow (s : WeightedNoQueueAdmission) (lease : GrowingAdmissionLease) (delta : Z)
    : res (WeightedNoQueueAdmission * GrowingAdmissionLease * bool) :=
  _validate_weight s delta ;;
  raise_if (g_released lease) already_released ;;
  let retained_weight := _retained_weight s + delta in
  Ok (if retained_weight >? _maximum_weight s then (s, lease, false)
      else (MkWeighted (_maximum_weight s) retained_weight (w_active s),
            MkGrowing (_weight lease + delta) (g_released lease), true)).

Definition _release_growing (s : WeightedNoQueueAdmission) (lease : GrowingAdmissionLease)
    : res (WeightedNoQueueAdmission * GrowingAdmissionLease) :=
  raise_if (g_released lease) already_released ;;
  s' ← _release_locked (_weight lease) s;
  Ok (s', MkGrowing 0 true).

(** ** What a lease needs of its owner

    [take] and [give] are the critical sections that create a lease for a unit
    of capacity and return it; [run_op] are the owner's other calls.  [books]
    relates the owner's counters to the units out on lease; the laws say that
    every critical section keeps the books and that returning a unit that is
    out never fails. *)
Class Owner (O U Op : Type) := {
  take_unit : U -> O -> res (option O);
  give_unit : U -> O -> res O;
  run_op : Op -> O -> option (O * res bool);
  books : O -> list U -> Prop;
  books_perm s : Proper ((≡ₚ) ==> iff) (books s);
  take_books x s s' l : books s l -> take_unit x s = Ok (Some s') -> books s' (x :: l);
  give_books x s l : books s (x :: l) -> exists s', give_unit x s = Ok s' /\ books s' l;
  op_books o s s' r l : books s l -> run_op o s = Some (s', r) -> books s' l;
}.
#[export] Existing Instance books_perm.

(** ** Leases and threads *)

Record AdmissionLease (U : Type) := MkLease {
  lease_unit : U;              (* what [_release_capacity] gives back *)
  _released : bool;
  _release_lock : option nat;  (* the thread holding the lock *)
}.
Arguments MkLease {U}.
Arguments lease_unit {U}.
Arguments _released {U}.
Arguments _release_lock {U}.

(** Where a thread stands in [release]: holding the lock before the check,
    after it, and after the call of [_release_capacity]. *)
Inductive release_pc := Locked | Checked | Given.

Record sys (S U : Type) := MkSys {
  owner : S;
  leases : list (AdmissionLease U);
  pcs : gmap nat (nat * release_pc);  (* per thread: the lease it releases *)
}.
Arguments MkSys {S U}.
Arguments owner {S U}.
Arguments leases {S U}.
Arguments pcs {S U}.

Inductive action (U Op : Type) :=
  | Acquire (x : U)
  | Operate (o : Op)
  | Release (l : nat)
  | Continue.
Arguments Acquire {U Op}.
Arguments Operate {U Op}.
Arguments Release {U Op}.
Arguments Continue {U Op}.

Inductive event :=
  | EvAcquired (l : nat)
  | EvRefused
  | EvOperated (b : bool)
  | EvTau
  | EvGiven (l : nat)
  | EvReturned (l : nat)
  | EvRaised (e : exn).

Section system.
Context {O U Op : Type} {own : Owner O U Op}.

Definition set_lock (h : option nat) (le : AdmissionLease U) : AdmissionLease U :=
  MkLease (lease_unit le) (_released le) h.
Definition set_released (le : AdmissionLease U) : AdmissionLease U :=
  MkLease (lease_unit le) true None.

(** One step of thread [t]; [None] when the thread cannot take it (a call while
    it is inside [release], or a lock another thread holds). *)
Definition step (s : sys O U) (t : nat) (a : action U Op) : option (sys O U * event) :=
  match a, pcs s !! t with
  | Acquire x, None =>
      Some match take_unit x (owner s) with
      | Raise e => (s, EvRaised e)
      | Ok None => (s, EvRefused)
      | Ok (Some o) => (MkSys o (leases s ++ [MkLease x false None]) (pcs s), EvAcquired (length (leases s)))
      end
  | Operate o, None =>
      '(o', r) ← run_op o (owner s);
      Some (MkSys o' (leases s) (pcs s), match r with Ok b => EvOperated b | Raise e => EvRaised e end)
  | Release l, None =>
      le ← leases s !! l;
      match _release_lock le with
      | Some _ => None
      | None => Some (MkSys (owner s) (<[l := set_lock (Some t) le]> (leases s)) (<[t := (l, Locked)]> (pcs s)), EvTau)
      end
  | Continue, Some (l, pc) =>
      le ← leases s !! l;
      match pc with
      | Locked =>
          if _released le
          then Some (MkSys (owner s) (<[l := set_lock None le]> (leases s)) (delete t (pcs s)), EvRaised already_released)
          else Some (MkSys (owner s) (leases s) (<[t := (l, Checked)]> (pcs s)), EvTau)
      | Checked =>
          match give_unit (lease_unit le) (owner s) with
          | Ok o => Some (MkSys o (leases s) (<[t := (l, Given)]> (pcs s)), EvGiven l)
          | Raise e => Some (MkSys (owner s) (<[l := set_lock None le]> (leases s)) (delete t (pcs s)), EvRaised e)
          end
      | Given => Some (MkSys (owner s) (<[l := set_released le]> (leases s)) (delete t (pcs s)), EvReturned l)
      end
  | _, _ => None
  end.

(** A schedule: which thread takes which step, and what it observed. *)
Fixpoint run (s : sys O U) (sched : list (nat * action U Op)) : option (sys O U * list event) :=
  match sched with
  | [] => Some (s, [])
  | (t, a) :: rest =>
      '(s1, e) ← step s t a;
      '(s2, es) ← run s1 rest;
      Some (s2, e :: es)
  end.

Inductive reachable (o : O) : sys O U -> list event -> Prop :=
  | reach_init : reachable o (MkSys o [] ∅) []
  | reach_step s es t a s' e : reachable o s es -> step s t a = Some (s', e) -> reachable o s' (es ++ [e]).

(** A lease holds its unit until [_release_capacity] has returned. *)
Definition holds (p : gmap nat (nat * release_pc)) (le : AdmissionLease U) : bool :=
  negb (_released le) &&
  match _release_lock le with
  | Some t => match p !! t with Some (_, Given) => false | _ => true end
  | None => true
  end.

Definition held (p : gmap nat (nat * release_pc)) (ls : list (AdmissionLease U)) : list U :=
  omap (fun le => if holds p le then Some (lease_unit le) else None) ls.

End system.

(** ** Every interleaving *)

#[export] Instance release_pc_eq_dec : EqDecision release_pc.
Proof. solve_decision. Defined.
#[export] Instance event_eq_dec : EqDecision event.
Proof. solve_decision. Defined.

Section interleavings.
Context {O U Op : Type} {own : Owner O U Op}.
Implicit Types (s : sys O U) (le : AdmissionLease U) (p : gmap nat (nat * release_pc)).

Definition given_count (l : nat) (es : list event) : nat :=
  length (filter (fun e => e = EvGiven l) es).
Definition returned_count (l : nat) (es : list event) : nat :=
  length (filter (fun e => e = EvReturned l) es).

(** Locks and program counters agree, a thread past the check has seen the
    flag down, the owner's books list the units of the leases that hold one,
    and what each lease has done so far is what its state says. *)
Record consistent s (es : list event) : Prop := {
  co_thread t l pc : pcs s !! t = Some (l, pc) ->
    exists le, leases s !! l = Some le /\ _release_lock le = Some t /\ (pc <> Locked -> _released le = false);
  co_lock l le t : leases s !! l = Some le -> _release_lock le = Some t -> exists pc, pcs s !! t = Some (l, pc);
  co_books : books (owner s) (held (pcs s) (leases s));
  co_given l : given_count l es = (match leases s !! l with Some le => if holds (pcs s) le then 0 else 1 | None => 0 end)%nat;
  co_returned l : returned_count l es = (match leases s !! l with Some le => if _released le then 1 else 0 | None => 0 end)%nat;
}.

Lemma held_split p p' ls l le le' :
  ls !! l = Some le ->
  (forall i x, i <> l -> ls !! i = Some x -> holds p' x = holds p x) ->
  exists rest, held p ls ≡ₚ (if holds p le then [lease_unit le] else []) ++ rest /\
               held p' (<[l := le']> ls) ≡ₚ (if holds p' le' then [lease_unit le'] else []) ++ rest.
Proof.
  intros Hl Hx. assert (l < length ls)%nat by (by eapply lookup_lt_Some).
  exists (held p (take l ls) ++ held p (drop (S l) ls)). unfold held.
  assert (E1 : forall n, (n <= l)%nat -> omap (fun le => if holds p' le then Some (lease_unit le) else None) (take n ls) =
               omap (fun le => if holds p le then Some (lease_unit le) else None) (take n ls)).
  { intros n Hn. apply list_omap_ext, Forall_Forall2_diag, Forall_lookup. intros i x Hi.
    apply lookup_take_Some in Hi as [Hi ?]. rewrite (Hx i x); [done|lia|done]. }
  assert (E2 : omap (fun le => if holds p' le then Some (lease_unit le) else None) (drop (S l) ls) =
               omap (fun le => if holds p le then Some (lease_unit le) else None) (drop (S l) ls)).
  { apply list_omap_ext, Forall_Forall2_diag, Forall_lookup. intros i x Hi.
    rewrite lookup_drop in Hi. rewrite (Hx (S l + i)%nat x); [done|lia|done]. }
  split.
  - rewrite <- (take_drop_middle ls l le Hl) at 1. rewrite omap_app. cbn [omap list_omap].
    destruct (holds p le); cbn [app]; [by rewrite Permutation_middle|done].
  - rewrite insert_take_drop by done. rewrite omap_app. cbn [omap list_omap]. rewrite E1, E2 by lia.
    destruct (holds p' le'); cbn [app]; [by rewrite Permutation_middle|done].
Qed.

(** Only the thread that moved can change what a lease it does not hold owns. *)
Lemma holds_frame s es t o p' :
  consistent s es ->
  (forall t', t' <> t -> p' !! t' = pcs s !! t') ->
  (forall l pc, pcs s !! t = Some (l, pc) -> l = o) ->
  forall i x, i <> o -> leases s !! i = Some x -> holds p' x = holds (pcs s) x.
Proof.
  intros Hc Hp Ho i x Hi Hx. unfold holds. destruct (_release_lock x) as [t'|] eqn:El; [|done].
  destruct (decide (t' = t)) as [->|Hne]; [|by rewrite Hp].
  destruct (co_lock _ _ Hc i x t Hx El) as [pc Epc]. by apply Ho in Epc as ->.
Qed.

Lemma count_snoc (P : event -> Prop) `{forall e, Decision (P e)} es e :
  length (filter P (es ++ [e])) = (length (filter P es) + if decide (P e) then 1 else 0)%nat.
Proof. rewrite filter_app, length_app, filter_cons, filter_nil. by destruct (decide (P e)). Qed.

(** Thread [t] moves on lease [l]: the conditions under which the system stays
    consistent when only that lease, that thread and the owner change. *)
Lemma consistent_move s es t l le le' p' o' e :
  consistent s es -> leases s !! l = Some le ->
  (forall l' pc, pcs s !! t = Some (l', pc) -> l' = l) ->
  (forall t', t' <> t -> p' !! t' = pcs s !! t') ->
  (_release_lock le = None \/ _release_lock le = Some t) ->
  match p' !! t with
  | Some (l', pc) => l' = l /\ _release_lock le' = Some t /\ (pc <> Locked -> _released le' = false)
  | None => _release_lock le' = None
  end ->
  (forall rest, books (owner s) ((if holds (pcs s) le then [lease_unit le] else []) ++ rest) ->
                books o' ((if holds p' le' then [lease_unit le'] else []) ++ rest)) ->
  (forall l', (if decide (e = EvGiven l') then 1 else 0)%nat =
     if decide (l' = l) then if holds (pcs s) le then if holds p' le' then 0 else 1 else 0 else 0)%nat ->
  (holds p' le' = true -> holds (pcs s) le = true) ->
  (forall l', (if decide (e = EvReturned l') then 1 else 0)%nat =
     if decide (l' = l) then if _released le then 0 else if _released le' then 1 else 0 else 0)%nat ->
  (_released le = true -> _released le' = true) ->
  consistent (MkSys o' (<[l := le']> (leases s)) p') (es ++ [e]).
Proof.
  intros Hc Hl Ht Hp Hlk Hnew Hb Hg Hgm Hr Hrm.
  assert (Hlen : (l < length (leases s))%nat) by (by eapply lookup_lt_Some).
  pose proof (holds_frame s es t l p' Hc Hp Ht) as Hf. split; cbn [pcs owner leases].
  - intros t' l' pc' E. destruct (decide (t' = t)) as [->|Hne].
    + rewrite E in Hnew. destruct Hnew as (-> & ? & ?). exists le'. by rewrite list_lookup_insert_eq.
    + rewrite Hp in E by done. destruct (co_thread _ _ Hc _ _ _ E) as (x & Hx & Hk & ?).
      assert (l' <> l) by (intros ->; simplify_eq; destruct Hlk; congruence).
      exists x. by rewrite list_lookup_insert_ne.
  - intros i x t' Hx Hk. destruct (decide (i = l)) as [->|Hne].
    + rewrite list_lookup_insert_eq in Hx by done. simplify_eq. destruct (decide (t' = t)) as [->|Hne].
      * destruct (p' !! t) as [[l' pc]|]; [|congruence]. destruct Hnew as (-> & _). eauto.
      * destruct (p' !! t) as [[l' pc]|]; [destruct Hnew as (_ & ? & _)|]; congruence.
    + rewrite list_lookup_insert_ne in Hx by done. destruct (co_lock _ _ Hc _ _ _ Hx Hk) as [pc E].
      exists pc. rewrite Hp; [done|]. intros ->. by apply Ht in E.
  - destruct (held_split (pcs s) p' (leases s) l le le' Hl Hf) as (rest & E1 & E2).
    rewrite E2. apply Hb. rewrite <- E1. apply (co_books _ _ Hc).
  - intros i. unfold given_count. rewrite count_snoc. pose proof (co_given _ _ Hc i) as E.
    unfold given_count in E. rewrite E, Hg. destruct (decide (i = l)) as [->|Hne].
    + rewrite list_lookup_insert_eq, Hl by done.
      destruct (holds (pcs s) le), (holds p' le'); try done. by specialize (Hgm eq_refl).
    + rewrite list_lookup_insert_ne by done. destruct (leases s !! i) as [x|] eqn:Hx; [|done].
      rewrite (Hf i x) by done. by destruct (holds _ x).
  - intros i. unfold returned_count. rewrite count_snoc. pose proof (co_returned _ _ Hc i) as E.
    unfold returned_count in E. rewrite E, Hr. destruct (decide (i = l)) as [->|Hne].
    + rewrite list_lookup_insert_eq, Hl by done.
      destruct (_released le), (_released le'); try done. by specialize (Hrm eq_refl).
    + rewrite list_lookup_insert_ne by done. lia.
Qed.

(** Steps that leave leases and threads alone. *)
Lemma consistent_quiet s es o' e :
  consistent s es -> (forall l, books (owner s) l -> books o' l) ->
  (forall l, e <> EvGiven l /\ e <> EvReturned l) ->
  consistent (MkSys o' (leases s) (pcs s)) (es ++ [e]).
Proof.
  intros [H1 H2 H3 H4 H5] Hb He. split; cbn [pcs owner leases]; auto; intros i;
    unfold given_count, returned_count; rewrite count_snoc;
    rewrite decide_False by apply He; rewrite Nat.add_0_r; [apply H4|apply H5].
Qed.

(** A new lease, at the end of the heap. *)
Lemma consistent_acquire s es x o' :
  consistent s es -> take_unit x (owner s) = Ok (Some o') ->
  consistent (MkSys o' (leases s ++ [MkLease x false None]) (pcs s)) (es ++ [EvAcquired (length (leases s))]).
Proof.
  intros Hc Ht. pose proof Hc as [H1 H2 H3 H4 H5]. split; cbn [pcs owner leases].
  - intros t l pc E. destruct (H1 t l pc E) as (le & Hl & ?). exists le. split; [|done].
    by apply lookup_app_l_Some.
  - intros l le t [Hl|[? Hl]]%lookup_app_Some Hk; [eauto|].
    apply list_lookup_singleton_Some in Hl as [_ <-]. done.
  - unfold held. rewrite omap_app. cbn [omap list_omap holds _released _release_lock negb andb lease_unit].
    rewrite Permutation_app_comm. cbn [app]. eapply take_books; eauto.
  - intros l. unfold given_count. rewrite count_snoc, decide_False, Nat.add_0_r by done.
    unfold given_count in H4. rewrite H4, lookup_app. destruct (leases s !! l) as [le|]; [done|].
    destruct (_ !! _) as [le|] eqn:E; [|done]. by apply list_lookup_singleton_Some in E as [_ <-].
  - intros l. unfold returned_count. rewrite count_snoc, decide_False, Nat.add_0_r by done.
    unfold returned_count in H5. rewrite H5, lookup_app. destruct (leases s !! l) as [le|]; [done|].
    destruct (_ !! _) as [le|] eqn:E; [|done]. by apply list_lookup_singleton_Some in E as [_ <-].
Qed.

Lemma holds_owned p le t l pc :
  _released le = false -> _release_lock le = Some t -> p !! t = Some (l, pc) ->
  holds p le = bool_decide (pc <> Given).
Proof. intros E1 E2 E3. unfold holds. rewrite E1, E2, E3. by destruct pc. Qed.

(** The call of [_release_capacity] inside [release] never raises. *)
Lemma give_succeeds s es t l :
  consistent s es -> pcs s !! t = Some (l, Checked) ->
  exists le o, leases s !! l = Some le /\ give_unit (lease_unit le) (owner s) = Ok o.
Proof.
  intros Hc Ht. destruct (co_thread _ _ Hc _ _ _ Ht) as (le & Hl & Hk & Hr).
  assert (Hh : holds (pcs s) le = true).
  { rewrite (holds_owned _ _ t l Checked) by (done || by apply Hr). done. }
  destruct (held_split (pcs s) (pcs s) (leases s) l le le Hl) as (rest & E & _); [done|].
  rewrite Hh in E. pose proof (co_books _ _ Hc) as Hb. rewrite E in Hb.
  apply give_books in Hb as (o & Ho & _). eauto.
Qed.

Lemma consistent_release_step s es t l pc s' e :
  consistent s es -> pcs s !! t = Some (l, pc) -> step s t Continue = Some (s', e) -> consistent s' (es ++ [e]).
Proof.
  intros Hc Ht Hs. unfold step in Hs. rewrite Ht in Hs.
  destruct (co_thread _ _ Hc _ _ _ Ht) as (le & Hl & Hk & Hr). rewrite Hl in Hs. cbn [mbind option_bind] in Hs.
  assert (Hown : forall l' pc', pcs s !! t = Some (l', pc') -> l' = l) by (intros; congruence).
  destruct pc.
  - destruct (_released le) eqn:Er; simplify_eq.
    + assert (Hh : forall p k, holds p (MkLease (lease_unit le) true k) = false) by done.
      eapply (consistent_move s es t l le); eauto; try (by intros; rewrite lookup_delete_ne);
        rewrite ?lookup_delete_eq; cbn [set_lock _released _release_lock]; rewrite ?Er; try done;
        unfold holds; cbn; rewrite ?Er; cbn; try done; intros; by repeat case_decide.
    + rewrite <- (list_insert_id (leases s) l le Hl).
      assert (E1 : holds (pcs s) le = true) by (by rewrite (holds_owned _ _ t l Locked)).
      assert (E2 : holds (<[t:=(l, Checked)]> (pcs s)) le = true).
      { by rewrite (holds_owned _ _ t l Checked) by (done || by rewrite lookup_insert_eq). }
      eapply (consistent_move s es t l le); eauto; try (by intros; rewrite lookup_insert_ne);
        rewrite ?lookup_insert_eq, ?E1, ?E2, ?Er; try done; intros; by repeat case_decide.
  - specialize (Hr ltac:(done)). destruct (give_succeeds s es t l Hc Ht) as (le' & o & ? & Ho). simplify_eq.
    rewrite Ho in Hs. simplify_eq.
    assert (E1 : holds (pcs s) le = true) by (by rewrite (holds_owned _ _ t l Checked)).
    assert (E2 : holds (<[t:=(l, Given)]> (pcs s)) le = false).
    { by rewrite (holds_owned _ _ t l Given) by (done || by rewrite lookup_insert_eq). }
    rewrite <- (list_insert_id (leases s) l le Hl).
    eapply (consistent_move s es t l le); eauto; try (by intros; rewrite lookup_insert_ne);
      rewrite ?lookup_insert_eq, ?E1, ?E2, ?Hr; try done; try (by intros; repeat case_decide; simplify_eq).
    intros rest Hb. apply give_books in Hb as (o' & Ho' & ?). rewrite Ho in Ho'. by injection Ho' as <-.
  - specialize (Hr ltac:(done)). simplify_eq.
    assert (E1 : holds (pcs s) le = false) by (by rewrite (holds_owned _ _ t l Given)).
    eapply (consistent_move s es t l le); eauto; try (by intros; rewrite lookup_delete_ne);
      rewrite ?lookup_delete_eq, ?E1, ?Hr; cbn [set_released _released _release_lock]; try done;
      try (by intros; repeat case_decide; simplify_eq).
Qed.

Lemma consistent_step s es t a s' e : consistent s es -> step s t a = Some (s', e) -> consistent s' (es ++ [e]).
Proof.
  intros Hc Hs. destruct (pcs s !! t) as [[l pc]|] eqn:Ht.
  - destruct a; unfold step in Hs; rewrite Ht in Hs; try done.
    eapply consistent_release_step; eauto. unfold step. by rewrite Ht.
  - destruct a as [x|o|l|]; unfold step in Hs; rewrite Ht in Hs; try done.
    + destruct (take_unit x (owner s)) as [[o|]|e'] eqn:Et; simplify_eq.
      * by apply consistent_acquire.
      * destruct s' as [o ls p]. by apply (consistent_quiet (MkSys o ls p)).
      * destruct s' as [o ls p]. by apply (consistent_quiet (MkSys o ls p)).
    + apply bind_Some in Hs as ([o' r] & Ho & Hs). simplify_eq. apply consistent_quiet; [done| |by destruct r].
      intros. by eapply op_books.
    + apply bind_Some in Hs as (le & Hl & Hs). destruct (_release_lock le) eqn:Hk; [done|]. simplify_eq.
      assert (E : holds (<[t:=(l, Locked)]> (pcs s)) (set_lock (Some t) le) = holds (pcs s) le).
      { unfold holds. cbn. rewrite lookup_insert_eq, Hk. done. }
      eapply (consistent_move s es t l le); eauto; try congruence; try (by intros; rewrite lookup_insert_ne);
        rewrite ?lookup_insert_eq, ?E; cbn [set_lock _released _release_lock]; try done;
        intros; repeat case_decide; simplify_eq; by try destruct (holds (pcs s) le); try destruct (_released le).
Qed.

Lemma reachable_consistent o s es : books o [] -> reachable o s es -> consistent s es.
Proof.
  intros Ho. induction 1; [|by eapply consistent_step].
  split; cbn; intros; try done; by rewrite lookup_empty in *.
Qed.

End interleavings.

(** Steps a thread still has to take inside [release]. *)
Definition rank (p : gmap nat (nat * release_pc)) (t : nat) : nat :=
  match p !! t with Some (_, Locked) => 3 | Some (_, Checked) => 2 | Some (_, Given) => 1 | None => 0 end.

Section progress.
Context {O U Op : Type} {own : Owner O U Op}.
Implicit Types (s : sys O U).

Lemma step_other s t t' a s' e : step s t a = Some (s', e) -> t' <> t -> pcs s' !! t' = pcs s !! t'.
Proof.
  intros Hs Hne. unfold step in Hs. destruct a as [x|o|l|], (pcs s !! t) as [[l' pc]|]; try done.
  - by destruct (take_unit x (owner s)) as [[o|]|]; simplify_eq.
  - apply bind_Some in Hs as ([o' r] & ? & Hs). by simplify_eq.
  - apply bind_Some in Hs as (le & ? & Hs). destruct (_release_lock le); simplify_eq. cbn. by rewrite lookup_insert_ne.
  - apply bind_Some in Hs as (le & ? & Hs).
    destruct pc; [destruct (_released le)|destruct (give_unit _ _)|]; simplify_eq; cbn;
      by rewrite ?lookup_insert_ne, ?lookup_delete_ne.
Qed.

(** What every critical section of the owner keeps, every interleaving keeps. *)
Lemma reachable_owner (P : O -> Prop) o s es :
  (forall x a a', P a -> take_unit x a = Ok (Some a') -> P a') ->
  (forall x a a', P a -> give_unit x a = Ok a' -> P a') ->
  (forall op a a' r, P a -> run_op op a = Some (a', r) -> P a') ->
  P o -> reachable o s es -> P (owner s).
Proof.
  intros Ht Hg Hop Ho. induction 1 as [|s es t a s' e _ IH Hs]; [done|]. unfold step in Hs.
  destruct a as [x|op|l|], (pcs s !! t) as [[l' pc]|]; try done.
  - destruct (take_unit x (owner s)) as [[a|]|] eqn:E; simplify_eq; cbn; eauto.
  - apply bind_Some in Hs as ([a r] & ? & Hs). simplify_eq. cbn. eauto.
  - apply bind_Some in Hs as (le & ? & Hs). destruct (_release_lock le); by simplify_eq.
  - apply bind_Some in Hs as (le & ? & Hs).
    destruct pc; [destruct (_released le)|destruct (give_unit _ _) eqn:E|]; simplify_eq; cbn; eauto.
Qed.

Lemma continue_enabled s es t l pc :
  consistent s es -> pcs s !! t = Some (l, pc) ->
  exists s' e, step s t Continue = Some (s', e) /\ (rank (pcs s') t < rank (pcs s) t)%nat /\
    (pc = Checked -> e = EvGiven l) /\ (pc = Given -> e = EvReturned l).
Proof.
  intros Hc Ht. destruct (co_thread _ _ Hc _ _ _ Ht) as (le & Hl & _).
  assert (Hg : pc = Checked -> exists o, give_unit (lease_unit le) (owner s) = Ok o).
  { intros ->. destruct (give_succeeds _ _ _ _ Hc Ht) as (le' & o & ? & ?). simplify_eq. eauto. }
  unfold step, rank. rewrite Ht, Hl. cbn [mbind option_bind]. destruct pc.
  - destruct (_released le); eexists _, _; (split; [done|]); cbn; rewrite ?lookup_delete_eq, ?lookup_insert_eq;
      (split; [lia|done]).
  - destruct (Hg eq_refl) as [o ->]. eexists _, _. split; [done|]. cbn. rewrite lookup_insert_eq. split; [lia|done].
  - eexists _, _. split; [done|]. cbn. rewrite lookup_delete_eq. split; [lia|done].
Qed.

(** C39: each lease gives its capacity back at most once, whatever the
    interleaving: a lease that still holds its unit has given nothing back, one
    that does not has given it back once, and [release] has returned once
    exactly when the flag is up; the callback into the owner never raises, and
    a release of a released lease always does. *)
Theorem leases_given_back_once o s es :
  books o [] -> reachable o s es ->
  books (owner s) (held (pcs s) (leases s)) /\
  (forall l le, leases s !! l = Some le ->
     given_count l es = (if holds (pcs s) le then 0 else 1)%nat /\
     returned_count l es = (if _released le then 1 else 0)%nat) /\
  (forall t l, pcs s !! t = Some (l, Checked) -> exists s', step s t Continue = Some (s', EvGiven l)) /\
  (forall t l le, pcs s !! t = Some (l, Locked) -> leases s !! l = Some le -> _released le = true ->
     exists s', step s t Continue = Some (s', EvRaised already_released)).
Proof.
  intros Ho Hr. pose proof (reachable_consistent o s es Ho Hr) as Hc. split_and!.
  - apply (co_books _ _ Hc).
  - intros l le Hl. by rewrite (co_given _ _ Hc), (co_returned _ _ Hc), Hl.
  - intros t l Ht. destruct (continue_enabled _ _ _ _ _ Hc Ht) as (s' & e & ? & _ & He & _).
    exists s'. by rewrite <- He.
  - intros t l le Ht Hl Hrel. eexists. unfold step. rewrite Ht, Hl. cbn. by rewrite Hrel.
Qed.

(** Releases cannot deadlock: a thread inside [release] can always take its
    next step and leaves after at most three of its own, no step of another
    thread sets it back, and a thread waits for a lease's lock only while some
    thread is inside [release] of that lease. *)
Theorem releases_make_progress o s es :
  books o [] -> reachable o s es ->
  (forall t, is_Some (pcs s !! t) -> exists s' e, step s t Continue = Some (s', e) /\ (rank (pcs s') t < rank (pcs s) t <= 3)%nat) /\
  (forall t t' a s' e, step s t a = Some (s', e) -> t' <> t -> rank (pcs s') t' = rank (pcs s) t') /\
  (forall t l le, pcs s !! t = None -> leases s !! l = Some le -> step s t (Release l) = None ->
     exists t' pc, t' <> t /\ pcs s !! t' = Some (l, pc)).
Proof.
  intros Ho Hr. pose proof (reachable_consistent o s es Ho Hr) as Hc. split_and!.
  - intros t [[l pc] Ht]. destruct (continue_enabled _ _ _ _ _ Hc Ht) as (s' & e & Hs & ? & _).
    exists s', e. split; [done|]. split; [done|]. unfold rank. rewrite Ht. destruct pc; lia.
  - intros t t' a s' e Hs Hne. unfold rank. by rewrite (step_other _ _ _ _ _ _ Hs Hne).
  - intros t l le Ht Hl Hs. unfold step in Hs. rewrite Ht, Hl in Hs. cbn in Hs.
    destruct (_release_lock le) as [t'|] eqn:Hk; [|done].
    destruct (co_lock _ _ Hc _ _ _ Hl Hk) as [pc Hp]. exists t', pc. split; [congruence|done].
Qed.

End progress.

(** ** The two admissions as owners *)

Definition sumZ (l : list Z) : Z := foldr Z.add 0 l.

#[export] Instance sumZ_perm : Proper ((≡ₚ) ==> (=)) sumZ.
Proof. induction 1; unfold sumZ in *; cbn in *; lia. Qed.

Lemma sumZ_cons x l : sumZ (x :: l) = x + sumZ l.
Proof. reflexivity. Qed.
Lemma sumZ_nil : sumZ [] = 0.
Proof. reflexivity. Qed.
#[global] Arguments sumZ : simpl never.

Lemma sumZ_app l1 l2 : sumZ (l1 ++ l2) = sumZ l1 + sumZ l2.
Proof. induction l1; unfold sumZ in *; cbn in *; lia. Qed.

Lemma sumZ_insert {A} (f : A -> Z) l i x y :
  l !! i = Some x -> sumZ (f <$> <[i := y]> l) = sumZ (f <$> l) - f x + f y.
Proof.
  intros Hi. rewrite insert_take_drop by (by eapply lookup_lt_Some).
  rewrite <- (take_drop_middle l i x Hi) at 3. rewrite !fmap_app, !sumZ_app. cbn. rewrite !sumZ_cons. lia.
Qed.

Lemma sumZ_nonneg l : Forall (fun x => 0 <= x) l -> 0 <= sumZ l.
Proof. induction 1; unfold sumZ in *; cbn in *; lia. Qed.

Definition nq_books (s : NoQueueAdmission) (l : list unit) : Prop :=
  nq_active s = Z.of_nat (length l) /\ 1 <= _limit s /\ nq_active s <= _limit s.

#[export, refine] Instance NoQueue_owner : Owner NoQueueAdmission unit Empty_set := {|
  take_unit _ s := Ok (nq_try_acquire s);
  give_unit _ s := nq_release s;
  run_op (o : Empty_set) _ := match o with end;
  books := nq_books;
|}.
Proof.
  - intros s l l' E. unfold nq_books. by rewrite E.
  - unfold nq_books, nq_try_acquire. intros x s s' l (E & ? & ?) Ht.
    destruct (Z.geb_spec (nq_active s) (_limit s)); simplify_eq. cbn. lia.
  - unfold nq_books, nq_release. intros x s l (E & ? & ?). cbn [length] in E.
    replace (nq_active s <? 1) with false by lia. eexists. split; [done|]. cbn. lia.
  - done.
Defined.

Inductive pool_op :=
  | AcquireGrowing (weight : Z)
  | Grow (g : nat) (delta : Z)
  | ReleaseGrowing (g : nat).

(** The methods of [GrowingAdmissionLease] and their creation; [None]: no such lease. *)
Definition run_pool_op (o : pool_op) (p : WeightedPool) : option (WeightedPool * res bool) :=
  match o with
  | AcquireGrowing weight =>
      Some match w_try_acquire_growing weight (admission p) with
      | Raise e => (p, Raise e)
      | Ok None => (p, Ok false)
      | Ok (Some (a, g)) => (MkPool a (growing p ++ [g]), Ok true)
      end
  | Grow g delta =>
      lease ← growing p !! g;
      Some match _try_grow (admission p) lease delta with
      | Raise e => (p, Raise e)
      | Ok (a, lease', b) => (MkPool a (<[g := lease']> (growing p)), Ok b)
      end
  | ReleaseGrowing g =>
      lease ← growing p !! g;
      Some match _release_growing (admission p) lease with
      | Raise e => (p, Raise e)
      | Ok (a, lease') => (MkPool a (<[g := lease']> (growing p)), Ok true)
      end
  end.

Definition live (g : GrowingAdmissionLease) : Z := if g_released g then 0 else 1.

Record pool_books (p : WeightedPool) (l : list Z) : Prop := {
  pb_active : w_active (admission p) = Z.of_nat (length l) + sumZ (live <$> growing p);
  pb_retained : _retained_weight (admission p) = sumZ l + sumZ (_weight <$> growing p);
  pb_max : _retained_weight (admission p) <= _maximum_weight (admission p);
  pb_units : Forall (fun w => 0 <= w) l;
  pb_growing : Forall (fun g => 0 <= _weight g /\ (g_released g = true -> _weight g = 0)) (growing p);
}.

Lemma growing_nonneg gs :
  Forall (fun g => 0 <= _weight g /\ (g_released g = true -> _weight g = 0)) gs ->
  0 <= sumZ (_weight <$> gs) /\ 0 <= sumZ (live <$> gs).
Proof.
  intros Hg. split; apply sumZ_nonneg, Forall_fmap; (eapply Forall_impl; [exact Hg|]); intros g [? _]; cbn; [done|].
  unfold live. destruct (g_released g); lia.
Qed.

Lemma validate_weight_Ok s w x : _validate_weight s w = Ok x -> 0 <= w <= _maximum_weight s.
Proof. unfold _validate_weight. intros E%raise_if_Ok. lia. Qed.

(** Returning a unit that is out, of a plain or of a growing lease. *)
Lemma release_locked_ok a w :
  1 <= w_active a -> w <= _retained_weight a ->
  _release_locked w a = Ok (MkWeighted (_maximum_weight a) (_retained_weight a - w) (w_active a - 1)).
Proof.
  intros. unfold _release_locked. replace (w_active a <? 1) with false by lia.
  by replace (_retained_weight a <? w) with false by lia.
Qed.

Lemma growing_lookup_bound (f : GrowingAdmissionLease -> Z) gs g lease :
  Forall (fun g => 0 <= f g) gs -> gs !! g = Some lease -> f lease <= sumZ (f <$> gs).
Proof.
  intros Hg Hl. rewrite <- (take_drop_middle gs g lease Hl) in Hg. rewrite <- (take_drop_middle gs g lease Hl). rewrite fmap_app, sumZ_app.
  apply Forall_app in Hg as [H1 H2]. apply Forall_cons in H2 as [_ H2].
  assert (0 <= sumZ (f <$> take g gs)) by (by apply sumZ_nonneg, Forall_fmap).
  assert (0 <= sumZ (f <$> drop (S g) gs)) by (by apply sumZ_nonneg, Forall_fmap).
  cbn. rewrite sumZ_cons. lia.
Qed.

Lemma growing_release_books p l g lease :
  pool_books p l -> growing p !! g = Some lease -> g_released lease = false ->
  exists a, _release_growing (admission p) lease = Ok (a, MkGrowing 0 true) /\
            pool_books (MkPool a (<[g := MkGrowing 0 true]> (growing p))) l.
Proof.
  intros [A R M Un G] Hl Hr. pose proof (growing_nonneg _ G) as [? ?].
  pose proof (sumZ_nonneg _ Un).
  assert (_weight lease <= sumZ (_weight <$> growing p)).
  { eapply growing_lookup_bound; [|done]. eapply Forall_impl; [exact G|]. by intros ? [? _]. }
  assert (1 <= sumZ (live <$> growing p)).
  { transitivity (live lease); [unfold live; by rewrite Hr|]. eapply growing_lookup_bound; [|done].
    apply Forall_true. intros x. unfold live. destruct (g_released x); lia. }
  unfold _release_growing. rewrite Hr, release_locked_ok by lia. eexists. split; [done|].
  split; cbn [admission growing w_active _retained_weight _maximum_weight]; try done.
  - rewrite (sumZ_insert live _ _ lease) by done. unfold live at 2 3. rewrite Hr. cbn. lia.
  - rewrite (sumZ_insert _weight _ _ lease) by done. cbn. lia.
  - assert (0 <= _weight lease) by (by apply (Forall_lookup_1 _ _ _ _ G) in Hl as []). lia.
  - apply Forall_insert; [done|]. cbn. lia.
Qed.

Lemma growing_acquire_books p l w a g :
  pool_books p l -> w_try_acquire_growing w (admission p) = Ok (Some (a, g)) ->
  pool_books (MkPool a (growing p ++ [g])) l.
Proof.
  intros [A R M Un G] E. unfold w_try_acquire_growing in E. apply bind_Ok in E as (? & Hw%validate_weight_Ok & E).
  destruct (Z.gtb_spec (_retained_weight (admission p) + w) (_maximum_weight (admission p))); simplify_eq.
  split; cbn [admission growing w_active _retained_weight _maximum_weight]; try done;
    rewrite ?fmap_app, ?sumZ_app; cbn; rewrite ?sumZ_cons, ?sumZ_nil; cbn; try lia.
  apply Forall_app. split; [done|]. constructor; [|constructor]. cbn. lia.
Qed.

Lemma grow_books p l g lease delta a lease' b :
  pool_books p l -> growing p !! g = Some lease -> _try_grow (admission p) lease delta = Ok (a, lease', b) ->
  pool_books (MkPool a (<[g := lease']> (growing p))) l.
Proof.
  intros [A R M Un G] Hl E. unfold _try_grow in E. apply bind_Ok in E as (? & Hw%validate_weight_Ok & E).
  apply bind_Ok in E as (? & Hr%raise_if_Ok & E).
  destruct (Z.gtb_spec (_retained_weight (admission p) + delta) (_maximum_weight (admission p))); simplify_eq.
  - rewrite list_insert_id by done. by split.
  - pose proof (Forall_lookup_1 _ _ _ _ G Hl) as [? _].
    split; cbn [admission growing w_active _retained_weight _maximum_weight]; try done.
    + rewrite (sumZ_insert live _ _ lease) by done. unfold live at 2 3. cbn. destruct (g_released lease); lia.
    + rewrite (sumZ_insert _weight _ _ lease) by done. cbn. lia.
    + apply Forall_insert; [done|]. cbn. split; [lia|congruence].
Qed.

#[export, refine] Instance Weighted_owner : Owner WeightedPool Z pool_op := {|
  take_unit w p := o ← w_try_acquire w (admission p); Ok (option_map (fun a => MkPool a (growing p)) o);
  give_unit w p := a ← w_release w (admission p); Ok (MkPool a (growing p));
  run_op := run_pool_op;
  books := pool_books;
|}.
Proof.
  - intros p l l' E. split; intros [A R M Un G]; split; try done; by rewrite ?E, <- ?E in *.
  - intros w p p' l [A R M Un G] E. apply bind_Ok in E as (o & E & E'). simplify_eq.
    destruct o as [a|]; simplify_eq/=. unfold w_try_acquire in E. apply bind_Ok in E as (? & Hw%validate_weight_Ok & E).
    destruct (Z.gtb_spec (_retained_weight (admission p) + w) (_maximum_weight (admission p))); simplify_eq.
    split; cbn; rewrite ?sumZ_cons; try done; try lia. constructor; [lia|done].
  - intros w p l [A R M Un G]. pose proof (growing_nonneg _ G) as [? ?]. apply Forall_cons in Un as [? Un].
    pose proof (sumZ_nonneg _ Un). cbn in A, R. rewrite sumZ_cons in R. unfold w_release. rewrite release_locked_ok by lia.
    eexists. split; [done|]. split; cbn; try done; lia.
  - intros [w|g d|g] p p' r l Hb E; unfold run_pool_op in E.
    + destruct (w_try_acquire_growing w (admission p)) as [[[a g]|]|e] eqn:Ew; simplify_eq; try done.
      by eapply growing_acquire_books.
    + apply bind_Some in E as (lease & Hl & E).
      destruct (_try_grow _ _ _) as [[[a lease'] b]|] eqn:Ew; simplify_eq; [by eapply grow_books|done].
    + apply bind_Some in E as (lease & Hl & E). destruct (g_released lease) eqn:Hr.
      * unfold _release_growing in E. rewrite Hr in E. cbn in E. by simplify_eq.
      * destruct (growing_release_books p l g lease) as (a & Ea & ?); try done. rewrite Ea in E. by simplify_eq.
Defined.

Lemma pool_take_maximum maximum w (a a' : WeightedPool) :
  _maximum_weight (admission a) = maximum -> take_unit w a = Ok (Some a') -> _maximum_weight (admission a') = maximum.
Proof.
  intros Ha (o & (? & _ & Hw)%bind_Ok & Ho)%bind_Ok. destruct o as [b|]; simplify_eq/=.
  by destruct (_ >? _); simplify_eq.
Qed.

Lemma pool_give_maximum maximum w (a a' : WeightedPool) :
  _maximum_weight (admission a) = maximum -> give_unit w a = Ok a' -> _maximum_weight (admission a') = maximum.
Proof. intros Ha (o & (? & _ & Hw)%bind_Ok & Ho)%bind_Ok. by simplify_eq. Qed.

Lemma pool_op_maximum maximum o (a a' : WeightedPool) r :
  _maximum_weight (admission a) = maximum -> run_op o a = Some (a', r) -> _maximum_weight (admission a') = maximum.
Proof.
  intros Ha Ho. cbn in Ho. destruct o as [w|g d|g]; unfold run_pool_op in Ho; [|apply bind_Some in Ho as (le & _ & Ho)..].
  - destruct (w_try_acquire_growing _ _) as [[[b g]|]|] eqn:E; simplify_eq; try done.
    apply bind_Ok in E as (? & _ & E). cbv zeta in E. by destruct (_ >? _); simplify_eq.
  - destruct (_try_grow _ _ _) as [[[b le'] c]|] eqn:E; simplify_eq; [|done].
    apply bind_Ok in E as (? & _ & (? & _ & E)%bind_Ok). cbv zeta in E. by destruct (_ >? _); simplify_eq.
  - destruct (_release_growing _ _) as [[b le']|] eqn:E; simplify_eq; [|done].
    apply bind_Ok in E as (? & _ & (? & (? & _ & E')%bind_Ok & E)%bind_Ok). by simplify_eq.
Qed.

(** A no-queue admission under any interleaving: its counter is the number
    of leases that hold a unit, never above the limit, and an acquisition is
    refused exactly when the limit is reached. *)
Theorem no_queue_capacity limit o s es :
  NoQueueAdmission_init limit = Ok o -> reachable o s es ->
  nq_active (owner s) = Z.of_nat (length (held (pcs s) (leases s))) /\
  0 <= nq_active (owner s) <= limit /\
  (nq_try_acquire (owner s) = None <-> Z.of_nat (length (held (pcs s) (leases s))) = limit).
Proof.
  intros Ho Hr. apply bind_Ok in Ho as (? & Hl%raise_if_Ok & Ho). simplify_eq.
  assert (Hb : books (MkNoQueue limit 0) []) by (cbn; unfold nq_books; cbn; lia).
  pose proof (co_books _ _ (reachable_consistent _ _ _ Hb Hr)) as (A & B & C).
  assert (E : _limit (owner s) = limit).
  { refine (reachable_owner (fun a => _limit a = limit) _ s es _ _ _ _ Hr); [| | |done].
    - intros ? a a' Ha Ht. cbn in Ht. unfold nq_try_acquire in Ht. by destruct (_ >=? _); simplify_eq.
    - intros ? a a' Ha (? & ? & Hg)%bind_Ok. by simplify_eq.
    - done. }
  rewrite E in *. unfold nq_try_acquire. rewrite E.
  destruct (Z.geb_spec (nq_active (owner s)) limit); split_and!; try lia; split; intros; (done || lia).
Qed.

(** A weighted admission under any interleaving of plain and growing leases:
    the retained weight is the sum of what the leases hold, never above the
    maximum, the counter is the number of leases out, and releasing an
    unreleased growing lease always returns its whole weight. *)
Theorem weighted_capacity maximum a s es :
  WeightedNoQueueAdmission_init maximum = Ok a -> reachable (MkPool a []) s es ->
  let p := owner s in
  _retained_weight (admission p) = sumZ (held (pcs s) (leases s)) + sumZ (_weight <$> growing p) /\
  0 <= _retained_weight (admission p) <= maximum /\
  w_active (admission p) = Z.of_nat (length (held (pcs s) (leases s))) + sumZ (live <$> growing p) /\
  (forall g lease, growing p !! g = Some lease -> g_released lease = false ->
     exists a', _release_growing (admission p) lease = Ok (a', MkGrowing 0 true) /\
       _retained_weight a' = _retained_weight (admission p) - _weight lease).
Proof.
  intros Ha Hr p. apply bind_Ok in Ha as (? & Hl%raise_if_Ok & Ha). simplify_eq.
  assert (Hb : books (MkPool (MkWeighted maximum 0 0) []) []) by (cbn; split; cbn; done || lia).
  pose proof (co_books _ _ (reachable_consistent _ _ _ Hb Hr)) as Hp. change (pool_books p (held (pcs s) (leases s))) in Hp.
  assert (E : _maximum_weight (admission p) = maximum).
  { refine (reachable_owner (fun a => _maximum_weight (admission a) = maximum) _ s es _ _ _ _ Hr);
      [exact (pool_take_maximum maximum)|exact (pool_give_maximum maximum)|exact (pool_op_maximum maximum)|done]. }
  pose proof Hp as [A R M Un G]. pose proof (growing_nonneg _ G) as [? ?]. pose proof (sumZ_nonneg _ Un).
  split_and!; [done|lia|lia|done|]. intros g lease Hg Hrel.
  destruct (growing_release_books p _ g lease Hp Hg Hrel) as (a' & Ea & _). exists a'. split; [done|].
  unfold _release_growing in Ea. rewrite Hrel in Ea. apply bind_Ok in Ea as (? & _ & Ea).
  apply bind_Ok in Ea as (? & (? & _ & Er)%bind_Ok & Ea). by simplify_eq.
Qed.

(** ** A race: two threads release the same lease *)

Lemma run_reachable {O U Op} {own : Owner O U Op} o s es sched s' es' :
  reachable o s es -> run s sched = Some (s', es') -> reachable o s' (es ++ es').
Proof.
  revert s es es'. induction sched as [|[t a] rest IH]; intros s es es' Hr Hs; cbn in Hs.
  - simplify_eq. by rewrite app_nil_r.
  - apply bind_Some in Hs as ([s1 e] & H1 & Hs). apply bind_Some in Hs as ([s2 es2] & H2 & Hs). simplify_eq.
    replace (es ++ e :: es2) with ((es ++ [e]) ++ es2) by (by rewrite <- app_assoc).
    eapply IH; [|done]. by econstructor.
Qed.

Definition race : list (nat * action unit Empty_set) :=
  [(1%nat, Acquire tt); (2%nat, Acquire tt); (1%nat, Release 0%nat); (1%nat, Continue); (1%nat, Continue);
   (1%nat, Continue); (2%nat, Release 0%nat); (2%nat, Continue)].

Definition race_start : sys NoQueueAdmission unit := MkSys (MkNoQueue 1 0) [] ∅.
Definition race_end : option (sys NoQueueAdmission unit * list event) := run race_start race.

Example race_outcome : snd <$> race_end =
  Some [EvAcquired 0%nat; EvRefused; EvTau; EvTau; EvGiven 0%nat; EvReturned 0%nat; EvTau; EvRaised already_released].
Proof. vm_compute. reflexivity. Qed.

(** The state in the middle of the first release. *)
Definition race_mid_events : list event := [EvAcquired 0%nat; EvRefused; EvTau; EvTau; EvGiven 0%nat].
Definition race_mid : sys NoQueueAdmission unit :=
  MkSys (MkNoQueue 1 0) [MkLease tt false (Some 1%nat)] {[ 1%nat := (0%nat, Given) ]}.

Lemma race_mid_reachable : reachable (MkNoQueue 1 0) race_mid race_mid_events.
Proof.
  apply (run_reachable (MkNoQueue 1 0) race_start [] (take 5 race) race_mid race_mid_events); [constructor|].
  vm_compute. reflexivity.
Qed.

Lemma race_books : books (MkNoQueue 1 0) [].
Proof. split; cbn; lia. Qed.

Lemma leases_given_back_once_witness :
  given_count 0 race_mid_events = 1%nat /\ returned_count 0 race_mid_events = 0%nat.
Proof.
  exact (proj1 (proj2 (leases_given_back_once (MkNoQueue 1 0) race_mid race_mid_events race_books race_mid_reachable))
           0%nat (MkLease tt false (Some 1%nat)) eq_refl).
Defined.

Lemma releases_make_progress_witness :
  exists s' e, step race_mid 1%nat (Continue (Op := Empty_set)) = Some (s', e) /\
    (rank (pcs s') 1 < rank (pcs race_mid) 1 <= 3)%nat.
Proof.
  apply (proj1 (releases_make_progress (MkNoQueue 1 0) race_mid race_mid_events race_books race_mid_reachable)).
  by eexists.
Defined.

Lemma no_queue_capacity_witness :
  NoQueueAdmission_init 1 = Ok (MkNoQueue 1 0) /\ 0 <= nq_active (owner race_mid) <= 1.
Proof.
  split; [reflexivity|].
  apply (no_queue_capacity 1 (MkNoQueue 1 0) race_mid race_mid_events eq_refl race_mid_reachable).
Defined.

Definition growth : list (nat * action Z pool_op) :=
  [(1%nat, Acquire 4); (2%nat, Operate (AcquireGrowing 1)); (2%nat, Operate (Grow 0 5)); (2%nat, Operate (Grow 0 6));
   (1%nat, Release 0%nat)].

Definition growth_events : list event := [EvAcquired 0%nat; EvOperated true; EvOperated true; EvOperated false; EvTau].
Definition growth_end : sys WeightedPool Z :=
  MkSys (MkPool (MkWeighted 10 10 2) [MkGrowing 6 false]) [MkLease 4 false (Some 1%nat)] {[ 1%nat := (0%nat, Locked) ]}.

Lemma growth_reachable : reachable (MkPool (MkWeighted 10 0 0) []) growth_end growth_events.
Proof.
  apply (run_reachable (MkPool (MkWeighted 10 0 0) []) (MkSys (MkPool (MkWeighted 10 0 0) []) [] ∅) [] growth growth_end
           growth_events); [constructor|].
  vm_compute. reflexivity.
Qed.

Lemma weighted_capacity_witness :
  WeightedNoQueueAdmission_init 10 = Ok (MkWeighted 10 0 0) /\
  _retained_weight (admission (owner growth_end)) = sumZ [4] + sumZ [6].
Proof.
  split; [reflexivity|].
  apply (weighted_capacity 10 (MkWeighted 10 0 0) growth_end growth_events eq_refl growth_reachable).
Defined.
