(* ===== verification/Instants.v ===== *)
(** * Instants

    A timezone-aware [datetime] is the instant it denotes, in microseconds
    since the epoch: comparison and equality of aware values only look at the
    instant, and [astimezone(UTC)] keeps it.  A [now] argument may be naive.
    Adding a duration raises [OverflowError] past the last representable
    instant. *)

From stdpp Require Import base gmap sets list sorting strings.
From Stdlib Require Import ZArith Lia.
From S2P Require Import Prelude Text.

Inductive pydatetime := Naive | Aware (t : Z).

Definition SECOND : Z := 1000000.
(** 9999-12-31T23:59:59.999999Z. *)
Definition DATETIME_MAX : Z := 253402300799999999.

(** [t + timedelta(seconds=s)]. *)
Definition add_seconds (t s : Z) : res Z :=
  if t + s * SECOND >? DATETIME_MAX then Raise OverflowError else Ok (t + s * SECOND).

(** [str(n).zfill(width)] for a non-negative [n] below [10 ^ width]. *)
Fixpoint digits (width : nat) (n : Z) : pystr :=
  match width with
  | O => []
  | S w => digits w (n / 10) ++ [48 + n mod 10]
  end.

(** Year, month and day of a day count since 1970-01-01, in the proleptic
    Gregorian calendar; the era starts on 0000-03-01. *)
Definition civil_from_days (d : Z) : Z * Z * Z :=
  let z := d + 719468 in
  let era := z / 146097 in
  let doe := z mod 146097 in
  let yoe := (doe - doe / 1460 + doe / 36524 - doe / 146096) / 365 in
  let doy := doe - (365 * yoe + yoe / 4 - yoe / 100) in
  let mp := (5 * doy + 2) / 153 in
  let m := if mp <? 10 then mp + 3 else mp - 9 in
  (yoe + era * 400 + (if m <=? 2 then 1 else 0), m, doy - (153 * mp + 2) / 5 + 1).

(** [value.astimezone(UTC).isoformat(timespec="milliseconds").replace("+00:00", "Z")]. *)
Definition isoformat_ms (t : Z) : pystr :=
  let ms := t / 1000 in
  let day := ms / 86400000 in
  let s := ms mod 86400000 in
  let '(y, m, d) := civil_from_days day in
  digits 4 y ++ [45] ++ digits 2 m ++ [45] ++ digits 2 d ++ [84] ++ digits 2 (s / 3600000) ++ [58] ++
  digits 2 (s / 60000 mod 60) ++ [58] ++ digits 2 (s / 1000 mod 60) ++ [46] ++ digits 3 (s mod 1000) ++ [90].
#[global] Arguments isoformat_ms : simpl never.

Example isoformat_epoch : isoformat_ms 1767225599123456 = u "2025-12-31T23:59:59.123Z".
Proof. vm_compute. reflexivity. Qed.
Example isoformat_leap : isoformat_ms 951782400000000 = u "2000-02-29T00:00:00.000Z".
Proof. vm_compute. reflexivity. Qed.

Lemma digits_small n z c : c ∈ digits n z -> 48 <= c <= 57.
Proof.
  revert z. induction n as [|n IH]; intros z; cbn [digits]; [set_solver|].
  intros [Hc%IH|Hc%list_elem_of_singleton]%elem_of_app; [done|]. pose proof (Z.mod_pos_bound z 10 ltac:(lia)). lia.
Qed.

Lemma isoformat_scalar t : is_unicode_scalar_string (isoformat_ms t) = true.
Proof.
  apply scalar_of_small. unfold isoformat_ms. destruct (civil_from_days _) as [[y m] d]. intros c Hc.
  repeat (apply elem_of_app in Hc as [Hc|Hc]; [try (apply digits_small in Hc; lia); try (apply list_elem_of_singleton in Hc; lia)|]).
  apply list_elem_of_singleton in Hc. lia.
Qed.

(** The inverse of [civil_from_days]. *)
Definition days_from_civil (y m d : Z) : Z :=
  let y := if m <=? 2 then y - 1 else y in
  let era := y / 400 in
  let yoe := y mod 400 in
  let doy := (153 * (if 2 <? m then m - 3 else m + 9) + 2) / 5 + d - 1 in
  era * 146097 + (yoe * 365 + yoe / 4 - yoe / 100 + doy) - 719468.

Definition is_leap (y : Z) : bool := (y mod 4 =? 0) && (negb (y mod 100 =? 0) || (y mod 400 =? 0)).

Definition days_in_month (y m : Z) : Z :=
  if m =? 2 then (if is_leap y then 29 else 28)
  else if (m =? 4) || (m =? 6) || (m =? 9) || (m =? 11) then 30 else 31.

(** [datetime(y, m, d, hour, minute, second, us, tzinfo=UTC)]. *)
Definition datetime_utc (y m d hour minute second us : Z) : res Z :=
  if (1 <=? y) && (y <=? 9999) && (1 <=? m) && (m <=? 12) && (1 <=? d) && (d <=? days_in_month y m) &&
     (0 <=? hour) && (hour <=? 23) && (0 <=? minute) && (minute <=? 59) && (0 <=? second) && (second <=? 59)
  then Ok ((((days_from_civil y m d * 24 + hour) * 60 + minute) * 60 + second) * SECOND + us)
  else Raise (ValueError []).
