(* ===== verification/IsoTime.v ===== *)
(** * Datetimes and their ISO texts

    An aware [datetime] with its offset from UTC: comparisons look at the
    instant, [isoformat] at the local time and the offset.  [fromisoformat]
    reads every text [isoformat] writes back; what the library answers on any
    other text (week dates, compact dates, other separators) is the class
    [OtherIsoTexts], of which nothing is assumed. *)

From stdpp Require Import base gmap sets list sorting strings.
From Stdlib Require Import ZArith Lia.
From S2P Require Import Prelude Text Instants.

(** An aware [datetime]: microseconds since the epoch, microseconds east of
    UTC. *)
Record moment := { instant : Z; utc_offset : Z }.
#[export] Instance moment_eq_dec : EqDecision moment.
Proof. solve_decision. Defined.

Definition DAY : Z := 86400000000.
(** 0001-01-01T00:00:00. *)
Definition DATETIME_MIN : Z := -62135596800000000.

(** [datetime] keeps the local time between the years 1 and 9999 and the
    offset strictly within a day. *)
Definition moment_ok (m : moment) : bool :=
  (DATETIME_MIN <=? instant m + utc_offset m) && (instant m + utc_offset m <=? DATETIME_MAX) &&
  (- DAY <? utc_offset m) && (utc_offset m <? DAY).

(** [a == b], [a <= b] of aware values. *)
Definition same_instant (a b : moment) : bool := instant a =? instant b.

Definition clock_text (us : Z) : pystr :=
  digits 2 (us / 3600000000) ++ [58] ++ digits 2 (us / 60000000 mod 60) ++ [58] ++ digits 2 (us / 1000000 mod 60).

Definition fraction_text (us : Z) : pystr := if us mod 1000000 =? 0 then [] else [46] ++ digits 6 (us mod 1000000).

Definition offset_text (offset : Z) : pystr :=
  let a := Z.abs offset in
  [if offset <? 0 then 45 else 43] ++ digits 2 (a / 3600000000) ++ [58] ++ digits 2 (a / 60000000 mod 60) ++
  (if a mod 60000000 =? 0 then [] else [58] ++ digits 2 (a / 1000000 mod 60) ++ fraction_text a).

(** [value.isoformat()]. *)
Definition isoformat (value : moment) : pystr :=
  let local := instant value + utc_offset value in
  let '(y, m, d) := civil_from_days (local / DAY) in
  digits 4 y ++ [45] ++ digits 2 m ++ [45] ++ digits 2 d ++ [84] ++ clock_text (local mod DAY) ++ fraction_text (local mod DAY) ++
  offset_text (utc_offset value).

Example isoformat_offset : isoformat {| instant := 1767225599123456; utc_offset := -12600000000 |} = u "2025-12-31T20:29:59.123456-03:30".
Proof. vm_compute. reflexivity. Qed.
Example isoformat_whole : isoformat {| instant := 951782400000000; utc_offset := 0 |} = u "2000-02-29T00:00:00+00:00".
Proof. vm_compute. reflexivity. Qed.

(** [value.astimezone(UTC)]. *)
Definition astimezone_utc (value : moment) : res moment :=
  raise_if (negb ((DATETIME_MIN <=? instant value) && (instant value <=? DATETIME_MAX))) OverflowError ;;
  Ok {| instant := instant value; utc_offset := 0 |}.

(** ** Reading *)

Definition number (l : list Z) : Z := foldl (fun n c => n * 10 + (c - 48)) 0 l.

(** The numbers at the places where [isoformat] writes them. *)
Definition read_fraction (s : pystr) : Z * pystr :=
  match s with 46 :: r => (number (take 6 r), drop 6 r) | _ => (0, s) end.

Definition read_offset (s : pystr) : option Z :=
  match s with
  | sign :: h1 :: h2 :: _ :: m1 :: m2 :: r =>
      let '(seconds, r') := match r with _ :: s1 :: s2 :: r' => (number [s1; s2], r') | _ => (0, []) end in
      let a := (number [h1; h2] * 3600 + number [m1; m2] * 60 + seconds) * SECOND + fst (read_fraction r') in
      Some (if sign =? 45 then - a else a)
  | _ => None
  end.

Definition read_moment (s : pystr) : option moment :=
  match s with
  | y1 :: y2 :: y3 :: y4 :: _ :: m1 :: m2 :: _ :: d1 :: d2 :: _ :: h1 :: h2 :: _ :: i1 :: i2 :: _ :: s1 :: s2 :: r =>
      let '(us, r') := read_fraction r in
      offset ← read_offset r';
      let local := days_from_civil (number [y1; y2; y3; y4]) (number [m1; m2]) (number [d1; d2]) * DAY +
                   ((number [h1; h2] * 60 + number [i1; i2]) * 60 + number [s1; s2]) * SECOND + us in
      Some {| instant := local - offset; utc_offset := offset |}
  | _ => None
  end.

(** A parsed text: without an offset it is naive; [None] is [ValueError]. *)
Inductive iso_value := IsoNaive | IsoAware (value : moment).

Class OtherIsoTexts := other_iso_text : pystr -> option iso_value.

(** [datetime.fromisoformat(text)]. *)
Definition fromisoformat `{OtherIsoTexts} (text : pystr) : option iso_value :=
  match read_moment text with
  | Some m => if moment_ok m && bool_decide (isoformat m = text) then Some (IsoAware m) else other_iso_text text
  | None => other_iso_text text
  end.

(** ** The round trip *)

Ltac euclid := Z.to_euclidean_division_equations; lia.

Lemma civil_parts d : let '(y, m, dd) := civil_from_days d in
  let z := d + 719468 in let era := z / 146097 in let doe := z mod 146097 in
  exists yoe doy mp, 0 <= yoe < 400 /\ 0 <= doy <= 365 /\ 0 <= mp <= 11 /\
    doe = 365 * yoe + yoe / 4 - yoe / 100 + doy /\ m = (if mp <? 10 then mp + 3 else mp - 9) /\
    y = yoe + era * 400 + (if m <=? 2 then 1 else 0) /\ dd = doy - (153 * mp + 2) / 5 + 1 /\ mp = (5 * doy + 2) / 153.
Proof.
  unfold civil_from_days. set (doe := (d + 719468) mod 146097). assert (Hd : 0 <= doe < 146097) by (apply Z.mod_pos_bound; lia). clearbody doe.
  set (yoe := (doe - doe / 1460 + doe / 36524 - doe / 146096) / 365).
  assert (Hy : 0 <= yoe < 400) by (subst yoe; euclid).
  set (doy := doe - (365 * yoe + yoe / 4 - yoe / 100)).
  assert (Hdoy : 0 <= doy <= 365) by (subst doy yoe; euclid).
  exists yoe, doy, ((5 * doy + 2) / 153). split_and!; try done; try lia; try (clearbody doy; euclid).
Qed.

Lemma civil_inverse d : let '(y, m, dd) := civil_from_days d in days_from_civil y m dd = d.
Proof.
  pose proof (civil_parts d) as Hp. destruct (civil_from_days d) as [[y m] dd]. destruct Hp as (yoe & doy & mp & Hy & Hdoy & Hmp & Hdoe & Em & Ey & Ed & Emp).
  unfold days_from_civil.
  assert (Eyy : (if m <=? 2 then y - 1 else y) = yoe + (d + 719468) / 146097 * 400) by (destruct (m <=? 2); lia). rewrite Eyy.
  rewrite Z.div_add, Z.mod_add, Z.div_small, Z.mod_small by lia.
  assert (Emm : (if 2 <? m then m - 3 else m + 9) = mp) by (subst m; destruct (mp <? 10) eqn:E10; [apply Z.ltb_lt in E10|apply Z.ltb_ge in E10]; destruct (2 <? _) eqn:E; [apply Z.ltb_lt in E|apply Z.ltb_ge in E|apply Z.ltb_lt in E|apply Z.ltb_ge in E]; lia).
  rewrite Emm. pose proof (Z.div_mod (d + 719468) 146097 ltac:(lia)). lia.
Qed.

Lemma civil_bounds d : -719162 <= d <= 2932896 -> let '(y, m, dd) := civil_from_days d in 0 <= y < 10000 /\ 0 <= m < 100 /\ 0 <= dd < 100.
Proof.
  intros Hd. pose proof (civil_parts d) as Hp. destruct (civil_from_days d) as [[y m] dd]. destruct Hp as (yoe & doy & mp & Hy & Hdoy & Hmp & Hdoe & Em & Ey & Ed & Emp).
  assert (Hm : 1 <= m <= 12) by (destruct (mp <? 10) eqn:E10; [apply Z.ltb_lt in E10|apply Z.ltb_ge in E10]; lia). split_and!; try lia; try (clear -Hdoy Emp Ed; euclid).
  all: destruct (m <=? 2) eqn:E2; [apply Z.leb_le in E2|apply Z.leb_gt in E2]; try (clear -Hd Ey Hy; euclid).
  assert (10 <= mp) by (destruct (mp <? 10) eqn:E10; [apply Z.ltb_lt in E10|apply Z.ltb_ge in E10]; lia). clear -Hd Ey Hy H Hdoe Emp Hdoy. euclid.
Qed.

Lemma number_2 n : 0 <= n < 100 -> number (digits 2 n) = n.
Proof. intros Hn. unfold number. cbn -[Z.mul Z.add Z.sub Z.div Z.modulo]. euclid. Qed.

Lemma number_4 n : 0 <= n < 10000 -> number (digits 4 n) = n.
Proof. intros Hn. unfold number. cbn -[Z.mul Z.add Z.sub Z.div Z.modulo]. euclid. Qed.

Lemma digits_6 n : 0 <= n < 1000000 -> number (digits 6 n) = n.
Proof.
  intros Hn. change 6%nat with (4 + 2)%nat. unfold number. cbn -[Z.mul Z.add Z.sub Z.div Z.modulo].
  rewrite !Z.div_div by lia. cbn [Z.mul]. euclid.
Qed.

Lemma digits_length w n : length (digits w n) = w.
Proof. revert n. induction w as [|w IH]; intros n; [done|]. cbn [digits]. rewrite length_app, IH. cbn. lia. Qed.

(** The fraction is read, and what follows it is left. *)
Lemma fraction_read us r : (match r with 46 :: _ => False | _ => True end) -> read_fraction (fraction_text us ++ r) = (us mod 1000000, r).
Proof.
  intros Hr. unfold fraction_text. destruct (us mod 1000000 =? 0) eqn:E.
  - apply Z.eqb_eq in E. rewrite E. cbn [app]. unfold read_fraction. repeat case_match; done.
  - change (([46] ++ digits 6 (us mod 1000000)) ++ r) with (46 :: digits 6 (us mod 1000000) ++ r). cbn [read_fraction].
    rewrite take_app_length', drop_app_length' by (by rewrite digits_length). rewrite digits_6; [done|]. apply Z.mod_pos_bound. lia.
Qed.

Lemma offset_read offset : - DAY < offset < DAY -> read_offset (offset_text offset) = Some offset.
Proof.
  unfold DAY. intros Ho. unfold offset_text. set (a := Z.abs offset). assert (Ha : 0 <= a < 86400000000) by lia.
  assert (Es : (if (if offset <? 0 then 45 else 43) =? 45 then - a else a) = offset) by (destruct (offset <? 0) eqn:E; [apply Z.ltb_lt in E|apply Z.ltb_ge in E]; cbn; lia).
  assert (Eh : 0 <= a / 3600000000 < 100) by (clear Es; euclid). assert (Em : 0 <= a / 60000000 mod 60 < 100) by (pose proof (Z.mod_pos_bound (a / 60000000) 60); lia).
  assert (Ess : 0 <= a / 1000000 mod 60 < 100) by (pose proof (Z.mod_pos_bound (a / 1000000) 60); lia).
  pose proof (number_2 _ Eh) as Nh. pose proof (number_2 _ Em) as Nm. pose proof (number_2 _ Ess) as Ns. cbn [digits app] in Nh, Nm, Ns |- *.
  unfold read_offset. destruct (a mod 60000000 =? 0) eqn:E.
  - apply Z.eqb_eq in E. rewrite Nh, Nm. cbn [fst read_fraction]. unfold SECOND.
    replace ((a / 3600000000 * 3600 + a / 60000000 mod 60 * 60 + 0) * 1000000 + 0) with a by (clear -E Ha; euclid). f_equal. exact Es.
  - cbn [app]. rewrite Nh, Nm, Ns. rewrite <- (app_nil_r (fraction_text a)), fraction_read by done. cbn [fst]. unfold SECOND.
    replace ((a / 3600000000 * 3600 + a / 60000000 mod 60 * 60 + a / 1000000 mod 60) * 1000000 + a mod 1000000) with a by (clear -Ha; euclid). f_equal. exact Es.
Qed.

Lemma moment_read m : moment_ok m = true -> read_moment (isoformat m) = Some m.
Proof.
  unfold moment_ok. rewrite !andb_true_iff', !Z.leb_le, !Z.ltb_lt. intros (((H1 & H2) & H3) & H4). unfold isoformat.
  set (local := instant m + utc_offset m) in *. set (us := local mod DAY). pose proof (Z.mod_pos_bound local DAY ltac:(done)) as Hus. fold us in Hus.
  assert (Hd : -719162 <= local / DAY <= 2932896) by (unfold DAY, DATETIME_MIN, DATETIME_MAX in *; clear -H1 H2; euclid).
  pose proof (civil_bounds _ Hd) as Hb. pose proof (civil_inverse (local / DAY)) as Ei. destruct (civil_from_days (local / DAY)) as [[y mo] d]. destruct Hb as (Hy & Hmo & Hdd).
  pose proof (number_4 _ Hy) as Ny. pose proof (number_2 _ Hmo) as Nmo. pose proof (number_2 _ Hdd) as Nd. unfold DAY in Hus.
  assert (Eh : 0 <= us / 3600000000 < 100) by (clear -Hus; euclid). assert (Em : 0 <= us / 60000000 mod 60 < 100) by (pose proof (Z.mod_pos_bound (us / 60000000) 60); lia).
  assert (Es : 0 <= us / 1000000 mod 60 < 100) by (pose proof (Z.mod_pos_bound (us / 1000000) 60); lia).
  pose proof (number_2 _ Eh) as Nh. pose proof (number_2 _ Em) as Nm. pose proof (number_2 _ Es) as Ns. unfold clock_text.
  cbn [digits app] in Ny, Nmo, Nd, Nh, Nm, Ns |- *. cbn [read_moment]. rewrite fraction_read by by unfold offset_text; destruct (_ <? 0).
  rewrite offset_read by done. cbn [mbind option_bind]. rewrite Ny, Nmo, Nd, Nh, Nm, Ns, Ei. f_equal. destruct m as [i o]. cbn [instant utc_offset] in *. unfold SECOND.
  assert (E : local = local / DAY * DAY + us) by (unfold us; rewrite Z.mul_comm; apply Z.div_mod; done).
  assert (E2 : ((us / 3600000000 * 60 + us / 60000000 mod 60) * 60 + us / 1000000 mod 60) * 1000000 + us mod 1000000 = us) by (clear -Hus; euclid).
  f_equal. rewrite <- (Z.add_assoc (local / DAY * DAY)), E2. clear -E. subst local. lia.
Qed.

Lemma isoformat_read `{OtherIsoTexts} m : moment_ok m = true -> fromisoformat (isoformat m) = Some (IsoAware m).
Proof. intros Hm. unfold fromisoformat. rewrite moment_read, Hm by done. by rewrite bool_decide_eq_true_2. Qed.

Lemma isoformat_inj m m' : moment_ok m = true -> moment_ok m' = true -> isoformat m = isoformat m' -> m = m'.
Proof. intros H1 H2 E. apply moment_read in H1, H2. congruence. Qed.

Lemma digit_scalar n : 0 <= n <= 9 -> is_unicode_scalar_string [48 + n] = true.
Proof. intros Hn. apply scalar_of_small. intros c ->%list_elem_of_singleton. lia. Qed.

Lemma digits_scalar w n : is_unicode_scalar_string (digits w n) = true.
Proof. apply scalar_of_small. intros c Hc%digits_small. lia. Qed.

Lemma isoformat_text m : is_unicode_scalar_string (isoformat m) = true /\ isoformat m <> [].
Proof.
  unfold isoformat. destruct (civil_from_days _) as [[y mo] d]. split; [|by cbn [digits app]]. unfold offset_text, clock_text, fraction_text.
  repeat (rewrite !scalar_app || rewrite !digits_scalar || destruct (_ =? 0) || destruct (_ <? 0)). all: done.
Qed.
