(* ===== verification/Reconciliation.v ===== *)
(** * Reconciliation of provider signals

    Models [execution_orchestration/provider_signal.py] and, of
    [reconciliation], [observation.py], [findings.py], [subject.py],
    [contract.py], [snapshot.py], [state_store.py], [state_machine.py],
    [poll_outcome.py] and [check_summary.py]: the signals a plan expects and
    omits, the observations gathered for one workflow run, the classification
    of a snapshot, and the duplicate and revision algebra of the stored state. *)

From stdpp Require Import base gmap sets list sorting strings.
From Stdlib Require Import ZArith Lia.
From S2P Require Import Prelude Text CanonicalJson Hashing.

(** ** [provider_signal.py] *)

(** [re.compile(r"ci_shard_[0-9a-f]{32}").fullmatch] and the other patterns. *)
Definition is_shard_id (s : pystr) : bool :=
  startswith (u "ci_shard_") s && bool_decide (length s = 41%nat) && forallb is_lower_hex (drop 9 s).

Definition is_job_id_head (c : Z) : bool :=
  ((65 <=? c) && (c <=? 90)) || ((97 <=? c) && (c <=? 122)) || (c =? 95).
Definition is_job_id_tail (c : Z) : bool :=
  is_job_id_head c || ((48 <=? c) && (c <=? 57)) || (c =? 45).

Definition is_job_id (s : pystr) : bool :=
  match s with
  | [] => false
  | c :: r => is_job_id_head c && forallb is_job_id_tail r && bool_decide (length r <= 127)%nat
  end.

(** [\.github/workflows/[^/\\]+\.ya?ml]: the middle part is not empty. *)
Definition is_workflow_path (s : pystr) : bool :=
  let rest := drop 18 s in
  startswith (u ".github/workflows/") s && negb (has_char 47 rest) && negb (has_char 92 rest) &&
  ((endswith (u ".yml") rest && bool_decide (4 < length rest)%nat) ||
   (endswith (u ".yaml") rest && bool_decide (5 < length rest)%nat)).

Inductive SignalKind := derived_shard | declared_native.
Definition signal_kind_str (k : SignalKind) : pystr :=
  match k with derived_shard => u "derived-shard" | declared_native => u "declared-native" end.

Record ProviderSignal := {
  ps_signal_id : pystr;
  job_name : pystr;
  ps_kind : SignalKind;
  execution_profile_id : option pystr;
  shard_id : option pystr;
  workflow_path : option pystr;
  job_id : option pystr;
}.

Definition ProviderSignal_mapping (s : ProviderSignal) : pyval :=
  obj [("signalId", VStr (ps_signal_id s)); ("executionProfileId", opt_str (execution_profile_id s));
       ("shardId", opt_str (shard_id s)); ("jobName", VStr (job_name s));
       ("kind", VStr (signal_kind_str (ps_kind s))); ("workflowPath", opt_str (workflow_path s));
       ("jobId", opt_str (job_id s))]%string.

Section signal.
Context `{Sha256}.

Definition _derived_values (execution_profile_id shard_id : pystr) : res (pystr * pystr) :=
  raise_if (negb (is_identifier execution_profile_id))
    (ValueError (u "provider signal profile id is not canonical")) ;;
  raise_if (negb (is_shard_id shard_id)) (ValueError (u "provider signal shard id is not canonical")) ;;
  digest ← hash_mapping (obj [("schemaVersion", VStr (u "provider-signal/v1"));
             ("executionProfileId", VStr execution_profile_id); ("shardId", VStr shard_id)]%string);
  Ok (u "provider_signal_" ++ take 32 digest, u "ci/" ++ execution_profile_id ++ u "/" ++ take 20 digest).

Definition _declared_signal_id (workflow_path job_id job_name : pystr) : res pystr :=
  (if negb (is_workflow_path workflow_path)
   then Raise (ValueError (u "native provider signal workflow path is invalid"))
   else n ← utf8_length workflow_path;
        raise_if (n >? 256) (ValueError (u "native provider signal workflow path is invalid"))) ;;
  raise_if (negb (is_job_id job_id)) (ValueError (u "native provider signal job id is invalid")) ;;
  (if bool_decide (job_name = []) then Raise (ValueError (u "native provider signal job name is invalid"))
   else n ← utf8_length job_name;
        raise_if ((n >? 256) || existsb (fun c => (0xD800 <=? c) && (c <=? 0xDFFF)) job_name)
          (ValueError (u "native provider signal job name is invalid"))) ;;
  identity ← hash_mapping (obj [("schemaVersion", VStr (u "declared-native-provider-signal/v1"));
               ("workflowPath", VStr workflow_path); ("jobId", VStr job_id); ("jobName", VStr job_name)]%string);
  Ok (u "provider_signal_" ++ take 32 identity).

Definition ProviderSignal_check (s : ProviderSignal) : res unit :=
  match ps_kind s with
  | derived_shard =>
      raise_if (bool_decide (workflow_path s <> None) || bool_decide (job_id s <> None))
        (ValueError (u "derived provider signals cannot carry workflow coordinates")) ;;
      match execution_profile_id s, shard_id s with
      | Some profile, Some shard =>
          '(sid, name) ← _derived_values profile shard;
          raise_if (bool_decide (ps_signal_id s <> sid) || bool_decide (job_name s <> name))
            (ValueError (u "provider signal fields do not match their derived identity"))
      | _, _ => Raise (ValueError (u "derived provider signals require shard coordinates"))
      end
  | declared_native =>
      raise_if (bool_decide (execution_profile_id s <> None) || bool_decide (shard_id s <> None))
        (ValueError (u "native provider signals cannot carry shard coordinates")) ;;
      match workflow_path s, job_id s with
      | Some path, Some job =>
          sid ← _declared_signal_id path job (job_name s);
          raise_if (bool_decide (ps_signal_id s <> sid))
            (ValueError (u "native provider signal fields do not match their declared identity"))
      | _, _ => Raise (ValueError (u "native provider signals require exact workflow coordinates"))
      end
  end.

Definition derive (execution_profile_id shard_id : pystr) : res ProviderSignal :=
  '(sid, name) ← _derived_values execution_profile_id shard_id;
  let s := {| ps_signal_id := sid; job_name := name; ps_kind := derived_shard;
              execution_profile_id := Some execution_profile_id; shard_id := Some shard_id;
              workflow_path := None; job_id := None |} in
  ProviderSignal_check s ;; Ok s.

Definition ps_declared_native (workflow_path job_id job_name : pystr) : res ProviderSignal :=
  sid ← _declared_signal_id workflow_path job_id job_name;
  let s := {| ps_signal_id := sid; job_name := job_name; ps_kind := declared_native;
              execution_profile_id := None; shard_id := None;
              workflow_path := Some workflow_path; job_id := Some job_id |} in
  ProviderSignal_check s ;; Ok s.
End signal.

(** ** [observation.py] *)

Inductive SignalConclusion := CSuccess | CFailure | CCancelled | CTimedOut | CSkipped | CNeutral | CUnknown.
Inductive SignalStatus := in_progress | completed.

#[export] Instance SignalKind_eq_dec : EqDecision SignalKind.
Proof. solve_decision. Defined.
#[export] Instance ProviderSignal_eq_dec : EqDecision ProviderSignal.
Proof. solve_decision. Defined.
#[export] Instance SignalConclusion_eq_dec : EqDecision SignalConclusion.
Proof. solve_decision. Defined.
#[export] Instance SignalStatus_eq_dec : EqDecision SignalStatus.
Proof. solve_decision. Defined.

Definition conclusion_str (c : SignalConclusion) : pystr :=
  match c with
  | CSuccess => u "success" | CFailure => u "failure" | CCancelled => u "cancelled" | CTimedOut => u "timed_out"
  | CSkipped => u "skipped" | CNeutral => u "neutral" | CUnknown => u "unknown"
  end.

Definition _require_non_empty_string (value field_name : pystr) : res unit :=
  raise_if (bool_decide (value = [])) (ValueError (field_name ++ u " must be a non-empty string")).

Record OmittedSignal := { os_signal_id : pystr; os_name : pystr }.

Definition OmittedSignal_check (s : OmittedSignal) : res unit :=
  _require_non_empty_string (os_signal_id s) (u "signal_id") ;; _require_non_empty_string (os_name s) (u "name").

(** [type(value) is not int or value < 1 or not is_safe_json_integer(value)]. *)
Definition require_positive_safe (value : Z) (field_name : pystr) : res unit :=
  raise_if ((value <? 1) || negb (is_safe_int value))
    (ValueError (field_name ++ u " must be a positive JSON safe integer")).

Record SignalObservation := {
  observation_id : pystr;
  so_subject_id : pystr;
  so_signal_id : pystr;
  so_workflow_run_id : Z;
  so_run_attempt : Z;
  provider_job_id : Z;
  so_status : SignalStatus;
  conclusion : option SignalConclusion;
}.

Definition SignalObservation_check (o : SignalObservation) : res unit :=
  _require_non_empty_string (observation_id o) (u "observation_id") ;;
  _require_non_empty_string (so_subject_id o) (u "subject_id") ;;
  _require_non_empty_string (so_signal_id o) (u "signal_id") ;;
  require_positive_safe (so_workflow_run_id o) (u "workflow_run_id") ;;
  require_positive_safe (so_run_attempt o) (u "run_attempt") ;;
  require_positive_safe (provider_job_id o) (u "provider_job_id") ;;
  raise_if (bool_decide (so_status o = in_progress) && bool_decide (conclusion o <> None))
    (ValueError (u "in_progress observations must not have a conclusion")) ;;
  raise_if (bool_decide (so_status o = completed) && bool_decide (conclusion o = None))
    (ValueError (u "completed observations must have a conclusion")).

#[export] Instance OmittedSignal_eq_dec : EqDecision OmittedSignal.
Proof. solve_decision. Defined.
#[export] Instance SignalObservation_eq_dec : EqDecision SignalObservation.
Proof. solve_decision. Defined.

(** ** [findings.py] *)

Inductive ReconciliationState := pending | success | failure | conflict.
Inductive ReconciliationFindingKind :=
  | missing_expected_contract | missing_expected_signal | incomplete_expected_signal | failed_expected_signal
  | skipped_without_proof | neutral_without_policy | omitted_execution | contradictory_observation
  | reconciliation_timed_out | reconciliation_attempts_exhausted | ambiguous_provider_signal.

#[export] Instance ReconciliationState_eq_dec : EqDecision ReconciliationState.
Proof. solve_decision. Defined.
#[export] Instance ReconciliationFindingKind_eq_dec : EqDecision ReconciliationFindingKind.
Proof. solve_decision. Defined.

Definition reconciliation_state_str (s : ReconciliationState) : pystr :=
  match s with
  | pending => u "pending" | success => u "success" | failure => u "failure" | conflict => u "conflict"
  end.

Record ReconciliationFinding := {
  rf_kind : ReconciliationFindingKind;
  rf_signal_id : option pystr;
  observation_ids : list pystr;
  message : pystr;
}.

Definition ReconciliationFinding_new (kind : ReconciliationFindingKind) (signal_id : option pystr)
    (observation_ids : list pystr) (message : pystr) : res ReconciliationFinding :=
  raise_if (bool_decide (signal_id = Some [])) (ValueError (u "signal_id must be a non-empty string when present")) ;;
  raise_if (existsb (fun i => bool_decide (i = [])) observation_ids)
    (ValueError (u "observation_ids must contain non-empty strings")) ;;
  raise_if (bool_decide (message = [])) (ValueError (u "message must be a non-empty string")) ;;
  Ok {| rf_kind := kind; rf_signal_id := signal_id; observation_ids := observation_ids; message := message |}.

Record ReconciliationResult := {
  rr_subject_id : pystr;
  rr_state : ReconciliationState;
  rr_findings : list ReconciliationFinding;
}.

Definition ReconciliationResult_new (subject_id : pystr) (state : ReconciliationState)
    (findings : list ReconciliationFinding) : res ReconciliationResult :=
  raise_if (bool_decide (subject_id = [])) (ValueError (u "subject_id must be a non-empty string")) ;;
  Ok {| rr_subject_id := subject_id; rr_state := state; rr_findings := findings |}.

Definition is_success (r : ReconciliationResult) : bool := bool_decide (rr_state r = success).

#[export] Instance ReconciliationFinding_eq_dec : EqDecision ReconciliationFinding.
Proof. solve_decision. Defined.
#[export] Instance ReconciliationResult_eq_dec : EqDecision ReconciliationResult.
Proof. solve_decision. Defined.

(** ** [subject.py] *)

(** [re.compile(r"^[0-9a-f]{40,64}$").fullmatch]. *)
Definition is_git_sha (value : pystr) : bool :=
  bool_decide (40 <= length value <= 64)%nat && forallb is_lower_hex value.

Definition SUBJECT_SCHEMA : pystr := u "ci-reconciliation-subject/v1".
Definition _EVENT_NAMES : list pystr := [u "pull_request"; u "push"; u "merge_group"].

Record ReconciliationSubject := {
  rs_schema_version : pystr;
  rs_installation_id : Z;
  rs_repository_id : Z;
  rs_event_name : pystr;
  rs_ref : pystr;
  rs_base_sha : pystr;
  rs_head_sha : pystr;
  rs_workflow_run_id : Z;
  rs_run_attempt : Z;
  subject_id : pystr;
}.

Definition ReconciliationSubject_mapping (s : ReconciliationSubject) : pyval :=
  obj [("schemaVersion", VStr (rs_schema_version s)); ("installationId", VInt (rs_installation_id s));
       ("repositoryId", VInt (rs_repository_id s)); ("eventName", VStr (rs_event_name s)); ("ref", VStr (rs_ref s));
       ("baseSha", VStr (rs_base_sha s)); ("headSha", VStr (rs_head_sha s));
       ("workflowRunId", VInt (rs_workflow_run_id s)); ("runAttempt", VInt (rs_run_attempt s))]%string.

Definition require_git_sha (sha field_name : pystr) : res unit :=
  raise_if (negb (is_git_sha sha)) (ValueError (u "reconciliation subject " ++ field_name ++ u " is invalid")).

Section subject.
Context `{Sha256}.

Definition ReconciliationSubject_check (s : ReconciliationSubject) : res unit :=
  raise_if (bool_decide (rs_schema_version s <> SUBJECT_SCHEMA))
    (ValueError (u "reconciliation subject schema version is unsupported")) ;;
  require_positive_safe (rs_installation_id s) (u "installation_id") ;;
  require_positive_safe (rs_repository_id s) (u "repository_id") ;;
  require_positive_safe (rs_workflow_run_id s) (u "workflow_run_id") ;;
  require_positive_safe (rs_run_attempt s) (u "run_attempt") ;;
  raise_if (bool_decide (rs_event_name s ∉ _EVENT_NAMES))
    (ValueError (u "reconciliation subject event_name is unsupported")) ;;
  raise_if (bool_decide (rs_ref s = [])) (ValueError (u "reconciliation subject ref must be non-empty text")) ;;
  require_git_sha (rs_base_sha s) (u "base_sha") ;;
  require_git_sha (rs_head_sha s) (u "head_sha") ;;
  raise_if (negb (is_sha256_hex (subject_id s)))
    (ValueError (u "reconciliation subject id must be a lowercase SHA-256 digest")) ;;
  h ← hash_mapping (ReconciliationSubject_mapping s);
  raise_if (bool_decide (subject_id s <> h))
    (ValueError (u "reconciliation subject id does not match its canonical identity")).

Definition create (installation_id repository_id : Z) (event_name ref base_sha head_sha : pystr)
    (workflow_run_id run_attempt : Z) : res ReconciliationSubject :=
  let subject i := {| rs_schema_version := SUBJECT_SCHEMA; rs_installation_id := installation_id;
    rs_repository_id := repository_id; rs_event_name := event_name; rs_ref := ref; rs_base_sha := base_sha;
    rs_head_sha := head_sha; rs_workflow_run_id := workflow_run_id; rs_run_attempt := run_attempt; subject_id := i |} in
  i ← hash_mapping (obj [("schemaVersion", VStr SUBJECT_SCHEMA); ("installationId", VInt installation_id);
       ("repositoryId", VInt repository_id); ("eventName", VStr event_name); ("ref", VStr ref);
       ("baseSha", VStr base_sha); ("headSha", VStr head_sha);
       ("workflowRunId", VInt workflow_run_id); ("runAttempt", VInt run_attempt)]%string);
  ReconciliationSubject_check (subject i) ;; Ok (subject i).
End subject.

#[export] Instance ReconciliationSubject_eq_dec : EqDecision ReconciliationSubject.
Proof. solve_decision. Defined.

(** ** [contract.py] *)

Definition _require_digest (value field_name : pystr) : res unit :=
  raise_if (negb (is_sha256_hex value)) (ValueError (field_name ++ u " must be a lowercase SHA-256 digest")).

Definition require_text (value field_name : pystr) : res unit :=
  raise_if (bool_decide (value = [])) (ValueError (field_name ++ u " must be non-empty text")).

Record PlanningEvidenceContext := {
  pe_request_hash : pystr;
  pe_input_hash : pystr;
  pe_config_epoch_id : pystr;
  pe_repo_epoch_hash : pystr;
  pe_diff_hash : pystr;
  pe_policy_hash : pystr;
  pe_graph_hash : pystr;
  validation_catalog_hash : pystr;
  deterministic_plan_id : pystr;
  verified_plan_id : pystr;
  verified_plan_hash : pystr;
  planner_version : pystr;
  verifier_version : pystr;
  fallback_reason : option pystr;
}.

Definition PlanningEvidenceContext_check (e : PlanningEvidenceContext) : res unit :=
  _require_digest (pe_request_hash e) (u "request_hash") ;;
  _require_digest (pe_input_hash e) (u "input_hash") ;;
  _require_digest (pe_config_epoch_id e) (u "config_epoch_id") ;;
  _require_digest (pe_repo_epoch_hash e) (u "repo_epoch_hash") ;;
  _require_digest (pe_diff_hash e) (u "diff_hash") ;;
  _require_digest (pe_policy_hash e) (u "policy_hash") ;;
  _require_digest (pe_graph_hash e) (u "graph_hash") ;;
  _require_digest (validation_catalog_hash e) (u "validation_catalog_hash") ;;
  _require_digest (verified_plan_hash e) (u "verified_plan_hash") ;;
  require_text (deterministic_plan_id e) (u "deterministic_plan_id") ;;
  require_text (verified_plan_id e) (u "verified_plan_id") ;;
  require_text (planner_version e) (u "planner_version") ;;
  require_text (verifier_version e) (u "verifier_version") ;;
  raise_if (bool_decide (fallback_reason e = Some []))
    (ValueError (u "fallback_reason must be non-empty text or absent")).

Definition PlanningEvidenceContext_canonical (e : PlanningEvidenceContext) : pyval :=
  obj [("requestHash", VStr (pe_request_hash e)); ("inputHash", VStr (pe_input_hash e));
       ("configEpochId", VStr (pe_config_epoch_id e)); ("repoEpochHash", VStr (pe_repo_epoch_hash e));
       ("diffHash", VStr (pe_diff_hash e)); ("policyHash", VStr (pe_policy_hash e));
       ("graphHash", VStr (pe_graph_hash e)); ("validationCatalogHash", VStr (validation_catalog_hash e));
       ("deterministicPlanId", VStr (deterministic_plan_id e)); ("verifiedPlanId", VStr (verified_plan_id e));
       ("verifiedPlanHash", VStr (verified_plan_hash e)); ("plannerVersion", VStr (planner_version e));
       ("verifierVersion", VStr (verifier_version e)); ("fallbackReason", opt_str (fallback_reason e))]%string.

Definition omitted_mapping (l : list OmittedSignal) : pyval :=
  arr ((fun s => obj [("signalId", VStr (os_signal_id s)); ("name", VStr (os_name s))]%string) <$> l).

Definition _require_sorted_unique (signal_ids : list pystr) (field_name : pystr) : res unit :=
  ids ← py_sorted utf16_sort_key signal_ids;
  raise_if (bool_decide (signal_ids <> ids) || bool_decide (length signal_ids <> length (remove_dups signal_ids)))
    (ValueError (field_name ++ u " must be strictly ordered by unique signal_id")).

Record CandidateEvidenceContext := {
  profile_id : pystr;
  ce_repository : pystr;
  ce_config_epoch : pystr;
  ce_policy_hash : pystr;
  ce_diff_hash : pystr;
  ce_graph_hash : pystr;
  baseline_plan_id : pystr;
  candidate_plan_id : pystr;
  ce_omitted_signals : list OmittedSignal;
}.

Definition CandidateEvidenceContext_check (e : CandidateEvidenceContext) : res unit :=
  require_text (profile_id e) (u "profile_id") ;;
  require_text (ce_repository e) (u "repository") ;;
  require_text (ce_config_epoch e) (u "config_epoch") ;;
  require_text (ce_policy_hash e) (u "policy_hash") ;;
  require_text (ce_diff_hash e) (u "diff_hash") ;;
  require_text (ce_graph_hash e) (u "graph_hash") ;;
  require_text (baseline_plan_id e) (u "baseline_plan_id") ;;
  require_text (candidate_plan_id e) (u "candidate_plan_id") ;;
  _require_sorted_unique (os_signal_id <$> ce_omitted_signals e) (u "omitted_signals") ;;
  raise_if (bool_decide (ce_omitted_signals e = []))
    (ValueError (u "candidate evidence requires at least one omitted signal")).

Definition CandidateEvidenceContext_canonical (e : CandidateEvidenceContext) : pyval :=
  obj [("profileId", VStr (profile_id e)); ("repository", VStr (ce_repository e));
       ("configEpoch", VStr (ce_config_epoch e)); ("policyHash", VStr (ce_policy_hash e));
       ("diffHash", VStr (ce_diff_hash e)); ("graphHash", VStr (ce_graph_hash e));
       ("baselinePlanId", VStr (baseline_plan_id e)); ("candidatePlanId", VStr (candidate_plan_id e));
       ("omittedSignals", omitted_mapping (ce_omitted_signals e))]%string.

Record ReconciliationContract := {
  provider_signals : list ProviderSignal;
  omitted_signals : list OmittedSignal;
  candidate_evidence : option CandidateEvidenceContext;
  planning_evidence : option PlanningEvidenceContext;
}.

Definition ReconciliationContract_check (c : ReconciliationContract) : res unit :=
  let expected := ps_signal_id <$> provider_signals c in
  let omitted := os_signal_id <$> omitted_signals c in
  _require_sorted_unique expected (u "provider_signals") ;;
  _require_sorted_unique omitted (u "omitted_signals") ;;
  raise_if (existsb (fun i => bool_decide (i ∈ omitted)) expected)
    (ValueError (u "provider_signals and omitted_signals must not overlap")) ;;
  let job_names := job_name <$> provider_signals c in
  raise_if (bool_decide (length job_names <> length (remove_dups job_names)))
    (ValueError (u "provider signal job names must be unique")).

Definition ReconciliationContract_canonical (c : ReconciliationContract) : pyval :=
  obj ([("providerSignals", arr (ProviderSignal_mapping <$> provider_signals c));
        ("omittedSignals", omitted_mapping (omitted_signals c))]%string ++
       match candidate_evidence c with
       | Some e => [("candidateEvidence", CandidateEvidenceContext_canonical e)]%string | None => [] end ++
       match planning_evidence c with
       | Some e => [("planningEvidence", PlanningEvidenceContext_canonical e)]%string | None => [] end).

Definition contract_hash `{Sha256} (c : ReconciliationContract) : res pystr :=
  hash_mapping (ReconciliationContract_canonical c).

#[export] Instance PlanningEvidenceContext_eq_dec : EqDecision PlanningEvidenceContext.
Proof. solve_decision. Defined.
#[export] Instance CandidateEvidenceContext_eq_dec : EqDecision CandidateEvidenceContext.
Proof. solve_decision. Defined.
#[export] Instance ReconciliationContract_eq_dec : EqDecision ReconciliationContract.
Proof. solve_decision. Defined.

(** ** [snapshot.py] *)

Record ReconciliationSnapshot := {
  subject : ReconciliationSubject;
  contract : ReconciliationContract;
  revision : Z;
  observations : list SignalObservation;
}.

Definition ReconciliationSnapshot_new (s : ReconciliationSubject) (c : ReconciliationContract) (revision : Z)
    (observations : list SignalObservation) : res ReconciliationSnapshot :=
  raise_if ((revision <? 0) || negb (is_safe_int revision))
    (ValueError (u "reconciliation snapshot revision must be a non-negative JSON safe integer")) ;;
  let ids := observation_id <$> observations in
  raise_if (bool_decide (length ids <> length (remove_dups ids)))
    (ValueError (u "reconciliation snapshot observations must not repeat observation_id")) ;;
  raise_if (negb (revision =? Z.of_nat (length observations)))
    (ValueError (u "reconciliation snapshot revision must equal its observation count")) ;;
  raise_if (existsb (fun o => bool_decide (so_subject_id o <> subject_id s)) observations)
    (ValueError (u "reconciliation snapshot observations must belong to its subject")) ;;
  raise_if (existsb (fun o => negb (so_workflow_run_id o =? rs_workflow_run_id s)) observations)
    (ValueError (u "reconciliation snapshot observations must belong to its exact workflow run")) ;;
  raise_if (existsb (fun o => negb (so_run_attempt o =? rs_run_attempt s)) observations)
    (ValueError (u "reconciliation snapshot observations must belong to its exact run attempt")) ;;
  Ok {| subject := s; contract := c; revision := revision; observations := observations |}.

#[export] Instance ReconciliationSnapshot_eq_dec : EqDecision ReconciliationSnapshot.
Proof. solve_decision. Defined.

Inductive SubjectRegistration :=
  | SubjectRegistered (snapshot : ReconciliationSnapshot)
  | SubjectRegistrationDuplicate (snapshot : ReconciliationSnapshot)
  | SubjectRegistrationConflict (existing : ReconciliationSnapshot).

Inductive ObservationAppend :=
  | ObservationAppended (snapshot : ReconciliationSnapshot)
  | ObservationDuplicate (snapshot : ReconciliationSnapshot) (existing : SignalObservation)
  | ObservationConflict (snapshot : ReconciliationSnapshot) (existing : SignalObservation)
  | ObservationRevisionConflict (snapshot : ReconciliationSnapshot).

Inductive ResultRecord :=
  | ResultRecorded (revision : Z) (result : ReconciliationResult)
  | ResultDuplicate (revision : Z) (existing : ReconciliationResult)
  | ResultConflict (revision : Z) (existing : ReconciliationResult)
  | ResultRevisionConflict (snapshot : ReconciliationSnapshot).

(** ** [state_store.py] *)

Definition _require_revision (revision : Z) : res unit :=
  raise_if ((revision <? 0) || negb (is_safe_int revision))
    (ValueError (u "reconciliation revision must be a non-negative JSON safe integer")).

Definition register_subject (existing : option ReconciliationSnapshot) (s : ReconciliationSubject)
    (c : ReconciliationContract) : res SubjectRegistration :=
  attempted ← ReconciliationSnapshot_new s c 0 [];
  match existing with
  | None => Ok (SubjectRegistered attempted)
  | Some e =>
      raise_if (bool_decide (subject e <> s))
        (ValueError (u "existing reconciliation snapshot belongs to another subject")) ;;
      Ok (if bool_decide (contract e = c) then SubjectRegistrationDuplicate e else SubjectRegistrationConflict e)
  end.

Definition append_observation (snapshot : ReconciliationSnapshot) (expected_revision : Z)
    (observation : SignalObservation) : res ObservationAppend :=
  _require_revision expected_revision ;;
  raise_if (bool_decide (so_subject_id observation <> subject_id (subject snapshot)))
    (ValueError (u "reconciliation observation belongs to another subject")) ;;
  raise_if (negb (so_workflow_run_id observation =? rs_workflow_run_id (subject snapshot)))
    (ValueError (u "reconciliation observation belongs to another workflow run")) ;;
  raise_if (negb (so_run_attempt observation =? rs_run_attempt (subject snapshot)))
    (ValueError (u "reconciliation observation belongs to another run attempt")) ;;
  match List.find (fun c => bool_decide (observation_id c = observation_id observation)) (observations snapshot) with
  | Some existing =>
      Ok (if bool_decide (existing = observation) then ObservationDuplicate snapshot existing
          else ObservationConflict snapshot existing)
  | None =>
      if negb (expected_revision =? revision snapshot) then Ok (ObservationRevisionConflict snapshot)
      else
        let successor_revision := revision snapshot + 1 in
        _require_revision successor_revision ;;
        successor ← ReconciliationSnapshot_new (subject snapshot) (contract snapshot) successor_revision
                      (observations snapshot ++ [observation]);
        Ok (ObservationAppended successor)
  end.

Definition record_result (snapshot : ReconciliationSnapshot) (expected_revision : Z)
    (result : ReconciliationResult) (existing : option ReconciliationResult) : res ResultRecord :=
  _require_revision expected_revision ;;
  raise_if (bool_decide (rr_subject_id result <> subject_id (subject snapshot)))
    (ValueError (u "reconciliation result belongs to another subject")) ;;
  match existing with
  | Some e =>
      raise_if (bool_decide (rr_subject_id e <> subject_id (subject snapshot)))
        (ValueError (u "stored reconciliation result belongs to another subject")) ;;
      Ok (if bool_decide (e = result) then ResultDuplicate expected_revision e
          else ResultConflict expected_revision e)
  | None => Ok (if negb (expected_revision =? revision snapshot) then ResultRevisionConflict snapshot
                else ResultRecorded expected_revision result)
  end.

(** ** [state_machine.py] *)

Record _SignalAssessment := { sa_state : ReconciliationState; sa_findings : list ReconciliationFinding }.

Definition _assessment (state : ReconciliationState) (kind : ReconciliationFindingKind) (signal : ProviderSignal)
    (observation_ids : list pystr) (message : pystr) : res _SignalAssessment :=
  f ← ReconciliationFinding_new kind (Some (ps_signal_id signal)) observation_ids message;
  Ok {| sa_state := state; sa_findings := [f] |}.

Definition _failed_conclusion_assessment (signal : ProviderSignal) (completed : list SignalObservation)
    (conclusion : option SignalConclusion) : res _SignalAssessment :=
  let '(kind, message) :=
    match conclusion with
    | Some CSkipped => (skipped_without_proof, u "expected signal " ++ job_name signal ++ u " was skipped without proof")
    | Some CNeutral => (neutral_without_policy, u "expected signal " ++ job_name signal ++ u " was neutral without policy")
    | _ => (failed_expected_signal, u "expected signal " ++ job_name signal ++ u " concluded " ++
             match conclusion with Some c => conclusion_str c | None => u "None" end)
    end in
  _assessment failure kind signal (observation_id <$> completed) message.

Definition matching (signal_id : pystr) (l : list SignalObservation) : list SignalObservation :=
  filter (fun o => so_signal_id o = signal_id) l.
Definition completed_of (l : list SignalObservation) : list SignalObservation :=
  filter (fun o => so_status o = completed) l.

Definition _classify_expected_signal (signal : ProviderSignal) (observations : list SignalObservation)
    : res _SignalAssessment :=
  let matches := matching (ps_signal_id signal) observations in
  let expected := u "expected signal " ++ job_name signal in
  if bool_decide (matches = [])
  then _assessment pending missing_expected_signal signal [] (expected ++ u " was not observed")
  else if bool_decide (1 < length (remove_dups (provider_job_id <$> matches)))%nat
  then _assessment failure ambiguous_provider_signal signal (observation_id <$> matches)
         (expected ++ u " resolved to multiple provider jobs")
  else
    let done := completed_of matches in
    if bool_decide (1 < length (remove_dups (conclusion <$> done)))%nat
    then _assessment conflict contradictory_observation signal (observation_id <$> done)
           (expected ++ u " has contradictory terminal observations")
    else match done with
    | [] => _assessment pending incomplete_expected_signal signal (observation_id <$> matches)
              (expected ++ u " is incomplete")
    | o :: _ =>
        if bool_decide (conclusion o = Some CSuccess) then Ok {| sa_state := success; sa_findings := [] |}
        else _failed_conclusion_assessment signal done (conclusion o)
    end.

Definition _omitted_execution_findings (omitted : list OmittedSignal) (observations : list SignalObservation)
    : res (list ReconciliationFinding) :=
  found ← mapR (fun s =>
    let matches := matching (os_signal_id s) observations in
    if bool_decide (matches = []) then Ok []
    else f ← ReconciliationFinding_new omitted_execution (Some (os_signal_id s)) (observation_id <$> matches)
               (u "omitted signal " ++ os_name s ++ u " was observed");
         Ok [f]) omitted;
  Ok (concat found).

Definition _result_state (findings : list ReconciliationFinding) (assessments : list _SignalAssessment)
    : ReconciliationState :=
  let kinds := rf_kind <$> findings in
  if bool_decide (omitted_execution ∈ kinds) || bool_decide (contradictory_observation ∈ kinds) then conflict
  else if bool_decide (missing_expected_contract ∈ kinds) ||
          existsb (fun a => bool_decide (sa_state a = failure)) assessments then failure
  else if existsb (fun a => bool_decide (sa_state a = pending)) assessments then pending
  else success.

Definition classify_observed_state (snapshot : ReconciliationSnapshot) : res ReconciliationResult :=
  omitted ← _omitted_execution_findings (omitted_signals (contract snapshot)) (observations snapshot);
  assessments ← mapR (fun s => _classify_expected_signal s (observations snapshot))
                  (provider_signals (contract snapshot));
  missing ← (if bool_decide (provider_signals (contract snapshot) = [])
             then f ← ReconciliationFinding_new missing_expected_contract None []
                        (u "reconciliation has no expected signal contract"); Ok [f]
             else Ok []);
  let findings := omitted ++ flat_map sa_findings assessments ++ missing in
  ReconciliationResult_new (subject_id (subject snapshot)) (_result_state findings assessments) findings.

Definition reconcile (snapshot : ReconciliationSnapshot) : res ReconciliationResult :=
  classify_observed_state snapshot.

(** ** [poll_outcome.py] and [check_summary.py] *)

Record ProviderSignalAmbiguity := { psa_subject_id : pystr; psa_signal : ProviderSignal }.

Definition ProviderSignalAmbiguity_check (a : ProviderSignalAmbiguity) : res unit :=
  raise_if (negb (is_sha256_hex (psa_subject_id a)))
    (ValueError (u "provider signal ambiguity requires a subject digest")).

Definition provider_signal_ambiguity_failure (a : ProviderSignalAmbiguity) : res ReconciliationResult :=
  f ← ReconciliationFinding_new ambiguous_provider_signal (Some (ps_signal_id (psa_signal a))) []
        (u "more than one provider job matched the expected derived signal");
  ReconciliationResult_new (psa_subject_id a) failure [f].

Inductive CheckConclusion := check_success | check_pending | check_failure.
Record CheckSummary := { cs_subject_id : pystr; cs_conclusion : CheckConclusion; summary : pystr }.

Definition summarize_check (result : ReconciliationResult) : CheckSummary :=
  let lines := (u "Reconciliation state: " ++ reconciliation_state_str (rr_state result)) ::
               ((fun f => u "- " ++ message f) <$> rr_findings result) in
  {| cs_subject_id := rr_subject_id result;
     cs_conclusion := match rr_state result with
                      | success => check_success | pending => check_pending | _ => check_failure end;
     summary := join [10] lines |}.
