(* ===== verification/ReconciliationFacts.v ===== *)
(** * What a classification means

    [classify_observed_state] against a declarative reading of the
    observations, its behaviour as observations arrive, and the stored
    snapshot as a map from observation ids to observations. *)

From stdpp Require Import base gmap sets list sorting strings.
From Stdlib Require Import ZArith Lia.
From S2P Require Import Prelude Text CanonicalJson Hashing Reconciliation.

(** ** Specifications *)

Section readings.
Context (obs : list SignalObservation) (i : pystr).

Definition seen (o : SignalObservation) : Prop := o ∈ obs /\ so_signal_id o = i.
Definition observed : Prop := exists o, seen o.
Definition ambiguous : Prop := exists o1 o2, seen o1 /\ seen o2 /\ provider_job_id o1 <> provider_job_id o2.
Definition concluded (c : option SignalConclusion) : Prop :=
  exists o, seen o /\ so_status o = completed /\ conclusion o = c.
Definition contradictory : Prop :=
  ~ ambiguous /\ exists c1 c2, concluded c1 /\ concluded c2 /\ c1 <> c2.
Definition succeeded : Prop :=
  ~ ambiguous /\ concluded (Some CSuccess) /\ forall c, concluded c -> c = Some CSuccess.
Definition failed : Prop :=
  ~ ambiguous /\ exists c, concluded c /\ c <> Some CSuccess /\ forall c', concluded c' -> c' = c.
Definition waiting : Prop := ~ ambiguous /\ forall c, ~ concluded c.

(** What a signal's assessment says of it. *)
Definition reads (s : ReconciliationState) (contradiction : bool) : Prop :=
  match s, contradiction with
  | conflict, true => contradictory
  | failure, false => ambiguous \/ failed
  | pending, false => waiting
  | success, false => succeeded
  | _, _ => False
  end.
End readings.

Record constructed `{Sha256} (s : ReconciliationSnapshot) : Prop := {
  cn_snapshot : ReconciliationSnapshot_new (subject s) (contract s) (revision s) (observations s) = Ok s;
  cn_subject : ReconciliationSubject_check (subject s) = Ok tt;
  cn_contract : ReconciliationContract_check (contract s) = Ok tt;
  cn_signals : Forall (fun p => ProviderSignal_check p = Ok tt) (provider_signals (contract s));
  cn_omitted : Forall (fun p => OmittedSignal_check p = Ok tt) (omitted_signals (contract s));
  cn_observations : Forall (fun o => SignalObservation_check o = Ok tt) (observations s);
}.

(** ** Sizes of sets *)

Lemma one_of_dups {A} `{EqDecision A} (l : list A) :
  (1 < length (remove_dups l))%nat <-> exists x y, x ∈ l /\ y ∈ l /\ x <> y.
Proof.
  split.
  - pose proof (NoDup_remove_dups l) as Hn. assert (He : forall x, x ∈ remove_dups l -> x ∈ l) by (intros x; apply elem_of_remove_dups).
    destruct (remove_dups l) as [|x [|y r]]; cbn; [lia..|]. intros _. exists x, y.
    apply NoDup_cons in Hn as [Hn _]. split_and!; [apply He; set_solver..|]. intros ->. apply Hn. set_solver.
  - intros (x & y & Hx%elem_of_remove_dups & Hy%elem_of_remove_dups & Hne).
    destruct (remove_dups l) as [|a [|b r]]; cbn; [set_solver|set_solver|lia].
Qed.

Lemma remove_dups_length {A} `{EqDecision A} (l : list A) : length l = length (remove_dups l) <-> NoDup l.
Proof.
  induction l as [|x l IH]; cbn; [split; [constructor|done]|]. rewrite NoDup_cons.
  assert (Hle : (length (remove_dups l) <= length l)%nat).
  { apply submseteq_length, NoDup_submseteq; [apply NoDup_remove_dups|]. intros y. apply elem_of_remove_dups. }
  destruct (decide_rel _ x l) as [Hx|Hx]; cbn.
  - split; [lia|]. by intros [? _].
  - rewrite <- IH. split; [intros; split; [done|lia]|]. intros [_ ?]. lia.
Qed.

(** ** One expected signal *)

Lemma elem_matching i l o : o ∈ matching i l <-> seen l i o.
Proof. unfold matching, seen. rewrite list_elem_of_filter. tauto. Qed.

Lemma matching_nil i l : matching i l = [] <-> ~ observed l i.
Proof.
  split.
  - intros E (o & Ho%elem_matching). rewrite E in Ho. set_solver.
  - intros Hn. destruct (matching i l) as [|o r] eqn:E; [done|]. exfalso. apply Hn. exists o. apply elem_matching.
    rewrite E. set_solver.
Qed.

Lemma matching_ambiguous i l : (1 < length (remove_dups (provider_job_id <$> matching i l)))%nat <-> ambiguous l i.
Proof.
  rewrite one_of_dups. split.
  - intros (x & y & (o1 & -> & H1)%list_elem_of_fmap & (o2 & -> & H2)%list_elem_of_fmap & Hne).
    exists o1, o2. by rewrite <- !elem_matching.
  - intros (o1 & o2 & H1 & H2 & Hne). exists (provider_job_id o1), (provider_job_id o2).
    split_and!; [by apply list_elem_of_fmap_2, elem_matching..|done].
Qed.

Lemma elem_completed i l o : o ∈ completed_of (matching i l) <-> seen l i o /\ so_status o = completed.
Proof. unfold completed_of. rewrite list_elem_of_filter, elem_matching. tauto. Qed.

Lemma elem_conclusions i l c : c ∈ (conclusion <$> completed_of (matching i l)) <-> concluded l i c.
Proof.
  unfold concluded. rewrite list_elem_of_fmap. split.
  - intros (o & -> & [? ?]%elem_completed). by exists o.
  - intros (o & ? & ? & <-). exists o. split; [done|]. by apply elem_completed.
Qed.

Lemma finding_total k i ids m :
  i <> Some [] -> Forall (fun x => x <> []) ids -> m <> [] ->
  ReconciliationFinding_new k i ids m =
    Ok {| rf_kind := k; rf_signal_id := i; observation_ids := ids; message := m |}.
Proof.
  intros Hi Hids Hm. unfold ReconciliationFinding_new. rewrite bool_decide_eq_false_2 by done.
  replace (existsb _ ids) with false; [by rewrite bool_decide_eq_false_2|]. symmetry. apply existsb_false.
  intros x Hx. apply bool_decide_eq_false_2. rewrite Forall_forall in Hids. auto.
Qed.

Lemma assessment_total st k s ids m :
  ps_signal_id s <> [] -> Forall (fun x => x <> []) ids -> m <> [] ->
  exists a, _assessment st k s ids m = Ok a /\ sa_state a = st /\ (rf_kind <$> sa_findings a) = [k].
Proof.
  intros Hs Hids Hm. unfold _assessment. rewrite finding_total; [|congruence|done|done]. by eexists.
Qed.

Lemma matching_ids_ok i obs :
  Forall (fun o => observation_id o <> []) obs -> Forall (fun x => x <> []) (observation_id <$> matching i obs).
Proof.
  intros Hobs. apply Forall_fmap, Forall_forall. intros o [Ho _]%elem_matching. rewrite Forall_forall in Hobs. by apply Hobs.
Qed.

Section assessing.
Context (obs : list SignalObservation) (s : ProviderSignal).
Hypothesis Hid : ps_signal_id s <> [].
Hypothesis Hobs : Forall (fun o => observation_id o <> []) obs.

Let i := ps_signal_id s.

Lemma completed_ids_ok : Forall (fun x => x <> []) (observation_id <$> completed_of (matching i obs)).
Proof.
  apply Forall_fmap, Forall_forall. intros o [[Ho _] _]%elem_completed. rewrite Forall_forall in Hobs. by apply Hobs.
Qed.

Lemma message_nonempty (n : pystr) m : (u "expected signal " ++ n) ++ m <> [].
Proof. by rewrite <- app_assoc. Qed.

(** The assessment exists, carries the contradiction finding exactly when its
    state is [conflict], never an omission or contract finding, and reads the
    observations of the signal. *)
Lemma classify_signal_reads :
  exists a, _classify_expected_signal s obs = Ok a /\
    reads obs i (sa_state a) (bool_decide (contradictory_observation ∈ (rf_kind <$> sa_findings a))) /\
    (omitted_execution ∉ (rf_kind <$> sa_findings a)) /\ (missing_expected_contract ∉ (rf_kind <$> sa_findings a)).
Proof.
  unfold _classify_expected_signal. fold i. cbv zeta.
  pose proof (matching_ids_ok i obs Hobs) as Hm. pose proof completed_ids_ok as Hc.
  assert (Hone : forall st k ids m b, Forall (fun x => x <> []) ids -> m <> [] ->
    b = bool_decide (contradictory_observation = k) -> reads obs i st b ->
    k <> omitted_execution -> k <> missing_expected_contract ->
    exists a, _assessment st k s ids m = Ok a /\
      reads obs i (sa_state a) (bool_decide (contradictory_observation ∈ (rf_kind <$> sa_findings a))) /\
      (omitted_execution ∉ (rf_kind <$> sa_findings a)) /\ (missing_expected_contract ∉ (rf_kind <$> sa_findings a))).
  { intros st k ids m b Hids Hmsg -> Hr Hk1 Hk2. destruct (assessment_total st k s ids m) as (a & E & Hst & Hk); try done.
    exists a. split; [done|]. rewrite Hst, Hk. rewrite (bool_decide_ext _ _ (list_elem_of_singleton _ _)). rewrite !list_elem_of_singleton.
    split_and!; [|congruence..]. done. }
  case_bool_decide as Hn; [|case_bool_decide as Ha; [|case_bool_decide as Hd]].
  - apply Hone with (b := false); try done; try apply message_nonempty. apply matching_nil in Hn.
    split; [intros (o1 & _ & ? & _); apply Hn; by exists o1|]. intros c (o & ? & _). apply Hn. by exists o.
  - apply Hone with (b := false); try done; try apply message_nonempty. left. by apply matching_ambiguous.
  - apply Hone with (b := true); try done; try apply message_nonempty. rewrite matching_ambiguous in Ha.
    split; [done|]. apply one_of_dups in Hd as (c1 & c2 & H1%elem_conclusions & H2%elem_conclusions & Hne). by exists c1, c2.
  - rewrite matching_ambiguous in Ha.
    assert (Hall : forall c1 c2, concluded obs i c1 -> concluded obs i c2 -> c1 = c2).
    { intros c1 c2 H1%elem_conclusions H2%elem_conclusions. destruct (decide (c1 = c2)) as [|Hne]; [done|].
      exfalso. apply Hd, one_of_dups. by exists c1, c2. }
    pose proof (elem_conclusions i obs) as Hcs. destruct (completed_of (matching i obs)) as [|o r] eqn:E.
    + apply Hone with (b := false); try done; try apply message_nonempty. split; [done|].
      intros c Hcc%Hcs. set_solver.
    + assert (Ho : concluded obs i (conclusion o)) by (apply Hcs; set_solver).
      case_bool_decide as Hsucc.
      * eexists. split; [done|]. cbn. split_and!; [|set_solver..]. split; [done|]. rewrite <- Hsucc.
        split; [done|]. intros c Hcc. by apply Hall.
      * assert (Hf : failed obs i) by (split; [done|]; exists (conclusion o); split_and!; [done..|]; intros; by apply Hall).
        unfold _failed_conclusion_assessment.
        destruct (conclusion o) as [[]|]; try done; apply Hone with (b := false); try done; try (by right).
Qed.
End assessing.

(** ** The whole snapshot *)

Section verdicts.
Context (c : ReconciliationContract) (obs : list SignalObservation).

Definition conflicting : Prop :=
  (exists s, s ∈ omitted_signals c /\ observed obs (os_signal_id s)) \/
  (exists s, s ∈ provider_signals c /\ contradictory obs (ps_signal_id s)).
Definition failing : Prop :=
  provider_signals c = [] \/
  exists s, s ∈ provider_signals c /\ (ambiguous obs (ps_signal_id s) \/ failed obs (ps_signal_id s)).
Definition unfinished : Prop := exists s, s ∈ provider_signals c /\ waiting obs (ps_signal_id s).
Definition fulfilled : Prop :=
  provider_signals c <> [] /\ (forall s, s ∈ omitted_signals c -> ~ observed obs (os_signal_id s)) /\
  forall s, s ∈ provider_signals c -> succeeded obs (ps_signal_id s).

(** The state the observations call for. *)
Definition verdict (st : ReconciliationState) : Prop :=
  match st with
  | conflict => conflicting
  | failure => ~ conflicting /\ failing
  | pending => ~ conflicting /\ ~ failing /\ unfinished
  | success => fulfilled
  end.
End verdicts.

Lemma reads_exclusive obs i st b st' b' : reads obs i st b -> reads obs i st' b' -> st = st'.
Proof.
  unfold reads, contradictory, succeeded, failed, waiting.
  destruct st, b; try done; destruct st', b'; try done; intros H1 H2; exfalso.
  - naive_solver.
  - naive_solver.
  - naive_solver.
  - naive_solver.
  - destruct H1 as (? & ? & Hs), H2 as [|(? & c & Hc & Hne & _)]; [done|]. by apply Hne, Hs.
  - destruct H1 as (_ & _ & Hs), H2 as (_ & c1 & c2 & H1%Hs & H2%Hs & Hne). congruence.
  - naive_solver.
  - destruct H2 as (? & ? & Hs), H1 as [|(? & c & Hc & Hne & _)]; [done|]. by apply Hne, Hs.
  - destruct H2 as (Ha & c1 & c2 & H2 & H3 & Hne), H1 as [|(_ & c & _ & _ & Hs)]; [done|].
    apply Hs in H2, H3. congruence.
  - naive_solver.
  - destruct H2 as (_ & _ & Hs), H1 as (_ & c1 & c2 & H1%Hs & H2%Hs & Hne). congruence.
  - destruct H1 as (Ha & c1 & c2 & H1 & H3 & Hne), H2 as [|(_ & c & _ & _ & Hs)]; [done|].
    apply Hs in H1, H3. congruence.
Qed.

Lemma verdict_unique c obs st st' : verdict c obs st -> verdict c obs st' -> st = st'.
Proof.
  assert (Hf : forall st, fulfilled c obs -> verdict c obs st -> st = success).
  { intros st0 (Hne & Ho & Hs) Hv.
    assert (Hc : ~ conflicting c obs).
    { intros [(s & Hs1 & ?)|(s & Hs1 & Hs2)]; [by eapply Ho|].
      by pose proof (reads_exclusive obs (ps_signal_id s) success false conflict true (Hs s Hs1) Hs2). }
    assert (Hfl : ~ failing c obs).
    { intros [|(s & Hs1 & Hs2)]; [done|].
      by pose proof (reads_exclusive obs (ps_signal_id s) success false failure false (Hs s Hs1) Hs2). }
    destruct st0; cbn in Hv; try tauto. destruct Hv as (_ & _ & s & Hs1 & Hs2).
    by pose proof (reads_exclusive obs (ps_signal_id s) success false pending false (Hs s Hs1) Hs2). }
  intros H1 H2. destruct (decide (st = success)) as [->|]; [symmetry; by apply Hf|].
  destruct (decide (st' = success)) as [->|]; [by apply Hf|]. destruct st, st'; cbn in H1, H2; tauto.
Qed.

Lemma omitted_findings_total omitted obs :
  Forall (fun s => os_signal_id s <> []) omitted -> Forall (fun o => observation_id o <> []) obs ->
  exists fs, _omitted_execution_findings omitted obs = Ok fs /\
    (forall k, k ∈ (rf_kind <$> fs) <-> k = omitted_execution /\ exists s, s ∈ omitted /\ observed obs (os_signal_id s)).
Proof.
  intros Ho Hobs. unfold _omitted_execution_findings.
  induction Ho as [|s omitted Hs Ho (fs & E & Hk)]; [by exists []; split; [done|]; set_solver|].
  apply bind_Ok in E as (fss & E & E'). simplify_eq. cbn [mapR].
  case_bool_decide as Hm.
  - cbn [mbind res_bind]. rewrite E. cbn. eexists. split; [done|]. intros k. rewrite Hk. apply matching_nil in Hm.
    split; intros (-> & s' & Hs' & ?); (split; [done|]); exists s'; set_solver.
  - rewrite finding_total; [|congruence|by apply matching_ids_ok|done].
    cbn [mbind res_bind]. rewrite E. cbn. eexists. split; [done|]. intros k.
    assert (observed obs (os_signal_id s)).
    { destruct (matching (os_signal_id s) obs) as [|o r] eqn:Em; [done|]. exists o. apply elem_matching. rewrite Em. set_solver. }
    rewrite fmap_cons, elem_of_cons, Hk. split.
    + intros [->|(-> & s' & ? & ?)]; (split; [done|]); [exists s|exists s']; set_solver.
    + intros (-> & _). by left.
Qed.

(** ** Constructed values have names *)

Lemma derived_prefix `{Sha256} p q i n : _derived_values p q = Ok (i, n) -> exists d, i = u "provider_signal_" ++ d.
Proof. intros (? & _ & (? & _ & (d & _ & E)%bind_Ok)%bind_Ok)%bind_Ok. injection E as <- _. eauto. Qed.

Lemma declared_prefix `{Sha256} p q n i : _declared_signal_id p q n = Ok i -> exists d, i = u "provider_signal_" ++ d.
Proof.
  intros (? & _ & (? & _ & (? & _ & (d & _ & E)%bind_Ok)%bind_Ok)%bind_Ok)%bind_Ok. injection E as <-. eauto.
Qed.

Lemma signal_id_nonempty `{Sha256} s : ProviderSignal_check s = Ok tt -> ps_signal_id s <> [].
Proof.
  unfold ProviderSignal_check. intros Hc. destruct (ps_kind s); apply bind_Ok in Hc as (? & _ & Hc).
  - destruct (execution_profile_id s), (shard_id s); try done.
    apply bind_Ok in Hc as ([i n] & [d ->]%derived_prefix & [E _]%raise_if_Ok%orb_false_iff').
    apply bool_decide_eq_false in E. apply dec_stable in E as ->. apply u_cons_nonempty.
  - destruct (workflow_path s), (job_id s); try done.
    apply bind_Ok in Hc as (i & [d ->]%declared_prefix & E%raise_if_Ok).
    apply bool_decide_eq_false in E. apply dec_stable in E as ->. apply u_cons_nonempty.
Qed.

Lemma omitted_id_nonempty s : OmittedSignal_check s = Ok tt -> os_signal_id s <> [].
Proof. intros (? & E%raise_if_Ok & _)%bind_Ok. by apply bool_decide_eq_false in E. Qed.

Lemma observation_id_nonempty o : SignalObservation_check o = Ok tt -> observation_id o <> [].
Proof. intros (? & E%raise_if_Ok & _)%bind_Ok. by apply bool_decide_eq_false in E. Qed.

Lemma subject_id_nonempty `{Sha256} s : ReconciliationSubject_check s = Ok tt -> subject_id s <> [].
Proof.
  unfold ReconciliationSubject_check. intros Hc. do 9 apply bind_Ok in Hc as (? & _ & Hc).
  apply bind_Ok in Hc as (? & E%raise_if_Ok & _). apply negb_false_iff' in E. by apply sha256_hex_nonempty.
Qed.

(** ** Correctness of the classification *)

Lemma assessments_total obs signals :
  Forall (fun s => ps_signal_id s <> []) signals -> Forall (fun o => observation_id o <> []) obs ->
  exists l, mapR (fun s => _classify_expected_signal s obs) signals = Ok l /\
    Forall2 (fun s a => reads obs (ps_signal_id s) (sa_state a)
                          (bool_decide (contradictory_observation ∈ (rf_kind <$> sa_findings a)))) signals l /\
    (omitted_execution ∉ (rf_kind <$> flat_map sa_findings l)) /\
    (missing_expected_contract ∉ (rf_kind <$> flat_map sa_findings l)).
Proof.
  intros Hs Ho. induction Hs as [|s signals Hid Hs (l & E & HF & H1 & H2)]; [exists []; split_and!; (done || set_solver)|].
  destruct (classify_signal_reads obs s Hid Ho) as (a & Ea & Hr & Ha1 & Ha2). exists (a :: l). cbn.
  rewrite Ea. cbn. rewrite E. cbn. rewrite fmap_app, !not_elem_of_app. auto.
Qed.

Lemma contradiction_found l :
  contradictory_observation ∈ (rf_kind <$> flat_map sa_findings l) <->
  exists a, a ∈ l /\ contradictory_observation ∈ (rf_kind <$> sa_findings a).
Proof.
  induction l as [|a l IH]; cbn; [set_solver|]. rewrite fmap_app, elem_of_app, IH. set_solver.
Qed.

Lemma reads_flag obs i st b : reads obs i st b -> b = bool_decide (st = conflict).
Proof. by destruct st, b. Qed.

Section assessed.
Context (obs : list SignalObservation) (signals : list ProviderSignal) (l : list _SignalAssessment).
Hypothesis HF : Forall2 (fun s a => reads obs (ps_signal_id s) (sa_state a)
                   (bool_decide (contradictory_observation ∈ (rf_kind <$> sa_findings a)))) signals l.

Lemma assessed_iff st :
  (exists a, a ∈ l /\ sa_state a = st) <->
  exists s, s ∈ signals /\ reads obs (ps_signal_id s) st (bool_decide (st = conflict)).
Proof.
  split.
  - intros (a & [n Ha]%list_elem_of_lookup & <-). destruct (Forall2_lookup_r _ _ _ _ _ HF Ha) as (s & Hs & Hr).
    exists s. split; [by eapply list_elem_of_lookup_2|]. by rewrite <- (reads_flag _ _ _ _ Hr).
  - intros (s & [n Hs]%list_elem_of_lookup & Hr). destruct (Forall2_lookup_l _ _ _ _ _ HF Hs) as (a & Ha & Hr').
    exists a. split; [by eapply list_elem_of_lookup_2|]. by eapply reads_exclusive.
Qed.

Lemma assessed_contradiction :
  contradictory_observation ∈ (rf_kind <$> flat_map sa_findings l) <-> exists a, a ∈ l /\ sa_state a = conflict.
Proof.
  rewrite contradiction_found. split; intros (a & Ha & Hk); exists a; (split; [done|]);
    apply list_elem_of_lookup in Ha as [n Ha]; destruct (Forall2_lookup_r _ _ _ _ _ HF Ha) as (s & _ & Hr%reads_flag).
  - rewrite bool_decide_eq_true_2 in Hr by done. by apply symmetry, bool_decide_eq_true in Hr.
  - rewrite (bool_decide_eq_true_2 (sa_state a = conflict)) in Hr by done. by apply bool_decide_eq_true in Hr.
Qed.
End assessed.

Lemma state_found (l : list _SignalAssessment) st :
  existsb (fun a => bool_decide (sa_state a = st)) l = true <-> exists a, a ∈ l /\ sa_state a = st.
Proof. rewrite existsb_elem. by setoid_rewrite bool_decide_eq_true. Qed.

(** The precedence of [_result_state] is the precedence of the verdicts. *)
Lemma result_state_verdict c obs fs l ms :
  (forall k, k ∈ (rf_kind <$> fs) <-> k = omitted_execution /\ exists s, s ∈ omitted_signals c /\ observed obs (os_signal_id s)) ->
  (forall k, k ∈ (rf_kind <$> ms) <-> k = missing_expected_contract /\ provider_signals c = []) ->
  Forall2 (fun s a => reads obs (ps_signal_id s) (sa_state a)
             (bool_decide (contradictory_observation ∈ (rf_kind <$> sa_findings a)))) (provider_signals c) l ->
  (omitted_execution ∉ (rf_kind <$> flat_map sa_findings l)) ->
  (missing_expected_contract ∉ (rf_kind <$> flat_map sa_findings l)) ->
  verdict c obs (_result_state (fs ++ flat_map sa_findings l ++ ms) l).
Proof.
  intros Hfs Hms HF Hn1 Hn2. unfold _result_state. rewrite !fmap_app.
  assert (Hc : bool_decide (omitted_execution ∈ (rf_kind <$> fs) ++ (rf_kind <$> flat_map sa_findings l) ++ (rf_kind <$> ms)) ||
               bool_decide (contradictory_observation ∈ (rf_kind <$> fs) ++ (rf_kind <$> flat_map sa_findings l) ++ (rf_kind <$> ms)) = true
               <-> conflicting c obs).
  { rewrite orb_true_iff, !bool_decide_eq_true, !elem_of_app, !Hfs, !Hms.
    rewrite (assessed_contradiction _ _ _ HF), (assessed_iff _ _ _ HF).
    change (bool_decide (conflict = conflict)) with true. unfold conflicting, reads. naive_solver. }
  assert (Hfl : bool_decide (missing_expected_contract ∈ (rf_kind <$> fs) ++ (rf_kind <$> flat_map sa_findings l) ++ (rf_kind <$> ms)) ||
                existsb (fun a => bool_decide (sa_state a = failure)) l = true <-> failing c obs).
  { rewrite orb_true_iff, bool_decide_eq_true, !elem_of_app, !Hfs, !Hms, state_found, (assessed_iff _ _ _ HF).
    change (bool_decide (failure = conflict)) with false. unfold failing, reads. naive_solver. }
  match goal with |- verdict _ _ (if ?b then _ else _) => destruct b end; [by apply Hc|].
  assert (Hnc : ~ conflicting c obs) by (rewrite <- Hc; congruence).
  match goal with |- verdict _ _ (if ?b then _ else _) => destruct b end; [exact (conj Hnc (proj1 Hfl eq_refl))|].
  assert (Hnf : ~ failing c obs) by (rewrite <- Hfl; congruence).
  destruct (existsb _ l) eqn:E3.
  - cbn [verdict]. split_and!; [done..|]. apply state_found, (assessed_iff _ _ _ HF) in E3 as (s & Hs & Hr). by exists s.
  - cbn [verdict]. split; [intros He; apply Hnf; by left|]. split; [intros s Hs Ho; apply Hnc; left; eauto|].
    intros s [n Hs]%list_elem_of_lookup. destruct (Forall2_lookup_l _ _ _ _ _ HF Hs) as (a & Ha & Hr).
    assert (Hnp : sa_state a <> pending).
    { intros Hp. rewrite existsb_false in E3. specialize (E3 a ltac:(by eapply list_elem_of_lookup_2)).
      by apply bool_decide_eq_false in E3. }
    apply list_elem_of_lookup_2 in Hs. destruct (sa_state a), (bool_decide _); try done.
    + exfalso. apply Hnf. right. eauto.
    + exfalso. apply Hnc. right. eauto.
Qed.

Lemma classify_facts `{Sha256} s :
  constructed s ->
  exists r, classify_observed_state s = Ok r /\ rr_subject_id r = subject_id (subject s) /\
            verdict (contract s) (observations s) (rr_state r).
Proof.
  intros [_ Hsub _ Hsig Hom Hobs]. unfold classify_observed_state.
  pose proof (Forall_impl _ _ _ Hsig signal_id_nonempty) as Hsig'.
  pose proof (Forall_impl _ _ _ Hom omitted_id_nonempty) as Hom'.
  pose proof (Forall_impl _ _ _ Hobs observation_id_nonempty) as Hobs'.
  destruct (omitted_findings_total _ _ Hom' Hobs') as (fs & -> & Hk).
  destruct (assessments_total _ _ Hsig' Hobs') as (l & -> & HF & Hn1 & Hn2). cbn [mbind res_bind].
  set (ms := if bool_decide (provider_signals (contract s) = [])
             then [{| rf_kind := missing_expected_contract; rf_signal_id := None; observation_ids := [];
                      message := u "reconciliation has no expected signal contract" |}] else []).
  assert (E : (if bool_decide (provider_signals (contract s) = [])
               then f ← ReconciliationFinding_new missing_expected_contract None []
                          (u "reconciliation has no expected signal contract"); Ok [f] else Ok []) = Ok ms).
  { subst ms. case_bool_decide; [|done]. rewrite finding_total; [done|done|done|apply u_nonempty]. }
  rewrite E. cbn [mbind res_bind]. unfold ReconciliationResult_new.
  rewrite bool_decide_eq_false_2 by (by apply subject_id_nonempty). eexists. split; [done|]. split; [done|]. cbn [rr_state].
  apply result_state_verdict; try done.
  intros k. subst ms. case_bool_decide; cbn; set_solver.
Qed.

(** ** As observations arrive *)

(** How settled a state is: a failure or conflict is never taken back, and a
    success never becomes pending again. *)
Definition settled (st : ReconciliationState) : nat :=
  match st with pending => 0 | success => 1 | failure | conflict => 2 end.

Section growing.
Context (o1 o2 : list SignalObservation).
Hypothesis Hsub : o1 ⊆ o2.

Lemma seen_mono i o : seen o1 i o -> seen o2 i o.
Proof. unfold seen. set_solver. Qed.

Lemma observed_mono i : observed o1 i -> observed o2 i.
Proof. intros [o Ho]. exists o. by apply seen_mono. Qed.

Lemma ambiguous_mono i : ambiguous o1 i -> ambiguous o2 i.
Proof. intros (a & b & ? & ? & ?). exists a, b. by auto using seen_mono. Qed.

Lemma concluded_mono i c : concluded o1 i c -> concluded o2 i c.
Proof. intros (o & ? & ?). exists o. by auto using seen_mono. Qed.

(** A signal in trouble stays in trouble. *)
Lemma trouble_mono i :
  ambiguous o1 i \/ contradictory o1 i \/ failed o1 i ->
  (forall st b, reads o2 i st b -> settled st = 2%nat).
Proof.
  intros Ht st b Hr. destruct st, b; try done; cbn in Hr; exfalso.
  - destruct Hr as [Ha Hc]. destruct Ht as [Ht|[(_ & c & _ & Ht & _)|(_ & c & Ht & _)]].
    + by apply Ha, ambiguous_mono.
    + by apply (Hc c), concluded_mono.
    + by apply (Hc c), concluded_mono.
  - destruct Hr as (Ha & _ & Hc). destruct Ht as [Ht|[(_ & c1 & c2 & H1 & H2 & Hne)|(_ & c & Ht & Hne & _)]].
    + by apply Ha, ambiguous_mono.
    + apply concluded_mono, Hc in H1, H2. congruence.
    + by apply Hne, Hc, concluded_mono.
Qed.
End growing.

(** Every signal has a reading, so its assessment exists. *)
Lemma reading_exists obs s :
  ps_signal_id s <> [] -> Forall (fun o => observation_id o <> []) obs ->
  exists st b, reads obs (ps_signal_id s) st b.
Proof. intros Hs Ho. destruct (classify_signal_reads obs s Hs Ho) as (a & _ & Hr & _). eauto. Qed.

Lemma verdict_mono c o1 o2 st1 st2 :
  Forall (fun s => ps_signal_id s <> []) (provider_signals c) ->
  Forall (fun o => observation_id o <> []) o2 ->
  o1 ⊆ o2 -> verdict c o1 st1 -> verdict c o2 st2 -> (settled st1 <= settled st2)%nat.
Proof.
  intros Hid Ho Hs Hv1 Hv2. rewrite Forall_forall in Hid.
  assert (Hbad : forall s, s ∈ provider_signals c ->
    ambiguous o1 (ps_signal_id s) \/ contradictory o1 (ps_signal_id s) \/ failed o1 (ps_signal_id s) -> settled st2 = 2%nat).
  { intros s Hin Ht. destruct (reading_exists o2 s (Hid s Hin) Ho) as (st & b & Hr).
    pose proof (trouble_mono o1 o2 Hs _ Ht st b Hr) as Hst.
    destruct st2; cbn in Hv2; try done; exfalso.
    - destruct Hv2 as (Hnc & Hnf & _). destruct st, b; try done; [apply Hnf; right; eauto|apply Hnc; right; eauto].
    - destruct Hv2 as (_ & _ & Hall). specialize (Hall s Hin).
      pose proof (reads_exclusive o2 _ st b success false Hr Hall) as ->. done. }
  destruct st1; cbn in Hv1; [cbn; lia| | |].
  - destruct st2; cbn; try lia. exfalso. destruct Hv1 as (_ & _ & Hall), Hv2 as (_ & _ & s & Hin & Hw).
    destruct (Hall s Hin) as (_ & Hc & _). destruct Hw as [_ Hw]. by apply (Hw (Some CSuccess)), (concluded_mono o1).
  - destruct Hv1 as [_ [He|(s & Hin & Ht)]]; [|rewrite (Hbad s Hin) by tauto; done].
    destruct st2; cbn; try lia; exfalso; cbn in Hv2.
    + destruct Hv2 as (_ & Hnf & _). apply Hnf. by left.
    + by destruct Hv2 as [? _].
  - destruct Hv1 as [(s & Hin & Hob)|(s & Hin & Ht)]; [|rewrite (Hbad s Hin) by tauto; done].
    apply (observed_mono o1 o2 Hs) in Hob. destruct st2; cbn; try lia; exfalso; cbn in Hv2.
    + destruct Hv2 as (Hnc & _). apply Hnc. left. eauto.
    + destruct Hv2 as (_ & Hno & _). by apply (Hno s).
Qed.

#[export] Instance verdict_proper c : Proper ((≡ₚ) ==> (=) ==> iff) (verdict c).
Proof.
  intros o1 o2 Hp st ? <-.
  assert (Hs : forall i o, seen o1 i o <-> seen o2 i o) by (intros; unfold seen; by rewrite Hp).
  assert (Hc : forall i c, concluded o1 i c <-> concluded o2 i c) by (intros; unfold concluded; by setoid_rewrite Hs).
  assert (Ho : forall i, observed o1 i <-> observed o2 i) by (intros; unfold observed; by setoid_rewrite Hs).
  assert (Ha : forall i, ambiguous o1 i <-> ambiguous o2 i) by (intros; unfold ambiguous; by setoid_rewrite Hs).
  destruct st; cbn; unfold conflicting, failing, unfinished, fulfilled, contradictory, failed, waiting, succeeded;
    setoid_rewrite Ho || idtac; setoid_rewrite Ha; setoid_rewrite Hc; done.
Qed.

(** C32: classification returns on every constructed snapshot and its state is
    exactly what the observations call for: conflict when an omitted signal ran
    or a signal's conclusions contradict each other; otherwise failure when
    nothing is expected, a signal has several jobs or one failed; otherwise
    pending while one has not concluded; success only when every expected
    signal concluded, in one job, with success. *)
Theorem classification_correct `{Sha256} s st :
  constructed s ->
  (exists r, classify_observed_state s = Ok r /\ rr_subject_id r = subject_id (subject s) /\ rr_state r = st) <->
  verdict (contract s) (observations s) st.
Proof.
  intros Hc. destruct (classify_facts s Hc) as (r & Hr & Hi & Hv). split.
  - intros (r' & Hr' & _ & <-). congruence.
  - intros Hst. exists r. split_and!; [done|done|]. by eapply verdict_unique.
Qed.

(** As observations of a subject accumulate, in any order, a failure or
    conflict is never taken back and a success never becomes pending again; in
    particular the state does not depend on the order of the observations. *)
Theorem classification_settles `{Sha256} s1 s2 r1 r2 :
  constructed s1 -> constructed s2 -> contract s1 = contract s2 ->
  classify_observed_state s1 = Ok r1 -> classify_observed_state s2 = Ok r2 ->
  (observations s1 ⊆ observations s2 -> (settled (rr_state r1) <= settled (rr_state r2))%nat) /\
  (observations s1 ≡ₚ observations s2 -> rr_state r1 = rr_state r2).
Proof.
  intros H1 H2 Hc E1 E2.
  destruct (classify_facts s1 H1) as (r1' & E1' & _ & Hv1). rewrite E1 in E1'. injection E1' as <-.
  destruct (classify_facts s2 H2) as (r2' & E2' & _ & Hv2). rewrite E2 in E2'. injection E2' as <-.
  rewrite Hc in Hv1. split.
  - intros Hs. apply (verdict_mono (contract s2) (observations s1) (observations s2)); try done.
    + apply (Forall_impl _ _ _ (cn_signals _ H2) signal_id_nonempty).
    + apply (Forall_impl _ _ _ (cn_observations _ H2) observation_id_nonempty).
  - intros Hp. eapply verdict_unique; [|done]. by rewrite <- Hp.
Qed.

(** ** The stored snapshot *)

(** A snapshot as a map from observation ids. *)
Definition view (s : ReconciliationSnapshot) : gmap pystr SignalObservation :=
  list_to_map ((fun o => (observation_id o, o)) <$> observations s).

(** What [append_observation] promises of the stored observations: the first
    observation under an id is kept for ever, an exact replay is recognised,
    and a new one is only taken at the current revision. *)
Inductive append_spec (s : ReconciliationSnapshot) (rev : Z) (o : SignalObservation) : ObservationAppend -> Prop :=
  | as_duplicate : view s !! observation_id o = Some o -> append_spec s rev o (ObservationDuplicate s o)
  | as_conflict e : view s !! observation_id o = Some e -> e <> o -> append_spec s rev o (ObservationConflict s e)
  | as_stale : view s !! observation_id o = None -> rev <> revision s ->
      append_spec s rev o (ObservationRevisionConflict s)
  | as_appended s' : view s !! observation_id o = None -> rev = revision s ->
      observations s' = observations s ++ [o] -> subject s' = subject s -> contract s' = contract s ->
      revision s' = revision s + 1 -> view s' = <[observation_id o := o]> (view s) ->
      append_spec s rev o (ObservationAppended s').

(** The facts a snapshot's constructor checks. *)
Record snapshot_ok (s : ReconciliationSnapshot) : Prop := {
  sk_unique : NoDup (observation_id <$> observations s);
  sk_revision : revision s = Z.of_nat (length (observations s));
  sk_safe : is_safe_int (revision s) = true;
  sk_subject o : o ∈ observations s -> so_subject_id o = subject_id (subject s) /\
    so_workflow_run_id o = rs_workflow_run_id (subject s) /\ so_run_attempt o = rs_run_attempt (subject s);
}.

Lemma snapshot_new_iff s c rev obs s' :
  ReconciliationSnapshot_new s c rev obs = Ok s' <->
  s' = {| subject := s; contract := c; revision := rev; observations := obs |} /\ snapshot_ok s'.
Proof.
  unfold ReconciliationSnapshot_new. split.
  - intros (? & E1%raise_if_Ok & (? & E2%raise_if_Ok & (? & E3%raise_if_Ok & (? & E4%raise_if_Ok & (? & E5%raise_if_Ok & (? & E6%raise_if_Ok & E)%bind_Ok)%bind_Ok)%bind_Ok)%bind_Ok)%bind_Ok)%bind_Ok.
    injection E as <-. split; [done|]. rewrite existsb_false in E4, E5, E6. split; cbn.
    + apply bool_decide_eq_false, dec_stable in E2. by apply remove_dups_length.
    + lia.
    + apply orb_false_iff' in E1 as [_ E1]. by apply negb_false_iff'.
    + intros o Ho. specialize (E4 o Ho). specialize (E5 o Ho). specialize (E6 o Ho).
      apply bool_decide_eq_false, dec_stable in E4. split; [done|lia].
  - intros [-> [H1 H2 H3 H4]]. cbn in *.
    repeat (apply bind_Ok; exists tt; split; [apply raise_if_Ok|]).
    + rewrite H3. apply orb_false_iff'. split; [|done]. lia.
    + apply bool_decide_eq_false. intros Hne. by apply Hne, remove_dups_length.
    + lia.
    + apply existsb_false. intros o Ho. apply bool_decide_eq_false_2. intros Hne. apply Hne, (H4 o Ho).
    + apply existsb_false. intros o Ho. destruct (H4 o Ho) as (_ & -> & _). lia.
    + apply existsb_false. intros o Ho. destruct (H4 o Ho) as (_ & _ & ->). lia.
    + done.
Qed.

Lemma view_lookup s i o : snapshot_ok s -> view s !! i = Some o <-> o ∈ observations s /\ observation_id o = i.
Proof.
  intros Hs. unfold view. rewrite <- elem_of_list_to_map.
  - rewrite list_elem_of_fmap. split; [intros (? & ? & ?); by simplify_eq|]. intros [? <-]. by exists o.
  - rewrite <- list_fmap_compose. apply (sk_unique _ Hs).
Qed.

Lemma find_view s i : snapshot_ok s ->
  List.find (fun c => bool_decide (observation_id c = i)) (observations s) = view s !! i.
Proof.
  intros Hs. destruct (List.find _ _) as [o|] eqn:E.
  - apply List.find_some in E as [Ho%list_elem_of_In E%bool_decide_eq_true]. symmetry. by apply view_lookup.
  - destruct (view s !! i) as [o|] eqn:Ev; [|done]. apply view_lookup in Ev as [Ho Hi]; [|done].
    apply list_elem_of_In in Ho. pose proof (List.find_none _ _ E o Ho) as Hn. by apply bool_decide_eq_false in Hn.
Qed.

Lemma view_snoc s s' o :
  observations s' = observations s ++ [o] -> view s !! observation_id o = None ->
  view s' = <[observation_id o := o]> (view s).
Proof.
  unfold view. intros -> Hn. rewrite fmap_app, list_to_map_app. cbn. rewrite (insert_union_singleton_r (list_to_map _)) by done.
  by rewrite insert_empty.
Qed.

Lemma append_spec_facts s rev o :
  snapshot_ok s -> so_subject_id o = subject_id (subject s) ->
  so_workflow_run_id o = rs_workflow_run_id (subject s) -> so_run_attempt o = rs_run_attempt (subject s) ->
  0 <= rev -> is_safe_int rev = true -> revision s < MAX_SAFE_JSON_INTEGER ->
  exists r, append_observation s rev o = Ok r /\ append_spec s rev o r /\
    (forall s', r = ObservationAppended s' -> snapshot_ok s').
Proof.
  intros Hs H1 H2 H3 Hrev Hsafe Hmax. unfold append_observation, _require_revision.
  replace ((rev <? 0) || negb (is_safe_int rev)) with false by (rewrite Hsafe; lia). cbn [raise_if mbind res_bind].
  rewrite bool_decide_eq_false_2 by (by intros ?). rewrite H2, H3, !Z.eqb_refl. cbn [negb raise_if mbind res_bind].
  rewrite find_view by done. destruct (view s !! observation_id o) as [e|] eqn:Ev.
  - case_bool_decide as He; eexists; (split; [done|]); (split; [|done]); [subst; by constructor|by constructor].
  - destruct (Z.eqb_spec rev (revision s)) as [Er|Er]; cbn [negb].
    + pose proof (sk_revision _ Hs) as Hr. set (s' := {| subject := subject s; contract := contract s;
        revision := revision s + 1; observations := observations s ++ [o] |}).
      assert (Hok : snapshot_ok s').
      { split; cbn.
        - rewrite fmap_app. apply NoDup_app. split; [apply (sk_unique _ Hs)|]. split; [|apply NoDup_singleton].
          intros i (e & -> & He)%list_elem_of_fmap Hi%list_elem_of_singleton.
          assert (view s !! observation_id o = Some e) by (by apply view_lookup). congruence.
        - rewrite length_app. cbn. lia.
        - unfold is_safe_int. lia.
        - intros e [He|He%list_elem_of_singleton]%elem_of_app; [by apply (sk_subject _ Hs)|by subst]. }
      replace ((revision s + 1 <? 0) || negb (is_safe_int (revision s + 1))) with false by (unfold is_safe_int; lia).
      cbn [raise_if mbind res_bind].
      assert (En : ReconciliationSnapshot_new (subject s) (contract s) (revision s + 1) (observations s ++ [o]) = Ok s')
        by (by apply snapshot_new_iff).
      rewrite En. cbn [mbind res_bind]. exists (ObservationAppended s'). split; [done|]. split; [|by intros ? [= <-]].
      constructor; try done. by apply view_snoc.
    + exists (ObservationRevisionConflict s). split; [done|]. split; [by constructor|done].
Qed.

(** Appending an observation of the subject's own run returns for every
    revision below the integer bound and does what the store promises: the
    observation under an id never changes, an exact replay is a duplicate
    whatever the revision, a different one a conflict, and a new observation is
    taken exactly at the current revision, into a well-formed snapshot in which
    appending it again is a duplicate. *)
Theorem append_observation_refines s rev o :
  snapshot_ok s -> so_subject_id o = subject_id (subject s) ->
  so_workflow_run_id o = rs_workflow_run_id (subject s) -> so_run_attempt o = rs_run_attempt (subject s) ->
  0 <= rev -> is_safe_int rev = true -> revision s + 1 < MAX_SAFE_JSON_INTEGER ->
  exists r, append_observation s rev o = Ok r /\ append_spec s rev o r /\
    (forall s', r = ObservationAppended s' ->
       snapshot_ok s' /\ forall rev', 0 <= rev' -> is_safe_int rev' = true ->
         append_observation s' rev' o = Ok (ObservationDuplicate s' o)).
Proof.
  intros Hs H1 H2 H3 Hr Hsafe Hmax. destruct (append_spec_facts s rev o) as (r & Er & Hsp & Hok); try done; [lia|].
  exists r. split; [done|]. split; [done|]. intros s' ->. specialize (Hok s' eq_refl). split; [done|].
  intros rev' Hr' Hsafe'. inversion Hsp as [| | |s'' Hn _ _ Hsub Hcon Hrev Hview]; subst.
  assert (Hv : view s' !! observation_id o = Some o) by (rewrite Hview; apply lookup_insert_eq).
  destruct (append_spec_facts s' rev' o) as (r' & -> & Hsp' & _); try done; try (by rewrite Hsub); [lia|].
  inversion Hsp'; congruence.
Qed.
