(* ===== verification/Convergence.v ===== *)
(** * Convergence of reconciliation

    Models [reconciliation/convergence.py]: the schedule of one subject, the
    fenced claims workers take on it, deferral with bounded backoff and the
    terminal outcomes.

    Times are the instants of [Instants.v]; the constructors refuse naive
    values, so record fields are instants. *)

From stdpp Require Import base gmap sets list sorting strings.
From Stdlib Require Import ZArith Lia.
From S2P Require Import Prelude Text CanonicalJson Hashing Instants Reconciliation.

(** ** Helpers *)

Definition _utc (value : pydatetime) (name : pystr) : res Z :=
  match value with Naive => Raise (ValueError (name ++ u " must be timezone-aware")) | Aware t => Ok t end.

Definition _timestamp (t : Z) : pystr := isoformat_ms t.
#[global] Arguments _timestamp : simpl never.

(** ** Bounds *)

Definition MAX_RECONCILIATION_ATTEMPTS : Z := 1000.
Definition MAX_RECONCILIATION_BACKOFF_SECONDS : Z := 3600.
Definition MAX_RECONCILIATION_DEADLINE_SECONDS : Z := 86400.
Definition MAX_RECONCILIATION_LEASE_SECONDS : Z := 3600.

Inductive ConvergenceTerminalReason := deadline_exceeded | attempts_exhausted.
#[export] Instance ConvergenceTerminalReason_eq_dec : EqDecision ConvergenceTerminalReason.
Proof. solve_decision. Defined.

Definition _bounded_positive (value maximum : Z) (name : pystr) : res unit :=
  raise_if ((value <? 1) || (value >? maximum) || negb (is_safe_int value))
    (ValueError (name ++ u " is outside its admitted bound")).

Definition _bounded_non_negative (value maximum : Z) (name : pystr) : res unit :=
  raise_if ((value <? 0) || (value >? maximum) || negb (is_safe_int value))
    (ValueError (name ++ u " is outside its admitted bound")).

Record ReconciliationConvergencePolicy := {
  deadline_seconds : Z;
  initial_backoff_seconds : Z;
  cp_max_backoff_seconds : Z;
  cp_max_attempts : Z;
  poll_timeout_seconds : Z;
  lease_seconds : Z;
}.

Definition ReconciliationConvergencePolicy_check (p : ReconciliationConvergencePolicy) : res unit :=
  _bounded_positive (deadline_seconds p) MAX_RECONCILIATION_DEADLINE_SECONDS (u "reconciliation deadline") ;;
  _bounded_positive (initial_backoff_seconds p) MAX_RECONCILIATION_BACKOFF_SECONDS (u "initial reconciliation backoff") ;;
  _bounded_positive (cp_max_backoff_seconds p) MAX_RECONCILIATION_BACKOFF_SECONDS (u "maximum reconciliation backoff") ;;
  _bounded_positive (cp_max_attempts p) MAX_RECONCILIATION_ATTEMPTS (u "maximum reconciliation attempts") ;;
  _bounded_positive (poll_timeout_seconds p) MAX_RECONCILIATION_LEASE_SECONDS (u "reconciliation poll timeout") ;;
  _bounded_positive (lease_seconds p) MAX_RECONCILIATION_LEASE_SECONDS (u "reconciliation lease") ;;
  raise_if (initial_backoff_seconds p >? cp_max_backoff_seconds p)
    (ValueError (u "initial reconciliation backoff cannot exceed its maximum")) ;;
  raise_if (cp_max_backoff_seconds p >? deadline_seconds p)
    (ValueError (u "maximum reconciliation backoff cannot exceed the deadline")) ;;
  raise_if (poll_timeout_seconds p >=? lease_seconds p)
    (ValueError (u "reconciliation poll timeout must be shorter than the lease")) ;;
  raise_if (lease_seconds p >? deadline_seconds p)
    (ValueError (u "reconciliation lease cannot exceed the deadline")).

Definition DEFAULT_RECONCILIATION_CONVERGENCE_POLICY : ReconciliationConvergencePolicy :=
  {| deadline_seconds := 1800; initial_backoff_seconds := 5; cp_max_backoff_seconds := 60; cp_max_attempts := 20;
     poll_timeout_seconds := 240; lease_seconds := 300 |}.

(** ** The schedule of a subject *)

Record ReconciliationConvergenceState := {
  created_at : Z;
  deadline_at : Z;
  next_attempt_at : Z;
  attempt_count : Z;
  max_attempts : Z;
  backoff_seconds : Z;
  max_backoff_seconds : Z;
  claim_generation : Z;
  lease_token : option pystr;
  lease_acquired_at : option Z;
  lease_expires_at : option Z;
}.

Definition is_none {A} (o : option A) : bool := match o with None => true | Some _ => false end.

Definition ReconciliationConvergenceState_check (s : ReconciliationConvergenceState) : res unit :=
  raise_if (negb (created_at s <? deadline_at s)) (ValueError (u "reconciliation deadline must follow creation")) ;;
  latest ← add_seconds (created_at s) MAX_RECONCILIATION_DEADLINE_SECONDS;
  raise_if (deadline_at s >? latest) (ValueError (u "reconciliation deadline duration exceeds its bound")) ;;
  raise_if (negb ((created_at s <=? next_attempt_at s) && (next_attempt_at s <=? deadline_at s)))
    (ValueError (u "reconciliation due time must be within its lifetime")) ;;
  _bounded_non_negative (attempt_count s) (max_attempts s) (u "reconciliation attempt count") ;;
  _bounded_positive (max_attempts s) MAX_RECONCILIATION_ATTEMPTS (u "maximum reconciliation attempts") ;;
  _bounded_positive (backoff_seconds s) (max_backoff_seconds s) (u "reconciliation backoff") ;;
  _bounded_positive (max_backoff_seconds s) MAX_RECONCILIATION_BACKOFF_SECONDS (u "maximum reconciliation backoff") ;;
  _bounded_non_negative (claim_generation s) MAX_SAFE_JSON_INTEGER (u "reconciliation claim generation") ;;
  raise_if (claim_generation s <? attempt_count s)
    (ValueError (u "reconciliation claim generation cannot trail attempts")) ;;
  let nones := [is_none (lease_token s); is_none (lease_acquired_at s); is_none (lease_expires_at s)] in
  raise_if (existsb id nones && existsb negb nones)
    (ValueError (u "reconciliation lease identity, acquisition, and expiry must pair")) ;;
  match lease_token s with
  | None => Ok tt
  | Some token =>
      _require_digest token (u "reconciliation lease token") ;;
      match lease_acquired_at s, lease_expires_at s with
      | Some acquired, Some expires =>
          raise_if (acquired <? created_at s)
            (ValueError (u "reconciliation lease acquisition cannot precede creation")) ;;
          raise_if (negb (acquired <? expires))
            (ValueError (u "reconciliation lease expiry must follow acquisition")) ;;
          latest ← add_seconds acquired MAX_RECONCILIATION_LEASE_SECONDS;
          raise_if (expires >? latest) (ValueError (u "reconciliation lease duration exceeds its bound"))
      | _, _ => Raise (ValueError (u "reconciliation lease timestamps are missing"))
      end
  end.

(** [dataclasses.replace]: the constructor runs again. *)
Definition checked_state (s : ReconciliationConvergenceState) : res ReconciliationConvergenceState :=
  ReconciliationConvergenceState_check s ;; Ok s.

Record ReconciliationAttemptClaim := {
  cl_subject : ReconciliationSubject;
  cl_contract : ReconciliationContract;
  cl_revision : Z;
  token : pystr;
  generation : Z;
  cl_attempt_count : Z;
  cl_max_attempts : Z;
  claimed_at : Z;
  cl_lease_expires_at : Z;
  cl_deadline_at : Z;
  terminal_reason : option ConvergenceTerminalReason;
}.

Definition ReconciliationAttemptClaim_check (c : ReconciliationAttemptClaim) : res unit :=
  _bounded_non_negative (cl_revision c) MAX_SAFE_JSON_INTEGER (u "reconciliation revision") ;;
  _require_digest (token c) (u "reconciliation claim token") ;;
  _bounded_positive (generation c) MAX_SAFE_JSON_INTEGER (u "reconciliation claim generation") ;;
  _bounded_non_negative (cl_attempt_count c) (cl_max_attempts c) (u "reconciliation attempt count") ;;
  _bounded_positive (cl_max_attempts c) MAX_RECONCILIATION_ATTEMPTS (u "maximum reconciliation attempts") ;;
  raise_if (cl_lease_expires_at c <=? claimed_at c)
    (ValueError (u "reconciliation claim lease must have positive duration")) ;;
  latest ← add_seconds (claimed_at c) MAX_RECONCILIATION_LEASE_SECONDS;
  raise_if (cl_lease_expires_at c >? latest) (ValueError (u "reconciliation claim lease exceeds its duration bound")) ;;
  raise_if (bool_decide (terminal_reason c = Some deadline_exceeded) && (claimed_at c <? cl_deadline_at c))
    (ValueError (u "reconciliation deadline claim precedes its deadline")) ;;
  match terminal_reason c with
  | Some attempts_exhausted =>
      raise_if (cl_attempt_count c <? cl_max_attempts c)
        (ValueError (u "reconciliation attempt-limit claim has remaining attempts")) ;;
      raise_if (claimed_at c >=? cl_deadline_at c)
        (ValueError (u "reconciliation deadline must dominate attempt exhaustion"))
  | Some deadline_exceeded => Ok tt
  | None =>
      raise_if (cl_attempt_count c <? 1) (ValueError (u "pollable reconciliation claim must consume an attempt")) ;;
      raise_if (claimed_at c >=? cl_deadline_at c)
        (ValueError (u "pollable reconciliation claim cannot start at its deadline"))
  end ;;
  raise_if (generation c <? cl_attempt_count c)
    (ValueError (u "reconciliation claim generation cannot trail attempts")).

Definition may_poll (c : ReconciliationAttemptClaim) : bool := is_none (terminal_reason c).

(** ** Operations *)

Definition initial_convergence_state (now : pydatetime) (policy : ReconciliationConvergencePolicy)
    : res ReconciliationConvergenceState :=
  created ← _utc now (u "reconciliation creation time");
  deadline ← add_seconds created (deadline_seconds policy);
  checked_state {| created_at := created; deadline_at := deadline; next_attempt_at := created; attempt_count := 0;
    max_attempts := cp_max_attempts policy; backoff_seconds := initial_backoff_seconds policy;
    max_backoff_seconds := cp_max_backoff_seconds policy; claim_generation := 0; lease_token := None;
    lease_acquired_at := None; lease_expires_at := None |}.

Definition with_lease (s : ReconciliationConvergenceState) (attempts generation : Z) (token : pystr)
    (acquired expires : Z) : ReconciliationConvergenceState :=
  {| created_at := created_at s; deadline_at := deadline_at s; next_attempt_at := next_attempt_at s;
     attempt_count := attempts; max_attempts := max_attempts s; backoff_seconds := backoff_seconds s;
     max_backoff_seconds := max_backoff_seconds s; claim_generation := generation; lease_token := Some token;
     lease_acquired_at := Some acquired; lease_expires_at := Some expires |}.

Definition without_lease (s : ReconciliationConvergenceState) (next backoff : Z) : ReconciliationConvergenceState :=
  {| created_at := created_at s; deadline_at := deadline_at s; next_attempt_at := next;
     attempt_count := attempt_count s; max_attempts := max_attempts s; backoff_seconds := backoff;
     max_backoff_seconds := max_backoff_seconds s; claim_generation := claim_generation s; lease_token := None;
     lease_acquired_at := None; lease_expires_at := None |}.

(** The terminal reason and the attempts after a claim at [claimed_at]. *)
Definition claim_outcome (s : ReconciliationConvergenceState) (claimed_at : Z)
    : option ConvergenceTerminalReason * Z :=
  if claimed_at >=? deadline_at s then (Some deadline_exceeded, attempt_count s)
  else if attempt_count s >=? max_attempts s then (Some attempts_exhausted, attempt_count s)
  else (None, attempt_count s + 1).

Definition reconciliation_claim_is_active (s : ReconciliationConvergenceState) (c : ReconciliationAttemptClaim)
    (now : pydatetime) : res bool :=
  checked_at ← _utc now (u "reconciliation lease check time");
  Ok (bool_decide (lease_token s = Some (token c)) && (claim_generation s =? generation c) &&
      bool_decide (lease_acquired_at s = Some (claimed_at c)) &&
      match lease_expires_at s with
      | None => false
      | Some expires => (checked_at >=? claimed_at c) && (expires >? checked_at)
      end).

(** [int(digits, 16)] of lowercase hexadecimal digits. *)
Definition hex_value (s : pystr) : Z :=
  foldl (fun acc c => acc * 16 + (if c <=? 57 then c - 48 else c - 87)) 0 s.

Inductive DeferOutcome :=
  | Deferred (s : ReconciliationConvergenceState)
  | DeferLost (subject_id : pystr)
  | TerminalRequired (claim : ReconciliationAttemptClaim) (snapshot_revision : Z).

Inductive ReleaseOutcome :=
  | Released (s : ReconciliationConvergenceState)
  | ReleaseLost (subject_id : pystr).

Definition claim_lost (subject_id : pystr) : res pystr :=
  _require_digest subject_id (u "lost reconciliation claim subject") ;; Ok subject_id.

Section operations.
Context `{Sha256}.

Definition acquire_reconciliation_claim (s : ReconciliationConvergenceState) (subject : ReconciliationSubject)
    (contract : ReconciliationContract) (revision : Z) (worker_id : pystr) (now : pydatetime)
    (policy : ReconciliationConvergencePolicy)
    : res (option (ReconciliationConvergenceState * ReconciliationAttemptClaim)) :=
  _bounded_non_negative revision MAX_SAFE_JSON_INTEGER (u "reconciliation revision") ;;
  _require_digest worker_id (u "reconciliation worker id") ;;
  claimed ← _utc now (u "reconciliation claim time");
  if next_attempt_at s >? claimed then Ok None
  else if match lease_expires_at s with Some e => e >? claimed | None => false end then Ok None
  else
    let generation := claim_generation s + 1 in
    _bounded_positive generation MAX_SAFE_JSON_INTEGER (u "reconciliation claim generation") ;;
    let '(reason, attempts) := claim_outcome s claimed in
    expires ← add_seconds claimed (lease_seconds policy);
    token ← hash_mapping (obj [("schemaVersion", VStr (u "ci-reconciliation-claim/v1"));
              ("subjectId", VStr (subject_id subject)); ("workerId", VStr worker_id);
              ("generation", VInt generation); ("claimedAt", VStr (_timestamp claimed))]%string);
    successor ← checked_state (with_lease s attempts generation token claimed expires);
    let claim := {| cl_subject := subject; cl_contract := contract; cl_revision := revision; token := token;
      generation := generation; cl_attempt_count := attempts; cl_max_attempts := max_attempts s; claimed_at := claimed;
      cl_lease_expires_at := expires; cl_deadline_at := deadline_at s; terminal_reason := reason |} in
    ReconciliationAttemptClaim_check claim ;;
    Ok (Some (successor, claim)).

Definition _subject_stable_retry_delay (backoff_seconds : Z) (claim : ReconciliationAttemptClaim) : res Z :=
  let minimum := (backoff_seconds + 1) / 2 in
  let width := backoff_seconds - minimum + 1 in
  digest ← hash_mapping (obj [("schemaVersion", VStr (u "ci-reconciliation-retry-jitter/v1"));
             ("subjectId", VStr (subject_id (cl_subject claim)));
             ("attemptCount", VInt (cl_attempt_count claim))]%string);
  Ok (minimum + hex_value (take 16 digest) mod width).

Definition defer_reconciliation_claim (s : ReconciliationConvergenceState) (claim : ReconciliationAttemptClaim)
    (now : pydatetime) (snapshot_revision : Z) : res DeferOutcome :=
  _bounded_non_negative snapshot_revision MAX_SAFE_JSON_INTEGER (u "reconciliation snapshot revision") ;;
  deferred_at ← _utc now (u "reconciliation defer time");
  active ← reconciliation_claim_is_active s claim (Aware deferred_at);
  if negb active then DeferLost <$> claim_lost (subject_id (cl_subject claim))
  else if deferred_at >=? deadline_at s then
    _bounded_non_negative snapshot_revision MAX_SAFE_JSON_INTEGER (u "terminal snapshot revision") ;;
    Ok (TerminalRequired claim snapshot_revision)
  else
    raise_if (attempt_count s >=? max_attempts s) (ValueError (u "terminal reconciliation claim cannot be deferred")) ;;
    delay ← _subject_stable_retry_delay (backoff_seconds s) claim;
    later ← add_seconds deferred_at delay;
    Deferred <$> checked_state (without_lease s (Z.min (deadline_at s) later)
                   (Z.min (backoff_seconds s * 2) (max_backoff_seconds s))).

Definition release_terminal_claim (s : ReconciliationConvergenceState) (claim : ReconciliationAttemptClaim)
    (now : pydatetime) : res ReleaseOutcome :=
  completed_at ← _utc now (u "reconciliation completion time");
  active ← reconciliation_claim_is_active s claim (Aware completed_at);
  if negb active then ReleaseLost <$> claim_lost (subject_id (cl_subject claim))
  else Released <$> checked_state (without_lease s (next_attempt_at s) (backoff_seconds s)).
End operations.

Definition convergence_failure (claim : ReconciliationAttemptClaim) (reason : ConvergenceTerminalReason)
    : res ReconciliationResult :=
  let '(kind, message) :=
    match reason with
    | deadline_exceeded => (reconciliation_timed_out, u "reconciliation did not converge before its deadline")
    | attempts_exhausted =>
        (reconciliation_attempts_exhausted, u "reconciliation did not converge within its attempt bound")
    end in
  f ← ReconciliationFinding_new kind None [] message;
  ReconciliationResult_new (subject_id (cl_subject claim)) failure [f].
