(* ===== verification/ConvergenceFacts.v ===== *)
(** * Convergence: fencing, bounds and progress

    One subject's schedule shared by any number of workers: every history of
    claims, deferrals and releases, with clocks that need not agree. *)

From stdpp Require Import base gmap sets list sorting strings.
From Stdlib Require Import ZArith Lia.
From S2P Require Import Prelude Text CanonicalJson Hashing Instants Reconciliation ReconciliationFacts Convergence.

(** ** What the constructors admit *)

Definition lease_ok (s : ReconciliationConvergenceState) : Prop :=
  match lease_token s, lease_acquired_at s, lease_expires_at s with
  | None, None, None => True
  | Some t, Some a, Some e =>
      is_sha256_hex t = true /\ created_at s <= a < e /\
      e <= a + MAX_RECONCILIATION_LEASE_SECONDS * SECOND <= DATETIME_MAX
  | _, _, _ => False
  end.

Record state_ok (s : ReconciliationConvergenceState) : Prop := {
  st_deadline : created_at s < deadline_at s <= created_at s + MAX_RECONCILIATION_DEADLINE_SECONDS * SECOND;
  st_range : created_at s + MAX_RECONCILIATION_DEADLINE_SECONDS * SECOND <= DATETIME_MAX;
  st_next : created_at s <= next_attempt_at s <= deadline_at s;
  st_attempts : 0 <= attempt_count s <= max_attempts s;
  st_max : 1 <= max_attempts s <= MAX_RECONCILIATION_ATTEMPTS;
  st_backoff : 1 <= backoff_seconds s <= max_backoff_seconds s;
  st_max_backoff : max_backoff_seconds s <= MAX_RECONCILIATION_BACKOFF_SECONDS;
  st_generation : attempt_count s <= claim_generation s <= MAX_SAFE_JSON_INTEGER;
  st_lease : lease_ok s;
}.

Lemma bounded_positive_iff v m n x : m <= MAX_SAFE_JSON_INTEGER -> _bounded_positive v m n = Ok x <-> 1 <= v <= m.
Proof. intros Hm. unfold _bounded_positive. rewrite raise_if_Ok. unfold is_safe_int. lia. Qed.

Lemma bounded_non_negative_iff v m n x :
  m <= MAX_SAFE_JSON_INTEGER -> _bounded_non_negative v m n = Ok x <-> 0 <= v <= m.
Proof. intros Hm. unfold _bounded_non_negative. rewrite raise_if_Ok. unfold is_safe_int. lia. Qed.

Lemma add_seconds_iff t s r : add_seconds t s = Ok r <-> r = t + s * SECOND /\ t + s * SECOND <= DATETIME_MAX.
Proof.
  unfold add_seconds. destruct (Z.gtb_spec (t + s * SECOND) DATETIME_MAX); split; [done|lia| |].
  - intros [= <-]. lia.
  - by intros [-> _].
Qed.

Lemma require_digest_iff v n x : _require_digest v n = Ok x <-> is_sha256_hex v = true.
Proof. unfold _require_digest. rewrite raise_if_Ok. apply negb_false_iff'. Qed.

(** Produce the next check of a constructor. *)
Ltac next_check := apply bind_Ok; exists tt; split.

Lemma state_check_iff s : ReconciliationConvergenceState_check s = Ok tt <-> state_ok s.
Proof.
  unfold ReconciliationConvergenceState_check. split.
  - intros (? & E1%raise_if_Ok & (? & [-> E2]%add_seconds_iff & (? & E3%raise_if_Ok & (? & E4%raise_if_Ok & E)%bind_Ok)%bind_Ok)%bind_Ok)%bind_Ok.
    apply bind_Ok in E as (? & E5 & E). apply bind_Ok in E as (? & E6 & E).
    apply bounded_positive_iff in E6; [|done]. unfold MAX_RECONCILIATION_ATTEMPTS in E6.
    apply bounded_non_negative_iff in E5; [|unfold MAX_SAFE_JSON_INTEGER; lia].
    apply bind_Ok in E as (? & E7 & E). apply bind_Ok in E as (? & E8%bounded_positive_iff & E); [|done].
    unfold MAX_RECONCILIATION_BACKOFF_SECONDS in E8.
    apply bounded_positive_iff in E7; [|unfold MAX_SAFE_JSON_INTEGER; lia].
    apply bind_Ok in E as (? & E9%bounded_non_negative_iff & E); [|done].
    apply bind_Ok in E as (? & E10%raise_if_Ok & E). apply bind_Ok in E as (? & E11%raise_if_Ok & E).
    split; unfold MAX_RECONCILIATION_ATTEMPTS, MAX_RECONCILIATION_BACKOFF_SECONDS; try lia.
    unfold lease_ok. destruct (lease_token s), (lease_acquired_at s), (lease_expires_at s); try done.
    apply bind_Ok in E as (? & E12%require_digest_iff & (? & E13%raise_if_Ok & (? & E14%raise_if_Ok & (? & [-> E15]%add_seconds_iff & E16%raise_if_Ok)%bind_Ok)%bind_Ok)%bind_Ok).
    split; [done|]. lia.
  - intros [H1 H2 H3 H4 H5 H6 H7 H8 H9].
    unfold MAX_RECONCILIATION_ATTEMPTS, MAX_RECONCILIATION_BACKOFF_SECONDS in *.
    next_check; [apply raise_if_Ok; lia|].
    apply bind_Ok. eexists. split; [apply add_seconds_iff; split; [done|lia]|].
    next_check; [apply raise_if_Ok; lia|]. next_check; [apply raise_if_Ok; lia|].
    next_check; [apply bounded_non_negative_iff; unfold MAX_SAFE_JSON_INTEGER; lia|].
    next_check; [apply bounded_positive_iff; unfold MAX_SAFE_JSON_INTEGER, MAX_RECONCILIATION_ATTEMPTS; lia|].
    next_check; [apply bounded_positive_iff; unfold MAX_SAFE_JSON_INTEGER; lia|].
    next_check; [apply bounded_positive_iff; unfold MAX_SAFE_JSON_INTEGER, MAX_RECONCILIATION_BACKOFF_SECONDS; lia|].
    next_check; [apply bounded_non_negative_iff; lia|]. next_check; [apply raise_if_Ok; lia|].
    unfold lease_ok in H9. destruct (lease_token s), (lease_acquired_at s), (lease_expires_at s); try done.
    next_check; [done|]. destruct H9 as (? & ? & ?).
    next_check; [by apply require_digest_iff|]. next_check; [apply raise_if_Ok; lia|].
    next_check; [apply raise_if_Ok; lia|]. apply bind_Ok. eexists. split; [apply add_seconds_iff; split; [done|lia]|].
    apply raise_if_Ok. lia.
Qed.

(** The outcome of a claim against the attempts and the deadline. *)
Lemma claim_outcome_cases s t :
  state_ok s ->
  match claim_outcome s t with
  | (Some deadline_exceeded, n) => deadline_at s <= t /\ n = attempt_count s
  | (Some attempts_exhausted, n) => t < deadline_at s /\ attempt_count s = max_attempts s /\ n = attempt_count s
  | (None, n) => t < deadline_at s /\ attempt_count s < max_attempts s /\ n = attempt_count s + 1
  end.
Proof.
  intros Hs. pose proof (st_attempts _ Hs). unfold claim_outcome.
  destruct (Z.geb_spec t (deadline_at s)); [lia|]. destruct (Z.geb_spec (attempt_count s) (max_attempts s)); lia.
Qed.

Lemma claim_outcome_attempts s t : state_ok s -> attempt_count s <= snd (claim_outcome s t) <= Z.min (max_attempts s) (attempt_count s + 1).
Proof.
  intros Hs. pose proof (claim_outcome_cases s t Hs). pose proof (st_attempts _ Hs).
  destruct (claim_outcome s t) as [[[]|] n]; cbn; lia.
Qed.

Lemma claim_check_intro c :
  0 <= cl_revision c <= MAX_SAFE_JSON_INTEGER -> is_sha256_hex (token c) = true ->
  1 <= generation c <= MAX_SAFE_JSON_INTEGER -> 0 <= cl_attempt_count c <= cl_max_attempts c ->
  1 <= cl_max_attempts c <= MAX_RECONCILIATION_ATTEMPTS ->
  claimed_at c < cl_lease_expires_at c <= claimed_at c + MAX_RECONCILIATION_LEASE_SECONDS * SECOND ->
  claimed_at c + MAX_RECONCILIATION_LEASE_SECONDS * SECOND <= DATETIME_MAX ->
  cl_attempt_count c <= generation c ->
  match terminal_reason c with
  | Some deadline_exceeded => cl_deadline_at c <= claimed_at c
  | Some attempts_exhausted => cl_attempt_count c = cl_max_attempts c /\ claimed_at c < cl_deadline_at c
  | None => 1 <= cl_attempt_count c /\ claimed_at c < cl_deadline_at c
  end ->
  ReconciliationAttemptClaim_check c = Ok tt.
Proof.
  intros H1 H2 H3 H4 H5 H6 H7 H8 H9. unfold MAX_RECONCILIATION_ATTEMPTS in *. unfold ReconciliationAttemptClaim_check.
  next_check; [by apply bounded_non_negative_iff|]. next_check; [by apply require_digest_iff|].
  next_check; [by apply bounded_positive_iff|].
  next_check; [apply bounded_non_negative_iff; unfold MAX_SAFE_JSON_INTEGER; lia|].
  next_check; [apply bounded_positive_iff; unfold MAX_SAFE_JSON_INTEGER, MAX_RECONCILIATION_ATTEMPTS; lia|].
  next_check; [apply raise_if_Ok; lia|]. apply bind_Ok. eexists. split; [by apply add_seconds_iff|].
  next_check; [apply raise_if_Ok; lia|].
  destruct (terminal_reason c) as [[]|]; cbn [bool_decide andb].
  - next_check; [apply raise_if_Ok; apply andb_false_intro2; lia|]. next_check; [done|]. apply raise_if_Ok. lia.
  - next_check; [apply raise_if_Ok; done|].
    next_check; [next_check; [apply raise_if_Ok; lia|]; apply raise_if_Ok; lia|]. apply raise_if_Ok. lia.
  - next_check; [apply raise_if_Ok; done|].
    next_check; [next_check; [apply raise_if_Ok; lia|]; apply raise_if_Ok; lia|]. apply raise_if_Ok. lia.
Qed.

Lemma timestamp_scalar t : is_unicode_scalar_string (_timestamp t) = true.
Proof. apply isoformat_scalar. Qed.

Lemma NoDup_fmap_elem {A B} (f : A -> B) l x y : NoDup (f <$> l) -> x ∈ l -> y ∈ l -> f x = f y -> x = y.
Proof.
  intros Hn [i Hi]%list_elem_of_lookup [j Hj]%list_elem_of_lookup E.
  assert (i = j) as ->; [|congruence].
  apply (NoDup_lookup _ _ _ (f x) Hn); rewrite list_lookup_fmap; [by rewrite Hi|by rewrite Hj, E].
Qed.

Section facts.
Context `{Sha256}.

Lemma token_total subject worker gen t :
  is_sha256_hex (subject_id subject) = true -> is_sha256_hex worker = true -> 0 <= gen <= MAX_SAFE_JSON_INTEGER ->
  exists tok, hash_mapping (obj [("schemaVersion", VStr (u "ci-reconciliation-claim/v1"));
              ("subjectId", VStr (subject_id subject)); ("workerId", VStr worker);
              ("generation", VInt gen); ("claimedAt", VStr (_timestamp t))]%string) = Ok tok /\ is_sha256_hex tok = true.
Proof.
  intros Hs Hw Hg. apply hash_mapping_total, jsonable_obj. cbn.
  rewrite scalar_u, (sha256_hex_scalar _ Hs), (sha256_hex_scalar _ Hw), timestamp_scalar. cbn.
  unfold is_safe_int. rewrite andb_true_r. lia.
Qed.

Lemma jitter_total b c :
  1 <= b -> is_sha256_hex (subject_id (cl_subject c)) = true -> 0 <= cl_attempt_count c <= MAX_SAFE_JSON_INTEGER ->
  exists d, _subject_stable_retry_delay b c = Ok d /\ (b + 1) / 2 <= d <= b.
Proof.
  intros Hb Hs Ha. unfold _subject_stable_retry_delay.
  destruct (hash_mapping_total (obj [("schemaVersion", VStr (u "ci-reconciliation-retry-jitter/v1"));
    ("subjectId", VStr (subject_id (cl_subject c))); ("attemptCount", VInt (cl_attempt_count c))]%string)) as (h & E & _).
  { apply jsonable_obj. cbn. rewrite scalar_u, (sha256_hex_scalar _ Hs). cbn. unfold is_safe_int. rewrite andb_true_r. lia. }
  rewrite E. cbn [mbind res_bind]. eexists. split; [done|].
  assert ((b + 1) / 2 <= b) by (apply Z.div_le_upper_bound; lia).
  pose proof (Z.mod_pos_bound (hex_value (take 16 h)) (b - (b + 1) / 2 + 1) ltac:(lia)). lia.
Qed.
(** ** Each operation *)

Definition new_claim subject contract revision tok (s : ReconciliationConvergenceState) t e : ReconciliationAttemptClaim :=
  {| cl_subject := subject; cl_contract := contract; cl_revision := revision; token := tok;
     generation := claim_generation s + 1; cl_attempt_count := snd (claim_outcome s t); cl_max_attempts := max_attempts s;
     claimed_at := t; cl_lease_expires_at := e; cl_deadline_at := deadline_at s;
     terminal_reason := fst (claim_outcome s t) |}.

(** No lease is live at [t]. *)
Definition lease_free (s : ReconciliationConvergenceState) (t : Z) : Prop :=
  forall e, lease_expires_at s = Some e -> e <= t.

Lemma acquire_inv s subject contract revision worker now policy s' c :
  acquire_reconciliation_claim s subject contract revision worker now policy = Ok (Some (s', c)) ->
  exists t tok e, now = Aware t /\ next_attempt_at s <= t /\ lease_free s t /\
    s' = with_lease s (snd (claim_outcome s t)) (claim_generation s + 1) tok t e /\
    c = new_claim subject contract revision tok s t e /\ state_ok s'.
Proof.
  unfold acquire_reconciliation_claim. intros (? & _ & (? & _ & (t & Ht & E)%bind_Ok)%bind_Ok)%bind_Ok.
  destruct now as [|t']; [done|]. injection Ht as ->.
  destruct (Z.gtb_spec (next_attempt_at s) t) as [|Hn]; [done|].
  destruct (match lease_expires_at s with Some e => e >? t | None => false end) eqn:El; [done|].
  apply bind_Ok in E as (? & _ & E). destruct (claim_outcome s t) as [reason attempts] eqn:Eo.
  apply bind_Ok in E as (e & _ & E). apply bind_Ok in E as (tok & _ & E).
  apply bind_Ok in E as (s2 & ([] & Hs%state_check_iff & E2)%bind_Ok & E). injection E2 as <-.
  apply bind_Ok in E as (? & _ & E). injection E as <- <-.
  exists t, tok, e. split_and!; try done; [|by rewrite Eo|by unfold new_claim; rewrite Eo].
  intros e' He. rewrite He in El. lia.
Qed.

Lemma policy_lease p : ReconciliationConvergencePolicy_check p = Ok tt -> 1 <= lease_seconds p <= MAX_RECONCILIATION_LEASE_SECONDS.
Proof.
  unfold ReconciliationConvergencePolicy_check. intros Hp. do 5 apply bind_Ok in Hp as (? & _ & Hp).
  by apply bind_Ok in Hp as (? & Hl%bounded_positive_iff & _).
Qed.

Lemma with_lease_ok s n tok t e :
  state_ok s -> attempt_count s <= n <= Z.min (max_attempts s) (attempt_count s + 1) ->
  claim_generation s + 1 <= MAX_SAFE_JSON_INTEGER -> is_sha256_hex tok = true -> created_at s <= t < e ->
  e <= t + MAX_RECONCILIATION_LEASE_SECONDS * SECOND <= DATETIME_MAX ->
  state_ok (with_lease s n (claim_generation s + 1) tok t e).
Proof.
  intros [H1 H2 H3 H4 H5 H6 H7 H8 H9] Hn Hg Htok Ht He.
  split; cbn [with_lease created_at deadline_at next_attempt_at attempt_count max_attempts backoff_seconds
    max_backoff_seconds claim_generation]; try done; lia.
Qed.

Lemma new_claim_ok subject contract revision tok s t e :
  state_ok s -> 0 <= revision <= MAX_SAFE_JSON_INTEGER -> is_sha256_hex tok = true ->
  claim_generation s + 1 <= MAX_SAFE_JSON_INTEGER ->
  t < e <= t + MAX_RECONCILIATION_LEASE_SECONDS * SECOND /\ t + MAX_RECONCILIATION_LEASE_SECONDS * SECOND <= DATETIME_MAX ->
  ReconciliationAttemptClaim_check (new_claim subject contract revision tok s t e) = Ok tt.
Proof.
  intros Hs Hrev Htok Hg [He Ht]. pose proof (claim_outcome_cases s t Hs) as Ho.
  pose proof (claim_outcome_attempts s t Hs) as Ha. pose proof (st_attempts _ Hs). pose proof (st_generation _ Hs).
  apply claim_check_intro;
    cbn [new_claim cl_revision token generation cl_attempt_count cl_max_attempts claimed_at cl_lease_expires_at
         cl_deadline_at terminal_reason]; try done; try lia; [apply (st_max _ Hs)|].
  destruct (claim_outcome s t) as [[[]|] n]; cbn [fst snd] in *; lia.
Qed.

Lemma acquire_total_facts s subject contract revision worker t policy :
  state_ok s -> is_sha256_hex (subject_id subject) = true -> 0 <= revision <= MAX_SAFE_JSON_INTEGER ->
  is_sha256_hex worker = true -> ReconciliationConvergencePolicy_check policy = Ok tt ->
  next_attempt_at s <= t -> lease_free s t -> claim_generation s < MAX_SAFE_JSON_INTEGER ->
  t + MAX_RECONCILIATION_LEASE_SECONDS * SECOND <= DATETIME_MAX ->
  exists s' c, acquire_reconciliation_claim s subject contract revision worker (Aware t) policy = Ok (Some (s', c)) /\
    ReconciliationAttemptClaim_check c = Ok tt.
Proof.
  intros Hs Hsub Hrev Hw Hpol Hn Hl Hg Ht. pose proof Hs as [H1 H2 H3 H4 H5 H6 H7 H8 H9].
  apply policy_lease in Hpol as Hpl. unfold SECOND, MAX_RECONCILIATION_LEASE_SECONDS in *.
  destruct (token_total subject worker (claim_generation s + 1) t) as (tok & Etok & Hhex); [done|done|lia|].
  set (e := t + lease_seconds policy * SECOND).
  assert (Hs' : state_ok (with_lease s (snd (claim_outcome s t)) (claim_generation s + 1) tok t e)).
  { apply with_lease_ok; [exact Hs|by apply claim_outcome_attempts|lia|exact Hhex|subst e; unfold SECOND; lia|].
    subst e; unfold SECOND, MAX_RECONCILIATION_LEASE_SECONDS; lia. }
  assert (Hc : ReconciliationAttemptClaim_check (new_claim subject contract revision tok s t e) = Ok tt).
  { apply new_claim_ok; [exact Hs|exact Hrev|exact Hhex|lia|]. subst e; unfold SECOND, MAX_RECONCILIATION_LEASE_SECONDS; lia. }
  exists (with_lease s (snd (claim_outcome s t)) (claim_generation s + 1) tok t e), (new_claim subject contract revision tok s t e).
  split; [|done]. unfold acquire_reconciliation_claim.
  next_check; [by apply bounded_non_negative_iff|]. next_check; [by apply require_digest_iff|].
  cbn [_utc mbind res_bind]. destruct (Z.gtb_spec (next_attempt_at s) t); [lia|].
  replace (match lease_expires_at s with Some e => e >? t | None => false end) with false.
  2:{ destruct (lease_expires_at s) as [e'|] eqn:El; [|done]. specialize (Hl e' El). lia. }
  next_check; [apply bounded_positive_iff; lia|]. unfold new_claim in Hc |- *.
  destruct (claim_outcome s t) as [reason attempts]. cbn [fst snd] in *.
  apply bind_Ok. exists e. split; [apply add_seconds_iff; subst e; split; [done|unfold SECOND; lia]|].
  rewrite Etok. cbn [mbind res_bind]. apply bind_Ok. eexists. split.
  { next_check; [by apply state_check_iff|done]. }
  next_check; [done|]. done.
Qed.

Lemma active_inv s c t :
  reconciliation_claim_is_active s c (Aware t) = Ok true ->
  claim_generation s = generation c /\ lease_token s = Some (token c) /\ lease_acquired_at s = Some (claimed_at c) /\
  exists e, lease_expires_at s = Some e /\ claimed_at c <= t < e.
Proof.
  unfold reconciliation_claim_is_active. cbn [_utc mbind res_bind]. intros [= E].
  apply andb_true_iff in E as [[[E1%bool_decide_eq_true E2]%andb_true_iff E3%bool_decide_eq_true]%andb_true_iff E4].
  destruct (lease_expires_at s) as [e|]; [|done]. split_and!; [lia|done|done|]. exists e. split; [done|lia].
Qed.

(** ** Deferral *)

Lemma without_lease_ok s next b :
  state_ok s -> created_at s <= next <= deadline_at s -> 1 <= b <= max_backoff_seconds s ->
  state_ok (without_lease s next b).
Proof. intros [H1 H2 H3 H4 H5 H6 H7 H8 H9] Hn Hb. split; cbn; try done; lia. Qed.

Lemma defer_inv s c now rev s' :
  defer_reconciliation_claim s c now rev = Ok (Deferred s') ->
  exists t next b, now = Aware t /\ reconciliation_claim_is_active s c (Aware t) = Ok true /\
    t < deadline_at s /\ attempt_count s < max_attempts s /\ s' = without_lease s next b /\ state_ok s'.
Proof.
  unfold defer_reconciliation_claim. intros (? & _ & (t & Ht & E)%bind_Ok)%bind_Ok.
  destruct now as [|t']; [done|]. injection Ht as ->. apply bind_Ok in E as (active & Ea & E).
  destruct active; cbn [negb] in E; [|by apply fmap_Ok in E as (? & _ & ?)].
  destruct (Z.geb_spec t (deadline_at s)); [by apply bind_Ok in E as (? & _ & ?)|].
  apply bind_Ok in E as (? & Em%raise_if_Ok & E). apply bind_Ok in E as (d & _ & E). apply bind_Ok in E as (l & _ & E).
  apply fmap_Ok in E as (s2 & ([] & Hs%state_check_iff & E2)%bind_Ok & E). injection E2 as <-. injection E as ->.
  exists t, (Z.min (deadline_at s) l), (Z.min (backoff_seconds s * 2) (max_backoff_seconds s)).
  split_and!; try done; lia.
Qed.

Lemma release_inv s c now s' :
  release_terminal_claim s c now = Ok (Released s') ->
  exists t, now = Aware t /\ reconciliation_claim_is_active s c (Aware t) = Ok true /\
    s' = without_lease s (next_attempt_at s) (backoff_seconds s) /\ state_ok s'.
Proof.
  unfold release_terminal_claim. intros (t & Ht & E)%bind_Ok. destruct now as [|t']; [done|]. injection Ht as ->.
  apply bind_Ok in E as (active & Ea & E). destruct active; cbn [negb] in E; [|by apply fmap_Ok in E as (? & _ & ?)].
  apply fmap_Ok in E as (s2 & ([] & Hs%state_check_iff & E2)%bind_Ok & E). injection E2 as <-. injection E as ->. eauto.
Qed.

(** A deferral in time, spelled out. *)
Lemma defer_total_facts s c t rev :
  state_ok s -> reconciliation_claim_is_active s c (Aware t) = Ok true -> t < deadline_at s ->
  attempt_count s < max_attempts s -> is_sha256_hex (subject_id (cl_subject c)) = true ->
  0 <= cl_attempt_count c <= MAX_SAFE_JSON_INTEGER -> 0 <= rev <= MAX_SAFE_JSON_INTEGER ->
  deadline_at s + MAX_RECONCILIATION_BACKOFF_SECONDS * SECOND <= DATETIME_MAX ->
  exists d, (backoff_seconds s + 1) / 2 <= d <= backoff_seconds s /\
    defer_reconciliation_claim s c (Aware t) rev =
      Ok (Deferred (without_lease s (Z.min (deadline_at s) (t + d * SECOND))
                      (Z.min (backoff_seconds s * 2) (max_backoff_seconds s)))) /\
    state_ok (without_lease s (Z.min (deadline_at s) (t + d * SECOND))
                (Z.min (backoff_seconds s * 2) (max_backoff_seconds s))).
Proof.
  intros Hs Ha Ht Hm Hsub Hc Hrev Hdt. pose proof (st_backoff _ Hs) as Hb. pose proof (st_max_backoff _ Hs) as Hmb.
  destruct (jitter_total (backoff_seconds s) c) as (d & Ed & Hd); [lia|done|done|]. exists d. split; [done|].
  pose proof (active_inv s c t Ha) as (_ & _ & Hacq & e & He & Hte).
  assert (Hcr : created_at s <= t).
  { pose proof (st_lease _ Hs) as Hl. unfold lease_ok in Hl. rewrite Hacq, He in Hl.
    destruct (lease_token s); [|done]. lia. }
  assert (0 <= (backoff_seconds s + 1) / 2) by (apply Z.div_pos; lia).
  unfold SECOND, MAX_RECONCILIATION_BACKOFF_SECONDS in *.
  assert (Hok : state_ok (without_lease s (Z.min (deadline_at s) (t + d * 1000000))
                (Z.min (backoff_seconds s * 2) (max_backoff_seconds s)))).
  { apply without_lease_ok; [exact Hs|pose proof (st_deadline _ Hs); lia|lia]. }
  split; [|exact Hok]. unfold defer_reconciliation_claim. next_check; [by apply bounded_non_negative_iff|].
  cbn [_utc mbind res_bind]. rewrite Ha. cbn [mbind res_bind negb].
  destruct (Z.geb_spec t (deadline_at s)); [lia|]. next_check; [apply raise_if_Ok; lia|].
  rewrite Ed. cbn [mbind res_bind]. apply bind_Ok. exists (t + d * 1000000). split; [apply add_seconds_iff; unfold SECOND; lia|].
  apply fmap_Ok. eexists. split; [|done]. next_check; [by apply state_check_iff|done].
Qed.

(** ** Histories of one subject *)

Record world := MkWorld { schedule : ReconciliationConvergenceState; claims : list ReconciliationAttemptClaim }.

(** What changes the schedule: a claim by any worker under any policy, and
    deferral or release through any claim ever issued.  Every other outcome of
    the three operations leaves the stored schedule as it is. *)
Inductive wstep (subject : ReconciliationSubject) (contract : ReconciliationContract) : world -> world -> Prop :=
  | w_claim w revision worker now policy s c :
      acquire_reconciliation_claim (schedule w) subject contract revision worker now policy = Ok (Some (s, c)) ->
      wstep subject contract w (MkWorld s (claims w ++ [c]))
  | w_defer w c now revision s :
      c ∈ claims w -> defer_reconciliation_claim (schedule w) c now revision = Ok (Deferred s) ->
      wstep subject contract w (MkWorld s (claims w))
  | w_release w c now s :
      c ∈ claims w -> release_terminal_claim (schedule w) c now = Ok (Released s) ->
      wstep subject contract w (MkWorld s (claims w)).

Inductive history (subject : ReconciliationSubject) (contract : ReconciliationContract)
    (s0 : ReconciliationConvergenceState) : world -> Prop :=
  | h_init : history subject contract s0 (MkWorld s0 [])
  | h_step w w' : history subject contract s0 w -> wstep subject contract w w' -> history subject contract s0 w'.

Definition pollable (l : list ReconciliationAttemptClaim) : list ReconciliationAttemptClaim :=
  filter (fun c => may_poll c = true) l.

Record winv (subject : ReconciliationSubject) (s0 : ReconciliationConvergenceState) (w : world) : Prop := {
  wi_state : state_ok (schedule w);
  wi_fixed : max_attempts (schedule w) = max_attempts s0 /\ deadline_at (schedule w) = deadline_at s0;
  wi_claims c : c ∈ claims w ->
    1 <= generation c <= claim_generation (schedule w) /\
    cl_max_attempts c = max_attempts s0 /\ cl_deadline_at c = deadline_at s0 /\
    (generation c = claim_generation (schedule w) -> cl_attempt_count c = attempt_count (schedule w)) /\
    (may_poll c = true -> claimed_at c < deadline_at s0) /\ cl_subject c = subject;
  wi_unique : NoDup (generation <$> claims w);
  wi_polls : Z.of_nat (length (pollable (claims w))) = attempt_count (schedule w);
}.

Lemma winv_acquire s0 subject contract w revision worker now policy s c :
  winv subject s0 w -> acquire_reconciliation_claim (schedule w) subject contract revision worker now policy = Ok (Some (s, c)) ->
  winv subject s0 (MkWorld s (claims w ++ [c])).
Proof.
  intros [Hs Hf Hc Hu Hp] (t & tok & e & -> & Hn & Hl & -> & -> & Hok)%acquire_inv.
  pose proof (claim_outcome_cases _ t Hs) as Ho. pose proof (st_generation _ Hs). pose proof (st_attempts _ Hs).
  split; cbn [schedule claims]; [done|done| | |].
  - intros c [Hin|Hin%list_elem_of_singleton]%elem_of_app; [|subst c].
    + destruct (Hc c Hin) as (? & ? & ? & ? & ? & ?). cbn [with_lease claim_generation attempt_count].
      split_and!; try done; lia.
    + cbn [new_claim with_lease generation claim_generation cl_max_attempts cl_deadline_at cl_attempt_count attempt_count
           claimed_at cl_subject]. split_and!; try tauto; try lia.
      unfold may_poll. cbn [new_claim terminal_reason]. destruct (claim_outcome _ t) as [[[]|] n]; cbn [fst is_none]; try done. lia.
  - rewrite fmap_app. apply NoDup_app. split; [done|]. split; [|apply NoDup_singleton].
    intros g (c & -> & Hin)%list_elem_of_fmap Hg%list_elem_of_singleton. destruct (Hc c Hin) as ((_ & ?) & _).
    cbn [new_claim generation] in Hg. lia.
  - unfold pollable, may_poll in *. rewrite filter_app, length_app, filter_cons, filter_nil.
    cbn [new_claim terminal_reason with_lease attempt_count].
    destruct (claim_outcome _ t) as [[[]|] n]; cbn [fst snd is_none]; destruct (decide _); try done; cbn [length]; lia.
Qed.

Lemma winv_unleased subject s0 w next b :
  winv subject s0 w -> state_ok (without_lease (schedule w) next b) ->
  winv subject s0 (MkWorld (without_lease (schedule w) next b) (claims w)).
Proof. intros [Hs Hf Hc Hu Hp] Hok. by split. Qed.

Lemma history_winv subject contract s0 w : state_ok s0 -> attempt_count s0 = 0 -> history subject contract s0 w -> winv subject s0 w.
Proof.
  intros Hs Ha. induction 1 as [|w w' Hh IH Hst].
  - split; cbn; try done; [set_solver|constructor].
  - destruct Hst as [w revision worker now policy s c Hacq|w c now revision s Hc Hd|w c now s Hc Hr].
    + by eapply winv_acquire.
    + apply defer_inv in Hd as (t & next & b & -> & _ & _ & _ & -> & Hok). by apply winv_unleased.
    + apply release_inv in Hr as (t & -> & _ & -> & Hok). by apply winv_unleased.
Qed.

Lemma initial_ok now policy s0 : initial_convergence_state now policy = Ok s0 -> state_ok s0 /\ attempt_count s0 = 0.
Proof.
  unfold initial_convergence_state. intros (t & _ & (d & _ & ([] & Hs%state_check_iff & E)%bind_Ok)%bind_Ok)%bind_Ok.
  injection E as <-. done.
Qed.

(** C33: claims are fenced, whatever the workers' clocks say: at most one claim of
    a subject is active in any reachable schedule; a new one is only granted at
    a time no earlier claim is active, and from then on every earlier claim is
    lost: it can neither defer nor finish the subject. *)
Theorem claims_fenced now policy subject contract s0 w :
  initial_convergence_state now policy = Ok s0 -> history subject contract s0 w ->
  (forall c1 c2 t1 t2, c1 ∈ claims w -> c2 ∈ claims w ->
     reconciliation_claim_is_active (schedule w) c1 (Aware t1) = Ok true ->
     reconciliation_claim_is_active (schedule w) c2 (Aware t2) = Ok true -> c1 = c2) /\
  (forall revision worker t policy' s c,
     acquire_reconciliation_claim (schedule w) subject contract revision worker (Aware t) policy' = Ok (Some (s, c)) ->
     forall c', c' ∈ claims w ->
       reconciliation_claim_is_active (schedule w) c' (Aware t) = Ok false /\
       forall t', reconciliation_claim_is_active s c' (Aware t') = Ok false /\
         (forall rev s', defer_reconciliation_claim s c' (Aware t') rev <> Ok (Deferred s')) /\
         (forall s', release_terminal_claim s c' (Aware t') <> Ok (Released s'))).
Proof.
  intros [Hs Ha]%initial_ok Hh. apply history_winv in Hh as Hw; [|done|done]. split.
  - intros c1 c2 t1 t2 H1 H2 (E1 & _)%active_inv (E2 & _)%active_inv.
    eapply (NoDup_fmap_elem generation (claims w)); [apply (wi_unique _ _ _ Hw)|done|done|congruence].
  - intros revision worker t policy' s c (t0 & tok & e & Ht & Hn & Hl & Es & _)%acquire_inv c' Hc'. injection Ht as <-.
    destruct (wi_claims _ _ _ Hw c' Hc') as (Hg & _).
    assert (Hdead : forall t', reconciliation_claim_is_active s c' (Aware t') = Ok false).
    { intros t'. destruct (reconciliation_claim_is_active s c' (Aware t')) as [[]|] eqn:E; [|done|done].
      apply active_inv in E as (Eg & _). rewrite Es in Eg. cbn [with_lease claim_generation] in Eg. lia. }
    split; [|intros t'; split_and!; [apply Hdead| |]].
    + destruct (reconciliation_claim_is_active (schedule w) c' (Aware t)) as [[]|] eqn:E; [|done|done].
      apply active_inv in E as (_ & _ & _ & e' & He' & ?). specialize (Hl e' He'). lia.
    + intros rev s' (t2 & ? & ? & [= <-] & Hact & _)%defer_inv. by rewrite Hdead in Hact.
    + intros s' (t2 & [= <-] & Hact & _)%release_inv. by rewrite Hdead in Hact.
Qed.

(** C36: polling is bounded: over every history at most [max_attempts] claims may
    poll the provider and all of them start before the deadline; a claim at or
    after the deadline, or after the last attempt, is terminal, and the holder
    of an active claim knows the exact number of attempts used. *)
Theorem attempts_bounded now policy subject contract s0 w :
  initial_convergence_state now policy = Ok s0 -> history subject contract s0 w ->
  Z.of_nat (length (pollable (claims w))) <= max_attempts s0 /\
  (forall c, c ∈ pollable (claims w) -> claimed_at c < deadline_at s0) /\
  (forall c t, c ∈ claims w -> reconciliation_claim_is_active (schedule w) c (Aware t) = Ok true ->
     cl_attempt_count c = Z.of_nat (length (pollable (claims w)))) /\
  (forall revision worker t policy' s c,
     acquire_reconciliation_claim (schedule w) subject contract revision worker (Aware t) policy' = Ok (Some (s, c)) ->
     (may_poll c = true <-> t < deadline_at s0 /\ Z.of_nat (length (pollable (claims w))) < max_attempts s0)).
Proof.
  intros [Hs Ha]%initial_ok Hh. apply history_winv in Hh as [Hok [Hm Hd] Hc _ Hp]; [|done|done].
  rewrite Hp. split_and!.
  - rewrite <- Hm. apply (st_attempts _ Hok).
  - intros c [Hpoll Hin]%list_elem_of_filter. by apply (Hc c Hin).
  - intros c t Hin (E & _)%active_inv. by apply (Hc c Hin).
  - intros revision worker t policy' s c (t0 & tok & e & Ht & _ & _ & _ & -> & _)%acquire_inv. injection Ht as <-.
    pose proof (claim_outcome_cases _ t Hok) as Ho. rewrite <- Hm, <- Hd. unfold may_poll. cbn [new_claim terminal_reason].
    destruct (claim_outcome _ t) as [[[]|] n]; cbn [fst is_none]; split; intros; (done || lia).
Qed.

(** C37: an unfinished subject is retried: the holder of an active claim that
    defers before the deadline, while the claims that may poll are fewer than
    the attempts, always gets a schedule.  Its next attempt lies between half
    and the whole of the current backoff away, both cut at the deadline, so that
    near the deadline it can be nearer than half the backoff and is never later
    than the deadline; the backoff is doubled up to its maximum; and at any time
    from the next attempt on, any worker can take the next claim. *)
Theorem deferral_retries now policy subject contract s0 w c t revision :
  initial_convergence_state now policy = Ok s0 -> history subject contract s0 w ->
  is_sha256_hex (subject_id subject) = true -> 0 <= revision <= MAX_SAFE_JSON_INTEGER ->
  deadline_at s0 + MAX_RECONCILIATION_BACKOFF_SECONDS * SECOND <= DATETIME_MAX ->
  c ∈ claims w -> reconciliation_claim_is_active (schedule w) c (Aware t) = Ok true ->
  t < deadline_at s0 -> Z.of_nat (length (pollable (claims w))) < max_attempts s0 ->
  exists s, defer_reconciliation_claim (schedule w) c (Aware t) revision = Ok (Deferred s) /\
    Z.min (deadline_at s0) (t + (backoff_seconds (schedule w) + 1) / 2 * SECOND) <= next_attempt_at s /\
    next_attempt_at s <= Z.min (deadline_at s0) (t + backoff_seconds (schedule w) * SECOND) /\
    backoff_seconds s = Z.min (backoff_seconds (schedule w) * 2) (max_backoff_seconds (schedule w)) /\
    forall worker policy' t', is_sha256_hex worker = true -> ReconciliationConvergencePolicy_check policy' = Ok tt ->
      next_attempt_at s <= t' -> claim_generation (schedule w) < MAX_SAFE_JSON_INTEGER ->
      t' + MAX_RECONCILIATION_LEASE_SECONDS * SECOND <= DATETIME_MAX ->
      exists s' c', acquire_reconciliation_claim s subject contract revision worker (Aware t') policy' = Ok (Some (s', c')).
Proof.
  intros [Hs Ha]%initial_ok Hh Hsub Hrev Hdt Hin Hact Ht Hpoll.
  apply history_winv in Hh as [Hok [Hm Hd] Hc _ Hp]; [|done|done].
  destruct (Hc c Hin) as (_ & _ & _ & Hatt & _ & Hcs). pose proof (active_inv _ _ _ Hact) as (Hg & _).
  specialize (Hatt (eq_sym Hg)). pose proof (st_attempts _ Hok). pose proof (st_max _ Hok) as Hmx.
  destruct (defer_total_facts (schedule w) c t revision) as (d & Hdl & Edef & Hok'); try done; try (rewrite ?Hd, ?Hcs; done).
  - lia.
  - unfold MAX_RECONCILIATION_ATTEMPTS, MAX_SAFE_JSON_INTEGER in *. lia.
  - eexists. split; [exact Edef|]. clear Edef. cbn [without_lease next_attempt_at backoff_seconds].
    split_and!; [rewrite Hd; unfold SECOND; lia|rewrite Hd; unfold SECOND; lia|done|].
    intros worker policy' t' Hw Hpol Hn Hgen Hdt'.
    destruct (acquire_total_facts _ subject contract revision worker t' policy' Hok') as (s' & c' & E & _);
      [exact Hsub|exact Hrev|exact Hw|exact Hpol|exact Hn|done|exact Hgen|exact Hdt'|]. eauto.
Qed.
End facts.
