(* ===== verification/ReconciliationScenario.v ===== *)
(** * A concrete reconciliation

    One subject with one expected and one omitted signal, two observations, and
    two workers claiming it; the properties of reconciliation applied to it. *)

From stdpp Require Import base gmap sets list sorting strings.
From Stdlib Require Import ZArith Lia.
From S2P Require Import Prelude Text CanonicalJson Hashing Instants Reconciliation ReconciliationFacts Convergence ConvergenceFacts.

#[local] Existing Instance Sha256_checksum.
#[local] Remove Hints Sha256_fips : typeclass_instances.

Definition rc_subject : ReconciliationSubject := Eval vm_compute in
  get_ok (create (H:=Sha256_checksum) 1 2 (u "push") (u "refs/heads/main") sha40 sha40' 7 1) ltac:(vm_compute; reflexivity).

Definition rc_signal : ProviderSignal := Eval vm_compute in
  get_ok (derive (H:=Sha256_checksum) (u "linux") (u "ci_shard_0123456789abcdef0123456789abcdef")) ltac:(vm_compute; reflexivity).

Definition rc_omitted : OmittedSignal := {| os_signal_id := u "web"; os_name := u "web checks" |}.

Definition rc_contract : ReconciliationContract :=
  {| provider_signals := [rc_signal]; omitted_signals := [rc_omitted]; candidate_evidence := None;
     planning_evidence := None |}.

Definition rc_observation (i : string) (st : SignalStatus) (c : option SignalConclusion) : SignalObservation :=
  {| observation_id := u i; so_subject_id := subject_id rc_subject; so_signal_id := ps_signal_id rc_signal;
     so_workflow_run_id := 7; so_run_attempt := 1; provider_job_id := 40; so_status := st; conclusion := c |}.

Definition rc_first : SignalObservation := rc_observation "first" in_progress None.
Definition rc_second : SignalObservation := rc_observation "second" completed (Some CSuccess).

Definition rc_snapshot (obs : list SignalObservation) : ReconciliationSnapshot :=
  {| subject := rc_subject; contract := rc_contract; revision := Z.of_nat (length obs); observations := obs |}.

Definition rc_early : ReconciliationSnapshot := rc_snapshot [rc_first].
Definition rc_late : ReconciliationSnapshot := rc_snapshot [rc_first; rc_second].

Lemma rc_early_constructed : constructed rc_early.
Proof. split; [vm_compute; reflexivity..| | |]; repeat constructor; vm_compute; reflexivity. Qed.

Lemma rc_late_constructed : constructed rc_late.
Proof. split; [vm_compute; reflexivity..| | |]; repeat constructor; vm_compute; reflexivity. Qed.

Definition rc_early_result : ReconciliationResult := Eval vm_compute in
  get_ok (classify_observed_state rc_early) ltac:(vm_compute; reflexivity).
Definition rc_late_result : ReconciliationResult := Eval vm_compute in
  get_ok (classify_observed_state rc_late) ltac:(vm_compute; reflexivity).

Lemma classification_correct_witness : verdict (contract rc_late) (observations rc_late) success.
Proof.
  apply (proj1 (classification_correct rc_late success rc_late_constructed)).
  exists rc_late_result. vm_compute. repeat split; reflexivity.
Defined.

Lemma classification_settles_witness :
  rr_state rc_early_result = pending /\ rr_state rc_late_result = success /\
  (settled (rr_state rc_early_result) <= settled (rr_state rc_late_result))%nat.
Proof.
  split; [reflexivity|]. split; [reflexivity|].
  refine (proj1 (classification_settles rc_early rc_late rc_early_result rc_late_result rc_early_constructed
                   rc_late_constructed eq_refl _ _) _); [vm_compute; reflexivity..|].
  intros o Ho. apply list_elem_of_singleton in Ho. subst o. left.
Defined.

Lemma rc_early_ok : snapshot_ok rc_early.
Proof. apply (proj1 (snapshot_new_iff rc_subject rc_contract 1 [rc_first] rc_early)). vm_compute. reflexivity. Qed.

Lemma append_observation_refines_witness :
  append_observation rc_early 1 rc_second = Ok (ObservationAppended rc_late) /\
  append_observation rc_late 0 rc_second = Ok (ObservationDuplicate rc_late rc_second).
Proof.
  split; [vm_compute; reflexivity|].
  destruct (append_observation_refines rc_early 1 rc_second rc_early_ok) as (r & Er & _ & Hr);
    [reflexivity..|lia|reflexivity|vm_compute; reflexivity|].
  assert (E : append_observation rc_early 1 rc_second = Ok (ObservationAppended rc_late)) by (vm_compute; reflexivity).
  rewrite Er in E. injection E as E. apply (Hr rc_late E); [lia|reflexivity].
Defined.

(** ** Two workers *)

Definition worker_a : pystr := hex64.
Definition worker_b : pystr := reverse hex64.
Definition t0 : Z := 1767225600000000.

Definition rc_start : ReconciliationConvergenceState := Eval vm_compute in
  get_ok (initial_convergence_state (Aware t0) DEFAULT_RECONCILIATION_CONVERGENCE_POLICY) ltac:(vm_compute; reflexivity).
Lemma rc_start_ok : initial_convergence_state (Aware t0) DEFAULT_RECONCILIATION_CONVERGENCE_POLICY = Ok rc_start.
Proof. vm_compute. reflexivity. Qed.

Definition rc_acquire (s : ReconciliationConvergenceState) (worker : pystr) (t : Z) :=
  acquire_reconciliation_claim s rc_subject rc_contract 0 worker (Aware t) DEFAULT_RECONCILIATION_CONVERGENCE_POLICY.

(** Worker A claims the subject and stalls past its lease; worker B takes over. *)
Definition rc_claim_a : option (ReconciliationConvergenceState * ReconciliationAttemptClaim) := Eval vm_compute in
  get_ok (rc_acquire rc_start worker_a t0) ltac:(vm_compute; reflexivity).
Definition rc_a : ReconciliationConvergenceState * ReconciliationAttemptClaim := Eval vm_compute in
  default (rc_start, new_claim rc_subject rc_contract 0 [] rc_start 0 0) rc_claim_a.
Definition t1 : Z := t0 + 301 * SECOND.
Definition rc_claim_b : option (ReconciliationConvergenceState * ReconciliationAttemptClaim) := Eval vm_compute in
  get_ok (rc_acquire rc_a.1 worker_b t1) ltac:(vm_compute; reflexivity).
Definition rc_b : ReconciliationConvergenceState * ReconciliationAttemptClaim := Eval vm_compute in
  default (rc_start, new_claim rc_subject rc_contract 0 [] rc_start 0 0) rc_claim_b.

Definition rc_world_a : world := MkWorld rc_a.1 [rc_a.2].
Definition rc_world : world := MkWorld rc_b.1 [rc_a.2; rc_b.2].

Lemma rc_acquire_a : rc_acquire rc_start worker_a t0 = Ok (Some (rc_a.1, rc_a.2)).
Proof. vm_compute. reflexivity. Qed.
Lemma rc_acquire_b : rc_acquire rc_a.1 worker_b t1 = Ok (Some (rc_b.1, rc_b.2)).
Proof. vm_compute. reflexivity. Qed.

Lemma rc_history_a : history rc_subject rc_contract rc_start rc_world_a.
Proof. eapply h_step; [apply h_init|]. exact (w_claim _ _ (MkWorld rc_start []) _ _ _ _ _ _ rc_acquire_a). Qed.

Lemma rc_history : history rc_subject rc_contract rc_start rc_world.
Proof. eapply h_step; [apply rc_history_a|]. exact (w_claim _ _ rc_world_a _ _ _ _ _ _ rc_acquire_b). Qed.

Lemma claims_fenced_witness :
  reconciliation_claim_is_active rc_b.1 rc_a.2 (Aware (t1 + 1)) = Ok false /\
  reconciliation_claim_is_active rc_b.1 rc_b.2 (Aware (t1 + 1)) = Ok true.
Proof.
  split; [|vm_compute; reflexivity].
  apply (proj2 (claims_fenced (Aware t0) DEFAULT_RECONCILIATION_CONVERGENCE_POLICY rc_subject rc_contract rc_start
                  rc_world_a rc_start_ok rc_history_a) _ _ _ _ _ _ rc_acquire_b).
  left.
Defined.

Lemma attempts_bounded_witness : Z.of_nat (length (pollable (claims rc_world))) <= 20.
Proof.
  apply (attempts_bounded (Aware t0) DEFAULT_RECONCILIATION_CONVERGENCE_POLICY rc_subject rc_contract rc_start
           rc_world rc_start_ok rc_history).
Defined.

Lemma deferral_retries_witness :
  exists s, defer_reconciliation_claim (schedule rc_world) rc_b.2 (Aware (t1 + 1)) 0 = Ok (Deferred s) /\
    t1 + 1 + 3 * SECOND <= next_attempt_at s <= t1 + 1 + 5 * SECOND.
Proof.
  destruct (deferral_retries (Aware t0) DEFAULT_RECONCILIATION_CONVERGENCE_POLICY rc_subject rc_contract rc_start
              rc_world rc_b.2 (t1 + 1) 0 rc_start_ok rc_history) as (s & Hs & H1 & H2 & _).
  - vm_compute. reflexivity.
  - split; vm_compute; discriminate.
  - vm_compute. discriminate.
  - right. left.
  - vm_compute. reflexivity.
  - vm_compute. reflexivity.
  - vm_compute. reflexivity.
  - exists s. split; [exact Hs|]. split.
    + etransitivity; [|exact H1]. vm_compute. discriminate.
    + etransitivity; [exact H2|]. vm_compute. discriminate.
Defined.
