(* ===== verification/RunnerCapacity.v ===== *)
(** * Runner capacity and shard plans

    Models [runner_capacity/model.py] and [runner_capacity/optimizer.py]: test
    manifests over a validation catalog, capacity snapshots, shards and shard
    plans with the checks of their constructors, and the optimiser: slots
    shared between the profiles of a capacity class, longest-processing-time
    packing of tests into shards for every admissible shard count, and the
    choice of the cheapest candidate.

    Floats are binary64 with their rounding; [sum] of floats is CPython 3.13's
    compensated summation.  [heapq] on (float, index) pairs is extraction of
    the smallest pair: the indices are distinct, so there is exactly one. *)

From stdpp Require Import base gmap sets list sorting strings.
From Stdlib Require Import ZArith Lia.
From Stdlib Require Import SpecFloat.
From S2P Require Import Prelude Text PyFloat CanonicalJson Hashing Contract Instants.

(** ** Arithmetic on Python numbers *)

Definition fadd (x y : spec_float) : spec_float := SFadd 53 1024 x y.
Definition fsub (x y : spec_float) : spec_float := SFsub 53 1024 x y.
Definition fmul (x y : spec_float) : spec_float := SFmul 53 1024 x y.
Definition fzero : spec_float := S754_zero false.

(** [n + x] and [n * x] for an [int] or [float] [n] and a [float] [x]. *)
Definition num_add (n : num) (x : spec_float) : res spec_float := f ← num_float n; Ok (fadd f x).
Definition num_mul (n : num) (x : spec_float) : res spec_float := f ← num_float n; Ok (fmul f x).

(** [sum(l)] of floats: the first addition is [0 + x]; afterwards Neumaier's
    compensation, applied at the end when it is a finite number. *)
Definition sum_step (st : spec_float * spec_float) (x : spec_float) : spec_float * spec_float :=
  let '(r, c) := st in
  let t := fadd r x in
  (t, if SFleb (float_abs x) (float_abs r) then fadd c (fadd (fsub r t) x) else fadd c (fadd (fsub x t) r)).

Definition float_sum (l : list spec_float) : num :=
  match l with
  | [] => NInt 0
  | x :: l' =>
      let '(r, c) := foldl sum_step (fadd fzero x, fzero) l' in
      NFloat (if negb (float_is_zero c) && float_isfinite c then fadd r c else r)
  end.

(** ** [model.py] *)

Definition MAX_GITHUB_MATRIX_JOBS : Z := 256.

Definition _require_nonempty_string (value field_name : pystr) : res unit :=
  raise_if (bool_decide (value = [])) (ValueError (field_name ++ u " must be a non-empty string")).

Definition rc_require_canonical_strings (values : list pystr) (field_name : pystr) : res unit :=
  raise_if (bool_decide (values = []) || existsb (fun v => bool_decide (v = [])) values)
    (ValueError (field_name ++ u " must contain non-empty strings")) ;;
  require_canonical values (ValueError (field_name ++ u " must be canonical")).

Definition _nonnegative_finite_number (value : num) : res bool :=
  f ← num_float value; Ok (float_isfinite f && SFleb fzero f).

Record ManifestTest := { test_id : pystr; mt_witness_id : pystr }.

Definition ManifestTest_check (t : ManifestTest) : res unit :=
  _require_nonempty_string (test_id t) (u "test_id") ;; _require_nonempty_string (mt_witness_id t) (u "witness_id").

Definition ManifestTest_mapping (t : ManifestTest) : pyval :=
  obj [("testId", VStr (test_id t)); ("witnessId", VStr (mt_witness_id t))]%string.

Record TestManifest := {
  verified_plan_id : pystr;
  target_registry_hash : pystr;
  selected_witness_ids : list pystr;
  tests : list ManifestTest;
  tm_catalog : ValidationCatalog;
}.

Definition TestManifest_check (m : TestManifest) : res unit :=
  _require_nonempty_string (verified_plan_id m) (u "verified_plan_id") ;;
  raise_if (negb (is_sha256_hex (target_registry_hash m)))
    (ValueError (u "target_registry_hash must be lowercase SHA-256 hexadecimal")) ;;
  rc_require_canonical_strings (selected_witness_ids m) (u "selected_witness_ids") ;;
  require_canonical (test_id <$> tests m) (ValueError (u "manifest test identities must be canonical")) ;;
  let selected := str_set (selected_witness_ids m) in
  raise_if (bool_decide (~ selected ⊆ str_set (witness_id <$> witnesses (tm_catalog m))))
    (ValueError (u "selected witnesses must resolve in the validation catalog")) ;;
  raise_if (bool_decide (str_set (mt_witness_id <$> tests m) <> selected))
    (ValueError (u "manifest tests must cover every selected witness")).

Definition TestManifest_mapping (m : TestManifest) : pyval :=
  obj [("verifiedPlanId", VStr (verified_plan_id m)); ("targetRegistryHash", VStr (target_registry_hash m));
       ("catalogHash", VStr (catalog_hash (tm_catalog m)));
       ("selectedWitnessIds", str_list (selected_witness_ids m));
       ("tests", arr (ManifestTest_mapping <$> tests m))]%string.

Definition manifest_id `{Sha256} (m : TestManifest) : res pystr :=
  h ← hash_mapping (TestManifest_mapping m); Ok (u "test_manifest_" ++ take 32 h).

Definition _profile_by_witness_id (m : TestManifest) : gmap pystr pystr :=
  dict_by witness_id execution_profile_id (witnesses (tm_catalog m)).

Definition tm_execution_profiles (m : TestManifest) : res (list ExecutionProfile) :=
  let witness_by_id := dict_by witness_id id (witnesses (tm_catalog m)) in
  let profile_by_id := dict_by profile_id id (execution_profiles (tm_catalog m)) in
  profile_ids ← mapR (fun i => w ← from_option KeyError (witness_by_id !! i); Ok (execution_profile_id w))
                  (selected_witness_ids m);
  ids ← sorted_unique profile_ids;
  mapR (fun i => from_option KeyError (profile_by_id !! i)) ids.

Definition tests_for_profile (m : TestManifest) (profile : pystr) : res (list ManifestTest) :=
  let by_witness := _profile_by_witness_id m in
  picked ← mapR (fun t => p ← from_option KeyError (by_witness !! mt_witness_id t);
                          Ok (if bool_decide (p = profile) then [t] else [])) (tests m);
  Ok (concat picked).

Record RunnerCapacity := { rc_capacity_class_id : pystr; free_slots : Z }.

Definition RunnerCapacity_check (c : RunnerCapacity) : res unit :=
  _require_nonempty_string (rc_capacity_class_id c) (u "capacity_class_id") ;;
  raise_if (free_slots c <? 0) (ValueError (u "free_slots must be a non-negative integer")).

Inductive snapshot_source := github_self_hosted | operator.

Record RunnerSnapshot := {
  observed_at : Z;
  freshness_ttl_seconds : Z;
  capacities : list RunnerCapacity;
  rs_source : snapshot_source;
}.

Definition RunnerSnapshot_check (s : RunnerSnapshot) : res unit :=
  raise_if (freshness_ttl_seconds s <? 1) (ValueError (u "snapshot freshness ttl must be a positive integer")) ;;
  require_canonical (rc_capacity_class_id <$> capacities s)
    (ValueError (u "snapshot capacity classes must be canonical")).

Definition is_fresh (s : RunnerSnapshot) (now : pydatetime) : bool :=
  match now with
  | Naive => false
  | Aware t => (observed_at s <=? t) &&
      match add_seconds (observed_at s) (freshness_ttl_seconds s) with Ok e => t <=? e | Raise _ => false end
  end.

Definition free_slots_for (s : RunnerSnapshot) (capacity_class : pystr) : option Z :=
  free_slots <$> List.find (fun c => bool_decide (rc_capacity_class_id c = capacity_class)) (capacities s).

Record Shard := {
  sh_manifest_id : pystr;
  sh_profile_id : pystr;
  test_ids : list pystr;
  expected_seconds : spec_float;
}.

Definition Shard_check (s : Shard) : res unit :=
  _require_nonempty_string (sh_manifest_id s) (u "manifest_id") ;;
  _require_nonempty_string (sh_profile_id s) (u "profile_id") ;;
  rc_require_canonical_strings (test_ids s) (u "shard test identities") ;;
  ok ← _nonnegative_finite_number (NFloat (expected_seconds s));
  raise_if (negb ok) (ValueError (u "shard expected seconds must be a non-negative finite number")).

Definition Shard_new (manifest profile : pystr) (tests : list pystr) (seconds : spec_float) : res Shard :=
  let s := {| sh_manifest_id := manifest; sh_profile_id := profile; test_ids := tests; expected_seconds := seconds |} in
  Shard_check s ;; Ok s.

Inductive plan_mode := optimized | conservative.
#[export] Instance plan_mode_eq_dec : EqDecision plan_mode.
Proof. solve_decision. Defined.

Record ProfileShardPlan := {
  psp_profile_id : pystr;
  psp_policy : ShardingPolicy;
  shards : list Shard;
  psp_max_parallel : Z;
  mode : plan_mode;
  reason : option pystr;
}.

Record ShardPlan := { sp_manifest : TestManifest; profile_plans : list ProfileShardPlan }.

Section plans.
Context `{Sha256}.

Definition shard_id (s : Shard) : res pystr :=
  h ← hash_mapping (obj [("manifestId", VStr (sh_manifest_id s)); ("profileId", VStr (sh_profile_id s));
                         ("testIds", str_list (test_ids s))]%string);
  Ok (u "ci_shard_" ++ take 32 h).

Definition ProfileShardPlan_check (p : ProfileShardPlan) : res unit :=
  _require_nonempty_string (psp_profile_id p) (u "profile_id") ;;
  raise_if (bool_decide (length (shards p) = 0%nat)) (ValueError (u "profile shard plan must contain at least one shard")) ;;
  raise_if (existsb (fun s => bool_decide (sh_profile_id s <> psp_profile_id p)) (shards p))
    (ValueError (u "a profile shard plan cannot mix execution profiles")) ;;
  ids ← mapR shard_id (shards p);
  require_canonical ids (ValueError (u "profile shard identities must be canonical")) ;;
  raise_if (Z.of_nat (length (shards p)) >? Z.min (max_shards (psp_policy p)) MAX_GITHUB_MATRIX_JOBS)
    (ValueError (u "profile shard count exceeds the admitted matrix bound")) ;;
  raise_if (existsb (fun s => Z.of_nat (length (test_ids s)) >? max_items_per_shard (psp_policy p)) (shards p))
    (ValueError (u "profile shard exceeds max_items_per_shard")) ;;
  raise_if (negb ((1 <=? psp_max_parallel p) && (psp_max_parallel p <=? Z.of_nat (length (shards p)))) ||
            (psp_max_parallel p >? max_parallel (psp_policy p)))
    (ValueError (u "profile max_parallel exceeds the admitted policy")) ;;
  match mode p with
  | optimized => raise_if (bool_decide (reason p <> None)) (ValueError (u "optimized profile plans have no fallback reason"))
  | conservative =>
      raise_if (match reason p with Some (_ :: _) => false | _ => true end)
        (ValueError (u "conservative profile plans require a reason"))
  end.

Definition assigned_test_ids (ps : list ProfileShardPlan) : list pystr :=
  flat_map (fun p => flat_map test_ids (shards p)) ps.

Definition ShardPlan_check (p : ShardPlan) : res unit :=
  let m := sp_manifest p in
  let ids := psp_profile_id <$> profile_plans p in
  require_canonical ids (ValueError (u "profile shard plans must be canonical")) ;;
  profiles ← tm_execution_profiles m;
  let expected := dict_by profile_id id profiles in
  raise_if (bool_decide (str_set ids <> dom expected))
    (ValueError (u "shard plan must cover every selected execution profile")) ;;
  mapR (fun plan =>
    profile ← from_option KeyError (expected !! psp_profile_id plan);
    raise_if (negb (ShardingPolicy_eqb (psp_policy plan) (sharding_policy profile)))
      (ValueError (u "profile shard plan must use its catalog sharding policy")) ;;
    mid ← manifest_id m;
    raise_if (existsb (fun s => bool_decide (sh_manifest_id s <> mid)) (shards plan))
      (ValueError (u "shard identity must bind the exact test manifest"))) (profile_plans p) ;;
  let assigned := assigned_test_ids (profile_plans p) in
  raise_if (bool_decide (length (remove_dups assigned) <> length assigned) ||
            bool_decide (str_set assigned <> str_set (test_id <$> tests m)))
    (ValueError (u "shard plan must cover every manifest test exactly once")) ;;
  profile_by_test ← mapR (fun t => q ← from_option KeyError (_profile_by_witness_id m !! mt_witness_id t);
                                   Ok (test_id t, q)) (tests m);
  let by_test := dict_by fst snd profile_by_test in
  mapR (fun plan =>
    wrong ← mapR (fun i => q ← from_option KeyError (by_test !! i); Ok (bool_decide (q <> psp_profile_id plan)))
              (flat_map test_ids (shards plan));
    raise_if (existsb id wrong) (ValueError (u "a shard cannot contain a test from another execution profile")))
    (profile_plans p) ;;
  Ok tt.
End plans.

(** ** [optimizer.py] *)

Definition history_map : Type := gmap pystr pyval.

Definition _positive_duration (value : option pyval) : res (option spec_float) :=
  let accept f := if float_isfinite f && negb (SFleb f fzero) then Some f else None in
  match value with
  | Some (VInt z) => f ← py_float_of_int z; Ok (accept f)
  | Some (VFloat f) => Ok (accept f)
  | _ => Ok None
  end.

Definition _safe_duration (value : option pyval) : res spec_float :=
  d ← _positive_duration value; Ok (default fzero d).

(** The dict of durations, [None] when one is missing. *)
Fixpoint durations_loop (l : list ManifestTest) (history : history_map) (m : gmap pystr spec_float)
    : res (option (gmap pystr spec_float)) :=
  match l with
  | [] => Ok (Some m)
  | t :: l' =>
      d ← _positive_duration (history !! test_id t);
      match d with
      | None => Ok None
      | Some f => durations_loop l' history (<[test_id t := f]> m)
      end
  end.

Definition _durations (l : list ManifestTest) (history : history_map) : res (option (gmap pystr spec_float)) :=
  durations_loop l history ∅.

Definition _minimum_shards (p : ShardingPolicy) (test_count : Z) : res Z :=
  let required := (test_count + max_items_per_shard p - 1) / max_items_per_shard p in
  raise_if (required >? max_shards p) (ValueError (u "profile test coverage exceeds the sharding policy bounds")) ;;
  Ok required.

Definition _profile_parallel_demand (m : TestManifest) (p : ExecutionProfile) : res Z :=
  ts ← tests_for_profile m (profile_id p);
  Ok (Z.min (Z.of_nat (length ts)) (Z.min (max_shards (sharding_policy p)) (max_parallel (sharding_policy p)))).

(** *** Slots of one capacity class

    The demands are read once, before the rounds: they do not change. *)

(** The profiles of a class with the slots given so far, in order. *)
Definition allocation : Type := list (pystr * Z).

(** The first loop: one slot each while slots remain. *)
Fixpoint first_slots (l : allocation) (remaining : Z) : allocation * Z :=
  match l with
  | [] => ([], remaining)
  | (i, a) :: l' =>
      if remaining =? 0 then (l, remaining)
      else let '(r, rem) := first_slots l' (remaining - 1) in ((i, 1) :: r, rem)
  end.

(** One pass over the profiles whose allocation is below their demand. *)
Fixpoint slot_round (demand : pystr -> Z) (l : allocation) (remaining : Z) : allocation * Z :=
  match l with
  | [] => ([], remaining)
  | (i, a) :: l' =>
      if a <? demand i then
        if remaining =? 0 then (l, remaining)
        else let '(r, rem) := slot_round demand l' (remaining - 1) in ((i, a + 1) :: r, rem)
      else let '(r, rem) := slot_round demand l' remaining in ((i, a) :: r, rem)
  end.

(** [while remaining]: rounds until no slot remains or none is wanted. *)
Fixpoint slot_rounds (fuel : nat) (demand : pystr -> Z) (l : allocation) (remaining : Z) : res (allocation * Z) :=
  if remaining =? 0 then Ok (l, remaining)
  else if negb (existsb (fun p => p.2 <? demand p.1) l) then Ok (l, remaining)
  else match fuel with
       | O => Raise OutOfFuel
       | S f => let '(l', rem) := slot_round demand l remaining in slot_rounds f demand l' rem
       end.

Definition allocate_class (demand : pystr -> Z) (ids : list pystr) (free : Z) : res allocation :=
  let '(l, remaining) := first_slots ((fun i => (i, 0)) <$> ids) free in
  '(l', _) ← slot_rounds (Z.to_nat free) demand l remaining;
  Ok l'.

(** [by_capacity_class], in the order the classes are first met. *)
Definition group_profiles (l : list ExecutionProfile) : list (pystr * list ExecutionProfile) :=
  foldl (fun acc p =>
    if existsb (fun g => bool_decide (g.1 = capacity_class_id p)) acc
    then (fun g => if bool_decide (g.1 = capacity_class_id p) then (g.1, g.2 ++ [p]) else g) <$> acc
    else acc ++ [(capacity_class_id p, [p])]) [] l.

Definition _profile_capacity_budgets (m : TestManifest) (s : RunnerSnapshot) : res (gmap pystr (option Z)) :=
  profiles ← tm_execution_profiles m;
  demands ← mapR (fun p => d ← _profile_parallel_demand m p; Ok (profile_id p, d)) profiles;
  let demand i := default 0 (dict_by fst snd demands !! i) in
  foldR (fun budgets g =>
    match free_slots_for s g.1 with
    | None => Ok (foldl (fun b p => <[profile_id p := None]> b) budgets g.2)
    | Some free =>
        l ← allocate_class demand (profile_id <$> g.2) free;
        Ok (foldl (fun b a => <[a.1 := Some a.2]> b) budgets l)
    end) ∅ (group_profiles profiles).

Definition _zero_capacity_reason (s : RunnerSnapshot) (p : ExecutionProfile) (allocated : option Z) : pystr :=
  match allocated, free_slots_for s (capacity_class_id p) with
  | Some 0, Some pool => if pool >? 0 then u "runner_capacity_shared_pool_exhausted" else u "runner_capacity_unavailable"
  | _, _ => u "runner_capacity_unavailable"
  end.

(** *** Packing tests into shards *)

(** [(a, i) < (b, j)] on (float, index) pairs without NaN. *)
Definition pair_ltb (x y : spec_float * nat) : bool :=
  SFltb x.1 y.1 || (SFeqb x.1 y.1 && bool_decide (x.2 < y.2)%nat).

(** [heappop]: the smallest pair and the others; an empty heap raises. *)
Fixpoint pop_min (best : spec_float * nat) (l : list (spec_float * nat)) : (spec_float * nat) * list (spec_float * nat) :=
  match l with
  | [] => (best, [])
  | x :: l' =>
      if pair_ltb x best then let '(m, r) := pop_min x l' in (m, best :: r)
      else let '(m, r) := pop_min best l' in (m, x :: r)
  end.

Definition heappop (heap : list (spec_float * nat)) : res ((spec_float * nat) * list (spec_float * nat)) :=
  match heap with
  | [] => Raise IndexError
  | x :: l => Ok (pop_min x l)
  end.

Record packing := MkPacking {
  buckets : list (list pystr);
  totals : list spec_float;
  eligible : list (spec_float * nat);
}.

Definition pack_test (max_items : Z) (durations : gmap pystr spec_float) (st : packing) (t : ManifestTest) : res packing :=
  '((_, index), heap) ← heappop (eligible st);
  bucket ← from_option IndexError (buckets st !! index);
  total ← from_option IndexError (totals st !! index);
  d ← from_option KeyError (durations !! test_id t);
  let bucket' := bucket ++ [test_id t] in
  let total' := fadd total d in
  Ok (MkPacking (<[index := bucket']> (buckets st)) (<[index := total']> (totals st))
        (if Z.of_nat (length bucket') <? max_items then (total', index) :: heap else heap)).

Definition pack (max_items : Z) (durations : gmap pystr spec_float) (count : nat) (ts : list ManifestTest) : res packing :=
  foldR (pack_test max_items durations)
    (MkPacking (replicate count []) (replicate count fzero) ((fun i => (fzero, i)) <$> seq 0 count)) ts.

Section optimizer.
Context `{Sha256}.

Definition sort_shards (l : list Shard) : res (list Shard) :=
  py_sorted (fun s => i ← shard_id s; utf16_sort_key i) l.

Definition _candidate (manifest : pystr) (profile : ExecutionProfile) (ts : list ManifestTest)
    (durations : gmap pystr spec_float) (count : nat) (free : Z) : res ProfileShardPlan :=
  let policy := sharding_policy profile in
  st ← pack (max_items_per_shard policy) durations count ts;
  built ← mapR (fun bt : list pystr * spec_float =>
            ids ← py_sorted utf16_sort_key bt.1;
            setup ← num_float (setup_seconds_per_shard policy);
            Shard_new manifest (profile_id profile) ids (fadd bt.2 setup)) (zip (buckets st) (totals st));
  sorted ← sort_shards built;
  let p := {| psp_profile_id := profile_id profile; psp_policy := policy; shards := sorted;
              psp_max_parallel := Z.min (Z.of_nat count) (Z.min (max_parallel policy) free);
              mode := optimized; reason := None |} in
  ProfileShardPlan_check p ;; Ok p.

(** [max(elapsed for elapsed, _ in lanes)]. *)
Definition float_max (l : list spec_float) : res spec_float :=
  match l with
  | [] => Raise (ValueError (u "max() iterable argument is empty"))
  | x :: l' => Ok (foldl (fun m y => if SFltb m y then y else m) x l')
  end.

(** The key [(-expected_seconds, utf16_sort_key(shard_id))], compared as a tuple. *)
Definition lane_leb (x y : spec_float * list Z) : bool :=
  if SFeqb x.1 y.1 then lex_leb x.2 y.2 else negb (SFltb y.1 x.1).

Definition _parallel_makespan (l : list Shard) (parallel : nat) : res spec_float :=
  keyed ← mapR (fun s => i ← shard_id s; k ← utf16_sort_key i; Ok ((SFopp (expected_seconds s), k), s)) l;
  lanes ← foldR (fun lanes ks =>
            '((elapsed, index), heap) ← heappop lanes;
            Ok ((fadd elapsed (expected_seconds (snd ks)), index) :: heap))
            ((fun i => (fzero, i)) <$> seq 0 parallel)
            (isort (fun p q : (spec_float * list Z) * Shard => lane_leb p.1 q.1) keyed);
  float_max (fst <$> lanes).

(** [policy.operator_weight * len(shards)]: an [int] or a [float]. *)
Definition num_times_int (n : num) (k : Z) : res num :=
  match n with NInt z => Ok (NInt (z * k)) | NFloat f => g ← py_float_of_int k; Ok (NFloat (fmul f g)) end.

Definition _cost (p : ProfileShardPlan) : res spec_float :=
  let policy := psp_policy p in
  let cpu := float_sum (expected_seconds <$> shards p) in
  wall ← _parallel_makespan (shards p) (Z.to_nat (psp_max_parallel p));
  c ← match cpu with
      | NFloat f => num_mul (cpu_weight policy) f
      | NInt z => n ← num_times_int (cpu_weight policy) z; num_float n
      end;
  w ← num_mul (wall_weight policy) wall;
  o ← num_times_int (operator_weight policy) (Z.of_nat (length (shards p)));
  operators ← num_float o;
  Ok (fadd (fadd c w) operators).

(** Tuple comparison of the selection keys: cost, number of shards, shard ids. *)
Fixpoint strs_ltb (a b : list pystr) : bool :=
  match a, b with
  | [], _ :: _ => true
  | x :: a', y :: b' => if bool_decide (x = y) then strs_ltb a' b' else negb (lex_leb y x)
  | _, [] => false
  end.

Record plan_key := { k_cost : spec_float; k_count : Z; k_ids : list pystr }.

Definition key_ltb (a b : plan_key) : bool :=
  if SFeqb (k_cost a) (k_cost b)
  then if k_count a =? k_count b then strs_ltb (k_ids a) (k_ids b) else k_count a <? k_count b
  else SFltb (k_cost a) (k_cost b).

Definition plan_key_of (p : ProfileShardPlan) : res plan_key :=
  c ← _cost p;
  ids ← mapR shard_id (shards p);
  Ok {| k_cost := c; k_count := Z.of_nat (length (shards p)); k_ids := ids |}.

(** [min(candidates, key=...)]: the first candidate no later one is below. *)
Fixpoint min_plan (best : ProfileShardPlan * plan_key) (l : list (ProfileShardPlan * plan_key)) : ProfileShardPlan :=
  match l with
  | [] => best.1
  | x :: l' => min_plan (if key_ltb x.2 best.2 then x else best) l'
  end.

(** [tests[index : index + size]] for [index] in [range(0, len(tests), size)]. *)
Fixpoint chunks (fuel : nat) (size : nat) (l : list ManifestTest) : list (list ManifestTest) :=
  match fuel, l with
  | S f, _ :: _ => take size l :: chunks f size (drop size l)
  | _, _ => []
  end.

Definition _conservative_profile (manifest : pystr) (profile : ExecutionProfile) (ts : list ManifestTest)
    (reason : pystr) (history : history_map) : res ProfileShardPlan :=
  let policy := sharding_policy profile in
  built ← mapR (fun bucket =>
            ds ← mapR (fun t => _safe_duration (history !! test_id t)) bucket;
            seconds ← match float_sum ds with
                      | NFloat f => num_add (setup_seconds_per_shard policy) f
                      | NInt z => num_float (setup_seconds_per_shard policy)
                      end;
            Shard_new manifest (profile_id profile) (test_id <$> bucket) seconds)
          (chunks (length ts) (Z.to_nat (max_items_per_shard policy)) ts);
  sorted ← sort_shards built;
  let p := {| psp_profile_id := profile_id profile; psp_policy := policy; shards := sorted;
              psp_max_parallel := 1; mode := conservative; reason := Some reason |} in
  ProfileShardPlan_check p ;; Ok p.

(** The key [(-durations[id], utf16_sort_key(id))], compared as a tuple. *)
Definition order_tests (durations : gmap pystr spec_float) (ts : list ManifestTest) : res (list ManifestTest) :=
  keyed ← mapR (fun t => d ← from_option KeyError (durations !! test_id t); k ← utf16_sort_key (test_id t);
                         Ok ((SFopp d, k), t)) ts;
  Ok (snd <$> isort (fun p q : (spec_float * list Z) * ManifestTest => lane_leb p.1 q.1) keyed).

Definition _optimize_profile (m : TestManifest) (profile : ExecutionProfile) (free : option Z) (history : history_map)
    (zero_reason : pystr) : res ProfileShardPlan :=
  ts ← tests_for_profile m (profile_id profile);
  let policy := sharding_policy profile in
  minimum ← _minimum_shards policy (Z.of_nat (length ts));
  match free with
  | None => mid ← manifest_id m; _conservative_profile mid profile ts (u "runner_capacity_unknown") history
  | Some slots =>
      if slots <? 1 then mid ← manifest_id m; _conservative_profile mid profile ts zero_reason history
      else
        ds ← _durations ts history;
        match ds with
        | None => mid ← manifest_id m; _conservative_profile mid profile ts (u "test_duration_history_missing") history
        | Some durations =>
            ordered ← order_tests durations ts;
            let maximum := Z.max minimum (Z.min (max_shards policy) (Z.min slots (Z.of_nat (length ts)))) in
            candidates ← mapR (fun count =>
                           mid ← manifest_id m;
                           p ← _candidate mid profile ordered durations count slots;
                           k ← plan_key_of p;
                           Ok (p, k)) (seq (Z.to_nat minimum) (Z.to_nat (maximum - minimum + 1)));
            match candidates with
            | [] => Raise (ValueError (u "min() iterable argument is empty"))
            | c :: l => Ok (min_plan c l)
            end
        end
  end.

Definition ShardPlan_new (m : TestManifest) (ps : list ProfileShardPlan) : res ShardPlan :=
  let p := {| sp_manifest := m; profile_plans := ps |} in ShardPlan_check p ;; Ok p.

Definition _conservative_plan (m : TestManifest) (reason : pystr) (history : history_map) : res ShardPlan :=
  profiles ← tm_execution_profiles m;
  ps ← mapR (fun profile =>
         ts ← tests_for_profile m (profile_id profile);
         _minimum_shards (sharding_policy profile) (Z.of_nat (length ts)) ;;
         mid ← manifest_id m;
         _conservative_profile mid profile ts reason history) profiles;
  ShardPlan_new m ps.

Definition optimize_shards (m : TestManifest) (snapshot : option RunnerSnapshot) (history : history_map)
    (now : pydatetime) : res ShardPlan :=
  match snapshot with
  | None => _conservative_plan m (u "runner_capacity_unknown") history
  | Some s =>
      if negb (is_fresh s now) then _conservative_plan m (u "runner_capacity_stale") history
      else
        budgets ← _profile_capacity_budgets m s;
        profiles ← tm_execution_profiles m;
        ps ← mapR (fun profile =>
               b ← from_option KeyError (budgets !! profile_id profile);
               _optimize_profile m profile b history (_zero_capacity_reason s profile b)) profiles;
        ShardPlan_new m ps
  end.
End optimizer.
