(* ===== verification/CapacityFacts.v ===== *)
(** * Sharing slots and packing tests

    The slots of a capacity class are shared level by level; packing puts every
    test into exactly one shard, within the shard size, and leaves no shard
    empty; the optimiser picks the cheapest admissible candidate. *)

From stdpp Require Import base gmap sets list sorting strings.
From Stdlib Require Import ZArith Lia.
From Stdlib Require Import SpecFloat.
From S2P Require Import Prelude Text PyFloat CanonicalJson Hashing Contract Instants RunnerCapacity.

(** ** Sharing slots *)

Definition slots (l : allocation) : Z := foldr (fun p n => p.2 + n) 0 l.

Lemma slots_app l1 l2 : slots (l1 ++ l2) = slots l1 + slots l2.
Proof. unfold slots in *. induction l1 as [|[i a] l1 IH]; cbn in *; lia. Qed.

Section sharing.
Context (demand : pystr -> Z).

(** Every profile at level [k], or at its demand when that is less. *)
Definition level (k : Z) (ids : list pystr) : allocation := (fun i => (i, Z.min k (demand i))) <$> ids.

(** Level [k + 1] for the first [n] profiles and level [k] for the others. *)
Definition filled (k : Z) (n : nat) (ids : list pystr) : allocation := level (k + 1) (take n ids) ++ level k (drop n ids).

Lemma filled_nil k n : filled k n [] = [].
Proof. unfold filled. by rewrite take_nil, drop_nil. Qed.

Lemma slot_round_fills k ids rem l rem' :
  0 <= rem -> slot_round demand (level k ids) rem = (l, rem') ->
  exists n, (n <= length ids)%nat /\ l = filled k n ids /\ slots l + rem' = slots (level k ids) + rem /\
    0 <= rem' <= rem /\ (rem' = 0 \/ n = length ids).
Proof.
  revert rem l rem'. induction ids as [|i ids IH]; intros rem l rem' Hr E; cbn in E.
  - simplify_eq. exists 0%nat. split_and!; first [done|lia|by right].
  - destruct (Z.ltb_spec (Z.min k (demand i)) (demand i)) as [Hlt|Hge].
    + destruct (Z.eqb_spec rem 0) as [->|Hne].
      * simplify_eq. exists 0%nat. split_and!; first [done|lia|by left].
      * destruct (slot_round _ _ (rem - 1)) as [r rr] eqn:Er. simplify_eq. apply IH in Er as (n & Hn & -> & Hs & Hb & Ho); [|lia].
        exists (S n). cbn [length]. split_and!; try lia.
        -- unfold filled. cbn. do 2 f_equal. lia.
        -- unfold slots, level in *. cbn in *. lia.
    + destruct (slot_round _ _ rem) as [r rr] eqn:Er. simplify_eq. apply IH in Er as (n & Hn & -> & Hs & Hb & Ho); [|lia].
      exists (S n). cbn [length]. split_and!; try lia.
      -- unfold filled. cbn. do 2 f_equal. lia.
      -- unfold slots, level in *. cbn in *. lia.
Qed.

Lemma level_wanted k ids : existsb (fun p => p.2 <? demand p.1) (level k ids) = true <-> exists i, i ∈ ids /\ k < demand i.
Proof.
  rewrite existsb_elem. unfold level. split.
  - intros ([j a] & (i & E & Hi)%list_elem_of_fmap & Hlt). simplify_eq. cbn in Hlt. exists i. split; [done|lia].
  - intros (i & Hi & Hlt). exists (i, Z.min k (demand i)). split; [apply list_elem_of_fmap; by exists i|]. cbn. lia.
Qed.

Lemma level_grows k ids : slots (level k ids) <= slots (level (k + 1) ids).
Proof. induction ids as [|i ids IH]; unfold slots, level in *; cbn in *; lia. Qed.

Lemma level_grows_strictly k ids i : i ∈ ids -> k < demand i -> slots (level k ids) < slots (level (k + 1) ids).
Proof.
  intros Hi Hlt. induction ids as [|j ids IH]; [set_solver|]. pose proof (level_grows k ids) as Hg.
  apply elem_of_cons in Hi as [->|Hi]; [|specialize (IH Hi)]; unfold slots, level in *; cbn in *; lia.
Qed.

Lemma filled_all k ids : filled k (length ids) ids = level (k + 1) ids.
Proof. unfold filled. rewrite take_ge, drop_ge by lia. cbn. by rewrite app_nil_r. Qed.

Lemma filled_none k ids : filled k 0 ids = level k ids.
Proof. unfold filled. by rewrite drop_0. Qed.

(** What sharing promises: every profile within one slot of a common level, no
    slot invented, and none kept back that a profile still wants. *)
Definition shared (k : Z) (n : nat) (ids : list pystr) (free : Z) (l : allocation) : Prop :=
  l = filled k n ids /\ slots l <= free /\ (slots l = free \/ forall i, i ∈ ids -> demand i <= k).

Lemma slot_rounds_shares fuel k ids rem :
  0 <= rem -> (Z.to_nat rem <= fuel)%nat ->
  exists l rem' k' n, slot_rounds fuel demand (level k ids) rem = Ok (l, rem') /\ k <= k' /\
    shared k' n ids (slots (level k ids) + rem) l.
Proof.
  revert k rem. induction fuel as [|f IH]; intros k rem Hr Hf; cbn [slot_rounds].
  - assert (rem = 0) as -> by lia. cbn. exists (level k ids), 0, k, 0%nat. unfold shared. rewrite filled_none.
    split_and!; first [done|lia|left; lia].
  - destruct (Z.eqb_spec rem 0) as [->|Hne].
    { exists (level k ids), 0, k, 0%nat. unfold shared. rewrite filled_none. split_and!; first [done|lia|left; lia]. }
    destruct (existsb _ (level k ids)) eqn:Ew; cbn [negb].
    + apply level_wanted in Ew as (i & Hi & Hlt). destruct (slot_round demand (level k ids) rem) as [l rem'] eqn:Er.
      apply slot_round_fills in Er as (n & Hn & -> & Hs & Hb & Ho); [|done].
      destruct (decide (n = length ids)) as [->|Hn'].
      * rewrite filled_all in *. pose proof (level_grows_strictly k ids i Hi Hlt).
        destruct (IH (k + 1) rem') as (l & r2 & k' & n & E & Hk & Hsh); [lia|lia|].
        exists l, r2, k', n. split; [done|]. split; [lia|]. by rewrite <- Hs.
      * destruct Ho as [->|]; [|done]. exists (filled k n ids), 0, k, n.
        split; [by destruct f|]. split; [lia|]. unfold shared. split_and!; [done|lia|left; lia].
    + exists (level k ids), rem, k, 0%nat. unfold shared. rewrite filled_none. split_and!; [done|lia|done|lia|].
      right. intros i Hi. destruct (Z.le_gt_cases (demand i) k); [done|]. exfalso.
      assert (existsb (fun p => p.2 <? demand p.1) (level k ids) = true) by (apply level_wanted; eauto). congruence.
Qed.

Lemma level_zero ids :
  (forall i, i ∈ ids -> 1 <= demand i) -> level 0 ids = (fun i => (i, 0)) <$> ids /\ slots (level 0 ids) = 0.
Proof.
  induction ids as [|i ids IH]; intros Hd; [done|]. destruct IH as [E Es]; [set_solver|].
  specialize (Hd i ltac:(set_solver)). unfold level, slots in *. rewrite !fmap_cons. cbn. rewrite E, <- E, Es.
  split; [|lia]. do 2 f_equal. lia.
Qed.

Lemma first_slots_fills ids free :
  0 <= free -> (forall i, i ∈ ids -> 1 <= demand i) ->
  exists n, (n <= length ids)%nat /\
    first_slots ((fun i => (i, 0)) <$> ids) free = (filled 0 n ids, free - Z.of_nat n) /\
    slots (filled 0 n ids) = Z.of_nat n /\ 0 <= free - Z.of_nat n /\ (free = Z.of_nat n \/ n = length ids).
Proof.
  intros Hf Hd. revert free Hf. induction ids as [|i ids IH]; intros free Hf.
  { exists 0%nat. cbn. split_and!; try lia; try done. f_equal. lia. }
  assert (Hi : 1 <= demand i) by (apply Hd; set_solver).
  pose proof (level_zero (i :: ids) Hd) as [El Es].
  rewrite fmap_cons. cbn [first_slots]. destruct (Z.eqb_spec free 0) as [->|Hne].
  - exists 0%nat. rewrite filled_none, El, <- El. cbn [length].
    split_and!; try lia. by rewrite El, fmap_cons.
  - destruct (IH ltac:(set_solver) (free - 1)) as (n & Hn & E & Hs & Hb & Ho); [lia|]. rewrite E.
    exists (S n). cbn [length]. split_and!; try lia.
    + replace (free - 1 - Z.of_nat n) with (free - Z.of_nat (S n)) by lia. unfold filled. cbn [take drop]. f_equal.
      unfold level at 3. rewrite fmap_cons. cbn. do 2 f_equal. lia.
    + unfold filled, level, slots in *. cbn [take drop]. rewrite fmap_cons. cbn. cbn in Hs. rewrite Hs. lia.
Qed.
Lemma filled_elem k n ids i a : (i, a) ∈ filled k n ids -> i ∈ ids /\ (a = Z.min k (demand i) \/ a = Z.min (k + 1) (demand i)).
Proof.
  unfold filled, level. rewrite elem_of_app, !list_elem_of_fmap. intros [(j & E & Hj)|(j & E & Hj)]; simplify_eq.
  - split; [|by right]. rewrite <- (take_drop n ids). set_solver.
  - split; [|by left]. rewrite <- (take_drop n ids). set_solver.
Qed.

Lemma filled_ids k n ids : (filled k n ids).*1 = ids.
Proof.
  unfold filled, level. rewrite fmap_app, <- !list_fmap_compose. unfold compose. cbn. by rewrite !list_fmap_id, take_drop.
Qed.

Lemma allocate_class_shares ids free :
  0 <= free -> (forall i, i ∈ ids -> 1 <= demand i) ->
  exists l k n, allocate_class demand ids free = Ok l /\ 0 <= k /\ shared k n ids free l.
Proof.
  intros Hf Hd. unfold allocate_class.
  destruct (first_slots_fills ids free Hf Hd) as (n & Hn & -> & Hs & Hb & Ho).
  destruct (decide (n = length ids)) as [->|Hne].
  - rewrite filled_all in *. replace (0 + 1) with 1 in * by lia.
    destruct (slot_rounds_shares (Z.to_nat free) 1 ids (free - Z.of_nat (length ids))) as (l & r & k & m & E & Hk & Hsh); [lia..|].
    exists l, k, m. rewrite E. split; [done|]. split; [lia|].
    by replace free with (slots (level 1 ids) + (free - Z.of_nat (length ids))) at 1 by lia.
  - destruct Ho as [Ho|]; [|done]. replace (free - Z.of_nat n) with 0 by lia.
    exists (filled 0 n ids), 0, n. split; [by destruct (Z.to_nat free)|]. split; [lia|]. unfold shared. split_and!; [done|lia|left; lia].
Qed.

(** The slots of a capacity class are shared between its profiles without
    loss: the loops end, every profile has an allocation, no profile gets more
    than its parallel demand, the slots given are at most the free ones, all of
    them are given unless every demand is met, and no profile is more than one
    slot ahead of a profile that still wants one. *)
Theorem slots_shared_fairly ids free :
  0 <= free -> (forall i, i ∈ ids -> 1 <= demand i) ->
  exists l, allocate_class demand ids free = Ok l /\ l.*1 = ids /\
    (forall i a, (i, a) ∈ l -> 0 <= a <= demand i) /\
    slots l <= free /\
    (slots l = free \/ forall i a, (i, a) ∈ l -> a = demand i) /\
    (forall i a j b, (i, a) ∈ l -> (j, b) ∈ l -> a < demand i -> b <= a + 1).
Proof.
  intros Hf Hd. destruct (allocate_class_shares ids free Hf Hd) as (l & k & n & E & Hk & -> & Hle & Hfull).
  exists (filled k n ids). split; [done|]. split; [apply filled_ids|]. split_and!; [|done| |].
  - intros i a [Hi Ha]%filled_elem. specialize (Hd i Hi). lia.
  - destruct Hfull as [->|Hmet]; [by left|]. right. intros i a [Hi Ha]%filled_elem. specialize (Hmet i Hi). lia.
  - intros i a j b [Hi Ha]%filled_elem [Hj Hb]%filled_elem Hlt. lia.
Qed.
End sharing.

(** ** Packing *)

(** A duration the optimiser admits: a float above zero. *)
Definition positive (f : spec_float) : Prop := SFltb fzero f = true.

Lemma fadd_zero d : positive d -> fadd fzero d = d.
Proof. by destruct d as [[]|[]| |[] ? ?]. Qed.

Lemma pop_min_perm x l m r : pop_min x l = (m, r) -> m :: r ≡ₚ x :: l.
Proof.
  revert x m r. induction l as [|y l IH]; intros x m r E; cbn in E; [by simplify_eq|].
  destruct (pair_ltb y x); destruct (pop_min _ l) as [m' r'] eqn:El; simplify_eq; apply IH in El.
  - rewrite (Permutation_swap x m r'), El. reflexivity.
  - rewrite (Permutation_swap y m r'), El. apply Permutation_swap.
Qed.

(** Among entries that are zero or positive, a zero entry comes out first. *)
Lemma pop_min_zero x l m r :
  pop_min x l = (m, r) -> (forall y, y ∈ x :: l -> y.1 = fzero \/ positive y.1) ->
  (exists y, y ∈ x :: l /\ y.1 = fzero) -> m.1 = fzero.
Proof.
  unfold positive. revert x m r. induction l as [|y l IH]; intros x m r E Hall Hz; cbn in E.
  { simplify_eq. destruct Hz as (y & ->%list_elem_of_singleton & Hy). done. }
  assert (Hl : forall b, b = x \/ b = y -> forall z, z ∈ b :: l -> z.1 = fzero \/ positive z.1).
  { intros b Hb z Hz'. apply Hall. rewrite !elem_of_cons. apply elem_of_cons in Hz' as [->|]; [|by auto]. destruct Hb as [->| ->]; auto. }
  destruct (Hall x) as [Hx|Hx]; [rewrite elem_of_cons; by left| |];
    (destruct (Hall y) as [Hy|Hy]; [rewrite !elem_of_cons; auto| |]).
  - destruct (pair_ltb y x); destruct (pop_min _ l) as [m' r'] eqn:El; simplify_eq;
      (apply (IH _ _ _ El); [by apply Hl; auto|eexists; split; [apply elem_of_cons; by left|done]]).
  - destruct (pair_ltb y x) eqn:Ep.
    { exfalso. unfold pair_ltb in Ep. rewrite Hx in Ep. destruct y as [[[]|[]| |[] ? ?] ny]; done. }
    destruct (pop_min _ l) as [m' r'] eqn:El; simplify_eq. apply (IH _ _ _ El); [by apply Hl; auto|eexists; split; [apply elem_of_cons; by left|done]].
  - assert (Ep : pair_ltb y x = true) by (unfold pair_ltb; by rewrite Hy, Hx). rewrite Ep in E.
    destruct (pop_min _ l) as [m' r'] eqn:El; simplify_eq. apply (IH _ _ _ El); [by apply Hl; auto|eexists; split; [apply elem_of_cons; by left|done]].
  - assert (Hz' : exists z, z ∈ l /\ z.1 = fzero).
    { destruct Hz as (z & Hz & Hz0). exists z. split; [|done].
      apply elem_of_cons in Hz as [->|Hz]; [by rewrite Hz0 in Hx|]. by apply elem_of_cons in Hz as [->|Hz]; [rewrite Hz0 in Hy|]. }
    destruct Hz' as (z & Hz' & Hz0).
    destruct (pair_ltb y x); destruct (pop_min _ l) as [m' r'] eqn:El; simplify_eq;
      (apply (IH _ _ _ El); [by apply Hl; auto|exists z; split; [apply elem_of_cons; by right|done]]).
Qed.

Section packing.
Context (max_items : Z) (durations : gmap pystr spec_float) (count : nat).

(** The time of a shard: its durations added in the order they were packed. *)
Definition load (b : list pystr) : spec_float := foldl (fun s t => fadd s (default fzero (durations !! t))) fzero b.

(** The state of the packing loop after the tests [seen]. *)
Record packed (seen : list ManifestTest) (st : packing) : Prop := {
  p_buckets : length (buckets st) = count;
  p_totals : length (totals st) = count;
  p_tests : concat (buckets st) ≡ₚ test_id <$> seen;
  p_size : forall i b, buckets st !! i = Some b -> Z.of_nat (length b) <= max_items;
  p_nodup : NoDup (eligible st).*2;
  p_eligible : forall f i, (f, i) ∈ eligible st <->
    exists b, buckets st !! i = Some b /\ Z.of_nat (length b) < max_items /\ totals st !! i = Some f;
  p_sums : forall i b, buckets st !! i = Some b -> totals st !! i = Some (load b);
  p_phase : (exists i, buckets st !! i = Some []) ->
    forall i b f, buckets st !! i = Some b -> totals st !! i = Some f -> b <> [] -> length b = 1%nat /\ positive f;
}.

Lemma concat_insert (l : list (list pystr)) i b x :
  l !! i = Some b -> concat (<[i := b ++ [x]]> l) ≡ₚ concat l ++ [x].
Proof.
  revert i. induction l as [|c l IH]; intros [|i] E; cbn in *; simplify_eq.
  - rewrite <- !app_assoc. apply Permutation_app_head, Permutation_app_comm.
  - rewrite (IH i E). by rewrite app_assoc.
Qed.

Lemma concat_full (l : list (list pystr)) :
  (forall i b, l !! i = Some b -> max_items <= Z.of_nat (length b)) -> Z.of_nat (length l) * max_items <= Z.of_nat (length (concat l)).
Proof.
  induction l as [|b l IH]; intros Hl; cbn; [lia|]. rewrite length_app. specialize (IH (fun i => Hl (S i))).
  pose proof (Hl 0%nat b eq_refl). lia.
Qed.

Lemma packed_start : 1 <= max_items ->
  packed [] (MkPacking (replicate count []) (replicate count fzero) ((fun i => (fzero, i)) <$> seq 0 count)).
Proof.
  intros Hm. split; cbn.
  - by rewrite length_replicate.
  - by rewrite length_replicate.
  - induction count as [|n IH]; [done|apply IH].
  - intros i b [-> ?]%lookup_replicate. cbn. lia.
  - rewrite <- list_fmap_compose. unfold compose. cbn. rewrite list_fmap_id. apply NoDup_seq.
  - intros f i. rewrite list_elem_of_fmap. split.
    + intros (j & E & Hj%elem_of_seq). simplify_eq. exists []. cbn. split_and!; [|lia|]; apply lookup_replicate; split; [done|lia|done|lia].
    + intros (b & [-> Hi]%lookup_replicate & _ & [-> _]%lookup_replicate). exists i. split; [done|]. apply elem_of_seq. lia.
  - intros i b [-> Hi]%lookup_replicate. by apply lookup_replicate.
  - intros _ i b f [-> _]%lookup_replicate _ Hne. done.
Qed.

Lemma packed_pop seen st :
  packed seen st -> 1 <= max_items -> Z.of_nat (length seen) < Z.of_nat count * max_items ->
  exists f i b rest, heappop (eligible st) = Ok ((f, i), rest) /\ (f, i) :: rest ≡ₚ eligible st /\
    buckets st !! i = Some b /\ totals st !! i = Some f /\ Z.of_nat (length b) < max_items /\
    ((exists j, buckets st !! j = Some []) -> b = []).
Proof.
  intros Hp Hm Hlen. destruct (eligible st) as [|x l] eqn:El.
  { exfalso. assert (Hfull : forall i b, buckets st !! i = Some b -> max_items <= Z.of_nat (length b)).
    { intros i b Hi. destruct (Z.le_gt_cases max_items (Z.of_nat (length b))) as [|Hlt]; [done|]. exfalso.
      assert (Ht : is_Some (totals st !! i)).
      { apply lookup_lt_is_Some. rewrite (p_totals _ _ Hp), <- (p_buckets _ _ Hp). by eapply lookup_lt_Some. }
      destruct Ht as [f Hf]. assert (Hin : (f, i) ∈ eligible st) by (apply (p_eligible _ _ Hp); eauto).
      rewrite El in Hin. by apply not_elem_of_nil in Hin. }
    apply concat_full in Hfull. rewrite (p_tests _ _ Hp), length_fmap, (p_buckets _ _ Hp) in Hfull. lia. }
  cbn [heappop]. destruct (pop_min x l) as [[f i] rest] eqn:Epop. pose proof (pop_min_perm _ _ _ _ Epop) as Hperm.
  assert (Hin : (f, i) ∈ eligible st) by (rewrite El, <- Hperm, elem_of_cons; by left).
  pose proof Hin as (b & Hb & Hlt & Hf)%(p_eligible _ _ Hp). exists f, i, b, rest. split_and!; try done.
  intros [j Hj]. assert (Hf0 : f = fzero).
  { refine (pop_min_zero _ _ _ _ Epop _ _); rewrite <- El.
    - intros [g k] (c & Hc & _ & Hg)%(p_eligible _ _ Hp). cbn. destruct (decide (c = [])) as [->|Hne].
      + left. apply (p_sums _ _ Hp) in Hc. cbn in Hc. congruence.
      + right. exact (proj2 (p_phase _ _ Hp (ex_intro _ j Hj) k c g Hc Hg Hne)).
    - exists (fzero, j). split; [|done]. apply (p_eligible _ _ Hp). exists []. split_and!; [done|cbn; lia|by apply (p_sums _ _ Hp) in Hj]. }
  destruct (decide (b = [])) as [|Hne]; [done|]. exfalso.
  destruct (p_phase _ _ Hp (ex_intro _ j Hj) i b f Hb Hf Hne) as [_ Hpos]. by rewrite Hf0 in Hpos.
Qed.

Lemma packed_step seen st t d :
  packed seen st -> 1 <= max_items -> Z.of_nat (length seen) < Z.of_nat count * max_items ->
  durations !! test_id t = Some d -> positive d ->
  exists st', pack_test max_items durations st t = Ok st' /\ packed (seen ++ [t]) st'.
Proof.
  intros Hp Hm Hlen Hd Hpos. destruct (packed_pop seen st Hp Hm Hlen) as (f & i & b & rest & Epop & Hperm & Hb & Hf & Hlt & Hempty).
  unfold pack_test. rewrite Epop. cbn -[fadd Z.ltb]. rewrite Hb, Hf, Hd. cbn -[fadd Z.ltb].
  eexists. split; [reflexivity|].
  assert (Hi : (i < length (buckets st))%nat) by (by eapply lookup_lt_Some).
  assert (Hi' : (i < length (totals st))%nat) by (by eapply lookup_lt_Some).
  assert (Hnd : NoDup (i :: rest.*2)).
  { pose proof (p_nodup _ _ Hp) as Hn. rewrite <- Hperm in Hn. done. }
  assert (Hrest : forall g k, (g, k) ∈ rest <-> k <> i /\ (g, k) ∈ eligible st).
  { intros g k. rewrite <- Hperm, elem_of_cons. apply NoDup_cons in Hnd as [Hni _]. split.
    - intros Hin. split; [|by right]. intros ->. apply Hni, list_elem_of_fmap. by exists (g, i).
    - intros [Hne [E|Hin]]; [by simplify_eq|done]. }
  split; cbn [buckets totals eligible].
  - by rewrite length_insert, (p_buckets _ _ Hp).
  - by rewrite length_insert, (p_totals _ _ Hp).
  - rewrite (concat_insert _ _ _ _ Hb), (p_tests _ _ Hp), fmap_app. done.
  - intros k c [[<- [<- _]]|[Hne Hc]]%list_lookup_insert_Some; [|exact (p_size _ _ Hp k c Hc)]. rewrite length_app. cbn. lia.
  - match goal with |- NoDup (if ?x then _ else _).*2 => destruct x end; [done|by apply NoDup_cons in Hnd as [_ Hnd]].
  - intros g k. destruct (decide (k = i)) as [->|Hne].
    + rewrite !list_lookup_insert_eq by lia. split.
      * destruct (Z.ltb_spec (Z.of_nat (length (b ++ [test_id t]))) max_items).
        -- intros [E|[? _]%Hrest]%elem_of_cons; [|done]. simplify_eq. by eexists.
        -- by intros [? _]%Hrest.
      * intros (c & [= <-] & Hc & [= <-]). apply Z.ltb_lt in Hc. rewrite Hc. apply elem_of_cons. by left.
    + rewrite !list_lookup_insert_ne by done. rewrite <- (p_eligible _ _ Hp).
      trans ((g, k) ∈ rest); [|rewrite Hrest; naive_solver].
      match goal with |- _ ∈ (if ?x then _ else _) <-> _ => destruct x end; [|done]. rewrite elem_of_cons. naive_solver.
  - intros k c [[<- [<- _]]|[Hne Hk]]%list_lookup_insert_Some.
    + rewrite list_lookup_insert_eq by lia. unfold load. rewrite foldl_app. cbn -[fadd]. rewrite Hd. cbn -[fadd].
      apply (p_sums _ _ Hp) in Hb. unfold load in Hb. congruence.
    + rewrite list_lookup_insert_ne by done. by apply (p_sums _ _ Hp).
  - intros [j Hj] k c g Hk Hg Hcne. apply list_lookup_insert_Some in Hj as [[_ [E _]]|[Hij Hj]]; [by destruct b|].
    assert (b = []) as -> by eauto. apply list_lookup_insert_Some in Hk as [[<- [<- _]]|[Hne Hk]].
    + rewrite list_lookup_insert_eq in Hg by lia. simplify_eq. split; [done|].
      apply (p_sums _ _ Hp) in Hb. rewrite Hf in Hb. simplify_eq. by rewrite fadd_zero.
    + rewrite list_lookup_insert_ne in Hg by done. exact (p_phase _ _ Hp (ex_intro _ j Hj) k c g Hk Hg Hcne).
Qed.

Lemma concat_short (l : list (list pystr)) j :
  (forall i b, l !! i = Some b -> (length b <= 1)%nat) -> l !! j = Some [] -> (length (concat l) < length l)%nat.
Proof.
  revert j. induction l as [|b l IH]; intros j Hl Hj; [done|]. cbn. rewrite length_app. pose proof (Hl 0%nat b eq_refl) as Hb.
  destruct j as [|j]; [|specialize (IH j (fun i => Hl (S i)) Hj); lia]. cbn in Hj. simplify_eq. cbn.
  enough (length (concat l) <= length l)%nat by lia. clear IH Hb.
  assert (Hl' : forall i b, l !! i = Some b -> (length b <= 1)%nat) by (intros i; apply (Hl (S i))). clear Hl.
  induction l as [|c l IHl]; [done|]. cbn. rewrite length_app. pose proof (Hl' 0%nat c eq_refl).
  specialize (IHl (fun i => Hl' (S i))). lia.
Qed.

Lemma packed_nonempty seen st : packed seen st -> (count <= length seen)%nat -> [] ∉ buckets st.
Proof.
  intros Hp Hn [j Hj]%list_elem_of_lookup. assert (Hone : forall i b, buckets st !! i = Some b -> (length b <= 1)%nat).
  { intros i b Hb. destruct (decide (b = [])) as [->|Hne]; [cbn; lia|].
    rewrite (proj1 (p_phase _ _ Hp (ex_intro _ j Hj) i b _ Hb (p_sums _ _ Hp i b Hb) Hne)). lia. }
  pose proof (concat_short _ j Hone Hj) as Hs. rewrite (p_tests _ _ Hp), length_fmap, (p_buckets _ _ Hp) in Hs. lia.
Qed.

Lemma pack_packed ts :
  1 <= max_items -> Z.of_nat (length ts) <= Z.of_nat count * max_items ->
  (forall t, t ∈ ts -> exists d, durations !! test_id t = Some d /\ positive d) ->
  exists st, pack max_items durations count ts = Ok st /\ packed ts st.
Proof.
  intros Hm Hlen Hd. unfold pack. apply foldR_total; [by apply packed_start|].
  intros pre t st Hp [todo ->]. destruct (Hd t) as (d & Et & Hpos); [set_solver|].
  apply packed_step with d; try done. rewrite length_app in Hlen. cbn in Hlen. lia.
Qed.

(** Packing the tests of a profile into [count] shards, for a count
    between the least the shard size allows and the number of tests, does not
    fail: every test is in exactly one shard, no shard is empty, none holds
    more than [max_items_per_shard] tests, and the seconds of each shard are
    the durations of its tests added up. *)
Theorem packing_correct ts :
  1 <= max_items -> (count <= length ts)%nat -> Z.of_nat (length ts) <= Z.of_nat count * max_items ->
  (forall t, t ∈ ts -> exists d, durations !! test_id t = Some d /\ positive d) ->
  exists st, pack max_items durations count ts = Ok st /\
    length (buckets st) = count /\ concat (buckets st) ≡ₚ test_id <$> ts /\
    (forall b, b ∈ buckets st -> b <> [] /\ Z.of_nat (length b) <= max_items) /\
    totals st = load <$> buckets st.
Proof.
  intros Hm Hn Hlen Hd. destruct (pack_packed ts Hm Hlen Hd) as (st & E & Hp). exists st. split; [done|].
  split; [apply Hp|]. split; [apply Hp|]. pose proof (packed_nonempty _ _ Hp Hn) as Hne. split.
  - intros b Hb. split; [by intros ->|]. apply list_elem_of_lookup in Hb as [i Hi]. exact (p_size _ _ Hp i b Hi).
  - apply list_eq. intros i. rewrite list_lookup_fmap. destruct (buckets st !! i) as [b|] eqn:Eb; cbn.
    + by apply (p_sums _ _ Hp).
    + apply lookup_ge_None. apply lookup_ge_None in Eb. by rewrite (p_totals _ _ Hp), <- (p_buckets _ _ Hp).
Qed.
End packing.
