(* ===== verification/CapacityBudgets.v ===== *)
(** * Plans stay within the free slots

    The budgets of the profiles of a capacity class add up to at most the free
    slots of the class, and an optimised plan runs at most its budget of shards
    at once; without a fresh snapshot every plan is the conservative one. *)

From stdpp Require Import base gmap sets list sorting strings.
From Stdlib Require Import ZArith Lia.
From Stdlib Require Import SpecFloat.
From S2P Require Import Prelude Text PyFloat CanonicalJson Hashing Contract Instants RunnerCapacity CapacityFacts.

(** ** Slots are conserved *)

Lemma first_slots_conserve l rem l' rem' :
  0 <= rem -> (forall p, p ∈ l -> p.2 = 0) -> first_slots l rem = (l', rem') ->
  l'.*1 = l.*1 /\ slots l' + rem' = rem /\ 0 <= rem' /\ (forall p, p ∈ l' -> 0 <= p.2).
Proof.
  revert rem l' rem'. induction l as [|[i a] l IH]; intros rem l' rem' Hr Hz E; cbn [first_slots] in E.
  { simplify_eq. split_and!; [done|done|done|set_solver]. }
  destruct (Z.eqb_spec rem 0) as [->|Hne].
  - simplify_eq. split_and!; [done| |done|].
    + enough (slots ((i, a) :: l) = 0) by lia. clear IH Hr. induction ((i, a) :: l) as [|[j b] k IHk]; [done|].
      cbn. unfold slots in IHk. rewrite IHk by set_solver. pose proof (Hz (j, b) ltac:(set_solver)). cbn in *. lia.
    + intros p Hp. rewrite (Hz p Hp). lia.
  - destruct (first_slots l (rem - 1)) as [r rr] eqn:Er. simplify_eq.
    apply IH in Er as (E1 & E2 & E3 & E4); [|lia|set_solver]. cbn. split_and!; [by f_equal|unfold slots in E2; lia|done|].
    intros p [->|Hp]%elem_of_cons; [cbn; lia|by apply E4].
Qed.

Lemma slot_round_conserve demand l rem l' rem' :
  0 <= rem -> (forall p, p ∈ l -> 0 <= p.2) -> slot_round demand l rem = (l', rem') ->
  l'.*1 = l.*1 /\ slots l' + rem' = slots l + rem /\ 0 <= rem' /\ (forall p, p ∈ l' -> 0 <= p.2).
Proof.
  revert rem l' rem'. induction l as [|[i a] l IH]; intros rem l' rem' Hr Hz E; cbn [slot_round] in E.
  { simplify_eq. split_and!; [done|done|done|set_solver]. }
  pose proof (Hz (i, a) ltac:(set_solver)) as Ha. cbn in Ha.
  destruct (a <? demand i); [destruct (Z.eqb_spec rem 0) as [->|Hne]|].
  - simplify_eq. split_and!; done.
  - destruct (slot_round demand l (rem - 1)) as [r rr] eqn:Er. simplify_eq.
    apply IH in Er as (E1 & E2 & E3 & E4); [|lia|set_solver]. cbn. split_and!; [by f_equal|unfold slots in E2; lia|done|].
    intros p [->|Hp]%elem_of_cons; [cbn; lia|by apply E4].
  - destruct (slot_round demand l rem) as [r rr] eqn:Er. simplify_eq.
    apply IH in Er as (E1 & E2 & E3 & E4); [|lia|set_solver]. cbn. split_and!; [by f_equal|unfold slots in E2; lia|done|].
    intros p [->|Hp]%elem_of_cons; [cbn; lia|by apply E4].
Qed.

Lemma slot_rounds_conserve fuel demand l rem l' rem' :
  0 <= rem -> (forall p, p ∈ l -> 0 <= p.2) -> slot_rounds fuel demand l rem = Ok (l', rem') ->
  l'.*1 = l.*1 /\ slots l' + rem' = slots l + rem /\ 0 <= rem' /\ (forall p, p ∈ l' -> 0 <= p.2).
Proof.
  revert l rem. induction fuel as [|f IH]; intros l rem Hr Hz E; cbn [slot_rounds] in E.
  all: destruct (rem =? 0); [by simplify_eq|]; destruct (negb _); [by simplify_eq|]; try done.
  destruct (slot_round demand l rem) as [r rr] eqn:Er. apply slot_round_conserve in Er as (E1 & E2 & E3 & E4); [|done|done].
  apply IH in E as (F1 & F2 & F3 & F4); [|done|done]. split_and!; [congruence|lia|done|done].
Qed.

Lemma allocate_class_conserve demand ids free l :
  0 <= free -> allocate_class demand ids free = Ok l ->
  l.*1 = ids /\ slots l <= free /\ (forall p, p ∈ l -> 0 <= p.2).
Proof.
  intros Hf. unfold allocate_class. destruct (first_slots _ free) as [l1 r1] eqn:E1.
  apply first_slots_conserve in E1 as (Hi & Hs & Hr & Hz); [|done|by intros p (i & -> & _)%list_elem_of_fmap].
  intros ([l2 r2] & E2 & E)%bind_Ok. simplify_eq. apply slot_rounds_conserve in E2 as (Hi' & Hs' & Hr' & Hz'); [|done|done].
  split_and!; [|lia|done]. rewrite Hi', Hi, <- list_fmap_compose. apply list_fmap_id.
Qed.

(** ** Profiles grouped by capacity class *)

(** The classes in the order they are first met. *)
Definition classes (l : list ExecutionProfile) : list pystr :=
  foldl (fun cs p => if bool_decide (capacity_class_id p ∈ cs) then cs else cs ++ [capacity_class_id p]) [] l.

Definition members (l : list ExecutionProfile) (c : pystr) : list ExecutionProfile :=
  filter (fun p => capacity_class_id p = c) l.

Lemma classes_snoc l p :
  classes (l ++ [p]) = if bool_decide (capacity_class_id p ∈ classes l) then classes l else classes l ++ [capacity_class_id p].
Proof. unfold classes. by rewrite foldl_app. Qed.

Lemma classes_NoDup l : NoDup (classes l).
Proof.
  induction l as [|p l IH] using rev_ind; [constructor|]. rewrite classes_snoc. case_bool_decide; [done|].
  apply NoDup_app. split_and!; [done|set_solver|apply NoDup_singleton].
Qed.

Lemma classes_elem l p : p ∈ l -> capacity_class_id p ∈ classes l.
Proof.
  induction l as [|q l IH] using rev_ind; [set_solver|]. rewrite classes_snoc.
  intros [Hp|E%list_elem_of_singleton]%elem_of_app; [specialize (IH Hp)|subst q]; case_bool_decide; set_solver.
Qed.

Lemma members_snoc l p c : members (l ++ [p]) c = members l c ++ (if bool_decide (capacity_class_id p = c) then [p] else []).
Proof. unfold members. rewrite filter_app. f_equal. rewrite filter_cons, filter_nil. by repeat case_decide; case_bool_decide. Qed.

Lemma members_none l c : c ∉ classes l -> members l c = [].
Proof.
  intros Hc. unfold members. destruct (filter _ l) as [|q k] eqn:E; [done|]. exfalso.
  assert (Hq : q ∈ filter (fun p => capacity_class_id p = c) l) by (rewrite E; set_solver).
  apply list_elem_of_filter in Hq as [<- Hq]. by apply Hc, classes_elem.
Qed.

Lemma group_profiles_spec l : group_profiles l = (fun c => (c, members l c)) <$> classes l.
Proof.
  induction l as [|p l IH] using rev_ind; [done|]. unfold group_profiles in *. rewrite foldl_app. cbn. rewrite IH, classes_snoc.
  assert (Hex : existsb (fun g => bool_decide (g.1 = capacity_class_id p)) ((fun c => (c, members l c)) <$> classes l)
                = bool_decide (capacity_class_id p ∈ classes l)).
  { apply eq_bool_prop_intro. rewrite bool_decide_spec. rewrite Is_true_true, existsb_elem. split.
    - intros (g & (c & -> & Hc)%list_elem_of_fmap & E%bool_decide_eq_true). cbn in E. by subst.
    - intros Hc. eexists. split; [apply list_elem_of_fmap; by eexists|]. cbn. by apply bool_decide_eq_true. }
  rewrite Hex. case_bool_decide as Hin.
  - rewrite <- list_fmap_compose. apply list_fmap_ext. intros i c Hc. cbn. rewrite members_snoc.
    case_bool_decide as E1; case_bool_decide as E2; try congruence. by rewrite app_nil_r.
  - rewrite fmap_app. f_equal.
    + apply list_fmap_ext. intros i c Hc. rewrite members_snoc. rewrite bool_decide_eq_false_2, app_nil_r; [done|].
      intros E. apply Hin. rewrite E. by eapply list_elem_of_lookup_2.
    + cbn. rewrite members_snoc, bool_decide_eq_true_2 by done.
      rewrite (members_none l (capacity_class_id p) Hin). done.
Qed.

(** ** Budgets *)

Definition budget (b : gmap pystr (option Z)) (i : pystr) : Z := default 0 (mjoin (b !! i)).

Definition budgets_sum (b : gmap pystr (option Z)) (ps : list ExecutionProfile) : Z :=
  foldr (fun p n => budget b (profile_id p) + n) 0 ps.

Lemma budgets_sum_cons b p ps : budgets_sum b (p :: ps) = budget b (profile_id p) + budgets_sum b ps.
Proof. done. Qed.

Lemma budgets_sum_ext b b' ps :
  (forall p, p ∈ ps -> b !! profile_id p = b' !! profile_id p) -> budgets_sum b ps = budgets_sum b' ps.
Proof.
  induction ps as [|p ps IH]; intros He; [done|]. rewrite !budgets_sum_cons, IH by set_solver. unfold budget. by rewrite He by set_solver.
Qed.

(** Storing a value under each of a list of keys. *)
Definition store_all {A} (key : A -> pystr) (val : A -> option Z) (b : gmap pystr (option Z)) (l : list A) :=
  foldl (fun b a => <[key a := val a]> b) b l.

Lemma store_all_other {A} (key : A -> pystr) val b l i : i ∉ key <$> l -> store_all key val b l !! i = b !! i.
Proof.
  unfold store_all. revert b. induction l as [|a l IH]; intros b Hi; [done|]. cbn in *.
  rewrite IH by set_solver. rewrite lookup_insert_ne; [done|set_solver].
Qed.

Lemma store_all_lookup {A} (key : A -> pystr) val b l a :
  NoDup (key <$> l) -> a ∈ l -> store_all key val b l !! key a = Some (val a).
Proof.
  unfold store_all. revert b. induction l as [|x l IH]; intros b; [set_solver|]. cbn. rewrite NoDup_cons. intros [Hx Hn].
  intros [->|Ha]%elem_of_cons; [|by apply IH].
  pose proof (store_all_other key val (<[key x := val x]> b) l (key x) Hx) as E. unfold store_all in E. rewrite E. apply lookup_insert_eq.
Qed.

Lemma store_all_values {A} (key : A -> pystr) val b l i v :
  store_all key val b l !! i = Some v -> b !! i = Some v \/ exists a, a ∈ l /\ val a = v.
Proof.
  unfold store_all. revert b. induction l as [|x l IH]; intros b; cbn; [by left|]. intros [E|(a & Ha & <-)]%IH; [|right; set_solver].
  destruct (decide (key x = i)) as [<-|Hne]; [rewrite lookup_insert_eq in E; simplify_eq; right; set_solver|].
  rewrite lookup_insert_ne in E by done. by left.
Qed.

Lemma budgets_sum_slots b ps l :
  NoDup (profile_id <$> ps) -> l.*1 = profile_id <$> ps ->
  budgets_sum (store_all fst (fun a => Some a.2) b l) ps = slots l.
Proof.
  intros Hn E. assert (Hl : forall a, a ∈ l -> store_all fst (fun a => Some a.2) b l !! a.1 = Some (Some a.2)).
  { intros a. apply (store_all_lookup fst (fun a => Some a.2)). by rewrite E. }
  revert Hl. generalize (store_all fst (fun a : pystr * Z => Some a.2) b l). clear b Hn. intros b.
  revert l E. induction ps as [|p ps IH]; intros [|[i z] l] E Hl; cbn in E; simplify_eq; [done|].
  rewrite budgets_sum_cons, (IH l); [|done|set_solver]. unfold budget. pose proof (Hl (profile_id p, z)) as Hp. cbn in Hp.
  rewrite Hp by set_solver. done.
Qed.

Lemma budgets_sum_none b ps : (forall p, p ∈ ps -> b !! profile_id p = Some None) -> budgets_sum b ps = 0.
Proof. induction ps as [|p ps IH]; intros Hb; [done|]. rewrite !budgets_sum_cons, IH by set_solver. unfold budget. by rewrite Hb by set_solver. Qed.

(** ** The budgets of a class *)

Lemma execution_profiles_facts m ps :
  tm_execution_profiles m = Ok ps ->
  NoDup (profile_id <$> ps) /\
  forall p, p ∈ ps -> dict_by profile_id id (execution_profiles (tm_catalog m)) !! profile_id p = Some p.
Proof.
  unfold tm_execution_profiles. intros (pids & _ & E)%bind_Ok. apply bind_Ok in E as (ids & (_ & _ & Hn)%sorted_unique_Ok & E).
  assert (Hone : forall i p, from_option KeyError (dict_by profile_id id (execution_profiles (tm_catalog m)) !! i) = Ok p ->
            profile_id p = i /\ dict_by profile_id id (execution_profiles (tm_catalog m)) !! i = Some p).
  { intros i p Hp%from_option_Ok. split; [|done]. apply dict_by_Some in Hp as (x & _ & Hx & <-). done. }
  split.
  - enough (profile_id <$> ps = ids) as -> by done. apply mapR_Ok in E. clear -E Hone. induction E as [|i p ids ps Hi _ IH]; [done|].
    cbn. rewrite IH. f_equal. by apply Hone.
  - intros p Hp. destruct (mapR_elem_inv _ _ _ _ E Hp) as (i & Hi & _). apply Hone in Hi as [-> Hi]. done.
Qed.

Section budgets.
Context (s : RunnerSnapshot) (demand : pystr -> Z) (profiles : list ExecutionProfile).
Hypothesis Hfree : forall c, c ∈ capacities s -> 0 <= free_slots c.
Hypothesis Hids : NoDup (profile_id <$> profiles).

Definition free (c : pystr) : Z := default 0 (free_slots_for s c).

Lemma free_nonneg c : 0 <= free c.
Proof.
  unfold free, free_slots_for. destruct (List.find _ _) as [k|] eqn:E; cbn; [|lia].
  apply find_some in E as [Hk _]. by apply Hfree, list_elem_of_In.
Qed.

(** The body of the loop over the groups. *)
Definition budget_step (b : gmap pystr (option Z)) (g : pystr * list ExecutionProfile) : res (gmap pystr (option Z)) :=
  match free_slots_for s g.1 with
  | None => Ok (store_all profile_id (fun _ => None) b g.2)
  | Some free => l ← allocate_class demand (profile_id <$> g.2) free; Ok (store_all fst (fun a => Some a.2) b l)
  end.

Lemma members_ids c : NoDup (profile_id <$> members profiles c).
Proof.
  unfold members. clear -Hids. induction profiles as [|p l IH]; [constructor|]. cbn in Hids. apply NoDup_cons in Hids as [Hp Hn].
  rewrite filter_cons. case_decide; [|by apply IH]. cbn. apply NoDup_cons. split; [|by apply IH].
  intros (q & E & [_ Hq]%list_elem_of_filter)%list_elem_of_fmap. apply Hp. rewrite E. by apply list_elem_of_fmap_2.
Qed.

Lemma budget_step_spec b c b' :
  budget_step b (c, members profiles c) = Ok b' -> (forall i z, b !! i = Some (Some z) -> 0 <= z) ->
  (forall i, i ∉ profile_id <$> members profiles c -> b' !! i = b !! i) /\
  budgets_sum b' (members profiles c) <= free c /\ (forall i z, b' !! i = Some (Some z) -> 0 <= z).
Proof.
  unfold budget_step, free. cbn [fst snd]. pose proof (free_nonneg c) as Hf. unfold free in Hf. pose proof (members_ids c) as Hn.
  destruct (free_slots_for s c) as [n|]; cbn in Hf |- *.
  - intros (l & Hl & E)%bind_Ok Hb. injection E as <-. apply allocate_class_conserve in Hl as (Hi & Hs & Hz); [|done].
    split_and!; [intros i Hni; apply (store_all_other fst); by rewrite Hi|by rewrite budgets_sum_slots|].
    intros i z [E|(a & Ha & E)]%store_all_values; [by eapply Hb|]. injection E as <-. by apply Hz.
  - intros [= <-] Hb. split_and!; [intros i; apply store_all_other| |].
    + rewrite budgets_sum_none; [done|]. intros p Hp. by apply (store_all_lookup profile_id (fun _ => None)).
    + intros i z [E|(a & Ha & E)]%store_all_values; [by eapply Hb|done].
Qed.

Lemma members_disjoint c c' p q :
  c <> c' -> p ∈ members profiles c -> q ∈ members profiles c' -> profile_id p <> profile_id q.
Proof.
  intros Hne [Hp Hpl]%list_elem_of_filter [Hq Hql]%list_elem_of_filter E. apply Hne.
  assert (p = q) as <-; [|congruence].
  apply list_elem_of_lookup in Hpl as [i Hi]. apply list_elem_of_lookup in Hql as [j Hj].
  assert (i = j) as <-; [|congruence].
  eapply (NoDup_lookup _ _ _ (profile_id p) Hids); rewrite list_lookup_fmap; [by rewrite Hi|by rewrite Hj, E].
Qed.

Lemma budgets_within b :
  foldR budget_step ∅ (group_profiles profiles) = Ok b ->
  (forall i z, b !! i = Some (Some z) -> 0 <= z) /\
  forall c, budgets_sum b (members profiles c) <= free c.
Proof.
  rewrite group_profiles_spec. intros E.
  cut ((forall i z, b !! i = Some (Some z) -> 0 <= z) /\
       forall g, g ∈ (fun c => (c, members profiles c)) <$> classes profiles -> budgets_sum b g.2 <= free g.1).
  { intros [Hb Hg]. split; [done|]. intros c. destruct (decide (c ∈ classes profiles)) as [Hc|Hc].
    - apply (Hg (c, members profiles c)), list_elem_of_fmap. by exists c.
    - rewrite members_none by done. cbn. apply free_nonneg. }
  pose proof (classes_NoDup profiles) as Hnd. revert b E Hnd. induction (classes profiles) as [|c cs IH] using rev_ind; intros b E Hnd.
  { cbn in E. simplify_eq. split; [done|set_solver]. }
  rewrite fmap_app, foldR_app in E. apply bind_Ok in E as (b1 & E1 & E2). apply NoDup_app in Hnd as (Hn1 & Hd & _).
  destruct (IH b1 E1 Hn1) as [Hpos Hall]. cbn in E2. apply bind_Ok in E2 as (b2 & E2 & [= <-]).
  destruct (budget_step_spec _ _ _ E2 Hpos) as (Hother & Hsum & Hpos2). split; [done|].
  intros g. rewrite fmap_app. intros [Hg|Hg]%elem_of_app.
  - rewrite <- (budgets_sum_ext b1); [by apply Hall|]. apply list_elem_of_fmap in Hg as (c' & -> & Hc'). cbn.
    intros p Hp. symmetry. apply Hother. intros (q & Eq & Hq)%list_elem_of_fmap.
    refine (members_disjoint c' c p q _ Hp Hq Eq). intros ->. apply (Hd c); set_solver.
  - apply list_elem_of_singleton in Hg as ->. done.
Qed.
End budgets.

Lemma capacity_budgets_within m s b ps :
  (forall c, c ∈ capacities s -> 0 <= free_slots c) ->
  tm_execution_profiles m = Ok ps -> _profile_capacity_budgets m s = Ok b ->
  (forall i z, b !! i = Some (Some z) -> 0 <= z) /\ forall c, budgets_sum b (members ps c) <= free s c.
Proof.
  intros Hf Hps. unfold _profile_capacity_budgets. rewrite Hps. intros (ps' & [= <-] & E)%bind_Ok. apply bind_Ok in E as (ds & _ & E).
  eapply budgets_within; [done|by apply (execution_profiles_facts m)|exact E].
Qed.

(** ** Plans *)

Section plans.
Context `{Sha256}.

Lemma conservative_profile_facts manifest p ts r h plan :
  _conservative_profile manifest p ts r h = Ok plan -> mode plan = conservative /\ psp_profile_id plan = profile_id p.
Proof.
  unfold _conservative_profile. intros (built & _ & E)%bind_Ok. apply bind_Ok in E as (sorted & _ & E).
  apply bind_Ok in E as (? & _ & [= <-]). done.
Qed.

Lemma candidate_facts manifest p ts ds n f plan :
  _candidate manifest p ts ds n f = Ok plan -> psp_profile_id plan = profile_id p /\ psp_max_parallel plan <= f.
Proof.
  unfold _candidate. intros (st & _ & E)%bind_Ok. apply bind_Ok in E as (built & _ & E). apply bind_Ok in E as (sorted & _ & E).
  apply bind_Ok in E as (? & _ & [= <-]). cbn. split; [done|lia].
Qed.

Lemma min_plan_elem best l : exists k, (min_plan best l, k) ∈ best :: l.
Proof.
  revert best. induction l as [|x l IH]; intros best; cbn.
  { exists best.2. destruct best. cbn. set_solver. }
  destruct (key_ltb _ _); [destruct (IH x) as [k Hk]|destruct (IH best) as [k Hk]]; exists k; set_solver.
Qed.

Lemma optimize_profile_facts m p b h r plan :
  _optimize_profile m p b h r = Ok plan ->
  psp_profile_id plan = profile_id p /\
  (mode plan = optimized -> exists z, b = Some z /\ psp_max_parallel plan <= z).
Proof.
  unfold _optimize_profile. intros (ts & _ & E)%bind_Ok. apply bind_Ok in E as (minimum & _ & E).
  assert (Hcons : forall r, (mid ← manifest_id m; _conservative_profile mid p ts r h) = Ok plan ->
            psp_profile_id plan = profile_id p /\ (mode plan = optimized -> exists z, b = Some z /\ psp_max_parallel plan <= z)).
  { intros r' (mid & _ & [Hm Hi]%conservative_profile_facts)%bind_Ok. split; [done|congruence]. }
  destruct b as [z|]; [|by eapply Hcons]. destruct (z <? 1); [by eapply Hcons|].
  apply bind_Ok in E as ([ds|] & _ & E); [|by eapply Hcons].
  apply bind_Ok in E as (ordered & _ & E). apply bind_Ok in E as (cands & Hc & E).
  destruct cands as [|x l]; [done|]. injection E as E. destruct (min_plan_elem x l) as [k Hk]. rewrite E in Hk.
  destruct (mapR_elem_inv _ _ _ _ Hc Hk) as (n & Hn & _). apply bind_Ok in Hn as (mid & _ & Hn).
  apply bind_Ok in Hn as (q & Hq & Hn). apply bind_Ok in Hn as (k' & _ & [= -> ->]).
  apply candidate_facts in Hq as [Hi Hp]. split; [done|]. intros _. by exists z.
Qed.

(** The runners the optimised plans of class [c] use at once. *)
Definition class_of (m : TestManifest) (i : pystr) : option pystr :=
  capacity_class_id <$> dict_by profile_id id (execution_profiles (tm_catalog m)) !! i.

Definition parallel_used (m : TestManifest) (c : pystr) (ps : list ProfileShardPlan) : Z :=
  foldr (fun p n => (if bool_decide (mode p = optimized) && bool_decide (class_of m (psp_profile_id p) = Some c)
                     then psp_max_parallel p else 0) + n) 0 ps.

Lemma parallel_used_within m b c ps plans :
  (forall i z, b !! i = Some (Some z) -> 0 <= z) -> (forall p, p ∈ ps -> class_of m (profile_id p) = Some (capacity_class_id p)) ->
  Forall2 (fun p plan => psp_profile_id plan = profile_id p /\
             (mode plan = optimized -> exists z, b !! profile_id p = Some (Some z) /\ psp_max_parallel plan <= z)) ps plans ->
  parallel_used m c plans <= budgets_sum b (members ps c).
Proof.
  intros Hpos Hcls Hall. induction Hall as [|p plan ps plans [Hi Hm] _ IH]; [done|]. unfold parallel_used in *. cbn [foldr].
  specialize (IH ltac:(set_solver)). rewrite Hi, (Hcls p) by set_solver. unfold members in *. rewrite filter_cons.
  assert (0 <= budget b (profile_id p)).
  { unfold budget. destruct (b !! profile_id p) as [[z|]|] eqn:E; cbn; [by eapply Hpos|lia|lia]. }
  case_decide as E; [rewrite budgets_sum_cons|].
  - case_bool_decide as Ho; cbn [andb]; [|lia]. destruct (Hm Ho) as (z & Hz & Hle).
    unfold budget in *. rewrite Hz in *. cbn in *. case_bool_decide; lia.
  - rewrite (bool_decide_eq_false_2 (Some _ = Some c)) by congruence. rewrite andb_false_r. lia.
Qed.

Lemma conservative_plan_facts m r h plan : _conservative_plan m r h = Ok plan -> Forall (fun p => mode p = conservative) (profile_plans plan).
Proof.
  unfold _conservative_plan, ShardPlan_new. intros (ps & _ & E)%bind_Ok. apply bind_Ok in E as (plans & Hp & E).
  apply bind_Ok in E as (? & _ & [= <-]). cbn. apply Forall_forall. intros q Hq.
  destruct (mapR_elem_inv _ _ _ _ Hp Hq) as (p & Hpq & _). apply bind_Ok in Hpq as (ts & _ & Hpq).
  apply bind_Ok in Hpq as (? & _ & Hpq). apply bind_Ok in Hpq as (mid & _ & Hpq).
  exact (proj1 (conservative_profile_facts _ _ _ _ _ _ Hpq)).
Qed.

(** C34: the optimised plans of the profiles of one capacity class together run
    at most as many shards at once as the snapshot says the class has free
    slots, none when it says nothing of the class; without a snapshot, or with
    one that is not fresh, no plan is an optimised one. *)
Theorem capacity_respected m snapshot h now plan :
  (forall s, snapshot = Some s -> forall c, c ∈ capacities s -> RunnerCapacity_check c = Ok tt) ->
  optimize_shards m snapshot h now = Ok plan ->
  match snapshot with
  | Some s => if is_fresh s now then forall c, parallel_used m c (profile_plans plan) <= default 0 (free_slots_for s c)
              else Forall (fun p => mode p = conservative) (profile_plans plan)
  | None => Forall (fun p => mode p = conservative) (profile_plans plan)
  end.
Proof.
  intros Hck E. unfold optimize_shards in E. destruct snapshot as [s|]; [|by eapply conservative_plan_facts].
  destruct (is_fresh s now); cbn [negb] in E; [|by eapply conservative_plan_facts].
  apply bind_Ok in E as (b & Hb & E). apply bind_Ok in E as (ps & Hps & E). apply bind_Ok in E as (plans & Hpl & E).
  unfold ShardPlan_new in E. apply bind_Ok in E as (? & _ & [= <-]). cbn [profile_plans]. intros c.
  destruct (capacity_budgets_within m s b ps) as [Hpos Hsum]; [|done|done|].
  { intros k Hk. specialize (Hck s eq_refl k Hk). apply bind_Ok in Hck as (? & _ & Hck). apply raise_if_Ok in Hck. lia. }
  etrans; [|apply (Hsum c)]. apply parallel_used_within; [done| |].
  - intros p Hp. unfold class_of. by rewrite (proj2 (execution_profiles_facts m ps Hps) p Hp).
  - apply mapR_Ok in Hpl. eapply Forall2_impl; [exact Hpl|]. intros p plan (z & Hz%from_option_Ok & Ho)%bind_Ok.
    apply optimize_profile_facts in Ho as [Hi Hm]. split; [done|]. intros Hopt. destruct (Hm Hopt) as (z' & -> & Hle). by exists z'.
Qed.
End plans.
