(* ===== verification/CapacityChoice.v ===== *)
(** * The plan the optimiser chooses

    Among the admissible shard counts the optimiser returns a plan that covers
    the tests of the profile and that no other candidate beats on cost, number
    of shards and shard identities, in that order. *)

From stdpp Require Import base gmap sets list sorting strings.
From Stdlib Require Import ZArith Lia.
From Stdlib Require Import SpecFloat.
From S2P Require Import Prelude Text PyFloat CanonicalJson Hashing Contract Instants RunnerCapacity CapacityFacts.

(** ** Floats without NaN are totally ordered *)

Definition is_nan (f : spec_float) : bool := match f with S754_nan => true | _ => false end.

(** Kind, exponent and mantissa, so that the order is the lexicographic one. *)
Definition rank (f : spec_float) : list Z :=
  match f with
  | S754_infinity true => [-2; 0; 0]
  | S754_finite true m e => [-1; - e; Z.neg m]
  | S754_finite false m e => [1; e; Z.pos m]
  | S754_infinity false => [2; 0; 0]
  | _ => [0; 0; 0]
  end.

Lemma lex_pair k a b c d : lex_leb [k; a; b] [k; c; d] = (a <? c) || (a =? c) && (b <=? d).
Proof.
  cbn [lex_leb]. rewrite Z.ltb_irrefl, Z.eqb_refl. destruct (Z.ltb_spec a c), (Z.eqb_spec a c); cbn; try done.
  destruct (Z.ltb_spec b d), (Z.eqb_spec b d), (Z.leb_spec b d); first [done|lia].
Qed.

Lemma rank_pair k a b c d : bool_decide ([k; a; b] = [k; c; d]) = (a =? c) && (b =? d).
Proof.
  destruct (Z.eqb_spec a c) as [->|], (Z.eqb_spec b d) as [->|]; cbn;
    [by apply bool_decide_eq_true|apply bool_decide_eq_false; congruence..].
Qed.

Lemma float_compare_rank a b : is_nan a = false -> is_nan b = false ->
  SFltb a b = negb (lex_leb (rank b) (rank a)) /\ SFeqb a b = bool_decide (rank a = rank b).
Proof.
  intros Ha Hb. unfold SFltb, SFeqb.
  destruct a as [sa|[]| |[] ma ea], b as [sb|[]| |[] mb eb]; try done; cbn [SFcompare rank].
  all: rewrite lex_pair, rank_pair; change (Pos.compare_cont Eq ma mb) with (Pos.compare ma mb);
    destruct (Z.compare_spec ea eb), (Pos.compare_spec ma mb); cbn [CompOpp]; rewrite <- ?Pos2Z.opp_pos; split; lia.
Qed.

(** The converse of "strictly below" is a total preorder: it is asymmetric and
    its negation is transitive. *)
Lemma lex_lt_asym a b : lex_leb b a = false -> lex_leb a b = true.
Proof. intros Hf. destruct (lex_leb_total a b); congruence. Qed.

Lemma strs_ltb_irrefl a : strs_ltb a a = false.
Proof. induction a as [|x a IH]; cbn; [done|]. by rewrite bool_decide_eq_true_2. Qed.

Lemma strs_ltb_asym a b : strs_ltb a b = true -> strs_ltb b a = false.
Proof.
  revert b. induction a as [|x a IH]; intros [|y b]; cbn; try done.
  case_bool_decide as E1; case_bool_decide as E2; subst; try done; [apply IH|].
  rewrite negb_true_iff, negb_false_iff. by apply lex_lt_asym.
Qed.

Lemma strs_nlt_trans a b c : strs_ltb a b = false -> strs_ltb b c = false -> strs_ltb a c = false.
Proof.
  revert b c. induction a as [|x a IH]; intros [|y b] [|z c]; cbn; try done.
  case_bool_decide as E1; case_bool_decide as E2; case_bool_decide as E3; subst; try done; rewrite ?negb_false_iff.
  - apply IH.
  - intros H1 H2. destruct E1. by apply lex_leb_antisym.
  - intros H1 H2. by apply lex_leb_trans with y.
Qed.

(** ** Keys *)

Definition key_ok (k : plan_key) : Prop := is_nan (k_cost k) = false.

(** The order on keys, on ranks. *)
Lemma key_ltb_spec a b : key_ok a -> key_ok b ->
  key_ltb a b = if bool_decide (rank (k_cost a) = rank (k_cost b))
                then if k_count a =? k_count b then strs_ltb (k_ids a) (k_ids b) else k_count a <? k_count b
                else negb (lex_leb (rank (k_cost b)) (rank (k_cost a))).
Proof. intros Ha Hb. unfold key_ltb. destruct (float_compare_rank _ _ Ha Hb) as [-> ->]. done. Qed.

Lemma key_ltb_irrefl a : key_ok a -> key_ltb a a = false.
Proof. intros Ha. rewrite key_ltb_spec by done. rewrite bool_decide_eq_true_2, Z.eqb_refl by done. apply strs_ltb_irrefl. Qed.

Lemma key_ltb_asym a b : key_ok a -> key_ok b -> key_ltb a b = true -> key_ltb b a = false.
Proof.
  intros Ha Hb. rewrite !key_ltb_spec by done. case_bool_decide as E1; case_bool_decide as E2; try congruence.
  - destruct (Z.eqb_spec (k_count a) (k_count b)), (Z.eqb_spec (k_count b) (k_count a)); try lia. apply strs_ltb_asym.
  - rewrite negb_true_iff, negb_false_iff. by apply lex_lt_asym.
Qed.

Lemma key_nlt_trans a b c :
  key_ok a -> key_ok b -> key_ok c -> key_ltb a b = false -> key_ltb b c = false -> key_ltb a c = false.
Proof.
  intros Ha Hb Hc. rewrite !key_ltb_spec by done.
  generalize (rank (k_cost a)) (rank (k_cost b)) (rank (k_cost c)). intros ra rb rc.
  case_bool_decide as E1; case_bool_decide as E2; case_bool_decide as E3; subst; try done; rewrite ?negb_false_iff.
  - destruct (Z.eqb_spec (k_count a) (k_count b)), (Z.eqb_spec (k_count b) (k_count c)), (Z.eqb_spec (k_count a) (k_count c));
      try lia. apply strs_nlt_trans.
  - intros H1 H2. destruct E1. by apply lex_leb_antisym.
  - intros H1 H2. by apply lex_leb_trans with rb.
Qed.

Lemma min_plan_least best l :
  (forall c, c ∈ best :: l -> key_ok c.2) ->
  exists k, (min_plan best l, k) ∈ best :: l /\ forall c, c ∈ best :: l -> key_ltb c.2 k = false.
Proof.
  revert best. induction l as [|x l IH]; intros best Hok; cbn [min_plan].
  { exists best.2. destruct best as [p k]. cbn. split; [set_solver|]. intros c ->%list_elem_of_singleton. cbn.
    apply key_ltb_irrefl. apply (Hok (p, k)). set_solver. }
  assert (Hb : key_ok best.2) by (apply Hok; set_solver). assert (Hx : key_ok x.2) by (apply Hok; set_solver).
  set (b := if key_ltb x.2 best.2 then x else best).
  assert (Hsub : forall c, c ∈ b :: l -> c ∈ best :: x :: l) by (intros c; subst b; destruct (key_ltb _ _); set_solver).
  destruct (IH b) as (k & Hk & Hle); [intros c Hc; by apply Hok, Hsub|]. exists k. split; [by apply Hsub|].
  assert (key_ok k) by (apply (Hok (min_plan b l, k)); by apply Hsub).
  assert (Hbk : key_ltb b.2 k = false) by (apply Hle; set_solver).
  assert (key_ltb best.2 b.2 = false /\ key_ltb x.2 b.2 = false) as [H1 H2].
  { subst b. destruct (key_ltb x.2 best.2) eqn:E; auto using key_ltb_irrefl, key_ltb_asym. }
  assert (key_ok b.2) by (subst b; by destruct (key_ltb _ _)).
  intros c [->|[->|Hc]%elem_of_cons]%elem_of_cons; [by apply key_nlt_trans with b.2..|apply Hle; set_solver].
Qed.

(** ** Candidates *)

Lemma py_sorted_perm {A} (key : A -> res (list Z)) (l r : list A) : py_sorted key l = Ok r -> r ≡ₚ l.
Proof.
  unfold py_sorted. intros (ks & Hk & [= <-])%bind_Ok. rewrite isort_perm. apply mapR_length in Hk.
  rewrite snd_zip; [done|lia].
Qed.

Lemma positive_duration_positive v d : _positive_duration v = Ok (Some d) -> positive d.
Proof.
  assert (Haccept : forall f, (if float_isfinite f && negb (SFleb f fzero) then Some f else None) = Some d -> positive d).
  { intros f. destruct f as [[]|[]| |[] m e]; cbn; try done; intros [= <-]; done. }
  unfold _positive_duration. destruct v as [[]|]; try done.
  - intros (f & _ & [= Hf])%bind_Ok. by apply Haccept in Hf.
  - intros [= Hf]. by apply Haccept in Hf.
Qed.

Lemma durations_positive ts h ds :
  _durations ts h = Ok (Some ds) -> forall t, t ∈ ts -> exists d, ds !! test_id t = Some d /\ positive d.
Proof.
  unfold _durations.
  enough (Hgen : forall m, durations_loop ts h m = Ok (Some ds) ->
            (forall i d, m !! i = Some d -> positive d) ->
            (forall i d, ds !! i = Some d -> positive d) /\ (forall i, is_Some (m !! i) -> is_Some (ds !! i)) /\
            forall t, t ∈ ts -> is_Some (ds !! test_id t)).
  { intros E t Ht. destruct (Hgen ∅ E) as (Hp & _ & Hs); [intros i d; by rewrite lookup_empty|].
    destruct (Hs t Ht) as [d Hd]. exists d. split; [done|]. by eapply Hp. }
  induction ts as [|t ts IH]; intros m E Hm; cbn in E; [simplify_eq; split_and!; [done|done|set_solver]|].
  apply bind_Ok in E as ([d|] & Hd & E); [|done]. apply positive_duration_positive in Hd.
  destruct (IH _ E) as (Hp & Hk & Hs).
  { intros i e. destruct (decide (i = test_id t)) as [->|Hne]; [rewrite lookup_insert_eq; by intros [= <-]|].
    rewrite lookup_insert_ne by done. apply Hm. }
  split_and!; [done| |].
  - intros i Hi. apply Hk. destruct (decide (i = test_id t)) as [->|Hne]; [by rewrite lookup_insert_eq|by rewrite lookup_insert_ne].
  - intros t' [->|Ht']%elem_of_cons; [|by apply Hs]. apply Hk. by rewrite lookup_insert_eq.
Qed.

Lemma order_tests_perm ds ts r : order_tests ds ts = Ok r -> r ≡ₚ ts.
Proof.
  unfold order_tests. intros (keyed & Hk & [= <-])%bind_Ok. rewrite isort_perm. apply mapR_Ok in Hk.
  induction Hk as [|t kt ts keyed Ht _ IH]; [done|]. cbn. apply bind_Ok in Ht as (d & _ & Ht).
  apply bind_Ok in Ht as (k & _ & [= <-]). cbn. by rewrite IH.
Qed.

Lemma minimum_shards_enough p n k c :
  1 <= max_items_per_shard p -> 0 <= n -> _minimum_shards p n = Ok k -> k <= c -> n <= c * max_items_per_shard p.
Proof.
  intros Hm Hn. unfold _minimum_shards. intros (? & _ & [= <-])%bind_Ok Hc.
  pose proof (Z.div_mod (n + max_items_per_shard p - 1) (max_items_per_shard p) ltac:(lia)).
  pose proof (Z.mod_pos_bound (n + max_items_per_shard p - 1) (max_items_per_shard p) ltac:(lia)). nia.
Qed.

Section choice.
Context `{Sha256}.

Lemma Shard_new_facts manifest profile ids x sh :
  Shard_new manifest profile ids x = Ok sh -> sh = {| sh_manifest_id := manifest; sh_profile_id := profile; test_ids := ids; expected_seconds := x |} /\ ids <> [].
Proof.
  unfold Shard_new. intros (? & Hc & [= <-])%bind_Ok. split; [done|]. unfold Shard_check in Hc.
  apply bind_Ok in Hc as (? & _ & Hc). apply bind_Ok in Hc as (? & _ & Hc). apply bind_Ok in Hc as (? & Hc & _).
  apply bind_Ok in Hc as (? & Hc & _). apply raise_if_Ok in Hc. cbn in Hc. apply orb_false_iff' in Hc as [Hc _]. by apply bool_decide_eq_false in Hc.
Qed.

Lemma built_shards manifest profile (setup : num) (bs : list (list pystr)) ts built :
  length ts = length bs ->
  mapR (fun bt : list pystr * spec_float =>
          ids ← py_sorted utf16_sort_key bt.1; x ← num_float setup; Shard_new manifest profile ids (fadd bt.2 x)) (zip bs ts) = Ok built ->
  flat_map test_ids built ≡ₚ concat bs /\ length built = length bs /\
  forall sh, sh ∈ built -> test_ids sh <> [] /\ exists b, b ∈ bs /\ test_ids sh ≡ₚ b.
Proof.
  intros Hl E%mapR_Ok. revert built ts Hl E. induction bs as [|b bs IH]; intros built [|t ts] Hl E; try done.
  - cbn in E. inversion E. split_and!; [done|done|set_solver].
  - cbn [zip_with] in E. inversion E as [|? sh ? built' Hb Hrest]; subst. destruct (IH built' ts) as (Hp & Hn & Hs); [cbn in Hl; lia|done|].
    apply bind_Ok in Hb as (ids & Hids%py_sorted_perm & Hb). apply bind_Ok in Hb as (x & _ & [-> Hne]%Shard_new_facts).
    cbn. split_and!; [by rewrite Hids, Hp|lia|]. intros sh [->|Hsh]%elem_of_cons.
    + cbn. split; [done|]. exists b. set_solver.
    + destruct (Hs sh Hsh) as (H1 & b' & Hb' & H2). split; [done|]. exists b'. set_solver.
Qed.

Lemma flat_map_perm (l l' : list Shard) : l ≡ₚ l' -> flat_map test_ids l ≡ₚ flat_map test_ids l'.
Proof. induction 1 as [|x l l' _ IH|x y l|l1 l2 l3 _ IH1 _ IH2]; cbn; [done|by rewrite IH| |by etrans]. rewrite !app_assoc. f_equiv. apply Permutation_app_comm. Qed.

(** What a candidate with [n] shards is. *)
Definition covers (p : ExecutionProfile) (ts : list ManifestTest) (plan : ProfileShardPlan) : Prop :=
  psp_profile_id plan = profile_id p /\
  flat_map test_ids (shards plan) ≡ₚ test_id <$> ts /\
  forall sh, sh ∈ shards plan -> test_ids sh <> [] /\ Z.of_nat (length (test_ids sh)) <= max_items_per_shard (sharding_policy p).

Lemma candidate_covers manifest p ts ds n f plan :
  1 <= max_items_per_shard (sharding_policy p) -> Z.of_nat (length ts) <= Z.of_nat n * max_items_per_shard (sharding_policy p) ->
  (forall t, t ∈ ts -> exists d, ds !! test_id t = Some d /\ positive d) ->
  _candidate manifest p ts ds n f = Ok plan ->
  covers p ts plan /\ length (shards plan) = n /\ mode plan = optimized /\
  psp_max_parallel plan = Z.min (Z.of_nat n) (Z.min (max_parallel (sharding_policy p)) f).
Proof.
  intros Hm Hlen Hd. unfold _candidate. destruct (pack_packed _ _ n ts Hm Hlen Hd) as (st & -> & Hp).
  intros (st' & [= <-] & E)%bind_Ok. apply bind_Ok in E as (built & Hb & E). apply bind_Ok in E as (sorted & Hs%py_sorted_perm & E).
  apply bind_Ok in E as (? & _ & [= <-]).
  apply built_shards in Hb as (Hperm & Hn & Hall); [|by rewrite (p_totals _ _ _ _ _ Hp), (p_buckets _ _ _ _ _ Hp)].
  unfold covers. cbn [psp_profile_id shards mode psp_max_parallel]. split_and!; try done.
  - rewrite (flat_map_perm _ _ Hs), Hperm. apply Hp.
  - intros sh. rewrite Hs. intros (Hne & b & Hb & Hpb)%Hall. split; [done|]. rewrite Hpb.
    apply list_elem_of_lookup in Hb as [i Hi]. exact (p_size _ _ _ _ _ Hp i b Hi).
  - by rewrite Hs, Hn, (p_buckets _ _ _ _ _ Hp).
Qed.

Lemma covers_perm p ts ts' plan : ts ≡ₚ ts' -> covers p ts plan -> covers p ts' plan.
Proof. unfold covers. by intros ->. Qed.

(** The admissible numbers of shards go from [minimum] to this. *)
Definition maximum_shards (p : ExecutionProfile) (minimum slots : Z) (ts : list ManifestTest) : Z :=
  Z.max minimum (Z.min (max_shards (sharding_policy p)) (Z.min slots (Z.of_nat (length ts)))).

(** C35: with a free slot and a known duration for every test, the plan the
    optimiser returns for a profile has every test of the profile in exactly
    one shard, no empty shard and none above [max_items_per_shard], runs at
    most the free slots in parallel, and is the cheapest: for every admissible
    number of shards the candidate was built, and none has a key (cost, number
    of shards, shard identities) below the key of the plan.  Costs are assumed
    to be numbers, which they are unless a sum overflows against a zero weight. *)
Theorem optimized_plan_cheapest m p slots h r plan ts ds minimum :
  1 <= max_items_per_shard (sharding_policy p) -> 1 <= slots ->
  tests_for_profile m (profile_id p) = Ok ts -> _durations ts h = Ok (Some ds) ->
  _minimum_shards (sharding_policy p) (Z.of_nat (length ts)) = Ok minimum ->
  (forall mid ordered n q k, manifest_id m = Ok mid -> order_tests ds ts = Ok ordered ->
     minimum <= Z.of_nat n <= maximum_shards p minimum slots ts ->
     _candidate mid p ordered ds n slots = Ok q -> plan_key_of q = Ok k -> is_nan (k_cost k) = false) ->
  _optimize_profile m p (Some slots) h r = Ok plan ->
  covers p ts plan /\ mode plan = optimized /\ psp_max_parallel plan <= slots /\
  exists mid ordered k, manifest_id m = Ok mid /\ order_tests ds ts = Ok ordered /\ plan_key_of plan = Ok k /\
    forall n, minimum <= Z.of_nat n <= maximum_shards p minimum slots ts ->
    exists q kq, _candidate mid p ordered ds n slots = Ok q /\ plan_key_of q = Ok kq /\ key_ltb kq k = false.
Proof.
  intros Hm Hsl Hts Hds Hmin Hnan. unfold _optimize_profile. rewrite Hts. cbn [mbind res_bind]. rewrite Hmin. cbn [mbind res_bind].
  destruct (Z.ltb_spec slots 1); [lia|]. rewrite Hds. cbn [mbind res_bind].
  intros (ordered & Ho & E)%bind_Ok. apply bind_Ok in E as (cands & Hc & E).
  assert (Hmin0 : 0 <= minimum).
  { unfold _minimum_shards in Hmin. apply bind_Ok in Hmin as (? & _ & [= <-]). apply Z.div_pos; lia. }
  assert (Hrange : forall n, n ∈ seq (Z.to_nat minimum) (Z.to_nat (maximum_shards p minimum slots ts - minimum + 1)) <->
            minimum <= Z.of_nat n <= maximum_shards p minimum slots ts).
  { intros n. rewrite elem_of_seq. unfold maximum_shards. lia. }
  assert (Hcand : forall q k, (q, k) ∈ cands -> exists n mid, minimum <= Z.of_nat n <= maximum_shards p minimum slots ts /\
            manifest_id m = Ok mid /\ _candidate mid p ordered ds n slots = Ok q /\ plan_key_of q = Ok k).
  { intros q k Hq. destruct (mapR_elem_inv _ _ _ _ Hc Hq) as (n & Hn & Hin). apply Hrange in Hin.
    apply bind_Ok in Hn as (mid & Hmid & Hn). apply bind_Ok in Hn as (q' & Hq' & Hn). apply bind_Ok in Hn as (k' & Hk' & [= <- <-]). eauto 7. }
  destruct cands as [|c l]; [done|]. injection E as <-. destruct (min_plan_least c l) as (k & Hk & Hle).
  { intros [q k] (n & mid & Hn & Hmid & Hq & Hk)%Hcand. cbn. unfold key_ok. exact (Hnan mid ordered n q k Hmid Ho Hn Hq Hk). }
  apply Hcand in Hk as (n & mid & Hn & Hmid & Hq & Hk). pose proof (order_tests_perm _ _ _ Ho) as Hperm.
  destruct (candidate_covers mid p ordered ds n slots (min_plan c l)) as (Hcov & _ & Hmode & Hpar); [done| | |done|].
  { rewrite Hperm. eapply minimum_shards_enough; [done|lia|exact Hmin|lia]. }
  { intros t. rewrite Hperm. by apply durations_positive with h. }
  split; [by apply covers_perm with ordered|]. split; [done|]. split; [lia|].
  exists mid, ordered, k. split_and!; try done. intros n' Hn'%Hrange.
  destruct (mapR_elem _ _ _ _ Hc Hn') as ([q kq] & Hq' & Hin). apply bind_Ok in Hq' as (mid' & Hmid' & Hq').
  apply bind_Ok in Hq' as (q'' & Hq'' & Hn''). apply bind_Ok in Hn'' as (k'' & Hk'' & [= <- <-]). rewrite Hmid in Hmid'. simplify_eq.
  exists q'', k''. split_and!; [done|done|]. exact (Hle (q'', k'') Hin).
Qed.
End choice.
