(* ===== verification/CapacityScenario.v ===== *)
(** * A concrete shard plan

    Two profiles on one capacity class with three free slots and four tests with
    known durations; the properties of the optimiser applied to them. *)

From stdpp Require Import base gmap sets list sorting strings.
From Stdlib Require Import ZArith Lia.
From Stdlib Require Import SpecFloat.
From S2P Require Import Prelude Text PyFloat CanonicalJson Hashing Contract Instants RunnerCapacity CapacityFacts CapacityBudgets CapacityChoice.

#[local] Existing Instance Sha256_checksum.
#[local] Remove Hints Sha256_fips : typeclass_instances.

Definition cs_policy : ShardingPolicy :=
  {| max_shards := 4; max_parallel := 4; max_items_per_shard := 2; setup_seconds_per_shard := NInt 1;
     cpu_weight := NInt 1; wall_weight := NInt 2; operator_weight := NInt 0 |}.

Definition cs_profile (i : string) : ExecutionProfile :=
  {| profile_id := u i; runner_profile_id := u "r"; permission_profile_id := u "q"; credential_profile_id := u "c";
     fixture_profile_id := u "f"; service_profile_ids := []; capacity_class_id := u "linux"; sharding_policy := cs_policy |}.

Definition cs_witness (i p : string) : ExecutableWitness :=
  {| witness_id := u i; execution_profile_id := u p; supported_depths := [smoke; standard; full] |}.

Definition cs_obligation (i w : string) : ValidationObligation :=
  {| obligation_id := u i; responsibility_paths := [u "app/**"]; responsibility_risk_classes := [];
     required_witness_ids := [u w]; default_depth := smoke; full_depth := full; omit_allowed := true |}.

Definition cs_catalog : ValidationCatalog := Eval vm_compute in
  get_ok (ValidationCatalog_new (H:=Sha256_checksum) [cs_obligation "o1" "w1"; cs_obligation "o2" "w2"]
            [cs_witness "w1" "p1"; cs_witness "w2" "p2"] [cs_profile "p1"; cs_profile "p2"]) ltac:(vm_compute; reflexivity).

Definition cs_test (i w : string) : ManifestTest := {| test_id := u i; mt_witness_id := u w |}.

Definition cs_tests : list ManifestTest := [cs_test "a" "w1"; cs_test "b" "w1"; cs_test "c" "w1"].

Definition cs_manifest : TestManifest :=
  {| verified_plan_id := u "plan"; target_registry_hash := hex64; selected_witness_ids := [u "w1"; u "w2"];
     tests := cs_tests ++ [cs_test "d" "w2"]; tm_catalog := cs_catalog |}.

Definition cs_manifest_ok : TestManifest_check cs_manifest = Ok tt := eq_refl.

Definition cs_history : history_map := dict_by fst snd
  [(u "a", VInt 30); (u "b", VInt 20); (u "c", VInt 10); (u "d", VInt 5)].

Definition cs_snapshot : RunnerSnapshot :=
  {| observed_at := 1000; freshness_ttl_seconds := 60;
     capacities := [{| rc_capacity_class_id := u "linux"; free_slots := 3 |}]; rs_source := operator |}.

Definition cs_durations : gmap pystr spec_float := Eval vm_compute in
  default (∅ : gmap pystr spec_float) (get_ok (_durations cs_tests cs_history) ltac:(vm_compute; reflexivity)).

(** Two slots for the first profile, one for the second. *)
Lemma slots_shared_fairly_witness :
  exists l, allocate_class (fun i => if bool_decide (i = u "p1") then 3 else 1) [u "p1"; u "p2"] 3 = Ok l /\
    l = [(u "p1", 2); (u "p2", 1)] /\ slots l <= 3.
Proof.
  destruct (slots_shared_fairly (fun i => if bool_decide (i = u "p1") then 3 else 1) [u "p1"; u "p2"] 3) as (l & E & _ & _ & Hle & _).
  - lia.
  - intros i _. destruct (bool_decide _); lia.
  - exists l. split; [exact E|]. split; [|exact Hle]. vm_compute in E. injection E as <-. vm_compute. reflexivity.
Defined.

Lemma packing_correct_witness :
  exists st, pack 2 cs_durations 2 cs_tests = Ok st /\ buckets st = [[u "a"]; [u "b"; u "c"]] /\
    totals st = load cs_durations <$> buckets st.
Proof.
  destruct (packing_correct 2 cs_durations 2 cs_tests) as (st & E & _ & _ & _ & Ht).
  - lia.
  - vm_compute. lia.
  - vm_compute. discriminate.
  - intros t Ht. unfold cs_tests in Ht. rewrite !elem_of_cons in Ht.
    destruct Ht as [->|[->|[->|Ht]]]; [eexists; split; vm_compute; reflexivity..|]. by apply not_elem_of_nil in Ht.
  - exists st. split; [exact E|]. split; [|exact Ht]. vm_compute in E. injection E as <-. vm_compute. reflexivity.
Defined.

Definition cs_plan : ShardPlan := Eval vm_compute in
  get_ok (optimize_shards (H:=Sha256_checksum) cs_manifest (Some cs_snapshot) cs_history (Aware 2000)) ltac:(vm_compute; reflexivity).

Lemma capacity_respected_witness :
  (mode <$> profile_plans cs_plan) = [optimized; optimized] /\ parallel_used cs_manifest (u "linux") (profile_plans cs_plan) <= 3.
Proof.
  split; [reflexivity|].
  refine (capacity_respected cs_manifest (Some cs_snapshot) cs_history (Aware 2000) cs_plan _ _ (u "linux")).
  - intros s [= <-] c Hc. apply list_elem_of_singleton in Hc as ->. reflexivity.
  - vm_compute. reflexivity.
Defined.

Definition cs_profile_plan : ProfileShardPlan := Eval vm_compute in
  get_ok (_optimize_profile (H:=Sha256_checksum) cs_manifest (cs_profile "p1") (Some 2) cs_history (u "none")) ltac:(vm_compute; reflexivity).

Lemma optimized_plan_cheapest_witness :
  covers (cs_profile "p1") cs_tests cs_profile_plan /\ length (shards cs_profile_plan) = 2%nat.
Proof.
  split; [|reflexivity].
  refine (proj1 (optimized_plan_cheapest cs_manifest (cs_profile "p1") 2 cs_history (u "none") cs_profile_plan cs_tests cs_durations 2 _ _ _ _ _ _ _)).
  - vm_compute. discriminate.
  - lia.
  - vm_compute. reflexivity.
  - vm_compute. reflexivity.
  - vm_compute. reflexivity.
  - intros mid ordered n q k Hm Ho Hn Hq Hk. change (maximum_shards _ _ _ _) with 2 in Hn. assert (n = 2%nat) as -> by lia.
    vm_compute in Hm. injection Hm as <-. vm_compute in Ho. injection Ho as <-. vm_compute in Hq. injection Hq as <-.
    vm_compute in Hk. injection Hk as <-. reflexivity.
  - vm_compute. reflexivity.
Defined.
