(* ===== verification/AuditEvents.v ===== *)
(** * Audit events

    Models the event side of [audit_replay]: [_event_contracts.py],
    [subjects.py], [json_resources.py], [_event_validation.py],
    [_event_identity.py], [persistence_bytes.py], [_prepared_event.py],
    [_event_codec.py] and [_event_construction.py].

    The dataclasses of the source hold whatever they are given: [InputObject]
    and [RecordObject] are an [AuditEventInput] and an [AuditEventRecord] as
    they arrive, with any object in each field; [AuditEventInput] and
    [AuditEventRecord] are the checked ones, with the types their fields
    declare.  A mapping is what can be observed of it: the keys it iterates and
    what reading a key gives; both can fail. *)

From stdpp Require Import base gmap sets list sorting strings.
From Stdlib Require Import ZArith Lia.
From Stdlib Require Import SpecFloat.
From S2P Require Import Prelude Text PyFloat CanonicalJson Hashing JsonLoads Instants.

(** ** Contracts *)

Definition AUDIT_EVENT_SCHEMA_VERSION : pystr := u "ci-audit-event/v1".

(** Code, instance pointer, limit, observed. *)
Abbreviation AuditJsonResourceFailure := (pystr * pystr * Z * Z)%type.

(** [AuditEventError(message)]. *)
Definition audit_error (message : pystr) : exn := AuditEventError message None None.

Definition AUDIT_SUBJECT_TYPES : list pystr :=
  [u "webhook-delivery"; u "observation"; u "policy-decision"; u "reconciliation-state"; u "coordinator-check";
   u "dynamic-ci-plan"; u "release-evidence"; u "policy-drift"].

Definition is_audit_subject_type (value : pyval) : bool :=
  match value with VStr s => bool_decide (s ∈ AUDIT_SUBJECT_TYPES) | _ => false end.

(** An [AuditEventInput] as given, and a checked one. *)
Record InputObject := {
  io_idempotency_key : pyval; io_subject_type : pyval; io_subject_id : pyval; io_event_type : pyval;
  io_created_at : pyval; io_actor : pyval; io_payload : pyval;
  io_installation_id : pyval; io_repository_id : pyval;
}.

Record AuditEventInput := {
  ei_idempotency_key : pystr; ei_subject_type : pystr; ei_subject_id : pystr; ei_event_type : pystr;
  ei_created_at : pystr; ei_actor : pystr; ei_payload : pyval;
  ei_installation_id : option Z; ei_repository_id : option Z;
}.

(** An [AuditEventRecord] as given, and a checked one. *)
Record RecordObject := {
  ro_input : InputObject;
  ro_schema_version : pyval; ro_audit_event_id : pyval; ro_sequence : pyval; ro_previous_event_hash : pyval;
  ro_payload_hash : pyval; ro_input_hash : pyval; ro_event_hash : pyval;
}.

Record AuditEventRecord := {
  idempotency_key : pystr; subject_type : pystr; subject_id : pystr; event_type : pystr;
  created_at : pystr; actor : pystr; payload : pyval;
  schema_version : pystr; audit_event_id : pystr; sequence : Z; previous_event_hash : option pystr;
  payload_hash : pystr; input_hash : pystr; event_hash : pystr;
  installation_id : option Z; repository_id : option Z;
}.

Definition opt_int (o : option Z) : pyval := match o with Some z => VInt z | None => VNone end.

(** A checked event where any object is taken. *)
Definition input_object (e : AuditEventInput) : InputObject := {|
  io_idempotency_key := VStr (ei_idempotency_key e); io_subject_type := VStr (ei_subject_type e);
  io_subject_id := VStr (ei_subject_id e); io_event_type := VStr (ei_event_type e);
  io_created_at := VStr (ei_created_at e); io_actor := VStr (ei_actor e); io_payload := ei_payload e;
  io_installation_id := opt_int (ei_installation_id e); io_repository_id := opt_int (ei_repository_id e);
|}.

Definition _record_input (r : AuditEventRecord) : AuditEventInput := {|
  ei_idempotency_key := idempotency_key r; ei_subject_type := subject_type r; ei_subject_id := subject_id r;
  ei_event_type := event_type r; ei_created_at := created_at r; ei_actor := actor r; ei_payload := payload r;
  ei_installation_id := installation_id r; ei_repository_id := repository_id r;
|}.

Definition record_object (r : AuditEventRecord) : RecordObject := {|
  ro_input := input_object (_record_input r);
  ro_schema_version := VStr (schema_version r); ro_audit_event_id := VStr (audit_event_id r);
  ro_sequence := VInt (sequence r); ro_previous_event_hash := opt_str (previous_event_hash r);
  ro_payload_hash := VStr (payload_hash r); ro_input_hash := VStr (input_hash r); ro_event_hash := VStr (event_hash r);
|}.

(** The declared types of fields that have been checked. *)
Definition as_str (v : pyval) : res pystr := match v with VStr s => Ok s | _ => Raise AssertionError end.
Definition as_int (v : pyval) : res Z := match v with VInt z => Ok z | _ => Raise AssertionError end.
Definition as_opt {A} (f : pyval -> res A) (v : pyval) : res (option A) :=
  match v with VNone => Ok None | _ => Some <$> f v end.

Definition typed_input (o : InputObject) : res AuditEventInput :=
  k ← as_str (io_idempotency_key o); st ← as_str (io_subject_type o); si ← as_str (io_subject_id o);
  et ← as_str (io_event_type o); ca ← as_str (io_created_at o); ac ← as_str (io_actor o);
  ii ← as_opt as_int (io_installation_id o); ri ← as_opt as_int (io_repository_id o);
  Ok {| ei_idempotency_key := k; ei_subject_type := st; ei_subject_id := si; ei_event_type := et;
        ei_created_at := ca; ei_actor := ac; ei_payload := io_payload o;
        ei_installation_id := ii; ei_repository_id := ri |}.

Definition typed_record (o : RecordObject) : res AuditEventRecord :=
  e ← typed_input (ro_input o);
  sv ← as_str (ro_schema_version o); id ← as_str (ro_audit_event_id o); n ← as_int (ro_sequence o);
  ph ← as_opt as_str (ro_previous_event_hash o);
  pl ← as_str (ro_payload_hash o); ih ← as_str (ro_input_hash o); eh ← as_str (ro_event_hash o);
  Ok {| idempotency_key := ei_idempotency_key e; subject_type := ei_subject_type e; subject_id := ei_subject_id e;
        event_type := ei_event_type e; created_at := ei_created_at e; actor := ei_actor e; payload := ei_payload e;
        schema_version := sv; audit_event_id := id; sequence := n; previous_event_hash := ph;
        payload_hash := pl; input_hash := ih; event_hash := eh;
        installation_id := ei_installation_id e; repository_id := ei_repository_id e |}.

(** ** Validation *)

Definition is_hash (value : pyval) : bool := match value with VStr s => is_sha256_hex s | _ => false end.

(** [^audit_[0-9a-f]{32}$] *)
Definition is_audit_event_id (value : pyval) : bool :=
  match value with
  | VStr s => startswith (u "audit_") s && bool_decide (length s = 38%nat) && forallb is_lower_hex (drop 6 s)
  | _ => false
  end.

Definition _validate_audit_text (value : pyval) (label : pystr) : option pystr :=
  match value with
  | VStr s =>
      if bool_decide (s = []) then Some (label ++ u " must be a non-empty string")
      else if existsb (fun c => (0xD800 <=? c) && (c <=? 0xDFFF)) s
      then Some (label ++ u " must not contain invalid Unicode scalar values")
      else None
  | _ => Some (label ++ u " must be a non-empty string")
  end.

(** [^(?!0000)[0-9]{4}-[0-9]{2}-[0-9]{2}T[0-9]{2}:[0-9]{2}:[0-9]{2}\.[0-9]{3}Z$];
    in the template [d] is a digit. *)
Definition timestamp_shape (s : pystr) : bool :=
  let template := u "dddd-dd-ddTdd:dd:dd.dddZ" in
  bool_decide (length s = length template) &&
  forallb (fun '(t, c) => if t =? 100 then is_digit c else c =? t) (zip template s) &&
  negb (bool_decide (take 4 s = u "0000")).

(** [datetime.fromisoformat(s[:-1] + "+00:00")] on a string of that shape. *)
Definition fromisoformat (s : pystr) : res Z :=
  let field i n := parse_nat (take n (drop i s)) in
  datetime_utc (field 0%nat 4%nat) (field 5%nat 2%nat) (field 8%nat 2%nat) (field 11%nat 2%nat) (field 14%nat 2%nat)
    (field 17%nat 2%nat) (field 20%nat 3%nat * 1000).

Definition _is_iso_timestamp (value : pyval) : bool :=
  match value with
  | VStr s =>
      timestamp_shape s &&
      match fromisoformat s with
      | Ok t => bool_decide (isoformat_ms t = s)
      | Raise _ => false
      end
  | _ => false
  end.

Definition is_None (value : pyval) : bool := match value with VNone => true | _ => false end.

(** [type(value) is int and is_safe_json_integer(value) and value >= 1]. *)
Definition is_positive_safe_int (value : pyval) : bool :=
  match value with VInt z => is_safe_json_integer (VInt z) && (1 <=? z) | _ => false end.

Definition validate_audit_event_input (event_input : InputObject) : option pystr :=
  match _validate_audit_text (io_idempotency_key event_input) (u "idempotency key") with Some e => Some e | None =>
  if negb (is_audit_subject_type (io_subject_type event_input)) then Some (u "subject type is unsupported") else
  match _validate_audit_text (io_subject_id event_input) (u "subject id") with Some e => Some e | None =>
  match _validate_audit_text (io_event_type event_input) (u "event type") with Some e => Some e | None =>
  if negb (_is_iso_timestamp (io_created_at event_input)) then Some (u "createdAt must be an ISO timestamp") else
  match _validate_audit_text (io_actor event_input) (u "actor") with Some e => Some e | None =>
  let installation_id := io_installation_id event_input in
  let repository_id := io_repository_id event_input in
  if negb (Bool.eqb (is_None installation_id) (is_None repository_id))
  then Some (u "repository scope identifiers must be both present or both absent")
  else if negb (is_None installation_id) && (negb (is_positive_safe_int installation_id) || negb (is_positive_safe_int repository_id))
  then Some (u "repository scope identifiers must be positive safe integers")
  else None
  end end end end.

Definition validate_audit_event_record (record : RecordObject) : option pystr :=
  if negb (match ro_schema_version record with VStr s => bool_decide (s = AUDIT_EVENT_SCHEMA_VERSION) | _ => false end)
  then Some (u "unsupported audit event schema version") else
  match validate_audit_event_input (ro_input record) with Some e => Some e | None =>
  if negb (is_audit_event_id (ro_audit_event_id record)) then Some (u "audit event id must match audit hash prefix format") else
  if negb (is_positive_safe_int (ro_sequence record)) then Some (u "sequence must be a positive safe integer") else
  if negb (is_None (ro_previous_event_hash record)) && negb (is_hash (ro_previous_event_hash record))
  then Some (u "previous event hash must be null or a sha256 hex string") else
  if negb (is_hash (ro_payload_hash record)) then Some (u "payload hash must be a sha256 hex string") else
  if negb (is_hash (ro_input_hash record)) then Some (u "input hash must be a sha256 hex string") else
  if negb (is_hash (ro_event_hash record)) then Some (u "event hash must be a sha256 hex string") else
  None
  end.

Definition raise_message (error : option pystr) : res unit :=
  match error with Some m => Raise (audit_error m) | None => Ok tt end.

(** [int(value)] of a float. *)
Definition int_of_float (f : spec_float) : Z :=
  match f with
  | S754_finite s m e => let z := Z.pos m * 2 ^ Z.max e 0 / 2 ^ Z.max (- e) 0 in if s then - z else z
  | _ => 0
  end.

Definition _normalize_audit_sequence (value : pyval) : res Z :=
  let error := audit_error (u "sequence must be a positive safe integer") in
  normalized ← match value with
               | VInt z => Ok z
               | VFloat f => if is_safe_json_integer (VFloat f) then Ok (int_of_float f) else Raise error
               | _ => Raise error
               end;
  raise_if ((normalized <? 1) || negb (is_safe_json_integer (VInt normalized))) error ;;
  Ok normalized.

(** What is given for an [AuditEventInput]: one, or another object. *)
Inductive InputLike := InputExact (o : InputObject) | InputOther.

Definition _snapshot_audit_event_input_fields (event_input : InputLike) : res InputObject :=
  match event_input with
  | InputOther => Raise (audit_error (u "audit event input must be an exact AuditEventInput"))
  | InputExact o => raise_message (validate_audit_event_input o) ;; Ok o
  end.

(** *** Errors of the canonical JSON writer *)

Definition _audit_json_error_path (path root_path : pystr) : pystr :=
  if bool_decide (path = u "$") then root_path else root_path ++ drop 1 path.

Definition audit_json_reason (code : pystr) : pystr :=
  if bool_decide (code = u "cycle") then u "must not contain cycles"
  else if bool_decide (code = u "invalid_unicode_scalar") then u "must not contain invalid Unicode scalar values"
  else if bool_decide (code = u "non_finite_number") then u "must not contain non-finite numbers"
  else if bool_decide (code = u "non_string_key") then u "must contain only string keys"
  else if bool_decide (code = u "unsafe_integer") then u "must be a JSON safe integer"
  else if bool_decide (code = u "json_max_depth_exceeded") then u "exceeds maximum JSON depth"
  else if bool_decide (code = u "json_max_nodes_exceeded") then u "exceeds maximum JSON node count"
  else u "must be JSON-safe".

Definition _audit_json_error_message (code path root_path : pystr) (resource_failure : option AuditJsonResourceFailure) : pystr :=
  _audit_json_error_path path root_path ++ u " " ++ audit_json_reason code ++
  match resource_failure with Some (_, _, limit, _) => u " of " ++ int_str limit | None => [] end.

Definition _audit_json_resource_failure (code : pystr) (pointer : option pystr) (limit observed : option Z)
    : res (option AuditJsonResourceFailure) :=
  if negb (bool_decide (code = u "json_max_depth_exceeded") || bool_decide (code = u "json_max_nodes_exceeded")) then Ok None
  else match pointer, limit, observed with
       | Some p, Some l, Some o => Ok (Some (code, u "/payload" ++ p, l, o))
       | _, _, _ => Raise (RuntimeError (u "canonical JSON resource failure is missing required facts"))
       end.

(** ** Bytes *)

Definition MAX_AUDIT_TEXT_UTF8_BYTES_V1 : Z := 4096.
Definition MAX_AUDIT_PAYLOAD_CANONICAL_BYTES_V1 : Z := 1048576.
Definition AUDIT_JSON_RESOURCE_LIMITS_V1 : JsonResourceLimits := {| max_depth := 64; max_nodes := 10000 |}.

(** Attribute, its value in an event, instance pointer, measure. *)
Record AuditPersistenceByteFieldProjection := {
  attribute : InputObject -> pyval; instance_pointer : pystr; measure_ref : pystr;
}.

Definition AUDIT_PERSISTENCE_BYTE_FIELD_PROJECTIONS_V1 : list AuditPersistenceByteFieldProjection :=
  [{| attribute := io_idempotency_key; instance_pointer := u "/idempotencyKey"; measure_ref := u "variableText" |};
   {| attribute := io_subject_id; instance_pointer := u "/subjectId"; measure_ref := u "variableText" |};
   {| attribute := io_event_type; instance_pointer := u "/eventType"; measure_ref := u "variableText" |};
   {| attribute := io_actor; instance_pointer := u "/actor"; measure_ref := u "variableText" |};
   {| attribute := io_payload; instance_pointer := u "/payload"; measure_ref := u "payload" |}].

Definition AUDIT_TEXT_BYTE_FIELD_PROJECTIONS_V1 : list AuditPersistenceByteFieldProjection :=
  List.filter (fun p => bool_decide (measure_ref p = u "variableText")) AUDIT_PERSISTENCE_BYTE_FIELD_PROJECTIONS_V1.

Fixpoint utf8_exceeds_from (observed limit : Z) (value : pystr) : bool :=
  match value with
  | [] => false
  | code_point :: rest =>
      let observed :=
        observed + (if code_point <=? 0x7F then 1 else if code_point <=? 0x7FF then 2 else if code_point <=? 0xFFFF then 3 else 4) in
      if limit <? observed then true else utf8_exceeds_from observed limit rest
  end.

Definition _utf8_length_exceeds (value : pystr) (limit : Z) : bool := utf8_exceeds_from 0 limit value.

Definition admit_audit_text_bytes (event_input : InputObject) : res unit :=
  foldR (fun _ projection =>
    match attribute projection event_input with
    | VStr value =>
        if _utf8_length_exceeds value MAX_AUDIT_TEXT_UTF8_BYTES_V1 then
          let failure := (u "audit_text_max_utf8_bytes_exceeded", instance_pointer projection,
                          MAX_AUDIT_TEXT_UTF8_BYTES_V1, MAX_AUDIT_TEXT_UTF8_BYTES_V1 + 1) in
          Raise (AuditEventError
            (drop 1 (instance_pointer projection) ++ u " exceeds maximum UTF-8 byte count of " ++ int_str MAX_AUDIT_TEXT_UTF8_BYTES_V1)
            None (Some failure))
        else Ok tt
    | _ => Ok tt
    end) tt AUDIT_TEXT_BYTE_FIELD_PROJECTIONS_V1.

Definition _audit_payload_byte_failure (limit observed : option Z) : res AuditJsonResourceFailure :=
  match limit, observed with
  | Some l, Some o => Ok (u "audit_payload_max_canonical_bytes_exceeded", u "/payload", l, o)
  | _, _ => Raise (RuntimeError (u "canonical JSON byte failure is missing required facts"))
  end.

Definition canonical_audit_payload_bytes (value : pyval) (path : pystr) : res (list Z) :=
  match bounded_canonical_json value MAX_AUDIT_PAYLOAD_CANONICAL_BYTES_V1 (Some AUDIT_JSON_RESOURCE_LIMITS_V1) with
  | Raise (CanonicalJsonError code error_path _ pointer limit observed) =>
      if bool_decide (code = u "canonical_json_max_bytes_exceeded") then
        failure ← _audit_payload_byte_failure limit observed;
        Raise (AuditEventError
          (_audit_json_error_path error_path path ++ u " exceeds maximum canonical JSON byte count of " ++ int_str failure.1.2)
          None (Some failure))
      else
        resource_failure ← _audit_json_resource_failure code pointer limit observed;
        Raise (AuditEventError (_audit_json_error_message code error_path path resource_failure) None resource_failure)
  | r => r
  end.

Definition snapshot_persistable_audit_payload (value : pyval) (path : pystr) : res pyval :=
  canonical ← canonical_audit_payload_bytes value path; json_loads canonical.

Definition snapshot_json_value (value : pyval) : res pyval := snapshot_persistable_audit_payload value (u "payload").

#[export] Instance dkey_eq_dec : EqDecision dkey.
Proof. solve_decision. Defined.

Section events.
Context `{Sha256}.

(** ** Identity *)

Definition _add_scope (identity : list (string * pyval)) (installation_id repository_id : option Z) : list (string * pyval) :=
  match installation_id with
  | Some i => identity ++ [("installationId"%string, VInt i); ("repositoryId"%string, opt_int repository_id)]
  | None => identity
  end.

Definition input_identity (event_input : AuditEventInput) (payload_hash : pystr) : pyval :=
  obj (_add_scope [
    ("schemaVersion", VStr AUDIT_EVENT_SCHEMA_VERSION);
    ("idempotencyKey", VStr (ei_idempotency_key event_input));
    ("subjectType", VStr (ei_subject_type event_input));
    ("subjectId", VStr (ei_subject_id event_input));
    ("eventType", VStr (ei_event_type event_input));
    ("payloadHash", VStr payload_hash)]%string (ei_installation_id event_input) (ei_repository_id event_input)).

Definition audit_input_hash (event_input : AuditEventInput) (payload_hash : pystr) : res pystr :=
  hash_mapping (input_identity event_input payload_hash).

Definition audit_input_hash_for_record (record : AuditEventRecord) (payload_hash : pystr) : res pystr :=
  audit_input_hash (_record_input record) payload_hash.

Definition event_identity (schema_version : pystr) (event_input : AuditEventInput) (sequence : Z)
    (previous_event_hash : option pystr) (payload_hash input_hash : pystr) : pyval :=
  obj (_add_scope [
    ("schemaVersion", VStr schema_version);
    ("idempotencyKey", VStr (ei_idempotency_key event_input));
    ("subjectType", VStr (ei_subject_type event_input));
    ("subjectId", VStr (ei_subject_id event_input));
    ("eventType", VStr (ei_event_type event_input));
    ("createdAt", VStr (ei_created_at event_input));
    ("actor", VStr (ei_actor event_input));
    ("sequence", VInt sequence);
    ("previousEventHash", opt_str previous_event_hash);
    ("payloadHash", VStr payload_hash);
    ("inputHash", VStr input_hash)]%string (ei_installation_id event_input) (ei_repository_id event_input)).

(** The event's own fields come as one record; its payload is not looked at. *)
Definition audit_event_hash (schema_version : pystr) (event_input : AuditEventInput) (sequence : Z)
    (previous_event_hash : option pystr) (payload_hash input_hash : pystr) : res pystr :=
  hash_mapping (event_identity schema_version event_input sequence previous_event_hash payload_hash input_hash).

(** ** Prepared events *)

(** The fields of a checked input with its payload snapshot, which can be taken
    once. *)
Record PreparedAuditEvent := {
  pr_input : AuditEventInput;
  payload_canonical_bytes : list Z;
  pr_payload_hash : pystr;
  pr_input_hash : pystr;
  consumed : bool;
}.

Definition prepare_audit_event (event_input : InputLike) : res PreparedAuditEvent :=
  snapshot ← _snapshot_audit_event_input_fields event_input;
  admit_audit_text_bytes snapshot ;;
  bytes ← canonical_audit_payload_bytes (io_payload snapshot) (u "payload");
  payload_snapshot ← json_loads bytes;
  let payload_hash := sha256_hex bytes in
  e ← typed_input snapshot;
  input_hash ← audit_input_hash e payload_hash;
  Ok {| pr_input := {|
          ei_idempotency_key := ei_idempotency_key e; ei_subject_type := ei_subject_type e;
          ei_subject_id := ei_subject_id e; ei_event_type := ei_event_type e; ei_created_at := ei_created_at e;
          ei_actor := ei_actor e; ei_payload := payload_snapshot;
          ei_installation_id := ei_installation_id e; ei_repository_id := ei_repository_id e |};
        payload_canonical_bytes := bytes; pr_payload_hash := payload_hash; pr_input_hash := input_hash;
        consumed := false |}.

(** The payload and the prepared event without it. *)
Definition _take_payload_for_record (p : PreparedAuditEvent) : res (pyval * PreparedAuditEvent) :=
  raise_if (consumed p) (audit_error (u "prepared audit event has already been consumed")) ;;
  Ok (ei_payload (pr_input p),
      {| pr_input := pr_input p; payload_canonical_bytes := payload_canonical_bytes p;
         pr_payload_hash := pr_payload_hash p; pr_input_hash := pr_input_hash p; consumed := true |}).

Definition _audit_event_input_from_prepared (p : PreparedAuditEvent) : res (AuditEventInput * PreparedAuditEvent) :=
  '(payload, p') ← _take_payload_for_record p;
  let e := pr_input p in
  Ok ({| ei_idempotency_key := ei_idempotency_key e; ei_subject_type := ei_subject_type e;
         ei_subject_id := ei_subject_id e; ei_event_type := ei_event_type e; ei_created_at := ei_created_at e;
         ei_actor := ei_actor e; ei_payload := payload;
         ei_installation_id := ei_installation_id e; ei_repository_id := ei_repository_id e |}, p').

Definition snapshot_audit_event_input (event_input : InputLike) : res AuditEventInput :=
  p ← prepare_audit_event event_input; fst <$> _audit_event_input_from_prepared p.

(** ** Codec *)

(** A mapping: the keys it iterates, and the value of a key; [None] is an
    exception. *)
Record mapping := { m_keys : option (list dkey); m_get : pystr -> option pyval }.

Inductive AuditEventRecordLike :=
  | RecordNone
  | RecordExact (o : RecordObject)
  | RecordSubclass
  | RecordMapping (m : mapping)
  | RecordOther.

Definition _UNSCOPED_AUDIT_EVENT_INPUT_KEY_ORDER : list pystr :=
  [u "idempotencyKey"; u "subjectType"; u "subjectId"; u "eventType"; u "createdAt"; u "actor"; u "payload"].
Definition _SCOPED_AUDIT_EVENT_INPUT_KEY_ORDER : list pystr :=
  [u "idempotencyKey"; u "installationId"; u "repositoryId"] ++ drop 1 _UNSCOPED_AUDIT_EVENT_INPUT_KEY_ORDER.
Definition _AUDIT_EVENT_RECORD_SUFFIX : list pystr :=
  [u "schemaVersion"; u "auditEventId"; u "sequence"; u "previousEventHash"; u "payloadHash"; u "inputHash"; u "eventHash"].
Definition _UNSCOPED_AUDIT_EVENT_RECORD_KEY_ORDER : list pystr :=
  _UNSCOPED_AUDIT_EVENT_INPUT_KEY_ORDER ++ _AUDIT_EVENT_RECORD_SUFFIX.
Definition _SCOPED_AUDIT_EVENT_RECORD_KEY_ORDER : list pystr :=
  _SCOPED_AUDIT_EVENT_INPUT_KEY_ORDER ++ _AUDIT_EVENT_RECORD_SUFFIX.

(** A snapshot: a [dict] with string keys, in insertion order. *)
Abbreviation snapshot := (list (pystr * pyval)).

Definition snapshot_get (s : snapshot) (key : pystr) : option pyval :=
  snd <$> List.find (fun p => bool_decide (p.1 = key)) s.

Definition diagnostic (value : option pyval) : option pystr := match value with Some (VStr s) => Some s | _ => None end.

Definition _audit_event_id_from_snapshot (s : snapshot) : option pystr := diagnostic (snapshot_get s (u "auditEventId")).

Definition key_str (key : dkey) : pystr := match key with KStr s => s | KOther rep => rep end.

Definition _raise_mapping_shape_error {A} (data : mapping) (keys : list dkey) (message : pystr) (diagnostic_key : option pystr) : res A :=
  Raise (AuditEventError message
    (match diagnostic_key with
     | Some k => if bool_decide (KStr k ∈ keys) then diagnostic (m_get data k) else None
     | None => None
     end) None).

(** The keys as the set [seen], checked one by one. *)
Fixpoint seen_keys (fail : pystr -> res (list pystr)) (label : pystr) (seen : list pystr) (keys : list dkey) : res (list pystr) :=
  match keys with
  | [] => Ok seen
  | KOther rep :: _ => fail (label ++ u " contains unknown key " ++ rep)
  | KStr k :: rest =>
      if bool_decide (k ∈ seen) then fail (label ++ u " contains duplicate key " ++ k)
      else seen_keys fail label (seen ++ [k]) rest
  end.

Fixpoint read_fields (data : mapping) (label : pystr) (order : list pystr) (s : snapshot) : res snapshot :=
  match order with
  | [] => Ok s
  | key :: rest =>
      match m_get data key with
      | Some value => read_fields data label rest (s ++ [(key, value)])
      | None => Raise (AuditEventError (label ++ u "." ++ key ++ u " could not be snapshotted") (_audit_event_id_from_snapshot s) None)
      end
  end.

Definition _snapshot_mapping_shape (data : mapping) (expected_shapes : list (list pystr)) (label : pystr)
    (diagnostic_key : option pystr) : res snapshot :=
  let max_key_count := foldr Nat.max 0%nat (length <$> expected_shapes) in
  match m_keys data with
  | None => Raise (audit_error (label ++ u " could not be snapshotted"))
  | Some all_keys =>
      let keys := take (max_key_count + 1) all_keys in
      let fail {A} message : res A := _raise_mapping_shape_error data keys message diagnostic_key in
      seen ← seen_keys fail label [] keys;
      let unknown_key := List.find (fun k => negb (bool_decide (k ∈ concat expected_shapes))) seen in
      (if bool_decide (max_key_count < length keys)%nat then
         fail (match unknown_key with
               | Some k => label ++ u " contains unknown key " ++ k
               | None => label ++ u " contains more than " ++ int_str (Z.of_nat max_key_count) ++ u " keys"
               end)
       else Ok tt) ;;
      match List.find (fun shape => forallb (fun k => bool_decide (k ∈ shape)) seen && forallb (fun k => bool_decide (k ∈ seen)) shape)
              expected_shapes with
      | None =>
          match unknown_key with
          | Some k => fail (label ++ u " contains unknown key " ++ k)
          | None =>
              let preferred_shape :=
                if existsb (fun k => negb (bool_decide (k ∈ _SCOPED_AUDIT_EVENT_INPUT_KEY_ORDER))) seen
                then default [] (last expected_shapes) else default [] (head expected_shapes) in
              fail (match List.find (fun k => negb (bool_decide (k ∈ seen))) preferred_shape with
                    | Some k => label ++ u " is missing " ++ k
                    | None => u "audit event input has an incomplete repository scope"
                    end)
          end
      | Some expected_order =>
          let read_order := match diagnostic_key with
                            | Some d => d :: List.filter (fun k => negb (bool_decide (k = d))) expected_order
                            | None => expected_order
                            end in
          read_fields data label read_order []
      end
  end.

Definition _require_field (data : snapshot) (key : pystr) : res pyval :=
  from_option (audit_error (u "audit event record is missing " ++ key)) (snapshot_get data key).

Definition _require_str (data : snapshot) (key : pystr) : res pystr :=
  value ← _require_field data key;
  match value with VStr s => Ok s | _ => Raise (audit_error (key ++ u " must be a string")) end.

Definition _require_optional_str (data : snapshot) (key : pystr) : res (option pystr) :=
  value ← _require_field data key;
  match value with
  | VNone => Ok None
  | VStr s => Ok (Some s)
  | _ => Raise (audit_error (key ++ u " must be null or a string"))
  end.

Definition _require_optional_positive_int (data : snapshot) (key : pystr) : res (option Z) :=
  match snapshot_get data key with
  | None | Some VNone => Ok None
  | Some (VInt z) =>
      if z <? 1 then Raise (audit_error (key ++ u " must be null or a positive integer")) else Ok (Some z)
  | Some _ => Raise (audit_error (key ++ u " must be null or a positive integer"))
  end.

Definition _require_audit_sequence (data : snapshot) : res Z :=
  value ← _require_field data (u "sequence"); _normalize_audit_sequence value.

Definition _require_subject_type (data : snapshot) (key : pystr) : res pystr :=
  value ← _require_str data key;
  raise_if (negb (is_audit_subject_type (VStr value))) (audit_error (u "subject type is unsupported")) ;;
  Ok value.

Definition _require_literal (data : snapshot) (key expected message : pystr) : res pystr :=
  value ← _require_str data key;
  raise_if (negb (bool_decide (value = expected))) (audit_error message) ;;
  Ok expected.

(** [except AuditEventError as error: raise AuditEventError(..., audit_event_id=diagnostic_id)]. *)
Definition with_diagnostic {A} (diagnostic_id : option pystr) (r : res A) : res A :=
  match r with
  | Raise (AuditEventError message _ resource_failure) => Raise (AuditEventError message diagnostic_id resource_failure)
  | r => r
  end.

(** The checks shared by both decoders, on a record whose payload and sequence
    are normal. *)
Definition check_record (result : RecordObject) : res AuditEventRecord :=
  raise_message (validate_audit_event_input (ro_input result)) ;;
  admit_audit_text_bytes (ro_input result) ;;
  raise_message (validate_audit_event_record result) ;;
  typed_record result.

Definition _validated_record_snapshot (record : RecordObject) : res AuditEventRecord :=
  let i := ro_input record in
  payload ← snapshot_json_value (io_payload i);
  sequence ← _normalize_audit_sequence (ro_sequence record);
  check_record {|
    ro_input := {|
      io_idempotency_key := io_idempotency_key i; io_subject_type := io_subject_type i; io_subject_id := io_subject_id i;
      io_event_type := io_event_type i; io_created_at := io_created_at i; io_actor := io_actor i; io_payload := payload;
      io_installation_id := io_installation_id i; io_repository_id := io_repository_id i |};
    ro_schema_version := ro_schema_version record; ro_audit_event_id := ro_audit_event_id record;
    ro_sequence := VInt sequence; ro_previous_event_hash := ro_previous_event_hash record;
    ro_payload_hash := ro_payload_hash record; ro_input_hash := ro_input_hash record; ro_event_hash := ro_event_hash record |}.

Definition _validated_record (record : RecordObject) : res AuditEventRecord :=
  with_diagnostic (diagnostic (Some (ro_audit_event_id record))) (_validated_record_snapshot record).

Definition _audit_event_from_snapshot (s : snapshot) : res AuditEventRecord :=
  payload ← (value ← _require_field s (u "payload"); snapshot_json_value value);
  schema_version ← _require_literal s (u "schemaVersion") AUDIT_EVENT_SCHEMA_VERSION (u "unsupported audit event schema version");
  subject_type ← _require_subject_type s (u "subjectType");
  idempotency_key ← _require_str s (u "idempotencyKey");
  installation_id ← _require_optional_positive_int s (u "installationId");
  repository_id ← _require_optional_positive_int s (u "repositoryId");
  subject_id ← _require_str s (u "subjectId");
  event_type ← _require_str s (u "eventType");
  created_at ← _require_str s (u "createdAt");
  actor ← _require_str s (u "actor");
  audit_event_id ← _require_str s (u "auditEventId");
  sequence ← _require_audit_sequence s;
  previous_event_hash ← _require_optional_str s (u "previousEventHash");
  payload_hash ← _require_str s (u "payloadHash");
  input_hash ← _require_str s (u "inputHash");
  event_hash ← _require_str s (u "eventHash");
  result ← check_record (record_object {|
    idempotency_key := idempotency_key; subject_type := subject_type; subject_id := subject_id; event_type := event_type;
    created_at := created_at; actor := actor; payload := payload; schema_version := schema_version;
    audit_event_id := audit_event_id; sequence := sequence; previous_event_hash := previous_event_hash;
    payload_hash := payload_hash; input_hash := input_hash; event_hash := event_hash;
    installation_id := installation_id; repository_id := repository_id |});
  _validated_record (record_object result).

Definition audit_event_from_mapping (record : AuditEventRecordLike) : res AuditEventRecord :=
  match record with
  | RecordNone => Raise (audit_error (u "audit event record is missing"))
  | RecordExact o => _validated_record o
  | RecordSubclass => Raise (audit_error (u "audit event record must be an exact AuditEventRecord"))
  | RecordOther => Raise (audit_error (u "audit event record must be an object"))
  | RecordMapping m =>
      s ← _snapshot_mapping_shape m [_UNSCOPED_AUDIT_EVENT_RECORD_KEY_ORDER; _SCOPED_AUDIT_EVENT_RECORD_KEY_ORDER]
            (u "audit event record") (Some (u "auditEventId"));
      with_diagnostic (_audit_event_id_from_snapshot s) (_audit_event_from_snapshot s)
  end.

Definition audit_event_to_mapping (record : AuditEventRecord) : res snapshot :=
  payload ← snapshot_json_value (payload record);
  Ok ([(u "idempotencyKey", VStr (idempotency_key record));
       (u "subjectType", VStr (subject_type record));
       (u "subjectId", VStr (subject_id record));
       (u "eventType", VStr (event_type record));
       (u "createdAt", VStr (created_at record));
       (u "actor", VStr (actor record));
       (u "payload", payload);
       (u "schemaVersion", VStr (schema_version record));
       (u "auditEventId", VStr (audit_event_id record));
       (u "sequence", VInt (sequence record));
       (u "previousEventHash", opt_str (previous_event_hash record));
       (u "payloadHash", VStr (payload_hash record));
       (u "inputHash", VStr (input_hash record));
       (u "eventHash", VStr (event_hash record))] ++
      match installation_id record with
      | Some i => [(u "installationId", VInt i); (u "repositoryId", opt_int (repository_id record))]
      | None => []
      end).

(** A [dict] as a mapping. *)
Definition dict_mapping (s : snapshot) : mapping :=
  {| m_keys := Some (KStr <$> s.*1); m_get := snapshot_get s |}.

Definition audit_event_input_from_mapping (data : mapping) : res AuditEventInput :=
  s ← _snapshot_mapping_shape data
        [_UNSCOPED_AUDIT_EVENT_INPUT_KEY_ORDER; _SCOPED_AUDIT_EVENT_INPUT_KEY_ORDER;
         _UNSCOPED_AUDIT_EVENT_RECORD_KEY_ORDER; _SCOPED_AUDIT_EVENT_RECORD_KEY_ORDER]
        (u "audit event input") None;
  let same (shape : list pystr) := forallb (fun k => bool_decide (k ∈ shape)) s.*1 && forallb (fun k => bool_decide (k ∈ s.*1)) shape in
  if same _UNSCOPED_AUDIT_EVENT_RECORD_KEY_ORDER || same _SCOPED_AUDIT_EVENT_RECORD_KEY_ORDER
  then _record_input <$> audit_event_from_mapping (RecordMapping (dict_mapping s))
  else
    idempotency_key ← _require_str s (u "idempotencyKey");
    installation_id ← _require_optional_positive_int s (u "installationId");
    repository_id ← _require_optional_positive_int s (u "repositoryId");
    subject_type ← _require_subject_type s (u "subjectType");
    subject_id ← _require_str s (u "subjectId");
    event_type ← _require_str s (u "eventType");
    created_at ← _require_str s (u "createdAt");
    actor ← _require_str s (u "actor");
    payload ← _require_field s (u "payload");
    snapshot_audit_event_input (InputExact (input_object {|
      ei_idempotency_key := idempotency_key; ei_subject_type := subject_type; ei_subject_id := subject_id;
      ei_event_type := event_type; ei_created_at := created_at; ei_actor := actor; ei_payload := payload;
      ei_installation_id := installation_id; ei_repository_id := repository_id |})).

(** ** Construction *)

(** [previous_event] is [None] or a record; the prepared event is left without
    its payload. *)
Definition build_prepared_audit_event (prepared : PreparedAuditEvent) (previous_event : option AuditEventRecordLike)
    : res (AuditEventRecord * PreparedAuditEvent) :=
  previous ← match previous_event with
             | None | Some RecordNone => Ok None
             | Some like => Some <$> audit_event_from_mapping like
             end;
  let sequence := match previous with Some p => sequence p + 1 | None => 1 end in
  raise_if (negb (is_safe_json_integer (VInt sequence)) || (sequence <? 1))
    (audit_error (u "sequence must be a positive safe integer")) ;;
  let previous_event_hash := event_hash <$> previous in
  '(payload, prepared') ← _take_payload_for_record prepared;
  let e := pr_input prepared in
  event_hash ← audit_event_hash AUDIT_EVENT_SCHEMA_VERSION e sequence previous_event_hash
                 (pr_payload_hash prepared) (pr_input_hash prepared);
  Ok ({| idempotency_key := ei_idempotency_key e; subject_type := ei_subject_type e; subject_id := ei_subject_id e;
         event_type := ei_event_type e; created_at := ei_created_at e; actor := ei_actor e; payload := payload;
         schema_version := AUDIT_EVENT_SCHEMA_VERSION; audit_event_id := u "audit_" ++ take 32 event_hash;
         sequence := sequence; previous_event_hash := previous_event_hash;
         payload_hash := pr_payload_hash prepared; input_hash := pr_input_hash prepared; event_hash := event_hash;
         installation_id := ei_installation_id e; repository_id := ei_repository_id e |}, prepared').

Definition build_audit_event (event_input : InputLike) (previous_event : option AuditEventRecordLike) : res AuditEventRecord :=
  prepared ← prepare_audit_event event_input;
  fst <$> build_prepared_audit_event prepared previous_event.
End events.
