(* ===== verification/AuditChain.v ===== *)
(** * The audit chain

    Models [audit_replay/chain.py], [recorder.py], [replay.py], [ports.py] and
    [paged_replay.py]: verification of a chain of records, appending an event,
    replay of a ledger held in memory, and the two passes over a ledger served
    page by page. *)

From stdpp Require Import base gmap sets list sorting strings.
From Stdlib Require Import ZArith Lia.
From S2P Require Import Prelude Text PyFloat CanonicalJson Hashing JsonLoads Instants AuditEvents.

Section chain.
Context `{Sha256}.

(** ** Verification *)

Record InvalidAuditChain := {
  reason : pystr;
  invalid_event_id : option pystr;
  resource_failure : option AuditJsonResourceFailure;
}.

Definition invalid_at (reason : pystr) (record : AuditEventRecord) : InvalidAuditChain :=
  {| reason := reason; invalid_event_id := Some (audit_event_id record); resource_failure := None |}.

(** [ValidAuditChain(last_event_hash)] or [InvalidAuditChain]. *)
Inductive AuditChainVerificationResult :=
  | ValidAuditChain (last_event_hash : option pystr)
  | IsInvalid (result : InvalidAuditChain).

(** [str(error)] of the exceptions [except ValueError] catches here. *)
Definition exn_text (e : exn) : pystr :=
  match e with
  | CanonicalJsonError code path message _ _ _ => code ++ u " at " ++ path ++ u ": " ++ message
  | ValueError m | AuditEventError m _ _ | StrictJsonError m => m
  | _ => []
  end.

Definition _verify_audit_event_content (record : AuditEventRecord) : res (option InvalidAuditChain) :=
  match hash_object (payload record) with
  | Raise e => if is_value_error e then Ok (Some (invalid_at (exn_text e) record)) else Raise e
  | Ok expected_payload_hash =>
      if negb (bool_decide (payload_hash record = expected_payload_hash))
      then Ok (Some (invalid_at (u "payload hash does not match payload") record)) else
      expected_input_hash ← audit_input_hash_for_record record expected_payload_hash;
      if negb (bool_decide (input_hash record = expected_input_hash))
      then Ok (Some (invalid_at (u "input hash does not match audit event input") record)) else
      expected_event_hash ← audit_event_hash (schema_version record) (_record_input record) (sequence record)
                              (previous_event_hash record) (payload_hash record) (input_hash record);
      if negb (bool_decide (event_hash record = expected_event_hash))
      then Ok (Some (invalid_at (u "event hash does not match event identity") record)) else
      if negb (bool_decide (audit_event_id record = u "audit_" ++ take 32 (event_hash record)))
      then Ok (Some (invalid_at (u "audit event id does not match event hash") record)) else
      Ok None
  end.

Definition _sequence (record : option AuditEventRecord) : Z := match record with Some r => sequence r | None => 0 end.
Definition _event_hash (record : option AuditEventRecord) : option pystr := event_hash <$> record.

(** The verdict on one record, and the idempotency keys after it. *)
Definition _verify_audit_chain_record (record : AuditEventRecord) (previous : option AuditEventRecord)
    (idempotency_keys : gmap pystr pystr) : res (option InvalidAuditChain * gmap pystr pystr) :=
  let expected_sequence := match previous with Some p => sequence p + 1 | None => 1 end in
  if negb (sequence record =? expected_sequence)
  then Ok (Some (invalid_at (u "expected sequence " ++ int_str expected_sequence ++ u ", got " ++ int_str (sequence record)) record),
           idempotency_keys) else
  if negb (bool_decide (previous_event_hash record = _event_hash previous))
  then Ok (Some (invalid_at (u "previous event hash does not match") record), idempotency_keys) else
  invalid ← _verify_audit_event_content record;
  match invalid with
  | Some i => Ok (Some i, idempotency_keys)
  | None =>
      match idempotency_keys !! idempotency_key record with
      | Some existing_input_hash =>
          Ok (Some (invalid_at (if bool_decide (existing_input_hash = input_hash record)
                                then u "duplicate audit event idempotency key"
                                else u "conflicting audit event idempotency key") record), idempotency_keys)
      | None => Ok (None, <[idempotency_key record := input_hash record]> idempotency_keys)
      end
  end.

(** [except AuditEventError as error], as a verdict. *)
Definition invalid_of_error {A} (r : res A) : res (A + InvalidAuditChain) :=
  match r with
  | Ok a => Ok (inl a)
  | Raise (AuditEventError message id failure) =>
      Ok (inr {| reason := message; invalid_event_id := id; resource_failure := failure |})
  | Raise e => Raise e
  end.

(** The loop both verifications share: the records normalised so far, in order,
    and the verdict. *)
Fixpoint verify_records (normalized : list AuditEventRecord) (previous : option AuditEventRecord)
    (idempotency_keys : gmap pystr pystr) (records : list AuditEventRecordLike)
    : res (list AuditEventRecord * AuditChainVerificationResult) :=
  match records with
  | [] => Ok (normalized, ValidAuditChain (_event_hash previous))
  | raw_record :: rest =>
      decoded ← invalid_of_error (audit_event_from_mapping raw_record);
      match decoded with
      | inr invalid => Ok (normalized, IsInvalid invalid)
      | inl record =>
          let normalized := normalized ++ [record] in
          '(invalid, idempotency_keys) ← _verify_audit_chain_record record previous idempotency_keys;
          match invalid with
          | Some i => Ok (normalized, IsInvalid i)
          | None => verify_records normalized (Some record) idempotency_keys rest
          end
      end
  end.

Definition _normalize_and_verify_audit_chain (records : list AuditEventRecordLike)
    : res (list AuditEventRecord * AuditChainVerificationResult) :=
  verify_records [] None ∅ records.

Definition verify_audit_chain (records : list AuditEventRecordLike) : res AuditChainVerificationResult :=
  snd <$> _normalize_and_verify_audit_chain records.

Definition normalize_and_verify_audit_chain_extension (previous_record : AuditEventRecordLike) (records : list AuditEventRecordLike)
    : res (list AuditEventRecord * AuditChainVerificationResult) :=
  match previous_record with
  | RecordNone => _normalize_and_verify_audit_chain records
  | _ =>
      decoded ← invalid_of_error (audit_event_from_mapping previous_record);
      match decoded with
      | inr invalid => Ok ([], IsInvalid invalid)
      | inl previous => verify_records [] (Some previous) {[idempotency_key previous := input_hash previous]} records
      end
  end.

Definition verify_audit_chain_extension (previous_record : AuditEventRecordLike) (records : list AuditEventRecordLike)
    : res AuditChainVerificationResult :=
  snd <$> normalize_and_verify_audit_chain_extension previous_record records.

Definition verify_audit_event_integrity (raw_record : AuditEventRecordLike) : res (option InvalidAuditChain) :=
  decoded ← invalid_of_error (audit_event_from_mapping raw_record);
  match decoded with
  | inr invalid => Ok (Some invalid)
  | inl record => _verify_audit_event_content record
  end.

(** [result.audit_event_id or "genesis"]. *)
Definition invalid_audit_chain_to_event_error (result : InvalidAuditChain) : exn :=
  let location := match invalid_event_id result with Some [] | None => u "genesis" | Some id => id end in
  AuditEventError (u "invalid audit ledger at " ++ location ++ u ": " ++ reason result)
    (invalid_event_id result) (resource_failure result).

(** ** Appending *)

Inductive AuditAppendResult :=
  | AuditAppendAppended (record : AuditEventRecord)
  | AuditAppendDuplicate (record : AuditEventRecord)
  | AuditAppendConflict (existing attempted : AuditEventRecord) (reason : pystr).

Definition optional_record (r : option AuditEventRecord) : option AuditEventRecordLike := (RecordExact ∘ record_object) <$> r.

Definition append_event (existing_records : list AuditEventRecordLike) (event_input : InputLike) : res AuditAppendResult :=
  input_snapshot ← snapshot_audit_event_input event_input;
  '(records, verification) ← _normalize_and_verify_audit_chain existing_records;
  match verification with
  | IsInvalid i => Raise (invalid_audit_chain_to_event_error i)
  | ValidAuditChain _ =>
      attempted ← build_audit_event (InputExact (input_object input_snapshot)) (optional_record (last records));
      match List.find (fun existing => bool_decide (idempotency_key existing = idempotency_key attempted)) records with
      | Some existing =>
          if bool_decide (input_hash existing = input_hash attempted) then Ok (AuditAppendDuplicate existing)
          else Ok (AuditAppendConflict existing attempted
                     (u "audit event idempotency key " ++ idempotency_key attempted ++ u " already exists with different content"))
      | None =>
          if existsb (fun record => bool_decide (audit_event_id record = audit_event_id attempted)) records
          then Raise (audit_error (u "audit event " ++ audit_event_id attempted ++ u " already exists"))
          else Ok (AuditAppendAppended attempted)
      end
  end.

(** ** Replay *)

Inductive AuditReplayFilter :=
  | AllAuditReplayFilter
  | SubjectAuditReplayFilter (subject_type subject_id : pystr)
  | AuditEventIdReplayFilter (audit_event_id : pystr).

Record ValidAuditReplayLedgerSummary := { v_total_events : Z; v_last_event_hash : option pystr }.
Record InvalidAuditReplayLedgerSummary := {
  i_total_events : Z; i_reason : pystr; i_event_id : option pystr; i_resource_failure : option AuditJsonResourceFailure;
}.

Record AuditReplayEventSummary := {
  s_audit_event_id : pystr; s_sequence : Z; s_subject_type : pystr; s_subject_id : pystr; s_event_type : pystr;
  s_created_at : pystr; s_actor : pystr; s_payload_hash : pystr; s_input_hash : pystr;
  s_previous_event_hash : option pystr; s_event_hash : pystr; s_payload : option pyval; s_payload_included : bool;
}.

Inductive AuditReplayResult :=
  | ValidAuditReplayReport (ledger : ValidAuditReplayLedgerSummary) (replay_filter : AuditReplayFilter)
      (events : list AuditReplayEventSummary)
  | InvalidLedgerAuditReplayReport (ledger : InvalidAuditReplayLedgerSummary) (replay_filter : AuditReplayFilter)
  | NotFoundAuditReplayReport (ledger : ValidAuditReplayLedgerSummary) (replay_filter : AuditReplayFilter).

Definition is_all (f : AuditReplayFilter) : bool := match f with AllAuditReplayFilter => true | _ => false end.

Definition audit_event_matches_filter (event : AuditEventRecord) (replay_filter : AuditReplayFilter) : bool :=
  match replay_filter with
  | AllAuditReplayFilter => true
  | SubjectAuditReplayFilter st si => bool_decide (subject_type event = st) && bool_decide (subject_id event = si)
  | AuditEventIdReplayFilter id => bool_decide (audit_event_id event = id)
  end.

Definition filter_audit_events (events : list AuditEventRecord) (replay_filter : AuditReplayFilter) : list AuditEventRecord :=
  List.filter (fun event => audit_event_matches_filter event replay_filter) events.

Definition summarize_audit_event (include_payload : bool) (event : AuditEventRecord) : res AuditReplayEventSummary :=
  payload ← (if include_payload then Some <$> snapshot_json_value (payload event) else Ok None);
  Ok {| s_audit_event_id := audit_event_id event; s_sequence := sequence event; s_subject_type := subject_type event;
        s_subject_id := subject_id event; s_event_type := event_type event; s_created_at := created_at event;
        s_actor := actor event; s_payload_hash := payload_hash event; s_input_hash := input_hash event;
        s_previous_event_hash := previous_event_hash event; s_event_hash := event_hash event;
        s_payload := payload; s_payload_included := include_payload |}.

Definition replay_audit_evidence (records : list AuditEventRecordLike) (replay_filter : AuditReplayFilter)
    (include_payload : bool) : res AuditReplayResult :=
  '(normalized_events, verification) ← _normalize_and_verify_audit_chain records;
  match verification with
  | IsInvalid v =>
      Ok (InvalidLedgerAuditReplayReport
        {| i_total_events := Z.of_nat (length records); i_reason := reason v; i_event_id := invalid_event_id v;
           i_resource_failure := resource_failure v |} replay_filter)
  | ValidAuditChain last_event_hash =>
      let ledger := {| v_total_events := Z.of_nat (length normalized_events); v_last_event_hash := last_event_hash |} in
      events ← mapR (summarize_audit_event include_payload) (filter_audit_events normalized_events replay_filter);
      if negb (is_all replay_filter) && bool_decide (length events = 0%nat)
      then Ok (NotFoundAuditReplayReport ledger replay_filter)
      else Ok (ValidAuditReplayReport ledger replay_filter events)
  end.

Definition replay_subject (records : list AuditEventRecordLike) (subject_type subject_id : pystr) (include_payload : bool)
    : res AuditReplayResult :=
  replay_audit_evidence records (SubjectAuditReplayFilter subject_type subject_id) include_payload.

Definition list_subject_events (records : list AuditEventRecordLike) (st si : pystr) : res (list AuditEventRecord) :=
  '(normalized_events, verification) ← _normalize_and_verify_audit_chain records;
  match verification with
  | IsInvalid i => Raise (invalid_audit_chain_to_event_error i)
  | ValidAuditChain _ =>
      Ok (List.filter (fun event => bool_decide (subject_type event = st) && bool_decide (subject_id event = si)) normalized_events)
  end.

(** ** Replay page by page *)

Definition AUDIT_REPLAY_PAGE_SIZE : Z := 16.

Record AuditLedgerSnapshot := { last_sequence : Z; last_event_hash : option pystr; maximum_sequence : option Z }.

Definition AuditLedgerSnapshot_check (s : AuditLedgerSnapshot) : res unit :=
  raise_if (negb ((0 <=? last_sequence s) && (last_sequence s <=? MAX_SAFE_JSON_INTEGER)))
    (ValueError (u "audit snapshot sequence is outside its admitted interval")) ;;
  (if last_sequence s =? 0
   then raise_if (negb (bool_decide (last_event_hash s = None))) (ValueError (u "empty audit snapshot cannot have a head hash"))
   else raise_if (negb (match last_event_hash s with Some h => is_sha256_hex h | None => false end))
          (ValueError (u "non-empty audit snapshot requires a valid head hash"))) ;;
  raise_if (match maximum_sequence s with
            | Some m => negb ((1 <=? m) && (m <=? MAX_SAFE_JSON_INTEGER))
            | None => false
            end) (ValueError (u "audit snapshot maximum sequence is outside its admitted interval")).

(** The port: a snapshot, and the answer to the [n]-th call of [load_page]; the
    ledger behind it may change between calls. *)
Record AuditReplayRepository := {
  repo_snapshot : res AuditLedgerSnapshot;
  load_page : nat -> Z -> Z -> Z -> res (list AuditEventRecordLike);
}.

Record AuditReplayScan := {
  scan_snapshot : AuditLedgerSnapshot;
  report : AuditReplayResult;
  matched_event_count : Z;
  last_event : option AuditEventRecord;
}.

Definition _require_page_size (value : Z) : res unit :=
  raise_if (negb ((1 <=? value) && (value <=? AUDIT_REPLAY_PAGE_SIZE)))
    (ValueError (u "audit replay page size must be between 1 and " ++ int_str AUDIT_REPLAY_PAGE_SIZE)).

(** [snapshot.last_sequence or None]. *)
Definition _snapshot_inconsistency (snapshot : AuditLedgerSnapshot) : option pystr :=
  let expected_maximum := if last_sequence snapshot =? 0 then None else Some (last_sequence snapshot) in
  if negb (bool_decide (maximum_sequence snapshot = expected_maximum))
  then Some (u "audit ledger head does not match the maximum stored sequence") else None.

Definition _invalid_scan (snapshot : AuditLedgerSnapshot) (replay_filter : AuditReplayFilter) (reason : pystr)
    (event_id : option pystr) (failure : option AuditJsonResourceFailure) : AuditReplayScan := {|
  scan_snapshot := snapshot;
  report := InvalidLedgerAuditReplayReport
    {| i_total_events := last_sequence snapshot; i_reason := reason; i_event_id := event_id; i_resource_failure := failure |}
    replay_filter;
  matched_event_count := 0; last_event := None |}.

Definition _load_verified_page (repository : AuditReplayRepository) (call : nat) (snapshot : AuditLedgerSnapshot)
    (previous : option AuditEventRecord) (page_size : Z) : res (list AuditEventRecord * option InvalidAuditChain) :=
  page ← load_page repository call (_sequence previous) (last_sequence snapshot) page_size;
  if page_size <? Z.of_nat (length page)
  then Ok ([], Some {| reason := u "audit repository returned an oversized replay page"; invalid_event_id := None; resource_failure := None |})
  else
    '(normalized, verification) ← normalize_and_verify_audit_chain_extension (default RecordNone (optional_record previous)) page;
    match verification with
    | IsInvalid i => Ok (normalized, Some i)
    | ValidAuditChain _ =>
        match last normalized with
        | Some r =>
            if last_sequence snapshot <? sequence r
            then Ok (normalized, Some (invalid_at (u "audit repository returned an event beyond the frozen head") r))
            else Ok (normalized, None)
        | None => Ok (normalized, None)
        end
    end.

(** What the scanning loop ends with: a bad page, or the last event and the
    number of matching ones. *)
Inductive scan_end := ScanInvalid (reason : pystr) (event_id : option pystr) (failure : option AuditJsonResourceFailure)
  | ScanDone (previous : option AuditEventRecord) (matched : Z).

(** The loop; every page taken moves the sequence forward. *)
Fixpoint scan_loop (fuel : nat) (repository : AuditReplayRepository) (snapshot : AuditLedgerSnapshot)
    (replay_filter : AuditReplayFilter) (page_size : Z) (call : nat) (previous : option AuditEventRecord) (matched : Z)
    : res scan_end :=
  if _sequence previous <? last_sequence snapshot then
    match fuel with
    | O => Raise OutOfFuel
    | S fuel =>
        '(normalized, invalid) ← _load_verified_page repository call snapshot previous page_size;
        match invalid with
        | Some i => Ok (ScanInvalid (reason i) (invalid_event_id i) (resource_failure i))
        | None =>
            match last normalized with
            | None => Ok (ScanInvalid (u "audit ledger ended before the frozen head sequence") None None)
            | Some r =>
                scan_loop fuel repository snapshot replay_filter page_size (S call) (Some r)
                  (matched + Z.of_nat (length (filter_audit_events normalized replay_filter)))
            end
        end
    end
  else Ok (ScanDone previous matched).

Definition scan_audit_replay (repository : AuditReplayRepository) (replay_filter : AuditReplayFilter) (page_size : Z)
    : res AuditReplayScan :=
  _require_page_size page_size ;;
  snapshot ← repo_snapshot repository;
  match _snapshot_inconsistency snapshot with
  | Some inconsistent_head => Ok (_invalid_scan snapshot replay_filter inconsistent_head None None)
  | None =>
      scanned ← scan_loop (Z.to_nat (last_sequence snapshot)) repository snapshot replay_filter page_size 0 None 0;
      match scanned with
      | ScanInvalid reason id failure => Ok (_invalid_scan snapshot replay_filter reason id failure)
      | ScanDone previous matched =>
          if negb (bool_decide (_event_hash previous = last_event_hash snapshot))
          then Ok (_invalid_scan snapshot replay_filter (u "audit ledger head hash does not match the verified chain") None None)
          else
            let ledger := {| v_total_events := last_sequence snapshot; v_last_event_hash := last_event_hash snapshot |} in
            Ok {| scan_snapshot := snapshot;
                  report := if negb (is_all replay_filter) && (matched =? 0)
                            then NotFoundAuditReplayReport ledger replay_filter
                            else ValidAuditReplayReport ledger replay_filter [];
                  matched_event_count := matched; last_event := previous |}
      end
  end.

(** The generator of the output pass: the summaries it yields, and how it ends. *)
Definition AuditReplaySnapshotChanged : exn :=
  RuntimeError (u "verified audit ledger epoch changed before replay output completed").

Fixpoint yield_events (include_payload : bool) (events : list AuditEventRecord) : list AuditReplayEventSummary * res unit :=
  match events with
  | [] => ([], Ok tt)
  | event :: rest =>
      match summarize_audit_event include_payload event with
      | Raise e => ([], Raise e)
      | Ok s => let '(l, r) := yield_events include_payload rest in (s :: l, r)
      end
  end.

Fixpoint output_loop (fuel : nat) (repository : AuditReplayRepository) (snapshot : AuditLedgerSnapshot)
    (replay_filter : AuditReplayFilter) (matched : Z) (include_payload : bool) (page_size : Z) (call : nat)
    (previous : option AuditEventRecord) (emitted : Z) : list AuditReplayEventSummary * res unit :=
  if _sequence previous <? last_sequence snapshot then
    match fuel with
    | O => ([], Raise OutOfFuel)
    | S fuel =>
        match _load_verified_page repository call snapshot previous page_size with
        | Raise e => ([], Raise e)
        | Ok (normalized, invalid) =>
            match invalid, last normalized with
            | None, Some r =>
                let events := filter_audit_events normalized replay_filter in
                match yield_events include_payload events with
                | (l, Raise e) => (l, Raise e)
                | (l, Ok _) =>
                    let '(l', r') := output_loop fuel repository snapshot replay_filter matched include_payload page_size (S call)
                                       (Some r) (emitted + Z.of_nat (length events)) in
                    (l ++ l', r')
                end
            | _, _ => ([], Raise AuditReplaySnapshotChanged)
            end
        end
    end
  else
    ([], raise_if (negb (bool_decide (_event_hash previous = last_event_hash snapshot)) || negb (emitted =? matched))
           AuditReplaySnapshotChanged).

Definition iter_verified_replay_events (repository : AuditReplayRepository) (scan : AuditReplayScan)
    (include_payload : bool) (page_size : Z) : list AuditReplayEventSummary * res unit :=
  match _require_page_size page_size with
  | Raise e => ([], Raise e)
  | Ok _ =>
      match report scan with
      | ValidAuditReplayReport _ replay_filter _ =>
          output_loop (Z.to_nat (last_sequence (scan_snapshot scan))) repository (scan_snapshot scan) replay_filter
            (matched_event_count scan) include_payload page_size 0 None 0
      | _ => ([], Raise (ValueError (u "only a valid audit replay scan can be streamed")))
      end
  end.
End chain.
