(* ===== verification/AuditFacts.v ===== *)
(** * What the decoders of audit events accept

    A decoded record is a checked record in normal form, decoding it again
    gives it back, and so does encoding it as a mapping and decoding that; the
    only exception a decoder raises is [AuditEventError]. *)

From stdpp Require Import base gmap sets list sorting strings.
From Stdlib Require Import ZArith Lia.
From Stdlib Require Import SpecFloat.
From S2P Require Import Prelude Text PyFloat CanonicalJson Hashing JsonLoads JsonNumbers JsonText JsonRoundtrip Instants AuditEvents.

(** ** Only audit errors *)

Definition audit_only {A} (r : res A) : Prop :=
  match r with Ok _ | Raise (AuditEventError _ _ _) => True | _ => False end.

Lemma audit_only_bind {A B} (r : res A) (f : A -> res B) :
  audit_only r -> (forall a, r = Ok a -> audit_only (f a)) -> audit_only (r ≫= f).
Proof. destruct r as [a|[]]; cbn; try done. intros _ H. by apply H. Qed.

Lemma audit_only_Ok {A} (a : A) : audit_only (Ok a).
Proof. done. Qed.

Lemma audit_only_raise_if b m : audit_only (raise_if b (audit_error m)).
Proof. by destruct b. Qed.

Lemma audit_only_raise_message m : audit_only (raise_message m).
Proof. by destruct m. Qed.

Lemma audit_only_from_option {A} m (o : option A) : audit_only (from_option (audit_error m) o).
Proof. by destruct o. Qed.

Lemma audit_only_with_diagnostic {A} id (r : res A) : audit_only (with_diagnostic id r) <-> audit_only r.
Proof. by destruct r as [|[]]. Qed.

Create HintDb audit.
#[export] Hint Resolve audit_only_bind audit_only_Ok audit_only_raise_if audit_only_raise_message audit_only_from_option : audit.

(** ** Checked objects are typed *)

Lemma as_str_text v label : _validate_audit_text v label = None -> exists s, v = VStr s.
Proof. destruct v; try done. intros _. by eexists. Qed.

Lemma positive_safe_int v : is_positive_safe_int v = true -> exists z, v = VInt z.
Proof. destruct v; try done. intros _. by eexists. Qed.

Lemma is_hash_str v : is_hash v = true -> exists s, v = VStr s.
Proof. destruct v; try done. intros _. by eexists. Qed.

(** The cases of a chain of checks that found nothing. *)
Ltac passed H :=
  repeat match type of H with
  | match ?x with Some _ => Some _ | None => _ end = None => let E := fresh "E" in destruct x eqn:E; [discriminate H|]
  | (if ?b then Some _ else _) = None => let E := fresh "E" in destruct b eqn:E; [discriminate H|]
  end.

Lemma validated_input_typed o : validate_audit_event_input o = None -> exists e, o = input_object e.
Proof.
  destruct o as [k st si et ca ac p ii ri]. unfold validate_audit_event_input. cbn. intros H. passed H.
  apply as_str_text in E as (k' & ->), E1 as (si' & ->), E2 as (et' & ->), E4 as (ac' & ->).
  apply negb_false_iff in E0, E3, E5. destruct st as [| |st'| | | | | | | |]; try done. destruct ca as [| |ca'| | | | | | | |]; try done.
  apply Bool.eqb_prop in E5. apply andb_false_iff in E6.
  assert (Hs : exists i r, ii = opt_int i /\ ri = opt_int r).
  { destruct E6 as [E6|E6].
    - apply negb_false_iff in E6. destruct ii; try done. rewrite E6 in E5. destruct ri; try done. by exists None, None.
    - apply orb_false_iff in E6 as [[i ->]%negb_false_iff%positive_safe_int [r ->]%negb_false_iff%positive_safe_int]. by exists (Some i), (Some r). }
  destruct Hs as (i & r & -> & ->). by exists (Build_AuditEventInput k' st' si' et' ca' ac' p i r).
Qed.

Lemma typed_input_object e : typed_input (input_object e) = Ok e.
Proof. by destruct e as [k st si et ca ac p [i|] [r|]]. Qed.

Lemma validated_record_typed o : validate_audit_event_record o = None -> exists r, o = record_object r.
Proof.
  destruct o as [i sv id n ph pl ih eh]. unfold validate_audit_event_record. cbn. intros H. passed H.
  apply validated_input_typed in E0 as (e & ->). apply negb_false_iff in E, E1, E2, E4, E5, E6.
  destruct sv as [| |sv| | | | | | | |]; try done. destruct id as [| |id| | | | | | | |]; try done.
  apply positive_safe_int in E2 as (z & ->). apply is_hash_str in E4 as (pl' & ->), E5 as (ih' & ->), E6 as (eh' & ->).
  assert (Hp : exists p, ph = opt_str p).
  { apply andb_false_iff in E3 as [E3|E3]; apply negb_false_iff in E3; [destruct ph; try done; by exists None|].
    apply is_hash_str in E3 as (s & ->). by exists (Some s). }
  destruct Hp as (p & ->). destruct e as [k st si et ca ac py i r].
  by exists (Build_AuditEventRecord k st si et ca ac py sv id z p pl' ih' eh' i r).
Qed.

Lemma typed_record_object r : typed_record (record_object r) = Ok r.
Proof. unfold typed_record, record_object. cbn [ro_input]. rewrite typed_input_object. by destruct r as [? ? ? ? ? ? ? ? ? ? [] ? ? ? [] []]. Qed.

(** ** Payloads *)

(** A payload as decoding canonical bytes gives it. *)
Definition normal_payload (p : pyval) (b : list Z) : Prop :=
  loadable p /\ p = fresh 0 (norm p) /\ canonical_audit_payload_bytes p (u "payload") = Ok b.

Lemma payload_bytes_Ok v path b :
  canonical_audit_payload_bytes v path = Ok b <->
  canonical_json (Some AUDIT_JSON_RESOURCE_LIMITS_V1) v = Ok b /\ Z.of_nat (length b) <= MAX_AUDIT_PAYLOAD_CANONICAL_BYTES_V1.
Proof.
  unfold canonical_audit_payload_bytes.
  pose proof (bounded_json_outcome (Some AUDIT_JSON_RESOURCE_LIMITS_V1) v MAX_AUDIT_PAYLOAD_CANONICAL_BYTES_V1 ltac:(done)) as H.
  unfold bounded_outcome in H. destruct (canonical_json _ v) as [b'|e].
  - destruct (Z.leb_spec (Z.of_nat (length b')) MAX_AUDIT_PAYLOAD_CANONICAL_BYTES_V1).
    + rewrite H. naive_solver lia.
    + destruct H as (p & q & ->). unfold byte_overflow. split; [|intros [[= ->] ?]; lia].
      rewrite bool_decide_eq_true_2 by done. done.
  - rewrite H. split; [|by intros [? _]]. destruct e as [| | | | | | |code ep m p l o| | | | | | | | | | | |]; try done.
    case_bool_decide; (intros E; apply bind_Ok in E as (? & _ & E); discriminate E).
Qed.

Lemma payload_bytes_errors v path : audit_only (canonical_audit_payload_bytes v path).
Proof.
  unfold canonical_audit_payload_bytes. pose proof (canonical_json_errors (Some AUDIT_JSON_RESOURCE_LIMITS_V1) v) as He.
  pose proof (bounded_json_outcome (Some AUDIT_JSON_RESOURCE_LIMITS_V1) v MAX_AUDIT_PAYLOAD_CANONICAL_BYTES_V1 ltac:(done)) as H.
  unfold bounded_outcome in H. destruct (canonical_json _ v) as [b'|e].
  - destruct (_ <=? _); [by rewrite H|]. destruct H as (p & q & ->). unfold byte_overflow. by rewrite bool_decide_eq_true_2.
  - rewrite H. destruct e as [| | | | | | |code ep m p l o| | | | | | | | | | | |]; try done. destruct He as [Hc Hr].
    rewrite bool_decide_eq_false_2 by done. unfold _audit_json_resource_failure. fold (is_resource_code code).
    destruct (is_resource_code code); [|done]. by destruct (Hr eq_refl) as ([? ->] & [? ->] & [? ->]).
Qed.

Lemma snapshot_bytes v p path :
  well_formed v -> snapshot_persistable_audit_payload v path = Ok p ->
  exists b, canonical_audit_payload_bytes v path = Ok b /\ p = fresh 0 (norm v) /\ normal_payload p b.
Proof.
  intros Hw E. apply bind_Ok in E as (b & Eb & E). exists b. split; [done|]. apply payload_bytes_Ok in Eb as [Eb Hl].
  destruct (written_reads _ _ _ Hw Eb) as [Er Hload]. rewrite Er in E. injection E as <-. split; [done|]. split; [done|].
  assert (Hv : loadable v) by (split; [by eapply canonical_json_facts|done]). split; [by rewrite norm_idem|].
  apply payload_bytes_Ok. split; [by apply norm_written|done].
Qed.

Lemma snapshot_errors v path : well_formed v -> audit_only (snapshot_persistable_audit_payload v path).
Proof.
  intros Hw. apply audit_only_bind; [apply payload_bytes_errors|]. intros b [Eb _]%payload_bytes_Ok.
  by destruct (written_reads _ _ _ Hw Eb) as [-> _].
Qed.

(** A normal payload is its own snapshot. *)
Lemma normal_snapshot p b : normal_payload p b -> snapshot_json_value p = Ok p.
Proof.
  intros ([Hj Hw] & Ep & Eb). unfold snapshot_json_value, snapshot_persistable_audit_payload. rewrite Eb. cbn.
  apply payload_bytes_Ok in Eb as [Eb _]. destruct (written_reads _ _ _ Hw Eb) as [-> _]. by rewrite <- Ep.
Qed.

Lemma normal_payload_norm p q b b' : normal_payload p b -> normal_payload q b' -> norm p = norm q -> p = q.
Proof. intros (_ & Ep & _) (_ & Eq & _) E. by rewrite Ep, Eq, E. Qed.

(** Equal bytes, equal payloads. *)
Lemma normal_payload_eq p q b : normal_payload p b -> normal_payload q b -> p = q.
Proof.
  intros Hp Hq. eapply normal_payload_norm; [done|done|]. destruct Hp as ([_ Wp] & _ & [Bp _]%payload_bytes_Ok), Hq as ([_ Wq] & _ & [Bq _]%payload_bytes_Ok).
  by eapply written_norm_eq.
Qed.

(** ** Records *)

(** A Python string has code points. *)
Definition text_object (v : pyval) : Prop :=
  match v with VStr s => Forall (fun c => 0 <= c <= 0x10FFFF) s | _ => True end.

Definition input_text (o : InputObject) : Prop :=
  text_object (io_idempotency_key o) /\ text_object (io_subject_id o) /\ text_object (io_event_type o) /\ text_object (io_actor o).

(** A checked record in normal form. *)
Definition record_ok (r : AuditEventRecord) : Prop :=
  validate_audit_event_record (record_object r) = None /\
  admit_audit_text_bytes (input_object (_record_input r)) = Ok tt /\
  input_text (input_object (_record_input r)) /\
  exists b, normal_payload (payload r) b.

Lemma raise_message_Ok m x : raise_message m = Ok x <-> m = None.
Proof. destruct m, x; naive_solver. Qed.

Lemma validated_record_input r :
  validate_audit_event_record (record_object r) = None -> validate_audit_event_input (input_object (_record_input r)) = None.
Proof. unfold validate_audit_event_record. intros H. passed H. done. Qed.

Lemma check_record_Ok o r :
  check_record o = Ok r <->
  o = record_object r /\ validate_audit_event_record (record_object r) = None /\
  admit_audit_text_bytes (input_object (_record_input r)) = Ok tt.
Proof.
  unfold check_record. split.
  - intros E. apply bind_Ok in E as (? & _ & E). apply bind_Ok in E as ([] & Ea & E). apply bind_Ok in E as (? & Er%raise_message_Ok & E).
    pose proof Er as (r' & ->)%validated_record_typed. rewrite typed_record_object in E. by injection E as ->.
  - intros (-> & Er & Ea). cbn [ro_input record_object]. rewrite (validated_record_input _ Er), Ea, Er. cbn. apply typed_record_object.
Qed.

Lemma admit_text_errors o : audit_only (admit_audit_text_bytes o).
Proof.
  unfold admit_audit_text_bytes. generalize AUDIT_TEXT_BYTE_FIELD_PROJECTIONS_V1. intros l.
  induction l as [|p l IH]; [done|]. cbn [foldR]. destruct (attribute p o); try done. by destruct (_utf8_length_exceeds _ _).
Qed.

Lemma check_record_errors o : audit_only (check_record o).
Proof.
  unfold check_record. apply audit_only_bind; [auto with audit|]. intros _ _. apply audit_only_bind; [apply admit_text_errors|]. intros _ _.
  apply audit_only_bind; [auto with audit|]. intros ? (r & ->)%raise_message_Ok%validated_record_typed. by rewrite typed_record_object.
Qed.

Lemma normalize_sequence_safe z : is_positive_safe_int (VInt z) = true -> _normalize_audit_sequence (VInt z) = Ok z.
Proof.
  unfold is_positive_safe_int, _normalize_audit_sequence. intros [Hs Hz]%andb_true_iff'. cbn [mbind res_bind]. rewrite Hs.
  apply Z.leb_le in Hz. by rewrite (proj2 (Z.ltb_ge z 1)).
Qed.

Lemma normalize_sequence_errors v : audit_only (_normalize_audit_sequence v).
Proof.
  unfold _normalize_audit_sequence. apply audit_only_bind; [destruct v; try done; by case_match|]. intros z _.
  apply audit_only_bind; auto with audit.
Qed.

Lemma record_ok_sequence r : record_ok r -> is_positive_safe_int (VInt (sequence r)) = true.
Proof. intros (H & _). unfold validate_audit_event_record in H. passed H. by apply negb_false_iff in E2. Qed.

(** Decoding a checked record gives it back. *)
Lemma validated_record_ok r : record_ok r -> _validated_record (record_object r) = Ok r.
Proof.
  intros Hr. pose proof (record_ok_sequence r Hr) as Hs. destruct Hr as (Hv & Ha & _ & b & Hp). unfold _validated_record, _validated_record_snapshot.
  cbn [ro_input record_object io_payload input_object _record_input ei_payload ro_sequence]. rewrite (normal_snapshot _ _ Hp). cbn [mbind res_bind].
  rewrite (normalize_sequence_safe _ Hs). cbn [mbind res_bind]. unfold with_diagnostic.
  change (check_record _) with (check_record (record_object r)). by rewrite (proj2 (check_record_Ok (record_object r) r)).
Qed.

(** Every Python object in the fields. *)
Definition like_ok (like : AuditEventRecordLike) : Prop :=
  match like with
  | RecordExact o => well_formed (io_payload (ro_input o)) /\ input_text (ro_input o)
  | RecordMapping m => forall k v, m_get m k = Some v -> well_formed v /\ text_object v
  | _ => True
  end.

Lemma validated_record_sound o r :
  well_formed (io_payload (ro_input o)) -> input_text (ro_input o) -> _validated_record o = Ok r -> record_ok r.
Proof.
  intros Hw Ht. unfold _validated_record, with_diagnostic. destruct (_validated_record_snapshot o) as [r'|[]] eqn:E; try done. intros [= ->].
  unfold _validated_record_snapshot in E. apply bind_Ok in E as (p & Ep & E). apply bind_Ok in E as (z & _ & E).
  apply check_record_Ok in E as (Eo & Hv & Ha). split; [done|]. split; [done|]. split; [change (input_text (ro_input (record_object r))); by rewrite <- Eo|]. apply snapshot_bytes in Ep as (b & _ & _ & Hp); [|done].
  exists b. assert (payload r = p) as ->; [|done]. assert (E : io_payload (ro_input (record_object r)) = p) by by rewrite <- Eo. done.
Qed.

Lemma validated_record_errors o : well_formed (io_payload (ro_input o)) -> audit_only (_validated_record o).
Proof.
  intros Hw. apply audit_only_with_diagnostic. unfold _validated_record_snapshot. apply audit_only_bind; [by apply snapshot_errors|]. intros p _.
  apply audit_only_bind; [apply normalize_sequence_errors|]. intros z _. apply check_record_errors.
Qed.


(** What the checks say of the fields. *)
Record input_facts (e : AuditEventInput) : Prop := {
  if_key : is_unicode_scalar_string (ei_idempotency_key e) = true;
  if_type : is_audit_subject_type (VStr (ei_subject_type e)) = true;
  if_id : is_unicode_scalar_string (ei_subject_id e) = true;
  if_event : is_unicode_scalar_string (ei_event_type e) = true;
  if_created : is_unicode_scalar_string (ei_created_at e) = true;
  if_actor : is_unicode_scalar_string (ei_actor e) = true;
  if_scope : match ei_installation_id e, ei_repository_id e with
             | Some i, Some r => is_positive_safe_int (VInt i) = true /\ is_positive_safe_int (VInt r) = true
             | None, None => True
             | _, _ => False
             end;
}.

Lemma text_scalar s label : text_object (VStr s) -> _validate_audit_text (VStr s) label = None -> is_unicode_scalar_string s = true.
Proof.
  cbn. intros Hc H. passed H. unfold is_unicode_scalar_string. apply forallb_elem. intros c Hin. rewrite Forall_forall in Hc.
  apply is_scalar_bounds. split; [by apply Hc|]. assert (Hn : (0xD800 <=? c) && (c <=? 0xDFFF) = false); [|lia].
  apply not_true_is_false. intros Ht. assert (Hx : existsb (fun c => (0xD800 <=? c) && (c <=? 0xDFFF)) s = true); [|by rewrite Hx in E0].
  apply existsb_exists. exists c. by rewrite list_elem_of_In in Hin.
Qed.

Lemma timestamp_text s : _is_iso_timestamp (VStr s) = true -> is_unicode_scalar_string s = true.
Proof.
  cbn. intros [_ H]%andb_true_iff'. destruct (fromisoformat s) as [t|]; [|done]. apply bool_decide_eq_true in H as <-. apply isoformat_scalar.
Qed.

Lemma validated_input_facts e :
  input_text (input_object e) -> validate_audit_event_input (input_object e) = None -> input_facts e.
Proof.
  intros (T1 & T2 & T3 & T4) H. unfold validate_audit_event_input in H. passed H. apply negb_false_iff in E0, E3, E5.
  split; try (by eapply text_scalar); [done|by apply timestamp_text|].
  cbn in E5, E6. destruct (ei_installation_id e), (ei_repository_id e); cbn in *; try done.
  apply orb_false_iff in E6 as [E6 E7]. by apply negb_false_iff in E6, E7.
Qed.

Record record_facts (r : AuditEventRecord) : Prop := {
  rf_input : input_facts (_record_input r);
  rf_schema : schema_version r = AUDIT_EVENT_SCHEMA_VERSION;
  rf_sequence : is_positive_safe_int (VInt (sequence r)) = true;
  rf_previous : forall h, previous_event_hash r = Some h -> is_sha256_hex h = true;
  rf_payload : is_sha256_hex (payload_hash r) = true;
  rf_input_hash : is_sha256_hex (input_hash r) = true;
  rf_event : is_sha256_hex (event_hash r) = true;
}.

Lemma record_ok_facts r : record_ok r -> record_facts r.
Proof.
  intros (H & _ & Ht & _). unfold validate_audit_event_record in H. passed H. cbn in E, E0, E1, E2, E3, E4, E5, E6.
  apply negb_false_iff in E, E1, E2, E4, E5, E6. apply bool_decide_eq_true in E.
  split; try done; [by apply validated_input_facts|]. intros h Eh. rewrite Eh in E3. cbn in E3. by apply negb_false_iff in E3.
Qed.

(** ** Mappings *)

Lemma read_fields_values m label order s s' :
  read_fields m label order s = Ok s' -> (forall k v, (k, v) ∈ s -> m_get m k = Some v) -> forall k v, (k, v) ∈ s' -> m_get m k = Some v.
Proof.
  revert s. induction order as [|key order IH]; intros s E Hs; cbn [read_fields] in E; [by injection E as <-|].
  destruct (m_get m key) as [value|] eqn:Ev; [|done]. eapply IH; [exact E|]. intros k v [Hin|Hin%list_elem_of_singleton]%elem_of_app; [by apply Hs|congruence].
Qed.

Lemma snapshot_get_elem s k v : snapshot_get s k = Some v -> (k, v) ∈ s.
Proof.
  unfold snapshot_get. intros ([k' v'] & E & ->)%fmap_Some. apply List.find_some in E as [Hin E]. apply bool_decide_eq_true in E. cbn in E. subst k'.
  by apply list_elem_of_In.
Qed.

Lemma shape_errors m shapes label d : audit_only (_snapshot_mapping_shape m shapes label d).
Proof.
  unfold _snapshot_mapping_shape. destruct (m_keys m) as [keys|]; [|done]. set (ks := take _ keys).
  assert (Hs : forall l seen, audit_only (seen_keys (fun msg => _raise_mapping_shape_error m ks msg d) label seen l)).
  { induction l as [|[k|rep] l IH]; intros seen; cbn [seen_keys]; [done| |done]. by case_bool_decide. }
  apply audit_only_bind; [apply Hs|]. intros seen _. apply audit_only_bind; [by case_bool_decide|]. intros _ _.
  destruct (List.find _ shapes) as [order|].
  - assert (Hr : forall l s, audit_only (read_fields m label l s)); [|apply Hr].
    induction l as [|k l IH]; intros s; cbn [read_fields]; [done|]. by destruct (m_get m k).
  - by destruct (List.find _ seen).
Qed.

Lemma shape_values m shapes label d s k v :
  _snapshot_mapping_shape m shapes label d = Ok s -> snapshot_get s k = Some v -> m_get m k = Some v.
Proof.
  unfold _snapshot_mapping_shape. destruct (m_keys m) as [keys|]; [|done]. intros E Hg%snapshot_get_elem.
  apply bind_Ok in E as (seen & _ & E). apply bind_Ok in E as (? & _ & E). destruct (List.find _ shapes) as [order|].
  - eapply read_fields_values; [exact E| |exact Hg]. intros ? ? H. by apply not_elem_of_nil in H.
  - destruct (List.find _ seen); discriminate E.
Qed.

(** The payload a decoded record carries was read under its key. *)
Lemma snapshot_record_sound s r :
  (forall k v, snapshot_get s k = Some v -> well_formed v /\ text_object v) -> _audit_event_from_snapshot s = Ok r -> record_ok r.
Proof.
  intros Hs E. unfold _audit_event_from_snapshot in E. repeat (apply bind_Ok in E as (? & ? & E)).
  match goal with H : check_record _ = Ok _ |- _ => apply check_record_Ok in H as (Ho & _ & _) end.
  eapply validated_record_sound; [| |exact E].
  - match goal with H : (_ ≫= fun value => snapshot_json_value value) = Ok _ |- _ => rename H into Hp end.
    apply bind_Ok in Hp as (v & Hv%from_option_Ok & Hp). apply snapshot_bytes in Hp as (b & _ & _ & ([_ Hw] & _)); [|by eapply Hs].
    rewrite <- Ho. exact Hw.
  - rewrite <- Ho. clear Ho E. unfold input_text. cbn.
    assert (Ht : forall k t, _require_str s k = Ok t -> text_object (VStr t)).
    { intros k t Hk. apply bind_Ok in Hk as (v & Hv%from_option_Ok & Hk). destruct v; try done. injection Hk as ->. by eapply Hs. }
    split_and!; by eapply (Ht _).
Qed.

Lemma sequence_required_errors s : audit_only (_require_audit_sequence s).
Proof. unfold _require_audit_sequence, _require_field. apply audit_only_bind; [auto with audit|]. intros v _. apply normalize_sequence_errors. Qed.

Lemma str_required_errors s k : audit_only (_require_str s k).
Proof. unfold _require_str, _require_field. apply audit_only_bind; [auto with audit|]. by intros [] _. Qed.

Lemma optional_required_errors s k : audit_only (_require_optional_str s k) /\ audit_only (_require_optional_positive_int s k).
Proof.
  split; [unfold _require_optional_str, _require_field; apply audit_only_bind; [auto with audit|]; by intros [] _|].
  unfold _require_optional_positive_int.
  destruct (snapshot_get s k) as [[]|]; try done. by case_match.
Qed.

Lemma literal_required_errors s k e m : audit_only (_require_literal s k e m) /\ audit_only (_require_subject_type s k).
Proof.
  unfold _require_literal, _require_subject_type.
  split; (apply audit_only_bind; [apply str_required_errors|]; intros v _; apply audit_only_bind; auto with audit).
Qed.

#[export] Hint Resolve str_required_errors sequence_required_errors : audit.
#[export] Hint Extern 1 (audit_only (_require_optional_str _ _)) => apply optional_required_errors : audit.
#[export] Hint Extern 1 (audit_only (_require_optional_positive_int _ _)) => apply optional_required_errors : audit.
#[export] Hint Extern 1 (audit_only (_require_subject_type _ _)) => apply (literal_required_errors _ _ [] []) : audit.
#[export] Hint Extern 1 (audit_only (_require_literal _ _ _ _)) => apply literal_required_errors : audit.

Lemma snapshot_record_errors s :
  (forall k v, snapshot_get s k = Some v -> well_formed v /\ text_object v) -> audit_only (_audit_event_from_snapshot s).
Proof.
  intros Hs. unfold _audit_event_from_snapshot.
  assert (Hp : audit_only (value ← _require_field s (u "payload"); snapshot_json_value value)).
  { apply audit_only_bind; [apply audit_only_from_option|]. intros v Hv%from_option_Ok. apply snapshot_errors. by eapply Hs. }
  destruct (value ← _require_field s (u "payload"); snapshot_json_value value) as [p|e] eqn:Ep; [|exact Hp].
  cbn [mbind res_bind] in *. clear Hp. repeat (apply audit_only_bind; [solve [auto with audit|apply check_record_errors]|intros ? ?]).
  match goal with H : check_record _ = Ok _ |- _ => apply check_record_Ok in H as (Ho & _ & _) end.
  apply validated_record_errors. rewrite <- Ho. cbn. apply bind_Ok in Ep as (v & Hv%from_option_Ok & Ep).
  apply snapshot_bytes in Ep as (b & _ & _ & ([_ Hw] & _)); [exact Hw|by eapply Hs].
Qed.

(** ** Decoding *)

Lemma decoded_record_ok like r : like_ok like -> audit_event_from_mapping like = Ok r -> record_ok r.
Proof.
  intros Hl E. destruct like as [|o| |m|]; try done; cbn [audit_event_from_mapping like_ok] in *.
  - destruct Hl. by eapply validated_record_sound.
  - apply bind_Ok in E as (s & Es & E). unfold with_diagnostic in E. destruct (_audit_event_from_snapshot s) as [r'|[]] eqn:Er; try done. injection E as ->.
    eapply snapshot_record_sound; [|exact Er]. intros k v Hv. by eapply Hl, shape_values.
Qed.

Lemma decode_errors like : like_ok like -> audit_only (audit_event_from_mapping like).
Proof.
  intros Hl. destruct like as [|o| |m|]; try done; cbn [audit_event_from_mapping like_ok] in *.
  - destruct Hl. by apply validated_record_errors.
  - apply audit_only_bind; [apply shape_errors|]. intros s Es. apply audit_only_with_diagnostic, snapshot_record_errors.
    intros k v Hv. by eapply Hl, shape_values.
Qed.

Lemma decode_record r : record_ok r -> audit_event_from_mapping (RecordExact (record_object r)) = Ok r.
Proof. apply validated_record_ok. Qed.

Lemma record_like_ok r : record_ok r -> like_ok (RecordExact (record_object r)).
Proof. intros (_ & _ & Ht & b & ([_ Hw] & _)). done. Qed.

Lemma dict_like_ok s : Forall (fun kv : pystr * pyval => well_formed kv.2 /\ text_object kv.2) s -> like_ok (RecordMapping (dict_mapping s)).
Proof. intros Hs k v Hv%snapshot_get_elem. rewrite Forall_forall in Hs. apply (Hs _ Hv). Qed.

(** ** Encoding and decoding *)

Lemma snapshot_get_NoDup (s : list (pystr * pyval)) k v : NoDup s.*1 -> (k, v) ∈ s -> snapshot_get s k = Some v.
Proof.
  unfold snapshot_get. induction s as [|[k' v'] s IH]; intros Hn Hin; [by apply not_elem_of_nil in Hin|]. cbn [List.find fst].
  rewrite fmap_cons, NoDup_cons in Hn. destruct Hn as [Hk Hn]. apply elem_of_cons in Hin as [[= -> ->]|Hin]; [by rewrite bool_decide_eq_true_2|].
  rewrite bool_decide_eq_false_2; [by apply IH|]. intros ->. apply Hk. cbn. apply list_elem_of_fmap. by exists (k, v).
Qed.

Lemma seen_keys_distinct fail label (keys seen : list pystr) :
  NoDup (seen ++ keys) -> seen_keys fail label seen (KStr <$> keys) = Ok (seen ++ keys).
Proof.
  revert seen. induction keys as [|k keys IH]; intros seen Hn; cbn [fmap list_fmap seen_keys]; [by rewrite app_nil_r|].
  rewrite bool_decide_eq_false_2.
  - rewrite IH; rewrite <- app_assoc; done.
  - apply NoDup_app in Hn as (_ & Hd & _). intros Hk. apply (Hd k Hk). set_solver.
Qed.

Lemma read_fields_dict s label order acc :
  (forall k, k ∈ order -> k ∈ s.*1) -> NoDup s.*1 ->
  exists s', read_fields (dict_mapping s) label order acc = Ok (acc ++ s') /\ s'.*1 = order /\ (forall k v, (k, v) ∈ s' -> (k, v) ∈ s).
Proof.
  intros Ho Hn. revert acc. induction order as [|k order IH]; intros acc; cbn [read_fields].
  - exists []. rewrite app_nil_r. split_and!; [done|done|]. intros k v H. by apply not_elem_of_nil in H.
  - assert (Hk : exists v, (k, v) ∈ s) by (destruct (list_elem_of_fmap_1 fst s k (Ho k ltac:(set_solver))) as ([k' v] & -> & Hk); by exists v).
    destruct Hk as (v & Hk). cbn [m_get dict_mapping]. rewrite (snapshot_get_NoDup s k v) by done.
    destruct (IH ltac:(set_solver) (acc ++ [(k, v)])) as (s' & -> & Ek & Hs). exists ((k, v) :: s'). rewrite <- app_assoc. split_and!; [done|by rewrite fmap_cons, Ek|].
    intros k' v' [[= -> ->]|Hin]%elem_of_cons; [done|by apply Hs].
Qed.

Definition same_keys (a b : list pystr) : bool := forallb (fun k => bool_decide (k ∈ b)) a && forallb (fun k => bool_decide (k ∈ a)) b.

Lemma same_keys_spec a b : same_keys a b = true <-> (forall k, k ∈ a <-> k ∈ b).
Proof.
  unfold same_keys. rewrite andb_true_iff', !forallb_elem. setoid_rewrite bool_decide_eq_true. naive_solver.
Qed.

(** A [dict] with the keys of one of the shapes is read in full. *)
Lemma shape_dict s shapes order label d :
  NoDup s.*1 -> s.*1 ≡ₚ order -> d ∈ order -> Forall NoDup shapes ->
  List.find (fun shape => same_keys order shape) shapes = Some order ->
  exists s', _snapshot_mapping_shape (dict_mapping s) shapes label (Some d) = Ok s' /\ (forall k, snapshot_get s' k = snapshot_get s k).
Proof.
  intros Hn Hp Hd Hsh Hf. pose proof Hf as [Hin _]%List.find_some. unfold _snapshot_mapping_shape. cbn [m_keys dict_mapping].
  set (mx := foldr Nat.max 0%nat (length <$> shapes)).
  assert (Hmx : (length order <= mx)%nat).
  { subst mx. clear -Hin. induction shapes as [|x l IH]; [done|]. destruct Hin as [->|Hin]; cbn; [lia|]. specialize (IH Hin). cbn in IH. lia. }
  assert (Hlen : length (KStr <$> s.*1) = length order) by (by rewrite length_fmap, Hp).
  rewrite take_ge by lia. rewrite (seen_keys_distinct _ _ _ []) by done. cbn [app mbind res_bind].
  rewrite bool_decide_eq_false_2 by lia. cbn [mbind res_bind].
  replace (List.find _ shapes) with (Some order).
  2:{ rewrite <- Hf. assert (Hk : forall k, k ∈ s.*1 <-> k ∈ order) by (intros k; by rewrite Hp).
      clear -Hk. induction shapes as [|x l IH]; [done|]. cbn [List.find]. rewrite <- IH. clear IH.
      assert (same_keys order x = same_keys s.*1 x) as ->; [|done]. apply Bool.eq_iff_eq_true. rewrite !same_keys_spec. naive_solver. }
  set (ro := d :: _).
  assert (Hro : forall k, k ∈ ro <-> k ∈ order).
  { intros k. subst ro. rewrite elem_of_cons, !list_elem_of_In, filter_In, negb_true_iff, bool_decide_eq_false, <- list_elem_of_In.
    destruct (decide (k = d)) as [->|]; naive_solver. }
  destruct (read_fields_dict s label ro []) as (s' & -> & Ek & Hs); [intros k Hk; apply Hro in Hk; by rewrite Hp|done|].
  exists s'. split; [done|]. intros k.
  assert (Hn' : NoDup s'.*1).
  { rewrite Ek. subst ro. apply NoDup_cons. split.
    - rewrite list_elem_of_In, filter_In, negb_true_iff, bool_decide_eq_false. tauto.
    - apply NoDup_ListNoDup, List.NoDup_filter, NoDup_ListNoDup. rewrite Forall_forall in Hsh. apply Hsh, list_elem_of_In, Hin. }
  destruct (snapshot_get s' k) as [v|] eqn:E.
  - apply snapshot_get_elem, Hs in E. symmetry. by apply snapshot_get_NoDup.
  - destruct (snapshot_get s k) as [v|] eqn:E2; [|done]. apply snapshot_get_elem in E2 as Hk.
    assert (Hin' : k ∈ s'.*1) by (rewrite Ek; apply Hro; rewrite <- Hp; apply list_elem_of_fmap; by exists (k, v)).
    apply list_elem_of_fmap in Hin' as ([k' v'] & -> & Hin'). cbn in E. by rewrite (snapshot_get_NoDup s' k' v') in E.
Qed.

(** The mapping of a record: its keys are those of one of the shapes. *)
Lemma mapping_keys r s :
  record_ok r -> audit_event_to_mapping r = Ok s ->
  exists order, NoDup s.*1 /\ s.*1 ≡ₚ order /\ u "auditEventId" ∈ order /\
    List.find (fun shape => same_keys order shape) [_UNSCOPED_AUDIT_EVENT_RECORD_KEY_ORDER; _SCOPED_AUDIT_EVENT_RECORD_KEY_ORDER] = Some order.
Proof.
  intros Hr E. unfold audit_event_to_mapping in E. apply bind_Ok in E as (p & _ & E). injection E as <-.
  destruct (installation_id r).
  - exists _SCOPED_AUDIT_EVENT_RECORD_KEY_ORDER. split_and!; [by apply (bool_decide_unpack _); vm_compute| |by apply (bool_decide_unpack _); vm_compute|by vm_compute].
    apply NoDup_Permutation; [by apply (bool_decide_unpack _); vm_compute..|]. apply same_keys_spec. by vm_compute.
  - exists _UNSCOPED_AUDIT_EVENT_RECORD_KEY_ORDER. split_and!; [by apply (bool_decide_unpack _); vm_compute| |by apply (bool_decide_unpack _); vm_compute|by vm_compute].
    apply NoDup_Permutation; [by apply (bool_decide_unpack _); vm_compute..|]. apply same_keys_spec. by vm_compute.
Qed.


(** A snapshot that holds the fields of a record. *)
Record holds_record (s : list (pystr * pyval)) (r : AuditEventRecord) : Prop := {
  h_key : snapshot_get s (u "idempotencyKey") = Some (VStr (idempotency_key r));
  h_type : snapshot_get s (u "subjectType") = Some (VStr (subject_type r));
  h_id : snapshot_get s (u "subjectId") = Some (VStr (subject_id r));
  h_event : snapshot_get s (u "eventType") = Some (VStr (event_type r));
  h_created : snapshot_get s (u "createdAt") = Some (VStr (created_at r));
  h_actor : snapshot_get s (u "actor") = Some (VStr (actor r));
  h_payload : snapshot_get s (u "payload") = Some (payload r);
  h_schema : snapshot_get s (u "schemaVersion") = Some (VStr (schema_version r));
  h_audit : snapshot_get s (u "auditEventId") = Some (VStr (audit_event_id r));
  h_sequence : snapshot_get s (u "sequence") = Some (VInt (sequence r));
  h_previous : snapshot_get s (u "previousEventHash") = Some (opt_str (previous_event_hash r));
  h_payload_hash : snapshot_get s (u "payloadHash") = Some (VStr (payload_hash r));
  h_input_hash : snapshot_get s (u "inputHash") = Some (VStr (input_hash r));
  h_event_hash : snapshot_get s (u "eventHash") = Some (VStr (event_hash r));
  h_installation : default VNone (snapshot_get s (u "installationId")) = opt_int (installation_id r);
  h_repository : default VNone (snapshot_get s (u "repositoryId")) = opt_int (repository_id r);
}.

Lemma mapping_holds r s : record_ok r -> audit_event_to_mapping r = Ok s -> holds_record s r.
Proof.
  intros Hr E. pose proof (if_scope _ (rf_input _ (record_ok_facts r Hr))) as Hs. destruct Hr as (_ & _ & _ & b & Hp).
  unfold audit_event_to_mapping in E. rewrite (normal_snapshot _ _ Hp) in E. cbn [mbind res_bind] in E.
  destruct r as [k st si et ca ac p sv id n ph pl ih eh [i|] [ri|]]; try done; injection E as <-; split; try done; vm_compute; reflexivity.
Qed.

Lemma optional_int_read s k o :
  default VNone (snapshot_get s k) = opt_int o -> (forall z, o = Some z -> is_positive_safe_int (VInt z) = true) ->
  _require_optional_positive_int s k = Ok o.
Proof.
  intros E Ho. unfold _require_optional_positive_int. destruct o as [z|]; cbn in E.
  - destruct (snapshot_get s k) as [v|]; [|done]. cbn in E. subst v. specialize (Ho z eq_refl). cbn in Ho.
    apply andb_true_iff' in Ho as [_ Hz%Z.leb_le]. by rewrite (proj2 (Z.ltb_ge z 1)).
  - destruct (snapshot_get s k) as [v|]; [|done]. cbn in E. by subst v.
Qed.

Lemma holds_decoded s r : record_ok r -> holds_record s r -> _audit_event_from_snapshot s = Ok r.
Proof.
  intros Hr [H1 H2 H3 H4 H5 H6 H7 H8 H9 H10 H11 H12 H13 H14 H15 H16]. pose proof (record_ok_facts r Hr) as [Hi Hsv Hseq Hprev _ _ _].
  assert (HI : _require_optional_positive_int s (u "installationId") = Ok (installation_id r)).
  { apply optional_int_read; [done|]. intros z Ez. destruct Hi as [_ _ _ _ _ _ Hs]. cbn in Hs. rewrite Ez in Hs. destruct (repository_id r); [apply Hs|done]. }
  assert (HR : _require_optional_positive_int s (u "repositoryId") = Ok (repository_id r)).
  { destruct Hi as [_ _ _ _ _ _ Hs]. cbn in Hs. apply optional_int_read; [done|].
    intros z Ez. rewrite Ez in Hs. destruct (installation_id r); [apply Hs|done]. }
  pose proof Hr as (Hv & Ha & Ht & b & Hp).
  unfold _audit_event_from_snapshot, _require_literal, _require_subject_type, _require_audit_sequence, _require_optional_str, _require_str, _require_field.
  rewrite HI, HR, H1, H2, H3, H4, H5, H6, H7, H8, H9, H10, H11, H12, H13, H14. cbn [from_option mbind res_bind]. rewrite (normal_snapshot _ _ Hp), Hsv.
  cbn [from_option mbind res_bind]. rewrite bool_decide_eq_true_2 by done. cbn [negb raise_if from_option mbind res_bind].
  pose proof (if_type _ Hi) as Hty. cbn [ei_subject_type _record_input] in Hty. rewrite Hty. cbn [negb raise_if from_option mbind res_bind]. rewrite (normalize_sequence_safe _ Hseq). cbn [mbind res_bind].
  assert (E : forall h : option pystr, (match opt_str h with VNone => Ok None | VStr s => Ok (Some s) | _ => Raise (audit_error (u "previousEventHash" ++ u " must be null or a string")) end) = Ok h) by (by intros []).
  rewrite E. cbn [mbind res_bind].
  rewrite (proj2 (check_record_Ok _ r)).
  - cbn [mbind res_bind]. by apply validated_record_ok.
  - rewrite <- Hsv. split; [by destruct r|done].
Qed.

(** A record's mapping, with its keys in any order, decodes to the record. *)
Lemma mapping_decoded r s s' :
  record_ok r -> audit_event_to_mapping r = Ok s -> s' ≡ₚ s -> audit_event_from_mapping (RecordMapping (dict_mapping s')) = Ok r.
Proof.
  intros Hr Es Hp. destruct (mapping_keys r s Hr Es) as (order & Hn & Hk & Hd & Hf). cbn [audit_event_from_mapping].
  assert (Hn' : NoDup s'.*1) by by rewrite Hp.
  destruct (shape_dict s' [_UNSCOPED_AUDIT_EVENT_RECORD_KEY_ORDER; _SCOPED_AUDIT_EVENT_RECORD_KEY_ORDER] order (u "audit event record") (u "auditEventId") Hn' ltac:(by rewrite Hp) Hd) as (s2 & -> & Hg); [|exact Hf|].
  { repeat constructor; by apply (bool_decide_unpack _); vm_compute. }
  cbn [mbind res_bind]. assert (Hs2 : holds_record s2 r); [|by rewrite (holds_decoded s2 r)].
  assert (Hg' : forall k, snapshot_get s2 k = snapshot_get s k).
  { intros k. rewrite Hg. destruct (snapshot_get s k) as [v|] eqn:E.
    - apply snapshot_get_NoDup; [done|]. rewrite Hp. by apply snapshot_get_elem.
    - destruct (snapshot_get s' k) as [v|] eqn:E2; [|done]. apply snapshot_get_elem in E2. rewrite Hp in E2. by rewrite (snapshot_get_NoDup s k v) in E. }
  destruct (mapping_holds r s Hr Es). split; rewrite ?Hg'; try done; intros; rewrite Hg'; auto.
Qed.

Lemma mapping_total r : record_ok r -> is_ok (audit_event_to_mapping r) = true.
Proof. intros (_ & _ & _ & b & Hp). unfold audit_event_to_mapping. by rewrite (normal_snapshot _ _ Hp). Qed.

(** ** Properties *)

(** C22: whatever is given for an audit event, decoding either raises
    [AuditEventError] or returns a record whose every field has been checked
    and whose payload is in normal form, which decodes to itself. *)
Theorem decoded_event_typed like :
  like_ok like ->
  match audit_event_from_mapping like with
  | Ok r => record_ok r /\ record_facts r /\ audit_event_from_mapping (RecordExact (record_object r)) = Ok r
  | Raise e => exists message id failure, e = AuditEventError message id failure
  end.
Proof.
  intros Hl. pose proof (decode_errors like Hl) as He. destruct (audit_event_from_mapping like) as [r|[]] eqn:E; try done; [|by eexists _, _, _].
  pose proof (decoded_record_ok _ _ Hl E) as Hr. split_and!; [done|by apply record_ok_facts|by apply decode_record].
Qed.

(** A checked record is written as a mapping, and the mapping decodes to the
    record, in whatever order its keys come. *)
Theorem audit_event_roundtrip r :
  record_ok r ->
  exists s, audit_event_to_mapping r = Ok s /\
    forall s', s' ≡ₚ s -> audit_event_from_mapping (RecordMapping (dict_mapping s')) = Ok r.
Proof.
  intros Hr. pose proof (mapping_total r Hr) as Ht. destruct (audit_event_to_mapping r) as [s|] eqn:E; [|done]. exists s. split; [done|].
  intros s' Hp. by eapply mapping_decoded.
Qed.
