(* ===== verification/AuditChainFacts.v ===== *)
(** * What a verified audit chain promises

    A chain verifies exactly when its records decode, link from the genesis
    and carry the hashes of their contents; a record that is built from a
    prepared event links to the chain it was built on. *)

From stdpp Require Import base gmap sets list sorting strings.
From Stdlib Require Import ZArith Lia.
From S2P Require Import Prelude Text PyFloat CanonicalJson Hashing JsonLoads JsonNumbers JsonText JsonRoundtrip Instants AuditEvents AuditChain AuditFacts.

Section facts.
Context `{Sha256}.

(** ** Hashes of checked records *)

Lemma scope_json (i r : option Z) l :
  match i, r with
  | Some i, Some r => is_positive_safe_int (VInt i) = true /\ is_positive_safe_int (VInt r) = true
  | None, None => True
  | _, _ => False
  end -> forallb (fun kv : string * pyval => jsonable kv.2) l = true ->
  forallb (fun kv : string * pyval => jsonable kv.2) (_add_scope l i r) = true.
Proof.
  intros Hs Hl. unfold _add_scope. destruct i as [i|], r as [r|]; try done. destruct Hs as [H1 H2]. rewrite forallb_app, Hl. cbn in *.
  apply andb_true_iff' in H1 as [-> _], H2 as [-> _]. done.
Qed.

Lemma subject_type_scalar s : is_audit_subject_type (VStr s) = true -> is_unicode_scalar_string s = true.
Proof.
  cbn. intros Hs%bool_decide_eq_true. unfold AUDIT_SUBJECT_TYPES in Hs. rewrite !elem_of_cons in Hs.
  repeat (destruct Hs as [->|Hs]; [apply scalar_u|]). by apply not_elem_of_nil in Hs.
Qed.

Lemma input_hash_total e ph :
  input_facts e -> is_sha256_hex ph = true -> exists h, audit_input_hash e ph = Ok h /\ is_sha256_hex h = true.
Proof.
  intros [H1 H2%subject_type_scalar H3 H4 _ _ H7] Hp%sha256_hex_scalar. apply hash_mapping_total, jsonable_obj, scope_json; [done|].
  cbn [forallb snd jsonable]. unfold AUDIT_EVENT_SCHEMA_VERSION. by rewrite scalar_u, H1, H2, H3, H4, Hp.
Qed.

Lemma event_hash_total sv e n ph pl ih :
  input_facts e -> is_unicode_scalar_string sv = true -> is_positive_safe_int (VInt n) = true ->
  (forall h, ph = Some h -> is_sha256_hex h = true) -> is_sha256_hex pl = true -> is_sha256_hex ih = true ->
  exists h, audit_event_hash sv e n ph pl ih = Ok h /\ is_sha256_hex h = true.
Proof.
  intros [H1 H2%subject_type_scalar H3 H4 H5 H6 H7] Hsv [Hn _]%andb_true_iff' Hph Hp%sha256_hex_scalar Hi%sha256_hex_scalar.
  apply hash_mapping_total, jsonable_obj, scope_json; [done|]. cbn [forallb snd jsonable]. cbn in Hn.
  rewrite Hsv, H1, H2, H3, H4, H5, H6, Hp, Hi, Hn. rewrite jsonable_opt_str; [done|]. intros s Es. by apply sha256_hex_scalar, Hph.
Qed.

Lemma payload_hash_bytes p b : normal_payload p b -> hash_object p = Ok (sha256_hex b).
Proof.
  intros (_ & _ & [Eb _]%payload_bytes_Ok). unfold hash_object. apply canonical_json_Ok in Eb as (t & Ht & ->).
  assert (E : canonical_json None p = Ok (flat_map utf8_char t)); [|by rewrite E].
  apply canonical_json_Ok. exists t. split; [|done]. apply json_text_limited in Ht. apply Ht.
Qed.

(** The hashes of a record are those of its contents. *)
Definition content_ok (r : AuditEventRecord) : Prop :=
  hash_object (payload r) = Ok (payload_hash r) /\
  audit_input_hash (_record_input r) (payload_hash r) = Ok (input_hash r) /\
  audit_event_hash (schema_version r) (_record_input r) (sequence r) (previous_event_hash r) (payload_hash r) (input_hash r)
    = Ok (event_hash r) /\
  audit_event_id r = u "audit_" ++ take 32 (event_hash r).

Lemma schema_scalar r : record_facts r -> is_unicode_scalar_string (schema_version r) = true.
Proof. intros Hr. rewrite (rf_schema _ Hr). apply scalar_u. Qed.

Lemma verify_content r :
  record_ok r -> exists v, _verify_audit_event_content r = Ok v /\ (v = None <-> content_ok r).
Proof.
  intros Hr. pose proof (record_ok_facts r Hr) as Hf. destruct Hr as (_ & _ & _ & b & Hp). unfold _verify_audit_event_content, content_ok.
  rewrite (payload_hash_bytes _ _ Hp). case_bool_decide as E1; cbn [negb]; [|eexists; split; [done|]; naive_solver].
  unfold audit_input_hash_for_record. rewrite <- E1.
  destruct (input_hash_total _ _ (rf_input _ Hf) (rf_payload _ Hf)) as (h & -> & _). cbn [mbind res_bind].
  case_bool_decide as E2; cbn [negb]; [|eexists; split; [done|]; naive_solver]. subst h.
  destruct (event_hash_total _ _ _ _ _ _ (rf_input _ Hf) (schema_scalar _ Hf) (rf_sequence _ Hf) (rf_previous _ Hf) (rf_payload _ Hf) (rf_input_hash _ Hf))
    as (h & -> & _). cbn [mbind res_bind].
  case_bool_decide as E3; cbn [negb]; [|eexists; split; [done|]; naive_solver]. subst h.
  case_bool_decide; cbn [negb]; eexists; (split; [done|]); naive_solver.
Qed.

(** ** Linked records *)

Fixpoint linked (previous : option AuditEventRecord) (records : list AuditEventRecord) : Prop :=
  match records with
  | [] => True
  | r :: rest =>
      record_ok r /\ content_ok r /\ sequence r = _sequence previous + 1 /\ previous_event_hash r = _event_hash previous /\
      linked (Some r) rest
  end.

Definition last_or (previous : option AuditEventRecord) (records : list AuditEventRecord) : option AuditEventRecord :=
  match last records with Some r => Some r | None => previous end.

Lemma last_or_cons p r rs : last_or p (r :: rs) = last_or (Some r) rs.
Proof. unfold last_or. rewrite last_cons. by destruct (last rs). Qed.

Lemma last_or_app p rs rs' : last_or p (rs ++ rs') = last_or (last_or p rs) rs'.
Proof. unfold last_or. rewrite last_app. by destruct (last rs'), (last rs). Qed.

Lemma linked_app p rs rs' : linked p (rs ++ rs') <-> linked p rs /\ linked (last_or p rs) rs'.
Proof.
  revert p. induction rs as [|r rs IH]; intros p; cbn [app linked]; [by split; [|intros [_ ?]]|].
  rewrite IH, last_or_cons. tauto.
Qed.

Lemma linked_ok p rs : linked p rs -> Forall record_ok rs.
Proof. revert p. induction rs as [|r rs IH]; intros p; cbn [linked]; [constructor|]. intros (Hr & _ & _ & _ & Hl). constructor; eauto. Qed.

Lemma linked_sequence p rs : linked p rs -> _sequence (last_or p rs) = _sequence p + Z.of_nat (length rs).
Proof.
  revert p. induction rs as [|r rs IH]; intros p; cbn [linked]; [cbn; lia|]. intros (_ & _ & Hs & _ & Hl).
  rewrite last_or_cons, (IH _ Hl). cbn [length]. unfold _sequence at 1. lia.
Qed.

(** ** Verification *)

Definition decodes (like : AuditEventRecordLike) (r : AuditEventRecord) : Prop := audit_event_from_mapping like = Ok r.

(** New keys, each once. *)
Definition new_keys (keys : gmap pystr pystr) (records : list AuditEventRecord) : Prop :=
  NoDup (idempotency_key <$> records) /\ Forall (fun r => keys !! idempotency_key r = None) records.

Lemma new_keys_cons keys r rs :
  new_keys keys (r :: rs) <-> keys !! idempotency_key r = None /\ new_keys (<[idempotency_key r := input_hash r]> keys) rs.
Proof.
  unfold new_keys. rewrite fmap_cons, NoDup_cons, Forall_cons, !Forall_forall. split.
  - intros ((Hk & Hn) & H1 & H2). split_and!; [done|done|]. intros x Hx. rewrite lookup_insert_ne; [by apply H2|].
    intros E. apply Hk. rewrite E. by apply list_elem_of_fmap_2.
  - intros (H1 & Hn & H2). split_and!; [|done|done|].
    + intros (x & E & Hx)%list_elem_of_fmap. specialize (H2 x Hx). by rewrite E, lookup_insert_eq in H2.
    + intros x Hx. specialize (H2 x Hx). by apply lookup_insert_None in H2 as [? _].
Qed.

Lemma verify_chain_record r p keys :
  record_ok r ->
  exists v keys', _verify_audit_chain_record r p keys = Ok (v, keys') /\
    (v = None <-> content_ok r /\ sequence r = _sequence p + 1 /\ previous_event_hash r = _event_hash p /\ keys !! idempotency_key r = None) /\
    (v = None -> keys' = <[idempotency_key r := input_hash r]> keys).
Proof.
  intros Hr. unfold _verify_audit_chain_record.
  replace (match p with Some p => sequence p + 1 | None => 1 end) with (_sequence p + 1) by (destruct p; cbn; lia).
  destruct (Z.eqb_spec (sequence r) (_sequence p + 1)) as [E1|E1]; cbn [negb]; [|do 2 eexists; split; [done|]; naive_solver].
  case_bool_decide as E2; cbn [negb]; [|do 2 eexists; split; [done|]; naive_solver].
  destruct (verify_content r Hr) as (v & -> & Hv). cbn [mbind res_bind]. destruct v as [i|]; [do 2 eexists; split; [done|]; naive_solver|].
  destruct (keys !! idempotency_key r) eqn:Ek; do 2 eexists; (split; [done|]); naive_solver.
Qed.

Lemma verify_records_valid acc p keys likes out h :
  Forall like_ok likes -> verify_records acc p keys likes = Ok (out, ValidAuditChain h) ->
  exists rs, out = acc ++ rs /\ Forall2 decodes likes rs /\ linked p rs /\ new_keys keys rs /\ h = _event_hash (last_or p rs).
Proof.
  intros Hl. revert acc p keys. induction Hl as [|like likes Hlike Hl IH]; intros acc p keys E; cbn [verify_records] in E.
  - injection E as <- <-. exists []. rewrite app_nil_r. split_and!; [done|constructor|done|by repeat constructor|done].
  - destruct (audit_event_from_mapping like) as [r|e] eqn:Ed; cbn [invalid_of_error mbind res_bind] in E; [|by destruct e].
    pose proof (decoded_record_ok _ _ Hlike Ed) as Hr.
    destruct (verify_chain_record r p keys Hr) as (v & keys' & Ev & Hv & Hk). rewrite Ev in E. cbn [mbind res_bind] in E.
    destruct v as [i|]; [done|]. destruct (proj1 Hv eq_refl) as (Hc & Hs & Hp & Hn). rewrite (Hk eq_refl) in E.
    destruct (IH _ _ _ E) as (rs & -> & Hd & Hlk & Hnk & ->). exists (r :: rs). rewrite <- app_assoc, last_or_cons.
    split_and!; [done|by constructor|by split_and!|by apply new_keys_cons|done].
Qed.

Lemma verify_records_complete acc p keys likes rs :
  Forall2 decodes likes rs -> linked p rs -> new_keys keys rs ->
  verify_records acc p keys likes = Ok (acc ++ rs, ValidAuditChain (_event_hash (last_or p rs))).
Proof.
  intros Hd. revert acc p keys. induction Hd as [|like r likes rs Hd _ IH]; intros acc p keys Hlk Hn; cbn [verify_records].
  - by rewrite app_nil_r.
  - unfold decodes in Hd. rewrite Hd. cbn [invalid_of_error mbind res_bind]. destruct Hlk as (Hr & Hc & Hs & Hp & Hlk). apply new_keys_cons in Hn as [Hk Hn].
    destruct (verify_chain_record r p keys Hr) as (v & keys' & -> & Hv & Hk'). cbn [mbind res_bind].
    assert (v = None) as -> by by apply Hv. rewrite (Hk' eq_refl), IH by done. by rewrite <- app_assoc, last_or_cons.
Qed.

(** Verification always returns a verdict. *)
Lemma verify_records_total acc p keys likes : Forall like_ok likes -> is_ok (verify_records acc p keys likes) = true.
Proof.
  intros Hl. revert acc p keys. induction Hl as [|like likes Hlike _ IH]; intros acc p keys; cbn [verify_records]; [done|].
  pose proof (decode_errors _ Hlike) as He. destruct (audit_event_from_mapping like) as [r|[]] eqn:Ed; try done. cbn [invalid_of_error mbind res_bind].
  destruct (verify_chain_record r p keys (decoded_record_ok _ _ Hlike Ed)) as (v & keys' & -> & _). cbn [mbind res_bind]. by destruct v.
Qed.

Lemma records_decode rs : Forall record_ok rs -> Forall2 decodes (RecordExact ∘ record_object <$> rs) rs.
Proof. induction 1 as [|r rs Hr _ IH]; [constructor|]. constructor; [by apply decode_record|done]. Qed.

(** ** Appending *)

(** An input as snapshotting gives it. *)
Definition input_ready (e : AuditEventInput) : Prop :=
  validate_audit_event_input (input_object e) = None /\ admit_audit_text_bytes (input_object e) = Ok tt /\
  input_text (input_object e) /\ exists b, normal_payload (ei_payload e) b.

Definition input_like_ok (i : InputLike) : Prop :=
  match i with InputExact o => well_formed (io_payload o) /\ input_text o | InputOther => True end.

Lemma prepared_facts i p :
  input_like_ok i -> prepare_audit_event i = Ok p ->
  input_ready (pr_input p) /\ consumed p = false /\ hash_object (ei_payload (pr_input p)) = Ok (pr_payload_hash p) /\
  audit_input_hash (pr_input p) (pr_payload_hash p) = Ok (pr_input_hash p) /\ is_sha256_hex (pr_payload_hash p) = true.
Proof.
  intros Hi E. unfold prepare_audit_event in E. apply bind_Ok in E as (o & Eo & E). destruct i as [o'|]; [|done]. cbn in Eo.
  apply bind_Ok in Eo as (? & Hv%raise_message_Ok & [= <-]). destruct Hi as [Hw Ht]. pose proof Hv as (e & ->)%validated_input_typed.
  apply bind_Ok in E as ([] & Ha & E). apply bind_Ok in E as (b & Eb & E). apply bind_Ok in E as (q & Eq & E).
  rewrite typed_input_object in E. cbn [mbind res_bind] in E. apply bind_Ok in E as (ih & Eih & [= <-]). cbn [pr_input consumed pr_payload_hash pr_input_hash ei_payload].
  assert (Hs : snapshot_persistable_audit_payload (io_payload (input_object e)) (u "payload") = Ok q)
    by (unfold snapshot_persistable_audit_payload; by rewrite Eb).
  destruct (snapshot_bytes _ _ _ Hw Hs) as (b' & Eb' & _ & Hp). assert (b' = b) as -> by congruence.
  split_and!; [|done|by apply payload_hash_bytes|exact Eih|apply sha256_is_hex]. split; [exact Hv|]. split; [exact Ha|]. split; [exact Ht|]. by exists b.
Qed.

(** Preparing a snapshot changes nothing of it. *)
Lemma prepare_ready e :
  input_ready e -> exists p, prepare_audit_event (InputExact (input_object e)) = Ok p /\ pr_input p = e.
Proof.
  intros (Hv & Ha & Ht & b & Hp). unfold prepare_audit_event. cbn [_snapshot_audit_event_input_fields]. rewrite Hv. cbn [raise_message mbind res_bind].
  rewrite Ha. cbn [mbind res_bind io_payload input_object]. pose proof (normal_snapshot _ _ Hp) as Hs. destruct Hp as (Hl & Ep & Eb).
  unfold snapshot_json_value, snapshot_persistable_audit_payload in Hs. rewrite Eb in *. cbn [mbind res_bind] in *. rewrite Hs. cbn [mbind res_bind].
  rewrite typed_input_object. cbn [mbind res_bind].
  destruct (input_hash_total e (sha256_hex b)) as (h & -> & _); [by apply validated_input_facts|apply sha256_is_hex|]. cbn [mbind res_bind].
  eexists. split; [done|]. cbn. by destruct e.
Qed.

Lemma snapshot_input_ready i e : input_like_ok i -> snapshot_audit_event_input i = Ok e -> input_ready e.
Proof.
  intros Hi E. apply bind_Ok in E as (p & Ep & E). destruct (prepared_facts _ _ Hi Ep) as (Hr & Hc & _).
  unfold _audit_event_input_from_prepared, _take_payload_for_record in E. rewrite Hc in E. cbn in E. injection E as <-. by destruct (pr_input p).
Qed.

Lemma hex_prefix h : is_sha256_hex h = true -> is_audit_event_id (VStr (u "audit_" ++ take 32 h)) = true.
Proof.
  intros [Hl Hh]%andb_true_iff'. apply bool_decide_eq_true in Hl. cbn [is_audit_event_id]. apply andb_true_iff'. split; [apply andb_true_iff'; split|].
  - done.
  - apply bool_decide_eq_true. rewrite length_app, length_take, Hl. done.
  - change (drop 6 (u "audit_" ++ take 32 h)) with (take 32 h). rewrite forallb_elem in Hh |- *. intros c Hc. apply Hh.
    rewrite <- (take_drop 32 h). apply elem_of_app. by left.
Qed.

(** The event built on a checked record links to it. *)
Lemma built_links e p r :
  input_ready e -> (forall q, p = Some q -> record_ok q) ->
  build_audit_event (InputExact (input_object e)) (optional_record p) = Ok r ->
  _record_input r = e /\ linked p [r].
Proof.
  intros He Hp E. apply bind_Ok in E as (pr & Epr & E). destruct (prepare_ready e He) as (pr' & Epr' & Ee). assert (pr' = pr) as -> by congruence.
  destruct He as (Hv & Ha & Ht & b & Hn).
  destruct (prepared_facts (InputExact (input_object e)) pr) as (_ & Hc & Eph & Eih & Hph); [split; [apply Hn|done]|done|].
  rewrite Ee in Eph, Eih. apply fmap_Ok in E as ([r' pr2] & E & ->). cbn [fst]. unfold build_prepared_audit_event in E.
  assert (Eprev : (match optional_record p with None | Some RecordNone => Ok None | Some like => Some <$> audit_event_from_mapping like end) = Ok p).
  { destruct p as [q|]; [|done]. cbn [optional_record fmap option_fmap option_map compose]. by rewrite (decode_record q (Hp q eq_refl)). }
  rewrite Eprev in E. cbn [mbind res_bind] in E. apply bind_Ok in E as ([] & Es & E). apply raise_if_Ok in Es.
  unfold _take_payload_for_record in E. rewrite Hc in E. cbn [raise_if mbind res_bind pr_input pr_payload_hash pr_input_hash] in E. rewrite Ee in E.
  apply bind_Ok in E as (h & Eh & E).
  assert (Hseq : is_positive_safe_int (VInt (_sequence p + 1)) = true).
  { replace (match p with Some p => sequence p + 1 | None => 1 end) with (_sequence p + 1) in Es by (destruct p; cbn; lia).
    apply orb_false_iff in Es as [E1%negb_false_iff E2%Z.ltb_ge]. unfold is_positive_safe_int. rewrite E1. by apply Z.leb_le. }
  assert (Hprev : forall h, event_hash <$> p = Some h -> is_sha256_hex h = true).
  { intros h' (q & -> & ->)%fmap_Some. apply (rf_event q), record_ok_facts, Hp. done. }
  replace (match p with Some p => sequence p + 1 | None => 1 end) with (_sequence p + 1) in * by (destruct p; cbn; lia).
  injection E as <- _. pose proof (validated_input_facts e Ht Hv) as Hf.
  destruct (event_hash_total AUDIT_EVENT_SCHEMA_VERSION e (_sequence p + 1) (event_hash <$> p) (pr_payload_hash pr) (pr_input_hash pr))
    as (h2 & Eh2 & Hh); [done|apply scalar_u|done|done|done| |].
  { destruct (input_hash_total e (pr_payload_hash pr) Hf Hph) as (h3 & E3 & ?). by assert (h3 = pr_input_hash pr) as <- by congruence. }
  assert (h2 = h) as -> by congruence. split; [by destruct e|]. cbn [linked]. split_and!; [|split_and!| | |done]; cbn; try done.
  - split; [|split; [|split]].
    + unfold validate_audit_event_record. cbn [ro_schema_version record_object schema_version ro_input ro_audit_event_id ro_sequence
        ro_previous_event_hash ro_payload_hash ro_input_hash ro_event_hash audit_event_id sequence previous_event_hash payload_hash input_hash event_hash].
      rewrite bool_decide_eq_true_2 by done. cbn [negb].
      assert (Ei : forall r, _record_input r = e -> validate_audit_event_input (input_object (_record_input r)) = None) by by intros ? ->.
      rewrite Ei by by destruct e.
      rewrite (hex_prefix _ Hh), Hseq. cbn [negb].
      assert (E1 : negb (is_None (opt_str (event_hash <$> p))) && negb (is_hash (opt_str (event_hash <$> p))) = false).
      { destruct p as [q|]; [|done]. cbn. cbn in Hprev. by rewrite (Hprev _ eq_refl). }
      rewrite E1. cbn [is_hash]. rewrite Hph, Hh.
      assert (E2 : is_sha256_hex (pr_input_hash pr) = true).
      { destruct (input_hash_total e (pr_payload_hash pr) Hf Hph) as (h3 & E3 & ?). by assert (h3 = pr_input_hash pr) as <- by congruence. }
      by rewrite E2.
    + by destruct e.
    + by destruct e.
    + exists b. by destruct e.
Qed.
End facts.
