(* ===== verification/AuditLedger.v ===== *)
(** * The audit ledger

    Appending to a verified chain, and what the hash of its head commits to. *)

From stdpp Require Import base gmap sets list sorting strings.
From Stdlib Require Import ZArith Lia.
From S2P Require Import Prelude Text PyFloat CanonicalJson Hashing JsonLoads JsonNumbers JsonText JsonRoundtrip Instants.
From S2P Require Import AuditEvents AuditChain AuditFacts AuditChainFacts.

(** ** Fields of an object, through its normal form *)

Definition fields (v : pyval) : list (pystr * pyval) :=
  match v with VDict _ l => map (fun kv => (key_text kv.1, kv.2)) l | _ => [] end.

Lemma fields_norm oid l k :
  NoDup (map (fun kv => key_text kv.1) l) ->
  snapshot_get (fields (norm (VDict oid l))) k = norm <$> snapshot_get (fields (VDict oid l)) k.
Proof.
  intros Hn. cbn [norm fields]. rewrite (sorted_entries norm), map_map. cbn [fst snd key_text].
  replace (map (fun x : pystr * pyval => (x.1, x.2)) (entries norm l)) with (entries norm l)
    by (symmetry; etrans; [|apply map_id]; apply map_ext; by intros []).
  assert (Hn2 : NoDup (map (fun kv => (key_text kv.1, kv.2)) l).*1).
  { change (map ?g ?x) with (g <$> x) at 1. rewrite <- list_fmap_compose. exact Hn. }
  assert (Hn1 : NoDup (entries norm l).*1) by by rewrite entries_keys.
  destruct (snapshot_get (map _ l) k) as [v|] eqn:E; cbn [fmap option_fmap option_map].
  - apply snapshot_get_elem in E. apply list_elem_of_fmap in E as (kv & [= -> ->] & Hin). apply snapshot_get_NoDup; [done|].
    unfold entries. apply list_elem_of_fmap. exists (key_text kv.1, kv.2). split; [done|]. unfold sort_entries. rewrite isort_perm.
    by apply (list_elem_of_fmap_2 (fun kv : dkey * pyval => (key_text kv.1, kv.2))).
  - destruct (snapshot_get (entries norm l) k) as [v|] eqn:E2; [|done]. apply snapshot_get_elem, entries_elem in E2 as (kv & Hin & <- & _).
    by rewrite (snapshot_get_NoDup _ (key_text kv.1) kv.2) in E by (done || by apply (list_elem_of_fmap_2 (fun kv : dkey * pyval => (key_text kv.1, kv.2)))).
Qed.

Section ledger.
Context `{Sha256}.

(** ** What is hashed *)

(** No two of these byte strings have one digest.  What the hashes commit to is
    shown for ledgers and events whose own byte strings, the ones named below,
    are free of collisions. *)
Definition collision_free (bs : list (list Z)) : Prop :=
  forall b b', b ∈ bs -> b' ∈ bs -> sha256 b = sha256 b' -> b = b'.

Definition collision_freeb (bs : list (list Z)) : bool :=
  forallb (fun b => forallb (fun b' => implb (bool_decide (sha256 b = sha256 b')) (bool_decide (b = b'))) bs) bs.

Lemma collision_free_decided bs : collision_freeb bs = true -> collision_free bs.
Proof.
  unfold collision_freeb. intros Hb b b' Hin Hin' E. rewrite forallb_forall in Hb. specialize (Hb b (proj1 (list_elem_of_In _ _) Hin)).
  rewrite forallb_forall in Hb. specialize (Hb b' (proj1 (list_elem_of_In _ _) Hin')). cbv beta in Hb. rewrite (bool_decide_eq_true_2 _ E) in Hb.
  by apply bool_decide_eq_true in Hb.
Qed.

Lemma collision_free_part bs bs' : bs' ⊆ bs -> collision_free bs -> collision_free bs'.
Proof. intros Hs Hc b b' Hb Hb'. apply Hc; by apply Hs. Qed.

(** The bytes [hash_object] hashes. *)
Definition hashed_bytes (v : pyval) : list (list Z) := match canonical_json None v with Ok b => [b] | Raise _ => [] end.

(** The bytes of a display. *)
Definition mapping_bytes (v : pyval) : list (list Z) := hashed_bytes (fresh 0 v).

(** Of an event before it has a place in the chain: its payload and its input
    identity. *)
Definition event_bytes (e : AuditEventInput) : list (list Z) :=
  hashed_bytes (ei_payload e) ++
  match hash_object (ei_payload e) with Ok ph => mapping_bytes (input_identity e ph) | Raise _ => [] end.

(** Of a record: those of its event, and its event identity. *)
Definition record_bytes (r : AuditEventRecord) : list (list Z) :=
  event_bytes (_record_input r) ++
  mapping_bytes (event_identity (schema_version r) (_record_input r) (sequence r) (previous_event_hash r) (payload_hash r) (input_hash r)).

Definition ledger_bytes (rs : list AuditEventRecord) : list (list Z) := flat_map record_bytes rs.

Lemma ledger_bytes_elem r rs : r ∈ rs -> record_bytes r ⊆ ledger_bytes rs.
Proof. intros Hr b Hb. apply list_elem_of_In, in_flat_map. exists r. by rewrite <- !list_elem_of_In. Qed.

Lemma ledger_bytes_app rs rs' : ledger_bytes (rs ++ rs') = ledger_bytes rs ++ ledger_bytes rs'.
Proof. apply flat_map_app. Qed.

Lemma event_bytes_record r : event_bytes (_record_input r) ⊆ record_bytes r.
Proof. intros b Hb. apply elem_of_app. by left. Qed.

Lemma event_bytes_input e ph : hash_object (ei_payload e) = Ok ph -> mapping_bytes (input_identity e ph) ⊆ event_bytes e.
Proof. intros E b Hb. apply elem_of_app. right. by rewrite E. Qed.

Section committed.
Context (bs : list (list Z)) (Hfree : collision_free bs).

Lemma hash_object_eq v w h :
  well_formed v -> well_formed w -> hashed_bytes v ⊆ bs -> hashed_bytes w ⊆ bs ->
  hash_object v = Ok h -> hash_object w = Ok h -> norm v = norm w.
Proof.
  intros Hv Hw Sv Sw Ev Ew. apply bind_Ok in Ev as (b & Eb & [= <-]), Ew as (b' & Eb' & [= E]). unfold hashed_bytes in Sv, Sw. rewrite Eb in Sv. rewrite Eb' in Sw.
  assert (b = b') as -> by (apply Hfree; [apply Sv|apply Sw|done]; by left). by eapply written_norm_eq.
Qed.

Lemma hash_mapping_eq v w h :
  well_formed v -> well_formed w -> jsonable v = true -> jsonable w = true -> mapping_bytes v ⊆ bs -> mapping_bytes w ⊆ bs ->
  hash_mapping v = Ok h -> hash_mapping w = Ok h -> norm v = norm w.
Proof.
  intros Hv Hw Jv Jw Sv Sw Ev Ew. destruct (fresh_facts 0 v) as (_ & En & Hl), (fresh_facts 0 w) as (_ & En' & Hl').
  rewrite <- En, <- En'. eapply hash_object_eq; [by apply Hl|by apply Hl'|exact Sv|exact Sw|exact Ev|exact Ew].
Qed.
End committed.

Lemma scope_keys (l : list (string * pyval)) i r :
  bool_decide (NoDup ((u ∘ fst) <$> (l ++ [("installationId"%string, VNone); ("repositoryId"%string, VNone)]))) = true ->
  NoDup (map (fun kv => key_text kv.1) ((fun kv : string * pyval => (KStr (u kv.1), kv.2)) <$> _add_scope l i r)).
Proof.
  intros Hn%bool_decide_eq_true. change (map ?g ?x) with (g <$> x). rewrite <- list_fmap_compose. cbn [compose key_text fst].
  rewrite fmap_app in Hn. destruct i as [i|]; cbn [_add_scope]; [by rewrite fmap_app|]. by apply NoDup_app in Hn as [Hn _].
Qed.

Lemma scope_well_formed l i r :
  Forall (fun kv : string * pyval => well_formed kv.2) l -> bool_decide (NoDup ((u ∘ fst) <$> (l ++ [("installationId"%string, VNone); ("repositoryId"%string, VNone)]))) = true ->
  well_formed (obj (_add_scope l i r)).
Proof.
  intros Hl Hn. split; [by apply scope_keys|]. apply (foldr_and_Forall (fun kv : dkey * pyval => well_formed kv.2)), Forall_map.
  cbn [snd]. unfold _add_scope. destruct i as [i|]; [|done]. apply Forall_app. split; [done|]. constructor; [done|]. constructor; [by destruct r|constructor].
Qed.

Lemma event_identity_wf sv e n ph pl ih : well_formed (event_identity sv e n ph pl ih).
Proof.
  apply scope_well_formed; [|reflexivity]. repeat constructor. by destruct ph.
Qed.

Lemma input_identity_wf e pl : well_formed (input_identity e pl).
Proof. apply scope_well_formed; [|reflexivity]. repeat constructor. Qed.

(** A field both identities have is the same. *)
Lemma norm_field v w k x y :
  well_formed v -> well_formed w -> norm v = norm w ->
  snapshot_get (fields v) k = Some x -> snapshot_get (fields w) k = Some y -> norm x = norm y.
Proof.
  intros Hv Hw E Ex Ey. destruct v as [| | | | | |oid l| | | |]; try done. destruct w as [| | | | | |oid' l'| | | |]; try done.
  pose proof (fields_norm oid l k (proj1 Hv)) as E1. pose proof (fields_norm oid' l' k (proj1 Hw)) as E2. rewrite E, E2, Ex, Ey in E1. by injection E1.
Qed.

Lemma norm_no_field v w k :
  well_formed v -> well_formed w -> norm v = norm w -> snapshot_get (fields v) k = None -> snapshot_get (fields w) k = None.
Proof.
  intros Hv Hw E Ex. destruct w as [| | | | | |oid' l'| | | |]; try done.
  destruct v as [| | | |f| |oid l| | | |]; try discriminate E; [destruct f; cbn in E; try discriminate E; by case_match|].
  pose proof (fields_norm oid l k (proj1 Hv)) as E1. pose proof (fields_norm oid' l' k (proj1 Hw)) as E2. rewrite E, E2, Ex in E1.
  by destruct (snapshot_get (fields (VDict oid' l')) k).
Qed.

(** Everything an event's hash commits to. *)
Lemma event_identity_eq r r' :
  record_facts r -> record_facts r' ->
  norm (event_identity (schema_version r) (_record_input r) (sequence r) (previous_event_hash r) (payload_hash r) (input_hash r)) =
  norm (event_identity (schema_version r') (_record_input r') (sequence r') (previous_event_hash r') (payload_hash r') (input_hash r')) ->
  payload r = payload r' -> event_hash r = event_hash r' -> audit_event_id r = audit_event_id r' -> r = r'.
Proof.
  intros Hf Hf' E.
  pose proof (norm_no_field _ _ (u "installationId") (event_identity_wf _ _ _ _ _ _) (event_identity_wf _ _ _ _ _ _) E) as Hn.
  pose proof (norm_no_field _ _ (u "installationId") (event_identity_wf _ _ _ _ _ _) (event_identity_wf _ _ _ _ _ _) (eq_sym E)) as Hn'.
  assert (F : forall k x y, snapshot_get (fields (event_identity (schema_version r) (_record_input r) (sequence r) (previous_event_hash r) (payload_hash r) (input_hash r))) k = Some x ->
     snapshot_get (fields (event_identity (schema_version r') (_record_input r') (sequence r') (previous_event_hash r') (payload_hash r') (input_hash r'))) k = Some y -> norm x = norm y).
  { intros k x y. apply norm_field; [apply event_identity_wf..|exact E]. }
  destruct Hf as [[_ _ _ _ _ _ Hs] _ _ _ _ _ _], Hf' as [[_ _ _ _ _ _ Hs'] _ _ _ _ _ _]. clear E.
  destruct r as [k st si et ca ac p sv id n ph pl ih eh i ri], r' as [k' st' si' et' ca' ac' p' sv' id' n' ph' pl' ih' eh' i' ri'].
  unfold event_identity in *. cbn [schema_version _record_input ei_idempotency_key ei_subject_type ei_subject_id ei_event_type ei_created_at ei_actor
    sequence previous_event_hash payload_hash input_hash ei_installation_id ei_repository_id idempotency_key subject_type subject_id event_type created_at actor
    installation_id repository_id] in *.
  assert (Es : i = i' /\ ri = ri').
  { destruct i as [i|], i' as [i'|]; cbn [_add_scope] in *.
    - pose proof (F (u "installationId") _ _ eq_refl eq_refl) as Hi. pose proof (F (u "repositoryId") _ _ eq_refl eq_refl) as Hr.
      destruct ri, ri'; try done. cbn in Hi, Hr. split; congruence.
    - specialize (Hn' eq_refl). discriminate Hn'.
    - specialize (Hn eq_refl). discriminate Hn.
    - by destruct ri, ri'. }
  destruct Es as [-> ->].
  assert (A : k = k' /\ st = st' /\ si = si' /\ et = et' /\ ca = ca' /\ ac = ac' /\ sv = sv' /\ n = n' /\ opt_str ph = opt_str ph' /\ pl = pl' /\ ih = ih').
  { destruct i'; cbn [_add_scope] in *.
    all: pose proof (F (u "idempotencyKey") _ _ eq_refl eq_refl) as F1; pose proof (F (u "subjectType") _ _ eq_refl eq_refl) as F2;
      pose proof (F (u "subjectId") _ _ eq_refl eq_refl) as F3; pose proof (F (u "eventType") _ _ eq_refl eq_refl) as F4;
      pose proof (F (u "createdAt") _ _ eq_refl eq_refl) as F5; pose proof (F (u "actor") _ _ eq_refl eq_refl) as F6;
      pose proof (F (u "schemaVersion") _ _ eq_refl eq_refl) as F7; pose proof (F (u "sequence") _ _ eq_refl eq_refl) as F8;
      pose proof (F (u "previousEventHash") _ _ eq_refl eq_refl) as F9; pose proof (F (u "payloadHash") _ _ eq_refl eq_refl) as F10;
      pose proof (F (u "inputHash") _ _ eq_refl eq_refl) as F11; clear -F1 F2 F3 F4 F5 F6 F7 F8 F9 F10 F11.
    all: assert (norm (opt_str ph) = opt_str ph /\ norm (opt_str ph') = opt_str ph') as [En En'] by (by destruct ph, ph').
    all: change (norm (opt_str ph) = norm (opt_str ph')) in F9; rewrite En, En' in F9; clear En En'; cbn [norm fst snd] in *; split_and!; congruence. }
  destruct A as (-> & -> & -> & -> & -> & -> & -> & -> & Eph & -> & ->). cbn [payload event_hash audit_event_id]. intros -> -> ->.
  assert (ph = ph') as -> by (destruct ph, ph'; cbn in Eph; congruence). done.
Qed.

Lemma event_identity_jsonable r :
  record_facts r ->
  jsonable (event_identity (schema_version r) (_record_input r) (sequence r) (previous_event_hash r) (payload_hash r) (input_hash r)) = true.
Proof.
  intros Hf. destruct (rf_input _ Hf) as [H1 H2%subject_type_scalar H3 H4 H5 H6 H7]. apply jsonable_obj, scope_json; [done|]. cbn [forallb snd jsonable].
  pose proof (rf_sequence _ Hf) as [Hn _]%andb_true_iff'. cbn in Hn.
  pose proof (sha256_hex_scalar _ (rf_payload _ Hf)) as Hp. pose proof (sha256_hex_scalar _ (rf_input_hash _ Hf)) as Hi.
  rewrite (schema_scalar _ Hf), H1, H2, H3, H4, H5, H6, Hp, Hi, Hn. rewrite jsonable_opt_str; [done|]. intros h Eh. apply sha256_hex_scalar, (rf_previous _ Hf _ Eh).
Qed.

Lemma input_identity_jsonable e ph : input_facts e -> is_sha256_hex ph = true -> jsonable (input_identity e ph) = true.
Proof.
  intros [H1 H2%subject_type_scalar H3 H4 _ _ H7] Hp%sha256_hex_scalar. apply jsonable_obj, scope_json; [done|].
  cbn [forallb snd jsonable]. unfold AUDIT_EVENT_SCHEMA_VERSION. by rewrite scalar_u, H1, H2, H3, H4, Hp.
Qed.

Section committed_records.
Context (bs : list (list Z)) (Hfree : collision_free bs).

Lemma payload_hash_eq r r' :
  record_ok r -> record_ok r' -> event_bytes (_record_input r) ⊆ bs -> event_bytes (_record_input r') ⊆ bs ->
  hash_object (payload r) = Ok (payload_hash r) -> hash_object (payload r') = Ok (payload_hash r') ->
  payload_hash r = payload_hash r' -> payload r = payload r'.
Proof.
  intros (_ & _ & _ & b & Hp) (_ & _ & _ & b' & Hp') S S' E E' Eh. rewrite <- Eh in E'.
  assert (En : norm (payload r) = norm (payload r')); [|by eapply normal_payload_norm].
  refine (hash_object_eq bs Hfree _ _ _ (proj2 (proj1 Hp)) (proj2 (proj1 Hp')) _ _ E E'); intros x Hx; [apply S|apply S']; apply elem_of_app; by left.
Qed.

(** The hash of a verified event determines the event. *)
Lemma event_hash_eq r r' :
  record_ok r -> record_ok r' -> content_ok r -> content_ok r' -> record_bytes r ⊆ bs -> record_bytes r' ⊆ bs ->
  event_hash r = event_hash r' -> r = r'.
Proof.
  intros Hr Hr' (Hp & _ & He & Hid) (Hp' & _ & He' & Hid') S S' E. pose proof (record_ok_facts r Hr) as Hf. pose proof (record_ok_facts r' Hr') as Hf'.
  unfold audit_event_hash in He, He'. rewrite <- E in He'.
  assert (En := fun H1 H2 => hash_mapping_eq bs Hfree _ _ _ (event_identity_wf _ _ _ _ _ _) (event_identity_wf _ _ _ _ _ _)
    (event_identity_jsonable r Hf) (event_identity_jsonable r' Hf') H1 H2 He He').
  specialize (En ltac:(intros b Hb; apply S, elem_of_app; by right) ltac:(intros b Hb; apply S', elem_of_app; by right)).
  assert (Eph : payload_hash r = payload_hash r').
  { assert (Ex : norm (VStr (payload_hash r)) = norm (VStr (payload_hash r'))); [|cbn in Ex; congruence].
    eapply (norm_field _ _ (u "payloadHash")); [apply event_identity_wf..|exact En| |]; unfold event_identity, obj, fields, _add_scope;
      [destruct (ei_installation_id (_record_input r))|destruct (ei_installation_id (_record_input r'))]; reflexivity. }
  assert (Ep : payload r = payload r') by (apply payload_hash_eq; try done; intros b Hb; [apply S|apply S']; by apply event_bytes_record).
  apply event_identity_eq; try done. by rewrite Hid, Hid', E.
Qed.

Lemma linked_head p rs : linked p rs -> forall r, last rs = Some r -> record_ok r /\ content_ok r.
Proof.
  revert p. induction rs as [|x rs IH]; intros p Hl r E; [done|]. destruct Hl as (Hr & Hc & _ & _ & Hl). rewrite last_cons in E.
  destruct (last rs) eqn:El; [by eapply IH; [|congruence]|]. by injection E as <-.
Qed.

(** Linked records with one head hash are the same records. *)
Lemma linked_head_eq rs rs' :
  linked None rs -> linked None rs' -> ledger_bytes rs ⊆ bs -> ledger_bytes rs' ⊆ bs ->
  _event_hash (last_or None rs) = _event_hash (last_or None rs') -> rs = rs'.
Proof.
  revert rs'. induction rs as [|r rs IH] using rev_ind; intros rs' Hl Hl' S S' E.
  - destruct rs' as [|r' rs'] using rev_ind; [done|]. rewrite last_or_app in E. discriminate E.
  - destruct rs' as [|r' rs' _] using rev_ind; [rewrite last_or_app in E; discriminate E|].
    rewrite !last_or_app in E. cbn in E. injection E as E. apply linked_app in Hl as [Hl (Hr & Hc & _ & Hp & _)], Hl' as [Hl' (Hr' & Hc' & _ & Hp' & _)].
    rewrite ledger_bytes_app in S, S'. assert (r = r') as ->.
    { apply event_hash_eq; try done; intros b Hb; [apply S|apply S']; apply elem_of_app; right; eapply ledger_bytes_elem; [by left|exact Hb|by left|exact Hb]. }
    f_equal. apply IH; [done|done| | |congruence]; intros b Hb; [apply S|apply S']; apply elem_of_app; by left.
Qed.
End committed_records.

(** ** Appending *)

(** Two events of one identity: the time and the actor may differ. *)
Definition same_event (r : AuditEventRecord) (e : AuditEventInput) : Prop :=
  idempotency_key r = ei_idempotency_key e /\ subject_type r = ei_subject_type e /\ subject_id r = ei_subject_id e /\
  event_type r = ei_event_type e /\ payload r = ei_payload e /\
  installation_id r = ei_installation_id e /\ repository_id r = ei_repository_id e.

Lemma same_event_hash r r' :
  same_event r (_record_input r') -> content_ok r -> content_ok r' -> input_hash r = input_hash r'.
Proof.
  intros (E1 & E2 & E3 & E4 & E5 & E6 & E7) (Hp & Hi & _) (Hp' & Hi' & _). cbn in *. rewrite <- E5, Hp in Hp'. injection Hp' as Ep.
  unfold audit_input_hash, input_identity in Hi, Hi'. cbn in Hi, Hi'. rewrite <- E1, <- E2, <- E3, <- E4, <- E6, <- E7, <- Ep, Hi in Hi'. congruence.
Qed.

Lemma input_hash_eq bs r r' :
  collision_free bs -> event_bytes (_record_input r) ⊆ bs -> event_bytes (_record_input r') ⊆ bs ->
  record_ok r -> record_ok r' -> content_ok r -> content_ok r' -> input_hash r = input_hash r' -> same_event r (_record_input r').
Proof.
  intros Hfree S S' Hr Hr' (Hp & Hi & _) (Hp' & Hi' & _) E. pose proof (record_ok_facts r Hr) as Hf. pose proof (record_ok_facts r' Hr') as Hf'.
  unfold audit_input_hash in Hi, Hi'. rewrite <- E in Hi'.
  assert (En := fun H1 H2 => hash_mapping_eq bs Hfree _ _ _ (input_identity_wf _ _) (input_identity_wf _ _) (input_identity_jsonable _ _ (rf_input _ Hf) (rf_payload _ Hf))
    (input_identity_jsonable _ _ (rf_input _ Hf') (rf_payload _ Hf')) H1 H2 Hi Hi').
  specialize (En ltac:(intros b Hb; by apply S, (event_bytes_input (_record_input r) _ Hp)) ltac:(intros b Hb; by apply S', (event_bytes_input (_record_input r') _ Hp'))).
  pose proof (norm_no_field _ _ (u "installationId") (input_identity_wf _ _) (input_identity_wf _ _) En) as Hn.
  pose proof (norm_no_field _ _ (u "installationId") (input_identity_wf _ _) (input_identity_wf _ _) (eq_sym En)) as Hn'.
  assert (F : forall k x y, snapshot_get (fields (input_identity (_record_input r) (payload_hash r))) k = Some x ->
     snapshot_get (fields (input_identity (_record_input r') (payload_hash r'))) k = Some y -> norm x = norm y).
  { intros k x y. apply norm_field; [apply input_identity_wf..|exact En]. }
  assert (Eph : payload_hash r = payload_hash r' -> same_event r (_record_input r')).
  { intros Eph. pose proof (payload_hash_eq bs Hfree r r' Hr Hr' S S' Hp Hp' Eph) as Ep.
    destruct Hf as [[_ _ _ _ _ _ Hs] _ _ _ _ _ _], Hf' as [[_ _ _ _ _ _ Hs'] _ _ _ _ _ _]. unfold same_event, input_identity in *. cbn in Hs, Hs'.
    cbn [_record_input ei_installation_id ei_repository_id ei_idempotency_key ei_subject_type ei_subject_id ei_event_type ei_payload] in *.
    destruct (installation_id r) as [i|] eqn:Ei, (installation_id r') as [i'|] eqn:Ei'; cbn [_add_scope] in *;
      [|specialize (Hn' eq_refl); discriminate Hn'|specialize (Hn eq_refl); discriminate Hn|].
    all: pose proof (F (u "idempotencyKey") _ _ eq_refl eq_refl) as F1; pose proof (F (u "subjectType") _ _ eq_refl eq_refl) as F2;
      pose proof (F (u "subjectId") _ _ eq_refl eq_refl) as F3; pose proof (F (u "eventType") _ _ eq_refl eq_refl) as F4; cbn [norm fst snd] in F1, F2, F3, F4.
    - pose proof (F (u "installationId") _ _ eq_refl eq_refl) as F5. pose proof (F (u "repositoryId") _ _ eq_refl eq_refl) as F6. cbn [norm fst snd] in F5, F6.
      destruct (repository_id r), (repository_id r'); try contradiction. cbn in F6. clear -F1 F2 F3 F4 F5 F6 Ep. split_and!; congruence.
    - destruct (repository_id r), (repository_id r'); try contradiction. clear -F1 F2 F3 F4 Ep. split_and!; congruence. }
  apply Eph. assert (Ex : norm (VStr (payload_hash r)) = norm (VStr (payload_hash r'))); [|cbn in Ex; congruence].
  eapply (F (u "payloadHash")); unfold input_identity, obj, fields, _add_scope;
    [destruct (ei_installation_id (_record_input r))|destruct (ei_installation_id (_record_input r'))]; reflexivity.
Qed.

Lemma find_key k (rs : list AuditEventRecord) :
  match List.find (fun r => bool_decide (idempotency_key r = k)) rs with
  | Some r => r ∈ rs /\ idempotency_key r = k
  | None => k ∉ idempotency_key <$> rs
  end.
Proof.
  destruct (List.find _ rs) as [r|] eqn:E.
  - apply List.find_some in E as [Hin E%bool_decide_eq_true]. by rewrite <- list_elem_of_In in Hin.
  - intros (r & -> & Hr)%list_elem_of_fmap. apply list_elem_of_In in Hr. pose proof (List.find_none _ _ E _ Hr) as Hf.
    cbv beta in Hf. by rewrite bool_decide_eq_true_2 in Hf.
Qed.

(** A verified chain, its records and its head. *)
Definition verified (likes : list AuditEventRecordLike) (rs : list AuditEventRecord) : Prop :=
  _normalize_and_verify_audit_chain likes = Ok (rs, ValidAuditChain (_event_hash (last rs))).

Lemma verified_linked likes rs h :
  Forall like_ok likes -> _normalize_and_verify_audit_chain likes = Ok (rs, ValidAuditChain h) ->
  Forall2 decodes likes rs /\ linked None rs /\ NoDup (idempotency_key <$> rs) /\ h = _event_hash (last_or None rs).
Proof.
  intros Hl E. destruct (verify_records_valid _ _ _ _ _ _ Hl E) as (rs' & -> & Hd & Hlk & [Hn _] & Eh). done.
Qed.

Lemma linked_verified likes rs :
  Forall2 decodes likes rs -> linked None rs -> NoDup (idempotency_key <$> rs) -> verified likes rs.
Proof.
  intros Hd Hl Hn. unfold verified, _normalize_and_verify_audit_chain. rewrite (verify_records_complete _ _ _ _ _ Hd Hl).
  - unfold last_or. by destruct (last rs).
  - split; [done|]. apply Forall_forall. intros r _. apply lookup_empty.
Qed.

Lemma build_on_chain e rs :
  input_ready e -> linked None rs -> Z.of_nat (length rs) < MAX_SAFE_JSON_INTEGER ->
  exists r, build_audit_event (InputExact (input_object e)) (optional_record (last rs)) = Ok r /\ _record_input r = e /\ linked (last rs) [r].
Proof.
  intros He Hl Hlen. assert (Hok : forall q, last rs = Some q -> record_ok q) by (intros q Eq; by eapply linked_head).
  assert (Hb : is_ok (build_audit_event (InputExact (input_object e)) (optional_record (last rs))) = true).
  { pose proof (linked_sequence _ _ Hl) as Hs. unfold last_or in Hs. cbn [_sequence] in Hs.
    unfold build_audit_event. destruct (prepare_ready e He) as (p & Ep & Ee). rewrite Ep. cbn [mbind res_bind].
    destruct He as (Hv & Ha & Ht & b & Hn).
    destruct (prepared_facts (InputExact (input_object e)) p) as (_ & Hc & _ & Eih & Hph); [split; [apply Hn|done]|done|]. rewrite Ee in Eih.
    unfold build_prepared_audit_event.
    assert (Eprev : (match optional_record (last rs) with None | Some RecordNone => Ok None | Some like => Some <$> audit_event_from_mapping like end) = Ok (last rs)).
    { destruct (last rs) as [q|]; [|done]. cbn [optional_record fmap option_fmap option_map compose]. by rewrite (decode_record q (Hok q eq_refl)). }
    rewrite Eprev. cbn [mbind res_bind].
    assert (Hseq : is_positive_safe_int (VInt (match last rs with Some p => sequence p + 1 | None => 1 end)) = true).
    { cbn. destruct (last rs) as [q|]; cbn in Hs; [|done]. unfold is_safe_int. rewrite Hs. lia. }
    unfold is_positive_safe_int in Hseq. pose proof Hseq as [H1 H2%Z.leb_le]%andb_true_iff'. rewrite H1, (proj2 (Z.ltb_ge _ 1)) by done.
    cbn [negb orb raise_if mbind res_bind]. unfold _take_payload_for_record. rewrite Hc. cbn [raise_if mbind res_bind pr_input pr_payload_hash pr_input_hash].
    rewrite Ee. pose proof (validated_input_facts e Ht Hv) as Hf. destruct (input_hash_total e (pr_payload_hash p) Hf Hph) as (h3 & E3 & Hih).
    assert (h3 = pr_input_hash p) as -> by congruence.
    destruct (event_hash_total AUDIT_EVENT_SCHEMA_VERSION e (match last rs with Some p => sequence p + 1 | None => 1 end) (event_hash <$> last rs) (pr_payload_hash p) (pr_input_hash p))
      as (h2 & -> & _); [done|apply scalar_u|exact Hseq| |done|done|done].
    intros h (q & Eq & ->)%fmap_Some. apply (rf_event q), record_ok_facts, Hok. done. }
  destruct (build_audit_event _ _) as [r|] eqn:E; [|done]. exists r. split; [done|]. by apply built_links.
Qed.

(** ** Properties *)

(** C18: appending to a verified chain.  The event is appended exactly when its
    key is new, and then the longer chain verifies with the event at its head
    and appending the event once more is a duplicate; a duplicate is answered
    with the stored event of the same subject, type, payload and scope, a
    conflict with one that differs in them; nothing else happens, short of an
    event whose identifier, 32 digits of its hash, is taken.  Only the answer of
    a duplicate relies on the hash: it is the same event when no two of the byte
    strings hashed for the ledger's events and for this one have one digest. *)
Theorem append_event_correct likes rs h input e :
  Forall like_ok likes -> input_like_ok input ->
  _normalize_and_verify_audit_chain likes = Ok (rs, ValidAuditChain h) -> snapshot_audit_event_input input = Ok e ->
  Z.of_nat (length rs) + 1 < MAX_SAFE_JSON_INTEGER ->
  match append_event likes input with
  | Ok (AuditAppendAppended r) =>
      (ei_idempotency_key e ∉ idempotency_key <$> rs) /\ _record_input r = e /\
      forall like, decodes like r -> verified (likes ++ [like]) (rs ++ [r]) /\
        append_event (likes ++ [like]) input = Ok (AuditAppendDuplicate r)
  | Ok (AuditAppendDuplicate r) => r ∈ rs /\ idempotency_key r = ei_idempotency_key e /\
      (collision_free (event_bytes (_record_input r) ++ event_bytes e) -> same_event r e)
  | Ok (AuditAppendConflict r attempted _) =>
      r ∈ rs /\ _record_input attempted = e /\ idempotency_key r = ei_idempotency_key e /\ ~ same_event r e
  | Raise err => (ei_idempotency_key e ∉ idempotency_key <$> rs) /\
      exists r id, r ∈ rs /\ audit_event_id r = id /\ err = audit_error (u "audit event " ++ id ++ u " already exists")
  end.
Proof.
  intros Hl Hi Ev Ee Hlen. destruct (verified_linked _ _ _ Hl Ev) as (Hd & Hlk & Hn & Eh). pose proof (snapshot_input_ready _ _ Hi Ee) as Hr.
  destruct (build_on_chain e rs Hr Hlk ltac:(lia)) as (a & Ea & Eai & Hla). unfold append_event. rewrite Ee. cbn [mbind res_bind]. rewrite Ev.
  cbn [mbind res_bind]. rewrite Ea. cbn [mbind res_bind]. pose proof Hla as (Hra & Hca & _).
  assert (Ek : idempotency_key a = ei_idempotency_key e) by by rewrite <- Eai. rewrite Ek.
  pose proof (find_key (ei_idempotency_key e) rs) as Hf. destruct (List.find _ rs) as [x|].
  - destruct Hf as [Hx Ekx]. assert (Hxo : record_ok x /\ content_ok x).
    { apply list_elem_of_split in Hx as (l1 & l2 & ->). apply linked_app in Hlk as [_ (? & ? & _)]. done. }
    destruct Hxo as [Hxr Hxc]. case_bool_decide as Eih.
    + split_and!; [done|done|]. intros Hfree. rewrite <- Eai in *. eapply input_hash_eq; [exact Hfree| | |done..]; intros b Hb; apply elem_of_app; [by left|by right].
    + split_and!; [done|done|done|]. intros Hs. apply Eih. apply same_event_hash; [by rewrite Eai|done|done].
  - destruct (existsb _ rs) eqn:Ex.
    + split; [done|]. apply existsb_exists in Ex as (r & Hin & Eid%bool_decide_eq_true). exists r, (audit_event_id a). by rewrite list_elem_of_In.
    + split_and!; [done|done|]. intros like Hlike.
      assert (Hlk' : linked None (rs ++ [a])). { apply linked_app. split; [done|]. unfold last_or. by destruct (last rs). }
      assert (Hn' : NoDup (idempotency_key <$> (rs ++ [a]))).
      { rewrite fmap_app. apply NoDup_app. split_and!; [done| |apply NoDup_singleton]. intros k Hk ->%list_elem_of_singleton. by rewrite Ek in Hk. }
      assert (Hv : verified (likes ++ [like]) (rs ++ [a])) by (apply linked_verified; [by apply Forall2_app; [|constructor]|done|done]).
      split; [exact Hv|]. unfold verified in Hv. rewrite Hv. cbn [mbind res_bind].
      destruct (build_on_chain e (rs ++ [a]) Hr Hlk') as (a2 & Ea2 & Eai2 & (Hra2 & Hca2 & _)); [rewrite length_app; cbn; lia|].
      rewrite Ea2. cbn [mbind res_bind].
      assert (Ek2 : idempotency_key a2 = ei_idempotency_key e) by by rewrite <- Eai2. rewrite Ek2.
      pose proof (find_key (ei_idempotency_key e) (rs ++ [a])) as Hf2. destruct (List.find _ (rs ++ [a])) as [x|].
      * destruct Hf2 as [Hx Ekx]. assert (x = a) as ->.
        { apply elem_of_app in Hx as [Hx|Hx%list_elem_of_singleton]; [|done]. exfalso. apply Hf. rewrite <- Ekx. by apply list_elem_of_fmap_2. }
        rewrite bool_decide_eq_true_2; [done|]. apply same_event_hash; [|done|done]. rewrite Eai2, <- Eai. by split_and!.
      * exfalso. apply Hf2. rewrite fmap_app, <- Ek. set_solver.
Qed.

(** C17: the head hash commits to the whole ledger.  Two ledgers that verify
    with one head hash decode to the same records, payloads included, when no
    two of the byte strings that were hashed for their records (the payloads,
    the input identities and the event identities) have one digest. *)
Theorem ledger_tamper_evident likes likes' rs rs' h :
  Forall like_ok likes -> Forall like_ok likes' ->
  _normalize_and_verify_audit_chain likes = Ok (rs, ValidAuditChain h) ->
  _normalize_and_verify_audit_chain likes' = Ok (rs', ValidAuditChain h) ->
  collision_free (ledger_bytes rs ++ ledger_bytes rs') -> rs = rs'.
Proof.
  intros Hl Hl' (_ & Hk & _ & E)%verified_linked (_ & Hk' & _ & E')%verified_linked Hfree; [|done|done].
  eapply linked_head_eq; [exact Hfree|done|done| | |congruence]; intros b Hb; apply elem_of_app; [by left|by right].
Qed.
End ledger.
