(* ===== verification/AuditPages.v ===== *)
(** * Replay page by page

    Over a repository that serves a verified ledger the two passes give what
    replaying the ledger in memory gives; over any repository, one that changes
    between the passes included, an output that completes is the projection of
    the verified epoch. *)

From stdpp Require Import base gmap sets list sorting strings.
From Stdlib Require Import ZArith Lia.
From S2P Require Import Prelude Text PyFloat CanonicalJson Hashing JsonLoads JsonNumbers JsonText JsonRoundtrip Instants.
From S2P Require Import AuditEvents AuditChain AuditFacts AuditChainFacts AuditLedger.

Section pages.
Context `{Sha256}.

(** ** Summaries *)

Lemma summarize_total ip r : record_ok r -> exists s, summarize_audit_event ip r = Ok s.
Proof.
  intros (_ & _ & _ & b & Hp). unfold summarize_audit_event. destruct ip; [|by eexists]. rewrite (normal_snapshot _ _ Hp). by eexists.
Qed.

Lemma filter_ok f rs : Forall record_ok rs -> Forall record_ok (filter_audit_events rs f).
Proof. rewrite !Forall_forall. intros Hr r Hin%list_elem_of_In. apply filter_In in Hin as [Hin _]. by apply Hr, list_elem_of_In. Qed.

Lemma filter_app f rs rs' : filter_audit_events (rs ++ rs') f = filter_audit_events rs f ++ filter_audit_events rs' f.
Proof. apply List.filter_app. Qed.

Lemma summaries_total ip rs : Forall record_ok rs -> exists l, mapR (summarize_audit_event ip) rs = Ok l.
Proof. intros Hr. apply mapR_total. rewrite Forall_forall in Hr. intros r Hin. by apply summarize_total, Hr. Qed.

Lemma mapR_app {A B} (f : A -> res B) l1 l2 r1 r2 : mapR f l1 = Ok r1 -> mapR f l2 = Ok r2 -> mapR f (l1 ++ l2) = Ok (r1 ++ r2).
Proof. rewrite !mapR_Ok. apply Forall2_app. Qed.

Lemma yield_events_Ok ip rs l : mapR (summarize_audit_event ip) rs = Ok l -> yield_events ip rs = (l, Ok tt).
Proof.
  revert l. induction rs as [|r rs IH]; intros l E; cbn [mapR yield_events] in *; [by injection E as <-|].
  apply bind_Ok in E as (s & -> & E). apply bind_Ok in E as (l' & E & [= <-]). by rewrite (IH _ E).
Qed.

(** ** One page *)

Lemma extension_from p likes :
  (forall q, p = Some q -> record_ok q) ->
  normalize_and_verify_audit_chain_extension (default RecordNone (optional_record p)) likes =
  verify_records [] p (match p with Some q => {[idempotency_key q := input_hash q]} | None => ∅ end) likes.
Proof.
  intros Hp. destruct p as [q|]; [|done]. change (default RecordNone (optional_record (Some q))) with (RecordExact (record_object q)).
  cbn [normalize_and_verify_audit_chain_extension]. by rewrite (decode_record q (Hp q eq_refl)).
Qed.

(** A record the repository answered some call with. *)
Definition read_from (repo : AuditReplayRepository) (r : AuditEventRecord) : Prop :=
  exists call after through limit page like, load_page repo call after through limit = Ok page /\ like ∈ page /\ decodes like r.

(** Whatever a page holds, taking it extends the linked records. *)
Lemma page_taken repo call s p ps rs :
  (forall page, load_page repo call (_sequence p) (last_sequence s) ps = Ok page -> Forall like_ok page) ->
  (forall q, p = Some q -> record_ok q) ->
  _load_verified_page repo call s p ps = Ok (rs, None) ->
  linked p rs /\ Forall (read_from repo) rs /\ (forall r, last rs = Some r -> sequence r <= last_sequence s).
Proof.
  intros Hpage Hp E. unfold _load_verified_page in E. apply bind_Ok in E as (page & Epage & E). destruct (_ <? Z.of_nat _); [done|].
  apply bind_Ok in E as ([rs' v] & Ev & E).
  assert (Hl : forall h, v = ValidAuditChain h -> linked p rs' /\ Forall (read_from repo) rs').
  { intros h ->. rewrite extension_from in Ev by done. destruct (verify_records_valid _ _ _ _ _ _ (Hpage _ Epage) Ev) as (rs2 & -> & Hd & Hlk & _).
    split; [exact Hlk|]. apply Forall_forall. intros r (i & Hi)%list_elem_of_lookup_1. destruct (Forall2_lookup_r _ _ _ _ _ Hd Hi) as (like & Hlike & Hdec).
    exists call, (_sequence p), (last_sequence s), ps, page, like. split_and!; [exact Epage|by eapply list_elem_of_lookup_2|exact Hdec]. }
  destruct v as [h|i]; [|done]. destruct (Hl h eq_refl) as [Hlk Hread]. destruct (last rs') as [r|] eqn:El.
  - destruct (Z.ltb_spec (last_sequence s) (sequence r)); [done|]. injection E as <-. split_and!; [done|done|]. intros r' Er. rewrite El in Er. injection Er as <-. done.
  - injection E as <-. split_and!; [done|done|]. intros r Er. congruence.
Qed.

(** A page of linked records with new keys is taken. *)
Lemma page_accepted repo call s p ps rs :
  load_page repo call (_sequence p) (last_sequence s) ps = Ok (RecordExact ∘ record_object <$> rs) ->
  Z.of_nat (length rs) <= ps -> (forall q, p = Some q -> record_ok q) -> linked p rs ->
  NoDup (idempotency_key <$> rs) -> (forall q, p = Some q -> idempotency_key q ∉ idempotency_key <$> rs) ->
  (forall r, last rs = Some r -> sequence r <= last_sequence s) ->
  _load_verified_page repo call s p ps = Ok (rs, None).
Proof.
  intros Epage Hlen Hp Hl Hn Hk Hs. unfold _load_verified_page. rewrite Epage. cbn [mbind res_bind].
  rewrite length_fmap, (proj2 (Z.ltb_ge _ _)) by done.
  assert (Hd : Forall2 decodes (RecordExact ∘ record_object <$> rs) rs) by (apply records_decode; by eapply linked_ok).
  rewrite extension_from by done. rewrite (verify_records_complete _ _ _ _ rs Hd Hl).
  2:{ split; [done|]. apply Forall_forall. intros r Hr. destruct p as [q|]; [|apply lookup_empty]. apply lookup_singleton_ne.
      intros E. apply (Hk q eq_refl). rewrite E. by apply list_elem_of_fmap_2. }
  cbn [mbind res_bind app]. destruct (last rs) as [r|] eqn:El; [|done].
  by rewrite (proj2 (Z.ltb_ge _ _)) by by apply Hs.
Qed.

(** ** The scanning loop *)

(** A repository that answers every call with a page of Python objects. *)
Definition answers (repo : AuditReplayRepository) : Prop :=
  forall call after through limit, exists page, load_page repo call after through limit = Ok page /\ Forall like_ok page.

Lemma load_total repo call s p ps :
  answers repo -> (forall q, p = Some q -> record_ok q) -> exists r, _load_verified_page repo call s p ps = Ok r.
Proof.
  intros Ha Hp. unfold _load_verified_page. destruct (Ha call (_sequence p) (last_sequence s) ps) as (page & -> & Hl). cbn [mbind res_bind].
  destruct (_ <? _); [by eexists|]. rewrite extension_from by done.
  pose proof (verify_records_total [] p (match p with Some q => {[idempotency_key q := input_hash q]} | None => ∅ end) page Hl) as Ht.
  destruct (verify_records _ _ _ _) as [[rs v]|]; [|done]. cbn [mbind res_bind]. destruct v; [|by eexists]. destruct (last rs); [|by eexists]. case_match; by eexists.
Qed.

(** The records taken so far. *)
Definition taken (rs : list AuditEventRecord) (p : option AuditEventRecord) : Prop := linked None rs /\ p = last_or None rs.

Lemma taken_ok rs p q : taken rs p -> p = Some q -> record_ok q.
Proof. intros [Hl ->] E. unfold last_or in E. destruct (last rs) eqn:El; [|done]. injection E as ->. by eapply linked_head. Qed.

Lemma taken_more rs p rs' : taken rs p -> linked p rs' -> taken (rs ++ rs') (last_or p rs').
Proof. intros [Hl ->] Hl'. split; [by apply linked_app|]. by rewrite last_or_app. Qed.

Lemma taken_sequence rs p : taken rs p -> _sequence p = Z.of_nat (length rs).
Proof. intros [Hl ->]. rewrite (linked_sequence _ _ Hl). done. Qed.

(** The loop ends with the fuel given; when it is done it has taken linked
    records up to the last sequence, and counted the matching ones. *)
Lemma scan_loop_sound fuel repo s f ps call p matched rs :
  answers repo -> taken rs p -> Forall (read_from repo) rs -> matched = Z.of_nat (length (filter_audit_events rs f)) ->
  (Z.to_nat (last_sequence s - _sequence p) <= fuel)%nat -> _sequence p <= last_sequence s \/ rs = [] ->
  exists e, scan_loop fuel repo s f ps call p matched = Ok e /\
    match e with
    | ScanInvalid _ _ _ => True
    | ScanDone p' m => exists rs', taken rs' p' /\ Forall (read_from repo) rs' /\ m = Z.of_nat (length (filter_audit_events rs' f)) /\
        (last_sequence s < 0 \/ Z.of_nat (length rs') = last_sequence s)
    end.
Proof.
  intros Ha. revert call p matched rs. induction fuel as [|fuel IH]; intros call p matched rs Ht Hread Em Hf Hle; cbn [scan_loop].
  all: pose proof (taken_sequence _ _ Ht) as Hs; destruct (Z.ltb_spec (_sequence p) (last_sequence s)); [|eexists; split; [done|]; exists rs; split_and!; [done|done|done|]; destruct Hle as [Hle|E]; [lia|subst rs; cbn in *; lia]].
  - lia.
  - assert (Hp : forall q, p = Some q -> record_ok q) by (intros q Eq; by eapply taken_ok).
    destruct (load_total repo call s p ps Ha Hp) as ([rs' invalid] & El). rewrite El. cbn [mbind res_bind]. destruct invalid as [i|]; [by eexists|].
    destruct (page_taken repo call s p ps rs') as (Hl & Hread' & Hb); [|done|done|].
    { intros page Ep. destruct (Ha call (_sequence p) (last_sequence s) ps) as (page' & Ep' & Hok). by assert (page' = page) as <- by congruence. }
    destruct (last rs') as [r|] eqn:Elast; [|by eexists].
    assert (Er : Some r = last_or p rs') by (unfold last_or; by rewrite Elast).
    pose proof (taken_more _ _ _ Ht Hl) as Ht'. pose proof (linked_sequence _ _ Hl) as Hseq. rewrite <- Er in Ht', Hseq.
    assert (Hlen : (0 < length rs')%nat) by (destruct rs'; [done|cbn; lia]).
    apply (IH (S call) (Some r) _ (rs ++ rs')); [done|by apply Forall_app| |lia|left; by apply (Hb r)].
    rewrite filter_app, length_app, Em. lia.
Qed.

(** ** The output loop *)

Lemma output_loop_sound fuel repo s f m ip ps call p emitted rs l l0 :
  answers repo -> taken rs p -> Forall (read_from repo) rs -> mapR (summarize_audit_event ip) (filter_audit_events rs f) = Ok l0 ->
  output_loop fuel repo s f m ip ps call p emitted = (l, Ok tt) ->
  exists rs', linked None rs' /\ Forall (read_from repo) rs' /\ _event_hash (last_or None rs') = last_event_hash s /\
    mapR (summarize_audit_event ip) (filter_audit_events rs' f) = Ok (l0 ++ l).
Proof.
  intros Ha. revert call p emitted rs l l0. induction fuel as [|fuel IH]; intros call p emitted rs l l0 Ht Hread El0 E; cbn [output_loop] in E.
  all: destruct (Z.ltb_spec (_sequence p) (last_sequence s)).
  2, 4: injection E as <- E; apply raise_if_Ok in E; apply orb_false_iff in E as [E%negb_false_iff%bool_decide_eq_true _];
    destruct Ht as [Hl ->]; exists rs; rewrite app_nil_r; done.
  - done.
  - assert (Hp : forall q, p = Some q -> record_ok q) by (intros q Eq; by eapply taken_ok).
    destruct (_load_verified_page repo call s p ps) as [[rs' invalid]|] eqn:El; [|done]. destruct invalid as [i|]; [done|].
    destruct (last rs') as [r|] eqn:Elast; [|done].
    destruct (page_taken repo call s p ps rs') as (Hl & Hread' & _); [|done|done|].
    { intros page Ep. destruct (Ha call (_sequence p) (last_sequence s) ps) as (page' & Ep' & Hok). by assert (page' = page) as <- by congruence. }
    destruct (summaries_total ip (filter_audit_events rs' f)) as (l1 & El1); [by eapply filter_ok, linked_ok|].
    rewrite (yield_events_Ok _ _ _ El1) in E.
    destruct (output_loop fuel repo s f m ip ps (S call) (Some r) _) as [l2 r2] eqn:Eo. injection E as <- ->.
    assert (Er : Some r = last_or p rs') by (unfold last_or; by rewrite Elast).
    pose proof (taken_more _ _ _ Ht Hl) as Ht'. rewrite <- Er in Ht'. rewrite app_assoc.
    eapply (IH (S call) (Some r)); [exact Ht'|by apply Forall_app| |exact Eo]. rewrite filter_app. by apply mapR_app.
Qed.

(** ** A repository that serves a ledger *)

(** On admitted arguments: the rows after a sequence and up to another one, in
    order, at most [limit] of them; the rows of a verified ledger are numbered
    from 1. *)
Record serves (repo : AuditReplayRepository) (s : AuditLedgerSnapshot) (rs : list AuditEventRecord) : Prop := {
  sv_snapshot : repo_snapshot repo = Ok s;
  sv_sequence : last_sequence s = Z.of_nat (length rs);
  sv_maximum : maximum_sequence s = if bool_decide (rs = []) then None else Some (Z.of_nat (length rs));
  sv_head : last_event_hash s = _event_hash (last rs);
  sv_pages : forall call after through limit, 0 <= after <= through -> 1 <= limit <= AUDIT_REPLAY_PAGE_SIZE ->
    load_page repo call after through limit =
    Ok (RecordExact ∘ record_object <$> take (Z.to_nat limit) (drop (Z.to_nat after) (take (Z.to_nat through) rs)));
}.

Lemma served_page repo s rs rest p call ps :
  serves repo s (rs ++ rest) -> taken rs p -> linked None (rs ++ rest) -> NoDup (idempotency_key <$> (rs ++ rest)) ->
  1 <= ps <= AUDIT_REPLAY_PAGE_SIZE -> _load_verified_page repo call s p ps = Ok (take (Z.to_nat ps) rest, None).
Proof.
  intros Hs Ht Hl Hn Hps. pose proof (taken_sequence _ _ Ht) as Hseq. apply linked_app in Hl as [Hl1 Hl2].
  rewrite <- (take_drop (Z.to_nat ps) rest) in Hl2, Hn. rewrite fmap_app in Hn. apply NoDup_app in Hn as (Hn1 & Hd & Hn2). rewrite fmap_app in Hn2, Hd.
  apply NoDup_app in Hn2 as (Hn2 & _ & _). apply linked_app in Hl2 as [Hl2 _]. rewrite <- (proj2 Ht) in Hl2.
  apply page_accepted; [| |by intros; eapply taken_ok|done|done| |].
  - rewrite (sv_pages _ _ _ Hs), Hseq, (sv_sequence _ _ _ Hs), !Nat2Z.id by (rewrite ?Hseq, ?(sv_sequence _ _ _ Hs), ?length_app; lia). rewrite (take_ge (rs ++ rest)) by lia. by rewrite drop_app_length.
  - rewrite length_take. lia.
  - intros q Eq Hk. apply (Hd (idempotency_key q)); [|set_solver]. destruct Ht as [_ ->]. unfold last_or in Eq. destruct (last rs) eqn:El; [|done].
    injection Eq as ->. apply list_elem_of_fmap_2. by apply last_Some_elem_of.
  - intros r Er. pose proof (linked_sequence _ _ Hl2) as H2. unfold last_or in H2. rewrite Er in H2. cbn [_sequence] in H2.
    rewrite H2, Hseq, length_take, (sv_sequence _ _ _ Hs), length_app. lia.
Qed.

(** Both loops over the rows that are left. *)
Lemma served_loops fuel repo s f ps ip rs rest p call matched emitted m l :
  serves repo s (rs ++ rest) -> taken rs p -> linked None (rs ++ rest) -> NoDup (idempotency_key <$> (rs ++ rest)) -> 1 <= ps <= AUDIT_REPLAY_PAGE_SIZE ->
  (length rest <= fuel)%nat -> mapR (summarize_audit_event ip) (filter_audit_events rest f) = Ok l ->
  let n := Z.of_nat (length (filter_audit_events rest f)) in
  scan_loop fuel repo s f ps call p matched = Ok (ScanDone (last_or p rest) (matched + n)) /\
  (m = emitted + n -> output_loop fuel repo s f m ip ps call p emitted = (l, Ok tt)).
Proof.
  revert rs rest p call matched emitted l. induction fuel as [|fuel IH]; intros rs rest p call matched emitted l Hs Ht Hl Hn Hps Hf El; cbn [scan_loop output_loop];
    pose proof (taken_sequence _ _ Ht) as Hseq; pose proof (sv_sequence _ _ _ Hs) as Hlen; rewrite length_app in Hlen.
  all: assert (Hdone : rest = [] -> (_sequence p <? last_sequence s) = false /\ l = [] /\ _event_hash p = last_event_hash s).
  1, 3: intros ->; cbn in El, Hlen; split_and!; [apply Z.ltb_ge; lia|congruence|];
    rewrite (sv_head _ _ _ Hs), app_nil_r, (proj2 Ht); unfold last_or; by destruct (last rs).
  all: destruct rest as [|x rest]; [destruct (Hdone eq_refl) as (-> & -> & Eh); cbn [filter_audit_events List.filter length last_or last]; rewrite Z.add_0_r; split; [done|];
    intros ->; rewrite bool_decide_eq_true_2, Z.add_0_r, Z.eqb_refl by done; done|clear Hdone].
  - cbn in Hf. lia.
  - cbn [length] in Hlen, Hf. rewrite (proj2 (Z.ltb_lt _ _)) by lia. rewrite (served_page repo s rs (x :: rest) p call ps Hs Ht Hl Hn ltac:(lia)). cbn [mbind res_bind].
    set (page := take (Z.to_nat ps) (x :: rest)). set (rest' := drop (Z.to_nat ps) (x :: rest)).
    assert (E : x :: rest = page ++ rest') by (symmetry; apply take_drop).
    assert (Hpage : exists r, last page = Some r).
    { subst page. replace (Z.to_nat ps) with (S (Z.to_nat ps - 1)) by lia. cbn [take]. rewrite last_cons. destruct (last _); by eexists. }
    destruct Hpage as (r & Er). rewrite Er. rewrite E in *. clearbody page rest'.
    rewrite filter_app in *. apply mapR_Ok, Forall2_app_inv_l in El as (l1 & l2 & El1%mapR_Ok & El2%mapR_Ok & ->).
    rewrite (yield_events_Ok _ _ _ El1). rewrite app_assoc in Hs, Hl, Hn.
    assert (Hlk : linked p page) by (rewrite (proj2 Ht); by apply linked_app in Hl as [[_ Hl]%linked_app _]).
    assert (Er' : Some r = last_or p page) by (unfold last_or; by rewrite Er).
    pose proof (taken_more _ _ _ Ht Hlk) as Ht'. rewrite <- Er' in Ht'.
    assert (Hlen' : (length rest' <= fuel)%nat).
    { apply (f_equal length) in E. rewrite length_app in E. cbn in E. destruct page; [done|]. cbn in E. lia. }
    destruct (IH (rs ++ page) rest' (Some r) (S call) (matched + Z.of_nat (length (filter_audit_events page f)))
      (emitted + Z.of_nat (length (filter_audit_events page f))) l2) as [IH1 IH2]; [done..|]. rewrite IH1.
    rewrite length_app, Nat2Z.inj_add, last_or_app, <- Er'. split; [do 2 f_equal; lia|]. intros ->. rewrite IH2 by lia. done.
Qed.

(** Over a repository that serves a verified ledger, with pages of any
    admitted size, the scan reports what replaying the whole ledger reports, and
    the output pass then yields exactly its events. *)
Theorem paged_replay_complete likes rs h repo s f ps ps' ip :
  Forall like_ok likes -> _normalize_and_verify_audit_chain likes = Ok (rs, ValidAuditChain h) -> serves repo s rs ->
  1 <= ps <= AUDIT_REPLAY_PAGE_SIZE -> 1 <= ps' <= AUDIT_REPLAY_PAGE_SIZE ->
  exists scan, scan_audit_replay repo f ps = Ok scan /\
    match replay_audit_evidence likes f ip with
    | Ok (ValidAuditReplayReport ledger _ events) =>
        report scan = ValidAuditReplayReport ledger f [] /\ iter_verified_replay_events repo scan ip ps' = (events, Ok tt)
    | Ok (NotFoundAuditReplayReport ledger _) => report scan = NotFoundAuditReplayReport ledger f
    | _ => False
    end.
Proof.
  intros Hok Ev Hs Hps Hps'. destruct (verified_linked _ _ _ Hok Ev) as (_ & Hl & Hn & Eh).
  assert (Elast : last_or None rs = last rs) by (unfold last_or; by destruct (last rs)).
  destruct (summaries_total ip (filter_audit_events rs f)) as (l & El); [by eapply filter_ok, linked_ok|].
  set (n := Z.of_nat (length (filter_audit_events rs f))).
  assert (Hloop : forall ps, 1 <= ps <= AUDIT_REPLAY_PAGE_SIZE ->
    scan_loop (Z.to_nat (last_sequence s)) repo s f ps 0 None 0 = Ok (ScanDone (last_or None rs) (0 + n)) /\
    (n = 0 + n -> output_loop (Z.to_nat (last_sequence s)) repo s f n ip ps 0 None 0 = (l, Ok tt))).
  { intros ps0 H0. apply (served_loops _ _ _ _ _ _ []); [done|done|done|done|done| |done]. rewrite (sv_sequence _ _ _ Hs). lia. }
  unfold scan_audit_replay, _require_page_size. rewrite (proj2 (Z.leb_le 1 ps)), (proj2 (Z.leb_le ps _)) by lia.
  cbn [andb negb raise_if mbind res_bind]. rewrite (sv_snapshot _ _ _ Hs). cbn [mbind res_bind].
  assert (_snapshot_inconsistency s = None) as ->.
  { unfold _snapshot_inconsistency. rewrite (sv_maximum _ _ _ Hs), (sv_sequence _ _ _ Hs). destruct rs as [|r rs']; [done|].
    rewrite (bool_decide_eq_false_2 (r :: rs' = [])) by done. rewrite (proj2 (Z.eqb_neq _ 0)) by (cbn; lia). by rewrite bool_decide_eq_true_2. }
  rewrite (proj1 (Hloop ps ltac:(lia))). cbn [mbind res_bind]. rewrite Elast, (sv_head _ _ _ Hs), bool_decide_eq_true_2 by done. cbn [negb].
  eexists. split; [done|]. unfold replay_audit_evidence. rewrite Ev. cbn [mbind res_bind]. rewrite El. cbn [mbind res_bind].
  assert (Elen : bool_decide (length l = 0%nat) = (0 + n =? 0)).
  { subst n. rewrite (mapR_length _ _ _ El). case_bool_decide as E; [by rewrite E|]. symmetry. apply Z.eqb_neq. lia. }
  rewrite Elen, Eh, Elast, (sv_sequence _ _ _ Hs). destruct (negb (is_all f) && (0 + n =? 0)) eqn:Ec; [done|].
  split; [done|]. unfold iter_verified_replay_events, _require_page_size. rewrite (proj2 (Z.leb_le 1 ps')), (proj2 (Z.leb_le ps' _)) by lia.
  cbn [andb negb raise_if report scan_snapshot matched_event_count]. by apply (proj2 (Hloop ps' ltac:(lia))).
Qed.

(** C21: whatever a repository answers, a scan returns a report; when the report
    is not one of an invalid ledger, a chain of verified events from the genesis
    to the frozen head was read from it.  A later output pass that completes,
    over a repository that may answer anything else, has read a chain that links
    to the same head and yields the summaries of its matching events, all of
    them and in order; and that chain is the one the scan verified when no two
    of the byte strings hashed for the two chains' records have one digest. *)
Theorem paged_output_verified repo repo' s f ps ps' ip :
  repo_snapshot repo = Ok s -> AuditLedgerSnapshot_check s = Ok tt -> 1 <= ps <= AUDIT_REPLAY_PAGE_SIZE ->
  answers repo -> answers repo' ->
  exists scan, scan_audit_replay repo f ps = Ok scan /\
    ((exists ledger, report scan = InvalidLedgerAuditReplayReport ledger f) \/
     exists rs, linked None rs /\ Forall (read_from repo) rs /\ Z.of_nat (length rs) = last_sequence s /\ _event_hash (last rs) = last_event_hash s /\
       matched_event_count scan = Z.of_nat (length (filter_audit_events rs f)) /\
       forall l, iter_verified_replay_events repo' scan ip ps' = (l, Ok tt) ->
         exists rs', linked None rs' /\ Forall (read_from repo') rs' /\ _event_hash (last rs') = last_event_hash s /\
           mapR (summarize_audit_event ip) (filter_audit_events rs' f) = Ok l /\
           (collision_free (ledger_bytes rs ++ ledger_bytes rs') -> rs' = rs)).
Proof.
  intros Es Hs Hps Ha Ha'. unfold scan_audit_replay, _require_page_size. rewrite (proj2 (Z.leb_le 1 ps)), (proj2 (Z.leb_le ps _)) by lia.
  cbn [andb negb raise_if mbind res_bind]. rewrite Es. cbn [mbind res_bind].
  destruct (_snapshot_inconsistency s); [eexists; split; [done|]; left; by eexists|].
  unfold AuditLedgerSnapshot_check in Hs. apply bind_Ok in Hs as ([] & Hs%raise_if_Ok%negb_false_iff & _). apply andb_true_iff' in Hs as [Hs%Z.leb_le _].
  destruct (scan_loop_sound (Z.to_nat (last_sequence s)) repo s f ps 0 None 0 []) as (e & -> & He); [done|done|constructor|done|cbn; lia|by right|].
  cbn [mbind res_bind]. destruct e as [? ? ?|p m]; [eexists; split; [done|]; left; by eexists|].
  destruct He as (rs & [Hl Hp] & Hread & Em & Hlen). destruct Hlen as [Hlen|Hlen]; [lia|].
  case_bool_decide as Eh; cbn [negb]; [|eexists; split; [done|]; left; by eexists].
  assert (Elast : forall rs, last_or None rs = last rs) by (intros l; unfold last_or; by destruct (last l)).
  eexists. split; [done|]. right. exists rs. subst p. rewrite Elast in Eh.
  split_and!; [done..|]. intros l E. unfold iter_verified_replay_events in E. cbn [report scan_snapshot matched_event_count] in E.
  destruct (_require_page_size ps'); [|done]. destruct (negb (is_all f) && (m =? 0)); [done|].
  destruct (output_loop_sound _ _ _ _ _ _ _ _ _ _ [] _ [] Ha' (conj I eq_refl) (List.Forall_nil _) eq_refl E) as (rs' & Hl' & Hread' & Eh' & Esum).
  rewrite Elast in Eh'. exists rs'. split_and!; [done..|]. intros Hfree. symmetry.
  eapply linked_head_eq; [exact Hfree|done|done| | |rewrite !Elast; congruence]; intros b Hb; apply elem_of_app; [by left|by right].
Qed.
End pages.
