(* ===== verification/AuditCheckpoint.v ===== *)
(** * Checkpoints of the audit chain

    Models [audit_replay/checkpoint.py]: the statement of a chain tip, its
    digest, and the verification of a bounded successor of a checkpoint. *)

From stdpp Require Import base gmap sets list sorting strings.
From Stdlib Require Import ZArith Lia.
From S2P Require Import Prelude Text PyFloat CanonicalJson Hashing JsonLoads JsonNumbers JsonText JsonRoundtrip Instants.
From S2P Require Import AuditEvents AuditChain AuditFacts AuditChainFacts AuditLedger AuditPages.

Section checkpoint.
Context `{Sha256}.

Definition AUDIT_CHECKPOINT_STATEMENT_SCHEMA : pystr := u "ci-audit-checkpoint-statement/v1".
Definition AUDIT_SUCCESSOR_CHAIN_SCHEMA : pystr := u "ci-audit-successor-chain/v1".
Definition MAX_AUDIT_SUCCESSOR_EVENTS : Z := 4096.

(** A [datetime]: its instant, and its offset in microseconds when it has one. *)
Record zoned := { z_instant : Z; z_offset : option Z }.

Record AuditChainTipStatement := {
  database_identity_digest : pystr; artifact_digest : pystr; retained_sequence : Z;
  last_event_id : pystr; tip_event_hash : pystr; observed_at : zoned;
}.

Definition _require_digest (value name : pystr) : res unit :=
  raise_if (negb (is_sha256_hex value)) (ValueError (name ++ u " digest is invalid")).

(** [sha256:[0-9a-f]{64}] *)
Definition is_artifact_digest (value : pystr) : bool := startswith (u "sha256:") value && is_sha256_hex (drop 7 value).

Definition _require_utc_millisecond (value : zoned) (name : pystr) : res unit :=
  raise_if (negb (bool_decide (z_offset value = Some 0)) || negb (z_instant value mod 1000 =? 0))
    (ValueError (name ++ u " must be canonical UTC milliseconds")).

Definition AuditChainTipStatement_check (t : AuditChainTipStatement) : res unit :=
  _require_digest (database_identity_digest t) (u "audit checkpoint database identity") ;;
  raise_if (negb (is_artifact_digest (artifact_digest t))) (ValueError (u "audit checkpoint artifact digest is invalid")) ;;
  raise_if (negb (is_safe_json_integer (VInt (retained_sequence t))) || (retained_sequence t <? 1))
    (ValueError (u "audit checkpoint retained sequence is invalid")) ;;
  raise_if (negb (is_audit_event_id (VStr (last_event_id t)))) (ValueError (u "audit checkpoint event id is invalid")) ;;
  _require_digest (tip_event_hash t) (u "audit checkpoint event") ;;
  raise_if (negb (bool_decide (last_event_id t = u "audit_" ++ take 32 (tip_event_hash t))))
    (ValueError (u "audit checkpoint event id does not match event hash")) ;;
  _require_utc_millisecond (observed_at t) (u "audit checkpoint observation").

Definition AuditChainTipStatement_mapping (t : AuditChainTipStatement) : pyval :=
  obj [("artifactDigest", VStr (artifact_digest t));
       ("databaseIdentityDigest", VStr (database_identity_digest t));
       ("lastEventHash", VStr (tip_event_hash t));
       ("lastEventId", VStr (last_event_id t));
       ("ledgerSchema", VStr AUDIT_EVENT_SCHEMA_VERSION);
       ("observedAt", VStr (isoformat_ms (z_instant (observed_at t))));
       ("retainedSequence", VInt (retained_sequence t));
       ("schemaVersion", VStr AUDIT_CHECKPOINT_STATEMENT_SCHEMA)]%string.

Definition statement_digest (t : AuditChainTipStatement) : res pystr := hash_mapping (AuditChainTipStatement_mapping t).

Inductive AuditSuccessorVerification :=
  | ValidAuditSuccessor (event_count last_sequence : Z) (last_event_hash successor_chain_digest : pystr)
  | InvalidAuditSuccessor (reason : pystr) (audit_event_id : option pystr).

Definition build_audit_chain_tip_statement (scan : AuditReplayScan) (database_identity_digest artifact_digest : pystr)
    (observed_at : zoned) : res AuditChainTipStatement :=
  raise_if (match report scan with ValidAuditReplayReport _ _ _ => false | _ => true end)
    (ValueError (u "audit checkpoint requires a complete valid replay scan")) ;;
  let error := ValueError (u "audit checkpoint requires a non-empty exact replay head") in
  match last_event scan with
  | None => Raise error
  | Some event =>
      raise_if (negb (sequence event =? last_sequence (scan_snapshot scan)) ||
                negb (bool_decide (Some (event_hash event) = last_event_hash (scan_snapshot scan)))) error ;;
      let t := {| database_identity_digest := database_identity_digest; artifact_digest := artifact_digest;
                  retained_sequence := sequence event; last_event_id := audit_event_id event;
                  tip_event_hash := event_hash event; observed_at := observed_at |} in
      AuditChainTipStatement_check t ;; Ok t
  end.

(** [value.encode("ascii")]. *)
Definition ascii_encode (value : pystr) : res (list Z) :=
  if forallb (fun c => c <? 128) value then Ok value else Raise UnicodeEncodeError.

(** [digest.update(value.encode("ascii") + b"\x00")], on the bytes so far. *)
Definition update (digest : list Z) (value : pystr) : res (list Z) :=
  b ← ascii_encode value; Ok (digest ++ b ++ [0]).

Fixpoint successor_loop (expected_sequence : Z) (expected_previous_hash : pystr) (idempotency_keys : gset pystr)
    (digest : list Z) (previous : option AuditEventRecord) (count : Z) (records : list AuditEventRecordLike)
    : res AuditSuccessorVerification :=
  match records with
  | [] =>
      match previous with
      | None => Ok (InvalidAuditSuccessor (u "audit successor is empty") None)
      | Some p => Ok (ValidAuditSuccessor count (sequence p) (event_hash p) (sha256_hex digest))
      end
  | raw_record :: rest =>
      decoded ← invalid_of_error (audit_event_from_mapping raw_record);
      match decoded with
      | inr i => Ok (InvalidAuditSuccessor (reason i) (invalid_event_id i))
      | inl record =>
          if negb (sequence record =? expected_sequence) then
            Ok (InvalidAuditSuccessor (u "expected successor sequence " ++ int_str expected_sequence ++ u ", got " ++ int_str (sequence record))
                  (Some (audit_event_id record)))
          else if negb (bool_decide (previous_event_hash record = Some expected_previous_hash)) then
            Ok (InvalidAuditSuccessor (u "audit successor previous hash does not match") (Some (audit_event_id record)))
          else
            invalid ← verify_audit_event_integrity (RecordExact (record_object record));
            match invalid with
            | Some i => Ok (InvalidAuditSuccessor (reason i) (invalid_event_id i))
            | None =>
                if bool_decide (idempotency_key record ∈ idempotency_keys) then
                  Ok (InvalidAuditSuccessor (u "duplicate idempotency key inside audit successor") (Some (audit_event_id record)))
                else
                  digest ← update digest (int_str (sequence record));
                  digest ← update digest (event_hash record);
                  successor_loop (expected_sequence + 1) (event_hash record) ({[idempotency_key record]} ∪ idempotency_keys)
                    digest (Some record) count rest
            end
      end
  end.

Definition verify_audit_successor_chain (checkpoint : AuditChainTipStatement) (records : list AuditEventRecordLike)
    : res AuditSuccessorVerification :=
  let bounded_records := take (Z.to_nat (MAX_AUDIT_SUCCESSOR_EVENTS + 1)) records in
  let count := Z.of_nat (length bounded_records) in
  if negb ((1 <=? count) && (count <=? MAX_AUDIT_SUCCESSOR_EVENTS))
  then Ok (InvalidAuditSuccessor (u "audit successor count is outside its bound") None)
  else
    digest ← update [] AUDIT_SUCCESSOR_CHAIN_SCHEMA;
    statement ← statement_digest checkpoint;
    digest ← update digest statement;
    successor_loop (retained_sequence checkpoint + 1) (tip_event_hash checkpoint) ∅ digest None count bounded_records.

(** ** The bytes of the successor digest *)

(** Segments, each closed by a zero byte. *)
Definition zero_closed (l : list pystr) : list Z := flat_map (fun s => s ++ [0]) l.

Definition successor_segments (rs : list AuditEventRecord) : list pystr :=
  flat_map (fun r => [int_str (sequence r); event_hash r]) rs.

Lemma zero_closed_inj l l' :
  Forall (fun s => 0 ∉ s) l -> Forall (fun s => 0 ∉ s) l' -> zero_closed l = zero_closed l' -> l = l'.
Proof.
  unfold zero_closed. intros Hl. revert l'. induction Hl as [|s l Hs _ IH]; intros l' Hl' E; destruct Hl' as [|s' l' Hs' Hl']; cbn [flat_map] in E; [done| | |].
  - by destruct s'.
  - by destruct s.
  - rewrite <- !app_assoc in E. cbn [app] in E.
    assert (Es : s = s' /\ flat_map (fun s => s ++ [0]) l = flat_map (fun s => s ++ [0]) l').
    { revert s' Hs' E. clear -Hs. induction s as [|c s IH]; intros [|c' s'] Hs' E; cbn [app] in E; [by injection E| | |].
      - injection E as <- _. by apply not_elem_of_cons in Hs' as [? _].
      - injection E as -> _. by apply not_elem_of_cons in Hs as [? _].
      - injection E as -> E. apply not_elem_of_cons in Hs as [_ Hs], Hs' as [_ Hs']. destruct (IH Hs s' Hs' E) as [-> ?]. done. }
    destruct Es as [-> Es]. f_equal. by apply IH.
Qed.

Definition plain (s : pystr) : Prop := Forall (fun c => 0 < c < 128) s.

Lemma plain_update digest s : plain s -> update digest s = Ok (digest ++ zero_closed [s]).
Proof.
  intros Hs. unfold update, ascii_encode, zero_closed. cbn [flat_map]. rewrite app_nil_r.
  assert (forallb (fun c => c <? 128) s = true) as ->; [|done]. apply forallb_elem. intros c Hc. unfold plain in Hs. rewrite Forall_forall in Hs. specialize (Hs c Hc). lia.
Qed.

Lemma plain_no_zero s : plain s -> 0 ∉ s.
Proof. intros Hs H0. unfold plain in Hs. rewrite Forall_forall in Hs. specialize (Hs 0 H0). lia. Qed.

Lemma hex_plain h : is_sha256_hex h = true -> plain h.
Proof.
  unfold is_sha256_hex. intros [_ Hh]%andb_true_iff'. rewrite forallb_elem in Hh. apply Forall_forall. intros c Hc%Hh. unfold is_lower_hex in Hc. lia.
Qed.

Lemma int_str_plain z : plain (int_str z).
Proof.
  apply Forall_forall. intros c Hc. unfold int_str in Hc. destruct (Z.ltb_spec z 0).
  - apply elem_of_cons in Hc as [->|Hc]; [lia|]. apply nat_str_digit in Hc; lia.
  - apply nat_str_digit in Hc; lia.
Qed.

Lemma segments_plain rs : Forall record_ok rs -> Forall plain (successor_segments rs).
Proof.
  induction 1 as [|r rs Hr _ IH]; [constructor|]. cbn. constructor; [apply int_str_plain|]. constructor; [|done].
  apply hex_plain, (rf_event r), record_ok_facts, Hr.
Qed.

(** ** Successors *)

(** The records a successor decodes to, linked to the record at the tip. *)
Definition succeeds (r : AuditEventRecord) (keys : gset pystr) (likes : list AuditEventRecordLike) (rs : list AuditEventRecord) : Prop :=
  Forall2 decodes likes rs /\ linked (Some r) rs /\ NoDup (idempotency_key <$> rs) /\ Forall (fun x => idempotency_key x ∉ keys) rs.

Lemma succeeds_cons r keys like likes rs :
  succeeds r keys (like :: likes) rs <->
  exists x rs', rs = x :: rs' /\ decodes like x /\ record_ok x /\ content_ok x /\ sequence x = sequence r + 1 /\
    previous_event_hash x = Some (event_hash r) /\ (idempotency_key x ∉ keys) /\ succeeds x ({[idempotency_key x]} ∪ keys) likes rs'.
Proof.
  unfold succeeds. split.
  - intros (Hd & Hl & Hn & Hk). inversion Hd as [|? x ? rs' Hx Hd']; subst. destruct Hl as (Hr & Hc & Hs & Hp & Hl).
    rewrite fmap_cons in Hn. apply NoDup_cons in Hn as [Hnx Hn]. apply Forall_cons in Hk as [Hkx Hk]. exists x, rs'. split_and!; try done.
    rewrite Forall_forall in Hk |- *. intros y Hy. rewrite elem_of_union, elem_of_singleton. intros [E|Hin]; [|by eapply Hk].
    apply Hnx. rewrite <- E. by apply list_elem_of_fmap_2.
  - intros (x & rs' & -> & Hx & Hr & Hc & Hs & Hp & Hk & Hd & Hl & Hn & Hks). rewrite Forall_forall in Hks. split_and!.
    + by constructor.
    + by split_and!.
    + rewrite fmap_cons. apply NoDup_cons. split; [|done]. intros (y & E & Hy)%list_elem_of_fmap. apply (Hks y Hy). set_solver.
    + apply Forall_cons. split; [done|]. apply Forall_forall. intros y Hy. specialize (Hks y Hy). set_solver.
Qed.

Lemma successor_loop_spec r keys dg prev cnt likes :
  Forall like_ok likes ->
  exists v, successor_loop (sequence r + 1) (event_hash r) keys dg prev cnt likes = Ok v /\
    match v with
    | ValidAuditSuccessor c q h d => exists rs p, succeeds r keys likes rs /\ last_or prev rs = Some p /\
        c = cnt /\ q = sequence p /\ h = event_hash p /\ d = sha256_hex (dg ++ zero_closed (successor_segments rs))
    | InvalidAuditSuccessor _ _ => (likes = [] /\ prev = None) \/ forall rs, ~ succeeds r keys likes rs
    end.
Proof.
  intros Hl. revert r keys dg prev. induction Hl as [|like likes Hlike _ IH]; intros r keys dg prev; cbn [successor_loop].
  { destruct prev as [p|]; eexists; (split; [done|]); [|by left]. exists [], p. split_and!; try done; [repeat constructor|].
    cbn. by rewrite app_nil_r. }
  pose proof (decode_errors _ Hlike) as He. destruct (audit_event_from_mapping like) as [x|[]] eqn:Ex; try done; cbn [invalid_of_error mbind res_bind].
  2:{ eexists. split; [done|]. right. intros rs (x & rs' & _ & Hx & _)%succeeds_cons. unfold decodes in Hx. congruence. }
  assert (Hun : forall rs, succeeds r keys (like :: likes) rs -> exists rs', rs = x :: rs' /\ content_ok x /\ sequence x = sequence r + 1 /\
    previous_event_hash x = Some (event_hash r) /\ (idempotency_key x ∉ keys) /\ succeeds x ({[idempotency_key x]} ∪ keys) likes rs').
  { intros rs (x' & rs' & -> & Hx & _ & Hc & Hs & Hp & Hk & Hr)%succeeds_cons. unfold decodes in Hx. assert (x' = x) as -> by congruence. by exists rs'. }
  pose proof (decoded_record_ok _ _ Hlike Ex) as Hx.
  destruct (Z.eqb_spec (sequence x) (sequence r + 1)) as [Es|Es]; cbn [negb]; [|eexists; split; [done|]; right; intros rs (rs' & Hr)%Hun; naive_solver].
  case_bool_decide as Ep; cbn [negb]; [|eexists; split; [done|]; right; intros rs (rs' & Hr)%Hun; naive_solver].
  unfold verify_audit_event_integrity. rewrite (decode_record x Hx). cbn [invalid_of_error mbind res_bind].
  destruct (verify_content x Hx) as (v & -> & Hv). cbn [mbind res_bind]. destruct v as [i|].
  { eexists. split; [done|]. right. intros rs (rs' & _ & Hc & _)%Hun. by apply Hv in Hc. }
  case_bool_decide as Ek; [eexists; split; [done|]; right; intros rs (rs' & Hr)%Hun; naive_solver|].
  rewrite (plain_update _ _ (int_str_plain _)). cbn [mbind res_bind].
  rewrite (plain_update _ (event_hash x)) by (apply hex_plain, (rf_event x), record_ok_facts, Hx). cbn [mbind res_bind]. rewrite <- Es.
  destruct (IH x ({[idempotency_key x]} ∪ keys) ((dg ++ zero_closed [int_str (sequence x)]) ++ zero_closed [event_hash x]) (Some x)) as (v & -> & Hr).
  exists v. split; [done|]. destruct v as [c q h d|].
  - destruct Hr as (rs & p & Hr & Hp & -> & -> & -> & ->). exists (x :: rs), p. rewrite last_or_cons. split_and!; try done.
    + apply succeeds_cons. exists x, rs. split_and!; try done. by apply Hv.
    + f_equal. rewrite <- !app_assoc. unfold zero_closed, successor_segments. cbn [flat_map app]. by rewrite <- !app_assoc.
  - destruct Hr as [[_ ?]|Hr]; [done|]. right. intros rs (rs' & -> & _ & _ & _ & _ & H')%Hun. by eapply Hr.
Qed.

(** The statement of the tip of a chain. *)
Definition tip_of (t : AuditChainTipStatement) (r : AuditEventRecord) : Prop :=
  retained_sequence t = sequence r /\ tip_event_hash t = event_hash r.

Lemma statement_digest_hex t d : statement_digest t = Ok d -> is_sha256_hex d = true.
Proof. apply hash_mapping_hex. Qed.

(** The whole text under the successor digest. *)
Definition successor_text (statement : pystr) (rs : list AuditEventRecord) : list Z :=
  zero_closed (AUDIT_SUCCESSOR_CHAIN_SCHEMA :: statement :: successor_segments rs).

Lemma schema_plain : plain AUDIT_SUCCESSOR_CHAIN_SCHEMA.
Proof. unfold plain. vm_compute. repeat constructor. Qed.

Lemma verify_successor_spec t r sd likes :
  tip_of t r -> statement_digest t = Ok sd -> Forall like_ok likes -> 1 <= Z.of_nat (length likes) <= MAX_AUDIT_SUCCESSOR_EVENTS ->
  exists v, verify_audit_successor_chain t likes = Ok v /\
    match v with
    | ValidAuditSuccessor c q h d => exists rs p, succeeds r ∅ likes rs /\ last rs = Some p /\
        c = Z.of_nat (length rs) /\ q = sequence p /\ h = event_hash p /\ d = sha256_hex (successor_text sd rs)
    | InvalidAuditSuccessor _ _ => forall rs, ~ succeeds r ∅ likes rs
    end.
Proof.
  intros [Es Eh] Esd Hl Hlen. unfold verify_audit_successor_chain. rewrite take_ge by (unfold MAX_AUDIT_SUCCESSOR_EVENTS in *; lia).
  rewrite (proj2 (Z.leb_le 1 _)), (proj2 (Z.leb_le _ MAX_AUDIT_SUCCESSOR_EVENTS)) by lia. cbn [andb negb].
  rewrite (plain_update _ _ schema_plain). cbn [mbind res_bind]. rewrite Esd. cbn [mbind res_bind].
  rewrite (plain_update _ sd) by (by eapply hex_plain, statement_digest_hex). cbn [mbind res_bind]. rewrite Es, Eh.
  destruct (successor_loop_spec r ∅ (([] ++ zero_closed [AUDIT_SUCCESSOR_CHAIN_SCHEMA]) ++ zero_closed [sd]) None (Z.of_nat (length likes)) likes Hl) as (v & -> & Hv).
  exists v. split; [done|]. destruct v as [c q h d|].
  - destruct Hv as (rs & p & Hs & Hp & -> & -> & -> & ->). exists rs, p. split_and!; try done.
    + unfold last_or in Hp. by destruct (last rs).
    + by rewrite (Forall2_length _ _ _ (proj1 Hs)).
    + f_equal. unfold successor_text, zero_closed. cbn [flat_map app]. by rewrite app_nil_r, <- !app_assoc.
  - destruct Hv as [[-> _]|Hv]; [cbn in Hlen; lia|done].
Qed.

Lemma decodes_fun likes rs rs' : Forall2 decodes likes rs -> Forall2 decodes likes rs' -> rs = rs'.
Proof.
  intros Hd. revert rs'. induction Hd as [|like x likes rs Hx _ IH]; intros rs' Hd'; inversion Hd' as [|? y ? rs2 Hy Hd2]; subst; [done|].
  unfold decodes in *. f_equal; [congruence|by apply IH].
Qed.

(** The hashes of linked records determine them. *)
Lemma segments_eq bs rs rs' p p' :
  collision_free bs -> ledger_bytes rs ⊆ bs -> ledger_bytes rs' ⊆ bs ->
  linked p rs -> linked p' rs' -> successor_segments rs = successor_segments rs' -> rs = rs'.
Proof.
  intros Hfree. revert p p' rs'. induction rs as [|x rs IH]; intros p p' [|y rs'] S S' Hl Hl' E; [done|discriminate E|discriminate E|].
  cbn in E. injection E as _ Eh E. destruct Hl as (Hr & Hc & _ & _ & Hl), Hl' as (Hr' & Hc' & _ & _ & Hl').
  assert (x = y) as -> by (apply (event_hash_eq bs Hfree); try done; intros b Hb; [apply S|apply S']; apply elem_of_app; by left).
  f_equal. apply (IH (Some y) (Some y)); try done; intros b Hb; [apply S|apply S']; apply elem_of_app; by right.
Qed.

(** The bytes hashed for a successor: those of its records, and the text of the
    whole. *)
Definition successor_bytes (sd : pystr) (rs : list AuditEventRecord) : list (list Z) := successor_text sd rs :: ledger_bytes rs.

Lemma successor_text_eq t t' sd sd' p p' rs rs' :
  collision_free (successor_bytes sd rs ++ successor_bytes sd' rs') ->
  statement_digest t = Ok sd -> statement_digest t' = Ok sd' -> linked p rs -> linked p' rs' ->
  sha256_hex (successor_text sd rs) = sha256_hex (successor_text sd' rs') -> rs = rs' /\ sd = sd'.
Proof.
  intros Hfree Esd Esd' Hl Hl' E.
  assert (Et : successor_text sd rs = successor_text sd' rs') by (apply Hfree; [by left|apply elem_of_app; right; by left|exact E]).
  assert (Hz : forall t sd p rs, statement_digest t = Ok sd -> linked p rs ->
            Forall (fun s => 0 ∉ s) (AUDIT_SUCCESSOR_CHAIN_SCHEMA :: sd :: successor_segments rs)).
  { intros ? ? ? ? E1 H1. constructor; [apply plain_no_zero, schema_plain|]. constructor; [by eapply plain_no_zero, hex_plain, statement_digest_hex|].
    eapply Forall_impl; [eapply segments_plain, linked_ok; exact H1|]. apply plain_no_zero. }
  unfold successor_text in Et. apply zero_closed_inj in Et; [|by eapply Hz..]. injection Et as Es Eseg. split; [|exact Es].
  refine (segments_eq _ rs rs' p p' Hfree _ _ Hl Hl' Eseg); intros b Hb; apply elem_of_app; [left|right]; by right.
Qed.

Lemma hex_sublist h n : is_sha256_hex h = true -> is_unicode_scalar_string (take n h) = true.
Proof. intros Hh%sha256_hex_scalar. eapply scalar_part; [exact Hh|]. intros c Hc. rewrite <- (take_drop n h). apply elem_of_app. by left. Qed.

Lemma statement_total t : AuditChainTipStatement_check t = Ok tt -> exists d, statement_digest t = Ok d.
Proof.
  intros E. unfold AuditChainTipStatement_check, _require_digest, _require_utc_millisecond in E. inv_res.
  repeat match goal with H : raise_if _ _ = Ok _ |- _ => apply raise_if_Ok in H end.
  destruct (hash_mapping_total (AuditChainTipStatement_mapping t)) as (d & Ed & _); [|by exists d].
  apply jsonable_obj. cbn [forallb snd jsonable]. rewrite isoformat_scalar. unfold AUDIT_EVENT_SCHEMA_VERSION, AUDIT_CHECKPOINT_STATEMENT_SCHEMA. rewrite !scalar_u.
  repeat match goal with H : negb _ = false |- _ => apply negb_false_iff in H | H : _ || _ = false |- _ => apply orb_false_iff in H as [? ?] end.
  match goal with H : is_sha256_hex (database_identity_digest t) = true |- _ => rewrite (sha256_hex_scalar _ H) end.
  match goal with H : is_sha256_hex (tip_event_hash t) = true |- _ => rewrite (sha256_hex_scalar _ H); pose proof (hex_sublist _ 32 H) as Hs end.
  match goal with H : bool_decide (last_event_id t = _) = true |- _ => apply bool_decide_eq_true in H; rewrite H end.
  assert (is_unicode_scalar_string (u "audit_" ++ take 32 (tip_event_hash t)) = true) as ->
    by (unfold is_unicode_scalar_string in *; by rewrite forallb_app, Hs).
  match goal with H : is_artifact_digest _ = true |- _ => apply andb_true_iff' in H as [Hp Ha] end.
  assert (is_unicode_scalar_string (artifact_digest t) = true) as ->.
  { rewrite <- (take_drop 7 (artifact_digest t)). unfold is_unicode_scalar_string. rewrite forallb_app. apply sha256_hex_scalar in Ha.
    unfold is_unicode_scalar_string in Ha. rewrite Ha, andb_true_r. revert Hp. generalize (artifact_digest t). clear. intros s Hp.
    assert (E : take 7 s = u "sha256:"); [|rewrite E; done]. revert Hp. vm_compute (u "sha256:").
    do 7 (destruct s as [|? s]; [done|]; cbn [startswith]; intros [->%Z.eqb_eq Hp]%andb_true_iff'; revert Hp). done. }
  match goal with H : is_safe_json_integer _ = true |- _ => cbn in H; by rewrite H end.
Qed.

(** Verification of a successor decides whether its records continue the
    chain the checkpoint was built from: linked from the tip on, with the
    hashes of their contents and without a repeated key, at most 4096 of them.
    The digest it returns commits to the checkpoint and to every record: two
    successors with one digest are the same when no two of the byte strings
    hashed for them have one digest. *)
Theorem successor_chain_correct scan dbi art obs t rs r likes :
  build_audit_chain_tip_statement scan dbi art obs = Ok t -> last_event scan = Some r ->
  linked None rs -> last rs = Some r -> Forall like_ok likes ->
  1 <= Z.of_nat (length likes) <= MAX_AUDIT_SUCCESSOR_EVENTS ->
  match verify_audit_successor_chain t likes with
  | Ok (ValidAuditSuccessor c q h d) => exists rs',
      Forall2 decodes likes rs' /\ linked None (rs ++ rs') /\ NoDup (idempotency_key <$> rs') /\
      c = Z.of_nat (length rs') /\ q = Z.of_nat (length (rs ++ rs')) /\ Some h = _event_hash (last (rs ++ rs')) /\
      forall t' r' likes' rs2 c' q' h', tip_of t' r' -> AuditChainTipStatement_check t' = Ok tt -> Forall like_ok likes' ->
        1 <= Z.of_nat (length likes') <= MAX_AUDIT_SUCCESSOR_EVENTS -> Forall2 decodes likes' rs2 ->
        verify_audit_successor_chain t' likes' = Ok (ValidAuditSuccessor c' q' h' d) ->
        (forall sd sd', statement_digest t = Ok sd -> statement_digest t' = Ok sd' -> collision_free (successor_bytes sd rs' ++ successor_bytes sd' rs2)) ->
        rs2 = rs' /\ statement_digest t' = statement_digest t
  | Ok (InvalidAuditSuccessor _ _) =>
      forall rs', Forall2 decodes likes rs' -> linked None (rs ++ rs') -> ~ NoDup (idempotency_key <$> rs')
  | Raise _ => False
  end.
Proof.
  intros Eb Er Hl Hlast Hok Hlen. unfold build_audit_chain_tip_statement in Eb. apply bind_Ok in Eb as (? & _ & Eb). rewrite Er in Eb.
  apply bind_Ok in Eb as (? & _ & Eb). cbv zeta in Eb. apply bind_Ok in Eb as ([] & Hc & [= <-]). set (t := Build_AuditChainTipStatement _ _ _ _ _ _) in *.
  destruct (statement_total t Hc) as (sd & Esd).
  assert (Ht : tip_of t r) by done. assert (Elo : last_or None rs = Some r) by (unfold last_or; by rewrite Hlast).
  destruct (verify_successor_spec t r sd likes Ht Esd Hok Hlen) as (v & -> & Hv). destruct v as [c q h d|].
  - destruct Hv as (rs' & p & (Hd & Hlk & Hn & Hk) & Hp & -> & -> & -> & ->). exists rs'. pose proof (linked_sequence _ _ Hlk) as Hseq.
    pose proof (linked_sequence _ _ Hl) as Hseq0. unfold last_or in Hseq, Hseq0. rewrite Hp in Hseq. rewrite Hlast in Hseq0. cbn [_sequence] in Hseq, Hseq0.
    split_and!; [done|by apply linked_app; rewrite Elo|done|done|rewrite length_app; lia|rewrite last_app, Hp; done|].
    intros t' r' likes' rs2 c' q' h' Ht' Hc' Hok' Hlen' Hd2 Ev Hfree. destruct (statement_total t' Hc') as (sd' & Esd').
    destruct (verify_successor_spec t' r' sd' likes' Ht' Esd' Hok' Hlen') as (v & Ev' & Hv). rewrite Ev' in Ev. injection Ev as ->.
    destruct Hv as (rs3 & p3 & (Hd3 & Hlk3 & _) & _ & _ & _ & _ & Edig).
    specialize (Hfree sd sd' Esd Esd'). rewrite (decodes_fun _ _ _ Hd2 Hd3) in *. rewrite Esd, Esd'.
    destruct (successor_text_eq _ _ _ _ _ _ _ _ Hfree Esd Esd' Hlk Hlk3 Edig) as [-> ->]. done.
  - intros rs' Hd Hl' Hn. apply (Hv rs'). apply linked_app in Hl' as [_ Hl']. rewrite Elo in Hl'. split_and!; [done|done|done|]. apply Forall_true. intros y Hy. by apply not_elem_of_empty in Hy.
Qed.
End checkpoint.
