(* ===== verification/AuditScenario.v ===== *)
(** * A concrete audit ledger, the theorems applied *)

From stdpp Require Import base gmap sets list sorting strings.
From Stdlib Require Import ZArith Lia.
From S2P Require Import Prelude Text PyFloat CanonicalJson Hashing JsonLoads JsonNumbers JsonText JsonRoundtrip Instants.
From S2P Require Import AuditEvents AuditChain AuditFacts AuditChainFacts AuditLedger AuditPages AuditCheckpoint.

#[local] Existing Instance Sha256_checksum.
#[local] Remove Hints Sha256_fips : typeclass_instances.

(** A delivery of one repository, and a release without a scope. *)
Definition delivery : InputObject := {|
  io_idempotency_key := VStr (u "delivery-1"); io_subject_type := VStr (u "webhook-delivery"); io_subject_id := VStr (u "d1");
  io_event_type := VStr (u "received"); io_created_at := VStr (u "2026-07-16T10:00:00.000Z"); io_actor := VStr (u "github");
  io_payload := VDict 5 [(KStr (u "n"), VInt 1); (KStr (u "l"), VList 6 [VBool true; VNone])];
  io_installation_id := VInt 7; io_repository_id := VInt 9 |}.

Definition release : InputObject := {|
  io_idempotency_key := VStr (u "release-1"); io_subject_type := VStr (u "release-evidence"); io_subject_id := VStr (u "v1");
  io_event_type := VStr (u "published"); io_created_at := VStr (u "2026-07-16T10:00:01.500Z"); io_actor := VStr (u "ci");
  io_payload := VStr (u "ok"); io_installation_id := VNone; io_repository_id := VNone |}.

Definition no_record : AuditEventRecord :=
  Build_AuditEventRecord [] [] [] [] [] [] VNone [] [] 0 None [] [] [] None None.

Definition appended (r : res AuditAppendResult) : AuditEventRecord :=
  match r with Ok (AuditAppendAppended x) => x | _ => no_record end.

Definition event1 : AuditEventRecord := Eval vm_compute in appended (append_event [] (InputExact delivery)).
Definition stored1 : AuditEventRecordLike := RecordExact (record_object event1).
Definition event2 : AuditEventRecord := Eval vm_compute in appended (append_event [stored1] (InputExact release)).
(** The second record is stored as a mapping. *)
Definition stored2 : AuditEventRecordLike :=
  RecordMapping (dict_mapping (match audit_event_to_mapping event2 with Ok s => s | Raise _ => [] end)).

Example chain_verifies :
  _normalize_and_verify_audit_chain [stored1; stored2] = Ok ([event1; event2], ValidAuditChain (Some (event_hash event2))).
Proof. vm_compute. reflexivity. Qed.

(** Decidable conditions, evaluated. *)
Ltac decided := apply (bool_decide_unpack _); vm_compute; exact I.

Lemma delivery_input : input_like_ok (InputExact delivery).
Proof. split; [cbn; split_and!; try exact I; decided|]. unfold input_text; split_and!; cbn; decided. Qed.

Lemma release_input : input_like_ok (InputExact release).
Proof. split; [done|]. unfold input_text; split_and!; cbn; decided. Qed.

Lemma stored1_ok : like_ok stored1.
Proof. split; [cbn; split_and!; try exact I; decided|]. unfold input_text; split_and!; cbn; decided. Qed.

Lemma stored2_ok : like_ok stored2.
Proof. apply dict_like_ok. vm_compute audit_event_to_mapping. repeat (apply Forall_cons; split; [split; [exact I|cbn; first [exact I|decided]]|]). constructor. Qed.

Lemma ledger_ok : Forall like_ok [stored1; stored2].
Proof. apply Forall_cons; split; [apply stored1_ok|]. apply Forall_cons; split; [apply stored2_ok|constructor]. Qed.

Lemma event1_ok : record_ok event1.
Proof. apply (decoded_record_ok stored1); [apply stored1_ok|vm_compute; reflexivity]. Qed.

Lemma event2_ok : record_ok event2.
Proof. apply (decoded_record_ok stored2); [apply stored2_ok|vm_compute; reflexivity]. Qed.

Definition frozen : AuditLedgerSnapshot :=
  {| last_sequence := 2; last_event_hash := Some (event_hash event2); maximum_sequence := Some 2 |}.

Definition ledger_repository : AuditReplayRepository := {|
  repo_snapshot := Ok frozen;
  load_page := fun _ after through limit =>
    Ok (RecordExact ∘ record_object <$> take (Z.to_nat limit) (drop (Z.to_nat after) (take (Z.to_nat through) [event1; event2]))) |}.

Lemma ledger_serves : serves ledger_repository frozen [event1; event2].
Proof. split; [done|done| |done|done]. by rewrite bool_decide_eq_false_2. Qed.

Lemma ledger_answers : answers ledger_repository.
Proof.
  intros call after through limit. eexists. split; [reflexivity|]. apply Forall_fmap, Forall_take, Forall_drop, Forall_take.
  apply Forall_cons; split; [apply record_like_ok, event1_ok|]. apply Forall_cons; split; [apply record_like_ok, event2_ok|constructor].
Qed.

(** The properties, at this ledger. *)

Lemma decoded_event_typed_witness :
  audit_event_from_mapping stored2 = Ok event2 /\ record_facts event2 /\ audit_event_from_mapping (RecordExact (record_object event2)) = Ok event2.
Proof.
  assert (E : audit_event_from_mapping stored2 = Ok event2) by (vm_compute; reflexivity).
  pose proof (decoded_event_typed stored2 stored2_ok) as H. rewrite E in H. split; [exact E|exact (proj2 H)].
Defined.

Lemma event1_roundtrip :
  exists s, audit_event_to_mapping event1 = Ok s /\ audit_event_from_mapping (RecordMapping (dict_mapping (reverse s))) = Ok event1.
Proof.
  destruct (audit_event_roundtrip event1 event1_ok) as (s & E & H). exists s. split; [exact E|]. apply H. apply reverse_Permutation.
Defined.

Lemma append_event_correct_witness :
  append_event [stored1] (InputExact release) = Ok (AuditAppendAppended event2) /\
  verified ([stored1] ++ [stored2]) ([event1] ++ [event2]) /\
  append_event ([stored1] ++ [stored2]) (InputExact release) = Ok (AuditAppendDuplicate event2).
Proof.
  pose proof (append_event_correct [stored1] [event1] (Some (event_hash event1)) (InputExact release) (_record_input event2)) as H.
  assert (E : append_event [stored1] (InputExact release) = Ok (AuditAppendAppended event2)) by (vm_compute; reflexivity).
  rewrite E in H. split; [exact E|]. apply H; [|exact release_input|vm_compute; reflexivity|vm_compute; reflexivity|vm_compute; reflexivity|vm_compute; reflexivity].
  apply Forall_cons; split; [exact stored1_ok|constructor].
Defined.

Lemma ledger_tamper_evident_witness :
  let other := [RecordMapping (dict_mapping (match audit_event_to_mapping event1 with Ok s => s | Raise _ => [] end)); RecordExact (record_object event2)] in
  _normalize_and_verify_audit_chain other = Ok ([event1; event2], ValidAuditChain (Some (event_hash event2))) /\
  collision_free (ledger_bytes [event1; event2] ++ ledger_bytes [event1; event2]) /\ [event1; event2] = [event1; event2].
Proof.
  intros other. assert (E : _normalize_and_verify_audit_chain other = Ok ([event1; event2], ValidAuditChain (Some (event_hash event2)))) by (vm_compute; reflexivity).
  assert (Hfree : collision_free (ledger_bytes [event1; event2] ++ ledger_bytes [event1; event2])) by (apply collision_free_decided; vm_compute; reflexivity).
  split; [exact E|]. split; [exact Hfree|].
  apply (ledger_tamper_evident [stored1; stored2] other [event1; event2] [event1; event2] (Some (event_hash event2)));
    [exact ledger_ok| |exact chain_verifies|exact E|exact Hfree].
  apply Forall_cons; split; [|apply Forall_cons; split; [apply record_like_ok, event2_ok|constructor]].
  apply dict_like_ok. vm_compute audit_event_to_mapping.
  repeat (apply Forall_cons; split; [split; [first [exact I|cbn; split_and!; try exact I; decided]|cbn; first [exact I|decided]]|]). constructor.
Defined.

Lemma served_ledger_replayed :
  let f := SubjectAuditReplayFilter (u "release-evidence") (u "v1") in
  exists scan, scan_audit_replay ledger_repository f 1 = Ok scan /\ matched_event_count scan = 1 /\
    exists s, iter_verified_replay_events ledger_repository scan true 16 = ([s], Ok tt) /\ s_event_hash s = event_hash event2.
Proof.
  intros f. destruct (paged_replay_complete [stored1; stored2] [event1; event2] (Some (event_hash event2)) ledger_repository frozen f 1 16 true
    ledger_ok chain_verifies ledger_serves ltac:(vm_compute; split; discriminate) ltac:(vm_compute; split; discriminate)) as (scan & E & H).
  assert (E' : scan_audit_replay ledger_repository f 1 = Ok scan) by exact E. exists scan. split; [exact E'|].
  vm_compute in E'. injection E' as <-. split; [reflexivity|].
  assert (Er : exists s, replay_audit_evidence [stored1; stored2] f true =
      Ok (ValidAuditReplayReport {| v_total_events := 2; v_last_event_hash := Some (event_hash event2) |} f [s]) /\ s_event_hash s = event_hash event2)
    by (eexists; split; vm_compute; reflexivity).
  destruct Er as (s & Er & Es). exists s. rewrite Er in H. split; [exact (proj2 H)|exact Es].
Defined.

Lemma paged_output_verified_witness :
  exists scan, scan_audit_replay ledger_repository AllAuditReplayFilter 1 = Ok scan /\
    exists rs, linked None rs /\ Z.of_nat (length rs) = 2 /\ _event_hash (last rs) = Some (event_hash event2) /\
      exists s1 s2 rs', iter_verified_replay_events ledger_repository scan false 2 = ([s1; s2], Ok tt) /\
        mapR (summarize_audit_event false) rs' = Ok [s1; s2] /\ (collision_free (ledger_bytes rs ++ ledger_bytes rs') -> rs' = rs).
Proof.
  destruct (paged_output_verified ledger_repository ledger_repository frozen AllAuditReplayFilter 1 2 false) as (scan & E & H);
    [reflexivity|vm_compute; reflexivity|vm_compute; split; discriminate|exact ledger_answers|exact ledger_answers|].
  exists scan. split; [exact E|]. destruct H as [(ledger & Hr)|(rs & Hl & _ & Hlen & Hh & _ & Hout)].
  - vm_compute in E. injection E as <-. discriminate Hr.
  - exists rs. split; [exact Hl|]. split; [exact Hlen|]. split; [exact Hh|].
    assert (Eo : exists s1 s2, iter_verified_replay_events ledger_repository scan false 2 = ([s1; s2], Ok tt)).
    { vm_compute in E. injection E as <-. eexists _, _. vm_compute. reflexivity. }
    destruct Eo as (s1 & s2 & Eo). destruct (Hout _ Eo) as (rs' & _ & _ & _ & Hsum & Hfree). exists s1, s2, rs'. split; [exact Eo|]. split; [|exact Hfree].
    replace rs' with (filter_audit_events rs' AllAuditReplayFilter); [exact Hsum|]. clear. unfold filter_audit_events. induction rs' as [|r l IH]; [reflexivity|]. exact (f_equal (cons r) IH).
Defined.

Definition tip_scan : AuditReplayScan := {|
  scan_snapshot := {| last_sequence := 1; last_event_hash := Some (event_hash event1); maximum_sequence := Some 1 |};
  report := ValidAuditReplayReport {| v_total_events := 1; v_last_event_hash := Some (event_hash event1) |} AllAuditReplayFilter [];
  matched_event_count := 1; last_event := Some event1 |}.

Definition tip : AuditChainTipStatement := {|
  database_identity_digest := event_hash event1; artifact_digest := u "sha256:" ++ event_hash event1; retained_sequence := 1;
  last_event_id := audit_event_id event1; tip_event_hash := event_hash event1; observed_at := {| z_instant := 1000000; z_offset := Some 0 |} |}.

Lemma event1_linked : linked None [event1].
Proof.
  destruct (verified_linked [stored1] [event1] (Some (event_hash event1))) as (_ & H & _); [|vm_compute; reflexivity|exact H].
  apply Forall_cons; split; [exact stored1_ok|constructor].
Qed.

Lemma successor_chain_correct_witness :
  exists d, verify_audit_successor_chain tip [stored2] = Ok (ValidAuditSuccessor 1 2 (event_hash event2) d) /\
    exists rs, Forall2 decodes [stored2] rs /\ linked None ([event1] ++ rs).
Proof.
  assert (Ev : exists d, verify_audit_successor_chain tip [stored2] = Ok (ValidAuditSuccessor 1 2 (event_hash event2) d)) by (eexists; vm_compute; reflexivity).
  destruct Ev as (d & Ev). exists d. split; [exact Ev|].
  pose proof (successor_chain_correct tip_scan (event_hash event1) (u "sha256:" ++ event_hash event1) {| z_instant := 1000000; z_offset := Some 0 |}
    tip [event1] event1 [stored2]) as H. rewrite Ev in H.
  destruct H as (rs & Hd & Hl & _); [vm_compute; reflexivity|reflexivity|exact event1_linked|reflexivity|apply Forall_cons; split; [exact stored2_ok|constructor]| |].
  - vm_compute. split; discriminate.
  - exists rs. split; [exact Hd|exact Hl].
Defined.
