(* ===== verification/AuditRepository.v ===== *)
(** * The audit ledger in the database

    Models [persistence/audit_codec.py], [audit_repository.py] and the tables
    of [_schema_audit.py].  The rows of a table are its state; a statement
    reads or writes the rows it names and an insert is refused when a
    constraint of the schema fails.  A method runs in a transaction: its result
    comes with the tables it leaves, and an exception leaves them as they were,
    since every exception marks the transaction for rollback. *)

From stdpp Require Import base gmap sets list sorting strings.
From Stdlib Require Import ZArith Lia.
From S2P Require Import Prelude Text PyFloat CanonicalJson Hashing JsonLoads Instants ConfigControl AuditEvents AuditChain.

(** ** Hexadecimal text and bytes *)

(** [bytes.fromhex]; white space is skipped between bytes. *)
Fixpoint fromhex (s : pystr) : res (list Z) :=
  let refused := ValueError (u "non-hexadecimal number found in fromhex() arg") in
  match s with
  | [] => Ok []
  | a :: r =>
      if is_space a && (a <? 128) then fromhex r
      else match r with
      | b :: r' =>
          match hex_digit_value a, hex_digit_value b with
          | Some x, Some y => (cons (x * 16 + y)) <$> fromhex r'
          | _, _ => Raise refused
          end
      | [] => Raise refused
      end
  end.

(** [value.hex()]. *)
Definition hex (value : list Z) : pystr := flat_map (fun b => [hex_digit (b / 16); hex_digit (b mod 16)]) value.

(** [value.decode("utf-8")]. *)
Definition decode_utf8 (value : list Z) : res pystr :=
  s ← utf8_decode value; raise_if (negb (is_unicode_scalar_string s)) UnicodeDecodeError ;; Ok s.

(** ** Tables *)

Record audit_row := {
  row_sequence : Z;
  row_installation_id : option Z;
  row_repository_id : option Z;
  row_idempotency_key : list Z;
  row_idempotency_key_digest : list Z;
  row_subject_type : pystr;
  row_subject_id : list Z;
  row_event_type : list Z;
  row_created_at : pystr;
  row_actor : list Z;
  payload_canonical_json : list Z;
  row_schema_version : pystr;
  row_audit_event_id : pystr;
  row_previous_event_hash : option (list Z);
  row_payload_hash : list Z;
  row_input_hash : list Z;
  row_event_hash : list Z;
}.

Record ledger_head := {
  head_revision : Z;
  head_last_sequence : option Z;
  head_last_event_hash : option (list Z);
}.

(** The singleton row of [audit_ledger_head] may be missing. *)
Record audit_tables := { audit_events : list audit_row; audit_ledger_head : option ledger_head }.

Definition _safe_integer_max : Z := 9007199254740991.

Definition octets_between (minimum maximum : Z) (value : list Z) : bool :=
  (minimum <=? Z.of_nat (length value)) && (Z.of_nat (length value) <=? maximum).

(** [octet_length] of a text column, which holds no NUL character. *)
Definition text_octets (minimum maximum : Z) (s : pystr) : bool :=
  negb (has_char 0 s) && match utf8_length s with Ok n => (minimum <=? n) && (n <=? maximum) | Raise _ => false end.

Definition safe_id (z : Z) : bool := (1 <=? z) && (z <=? _safe_integer_max).

(** The scope of two columns. *)
Definition scope_of (installation repository : Z) : RepositoryScope := {| scope_installation_id := installation; scope_repository_id := repository |}.

(** A check constraint refuses a row only when its condition is false; a
    comparison with a null is unknown. *)
Definition not_false {A} (condition : A -> bool) (value : option A) : bool :=
  match value with Some x => condition x | None => true end.

(** The column lengths and check constraints of [audit_events]. *)
Definition event_constraints (r : audit_row) : bool :=
  (1 <=? row_sequence r) && (row_sequence r <=? _safe_integer_max) &&
  match row_installation_id r, row_repository_id r with
  | None, None => true
  | i, p => not_false (fun i => (1 <=? i) && (i <=? _safe_integer_max)) i && not_false (fun p => (1 <=? p) && (p <=? _safe_integer_max)) p
  end &&
  match row_previous_event_hash r with
  | None => row_sequence r =? 1
  | Some h => (1 <? row_sequence r) && octets_between 32 32 h
  end &&
  bool_decide (row_subject_type r ∈ AUDIT_SUBJECT_TYPES) && bool_decide (row_schema_version r = AUDIT_EVENT_SCHEMA_VERSION) &&
  octets_between 32 32 (row_idempotency_key_digest r) && octets_between 32 32 (row_payload_hash r) &&
  octets_between 32 32 (row_input_hash r) && octets_between 32 32 (row_event_hash r) &&
  octets_between 1 MAX_AUDIT_TEXT_UTF8_BYTES_V1 (row_idempotency_key r) &&
  octets_between 1 MAX_AUDIT_TEXT_UTF8_BYTES_V1 (row_subject_id r) &&
  octets_between 1 MAX_AUDIT_TEXT_UTF8_BYTES_V1 (row_event_type r) &&
  octets_between 1 MAX_AUDIT_TEXT_UTF8_BYTES_V1 (row_actor r) &&
  octets_between 1 MAX_AUDIT_PAYLOAD_CANONICAL_BYTES_V1 (payload_canonical_json r) &&
  octets_between 0 24 (row_created_at r) && octets_between 0 38 (row_audit_event_id r).

(** The primary key, the unique constraints and the foreign key. *)
Definition event_keys_free (rows : list audit_row) (r : audit_row) : bool :=
  forallb (fun q => negb (row_sequence q =? row_sequence r) &&
                    negb (bool_decide (row_idempotency_key_digest q = row_idempotency_key_digest r)) &&
                    negb (bool_decide (row_audit_event_id q = row_audit_event_id r)) &&
                    negb (bool_decide (row_event_hash q = row_event_hash r))) rows &&
  match row_previous_event_hash r with
  | None => true
  | Some h => existsb (fun q => bool_decide (row_event_hash q = h)) rows
  end.

Definition insert_event (rows : list audit_row) (r : audit_row) : res (list audit_row) :=
  raise_if (negb (event_constraints r && event_keys_free rows r)) SQLAlchemyError ;; Ok (rows ++ [r]).

(** The constraints and the foreign key of the head row. *)
Definition head_constraints (rows : list audit_row) (h : ledger_head) : bool :=
  (0 <=? head_revision h) && (head_revision h <=? _safe_integer_max) &&
  match head_last_sequence h, head_last_event_hash h with
  | None, None => head_revision h =? 0
  | s, Some hash =>
      (1 <=? head_revision h) && not_false (fun s => head_revision h =? s) s && octets_between 32 32 hash &&
      existsb (fun q => bool_decide (row_event_hash q = hash)) rows
  | Some _, None => false
  end.

(** [result.one_or_none()]. *)
Definition one_or_none {A} (rows : list A) : res (option A) :=
  match rows with
  | [] => Ok None
  | [r] => Ok (Some r)
  | _ => Raise SQLAlchemyError
  end.

(** ** Transactions of [persistence/unit_of_work.py] *)

(** What the database does to a transaction: it cannot begin or fails before
    its commit; the commit fails with an outcome the client cannot tell, and was
    lost or applied, which includes a commit whose connection fails to close. *)
Inductive fault := NoFault | BeginFailed | CommitLost | CommitUnknown.

(** [PersistenceError] and its subclasses. *)
Definition is_persistence_error (e : exn) : bool :=
  match e with PersistenceInvariantViolation _ | StoreUnavailable _ | DatabaseCapabilityUnavailable _ => true | _ => false end.

(** ** [audit_codec.py] *)

Definition violation {A} (message : string) : res A := Raise (PersistenceInvariantViolation (u message)).

Section repository.
Context `{Sha256}.

Definition idempotency_key_digest (value : pystr) : res (list Z) := b ← utf8_encode value; fromhex (sha256_hex b).

Definition _require_prepared_record_identity (record : AuditEventRecord) (prepared : PreparedAuditEvent) : res unit :=
  let e := pr_input prepared in
  raise_if (bool_decide (idempotency_key record <> ei_idempotency_key e) ||
            bool_decide (installation_id record <> ei_installation_id e) ||
            bool_decide (repository_id record <> ei_repository_id e) ||
            bool_decide (subject_type record <> ei_subject_type e) || bool_decide (subject_id record <> ei_subject_id e) ||
            bool_decide (event_type record <> ei_event_type e) || bool_decide (created_at record <> ei_created_at e) ||
            bool_decide (actor record <> ei_actor e) || bool_decide (payload_hash record <> pr_payload_hash prepared) ||
            bool_decide (input_hash record <> pr_input_hash prepared))
    (PersistenceInvariantViolation (u "prepared audit event does not match its record")).

Definition _optional_hash_bytes (value : option pystr) : res (option (list Z)) :=
  match value with None => Ok None | Some h => Some <$> fromhex h end.

Definition prepared_record_to_row (record : AuditEventRecord) (prepared : PreparedAuditEvent) : res audit_row :=
  _require_prepared_record_identity record prepared ;;
  let e := pr_input prepared in
  key ← utf8_encode (ei_idempotency_key e);
  digest ← idempotency_key_digest (ei_idempotency_key e);
  sid ← utf8_encode (ei_subject_id e);
  etype ← utf8_encode (ei_event_type e);
  act ← utf8_encode (ei_actor e);
  previous ← _optional_hash_bytes (previous_event_hash record);
  ph ← fromhex (payload_hash record);
  ih ← fromhex (input_hash record);
  eh ← fromhex (event_hash record);
  Ok {| row_sequence := sequence record; row_installation_id := installation_id record;
        row_repository_id := repository_id record; row_idempotency_key := key; row_idempotency_key_digest := digest;
        row_subject_type := subject_type record; row_subject_id := sid; row_event_type := etype;
        row_created_at := created_at record; row_actor := act;
        payload_canonical_json := payload_canonical_bytes prepared; row_schema_version := schema_version record;
        row_audit_event_id := audit_event_id record; row_previous_event_hash := previous; row_payload_hash := ph;
        row_input_hash := ih; row_event_hash := eh |}.

Definition _bounded_bytes_field (value : list Z) (maximum : Z) : res (list Z) :=
  raise_if (negb (octets_between 1 maximum value)) (ValueError (u "field is outside its byte interval")) ;; Ok value.

Definition _optional_positive_integer_field (value : option Z) : res (option Z) :=
  match value with
  | Some z => raise_if (z <? 1) (TypeError (u "field is not a positive integer")) ;; Ok value
  | None => Ok None
  end.

Definition _hash_hex (value : list Z) : res pystr :=
  raise_if (negb (octets_between 32 32 value)) (ValueError (u "field is not a SHA-256 digest")) ;; Ok (hex value).

Definition _optional_hash_hex (value : option (list Z)) : res (option pystr) :=
  match value with None => Ok None | Some h => Some <$> _hash_hex h end.

(** The body of the [try]. *)
Definition decode_row (row : audit_row) : res AuditEventRecord :=
  payload_bytes ← _bounded_bytes_field (payload_canonical_json row) MAX_AUDIT_PAYLOAD_CANONICAL_BYTES_V1;
  key_bytes ← _bounded_bytes_field (row_idempotency_key row) MAX_AUDIT_TEXT_UTF8_BYTES_V1;
  subject_bytes ← _bounded_bytes_field (row_subject_id row) MAX_AUDIT_TEXT_UTF8_BYTES_V1;
  type_bytes ← _bounded_bytes_field (row_event_type row) MAX_AUDIT_TEXT_UTF8_BYTES_V1;
  actor_bytes ← _bounded_bytes_field (row_actor row) MAX_AUDIT_TEXT_UTF8_BYTES_V1;
  text ← decode_utf8 payload_bytes;
  payload ← loads_text text;
  canonical_bytes ← canonical_audit_payload_bytes payload (u "payload");
  raise_if (bool_decide (canonical_bytes <> payload_bytes)) (ValueError (u "payload bytes are not canonical JSON")) ;;
  key ← decode_utf8 key_bytes;
  digest ← idempotency_key_digest key;
  raise_if (bool_decide (row_idempotency_key_digest row <> digest))
    (ValueError (u "idempotency key digest does not match stored key")) ;;
  installation ← _optional_positive_integer_field (row_installation_id row);
  repository ← _optional_positive_integer_field (row_repository_id row);
  sid ← decode_utf8 subject_bytes;
  etype ← decode_utf8 type_bytes;
  act ← decode_utf8 actor_bytes;
  previous ← _optional_hash_hex (row_previous_event_hash row);
  ph ← _hash_hex (row_payload_hash row);
  ih ← _hash_hex (row_input_hash row);
  eh ← _hash_hex (row_event_hash row);
  audit_event_from_mapping (RecordMapping (dict_mapping
    [(u "idempotencyKey", VStr key); (u "installationId", opt_int installation); (u "repositoryId", opt_int repository);
     (u "subjectType", VStr (row_subject_type row)); (u "subjectId", VStr sid); (u "eventType", VStr etype);
     (u "createdAt", VStr (row_created_at row)); (u "actor", VStr act); (u "payload", payload);
     (u "schemaVersion", VStr (row_schema_version row)); (u "auditEventId", VStr (row_audit_event_id row));
     (u "sequence", VInt (row_sequence row)); (u "previousEventHash", opt_str previous); (u "payloadHash", VStr ph);
     (u "inputHash", VStr ih); (u "eventHash", VStr eh)])).

(** [except (KeyError, RecursionError, TypeError, UnicodeError, ValueError)]. *)
Definition is_row_error (e : exn) : bool :=
  is_value_error e || match e with KeyError | TypeError _ => true | _ => false end.

Definition row_to_record (row : audit_row) : res AuditEventRecord :=
  match decode_row row with
  | Raise e => if is_row_error e then violation "stored audit event is invalid" else Raise e
  | r => r
  end.

(** ** [audit_repository.py] *)

Definition _lock_head (t : audit_tables) : res ledger_head :=
  match audit_ledger_head t with Some h => Ok h | None => violation "audit ledger head is missing" end.

Definition _previous_from_head (t : audit_tables) (head : ledger_head) : res (option AuditEventRecord) :=
  if head_revision head =? 0 then
    if bool_decide (head_last_sequence head <> None) || bool_decide (head_last_event_hash head <> None)
    then violation "empty audit ledger head is inconsistent" else Ok None
  else
    row ← one_or_none (List.filter (fun r => row_sequence r =? head_revision head) (audit_events t));
    match row with
    | None => violation "audit ledger predecessor is missing"
    | Some row =>
        previous ← row_to_record row;
        hash ← fromhex (event_hash previous);
        if bool_decide (head_last_sequence head <> Some (sequence previous)) ||
           bool_decide (head_last_event_hash head <> Some hash)
        then violation "audit ledger head is inconsistent" else Ok (Some previous)
    end.

Definition _find_row_by_idempotency_key (t : audit_tables) (key : pystr) : res (option audit_row) :=
  digest ← idempotency_key_digest key;
  one_or_none (List.filter (fun r => bool_decide (row_idempotency_key_digest r = digest)) (audit_events t)).

Definition _reject_event_id_collision (t : audit_tables) (event_id : pystr) : res unit :=
  found ← one_or_none (List.filter (fun r => bool_decide (row_audit_event_id r = event_id)) (audit_events t));
  match found with
  | Some _ => Raise (PersistenceInvariantViolation (u "audit event " ++ event_id ++ u " already exists"))
  | None => Ok tt
  end.

(** An optional repository scope against two optional identifiers. *)
Definition scope_agrees (installation repository : option Z) (expected : option RepositoryScope) : bool :=
  match expected with
  | None => bool_decide (installation = None) && bool_decide (repository = None)
  | Some s => bool_decide (installation = Some (scope_installation_id s)) && bool_decide (repository = Some (scope_repository_id s))
  end.

Definition _require_prepared_scope (event : PreparedAuditEvent) (expected : option RepositoryScope) : res unit :=
  raise_if (negb (scope_agrees (ei_installation_id (pr_input event)) (ei_repository_id (pr_input event)) expected))
    (PersistenceInvariantViolation match expected with
      | None => u "generic audit append cannot retain a repository-owned event"
      | Some _ => u "pair-owned audit event does not bind its repository scope"
      end).

Definition _require_stored_scope (row : audit_row) (expected : option RepositoryScope) : res unit :=
  raise_if (negb (scope_agrees (row_installation_id row) (row_repository_id row) expected))
    (PersistenceInvariantViolation (u "audit idempotency key resolves to another repository scope")).

Definition head_update (t : audit_tables) (rows : list audit_row) (revision : Z) (record : AuditEventRecord) : res audit_tables :=
  hash ← fromhex (event_hash record);
  match audit_ledger_head t with
  | Some head =>
      if head_revision head =? revision then
        let updated := {| head_revision := sequence record; head_last_sequence := Some (sequence record);
                          head_last_event_hash := Some hash |} in
        raise_if (negb (head_constraints rows updated)) SQLAlchemyError ;;
        Ok {| audit_events := rows; audit_ledger_head := Some updated |}
      else violation "audit ledger head compare-and-set failed"
  | None => violation "audit ledger head compare-and-set failed"
  end.

Definition _append (t : audit_tables) (prepared : PreparedAuditEvent) (scope : option RepositoryScope)
    : res (AuditAppendResult * audit_tables) :=
  _require_prepared_scope prepared scope ;;
  head ← _lock_head t;
  previous ← _previous_from_head t head;
  '(attempted, _) ← match build_prepared_audit_event prepared (optional_record previous) with
                    | Raise (AuditEventError _ _ _) => violation "audit ledger cannot be extended"
                    | r => r
                    end;
  existing_row ← _find_row_by_idempotency_key t (ei_idempotency_key (pr_input prepared));
  match existing_row with
  | Some existing_row =>
      _require_stored_scope existing_row scope ;;
      existing ← row_to_record existing_row;
      if bool_decide (idempotency_key existing <> ei_idempotency_key (pr_input prepared))
      then violation "audit idempotency digest collision"
      else if bool_decide (input_hash existing = input_hash attempted)
      then Ok (AuditAppendDuplicate existing, t)
      else Ok (AuditAppendConflict existing attempted
                 (u "audit event idempotency key " ++ idempotency_key attempted ++ u " already exists with different content"), t)
  | None =>
      _reject_event_id_collision t (audit_event_id attempted) ;;
      row ← prepared_record_to_row attempted prepared;
      rows ← insert_event (audit_events t) row;
      t' ← head_update t rows (head_revision head) attempted;
      Ok (AuditAppendAppended attempted, t')
  end.

(** [except SQLAlchemyError as error: raise StoreUnavailable(...)]. *)
Definition store_guard {A} (message : string) (r : res A) : res A :=
  match r with Raise SQLAlchemyError => Raise (StoreUnavailable (u message)) | r => r end.

(** [_is_pair_owned_audit_event_type]: the event types that only the state
    transition that owns them may append. *)
Definition _is_pair_owned_audit_event_type (value : pystr) : bool :=
  bool_decide (value ∈ u <$>
    ["dynamic-ci-plan.issued"; "ci-economics-budget-configured/v1"; "ci-economics-observation-configured/v1";
     "ci-economics-history-configured/v1"; "ci-economics-history-gaps-requeued/v1"; "ci-analytics-purpose-configured/v1";
     "ci-economics-history-retention-applied/v1"; "operator_override_applied"; "dynamic-ci-plan.verified";
     "reconciliation-state.terminal"; "production_cutover_applied"; "config-epoch-activation/v1"; "config-epoch-rollback/v1";
     "config-epoch-registration/v1"; "workflow-proposal-accepted/v1"; "governance-baseline-approved/v1"]).

Definition _prepared_scope (event : PreparedAuditEvent) : res (option RepositoryScope) :=
  match ei_installation_id (pr_input event), ei_repository_id (pr_input event) with
  | None, None => Ok None
  | Some i, Some r => let s := {| scope_installation_id := i; scope_repository_id := r |} in RepositoryScope_check s ;; Ok (Some s)
  | _, _ => violation "audit event repository scope is incomplete"
  end.

Definition repository_append (t : audit_tables) (event : PreparedAuditEvent) : res (AuditAppendResult * audit_tables) :=
  if _is_pair_owned_audit_event_type (ei_event_type (pr_input event))
  then violation "pair-owned audit events require their owning state transition"
  else store_guard "audit append failed" (scope ← _prepared_scope event; _append t event scope).

Definition _append_pair_owned (t : audit_tables) (event : PreparedAuditEvent) (scope : RepositoryScope)
    : res (AuditAppendResult * audit_tables) :=
  if negb (_is_pair_owned_audit_event_type (ei_event_type (pr_input event))) then violation "pair-owned audit event is invalid"
  else store_guard "pair-owned audit append failed" (_append t event (Some scope)).

Definition _find_pair_owned (t : audit_tables) (key event_type_ : pystr) (scope : RepositoryScope) : res (option AuditEventRecord) :=
  if negb (_is_pair_owned_audit_event_type event_type_) then violation "pair-owned audit lookup type is invalid"
  else store_guard "pair-owned audit lookup failed"
    (existing_row ← _find_row_by_idempotency_key t key;
     match existing_row with
     | None => Ok None
     | Some row =>
         _require_stored_scope row (Some scope) ;;
         existing ← row_to_record row;
         if bool_decide (event_type existing <> event_type_)
         then violation "pair-owned audit key resolves to another event type" else Ok (Some existing)
     end).

(** [max(sequence)] over the rows. *)
Definition maximum_row_sequence (t : audit_tables) : option Z :=
  match row_sequence <$> audit_events t with
  | [] => None
  | s :: l => Some (foldl Z.max s l)
  end.

Definition load_audit_ledger_snapshot (t : audit_tables) : res AuditLedgerSnapshot :=
  head ← _lock_head t;
  let revision := head_revision head in
  if bool_decide (head_last_sequence head <> if revision =? 0 then None else Some revision)
  then violation "audit ledger head sequence is inconsistent"
  else if match head_last_event_hash head with Some h => negb (octets_between 32 32 h) | None => false end
  then violation "audit ledger head hash is invalid"
  else
    let s := {| last_sequence := revision; last_event_hash := hex <$> head_last_event_hash head;
                maximum_sequence := maximum_row_sequence t |} in
    match AuditLedgerSnapshot_check s with
    | Raise e => if is_value_error e then violation "audit ledger snapshot is invalid" else Raise e
    | Ok _ => Ok s
    end.

Definition ledger_snapshot (t : audit_tables) : res AuditLedgerSnapshot :=
  store_guard "audit replay snapshot failed" (load_audit_ledger_snapshot t).

Definition load_audit_records_after (t : audit_tables) (after through_sequence limit : Z) : res (list AuditEventRecord) :=
  raise_if (after <? 0) (ValueError (u "audit suffix sequence must be a non-negative integer")) ;;
  raise_if (through_sequence <? after) (ValueError (u "audit suffix upper bound must not precede its checkpoint")) ;;
  raise_if (limit <? 1) (ValueError (u "audit suffix limit must be positive")) ;;
  let selected := List.filter (fun r => (after <? row_sequence r) && (row_sequence r <=? through_sequence)) (audit_events t) in
  mapR row_to_record (take (Z.to_nat limit) (isort (fun p q => row_sequence p <=? row_sequence q) selected)).

Definition ledger_page (t : audit_tables) (after_sequence through_sequence limit : Z) : res (list AuditEventRecord) :=
  if negb ((1 <=? limit) && (limit <=? AUDIT_REPLAY_PAGE_SIZE)) then violation "audit replay page limit is invalid"
  else match store_guard "audit replay page read failed" (load_audit_records_after t after_sequence through_sequence limit) with
       | Raise e => if is_value_error e then violation "audit replay page bounds are invalid" else Raise e
       | r => r
       end.

(** The ledger as the repository that paged replay reads; no other transaction
    commits between the calls. *)
Definition table_repository (t : audit_tables) : AuditReplayRepository :=
  {| repo_snapshot := ledger_snapshot t;
     load_page := fun _ after through limit => fmap (M := res) (fmap (M := list) (fun r => RecordExact (record_object r))) (ledger_page t after through limit) |}.
End repository.
