(* ===== verification/AuditRepositoryFacts.v ===== *)
(** * The stored audit ledger

    Rows are written and read back without loss, the tables always hold a
    linked chain of checked records under the head row, storing an event does
    what appending it to the chain in memory does, and replay over the tables
    reports the whole chain. *)

From stdpp Require Import base gmap sets list sorting strings.
From Stdlib Require Import ZArith Lia.
From S2P Require Import Prelude Text PyFloat CanonicalJson Hashing JsonLoads JsonRoundtrip Instants ConfigControl AuditEvents AuditChain AuditFacts AuditChainFacts AuditLedger AuditPages AuditRepository.

(** ** Hexadecimal text *)

Lemma lower_hex_value c : is_lower_hex c = true -> exists n, hex_digit_value c = Some n /\ hex_digit n = c /\ 0 <= n < 16.
Proof.
  unfold is_lower_hex, hex_digit_value, hex_digit, is_digit. intros Hc.
  destruct ((48 <=? c) && (c <=? 57)) eqn:E.
  - exists (c - 48). rewrite (proj2 (Z.ltb_lt _ 10)) by lia. split_and!; [done|lia..].
  - assert (H2 : (97 <=? c) && (c <=? 102) = true) by lia. rewrite H2. exists (c - 87). rewrite (proj2 (Z.ltb_ge _ 10)) by lia. split_and!; [done|lia..].
Qed.

Lemma fromhex_pair a b s : is_lower_hex a = true -> is_lower_hex b = true ->
  exists n, hex [n] = [a; b] /\ fromhex (a :: b :: s) = (cons n) <$> fromhex s.
Proof.
  intros Ha Hb. destruct (lower_hex_value a Ha) as (x & Ex & Hx & Bx), (lower_hex_value b Hb) as (y & Ey & Hy & By).
  exists (x * 16 + y). unfold hex. cbn [flat_map app]. rewrite Z.div_add_l, Z.div_small, Z.add_0_r, Hx by lia.
  rewrite Z.add_comm, Z.mod_add, Z.mod_small, Hy by lia. split; [done|].
  cbn [fromhex]. rewrite Ex, Ey. assert (is_space a && (a <? 128) = false) as ->; [|by rewrite Z.add_comm].
  unfold is_lower_hex in Ha. unfold is_space. lia.
Qed.

(** Even lower-case text is what its bytes print. *)
Lemma fromhex_hex n s : length s = (2 * n)%nat -> forallb is_lower_hex s = true ->
  exists b, fromhex s = Ok b /\ hex b = s /\ length b = n.
Proof.
  revert s. induction n as [|n IH]; intros s Hl Hs; [exists []; destruct s; done|].
  destruct s as [|a [|b s]]; cbn in Hl; try lia. cbn [forallb] in Hs. apply andb_true_iff' in Hs as [Ha Hs]. apply andb_true_iff' in Hs as [Hb Hs].
  destruct (IH s ltac:(lia) Hs) as (bs & Eb & Hh & Hn). destruct (fromhex_pair a b s Ha Hb) as (c & Hc & ->). rewrite Eb. cbn [fmap res_fmap].
  exists (c :: bs). split_and!; [done| |cbn; lia]. change (hex (c :: bs)) with (hex [c] ++ hex bs). by rewrite Hc, Hh.
Qed.

Lemma fromhex_sha256 h : is_sha256_hex h = true -> exists b, fromhex h = Ok b /\ hex b = h /\ length b = 32%nat.
Proof. intros [Hl%bool_decide_eq_true Hh]%andb_true_iff'. by apply (fromhex_hex 32). Qed.

(** ** Text columns *)

Lemma decode_utf8_text s : is_unicode_scalar_string s = true -> decode_utf8 (flat_map utf8_char s) = Ok s.
Proof. intros Hs. unfold decode_utf8. rewrite utf8_decode_encode by done. cbn [mbind res_bind]. by rewrite Hs. Qed.

Lemma utf8_encode_Ok s : is_unicode_scalar_string s = true -> utf8_encode s = Ok (flat_map utf8_char s).
Proof. intros Hs. unfold utf8_encode. by rewrite Hs. Qed.

Lemma utf8_char_length c : length (utf8_char c) = if c <=? 0x7F then 1%nat else if c <=? 0x7FF then 2%nat else if c <=? 0xFFFF then 3%nat else 4%nat.
Proof. unfold utf8_char. repeat case_match; done. Qed.

Lemma utf8_bound observed limit s :
  observed <= limit -> utf8_exceeds_from observed limit s = false -> observed + Z.of_nat (length (flat_map utf8_char s)) <= limit.
Proof.
  revert observed. induction s as [|c s IH]; intros observed Ho; cbn [utf8_exceeds_from flat_map]; [cbn; lia|].
  set (o := observed + _). destruct (Z.ltb_spec limit o) as [|Hl]; [done|]. intros Hs%IH; [|done]. rewrite length_app, utf8_char_length. subst o. repeat case_match; lia.
Qed.

(** A checked text fits its column. *)
Lemma text_column s label :
  _validate_audit_text (VStr s) label = None -> AuditEvents._utf8_length_exceeds s MAX_AUDIT_TEXT_UTF8_BYTES_V1 = false ->
  octets_between 1 MAX_AUDIT_TEXT_UTF8_BYTES_V1 (flat_map utf8_char s) = true.
Proof.
  intros Hv Hl%utf8_bound; [|done]. unfold octets_between. apply andb_true_iff'. split; [|apply Z.leb_le; lia].
  destruct s as [|c s]; [done|]. cbn [flat_map]. rewrite length_app, utf8_char_length. apply Z.leb_le. repeat case_match; lia.
Qed.

Record text_columns (r : AuditEventRecord) : Prop := {
  tc_key : octets_between 1 MAX_AUDIT_TEXT_UTF8_BYTES_V1 (flat_map utf8_char (idempotency_key r)) = true;
  tc_subject : octets_between 1 MAX_AUDIT_TEXT_UTF8_BYTES_V1 (flat_map utf8_char (subject_id r)) = true;
  tc_event : octets_between 1 MAX_AUDIT_TEXT_UTF8_BYTES_V1 (flat_map utf8_char (event_type r)) = true;
  tc_actor : octets_between 1 MAX_AUDIT_TEXT_UTF8_BYTES_V1 (flat_map utf8_char (actor r)) = true;
}.

Lemma admitted_text o pr s :
  admit_audit_text_bytes o = Ok tt -> pr ∈ AUDIT_TEXT_BYTE_FIELD_PROJECTIONS_V1 -> attribute pr o = VStr s ->
  AuditEvents._utf8_length_exceeds s MAX_AUDIT_TEXT_UTF8_BYTES_V1 = false.
Proof.
  unfold admit_audit_text_bytes. generalize AUDIT_TEXT_BYTE_FIELD_PROJECTIONS_V1 as l. induction l as [|q l IH]; intros Ha Hin Hs; [by apply not_elem_of_nil in Hin|].
  cbn [foldR] in Ha. apply bind_Ok in Ha as ([] & Hq & Ha). apply elem_of_cons in Hin as [<-|Hin]; [|by apply IH].
  rewrite Hs in Hq. by destruct (AuditEvents._utf8_length_exceeds s _).
Qed.

Lemma record_columns r : record_ok r -> text_columns r.
Proof.
  intros (Hv & Ha & _). apply validated_record_input in Hv. unfold validate_audit_event_input in Hv. passed Hv.
  assert (Ht : forall i pr s, AUDIT_TEXT_BYTE_FIELD_PROJECTIONS_V1 !! i = Some pr -> attribute pr (input_object (_record_input r)) = VStr s ->
    AuditEvents._utf8_length_exceeds s MAX_AUDIT_TEXT_UTF8_BYTES_V1 = false).
  { intros i pr s Hi Es. by eapply (admitted_text _ pr s Ha), Es; eapply list_elem_of_lookup_2. }
  split; (eapply text_column; [eassumption|]).
  - by apply (Ht 0%nat _ _ eq_refl).
  - by apply (Ht 1%nat _ _ eq_refl).
  - by apply (Ht 2%nat _ _ eq_refl).
  - by apply (Ht 3%nat _ _ eq_refl).
Qed.

(** ** Rows *)

Section rows.
Context `{Sha256}.

Lemma key_digest_Ok s : is_unicode_scalar_string s = true ->
  exists d, idempotency_key_digest s = Ok d /\ length d = 32%nat /\ hex d = sha256 (flat_map utf8_char s).
Proof.
  intros Hs. unfold idempotency_key_digest. rewrite utf8_encode_Ok by done. cbn [mbind res_bind].
  destruct (fromhex_sha256 (sha256 (flat_map utf8_char s)) (sha256_is_hex _)) as (d & E & Eh & El). by exists d.
Qed.

(** The columns of a stored record; the bytes of its payload. *)
Record row_holds (row : audit_row) (r : AuditEventRecord) : Prop := {
  rh_ok : record_ok r;
  rh_sequence : row_sequence row = sequence r;
  rh_installation : row_installation_id row = installation_id r;
  rh_repository : row_repository_id row = repository_id r;
  rh_key : row_idempotency_key row = flat_map utf8_char (idempotency_key r);
  rh_digest : idempotency_key_digest (idempotency_key r) = Ok (row_idempotency_key_digest row);
  rh_type : row_subject_type row = subject_type r;
  rh_subject : row_subject_id row = flat_map utf8_char (subject_id r);
  rh_event_type : row_event_type row = flat_map utf8_char (event_type r);
  rh_created : row_created_at row = created_at r;
  rh_actor : row_actor row = flat_map utf8_char (actor r);
  rh_payload : normal_payload (payload r) (payload_canonical_json row);
  rh_schema : row_schema_version row = schema_version r;
  rh_id : row_audit_event_id row = audit_event_id r;
  rh_previous : _optional_hash_bytes (previous_event_hash r) = Ok (row_previous_event_hash row);
  rh_payload_hash : fromhex (payload_hash r) = Ok (row_payload_hash row);
  rh_input_hash : fromhex (input_hash r) = Ok (row_input_hash row);
  rh_event_hash : fromhex (event_hash r) = Ok (row_event_hash row);
}.

(** A record and the prepared event it was built from. *)
Definition prepared_for (r : AuditEventRecord) (p : PreparedAuditEvent) : Prop :=
  _record_input r = pr_input p /\ payload_hash r = pr_payload_hash p /\ input_hash r = pr_input_hash p /\
  normal_payload (payload r) (payload_canonical_bytes p).

Lemma record_written r p :
  record_ok r -> prepared_for r p -> exists row, prepared_record_to_row r p = Ok row /\ row_holds row r.
Proof.
  intros Hr (Ei & Ep & Eh & Hp). pose proof (record_ok_facts r Hr) as [[F1 _ F3 F4 F5 F6 _] F7 F8 F9 F10 F11 F12].
  unfold prepared_record_to_row, _require_prepared_record_identity. rewrite <- Ei, <- Ep, <- Eh. cbn [_record_input ei_idempotency_key ei_installation_id
    ei_repository_id ei_subject_type ei_subject_id ei_event_type ei_created_at ei_actor] in *.
  rewrite !bool_decide_eq_false_2 by (intros Hn; by apply Hn). cbn [orb raise_if mbind res_bind].
  rewrite !utf8_encode_Ok by done. destruct (key_digest_Ok _ F1) as (d & Ed & _). rewrite Ed.
  destruct (fromhex_sha256 _ F10) as (b1 & E1 & _), (fromhex_sha256 _ F11) as (b2 & E2 & _), (fromhex_sha256 _ F12) as (b3 & E3 & _). rewrite E1, E2, E3.
  assert (Eo : exists o, _optional_hash_bytes (previous_event_hash r) = Ok o).
  { destruct (previous_event_hash r) as [h|]; [|by exists None]. destruct (fromhex_sha256 h (F9 _ eq_refl)) as (b & Eb & _). exists (Some b). cbn. by rewrite Eb. }
  destruct Eo as (o & Eo). rewrite Eo. cbn [mbind res_bind]. eexists. split; [done|]. by split.
Qed.

(** *** Reading *)

Lemma hash_column h b : is_sha256_hex h = true -> fromhex h = Ok b -> _hash_hex b = Ok h.
Proof.
  intros Hh E. destruct (fromhex_sha256 h Hh) as (b' & Eb & Eh & El). assert (b' = b) as -> by congruence.
  unfold _hash_hex, octets_between. rewrite El. cbn. by rewrite Eh.
Qed.

Lemma payload_column p b : normal_payload p b ->
  octets_between 1 MAX_AUDIT_PAYLOAD_CANONICAL_BYTES_V1 b = true /\ exists s, decode_utf8 b = Ok s /\ loads_text s = Ok p.
Proof.
  intros ([Hj Hw] & Ep & Eb). apply payload_bytes_Ok in Eb as [Eb Hl]. destruct (written_reads _ _ _ Hw Eb) as [Er _]. rewrite <- Ep in Er.
  destruct (canonical_json_facts _ _ _ Eb) as (_ & -> & Hs). split.
  - unfold octets_between. apply andb_true_iff'. split; [|by apply Z.leb_le]. destruct (flat_map utf8_char (txt p)); [done|]. apply Z.leb_le. cbn. lia.
  - exists (txt p). split; [by apply decode_utf8_text|]. unfold json_loads in Er. by rewrite utf8_decode_encode in Er.
Qed.

Definition row_mapping (r : AuditEventRecord) : list (pystr * pyval) :=
  [(u "idempotencyKey", VStr (idempotency_key r)); (u "installationId", opt_int (installation_id r));
   (u "repositoryId", opt_int (repository_id r)); (u "subjectType", VStr (subject_type r)); (u "subjectId", VStr (subject_id r));
   (u "eventType", VStr (event_type r)); (u "createdAt", VStr (created_at r)); (u "actor", VStr (actor r)); (u "payload", payload r);
   (u "schemaVersion", VStr (schema_version r)); (u "auditEventId", VStr (audit_event_id r)); (u "sequence", VInt (sequence r));
   (u "previousEventHash", opt_str (previous_event_hash r)); (u "payloadHash", VStr (payload_hash r));
   (u "inputHash", VStr (input_hash r)); (u "eventHash", VStr (event_hash r))].

(** The mapping of a row names the scope even when there is none. *)
Lemma row_mapping_decodes r : record_ok r -> audit_event_from_mapping (RecordMapping (dict_mapping (row_mapping r))) = Ok r.
Proof.
  intros Hr. cbn [audit_event_from_mapping].
  assert (Hn : NoDup (row_mapping r).*1) by by apply (bool_decide_unpack _); vm_compute.
  destruct (shape_dict (row_mapping r) [_UNSCOPED_AUDIT_EVENT_RECORD_KEY_ORDER; _SCOPED_AUDIT_EVENT_RECORD_KEY_ORDER]
    _SCOPED_AUDIT_EVENT_RECORD_KEY_ORDER (u "audit event record") (u "auditEventId") Hn) as (s & -> & Hg).
  - apply NoDup_Permutation; [done|by apply (bool_decide_unpack _); vm_compute|]. apply same_keys_spec. by vm_compute.
  - by apply (bool_decide_unpack _); vm_compute.
  - repeat constructor; by apply (bool_decide_unpack _); vm_compute.
  - by vm_compute.
  - cbn [mbind res_bind]. rewrite (holds_decoded s r); [done|done|]. by split; rewrite Hg.
Qed.

(** A row that holds a record is read as it. *)
Lemma record_read row r : row_holds row r -> row_to_record row = Ok r.
Proof.
  intros Hh. pose proof (rh_ok _ _ Hh) as Hr. pose proof (record_ok_facts r Hr) as [[F1 _ F3 F4 F5 F6 F7] F8 F9 F10 F11 F12 F13].
  destruct (record_columns r Hr) as [C1 C2 C3 C4]. destruct (payload_column _ _ (rh_payload _ _ Hh)) as (C5 & s & Es & El).
  cbn [_record_input ei_idempotency_key ei_installation_id ei_repository_id ei_subject_id ei_event_type ei_actor] in *.
  unfold row_to_record, decode_row, _bounded_bytes_field. rewrite (rh_key _ _ Hh), (rh_subject _ _ Hh), (rh_event_type _ _ Hh), (rh_actor _ _ Hh).
  rewrite C1, C2, C3, C4, C5. cbn [negb raise_if mbind res_bind]. rewrite Es. cbn [mbind res_bind]. rewrite El. cbn [mbind res_bind].
  pose proof (rh_payload _ _ Hh) as (_ & _ & Ec). rewrite Ec. cbn [mbind res_bind]. rewrite bool_decide_eq_false_2 by (intros Hn; by apply Hn).
  cbn [raise_if mbind res_bind]. rewrite !decode_utf8_text by done. cbn [mbind res_bind]. rewrite (rh_digest _ _ Hh). cbn [mbind res_bind].
  rewrite bool_decide_eq_false_2 by (intros Hn; by apply Hn). cbn [raise_if mbind res_bind].
  assert (Eo : forall o, (forall z, o = Some z -> is_positive_safe_int (VInt z) = true) -> _optional_positive_integer_field o = Ok o).
  { intros [z|] Ho; [|done]. specialize (Ho z eq_refl). apply andb_true_iff' in Ho as [_ Hz%Z.leb_le]. cbn. by rewrite (proj2 (Z.ltb_ge z 1)). }
  rewrite (rh_installation _ _ Hh), (rh_repository _ _ Hh), !Eo.
  2, 3: intros z Ez; rewrite Ez in F7; destruct (installation_id r), (repository_id r); try done; by apply F7.
  cbn [mbind res_bind]. rewrite (hash_column _ _ F11 (rh_payload_hash _ _ Hh)), (hash_column _ _ F12 (rh_input_hash _ _ Hh)), (hash_column _ _ F13 (rh_event_hash _ _ Hh)).
  assert (Ep : _optional_hash_hex (row_previous_event_hash row) = Ok (previous_event_hash r)).
  { pose proof (rh_previous _ _ Hh) as E. destruct (previous_event_hash r) as [h|]; cbn in E; [|injection E as <-; done].
    destruct (fromhex h) as [b|] eqn:Eb; [|done]. injection E as <-. cbn. by rewrite (hash_column h b (F10 h eq_refl) Eb). }
  rewrite Ep, (rh_type _ _ Hh), (rh_created _ _ Hh), (rh_schema _ _ Hh), (rh_id _ _ Hh), (rh_sequence _ _ Hh). cbn [mbind res_bind].
  change (audit_event_from_mapping _) with (audit_event_from_mapping (RecordMapping (dict_mapping (row_mapping r)))). by rewrite row_mapping_decodes.
Qed.

(** *** Constraints *)

Lemma hash_octets h b : is_sha256_hex h = true -> fromhex h = Ok b -> octets_between 32 32 b = true.
Proof.
  intros Hh E. destruct (fromhex_sha256 h Hh) as (b' & Eb & _ & El). assert (b' = b) as -> by congruence. unfold octets_between. by rewrite El.
Qed.

Lemma record_shape r : record_ok r -> length (created_at r) = 24%nat /\ length (audit_event_id r) = 38%nat.
Proof.
  intros (H1 & _). pose proof (validated_record_input r H1) as H2. unfold validate_audit_event_record in H1. passed H1.
  unfold validate_audit_event_input in H2. passed H2. apply negb_false_iff in E1, E11. cbn in E1, E11. split.
  - apply andb_true_iff' in E11 as [E11 _]. unfold timestamp_shape in E11. apply andb_true_iff' in E11 as [E11 _]. apply andb_true_iff' in E11 as [E11 _].
    by apply bool_decide_eq_true in E11.
  - apply andb_true_iff' in E1 as [E1 _]. apply andb_true_iff' in E1 as [_ E1]. by apply bool_decide_eq_true in E1.
Qed.

Lemma octets_exact n lo hi b : length b = n -> lo <= Z.of_nat n <= hi -> octets_between lo hi b = true.
Proof. intros <- Hl. unfold octets_between. lia. Qed.

Lemma safe_column z : is_positive_safe_int (VInt z) = true -> (1 <=? z) && (z <=? _safe_integer_max) = true.
Proof.
  unfold is_positive_safe_int, is_safe_json_integer, is_safe_int, MAX_SAFE_JSON_INTEGER, _safe_integer_max. lia.
Qed.

Lemma scope_columns r : record_facts r ->
  match installation_id r, repository_id r with
  | None, None => true
  | i, p => not_false (fun i => (1 <=? i) && (i <=? _safe_integer_max)) i && not_false (fun p => (1 <=? p) && (p <=? _safe_integer_max)) p
  end = true.
Proof.
  intros [[_ _ _ _ _ _ Hs] _ _ _ _ _ _]. cbn in Hs. destruct (installation_id r), (repository_id r); try done.
  destruct Hs as [G1%safe_column G2%safe_column]. unfold not_false. by rewrite G1.
Qed.

Lemma previous_column row r :
  row_holds row r -> (previous_event_hash r = None <-> sequence r = 1) ->
  match row_previous_event_hash row with
  | None => sequence r =? 1
  | Some h => (1 <? sequence r) && octets_between 32 32 h
  end = true.
Proof.
  intros Hh Hp. pose proof (record_ok_facts r (rh_ok _ _ Hh)) as [_ _ F9 F10 _ _ _].
  pose proof (rh_previous _ _ Hh) as E. destruct (previous_event_hash r) as [h|]; cbn in E.
  - destruct (fromhex h) as [b|] eqn:Eb; [|done]. injection E as <-. rewrite (hash_octets h b (F10 h eq_refl) Eb), andb_true_r.
    apply Z.ltb_lt. pose proof (safe_column _ F9) as [G%Z.leb_le _]%andb_true_iff'. assert (sequence r <> 1); [|lia]. intros E1. by apply Hp in E1.
  - injection E as <-. apply Z.eqb_eq. by apply Hp.
Qed.

(** Every constraint of the table holds of a record with its predecessor. *)
Lemma row_constraints row r :
  row_holds row r -> (previous_event_hash r = None <-> sequence r = 1) -> event_constraints row = true.
Proof.
  intros Hh Hp. pose proof (rh_ok _ _ Hh) as Hr. pose proof (record_ok_facts r Hr) as Hf. pose proof (scope_columns r Hf) as S1. pose proof (previous_column row r Hh Hp) as S2.
  pose proof (safe_column _ (rf_sequence r Hf)) as [S3 S4]%andb_true_iff'. destruct Hf as [[F1 F2 _ _ _ _ _] F8 _ _ F11 F12 F13].
  destruct (record_columns r Hr) as [C1 C2 C3 C4]. destruct (payload_column _ _ (rh_payload _ _ Hh)) as (C5 & _). destruct (record_shape r Hr) as [L1 L2].
  destruct (key_digest_Ok _ F1) as (d & Ed & Ld & _). cbn [_record_input ei_idempotency_key] in Ed. rewrite (rh_digest _ _ Hh) in Ed. injection Ed as Ed.
  pose proof (hash_octets _ _ F11 (rh_payload_hash _ _ Hh)) as H1. pose proof (hash_octets _ _ F12 (rh_input_hash _ _ Hh)) as H2. pose proof (hash_octets _ _ F13 (rh_event_hash _ _ Hh)) as H3.
  pose proof (octets_exact _ 32 32 _ Ld ltac:(lia)) as H4. pose proof (octets_exact _ 0 24 _ L1 ltac:(lia)) as H5. pose proof (octets_exact _ 0 38 _ L2 ltac:(lia)) as H6.
  unfold event_constraints. rewrite (rh_sequence _ _ Hh), (rh_installation _ _ Hh), (rh_repository _ _ Hh), (rh_type _ _ Hh), (rh_schema _ _ Hh), Ed,
    (rh_key _ _ Hh), (rh_subject _ _ Hh), (rh_event_type _ _ Hh), (rh_actor _ _ Hh), (rh_created _ _ Hh), (rh_id _ _ Hh).
  rewrite S1, S2, S3, S4, C1, C2, C3, C4, C5, H1, H2, H3, H4, H5, H6, F8, bool_decide_eq_true_2 by by apply bool_decide_eq_true in F2.
  by rewrite bool_decide_eq_true_2.
Qed.
End rows.
