(* ===== verification/AuditStore.v ===== *)
(** * What the audit tables promise

    The tables hold a linked chain of checked records under the head row.
    Storing a prepared event refines appending it to the chain in memory, and
    after any history of calls paged replay over the tables reports exactly the
    records whose append succeeded. *)

From stdpp Require Import base gmap sets list sorting strings.
From Stdlib Require Import ZArith Lia.
From S2P Require Import Prelude Text PyFloat CanonicalJson Hashing JsonLoads JsonRoundtrip Instants ConfigControl AuditEvents AuditChain AuditFacts AuditChainFacts AuditLedger AuditPages AuditRepository AuditRepositoryFacts.

(** ** Selections *)

Lemma one_or_none_find {A B} `{EqDecision B} (f : A -> B) k (l : list A) :
  NoDup (f <$> l) ->
  one_or_none (List.filter (fun x => bool_decide (f x = k)) l) = Ok (List.find (fun x => bool_decide (f x = k)) l).
Proof.
  induction l as [|x l IH]; [done|]. rewrite fmap_cons, NoDup_cons. intros [Hx Hn]. cbn [List.filter List.find].
  case_bool_decide as E; [|by apply IH]. assert (List.filter (fun x => bool_decide (f x = k)) l = []) as ->; [|done].
  destruct (List.filter _ l) as [|y m] eqn:Ey; [done|]. exfalso. apply Hx. assert (Hy : In y (y :: m)) by by left. rewrite <- Ey in Hy.
  apply filter_In in Hy as [Hy Ek%bool_decide_eq_true]. rewrite E, <- Ek. apply list_elem_of_fmap_2. by apply list_elem_of_In.
Qed.

(** Rows numbered from [k + 1] on. *)
Definition numbered (k : Z) (rows : list audit_row) : Prop := forall i row, rows !! i = Some row -> row_sequence row = k + Z.of_nat i + 1.

Lemma numbered_cons k row rows : numbered k (row :: rows) -> row_sequence row = k + 1 /\ numbered (k + 1) rows.
Proof. intros Hn. split; [rewrite (Hn 0%nat row eq_refl); lia|]. intros i r Hi. rewrite (Hn (S i) r Hi). lia. Qed.

Lemma numbered_range k rows after through :
  numbered k rows -> k <= through ->
  List.filter (fun r => (after <? row_sequence r) && (row_sequence r <=? through)) rows =
  drop (Z.to_nat (after - k)) (take (Z.to_nat (through - k)) rows).
Proof.
  revert k. induction rows as [|row rows IH]; intros k Hn Hk; [by rewrite take_nil, drop_nil|]. apply numbered_cons in Hn as [Er Hn].
  cbn [List.filter]. rewrite Er. destruct (Z.leb_spec (k + 1) through) as [Ht|Ht].
  - replace (Z.to_nat (through - k)) with (S (Z.to_nat (through - (k + 1)))) by lia. rewrite (IH (k + 1)) by (done || lia).
    destruct (Z.ltb_spec after (k + 1)) as [Ha|Ha]; cbn [andb take].
    + replace (Z.to_nat (after - k)) with 0%nat by lia. by replace (Z.to_nat (after - (k + 1))) with 0%nat by lia.
    + by replace (Z.to_nat (after - k)) with (S (Z.to_nat (after - (k + 1)))) by lia.
  - rewrite andb_false_r. replace (Z.to_nat (through - k)) with 0%nat by lia. cbn [take]. rewrite drop_nil.
    assert (Hf : forall j l, numbered j l -> through <= j -> List.filter (fun r => (after <? row_sequence r) && (row_sequence r <=? through)) l = []).
    { clear. intros j l. revert j. induction l as [|x l IH]; intros j Hn Hj; [done|]. apply numbered_cons in Hn as [Ex Hn]. cbn [List.filter].
      rewrite Ex, (proj2 (Z.leb_gt (j + 1) through)), andb_false_r by lia. apply (IH (j + 1)); [done|lia]. }
    apply (Hf (k + 1)); [done|lia].
Qed.

Lemma numbered_sorted k rows : numbered k rows -> StronglySorted (fun p q => (row_sequence p <=? row_sequence q) = true) rows.
Proof.
  revert k. induction rows as [|row rows IH]; intros k Hn; [constructor|]. apply numbered_cons in Hn as [Er Hn]. constructor; [by eapply IH|].
  apply Forall_lookup. intros i r Hi. rewrite (Hn i r Hi), Er. apply Z.leb_le. lia.
Qed.

Lemma sorted_sublist {A} (R : A -> A -> Prop) l l' : l' `sublist_of` l -> StronglySorted R l -> StronglySorted R l'.
Proof.
  induction 1 as [|x l1 l2 Hs IH|x l1 l2 Hs IH]; intros Hl; [constructor| |]; inversion Hl as [|? ? Hl2 Hx]; subst; [|by apply IH].
  constructor; [by apply IH|]. rewrite Forall_forall in Hx |- *. intros y Hy. apply Hx. by eapply elem_of_submseteq, sublist_submseteq.
Qed.

(** The maximum of a numbered table is its length. *)
Lemma numbered_maximum t : numbered 0 (audit_events t) ->
  maximum_row_sequence t = match audit_events t with [] => None | _ => Some (Z.of_nat (length (audit_events t))) end.
Proof.
  unfold maximum_row_sequence. destruct (audit_events t) as [|row rows]; [done|]. intros Hn. rewrite fmap_cons. f_equal.
  apply numbered_cons in Hn as [Er Hn]. rewrite Er.
  assert (Hg : forall k l, numbered k l -> foldl Z.max k (row_sequence <$> l) = k + Z.of_nat (length l)).
  { clear. intros k l. revert k. induction l as [|x l IH]; intros k Hn; [cbn; lia|]. apply numbered_cons in Hn as [Ex Hn]. rewrite fmap_cons. cbn [foldl length].
    rewrite Ex, Z.max_r by lia. rewrite IH by done. lia. }
  rewrite (Hg _ _ Hn). cbn [length]. lia.
Qed.

(** ** The tables *)

Section store.
Context `{Sha256}.

Record tables_hold (t : audit_tables) (rs : list AuditEventRecord) : Prop := {
  th_rows : Forall2 row_holds (audit_events t) rs;
  th_linked : linked None rs;
  th_digests : NoDup (row_idempotency_key_digest <$> audit_events t);
  th_ids : NoDup (row_audit_event_id <$> audit_events t);
  th_head : exists hash, _optional_hash_bytes (_event_hash (last rs)) = Ok hash /\
    audit_ledger_head t = Some {| head_revision := Z.of_nat (length rs);
      head_last_sequence := if bool_decide (rs = []) then None else Some (Z.of_nat (length rs)); head_last_event_hash := hash |};
}.

Definition empty_tables : audit_tables :=
  {| audit_events := []; audit_ledger_head := Some {| head_revision := 0; head_last_sequence := None; head_last_event_hash := None |} |}.

Lemma empty_hold : tables_hold empty_tables [].
Proof. split; [constructor|done|constructor|constructor|]. by exists None. Qed.

Lemma held_length t rs : tables_hold t rs -> length (audit_events t) = length rs.
Proof. intros Ht. by eapply Forall2_length, th_rows. Qed.

Lemma linked_numbered p rs i r : linked p rs -> rs !! i = Some r -> sequence r = _sequence p + Z.of_nat i + 1.
Proof.
  revert p i. induction rs as [|x rs IH]; intros p i Hl Hi; [done|]. destruct Hl as (_ & _ & Ex & _ & Hl). destruct i as [|i]; cbn in Hi.
  - injection Hi as <-. lia.
  - rewrite (IH (Some x) i Hl Hi). cbn. lia.
Qed.

Lemma held_numbered t rs : tables_hold t rs -> numbered 0 (audit_events t).
Proof.
  intros Ht i row Hi. destruct (Forall2_lookup_l _ _ _ _ _ (th_rows _ _ Ht) Hi) as (r & Hr & Hh).
  rewrite (rh_sequence _ _ Hh). by rewrite (linked_numbered None rs i r (th_linked _ _ Ht) Hr).
Qed.

Lemma rows_read rows rs : Forall2 row_holds rows rs -> mapR row_to_record rows = Ok rs.
Proof. intros Hf. apply mapR_Ok. eapply Forall2_impl; [exact Hf|]. apply record_read. Qed.

Lemma digest_text s d : idempotency_key_digest s = Ok d -> is_unicode_scalar_string s = true.
Proof. unfold idempotency_key_digest, utf8_encode. by destruct (is_unicode_scalar_string s). Qed.

(** Equal digests, equal keys. *)
Lemma digest_eq s s' d :
  collision_free [flat_map utf8_char s; flat_map utf8_char s'] ->
  idempotency_key_digest s = Ok d -> idempotency_key_digest s' = Ok d -> s = s'.
Proof.
  intros Hfree E E'. pose proof (digest_text _ _ E) as Hs. pose proof (digest_text _ _ E') as Hs'.
  destruct (key_digest_Ok s Hs) as (x & Ex & _ & Hx), (key_digest_Ok s' Hs') as (y & Ey & _ & Hy).
  assert (Eh : sha256 (flat_map utf8_char s) = sha256 (flat_map utf8_char s')) by congruence.
  assert (Eb : flat_map utf8_char s = flat_map utf8_char s') by (apply Hfree; [by left|by right; left|exact Eh]).
  pose proof (utf8_decode_encode s Hs) as D. rewrite Eb, utf8_decode_encode in D by done. congruence.
Qed.

Lemma held_keys t rs : tables_hold t rs -> NoDup (idempotency_key <$> rs).
Proof.
  intros Ht. apply NoDup_alt. intros i j k Hi Hj. rewrite !list_lookup_fmap in Hi, Hj.
  apply fmap_Some in Hi as (r1 & Hi & ->), Hj as (r2 & Hj & Ek).
  destruct (Forall2_lookup_r _ _ _ _ _ (th_rows _ _ Ht) Hi) as (w1 & W1 & H1), (Forall2_lookup_r _ _ _ _ _ (th_rows _ _ Ht) Hj) as (w2 & W2 & H2).
  eapply (proj1 (NoDup_alt _) (th_digests _ _ Ht)); [by rewrite list_lookup_fmap, W1|]. rewrite list_lookup_fmap, W2. cbn. f_equal.
  pose proof (rh_digest _ _ H1) as D1. pose proof (rh_digest _ _ H2) as D2. rewrite Ek in D1. congruence.
Qed.

(** ** The head and its predecessor *)

Lemma last_row t rs r : tables_hold t rs -> last rs = Some r ->
  exists row, row_holds row r /\ List.filter (fun row => row_sequence row =? Z.of_nat (length rs)) (audit_events t) = [row].
Proof.
  intros Ht Hl. pose proof (held_numbered _ _ Ht) as Hn. apply last_Some in Hl as (rs' & ->).
  destruct (proj1 (Forall2_app_inv_r _ _ _ _) (th_rows _ _ Ht)) as (rows & rows' & Hf & Hf' & E). apply Forall2_cons_inv_r in Hf' as (row & l & Hr & Hnil & ->).
  apply Forall2_nil_inv_r in Hnil as ->. exists row. split; [done|]. rewrite E in *. pose proof (Forall2_length _ _ _ Hf) as Hlen. rewrite length_app. cbn [length].
  assert (Hrow : row_sequence row = Z.of_nat (length rs' + 1)).
  { rewrite (Hn (length rows) row); [lia|]. by rewrite list_lookup_middle. }
  rewrite List.filter_app. cbn [List.filter]. rewrite Hrow, Z.eqb_refl. replace (List.filter _ rows) with (@nil audit_row); [done|]. symmetry.
  assert (Hs : forall x, In x rows -> row_sequence x <> Z.of_nat (length rs' + 1)).
  { intros x (i & Hi)%list_elem_of_In%list_elem_of_lookup_1. rewrite (Hn i x) by by apply lookup_app_l_Some. apply lookup_lt_Some in Hi. lia. }
  clear -Hs. induction rows as [|x l IH]; [done|]. cbn [List.filter]. rewrite (proj2 (Z.eqb_neq _ _)) by (apply Hs; by left). apply IH. intros y Hy. apply Hs. by right.
Qed.

Lemma head_read t rs : tables_hold t rs -> exists head, _lock_head t = Ok head /\ head_revision head = Z.of_nat (length rs) /\ _previous_from_head t head = Ok (last rs).
Proof.
  intros Ht. destruct (th_head _ _ Ht) as (hash & Eh & E). unfold _lock_head. rewrite E. eexists. split_and!; [done|done|].
  unfold _previous_from_head. cbn [head_revision head_last_sequence head_last_event_hash]. destruct (last rs) as [r|] eqn:El.
  - assert (Hne : rs <> []) by by intros ->. rewrite (bool_decide_eq_false_2 (rs = [])) by done.
    assert (Hpos : Z.of_nat (length rs) <> 0) by (destruct rs; cbn; [done|lia]). rewrite (proj2 (Z.eqb_neq _ _)) by done.
    destruct (last_row t rs r Ht El) as (row & Hr & ->). cbn [one_or_none mbind res_bind]. rewrite (record_read _ _ Hr). cbn [mbind res_bind].
    cbn in Eh. destruct (fromhex (event_hash r)) as [b|]; [|done]. injection Eh as <-. cbn [mbind res_bind].
    pose proof (linked_sequence _ _ (th_linked _ _ Ht)) as Hs. unfold last_or in Hs. rewrite El in Hs. cbn [_sequence] in Hs. rewrite Hs.
    by rewrite !bool_decide_eq_false_2 by (intros Hn; by apply Hn).
  - apply last_None in El as ->. cbn in Eh. injection Eh as <-. done.
Qed.

(** ** Storing one event *)

Definition prepared_from (i : InputLike) (p : PreparedAuditEvent) : Prop := input_like_ok i /\ prepare_audit_event i = Ok p.

Lemma prepared_bytes i p : prepared_from i p -> normal_payload (ei_payload (pr_input p)) (payload_canonical_bytes p).
Proof.
  intros [Hi E]. unfold prepare_audit_event in E. apply bind_Ok in E as (o & Eo & E). destruct i as [o'|]; [|done]. cbn in Eo.
  apply bind_Ok in Eo as (? & Hv%raise_message_Ok & [= <-]). destruct Hi as [Hw _].
  apply bind_Ok in E as ([] & _ & E). apply bind_Ok in E as (b & Eb & E). apply bind_Ok in E as (q & Eq & E).
  apply bind_Ok in E as (e & _ & E). apply bind_Ok in E as (ih & _ & [= <-]). cbn [pr_input ei_payload payload_canonical_bytes].
  assert (Hs : snapshot_persistable_audit_payload (io_payload o') (u "payload") = Ok q) by (unfold snapshot_persistable_audit_payload; by rewrite Eb).
  destruct (snapshot_bytes _ _ _ Hw Hs) as (b' & Eb' & _ & Hp). by assert (b' = b) as -> by congruence.
Qed.

(** Preparing a prepared input gives it back. *)
Lemma prepared_again i p : prepared_from i p -> prepare_audit_event (InputExact (input_object (pr_input p))) = Ok p.
Proof.
  intros Hp. pose proof (prepared_bytes _ _ Hp) as Hb. destruct Hp as [Hi E]. destruct (prepared_facts i p Hi E) as (Hr & Hc & Eh & Ei & _).
  destruct (prepare_ready _ Hr) as (p' & E' & Ep'). rewrite E'. f_equal.
  assert (Hi' : input_like_ok (InputExact (input_object (pr_input p)))) by (destruct Hr as (_ & _ & Ht & b & [[_ ?] _]); done).
  pose proof (prepared_bytes _ _ (conj Hi' E')) as Hb'. destruct (prepared_facts _ p' Hi' E') as (_ & Hc' & Eh' & Ei' & _). rewrite Ep' in Hb', Eh', Ei'.
  destruct Hb as (_ & _ & Eb), Hb' as (_ & _ & Eb'). destruct p, p'. cbn in *. congruence.
Qed.

Lemma built_prepared p prev a p2 :
  build_prepared_audit_event p prev = Ok (a, p2) -> payload_hash a = pr_payload_hash p /\ input_hash a = pr_input_hash p.
Proof.
  unfold build_prepared_audit_event. intros E. apply bind_Ok in E as (q & _ & E). apply bind_Ok in E as (? & _ & E). apply bind_Ok in E as ([py p3] & _ & E).
  apply bind_Ok in E as (h & _ & [= <- _]). done.
Qed.

(** The record an event becomes at the end of a stored ledger. *)
Lemma attempted_record t rs i p :
  tables_hold t rs -> prepared_from i p -> Z.of_nat (length rs) < MAX_SAFE_JSON_INTEGER ->
  exists a p2, build_prepared_audit_event p (optional_record (last rs)) = Ok (a, p2) /\
    build_audit_event (InputExact (input_object (pr_input p))) (optional_record (last rs)) = Ok a /\
    _record_input a = pr_input p /\ linked (last rs) [a] /\ prepared_for a p.
Proof.
  intros Ht Hp Hlen. pose proof (prepared_bytes _ _ Hp) as Hb. pose proof (prepared_again _ _ Hp) as Ea. destruct Hp as [Hi E].
  destruct (prepared_facts i p Hi E) as (Hr & _). destruct (build_on_chain (pr_input p) rs Hr (th_linked _ _ Ht) Hlen) as (a & E2 & Ei & Hl).
  pose proof E2 as E3. unfold build_audit_event in E2. rewrite Ea in E2. cbn [mbind res_bind] in E2. apply fmap_Ok in E2 as ([a' p2] & E2 & ->). cbn [fst] in *.
  destruct (built_prepared _ _ _ _ E2) as [H1 H2]. exists a', p2. split_and!; [done..|]. split_and!; [done..|]. by rewrite <- Ei in Hb.
Qed.

(** What storing an event does, by what its key and its identifier meet. *)
Lemma append_cases t rs i p scope :
  tables_hold t rs -> prepared_from i p -> _require_prepared_scope p scope = Ok tt -> Z.of_nat (length rs) < MAX_SAFE_JSON_INTEGER ->
  exists a d, idempotency_key_digest (ei_idempotency_key (pr_input p)) = Ok d /\
    build_audit_event (InputExact (input_object (pr_input p))) (optional_record (last rs)) = Ok a /\
    _record_input a = pr_input p /\ linked (last rs) [a] /\ prepared_for a p /\
    _append t p scope =
      match List.find (fun row => bool_decide (row_idempotency_key_digest row = d)) (audit_events t) with
      | Some row =>
          _require_stored_scope row scope ;;
          existing ← row_to_record row;
          if bool_decide (idempotency_key existing <> idempotency_key a)
          then violation "audit idempotency digest collision"
          else if bool_decide (input_hash existing = input_hash a)
          then Ok (AuditAppendDuplicate existing, t)
          else Ok (AuditAppendConflict existing a
                     (u "audit event idempotency key " ++ idempotency_key a ++ u " already exists with different content"), t)
      | None =>
          match List.find (fun row => bool_decide (row_audit_event_id row = audit_event_id a)) (audit_events t) with
          | Some _ => Raise (PersistenceInvariantViolation (u "audit event " ++ audit_event_id a ++ u " already exists"))
          | None =>
              row ← prepared_record_to_row a p;
              rows ← insert_event (audit_events t) row;
              t' ← head_update t rows (Z.of_nat (length rs)) a;
              Ok (AuditAppendAppended a, t')
          end
      end.
Proof.
  intros Ht Hp Hs Hlen. destruct (attempted_record t rs i p Ht Hp Hlen) as (a & p2 & E2 & E3 & Ei & Hl & Hfor).
  destruct (head_read t rs Ht) as (head & Elock & Erev & Eprev). pose proof Hl as (Hra & _). pose proof (record_ok_facts a Hra) as [[F1 _ _ _ _ _ _] _ _ _ _ _ _].
  assert (Ek : idempotency_key a = ei_idempotency_key (pr_input p)) by by rewrite <- Ei. cbn [_record_input ei_idempotency_key] in F1.
  destruct (key_digest_Ok _ F1) as (d & Ed & _). rewrite Ek in Ed. exists a, d. split_and!; [done..|].
  unfold _append. rewrite Hs. cbn [mbind res_bind]. rewrite Elock. cbn [mbind res_bind]. rewrite Eprev. cbn [mbind res_bind]. rewrite E2. cbn [mbind res_bind].
  unfold _find_row_by_idempotency_key, _reject_event_id_collision. rewrite Ed. cbn [mbind res_bind]. rewrite (one_or_none_find row_idempotency_key_digest d) by apply Ht. cbn [mbind res_bind]. rewrite <- Ek, Erev.
  destruct (List.find _ (audit_events t)) as [row|]; [done|]. rewrite (one_or_none_find row_audit_event_id) by apply Ht. cbn [mbind res_bind].
  by destruct (List.find _ (audit_events t)).
Qed.

Lemma find_free {B} `{EqDecision B} (f : audit_row -> B) k rows :
  List.find (fun row => bool_decide (f row = k)) rows = None -> k ∉ f <$> rows.
Proof.
  intros Hf (row & -> & Hin)%list_elem_of_fmap. apply list_elem_of_In, (List.find_none _ _ Hf) in Hin. by rewrite bool_decide_eq_true_2 in Hin.
Qed.

Lemma linked_snoc rs a : linked None rs -> linked (last rs) [a] -> linked None (rs ++ [a]).
Proof. intros Hl Ha. apply linked_app. split; [done|]. unfold last_or. by destruct (last rs). Qed.

Lemma hash_bytes_eq h h' b : is_sha256_hex h = true -> is_sha256_hex h' = true -> fromhex h = Ok b -> fromhex h' = Ok b -> h = h'.
Proof. intros Hh Hh' E E'. destruct (fromhex_sha256 h Hh) as (x & Ex & <- & _), (fromhex_sha256 h' Hh') as (y & Ey & <- & _). congruence. Qed.

Lemma record_hash r : record_ok r -> is_sha256_hex (event_hash r) = true.
Proof. intros Hr. by apply record_ok_facts in Hr as [_ _ _ _ _ _ ?]. Qed.

Lemma held_row t rs row : tables_hold t rs -> row ∈ audit_events t -> exists r, r ∈ rs /\ row_holds row r /\ content_ok r.
Proof.
  intros Ht (i & Hi)%list_elem_of_lookup_1. destruct (Forall2_lookup_l _ _ _ _ _ (th_rows _ _ Ht) Hi) as (r & Hr & Hh). exists r.
  pose proof (list_elem_of_lookup_2 _ _ _ Hr) as Hin. split_and!; [done..|]. apply list_elem_of_split in Hin as (l1 & l2 & ->).
  pose proof (th_linked _ _ Ht) as Hl. by apply linked_app in Hl as [_ (_ & ? & _)].
Qed.

Lemma last_sequence_length t rs : tables_hold t rs -> _sequence (last rs) = Z.of_nat (length rs).
Proof.
  intros Ht. pose proof (linked_sequence _ _ (th_linked _ _ Ht)) as Hs. unfold last_or in Hs. cbn [_sequence] in Hs. by destruct (last rs).
Qed.

(** A fresh record's row meets every constraint. *)
Lemma row_inserted t rs a row :
  tables_hold t rs -> linked (last rs) [a] -> row_holds row a ->
  (row_idempotency_key_digest row ∉ row_idempotency_key_digest <$> audit_events t) -> (audit_event_id a ∉ row_audit_event_id <$> audit_events t) ->
  insert_event (audit_events t) row = Ok (audit_events t ++ [row]).
Proof.
  intros Ht (Hra & Hca & Hsa & Hpa & _) Hh Hd Hid. rewrite (last_sequence_length _ _ Ht) in Hsa.
  assert (Hprev : previous_event_hash a = None <-> sequence a = 1).
  { rewrite Hpa, Hsa. destruct (last rs) as [r|] eqn:El; [|by apply last_None in El as ->]. split; [done|]. destruct rs; [done|cbn; lia]. }
  unfold insert_event. rewrite (row_constraints row a Hh Hprev). cbn [andb].
  assert (event_keys_free (audit_events t) row = true) as ->; [|done]. unfold event_keys_free. apply andb_true_iff'. split.
  - apply forallb_elem. intros q Hq. destruct (held_row t rs q Ht Hq) as (r & Hin & Hr & Hc). pose proof (rh_ok _ _ Hr) as Hro.
    assert (N1 : row_sequence q <> row_sequence row).
    { rewrite (rh_sequence _ _ Hh), (rh_sequence _ _ Hr). apply list_elem_of_lookup_1 in Hin as (i & Hi). pose proof (lookup_lt_Some _ _ _ Hi).
      rewrite (linked_numbered None rs i r (th_linked _ _ Ht) Hi), Hsa. cbn. lia. }
    assert (N2 : row_idempotency_key_digest q <> row_idempotency_key_digest row) by (intros E; apply Hd; rewrite <- E; by apply list_elem_of_fmap_2).
    assert (N3 : row_audit_event_id q <> row_audit_event_id row) by (rewrite (rh_id _ _ Hh); intros E; apply Hid; rewrite <- E; by apply list_elem_of_fmap_2).
    assert (N4 : row_event_hash q <> row_event_hash row).
    { intros E. apply N3. rewrite (rh_id _ _ Hh), (rh_id _ _ Hr). destruct Hc as (_ & _ & _ & ->), Hca as (_ & _ & _ & ->). do 2 f_equal.
      eapply hash_bytes_eq; [by apply record_hash..|by apply (rh_event_hash _ _ Hr)|rewrite E; by apply (rh_event_hash _ _ Hh)]. }
    rewrite (proj2 (Z.eqb_neq _ _) N1), !bool_decide_eq_false_2 by done. done.
  - pose proof (rh_previous _ _ Hh) as E. rewrite Hpa in E. destruct (last rs) as [r|] eqn:El; cbn in E; [|by injection E as <-].
    destruct (fromhex (event_hash r)) as [b|] eqn:Eb; [|done]. injection E as <-. apply existsb_elem.
    destruct (last_row t rs r Ht El) as (q & Hq & Hf). exists q. assert (Hin : In q [q]) by by left. rewrite <- Hf in Hin. apply filter_In in Hin as [Hin _].
    split; [by apply list_elem_of_In|]. apply bool_decide_eq_true_2. pose proof (rh_event_hash _ _ Hq). congruence.
Qed.

Lemma head_accepted t a row b :
  row_holds row a -> fromhex (event_hash a) = Ok b ->
  head_constraints (audit_events t ++ [row]) {| head_revision := sequence a; head_last_sequence := Some (sequence a); head_last_event_hash := Some b |} = true.
Proof.
  intros Hh Eb. pose proof (rh_ok _ _ Hh) as Hra. pose proof (safe_column _ (record_ok_sequence a Hra)) as [H1 H2]%andb_true_iff'.
  unfold head_constraints, not_false. cbn [head_revision head_last_sequence head_last_event_hash]. rewrite H1, H2, Z.eqb_refl, (hash_octets _ b (record_hash a Hra) Eb).
  assert (H0 : (0 <=? sequence a) = true) by (apply Z.leb_le in H1; apply Z.leb_le; lia). rewrite H0. cbn [andb]. rewrite existsb_app. cbn [existsb].
  rewrite bool_decide_eq_true_2; [by rewrite orb_true_r|]. pose proof (rh_event_hash _ _ Hh). congruence.
Qed.

(** The new tables. *)
Lemma record_stored t rs a p :
  tables_hold t rs -> linked (last rs) [a] -> prepared_for a p ->
  (forall d, idempotency_key_digest (idempotency_key a) = Ok d -> d ∉ row_idempotency_key_digest <$> audit_events t) ->
  (audit_event_id a ∉ row_audit_event_id <$> audit_events t) ->
  exists t', (row ← prepared_record_to_row a p; rows ← insert_event (audit_events t) row; t' ← head_update t rows (Z.of_nat (length rs)) a;
              Ok (AuditAppendAppended a, t')) = Ok (AuditAppendAppended a, t') /\ tables_hold t' (rs ++ [a]).
Proof.
  intros Ht Hl Hp Hd Hid. pose proof Hl as (Hra & _ & Hsa & _). destruct (record_written a p Hra Hp) as (row & -> & Hh). cbn [mbind res_bind].
  specialize (Hd _ (rh_digest _ _ Hh)). rewrite (row_inserted t rs a row) by done. cbn [mbind res_bind].
  destruct (fromhex_sha256 _ (record_hash a Hra)) as (b & Eb & _). unfold head_update. rewrite Eb. cbn [mbind res_bind].
  destruct (th_head _ _ Ht) as (hash & _ & ->). cbn [head_revision]. rewrite Z.eqb_refl, (head_accepted t a row b) by done. cbn [negb raise_if mbind res_bind].
  eexists. split; [done|].
  pose proof (linked_sequence _ _ (linked_snoc _ _ (th_linked _ _ Ht) Hl)) as Hs. unfold last_or in Hs. rewrite last_snoc in Hs. cbn [_sequence] in Hs.
  split; cbn [audit_events audit_ledger_head].
  - apply Forall2_app; [apply Ht|]. by constructor.
  - by apply linked_snoc; [apply Ht|].
  - rewrite fmap_app. apply NoDup_app. split_and!; [apply Ht| |apply NoDup_singleton]. intros x Hx ->%list_elem_of_singleton. done.
  - rewrite fmap_app. apply NoDup_app. split_and!; [apply Ht| |apply NoDup_singleton]. intros x Hx ->%list_elem_of_singleton. by rewrite (rh_id _ _ Hh) in Hx.
  - exists (Some b). rewrite last_snoc. cbn [_event_hash fmap option_fmap option_map _optional_hash_bytes]. rewrite Eb. split; [done|].
    rewrite bool_decide_eq_false_2 by by destruct rs. rewrite Hs. repeat f_equal; lia.
Qed.

(** ** Against the chain in memory *)

Definition objects (rs : list AuditEventRecord) : list AuditEventRecordLike := RecordExact ∘ record_object <$> rs.

Lemma objects_verified t rs : tables_hold t rs -> verified (objects rs) rs.
Proof. intros Ht. apply linked_verified; [apply records_decode; by eapply linked_ok, th_linked|apply Ht|by eapply held_keys]. Qed.

Lemma objects_ok t rs : tables_hold t rs -> Forall like_ok (objects rs).
Proof. intros Ht. apply Forall_fmap. eapply Forall_impl; [by eapply linked_ok, th_linked|]. apply record_like_ok. Qed.

Lemma prepared_snapshot i p : prepared_from i p -> snapshot_audit_event_input i = Ok (pr_input p).
Proof.
  intros [Hi E]. unfold snapshot_audit_event_input. rewrite E. cbn [mbind res_bind]. destruct (prepared_facts i p Hi E) as (_ & Hc & _).
  unfold _audit_event_input_from_prepared, _take_payload_for_record. rewrite Hc. cbn. by destruct (pr_input p).
Qed.

Lemma held_record t rs r : tables_hold t rs -> r ∈ rs -> exists row, row ∈ audit_events t /\ row_holds row r /\ content_ok r.
Proof.
  intros Ht (i & Hi)%list_elem_of_lookup_1. destruct (Forall2_lookup_r _ _ _ _ _ (th_rows _ _ Ht) Hi) as (row & Hr & Hh). exists row.
  split_and!; [by eapply list_elem_of_lookup_2|done|]. destruct (held_row t rs row Ht) as (r' & _ & Hh' & Hc); [by eapply list_elem_of_lookup_2|].
  assert (Ok r = Ok r') as [= ->]; [|done]. by rewrite <- (record_read _ _ Hh), <- (record_read _ _ Hh').
Qed.

Lemma find_row {B} `{EqDecision B} (f : audit_row -> B) k rows row :
  List.find (fun row => bool_decide (f row = k)) rows = Some row -> row ∈ rows /\ f row = k.
Proof. intros [Hin E%bool_decide_eq_true]%List.find_some. by rewrite list_elem_of_In. Qed.

(** The event of a key, in the tables and in the chain. *)
Lemma find_agrees t rs k d :
  tables_hold t rs -> idempotency_key_digest k = Ok d ->
  match List.find (fun row => bool_decide (row_idempotency_key_digest row = d)) (audit_events t) with
  | Some row => exists r, row_holds row r /\ content_ok r /\ r ∈ rs /\
      (collision_free [flat_map utf8_char (idempotency_key r); flat_map utf8_char k] ->
       List.find (fun r => bool_decide (idempotency_key r = k)) rs = Some r /\ idempotency_key r = k)
  | None => List.find (fun r => bool_decide (idempotency_key r = k)) rs = None
  end.
Proof.
  intros Ht Ed. destruct (List.find _ (audit_events t)) as [row|] eqn:E.
  - apply find_row in E as [Hin Er]. destruct (held_row t rs row Ht Hin) as (r & Hr & Hh & Hc). exists r. split_and!; [done..|]. intros Hfree.
    pose proof (rh_digest _ _ Hh) as D. rewrite Er in D. assert (Ek : idempotency_key r = k) by by eapply digest_eq.
    split; [|done]. pose proof (find_key k rs) as Hf. destruct (List.find _ rs) as [x|].
    + destruct Hf as [Hx Ex]. f_equal. apply list_elem_of_lookup_1 in Hx as (i & Hi), Hr as (j & Hj).
        assert (i = j) as ->; [|congruence]. eapply (proj1 (NoDup_alt _) (held_keys _ _ Ht)); [by rewrite list_lookup_fmap, Hi|].
        rewrite list_lookup_fmap, Hj. cbn. congruence.
    + exfalso. apply Hf. rewrite <- Ek. by apply list_elem_of_fmap_2.
  - apply find_free in E. pose proof (find_key k rs) as Hf. destruct (List.find _ rs) as [x|]; [|done]. destruct Hf as [Hx Ex]. exfalso.
    destruct (held_record t rs x Ht Hx) as (row & Hin & Hh & _). apply E. pose proof (rh_digest _ _ Hh) as D. rewrite Ex, Ed in D. injection D as ->.
    by apply list_elem_of_fmap_2.
Qed.

Lemma find_id_agrees t rs id :
  tables_hold t rs ->
  match List.find (fun row => bool_decide (row_audit_event_id row = id)) (audit_events t) with Some _ => true | None => false end =
  existsb (fun r => bool_decide (audit_event_id r = id)) rs.
Proof.
  intros Ht. destruct (List.find _ (audit_events t)) as [row|] eqn:E; symmetry.
  - apply find_row in E as [Hin Er]. destruct (held_row t rs row Ht Hin) as (r & Hr & Hh & _). apply existsb_elem. exists r. split; [done|].
    apply bool_decide_eq_true_2. by rewrite <- (rh_id _ _ Hh).
  - apply find_free in E. apply existsb_false. intros r Hr. destruct (held_record t rs r Ht Hr) as (row & Hin & Hh & _).
    apply bool_decide_eq_false_2. intros Er. apply E. rewrite <- Er, <- (rh_id _ _ Hh). by apply list_elem_of_fmap_2.
Qed.

(** The simulation: what a storing call does for each outcome of appending in
    memory. *)
Definition stored_as (t : audit_tables) (rs : list AuditEventRecord) (scope : option RepositoryScope)
    (outcome : res AuditAppendResult) (stored : res (AuditAppendResult * audit_tables)) : Prop :=
  match outcome with
  | Ok (AuditAppendAppended r) => exists t', stored = Ok (AuditAppendAppended r, t') /\ tables_hold t' (rs ++ [r])
  | Ok (AuditAppendDuplicate r) => stored = Ok (AuditAppendDuplicate r, t)
  | Ok (AuditAppendConflict r a m) =>
      if scope_agrees (installation_id r) (repository_id r) scope then stored = Ok (AuditAppendConflict r a m, t)
      else exists m, stored = Raise (PersistenceInvariantViolation m)
  | Raise _ => exists m, stored = Raise (PersistenceInvariantViolation m)
  end.

Lemma prepared_scope_Ok p scope :
  _require_prepared_scope p scope = Ok tt <-> scope_agrees (ei_installation_id (pr_input p)) (ei_repository_id (pr_input p)) scope = true.
Proof. unfold _require_prepared_scope. rewrite raise_if_Ok. apply negb_false_iff'. Qed.

(** The bytes hashed for an event that is stored: its idempotency key, its
    payload and its input identity. *)
Definition stored_bytes (e : AuditEventInput) : list (list Z) := flat_map utf8_char (ei_idempotency_key e) :: event_bytes e.

(** C20: storing a prepared event does what appending it to the chain in memory
    does: the same record is appended and the tables then hold the longer
    chain, a duplicate and a conflict are answered alike and change nothing, and
    a call fails only where appending fails or the key belongs to another
    repository scope.  The tables find an event by the digest of its key, so no
    two of the byte strings hashed for the ledger's events and for this one may
    have one digest. *)
Theorem stored_append_refines t rs i p scope :
  tables_hold t rs -> prepared_from i p -> _require_prepared_scope p scope = Ok tt -> Z.of_nat (length rs) < MAX_SAFE_JSON_INTEGER ->
  collision_free (flat_map (fun r => stored_bytes (_record_input r)) rs ++ stored_bytes (pr_input p)) ->
  stored_as t rs scope (append_event (objects rs) i) (_append t p scope).
Proof.
  intros Ht Hp Hscope Hlen Hfree. destruct (append_cases t rs i p scope Ht Hp Hscope Hlen) as (a & d & Ed & Eb & Ei & Hl & Hfor & ->).
  pose proof (objects_verified t rs Ht) as Hv. unfold append_event. rewrite (prepared_snapshot i p Hp). cbn [mbind res_bind].
  unfold verified in Hv. rewrite Hv. cbn [mbind res_bind]. rewrite Eb. cbn [mbind res_bind].
  assert (Ek : idempotency_key a = ei_idempotency_key (pr_input p)) by by rewrite <- Ei. rewrite <- Ek in Ed. pose proof Hl as (Hra & Hca & _).
  pose proof (find_agrees t rs (idempotency_key a) d Ht Ed) as Hf. destruct (List.find _ (audit_events t)) as [row|] eqn:Er.
  - destruct Hf as (r & Hh & Hc & Hr & Hfind). set (bs := flat_map _ rs ++ _) in Hfree.
    assert (Sr : stored_bytes (_record_input r) ⊆ bs).
    { intros b Hb. apply elem_of_app. left. apply list_elem_of_In, in_flat_map. exists r. by rewrite <- !list_elem_of_In. }
    assert (Sa : stored_bytes (_record_input a) ⊆ bs) by (rewrite Ei; intros b Hb; apply elem_of_app; by right).
    destruct Hfind as [-> Ekr].
    { eapply collision_free_part; [|exact Hfree]. intros b [->|[->|[]%not_elem_of_nil]%elem_of_cons]%elem_of_cons; [apply Sr|apply Sa]; by left. }
    unfold _require_stored_scope. rewrite (rh_installation _ _ Hh), (rh_repository _ _ Hh).
    rewrite (record_read _ _ Hh). cbn [mbind res_bind]. rewrite (bool_decide_eq_false_2 (idempotency_key r <> _)) by (intros Hn; by apply Hn). case_bool_decide as Eh.
    + destruct (input_hash_eq bs r a Hfree) as (_ & _ & _ & _ & _ & E1 & E2); [intros b Hb; apply Sr; by right|intros b Hb; apply Sa; by right|apply Hh|done..|]. apply prepared_scope_Ok in Hscope.
      rewrite <- Ei, <- E1, <- E2 in Hscope. by rewrite Hscope.
    + cbn [stored_as]. destruct (scope_agrees _ _ scope); cbn; [done|by eexists].
  - rewrite Hf, <- (find_id_agrees t rs (audit_event_id a) Ht). destruct (List.find (fun row => bool_decide (row_audit_event_id row = audit_event_id a)) (audit_events t)) as [row|] eqn:Eid; [by eexists|].
    apply find_free in Er, Eid. cbn [stored_as]. apply record_stored; [done|done|done| |done]. intros d' E'. rewrite Ed in E'. by injection E' as <-.
Qed.

(** ** Histories of calls *)

Inductive ledger_call :=
  | Append (event : PreparedAuditEvent)
  | AppendPairOwned (event : PreparedAuditEvent) (scope : RepositoryScope)
  | FindPairOwned (key type : pystr) (scope : RepositoryScope).

Definition call_event (c : ledger_call) : option PreparedAuditEvent :=
  match c with Append e | AppendPairOwned e _ => Some e | FindPairOwned _ _ _ => None end.

(** A call with the tables its transaction leaves. *)
Definition call_result (t : audit_tables) (c : ledger_call) : res (option AuditAppendResult * audit_tables) :=
  match c with
  | Append e => (fun x => (Some x.1, x.2)) <$> repository_append t e
  | AppendPairOwned e s => (fun x => (Some x.1, x.2)) <$> _append_pair_owned t e s
  | FindPairOwned k ty s => (fun _ => (None, t)) <$> _find_pair_owned t k ty s
  end.

Definition appended_records (r : option AuditAppendResult) : list AuditEventRecord :=
  match r with Some (AuditAppendAppended r) => [r] | _ => [] end.

(** The tables after a history, and the records the calls said they appended. *)
Fixpoint ledger_run (t : audit_tables) (calls : list ledger_call) : audit_tables * list AuditEventRecord :=
  match calls with
  | [] => (t, [])
  | c :: calls =>
      match call_result t c with
      | Ok (r, t') => let '(t'', rs) := ledger_run t' calls in (t'', appended_records r ++ rs)
      | Raise _ => ledger_run t calls
      end
  end.

(** Every successful storing call keeps the invariant. *)
Lemma append_holds t rs i p scope r t' :
  tables_hold t rs -> prepared_from i p -> _append t p scope = Ok (r, t') -> tables_hold t' (rs ++ appended_records (Some r)).
Proof.
  intros Ht Hp E. assert (Hs : _require_prepared_scope p scope = Ok tt) by (unfold _append in E; by apply bind_Ok in E as ([] & ? & _)).
  assert (Hlen : Z.of_nat (length rs) < MAX_SAFE_JSON_INTEGER).
  { unfold _append in E. rewrite Hs in E. cbn [mbind res_bind] in E. destruct (head_read t rs Ht) as (head & Elock & _ & Eprev). rewrite Elock in E. cbn [mbind res_bind] in E.
    rewrite Eprev in E. cbn [mbind res_bind] in E. apply bind_Ok in E as ([a p2] & E & _). destruct (build_prepared_audit_event p _) as [[a' p3]|[]] eqn:Eb; try done.
    injection E as <- <-. assert (Eb' : build_audit_event (InputExact (input_object (pr_input p))) (optional_record (last rs)) = Ok a').
    { unfold build_audit_event. rewrite (prepared_again i p Hp). cbn [mbind res_bind]. by rewrite Eb. }
    destruct Hp as [Hi Ep]. destruct (prepared_facts i p Hi Ep) as (Hr & _).
    destruct (built_links (pr_input p) (last rs) a' Hr) as [_ (Hra & _ & Hsa & _)]; [|done|].
    - intros q Eq. by destruct (linked_head _ _ (th_linked _ _ Ht) q Eq).
    - pose proof (record_ok_sequence _ Hra) as Hq. rewrite Hsa, (last_sequence_length t rs Ht) in Hq.
      unfold is_positive_safe_int, is_safe_json_integer, is_safe_int in Hq. lia. }
  destruct (append_cases t rs i p scope Ht Hp Hs Hlen) as (a & d & Ed & _ & Ei & Hl & Hfor & E'). rewrite E' in E. clear E'.
  destruct (List.find (fun row => bool_decide (row_idempotency_key_digest row = d)) (audit_events t)) as [row|] eqn:Er.
  - apply bind_Ok in E as ([] & _ & E). apply bind_Ok in E as (x & _ & E). case_bool_decide; [done|]. case_bool_decide; injection E as <- <-; by rewrite app_nil_r.
  - destruct (List.find (fun row => bool_decide (row_audit_event_id row = audit_event_id a)) (audit_events t)) as [row|] eqn:Eid; [done|].
    apply find_free in Er, Eid. assert (Ek : idempotency_key a = ei_idempotency_key (pr_input p)) by by rewrite <- Ei.
    destruct (record_stored t rs a p Ht Hl Hfor) as (t2 & E2 & Ht2); [|done|].
    + intros d' Ed'. rewrite Ek, Ed in Ed'. by injection Ed' as <-.
    + rewrite E2 in E. by injection E as <- <-.
Qed.

Lemma store_guard_Ok {A} m (r : res A) x : store_guard m r = Ok x <-> r = Ok x.
Proof. destruct r as [|[]]; done. Qed.

Lemma call_holds t rs c r t' :
  tables_hold t rs -> (forall p, call_event c = Some p -> exists i, prepared_from i p) -> call_result t c = Ok (r, t') ->
  tables_hold t' (rs ++ appended_records r).
Proof.
  intros Ht Hc E. destruct c as [p|p s|k ty s]; apply fmap_Ok in E as (x & E & [= -> ->]).
  - destruct (Hc p eq_refl) as (i & Hp). unfold repository_append in E. destruct (_is_pair_owned_audit_event_type _); [done|].
    apply store_guard_Ok in E. apply bind_Ok in E as (scope & _ & E). destruct x as [r2 t2]. by eapply append_holds.
  - destruct (Hc p eq_refl) as (i & Hp). unfold _append_pair_owned in E. destruct (negb _); [done|].
    apply store_guard_Ok in E. destruct x as [r2 t2]. by eapply append_holds.
  - by rewrite app_nil_r.
Qed.

Lemma run_holds calls t rs t' rs' :
  tables_hold t rs -> Forall (fun c => forall p, call_event c = Some p -> exists i, prepared_from i p) calls ->
  ledger_run t calls = (t', rs') -> tables_hold t' (rs ++ rs').
Proof.
  intros Ht Hc. revert t rs rs' Ht. induction Hc as [|c calls Hp _ IH]; intros t rs rs' Ht E; cbn [ledger_run] in E.
  - injection E as <- <-. by rewrite app_nil_r.
  - destruct (call_result t c) as [[r t2]|] eqn:Ec; [|by eapply IH]. destruct (ledger_run t2 calls) as [t3 rs3] eqn:Er. injection E as <- <-.
    rewrite app_assoc. eapply IH; [|exact Er]. by eapply call_holds.
Qed.

(** ** The tables as a repository *)

Lemma held_snapshot t rs : tables_hold t rs ->
  ledger_snapshot t = Ok {| last_sequence := Z.of_nat (length rs); last_event_hash := _event_hash (last rs);
                            maximum_sequence := if bool_decide (rs = []) then None else Some (Z.of_nat (length rs)) |}.
Proof.
  intros Ht. destruct (th_head _ _ Ht) as (hash & Eh & E). unfold ledger_snapshot. apply store_guard_Ok. unfold load_audit_ledger_snapshot, _lock_head.
  rewrite E. cbn [mbind res_bind head_revision head_last_sequence head_last_event_hash].
  assert (Em : maximum_row_sequence t = if bool_decide (rs = []) then None else Some (Z.of_nat (length rs))).
  { rewrite (numbered_maximum t (held_numbered _ _ Ht)), (held_length _ _ Ht). pose proof (held_length _ _ Ht) as Hl.
    destruct (audit_events t), rs; try done. }
  rewrite Em. destruct (last rs) as [r|] eqn:El.
  - assert (Hne : rs <> []) by by intros ->. rewrite !(bool_decide_eq_false_2 (rs = [])) by done.
    assert (Hpos : Z.of_nat (length rs) <> 0) by (destruct rs; cbn; [done|lia]). rewrite (proj2 (Z.eqb_neq _ _) Hpos), bool_decide_eq_false_2 by (intros Hn; by apply Hn).
    cbn in Eh. destruct (linked_head _ _ (th_linked _ _ Ht) r El) as [Hr _]. destruct (fromhex_sha256 _ (record_hash r Hr)) as (b & Eb & Ehex & Elen). rewrite Eb in Eh.
    injection Eh as <-. unfold octets_between. rewrite Elen. cbn [Z.of_nat Z.leb andb negb]. cbn [fmap option_fmap option_map _event_hash]. rewrite Ehex.
    pose proof (record_ok_sequence _ Hr) as Hq. pose proof (last_sequence_length t rs Ht) as Hs. rewrite El in Hs. cbn in Hs. rewrite Hs in Hq.
    unfold is_positive_safe_int, is_safe_json_integer, is_safe_int in Hq.
    unfold AuditLedgerSnapshot_check. cbn [last_sequence last_event_hash maximum_sequence].
    assert (H1 : (0 <=? Z.of_nat (length rs)) && (Z.of_nat (length rs) <=? MAX_SAFE_JSON_INTEGER) = true) by lia.
    assert (H2 : (1 <=? Z.of_nat (length rs)) && (Z.of_nat (length rs) <=? MAX_SAFE_JSON_INTEGER) = true) by lia.
    rewrite H1, H2, (proj2 (Z.eqb_neq _ _) Hpos), (record_hash r Hr). done.
  - apply last_None in El as ->. cbn in Eh. injection Eh as <-. done.
Qed.

Lemma held_page t rs after through limit :
  tables_hold t rs -> 0 <= after <= through -> 1 <= limit <= AUDIT_REPLAY_PAGE_SIZE ->
  ledger_page t after through limit = Ok (take (Z.to_nat limit) (drop (Z.to_nat after) (take (Z.to_nat through) rs))).
Proof.
  intros Ht Ha Hl. unfold ledger_page. rewrite (proj2 (Z.leb_le 1 limit)), (proj2 (Z.leb_le limit _)) by lia. cbn [andb negb].
  assert (E : load_audit_records_after t after through limit = Ok (take (Z.to_nat limit) (drop (Z.to_nat after) (take (Z.to_nat through) rs)))); [|by rewrite E].
  unfold load_audit_records_after. rewrite (proj2 (Z.ltb_ge after 0)), (proj2 (Z.ltb_ge through after)), (proj2 (Z.ltb_ge limit 1)) by lia. cbn [raise_if mbind res_bind].
  rewrite (numbered_range 0) by (by eapply held_numbered || lia). rewrite !Z.sub_0_r, isort_id.
  - apply rows_read, Forall2_take, Forall2_drop, Forall2_take, Ht.
  - eapply sorted_sublist; [|by eapply numbered_sorted, held_numbered]. eapply transitivity; [apply sublist_drop|apply sublist_take].
Qed.

Lemma held_serves t rs : tables_hold t rs ->
  serves (table_repository t) {| last_sequence := Z.of_nat (length rs); last_event_hash := _event_hash (last rs);
                                 maximum_sequence := if bool_decide (rs = []) then None else Some (Z.of_nat (length rs)) |} rs.
Proof.
  intros Ht. split; cbn; try done; [by apply held_snapshot|]. intros _ after through limit Ha Hl. by rewrite (held_page t rs).
Qed.

(** C23: a checked record is written as a row that meets every constraint of the
    table, and the row is read back as the record. *)
Theorem stored_row_roundtrip r p :
  record_ok r -> prepared_for r p -> (previous_event_hash r = None <-> sequence r = 1) ->
  exists row, prepared_record_to_row r p = Ok row /\ event_constraints row = true /\ row_to_record row = Ok r.
Proof.
  intros Hr Hp Hs. destruct (record_written r p Hr Hp) as (row & E & Hh). exists row. split_and!; [done|by eapply row_constraints|by apply record_read].
Qed.

(** C19: after any history of storing and finding calls, failed ones included, the
    tables hold exactly the records the calls reported as appended, in order and
    linked, and paged replay over the tables reports what replaying these
    records in memory reports and streams their events, for any filter and page
    sizes. *)
Theorem stored_ledger_replayed calls t rs f ps ps' ip :
  Forall (fun c => forall p, call_event c = Some p -> exists i, prepared_from i p) calls ->
  ledger_run empty_tables calls = (t, rs) -> 1 <= ps <= AUDIT_REPLAY_PAGE_SIZE -> 1 <= ps' <= AUDIT_REPLAY_PAGE_SIZE ->
  tables_hold t rs /\ verified (objects rs) rs /\
  exists scan, scan_audit_replay (table_repository t) f ps = Ok scan /\
    match replay_audit_evidence (objects rs) f ip with
    | Ok (ValidAuditReplayReport ledger _ events) =>
        report scan = ValidAuditReplayReport ledger f [] /\ iter_verified_replay_events (table_repository t) scan ip ps' = (events, Ok tt)
    | Ok (NotFoundAuditReplayReport ledger _) => report scan = NotFoundAuditReplayReport ledger f
    | _ => False
    end.
Proof.
  intros Hc E Hps Hps'. pose proof (run_holds calls _ [] t rs empty_hold Hc E) as Ht. cbn [app] in Ht. pose proof (objects_verified t rs Ht) as Hv.
  split_and!; [done|done|]. eapply paged_replay_complete; [by eapply objects_ok|exact Hv|by apply held_serves|done|done].
Qed.
End store.
