(* ===== verification/TableFacts.v ===== *)
(** * Lemmas the tables share

    Columns of texts, rows found by their key, and the audit event a state
    transition prepares and stores. *)

From stdpp Require Import base gmap sets list sorting strings.
From Stdlib Require Import ZArith Lia.
From S2P Require Import Prelude Text PyFloat CanonicalJson Hashing JsonLoads JsonRoundtrip Instants ConfigControl AuditEvents AuditChain AuditFacts AuditChainFacts AuditLedger AuditPages AuditRepository AuditRepositoryFacts AuditStore.

Lemma one_or_none_Ok {A} (l : list A) o : one_or_none l = Ok o <-> match o with None => l = [] | Some x => l = [x] end.
Proof. destruct l as [|x [|y l]], o; cbn; naive_solver. Qed.

Lemma scope_eta s : scope_of (scope_installation_id s) (scope_repository_id s) = s.
Proof. by destruct s. Qed.

Lemma safe_scope s : RepositoryScope_check s = Ok tt -> safe_id (scope_installation_id s) = true /\ safe_id (scope_repository_id s) = true.
Proof.
  unfold RepositoryScope_check, safe_id, _safe_integer_max, MAX_SAFE_JSON_INTEGER. intros ([] & E1%raise_if_Ok & E2%raise_if_Ok)%bind_Ok. by apply negb_false_iff' in E1, E2.
Qed.

Lemma NoDup_filter_one {A B} `{EqDecision B} (f : A -> B) (P : A -> bool) l k x :
  NoDup (f <$> l) -> (forall y, P y = true -> f y = k) -> x ∈ l -> P x = true -> List.filter P l = [x].
Proof.
  intros Hn Hk. induction l as [|y l IH]; intros Hx Px; [by apply elem_of_nil in Hx|]. rewrite fmap_cons, NoDup_cons in Hn. destruct Hn as [Hy Hn]. cbn [List.filter].
  apply elem_of_cons in Hx as [<-|Hx].
  - rewrite Px. f_equal. apply filter_none. intros z Hz. apply not_true_is_false. intros Pz. apply Hy. rewrite (Hk x Px), <- (Hk z Pz). by apply list_elem_of_fmap_2.
  - destruct (P y) eqn:Py; [|by apply IH]. exfalso. apply Hy. rewrite (Hk y Py), <- (Hk x Px). by apply list_elem_of_fmap_2.
Qed.

Lemma scalar_text s : is_unicode_scalar_string s = true -> text_object (VStr s).
Proof.
  unfold is_unicode_scalar_string. rewrite forallb_elem. intros Hs. apply Forall_forall. intros c Hc. by apply is_scalar_bounds, Hs.
Qed.

Lemma utf8_length_positive s k : s <> [] -> utf8_length s = Ok k -> 1 <= k.
Proof.
  unfold utf8_length. intros Hs E. apply fmap_Ok in E as (b & E & ->). unfold utf8_encode in E. destruct (is_unicode_scalar_string s); [|done].
  injection E as <-. destruct s as [|c s]; [done|]. cbn [flat_map]. rewrite length_app. pose proof (utf8_char_length c) as Hl. repeat case_match; lia.
Qed.

Lemma opt_str_wf o : well_formed (opt_str o).
Proof. by destruct o. Qed.

Lemma opt_int_wf o : well_formed (opt_int o).
Proof. by destruct o. Qed.

Lemma obj_wf (l : list (string * pyval)) :
  Forall (fun kv => well_formed kv.2) l -> bool_decide (NoDup ((u ∘ fst) <$> l)) = true -> well_formed (obj l).
Proof.
  intros Hl Hn%bool_decide_eq_true. split.
  - change (map ?g ?x) with (g <$> x). rewrite <- list_fmap_compose. exact Hn.
  - by apply (foldr_and_Forall (fun kv : dkey * pyval => well_formed kv.2)), Forall_map.
Qed.

(** Identities of containers do not matter. *)
Lemma fresh_wf v d : well_formed v -> well_formed (fresh d v).
Proof.
  revert d. induction v as [| |s|z|f|oid l IH|oid l IH| | | |] using pyval_ind'; intros d; cbn [fresh well_formed]; try done; rewrite Forall_forall in IH.
  - rewrite !foldr_and_Forall, !Forall_forall.
    intros Hl x (y & -> & Hy)%list_elem_of_fmap. by apply IH, Hl.
  - rewrite map_map. cbn [fst]. intros [Hn Hl]. split; [done|]. revert Hl. rewrite !(foldr_and_Forall (fun kv : dkey * pyval => well_formed kv.2)), !Forall_forall.
    intros Hl x (y & -> & Hy)%list_elem_of_fmap. cbn [snd]. by apply (IH y), Hl.
Qed.

#[export] Hint Resolve opt_str_wf opt_int_wf : core.

Section events.
Context `{Sha256}.

Lemma prepared_input i p o : i = InputExact o -> prepare_audit_event i = Ok p ->
  VStr (ei_idempotency_key (pr_input p)) = io_idempotency_key o /\ VStr (ei_event_type (pr_input p)) = io_event_type o /\
  VStr (ei_actor (pr_input p)) = io_actor o /\ VStr (ei_created_at (pr_input p)) = io_created_at o /\
  opt_int (ei_installation_id (pr_input p)) = io_installation_id o /\ opt_int (ei_repository_id (pr_input p)) = io_repository_id o /\
  (well_formed (io_payload o) -> ei_payload (pr_input p) = fresh 0 (norm (io_payload o))).
Proof.
  intros -> E. unfold prepare_audit_event in E. apply bind_Ok in E as (o' & Eo & E). cbn in Eo. apply bind_Ok in Eo as (? & Hv%raise_message_Ok & [= <-]).
  pose proof Hv as (e & ->)%validated_input_typed. apply bind_Ok in E as ([] & _ & E). apply bind_Ok in E as (b & Eb & E). apply bind_Ok in E as (q & Eq & E).
  rewrite typed_input_object in E. cbn [mbind res_bind] in E. apply bind_Ok in E as (ih & _ & [= <-]). cbn. split_and!; try done.
  intros Hw. assert (Hs : snapshot_persistable_audit_payload (ei_payload e) (u "payload") = Ok q) by (unfold snapshot_persistable_audit_payload; cbn in Eb; by rewrite Eb).
  by destruct (snapshot_bytes _ _ _ Hw Hs) as (_ & _ & -> & _).
Qed.

Lemma held_ids t rs : tables_hold t rs -> NoDup (audit_event_id <$> rs).
Proof.
  intros Ht. assert (E : audit_event_id <$> rs = row_audit_event_id <$> audit_events t); [|rewrite E; apply Ht].
  pose proof (th_rows _ _ Ht) as Hf. clear Ht. induction Hf as [|row r rows rs' Hr _ IH]; [done|]. by rewrite !fmap_cons, (rh_id _ _ Hr), IH.
Qed.

Lemma held_shape t rs e : tables_hold t rs -> e ∈ rs -> is_audit_event_id (VStr (audit_event_id e)) = true /\ is_sha256_hex (input_hash e) = true.
Proof.
  intros Ht He. pose proof (linked_ok _ _ (th_linked _ _ Ht)) as Hok. rewrite Forall_forall in Hok. apply Hok in He as Hr.
  split; [|by apply record_ok_facts in Hr as [_ _ _ _ _ ? _]]. destruct Hr as (Hv & _). unfold validate_audit_event_record in Hv. passed Hv. by apply negb_false_iff in E1.
Qed.

(** The stored event that an append which stores nothing finds. *)
Definition found_event (r : AuditAppendResult) : option AuditEventRecord :=
  match r with AuditAppendAppended _ => None | AuditAppendDuplicate e | AuditAppendConflict e _ _ => Some e end.

Lemma existing_facts t rs p scope r e t' :
  tables_hold t rs -> _append t p scope = Ok (r, t') -> found_event r = Some e ->
  t' = t /\ e ∈ rs /\ idempotency_key e = ei_idempotency_key (pr_input p).
Proof.
  intros Ht E Hf. unfold _append in E. apply bind_Ok in E as ([] & _ & E). destruct (head_read t rs Ht) as (head & El & _ & Ep). rewrite El in E. cbn [mbind res_bind] in E.
  rewrite Ep in E. cbn [mbind res_bind] in E. apply bind_Ok in E as ([a p2] & _ & E). apply bind_Ok in E as (x & Ex & E). destruct x as [row|].
  - apply bind_Ok in E as ([] & _ & E). apply bind_Ok in E as (e' & Er & E). case_bool_decide as Ek; [done|].
    assert (He : found_event r = Some e' /\ t' = t) by (case_bool_decide; injection E as <- <-; done). destruct He as [He ->]. assert (e' = e) as -> by congruence.
    split; [done|]. split; [|by apply dec_stable in Ek || exact Ek]. unfold _find_row_by_idempotency_key in Ex. apply bind_Ok in Ex as (d & _ & Ex%one_or_none_Ok).
    destruct (held_row t rs row Ht) as (r' & Hr' & Hh & _).
    { apply list_elem_of_In. eapply proj1, filter_In. rewrite Ex. by left. }
    rewrite (record_read _ _ Hh) in Er. by injection Er as <-.
  - apply bind_Ok in E as ([] & _ & E). apply bind_Ok in E as (? & _ & E). apply bind_Ok in E as (? & _ & E). apply bind_Ok in E as (? & _ & E). by injection E as <- _.
Qed.

(** A duplicate has the input of the event. *)
Lemma duplicate_hash t rs i p scope e t' : tables_hold t rs -> prepared_from i p -> _append t p scope = Ok (AuditAppendDuplicate e, t') -> input_hash e = pr_input_hash p.
Proof.
  intros Ht Hp E. unfold _append in E. apply bind_Ok in E as ([] & _ & E). destruct (head_read t rs Ht) as (head & El & _ & Ep). rewrite El in E. cbn [mbind res_bind] in E.
  rewrite Ep in E. cbn [mbind res_bind] in E. apply bind_Ok in E as ([a p2] & Eb & E).
  destruct (build_prepared_audit_event p (optional_record (last rs))) as [[a' p3]|[]] eqn:Ea; try done. injection Eb as -> ->. apply built_prepared in Ea as [_ <-].
  apply bind_Ok in E as (x & _ & E). destruct x as [row|].
  - apply bind_Ok in E as ([] & _ & E). apply bind_Ok in E as (e' & _ & E). case_bool_decide; [done|]. case_bool_decide; [|done]. by injection E as <- _.
  - apply bind_Ok in E as ([] & _ & E). apply bind_Ok in E as (? & _ & E). apply bind_Ok in E as (? & _ & E). apply bind_Ok in E as (? & _ & E). done.
Qed.

(** What a successful append stores. *)
Lemma appended_facts t rs i p scope r t' :
  tables_hold t rs -> prepared_from i p -> _append t p scope = Ok (AuditAppendAppended r, t') ->
  tables_hold t' (rs ++ [r]) /\ _record_input r = pr_input p /\ input_hash r = pr_input_hash p.
Proof.
  intros Ht Hp E. split; [exact (append_holds t rs i p scope _ t' Ht Hp E)|]. unfold _append in E. apply bind_Ok in E as ([] & _ & E).
  destruct (head_read t rs Ht) as (head & El & _ & Ep). rewrite El in E. cbn [mbind res_bind] in E. rewrite Ep in E. cbn [mbind res_bind] in E.
  apply bind_Ok in E as ([a p2] & Eb & E). destruct (build_prepared_audit_event p (optional_record (last rs))) as [[a' p3]|[]] eqn:Ea; try done. injection Eb as -> ->.
  assert (_record_input a = pr_input p /\ input_hash a = pr_input_hash p) as Ha.
  { split; [|by eapply built_prepared]. destruct Hp as [Hi Epr]. destruct (prepared_facts i p Hi Epr) as (Hr & _).
    destruct (built_links (pr_input p) (last rs) a Hr) as [? _]; [|unfold build_audit_event; rewrite (prepared_again i p) by done; cbn [mbind res_bind]; by rewrite Ea|done].
    intros q Eq. by destruct (linked_head _ _ (th_linked _ _ Ht) q Eq). }
  apply bind_Ok in E as (x & _ & E). destruct x as [row|].
  - apply bind_Ok in E as ([] & _ & E). apply bind_Ok in E as (? & _ & E). case_bool_decide; [done|]. by case_bool_decide.
  - apply bind_Ok in E as ([] & _ & E). apply bind_Ok in E as (? & _ & E). apply bind_Ok in E as (? & _ & E). apply bind_Ok in E as (? & _ & [= <- _]). done.
Qed.
End events.
