(* ===== verification/StoreScenario.v ===== *)
(** * A concrete stored ledger, the theorems applied *)

From stdpp Require Import base gmap sets list sorting strings.
From Stdlib Require Import ZArith Lia.
From S2P Require Import Prelude Text PyFloat CanonicalJson Hashing JsonLoads JsonRoundtrip Instants ConfigControl AuditEvents AuditChain AuditFacts AuditChainFacts AuditLedger AuditPages AuditScenario AuditRepository AuditRepositoryFacts AuditStore.

#[local] Existing Instance Sha256_checksum.
#[local] Remove Hints Sha256_fips : typeclass_instances.

Definition no_event : PreparedAuditEvent :=
  Build_PreparedAuditEvent (Build_AuditEventInput [] [] [] [] [] [] VNone None None) [] [] [] true.
Definition prepared (i : InputObject) : PreparedAuditEvent :=
  match prepare_audit_event (InputExact i) with Ok p => p | Raise _ => no_event end.

Definition prepared1 : PreparedAuditEvent := Eval vm_compute in prepared delivery.
Definition prepared2 : PreparedAuditEvent := Eval vm_compute in prepared release.

Lemma prepared1_from : prepared_from (InputExact delivery) prepared1.
Proof. split; [exact delivery_input|vm_compute; reflexivity]. Qed.

Lemma prepared2_from : prepared_from (InputExact release) prepared2.
Proof. split; [exact release_input|vm_compute; reflexivity]. Qed.

(** Both events are stored, one of them twice, and a call that owns nothing fails. *)
Definition history : list ledger_call :=
  [Append prepared1; Append prepared1; AppendPairOwned prepared2 {| scope_installation_id := 7; scope_repository_id := 9 |};
   Append prepared2; FindPairOwned (u "release-1") (u "operator_override_applied") {| scope_installation_id := 7; scope_repository_id := 9 |}].

Definition stored_tables : audit_tables := Eval vm_compute in (ledger_run empty_tables history).1.

Lemma history_run : ledger_run empty_tables history = (stored_tables, [event1; event2]).
Proof. vm_compute. reflexivity. Qed.

Lemma history_prepared : Forall (fun c => forall p, call_event c = Some p -> exists i, prepared_from i p) history.
Proof.
  assert (H1 : forall p, Some prepared1 = Some p -> exists i, prepared_from i p) by (intros p E; injection E as <-; eexists; exact prepared1_from).
  assert (H2 : forall p, Some prepared2 = Some p -> exists i, prepared_from i p) by (intros p E; injection E as <-; eexists; exact prepared2_from).
  repeat (apply Forall_cons; split; [first [exact H1|exact H2|intros p E; discriminate E]|]). constructor.
Qed.

Definition first_tables : audit_tables := Eval vm_compute in (ledger_run empty_tables [Append prepared1]).1.

Lemma first_hold : tables_hold first_tables [event1].
Proof.
  apply (run_holds [Append prepared1] empty_tables [] first_tables [event1] empty_hold); [|vm_compute; reflexivity].
  apply Forall_cons; split; [|constructor]. intros p E. injection E as <-. eexists. exact prepared1_from.
Qed.

(** The properties, at this history. *)

Lemma stored_append_refines_witness :
  append_event (objects [event1]) (InputExact release) = Ok (AuditAppendAppended event2) /\
  exists t', _append first_tables prepared2 None = Ok (AuditAppendAppended event2, t') /\ tables_hold t' ([event1] ++ [event2]).
Proof.
  assert (E : append_event (objects [event1]) (InputExact release) = Ok (AuditAppendAppended event2)) by (vm_compute; reflexivity).
  split; [exact E|]. pose proof (stored_append_refines first_tables [event1] (InputExact release) prepared2 None first_hold prepared2_from) as H.
  rewrite E in H. apply H; [vm_compute; reflexivity|vm_compute; reflexivity|]. apply collision_free_decided. vm_compute. reflexivity.
Defined.

Lemma stored_row_roundtrip_witness :
  exists row, prepared_record_to_row event1 prepared1 = Ok row /\ event_constraints row = true /\ row_to_record row = Ok event1.
Proof.
  apply stored_row_roundtrip; [exact event1_ok| |split; reflexivity].
  split; [reflexivity|]. split; [reflexivity|]. split; [reflexivity|]. exact (prepared_bytes _ _ prepared1_from).
Defined.

Lemma stored_ledger_replayed_witness :
  verified (objects [event1; event2]) [event1; event2] /\
  exists scan, scan_audit_replay (table_repository stored_tables) AllAuditReplayFilter 1 = Ok scan /\ matched_event_count scan = 2 /\
    exists s1 s2, iter_verified_replay_events (table_repository stored_tables) scan true 16 = ([s1; s2], Ok tt) /\ s_event_hash s2 = event_hash event2.
Proof.
  destruct (stored_ledger_replayed history stored_tables [event1; event2] AllAuditReplayFilter 1 16 true history_prepared history_run)
    as (_ & Hv & scan & E & H); [vm_compute; split; discriminate|vm_compute; split; discriminate|].
  split; [exact Hv|]. assert (E' := E). vm_compute in E'. exists scan. split; [exact E|]. injection E' as <-. split; [reflexivity|].
  assert (Er : exists s1 s2, replay_audit_evidence (objects [event1; event2]) AllAuditReplayFilter true =
      Ok (ValidAuditReplayReport {| v_total_events := 2; v_last_event_hash := Some (event_hash event2) |} AllAuditReplayFilter [s1; s2]) /\ s_event_hash s2 = event_hash event2)
    by (eexists _, _; split; vm_compute; reflexivity).
  destruct Er as (s1 & s2 & Er & Es). exists s1, s2. rewrite Er in H. split; [exact (proj2 H)|exact Es].
Defined.
