(* ===== verification/ConfigEpochs.v ===== *)
(** * Contracts of configuration epochs

    Models [config_epochs/contracts.py], [registration.py] and [queries.py]:
    the commands that register, activate and roll back epochs, the records and
    results of these operations, the audit event each of them is paired with,
    and the pages of an epoch listing. *)

From stdpp Require Import base gmap sets list sorting strings.
From Stdlib Require Import ZArith Lia.
From S2P Require Import Prelude Text PyFloat CanonicalJson Hashing ConfigControl AuditEvents Rollback.

(** ** [contracts.py] *)

Definition MAX_CONFIG_OPERATION_ID_UTF8_BYTES : Z := 256.
Definition _ACTIVATION_EVENT_TYPE : pystr := u "config-epoch-activation/v1".
Definition _ACTIVATION_AUDIT_SCHEMA : pystr := u "config-epoch-activation-audit/v1".
Definition _EXPLICIT_ACTIVATION_AUDIT_SCHEMA : pystr := u "config-epoch-activation-audit/v2".
Definition _ROLLBACK_EVENT_TYPE : pystr := u "config-epoch-rollback/v1".
Definition _ROLLBACK_AUDIT_SCHEMA : pystr := u "config-epoch-rollback-audit/v1".

Inductive ConfigEpochMutationKind := activation_kind | rollback_kind.
#[export] Instance ConfigEpochMutationKind_eq_dec : EqDecision ConfigEpochMutationKind.
Proof. solve_decision. Defined.

Definition relation_str (r : ProvenCoverageRelation) : pystr :=
  match r with proven_equal => u "equal" | proven_greater => u "greater" end.

(** The validators take any object; here, the values a field can hold. *)
Definition _require_epoch_id (value : option pystr) : res unit :=
  raise_if (negb (match value with Some s => is_sha256_hex s | None => false end))
    (ValueError (u "epoch identity must be lowercase SHA-256 hexadecimal")).

(** [^proposal:[0-9a-f]{32}$] *)
Definition _require_proposal_manifest_id (value : option pystr) : res unit :=
  raise_if (negb match value with
                 | Some s => startswith (u "proposal:") s && bool_decide (length s = 41%nat) && forallb is_lower_hex (drop 9 s)
                 | None => false
                 end) (ValueError (u "config activation proposal manifest identity is invalid")).

Definition _require_positive_safe_integer (value : Z) (field_name : pystr) : res unit :=
  raise_if (negb ((1 <=? value) && (value <=? MAX_SAFE_JSON_INTEGER)))
    (ValueError (field_name ++ u " must be a positive JSON safe integer")).

Definition require_optional_text (value : option pystr) (field_name : pystr) : res unit :=
  match value with
  | Some s => _require_nonempty_scalar_text s field_name
  | None => Raise (ValueError (field_name ++ u " must be a non-empty Unicode scalar string"))
  end.

Definition require_optional_bounded_text (value : option pystr) (field_name : pystr) (maximum_utf8_bytes : Z) : res unit :=
  match value with
  | Some s => _require_bounded_text s field_name maximum_utf8_bytes
  | None => Raise (ValueError (field_name ++ u " must be a non-empty Unicode scalar string"))
  end.

Definition _require_audit_event_id (value : pystr) : res unit :=
  raise_if (negb (is_audit_event_id (VStr value))) (ValueError (u "audit_event_id is invalid")).

Definition _require_activation_selection (mutation_kind : ConfigEpochMutationKind) (version : Z) (review_operation_id : option pystr)
    : res unit :=
  raise_if (negb ((version =? 1) || (version =? 2))) (ValueError (u "activation version is not admitted")) ;;
  if version =? 1 then
    raise_if (negb (bool_decide (review_operation_id = None))) (ValueError (u "legacy activation cannot carry a review selector"))
  else match mutation_kind with
       | rollback_kind => Raise (ValueError (u "rollback cannot carry an activation version"))
       | activation_kind => require_optional_bounded_text review_operation_id (u "review_operation_id") MAX_CONFIG_OPERATION_ID_UTF8_BYTES
       end.

Record ActiveConfigEpoch := { ac_scope : RepositoryScope; ac_epoch_id : pystr; ac_revision : Z }.
#[export] Instance ActiveConfigEpoch_eq_dec : EqDecision ActiveConfigEpoch.
Proof. solve_decision. Defined.

Definition ActiveConfigEpoch_check (a : ActiveConfigEpoch) : res unit :=
  _require_epoch_id (Some (ac_epoch_id a)) ;; _require_positive_safe_integer (ac_revision a) (u "revision").

Record ActiveConfigEpochSnapshot := { sn_active : ActiveConfigEpoch; sn_draft : ValidatedEpochDraft }.

Definition ActiveConfigEpochSnapshot_check (s : ActiveConfigEpochSnapshot) : res unit :=
  raise_if (negb (bool_decide (draft_scope (sn_draft s) = ac_scope (sn_active s))) ||
            negb (bool_decide (draft_epoch_id (sn_draft s) = ac_epoch_id (sn_active s))))
    (ValueError (u "active config epoch snapshot pointer does not match its draft")).

Record ConfigEpochActivationCommand := {
  cm_scope : RepositoryScope;
  target_epoch_id : pystr;
  expected_revision : option Z;
  operation_id : pystr;
  cm_actor : pystr;
  occurred_at : pystr;
  proposal_manifest_id : option pystr;
  authority_evidence_hash : option pystr;
  authority_observed_at : option pystr;
  mutation_kind : ConfigEpochMutationKind;
  expected_active_epoch_id : option pystr;
  coverage_relation : option ProvenCoverageRelation;
  cm_reason : option pystr;
  activation_version : Z;
  review_operation_id : option pystr;
}.

Definition ConfigEpochActivationCommand_check (c : ConfigEpochActivationCommand) : res unit :=
  _require_epoch_id (Some (target_epoch_id c)) ;;
  match expected_revision c with Some r => _require_positive_safe_integer r (u "expected_revision") | None => Ok tt end ;;
  _require_bounded_text (operation_id c) (u "operation_id") MAX_CONFIG_OPERATION_ID_UTF8_BYTES ;;
  _require_nonempty_scalar_text (cm_actor c) (u "actor") ;;
  _require_nonempty_scalar_text (occurred_at c) (u "occurred_at") ;;
  _require_activation_selection (mutation_kind c) (activation_version c) (review_operation_id c) ;;
  match mutation_kind c with
  | activation_kind =>
      _require_proposal_manifest_id (proposal_manifest_id c) ;;
      _require_epoch_id (authority_evidence_hash c) ;;
      require_optional_text (authority_observed_at c) (u "authority_observed_at") ;;
      raise_if (negb (bool_decide (expected_active_epoch_id c = None)) || negb (bool_decide (coverage_relation c = None)) ||
                negb (bool_decide (cm_reason c = None)))
        (ValueError (u "ordinary activation cannot carry rollback evidence"))
  | rollback_kind =>
      raise_if (negb (bool_decide (proposal_manifest_id c = None)) || negb (bool_decide (authority_evidence_hash c = None)) ||
                negb (bool_decide (authority_observed_at c = None)))
        (ValueError (u "rollback cannot carry proposal activation authority")) ;;
      raise_if (bool_decide (expected_revision c = None)) (ValueError (u "rollback requires an expected revision")) ;;
      _require_epoch_id (expected_active_epoch_id c) ;;
      raise_if (bool_decide (coverage_relation c = None)) (ValueError (u "rollback requires a proven coverage relation")) ;;
      require_optional_bounded_text (cm_reason c) (u "reason") MAX_ROLLBACK_REASON_UTF8_BYTES
  end.

Record ConfigEpochReplayCommand := {
  rp_scope : RepositoryScope;
  rp_target_epoch_id : pystr;
  rp_expected_revision : option Z;
  rp_operation_id : pystr;
  rp_actor : pystr;
  rp_proposal_manifest_id : option pystr;
  rp_mutation_kind : ConfigEpochMutationKind;
  rp_reason : option pystr;
  rp_activation_version : Z;
  rp_review_operation_id : option pystr;
}.

Definition ConfigEpochReplayCommand_check (c : ConfigEpochReplayCommand) : res unit :=
  _require_epoch_id (Some (rp_target_epoch_id c)) ;;
  match rp_expected_revision c with Some r => _require_positive_safe_integer r (u "expected_revision") | None => Ok tt end ;;
  _require_bounded_text (rp_operation_id c) (u "operation_id") MAX_CONFIG_OPERATION_ID_UTF8_BYTES ;;
  _require_nonempty_scalar_text (rp_actor c) (u "actor") ;;
  _require_activation_selection (rp_mutation_kind c) (rp_activation_version c) (rp_review_operation_id c) ;;
  match rp_mutation_kind c with
  | activation_kind =>
      _require_proposal_manifest_id (rp_proposal_manifest_id c) ;;
      raise_if (negb (bool_decide (rp_reason c = None))) (ValueError (u "ordinary activation cannot carry a rollback reason"))
  | rollback_kind =>
      raise_if (negb (bool_decide (rp_proposal_manifest_id c = None))) (ValueError (u "rollback cannot carry a proposal manifest")) ;;
      raise_if (bool_decide (rp_expected_revision c = None)) (ValueError (u "rollback requires an expected revision")) ;;
      require_optional_bounded_text (rp_reason c) (u "reason") MAX_ROLLBACK_REASON_UTF8_BYTES
  end.

Definition replay_of (c : ConfigEpochActivationCommand) : ConfigEpochReplayCommand := {|
  rp_scope := cm_scope c; rp_target_epoch_id := target_epoch_id c; rp_expected_revision := expected_revision c;
  rp_operation_id := operation_id c; rp_actor := cm_actor c; rp_proposal_manifest_id := proposal_manifest_id c;
  rp_mutation_kind := mutation_kind c; rp_reason := cm_reason c; rp_activation_version := activation_version c;
  rp_review_operation_id := review_operation_id c |}.

Definition from_activation (c : ConfigEpochActivationCommand) : res ConfigEpochReplayCommand :=
  ConfigEpochReplayCommand_check (replay_of c) ;; Ok (replay_of c).

Record ConfigEpochActivationRecord := {
  rec_scope : RepositoryScope;
  rec_operation_id : pystr;
  rec_expected_revision : option Z;
  rec_previous : option ActiveConfigEpoch;
  rec_active : ActiveConfigEpoch;
  rec_audit_event_id : pystr;
  rec_audit_input_hash : pystr;
}.
#[export] Instance ConfigEpochActivationRecord_eq_dec : EqDecision ConfigEpochActivationRecord.
Proof. solve_decision. Defined.

Definition ConfigEpochActivationRecord_check (r : ConfigEpochActivationRecord) : res unit :=
  _require_bounded_text (rec_operation_id r) (u "operation_id") MAX_CONFIG_OPERATION_ID_UTF8_BYTES ;;
  match rec_expected_revision r with Some z => _require_positive_safe_integer z (u "expected_revision") | None => Ok tt end ;;
  raise_if (match rec_previous r with Some p => negb (bool_decide (ac_scope p = rec_scope r)) | None => false end)
    (ValueError (u "previous activation scope must match")) ;;
  raise_if (negb (bool_decide (ac_scope (rec_active r) = rec_scope r))) (ValueError (u "active activation scope must match")) ;;
  match rec_previous r with
  | None =>
      raise_if (negb (bool_decide (rec_expected_revision r = None)) || negb (ac_revision (rec_active r) =? 1))
        (ValueError (u "initial activation must create revision one from no expected revision"))
  | Some p =>
      raise_if (negb (bool_decide (rec_expected_revision r = Some (ac_revision p))) ||
                negb (ac_revision (rec_active r) =? ac_revision p + 1))
        (ValueError (u "successor activation revisions are inconsistent"))
  end ;;
  _require_audit_event_id (rec_audit_event_id r) ;;
  _require_epoch_id (Some (rec_audit_input_hash r)).

Inductive ConfigEpochRegistrationResult :=
  | ConfigEpochRegistrationCreated (epoch_id : pystr)
  | ConfigEpochRegistrationDuplicate (epoch_id : pystr)
  | ConfigEpochRegistrationConflict (epoch_id : pystr).

Inductive ConfigEpochActivationResult :=
  | ConfigEpochActivationApplied (record : ConfigEpochActivationRecord)
  | ConfigEpochActivationDuplicate (record : ConfigEpochActivationRecord)
  | ConfigEpochActivationRevisionConflict (active : option ActiveConfigEpoch)
  | ConfigEpochActivationTargetUnavailable
  | ConfigEpochActivationOperationConflict (existing : ConfigEpochActivationRecord).

Section contracts.
Context `{Sha256}.

(** The command, its audit event, and whether the event has been taken. *)
Record PreparedConfigEpochActivation := {
  pa_command : ConfigEpochActivationCommand;
  pa_audit_event : PreparedAuditEvent;
  pa_consumed : bool;
}.

Definition audit_input_hash (p : PreparedConfigEpochActivation) : pystr := pr_input_hash (pa_audit_event p).

Definition _take_audit_event (p : PreparedConfigEpochActivation) : res PreparedAuditEvent :=
  raise_if (pa_consumed p) (RuntimeError (u "prepared config epoch activation has already been consumed")) ;; Ok (pa_audit_event p).

Definition opt_relation (r : option ProvenCoverageRelation) : pyval :=
  match r with Some r => VStr (relation_str r) | None => VNone end.

(** Prefix of the key, event type, payload. *)
Definition _audit_projection (c : ConfigEpochActivationCommand) : pystr * pystr * pyval :=
  match mutation_kind c with
  | activation_kind =>
      (u "config-epoch-activation", _ACTIVATION_EVENT_TYPE,
       obj ([("schemaVersion", VStr (if (activation_version c =? 1)%Z then _ACTIVATION_AUDIT_SCHEMA else _EXPLICIT_ACTIVATION_AUDIT_SCHEMA));
             ("operationId", VStr (operation_id c));
             ("expectedRevision", opt_int (expected_revision c));
             ("targetEpochId", VStr (target_epoch_id c));
             ("proposalManifestId", opt_str (proposal_manifest_id c));
             ("authorityEvidenceHash", opt_str (authority_evidence_hash c));
             ("authorityObservedAt", opt_str (authority_observed_at c))] ++
            (if (activation_version c =? 2)%Z then [("reviewOperationId", opt_str (review_operation_id c))] else [])))%string
  | rollback_kind =>
      (u "config-epoch-rollback", _ROLLBACK_EVENT_TYPE,
       obj [("schemaVersion", VStr _ROLLBACK_AUDIT_SCHEMA);
            ("operationId", VStr (operation_id c));
            ("expectedRevision", opt_int (expected_revision c));
            ("activeEpochId", opt_str (expected_active_epoch_id c));
            ("targetEpochId", VStr (target_epoch_id c));
            ("coverageRelation", opt_relation (coverage_relation c));
            ("reason", opt_str (cm_reason c))])%string
  end.

Definition scope_suffix (scope : RepositoryScope) : pystr :=
  u ":" ++ int_str (scope_installation_id scope) ++ u ":" ++ int_str (scope_repository_id scope).

Definition _audit_subject_id (scope : RepositoryScope) : pystr := u "config-epoch" ++ scope_suffix scope.

(** An event of a repository's configuration. *)
Definition epoch_event (scope : RepositoryScope) (prefix operation event_type created_at actor : pystr) (payload : pyval) : InputObject := {|
  io_idempotency_key := VStr (prefix ++ scope_suffix scope ++ u ":" ++ operation);
  io_subject_type := VStr (u "policy-decision"); io_subject_id := VStr (_audit_subject_id scope); io_event_type := VStr event_type;
  io_created_at := VStr created_at; io_actor := VStr actor; io_payload := payload;
  io_installation_id := VInt (scope_installation_id scope); io_repository_id := VInt (scope_repository_id scope) |}.

Definition activation_event (c : ConfigEpochActivationCommand) : InputObject :=
  let '(prefix, event_type, payload) := _audit_projection c in
  epoch_event (cm_scope c) prefix (operation_id c) event_type (occurred_at c) (cm_actor c) payload.

Definition prepare_config_epoch_activation (command : ConfigEpochActivationCommand) : res PreparedConfigEpochActivation :=
  audit_event ← prepare_audit_event (InputExact (activation_event command));
  Ok {| pa_command := command; pa_audit_event := audit_event; pa_consumed := false |}.

(** ** [registration.py] *)

Definition CONFIG_EPOCH_REGISTRATION_EVENT_TYPE : pystr := u "config-epoch-registration/v1".
Definition _AUDIT_SCHEMA : pystr := u "config-epoch-registration-audit/v1".
Definition _MAX_OCCURRED_AT_UTF8_BYTES : Z := 128.

Definition reg_require_bounded_text (value name : pystr) (maximum_bytes : Z) : res unit :=
  let refused := ValueError (name ++ u " is not bounded Unicode scalar text") in
  raise_if (bool_decide (value = []) || has_char 0 value || negb (is_unicode_scalar_string value)) refused ;;
  n ← utf8_length value;
  raise_if (maximum_bytes <? n) refused.

Definition reg_require_sha256 (value name : pystr) : res unit :=
  raise_if (negb (is_sha256_hex value)) (ValueError (name ++ u " is not lowercase SHA-256 hexadecimal")).

Record ConfigEpochRegistrationCommand := {
  rg_draft : ValidatedEpochDraft;
  rg_operation_id : pystr;
  rg_actor : pystr;
  rg_occurred_at : pystr;
}.

Definition ConfigEpochRegistrationCommand_check (c : ConfigEpochRegistrationCommand) : res unit :=
  reg_require_bounded_text (rg_operation_id c) (u "operation_id") MAX_CONFIG_OPERATION_ID_UTF8_BYTES ;;
  reg_require_bounded_text (rg_actor c) (u "actor") MAX_AUDIT_TEXT_UTF8_BYTES_V1 ;;
  reg_require_bounded_text (rg_occurred_at c) (u "occurred_at") _MAX_OCCURRED_AT_UTF8_BYTES.

Record PreparedConfigEpochRegistration := {
  pg_command : ConfigEpochRegistrationCommand;
  pg_audit_event : PreparedAuditEvent;
  pg_consumed : bool;
}.

Definition pg_audit_input_hash (p : PreparedConfigEpochRegistration) : pystr := pr_input_hash (pg_audit_event p).

Definition pg_take_audit_event (p : PreparedConfigEpochRegistration) : res PreparedAuditEvent :=
  raise_if (pg_consumed p) (RuntimeError (u "prepared config registration has already been consumed")) ;; Ok (pg_audit_event p).

Record ConfigEpochRegistrationRecord := {
  rr_scope : RepositoryScope;
  rr_operation_id : pystr;
  rr_epoch_id : pystr;
  rr_audit_event_id : pystr;
  rr_audit_input_hash : pystr;
}.

Definition ConfigEpochRegistrationRecord_check (r : ConfigEpochRegistrationRecord) : res unit :=
  reg_require_bounded_text (rr_operation_id r) (u "operation_id") MAX_CONFIG_OPERATION_ID_UTF8_BYTES ;;
  reg_require_sha256 (rr_epoch_id r) (u "epoch_id") ;;
  raise_if (negb (is_audit_event_id (VStr (rr_audit_event_id r)))) (ValueError (u "config registration audit event identity is invalid")) ;;
  reg_require_sha256 (rr_audit_input_hash r) (u "audit_input_hash").

Inductive ConfigEpochRegistrationOperationResult :=
  | ConfigEpochRegistrationCommitted (record : ConfigEpochRegistrationRecord)
  | ConfigEpochRegistrationReplay (record : ConfigEpochRegistrationRecord)
  | ConfigEpochRegistrationOperationConflict (existing : ConfigEpochRegistrationRecord).

Definition registration_event (c : ConfigEpochRegistrationCommand) : InputObject :=
  let draft := rg_draft c in
  epoch_event (draft_scope draft) (u "config-epoch-registration") (rg_operation_id c) CONFIG_EPOCH_REGISTRATION_EVENT_TYPE
    (rg_occurred_at c) (rg_actor c)
    (obj [("schemaVersion", VStr _AUDIT_SCHEMA);
          ("operationId", VStr (rg_operation_id c));
          ("epochId", VStr (draft_epoch_id draft));
          ("sourceFormat", VStr (source_format_str (source_format draft)));
          ("sourceHash", VStr (source_hash draft));
          ("documentHash", VStr (document_hash draft));
          ("epochHash", VStr (epoch_hash draft))]%string).

Definition prepare_config_epoch_registration (command : ConfigEpochRegistrationCommand) : res PreparedConfigEpochRegistration :=
  event ← prepare_audit_event (InputExact (registration_event command));
  Ok {| pg_command := command; pg_audit_event := event; pg_consumed := false |}.
End contracts.

(** ** [queries.py] *)

Definition MAX_CONFIG_EPOCH_PAGE_SIZE : Z := 100.

Record ConfigEpochSummary := {
  es_epoch_id : pystr;
  es_source_format : PolicySourceFormat;
  es_source_hash : pystr;
  es_document_hash : pystr;
  es_epoch_hash : pystr;
  es_source_byte_count : Z;
}.

Definition ConfigEpochSummary_check (s : ConfigEpochSummary) : res unit :=
  mapR (fun '(name, value) => raise_if (negb (is_sha256_hex value)) (ValueError (u name ++ u " is not lowercase SHA-256 hexadecimal")))
    [("epoch_id", es_epoch_id s); ("source_hash", es_source_hash s); ("document_hash", es_document_hash s);
     ("epoch_hash", es_epoch_hash s)]%string ;;
  raise_if (negb ((1 <=? es_source_byte_count s) && (es_source_byte_count s <=? MAX_POLICY_SOURCE_BYTES)))
    (ValueError (u "source byte count is outside the admitted bound")).

Record ConfigEpochPage := { pg_items : list ConfigEpochSummary; next_cursor : option pystr }.

(** [left >= right] on strings compares code points. *)
Definition strictly_ordered (l : list pystr) : bool :=
  forallb (fun p => negb (lex_leb p.2 p.1)) (zip l (drop 1 l)).

Definition ConfigEpochPage_check (p : ConfigEpochPage) : res unit :=
  raise_if (negb (Z.of_nat (length (pg_items p)) <=? MAX_CONFIG_EPOCH_PAGE_SIZE)) (ValueError (u "config epoch page exceeds its cardinality bound")) ;;
  raise_if (negb (strictly_ordered (es_epoch_id <$> pg_items p))) (ValueError (u "config epoch page is not strictly ordered")) ;;
  raise_if (match next_cursor p with
            | Some c => negb (bool_decide (Some c = es_epoch_id <$> last (pg_items p)))
            | None => false
            end) (ValueError (u "config epoch page cursor does not identify its final item")).

Record ConfigEpochStatus := { st_scope : RepositoryScope; st_active : option ActiveConfigEpoch; st_epochs : ConfigEpochPage }.

Definition ConfigEpochStatus_check (s : ConfigEpochStatus) : res unit :=
  raise_if (match st_active s with Some a => negb (bool_decide (ac_scope a = st_scope s)) | None => false end)
    (ValueError (u "active config epoch scope does not match status scope")).
