(* ===== verification/ConfigEpochStore.v ===== *)
(** * Configuration epochs in the database

    Models [persistence/config_epoch_repository.py] and the tables of
    [_schema_config_epochs.py], with [TransactionalConfigEpochStore] of
    [persistence/runtime_adapters.py].  The rows of the tables are the state; a
    repository method comes with the tables its transaction leaves and an
    exception leaves them as they were.  Methods that write hold the lock of
    their repository scope and the row of the audit head, so that transactions
    take effect one after the other.  Admission of a policy document parses YAML
    and applies JSON schemas of third-party packages: it is the class
    [PolicyAdmission]. *)

From stdpp Require Import base gmap sets list sorting strings.
From Stdlib Require Import ZArith Lia.
From S2P Require Import Prelude Text PyFloat CanonicalJson Hashing ConfigControl AuditEvents AuditChain AuditRepository Rollback ConfigEpochs.

(** [admit_policy_document]: a draft, or diagnostics. *)
Class PolicyAdmission := admit_policy_document : list Z -> PolicySourceFormat -> option ValidatedEpochDraft.

(** ** Tables *)

Record epoch_row := {
  er_epoch_id : pystr;
  er_installation_id : Z;
  er_repository_id : Z;
  er_source_format : pystr;
  er_source_bytes : list Z;
  er_normalized_document_bytes : list Z;
  er_compiled_policy_bytes : list Z;
  er_document_schema_id : pystr;
  er_document_profile_id : pystr;
  er_semantic_profile_id : pystr;
  er_compiled_schema_id : pystr;
  er_producer_resource_profile_id : pystr;
  er_producer_byte_profile_id : pystr;
  er_producer_feasibility_profile_id : pystr;
  er_source_hash : pystr;
  er_document_hash : pystr;
  er_epoch_hash : pystr;
}.

Record registration_row := {
  gr_installation_id : Z; gr_repository_id : Z; gr_operation_id : pystr; gr_epoch_id : pystr;
  gr_audit_event_id : pystr; gr_audit_input_hash : list Z;
}.

Record active_row := { ar_installation_id : Z; ar_repository_id : Z; ar_epoch_id : pystr; ar_revision : Z }.

Record activation_row := {
  vr_installation_id : Z; vr_repository_id : Z; vr_operation_id : pystr; vr_expected_revision : option Z;
  vr_previous_epoch_id : option pystr; vr_previous_revision : option Z; vr_target_epoch_id : pystr; vr_result_revision : Z;
  vr_audit_event_id : pystr; vr_audit_input_hash : list Z;
}.

Record epoch_tables := {
  ct_audit : audit_tables;
  config_epochs : list epoch_row;
  config_epoch_registrations : list registration_row;
  active_config_epochs : list active_row;
  config_epoch_activations : list activation_row;
}.

Definition epoch_constraints (r : epoch_row) : bool :=
  is_sha256_hex (er_epoch_id r) && safe_id (er_installation_id r) && safe_id (er_repository_id r) &&
  bool_decide (er_source_format r ∈ [u "json"; u "yaml-1.2"]) &&
  octets_between 0 2097152 (er_source_bytes r) && octets_between 1 4194304 (er_normalized_document_bytes r) &&
  octets_between 1 4194304 (er_compiled_policy_bytes r) &&
  forallb (text_octets 1 MAX_CONFIG_CONTRACT_ID_UTF8_BYTES)
    [er_document_schema_id r; er_document_profile_id r; er_semantic_profile_id r; er_compiled_schema_id r;
     er_producer_resource_profile_id r; er_producer_byte_profile_id r; er_producer_feasibility_profile_id r] &&
  is_sha256_hex (er_source_hash r) && is_sha256_hex (er_document_hash r) && is_sha256_hex (er_epoch_hash r).

(** The row of an epoch of a repository. *)
Definition epoch_at (installation repository : Z) (epoch_id : pystr) (r : epoch_row) : bool :=
  (er_installation_id r =? installation) && (er_repository_id r =? repository) && bool_decide (er_epoch_id r = epoch_id).

Definition epoch_exists (t : epoch_tables) (installation repository : Z) (epoch_id : pystr) : bool :=
  existsb (epoch_at installation repository epoch_id) (config_epochs t).

Definition audit_event_exists (t : epoch_tables) (audit_event_id : pystr) : bool :=
  existsb (fun r => bool_decide (row_audit_event_id r = audit_event_id)) (audit_events (ct_audit t)).

Definition registration_at (scope : RepositoryScope) (operation : pystr) (r : registration_row) : bool :=
  (gr_installation_id r =? scope_installation_id scope) && (gr_repository_id r =? scope_repository_id scope) &&
  bool_decide (gr_operation_id r = operation).

Definition activation_at (scope : RepositoryScope) (operation : pystr) (r : activation_row) : bool :=
  (vr_installation_id r =? scope_installation_id scope) && (vr_repository_id r =? scope_repository_id scope) &&
  bool_decide (vr_operation_id r = operation).

Definition active_at (scope : RepositoryScope) (r : active_row) : bool :=
  (ar_installation_id r =? scope_installation_id scope) && (ar_repository_id r =? scope_repository_id scope).

(** Check constraints, primary key, unique constraints and foreign keys. *)
Definition registration_accepted (t : epoch_tables) (r : registration_row) : bool :=
  safe_id (gr_installation_id r) && safe_id (gr_repository_id r) && text_octets 1 256 (gr_operation_id r) &&
  is_sha256_hex (gr_epoch_id r) && is_audit_event_id (VStr (gr_audit_event_id r)) && octets_between 32 32 (gr_audit_input_hash r) &&
  forallb (fun q => negb ((gr_installation_id q =? gr_installation_id r) && (gr_repository_id q =? gr_repository_id r) &&
                          bool_decide (gr_operation_id q = gr_operation_id r)) &&
                    negb (bool_decide (gr_audit_event_id q = gr_audit_event_id r))) (config_epoch_registrations t) &&
  epoch_exists t (gr_installation_id r) (gr_repository_id r) (gr_epoch_id r) && audit_event_exists t (gr_audit_event_id r).

Definition active_accepted (t : epoch_tables) (r : active_row) : bool :=
  safe_id (ar_installation_id r) && safe_id (ar_repository_id r) && is_sha256_hex (ar_epoch_id r) && safe_id (ar_revision r) &&
  epoch_exists t (ar_installation_id r) (ar_repository_id r) (ar_epoch_id r).

Definition activation_accepted (t : epoch_tables) (r : activation_row) : bool :=
  safe_id (vr_installation_id r) && safe_id (vr_repository_id r) && text_octets 1 256 (vr_operation_id r) &&
  is_sha256_hex (vr_target_epoch_id r) && not_false is_sha256_hex (vr_previous_epoch_id r) &&
  is_audit_event_id (VStr (vr_audit_event_id r)) && octets_between 32 32 (vr_audit_input_hash r) &&
  match vr_expected_revision r, vr_previous_epoch_id r, vr_previous_revision r with
  | None, None, None => vr_result_revision r =? 1
  | e, Some _, p =>
      not_false (fun e => 1 <=? e) e && not_false (fun p => not_false (fun e => p =? e) e) p &&
      not_false (fun p => vr_result_revision r =? p + 1) p
  | _, None, _ => false
  end &&
  safe_id (vr_result_revision r) && not_false (fun e => e <=? _safe_integer_max) (vr_expected_revision r) &&
  not_false (fun p => p <=? _safe_integer_max) (vr_previous_revision r) &&
  forallb (fun q => negb ((vr_installation_id q =? vr_installation_id r) && (vr_repository_id q =? vr_repository_id r) &&
                          (bool_decide (vr_operation_id q = vr_operation_id r) || (vr_result_revision q =? vr_result_revision r))) &&
                    negb (bool_decide (vr_audit_event_id q = vr_audit_event_id r))) (config_epoch_activations t) &&
  epoch_exists t (vr_installation_id r) (vr_repository_id r) (vr_target_epoch_id r) &&
  not_false (epoch_exists t (vr_installation_id r) (vr_repository_id r)) (vr_previous_epoch_id r) &&
  audit_event_exists t (vr_audit_event_id r).

(** Replacing one table. *)
Definition with_audit (t : epoch_tables) (a : audit_tables) : epoch_tables :=
  {| ct_audit := a; config_epochs := config_epochs t; config_epoch_registrations := config_epoch_registrations t;
     active_config_epochs := active_config_epochs t; config_epoch_activations := config_epoch_activations t |}.
Definition with_epochs (t : epoch_tables) (l : list epoch_row) : epoch_tables :=
  {| ct_audit := ct_audit t; config_epochs := l; config_epoch_registrations := config_epoch_registrations t;
     active_config_epochs := active_config_epochs t; config_epoch_activations := config_epoch_activations t |}.
Definition with_registrations (t : epoch_tables) (l : list registration_row) : epoch_tables :=
  {| ct_audit := ct_audit t; config_epochs := config_epochs t; config_epoch_registrations := l;
     active_config_epochs := active_config_epochs t; config_epoch_activations := config_epoch_activations t |}.
Definition with_active (t : epoch_tables) (l : list active_row) : epoch_tables :=
  {| ct_audit := ct_audit t; config_epochs := config_epochs t; config_epoch_registrations := config_epoch_registrations t;
     active_config_epochs := l; config_epoch_activations := config_epoch_activations t |}.
Definition with_activations (t : epoch_tables) (l : list activation_row) : epoch_tables :=
  {| ct_audit := ct_audit t; config_epochs := config_epochs t; config_epoch_registrations := config_epoch_registrations t;
     active_config_epochs := active_config_epochs t; config_epoch_activations := l |}.

(** ** Rows *)

Definition _draft_to_row (d : ValidatedEpochDraft) : epoch_row := {|
  er_epoch_id := draft_epoch_id d;
  er_installation_id := scope_installation_id (draft_scope d); er_repository_id := scope_repository_id (draft_scope d);
  er_source_format := source_format_str (source_format d); er_source_bytes := source_bytes d;
  er_normalized_document_bytes := normalized_document_bytes d; er_compiled_policy_bytes := compiled_policy_bytes d;
  er_document_schema_id := document_schema_id d; er_document_profile_id := document_profile_id d;
  er_semantic_profile_id := semantic_profile_id d; er_compiled_schema_id := compiled_schema_id d;
  er_producer_resource_profile_id := producer_resource_profile_id d; er_producer_byte_profile_id := producer_byte_profile_id d;
  er_producer_feasibility_profile_id := producer_feasibility_profile_id d;
  er_source_hash := source_hash d; er_document_hash := document_hash d; er_epoch_hash := epoch_hash d |}.

Definition _required_source_format (value : pystr) : res PolicySourceFormat :=
  if bool_decide (value = u "json") then Ok FormatJson
  else if bool_decide (value = u "yaml-1.2") then Ok FormatYaml12
  else Raise (TypeError (u "source_format is invalid")).

(** [except (ValueError, TypeError) as error: raise PersistenceInvariantViolation]. *)
Definition row_guard {A} (message : string) (r : res A) : res A :=
  match r with
  | Raise e => if is_value_error e || match e with TypeError _ => true | _ => false end then violation message else Raise e
  | r => r
  end.

Section repository.
Context `{Sha256} `{PolicyAdmission}.

(** [config_control/epoch_integrity.py]. *)
Definition assert_admitted_epoch_draft (value : ValidatedEpochDraft) : res ValidatedEpochDraft :=
  raise_if (negb (bool_decide (admit_policy_document (source_bytes value) (source_format value) = Some value)))
    (ValueError (u "config epoch draft does not match policy admission")) ;;
  Ok value.

Definition _draft_from_row (r : epoch_row) : res ValidatedEpochDraft :=
  row_guard "stored config epoch is invalid"
    (format ← _required_source_format (er_source_format r);
     scope ← checked RepositoryScope_check (scope_of (er_installation_id r) (er_repository_id r));
     draft ← checked ValidatedEpochDraft_check {|
       source_format := format; source_bytes := er_source_bytes r; draft_scope := scope;
       normalized_document_bytes := er_normalized_document_bytes r; compiled_policy_bytes := er_compiled_policy_bytes r;
       document_schema_id := er_document_schema_id r; document_profile_id := er_document_profile_id r;
       semantic_profile_id := er_semantic_profile_id r; compiled_schema_id := er_compiled_schema_id r;
       producer_resource_profile_id := er_producer_resource_profile_id r;
       producer_byte_profile_id := er_producer_byte_profile_id r;
       producer_feasibility_profile_id := er_producer_feasibility_profile_id r;
       source_hash := er_source_hash r; document_hash := er_document_hash r; epoch_hash := er_epoch_hash r;
       draft_epoch_id := er_epoch_id r |};
     assert_admitted_epoch_draft draft).

Definition _summary_from_row (r : epoch_row) : res ConfigEpochSummary :=
  row_guard "stored config epoch summary is invalid"
    (format ← _required_source_format (er_source_format r);
     checked ConfigEpochSummary_check {|
       es_epoch_id := er_epoch_id r; es_source_format := format; es_source_hash := er_source_hash r;
       es_document_hash := er_document_hash r; es_epoch_hash := er_epoch_hash r;
       es_source_byte_count := Z.of_nat (length (er_source_bytes r)) |}).

Definition _registration_to_row (r : ConfigEpochRegistrationRecord) : res registration_row :=
  hash ← fromhex (rr_audit_input_hash r);
  Ok {| gr_installation_id := scope_installation_id (rr_scope r); gr_repository_id := scope_repository_id (rr_scope r);
        gr_operation_id := rr_operation_id r; gr_epoch_id := rr_epoch_id r; gr_audit_event_id := rr_audit_event_id r;
        gr_audit_input_hash := hash |}.

Definition _registration_from_row (r : registration_row) : res ConfigEpochRegistrationRecord :=
  row_guard "stored config epoch registration is invalid"
    (scope ← checked RepositoryScope_check (scope_of (gr_installation_id r) (gr_repository_id r));
     checked ConfigEpochRegistrationRecord_check {|
       rr_scope := scope; rr_operation_id := gr_operation_id r; rr_epoch_id := gr_epoch_id r;
       rr_audit_event_id := gr_audit_event_id r; rr_audit_input_hash := hex (gr_audit_input_hash r) |}).

Definition _activation_to_row (r : ConfigEpochActivationRecord) : res activation_row :=
  hash ← fromhex (rec_audit_input_hash r);
  Ok {| vr_installation_id := scope_installation_id (rec_scope r); vr_repository_id := scope_repository_id (rec_scope r);
        vr_operation_id := rec_operation_id r; vr_expected_revision := rec_expected_revision r;
        vr_previous_epoch_id := ac_epoch_id <$> rec_previous r; vr_previous_revision := ac_revision <$> rec_previous r;
        vr_target_epoch_id := ac_epoch_id (rec_active r); vr_result_revision := ac_revision (rec_active r);
        vr_audit_event_id := rec_audit_event_id r; vr_audit_input_hash := hash |}.

Definition _activation_from_row (r : activation_row) : res ConfigEpochActivationRecord :=
  row_guard "stored config epoch activation is invalid"
    (scope ← checked RepositoryScope_check (scope_of (vr_installation_id r) (vr_repository_id r));
     previous ← match vr_previous_revision r, vr_previous_epoch_id r with
                | Some revision, Some epoch_id =>
                    Some <$> checked ActiveConfigEpoch_check {| ac_scope := scope; ac_epoch_id := epoch_id; ac_revision := revision |}
                | _, _ => Ok None
                end;
     active ← checked ActiveConfigEpoch_check
                {| ac_scope := scope; ac_epoch_id := vr_target_epoch_id r; ac_revision := vr_result_revision r |};
     checked ConfigEpochActivationRecord_check {|
       rec_scope := scope; rec_operation_id := vr_operation_id r; rec_expected_revision := vr_expected_revision r;
       rec_previous := previous; rec_active := active; rec_audit_event_id := vr_audit_event_id r;
       rec_audit_input_hash := hex (vr_audit_input_hash r) |}).

(** ** Reads *)

Definition epoch_of (epoch_id : pystr) (scope : option RepositoryScope) (r : epoch_row) : bool :=
  bool_decide (er_epoch_id r = epoch_id) &&
  match scope with
  | Some s => (er_installation_id r =? scope_installation_id s) && (er_repository_id r =? scope_repository_id s)
  | None => true
  end.

(** [None if row is None else decode(row)]. *)
Definition decode_found {R A} (decode : R -> res A) (rows : list R) : res (option A) :=
  row ← one_or_none rows; match row with Some r => Some <$> decode r | None => Ok None end.

Definition _load_draft (t : epoch_tables) (epoch_id : pystr) (scope : option RepositoryScope) : res (option ValidatedEpochDraft) :=
  decode_found _draft_from_row (List.filter (epoch_of epoch_id scope) (config_epochs t)).

Definition _load_registration (t : epoch_tables) (scope : RepositoryScope) (operation : pystr) : res (option ConfigEpochRegistrationRecord) :=
  decode_found _registration_from_row (List.filter (registration_at scope operation) (config_epoch_registrations t)).

Definition _load_activation (t : epoch_tables) (scope : RepositoryScope) (operation : pystr) : res (option ConfigEpochActivationRecord) :=
  decode_found _activation_from_row (List.filter (activation_at scope operation) (config_epoch_activations t)).

Definition active_from_row (scope : RepositoryScope) (r : active_row) : res ActiveConfigEpoch :=
  checked ActiveConfigEpoch_check {| ac_scope := scope; ac_epoch_id := ar_epoch_id r; ac_revision := ar_revision r |}.

Definition _load_active_for_update (t : epoch_tables) (scope : RepositoryScope) : res (option ActiveConfigEpoch) :=
  decode_found (active_from_row scope) (List.filter (active_at scope) (active_config_epochs t)).

Definition _load_audit_event (t : epoch_tables) (event_id : pystr) : res AuditEventRecord :=
  row ← one_or_none (List.filter (fun r => bool_decide (row_audit_event_id r = event_id)) (audit_events (ct_audit t)));
  match row with
  | None => violation "config activation audit event is missing"
  | Some row =>
      event ← row_to_record row;
      if bool_decide (audit_event_id event <> event_id) then violation "config activation audit event is inconsistent" else Ok event
  end.

(** The join of the pointer with its epoch. *)
Definition active_join (t : epoch_tables) (scope : RepositoryScope) : list (active_row * epoch_row) :=
  flat_map (fun a => (fun e => (a, e)) <$> List.filter (epoch_at (ar_installation_id a) (ar_repository_id a) (ar_epoch_id a)) (config_epochs t))
    (List.filter (active_at scope) (active_config_epochs t)).

Definition load_active (t : epoch_tables) (scope : RepositoryScope) : res (option ActiveConfigEpochSnapshot) :=
  store_guard "active config epoch read failed"
    (row ← one_or_none (active_join t scope);
     match row with
     | None => Ok None
     | Some (a, e) =>
         active ← active_from_row scope a;
         draft ← _draft_from_row e;
         Some <$> checked ActiveConfigEpochSnapshot_check {| sn_active := active; sn_draft := draft |}
     end).

Definition repo_require_epoch_id (value : pystr) : res unit :=
  raise_if (negb (is_sha256_hex value)) (ValueError (u "config epoch identity must be lowercase SHA-256 hexadecimal")).

Definition load_epoch (t : epoch_tables) (scope : RepositoryScope) (epoch_id : pystr) : res (option ValidatedEpochDraft) :=
  repo_require_epoch_id epoch_id ;; store_guard "config epoch read failed" (_load_draft t epoch_id (Some scope)).

(** Text columns that hold hexadecimal digits are ordered by code point under
    every collation. *)
Definition read_status (t : epoch_tables) (scope : RepositoryScope) (after_epoch_id : option pystr) (limit : Z) : res ConfigEpochStatus :=
  match after_epoch_id with Some e => repo_require_epoch_id e | None => Ok tt end ;;
  raise_if (negb ((1 <=? limit) && (limit <=? MAX_CONFIG_EPOCH_PAGE_SIZE))) (ValueError (u "config epoch page limit is outside its admitted bound")) ;;
  store_guard "config epoch status read failed"
    (active_row ← one_or_none (List.filter (active_at scope) (active_config_epochs t));
     let selected := List.filter (fun r => (er_installation_id r =? scope_installation_id scope) && (er_repository_id r =? scope_repository_id scope) &&
                                           match after_epoch_id with Some e => negb (lex_leb (er_epoch_id r) e) | None => true end) (config_epochs t) in
     let rows := take (Z.to_nat (limit + 1)) (isort (fun p q => lex_leb (er_epoch_id p) (er_epoch_id q)) selected) in
     items ← mapR _summary_from_row (take (Z.to_nat limit) rows);
     active ← match active_row with Some r => Some <$> active_from_row scope r | None => Ok None end;
     page ← checked ConfigEpochPage_check
              {| pg_items := items; next_cursor := if limit <? Z.of_nat (length rows) then es_epoch_id <$> last items else None |};
     checked ConfigEpochStatus_check {| st_scope := scope; st_active := active; st_epochs := page |}).

(** ** Registration *)

(** [INSERT .. ON CONFLICT (epoch_id) DO NOTHING]. *)
Definition insert_epoch (t : epoch_tables) (r : epoch_row) : res (bool * epoch_tables) :=
  raise_if (negb (epoch_constraints r)) SQLAlchemyError ;;
  if existsb (fun q => bool_decide (er_epoch_id q = er_epoch_id r)) (config_epochs t) then Ok (false, t)
  else Ok (true, with_epochs t (config_epochs t ++ [r])).

Definition _register_draft (t : epoch_tables) (admitted : ValidatedEpochDraft) : res (ConfigEpochRegistrationResult * epoch_tables) :=
  let id := draft_epoch_id admitted in
  '(inserted, t') ← insert_epoch t (_draft_to_row admitted);
  if (inserted : bool) then Ok (ConfigEpochRegistrationCreated id, t')
  else
    stored ← _load_draft t id None;
    match stored with
    | None => violation "config epoch insert outcome is indeterminate"
    | Some stored =>
        if bool_decide (stored = admitted) then Ok (ConfigEpochRegistrationDuplicate id, t) else Ok (ConfigEpochRegistrationConflict id, t)
    end.

Definition register (t : epoch_tables) (draft : ValidatedEpochDraft) : res (ConfigEpochRegistrationResult * epoch_tables) :=
  admitted ← assert_admitted_epoch_draft draft;
  store_guard "config epoch registration failed" (_register_draft t admitted).

(** [verify_audit_event_integrity(event) is not None]. *)
Definition fails_integrity (event : AuditEventRecord) : res bool :=
  invalid ← verify_audit_event_integrity (RecordExact (record_object event));
  Ok match invalid with Some _ => true | None => false end.

(** [except (TypeError, ValueError): return False]. *)
Definition false_on_error (r : res bool) : res bool :=
  match r with
  | Raise e => if is_value_error e || match e with TypeError _ => true | _ => false end then Ok false else Raise e
  | r => r
  end.

Definition _same_registration (t : epoch_tables) (record : ConfigEpochRegistrationRecord) (command : ConfigEpochRegistrationCommand) : res bool :=
  let draft := rg_draft command in
  if bool_decide (rr_epoch_id record <> draft_epoch_id draft) then Ok false
  else
    retained ← _load_draft t (rr_epoch_id record) (Some (rr_scope record));
    match retained with
    | None => violation "config registration epoch is missing"
    | Some retained =>
        if bool_decide (retained <> draft) then Ok false
        else
          event ← _load_audit_event t (rr_audit_event_id record);
          failed ← fails_integrity event;
          if (failed : bool) then violation "config registration audit event integrity disagrees"
          else if bool_decide (rr_audit_input_hash record <> input_hash event)
          then violation "config registration receipt and audit input hash disagree"
          else if bool_decide (actor event <> rg_actor command) then Ok false
          else
            false_on_error
              (again ← checked ConfigEpochRegistrationCommand_check
                         {| rg_draft := draft; rg_operation_id := rg_operation_id command; rg_actor := rg_actor command;
                            rg_occurred_at := created_at event |};
               expected ← prepare_config_epoch_registration again;
               Ok (bool_decide (rr_audit_input_hash record = pg_audit_input_hash expected)))
    end.

(** An event stored by the transition that owns it. *)
Definition append_owned (t : epoch_tables) (event : PreparedAuditEvent) (scope : RepositoryScope) (message : string)
    : res (AuditEventRecord * epoch_tables) :=
  '(appended, a) ← _append_pair_owned (ct_audit t) event scope;
  match appended with
  | AuditAppendAppended r => Ok (r, with_audit t a)
  | _ => violation message
  end.

Definition insert_registration (t : epoch_tables) (r : registration_row) : res epoch_tables :=
  raise_if (negb (registration_accepted t r)) SQLAlchemyError ;;
  Ok (with_registrations t (config_epoch_registrations t ++ [r])).

Definition register_operation (t : epoch_tables) (prepared : PreparedConfigEpochRegistration)
    : res (ConfigEpochRegistrationOperationResult * epoch_tables) :=
  let command := pg_command prepared in
  store_guard "config epoch operation registration failed"
    (draft ← assert_admitted_epoch_draft (rg_draft command);
     existing ← _load_registration t (draft_scope draft) (rg_operation_id command);
     match existing with
     | Some existing =>
         same ← _same_registration t existing command;
         Ok (if (same : bool) then ConfigEpochRegistrationReplay existing else ConfigEpochRegistrationOperationConflict existing, t)
     | None =>
         '(content, t1) ← _register_draft t draft;
         match content with
         | ConfigEpochRegistrationConflict _ => violation "config epoch content identity collided"
         | _ =>
             event ← pg_take_audit_event prepared;
             '(appended, t2) ← append_owned t1 event (draft_scope draft) "config registration audit idempotency conflicts with its operation";
             record ← checked ConfigEpochRegistrationRecord_check
                        {| rr_scope := draft_scope draft; rr_operation_id := rg_operation_id command; rr_epoch_id := draft_epoch_id draft;
                           rr_audit_event_id := audit_event_id appended; rr_audit_input_hash := input_hash appended |};
             row ← _registration_to_row record;
             t3 ← insert_registration t2 row;
             Ok (ConfigEpochRegistrationCommitted record, t3)
         end
     end).

(** ** Activation and rollback *)

Definition is_text (v : pyval) (s : pystr) : bool := match v with VStr x => bool_decide (x = s) | _ => false end.

Definition _coverage_relation (value : pyval) : option ProvenCoverageRelation :=
  if is_text value (u "equal") then Some proven_equal else if is_text value (u "greater") then Some proven_greater else None.

Definition _same_operation (t : epoch_tables) (record : ConfigEpochActivationRecord) (replay : ConfigEpochReplayCommand) : res bool :=
  if bool_decide (rec_expected_revision record <> rp_expected_revision replay) ||
     bool_decide (ac_epoch_id (rec_active record) <> rp_target_epoch_id replay) then Ok false
  else
    event ← _load_audit_event t (rec_audit_event_id record);
    failed ← fails_integrity event;
    if (failed : bool) then violation "config activation audit event fails integrity"
    else if bool_decide (actor event <> rp_actor replay) || bool_decide (input_hash event <> rec_audit_input_hash record) then Ok false
    else match payload event with
    | VDict _ payload =>
        let same proposal evidence observed active relation :=
          false_on_error
            (command ← checked ConfigEpochActivationCommand_check
               {| cm_scope := rp_scope replay; target_epoch_id := rp_target_epoch_id replay;
                  expected_revision := rp_expected_revision replay; operation_id := rp_operation_id replay;
                  cm_actor := rp_actor replay; occurred_at := created_at event; proposal_manifest_id := proposal;
                  authority_evidence_hash := evidence; authority_observed_at := observed; mutation_kind := rp_mutation_kind replay;
                  expected_active_epoch_id := active; coverage_relation := relation; cm_reason := rp_reason replay;
                  activation_version := rp_activation_version replay; review_operation_id := rp_review_operation_id replay |};
             retained ← prepare_config_epoch_activation command;
             Ok (bool_decide (rec_audit_input_hash record = audit_input_hash retained))) in
        match rp_mutation_kind replay with
        | activation_kind =>
            let expected_schema := if rp_activation_version replay =? 1 then _ACTIVATION_AUDIT_SCHEMA else _EXPLICIT_ACTIVATION_AUDIT_SCHEMA in
            if bool_decide (event_type event <> _ACTIVATION_EVENT_TYPE) || negb (is_text (dict_get payload "schemaVersion") expected_schema) ||
               (rp_activation_version replay =? 2) && negb (pyeq (dict_get payload "reviewOperationId") (opt_str (rp_review_operation_id replay)))
            then Ok false
            else match dict_get payload "proposalManifestId", dict_get payload "authorityEvidenceHash", dict_get payload "authorityObservedAt" with
                 | VStr proposal, VStr evidence, VStr observed =>
                     if negb (bool_decide (Some proposal = rp_proposal_manifest_id replay)) then Ok false
                     else same (Some proposal) (Some evidence) (Some observed) None None
                 | _, _, _ => Ok false
                 end
        | rollback_kind =>
            if bool_decide (event_type event <> _ROLLBACK_EVENT_TYPE) || negb (is_text (dict_get payload "schemaVersion") _ROLLBACK_AUDIT_SCHEMA)
            then Ok false
            else match dict_get payload "activeEpochId", _coverage_relation (dict_get payload "coverageRelation") with
                 | VStr active, Some relation => same None None None (Some active) (Some relation)
                 | _, _ => Ok false
                 end
        end
    | _ => Ok false
    end.

Definition _revision_matches (active : option ActiveConfigEpoch) (expected : option Z) : bool :=
  match active with
  | None => bool_decide (expected = None)
  | Some a => bool_decide (Some (ac_revision a) = expected)
  end.

Definition active_row_of (a : ActiveConfigEpoch) : active_row :=
  {| ar_installation_id := scope_installation_id (ac_scope a); ar_repository_id := scope_repository_id (ac_scope a);
     ar_epoch_id := ac_epoch_id a; ar_revision := ac_revision a |}.

(** The pointer row is inserted, or updated where it has the previous revision. *)
Definition _write_active (t : epoch_tables) (previous : option ActiveConfigEpoch) (active : ActiveConfigEpoch) : res epoch_tables :=
  let row := active_row_of active in
  match previous with
  | None =>
      raise_if (negb (active_accepted t row) || existsb (active_at (ac_scope active)) (active_config_epochs t)) SQLAlchemyError ;;
      Ok (with_active t (active_config_epochs t ++ [row]))
  | Some p =>
      let selected r := active_at (ac_scope active) r && (ar_revision r =? ac_revision p) in
      raise_if (existsb selected (active_config_epochs t) && negb (active_accepted t row)) SQLAlchemyError ;;
      if bool_decide (length (List.filter selected (active_config_epochs t)) = 1%nat)
      then Ok (with_active t ((fun r => if selected r then row else r) <$> active_config_epochs t))
      else violation "config epoch active pointer compare-and-set failed"
  end.

Definition insert_activation (t : epoch_tables) (r : activation_row) : res epoch_tables :=
  raise_if (negb (activation_accepted t r)) SQLAlchemyError ;;
  Ok (with_activations t (config_epoch_activations t ++ [r])).

Definition activate (t : epoch_tables) (prepared : PreparedConfigEpochActivation) : res (ConfigEpochActivationResult * epoch_tables) :=
  let command := pa_command prepared in
  let scope := cm_scope command in
  store_guard "config epoch activation failed"
    (existing ← _load_activation t scope (operation_id command);
     match existing with
     | Some existing =>
         replay ← from_activation command;
         same ← _same_operation t existing replay;
         Ok (if (same : bool) then ConfigEpochActivationDuplicate existing else ConfigEpochActivationOperationConflict existing, t)
     | None =>
         target ← _load_draft t (target_epoch_id command) (Some scope);
         match target with
         | None => Ok (ConfigEpochActivationTargetUnavailable, t)
         | Some target =>
             previous ← _load_active_for_update t scope;
             if negb (_revision_matches previous (expected_revision command))
             then Ok (ConfigEpochActivationRevisionConflict previous, t)
             else if match mutation_kind command, previous with
                     | rollback_kind, Some p => negb (bool_decide (Some (ac_epoch_id p) = expected_active_epoch_id command))
                     | _, _ => false
                     end
             then Ok (ConfigEpochActivationRevisionConflict previous, t)
             else
               event ← _take_audit_event prepared;
               '(appended, t1) ← append_owned t event scope "config activation audit idempotency is inconsistent with its operation";
               active ← checked ActiveConfigEpoch_check
                          {| ac_scope := scope; ac_epoch_id := draft_epoch_id target;
                             ac_revision := match previous with None => 1 | Some p => ac_revision p + 1 end |};
               record ← checked ConfigEpochActivationRecord_check
                          {| rec_scope := scope; rec_operation_id := operation_id command; rec_expected_revision := expected_revision command;
                             rec_previous := previous; rec_active := active; rec_audit_event_id := audit_event_id appended;
                             rec_audit_input_hash := input_hash appended |};
               t2 ← _write_active t1 previous active;
               row ← _activation_to_row record;
               t3 ← insert_activation t2 row;
               Ok (ConfigEpochActivationApplied record, t3)
         end
     end).

Definition resolve_operation (t : epoch_tables) (command : ConfigEpochReplayCommand) : res (option ConfigEpochActivationResult) :=
  store_guard "config epoch operation lookup failed"
    (existing ← _load_activation t (rp_scope command) (rp_operation_id command);
     match existing with
     | None => Ok None
     | Some existing =>
         same ← _same_operation t existing command;
         Ok (Some (if (same : bool) then ConfigEpochActivationDuplicate existing else ConfigEpochActivationOperationConflict existing))
     end).
End repository.
