(* ===== verification/ConfigEpochFacts.v ===== *)
(** * What the configuration epoch tables promise

    Epochs are never changed once stored.  The activations of a repository form
    a chain of consecutive revisions that ends at its pointer, and every
    activation is paired with the audit event of the command it applied. *)

From stdpp Require Import base gmap sets list sorting strings.
From Stdlib Require Import ZArith Lia.
From S2P Require Import Prelude Text PyFloat CanonicalJson Hashing JsonLoads JsonRoundtrip Instants ConfigControl AuditEvents AuditChain AuditFacts AuditChainFacts AuditLedger AuditPages AuditRepository AuditRepositoryFacts AuditStore TableFacts Rollback ConfigEpochs ConfigEpochStore.

Lemma row_guard_Ok {A} m (r : res A) x : row_guard m r = Ok x <-> r = Ok x.
Proof. destruct r as [|e]; [done|]. cbn. by destruct (_ || _). Qed.

Lemma decode_found_Ok {R A} (decode : R -> res A) rows o :
  decode_found decode rows = Ok o <-> match o with None => rows = [] | Some a => exists r, rows = [r] /\ decode r = Ok a end.
Proof.
  unfold decode_found. rewrite bind_Ok. split.
  - intros (x & Hx%one_or_none_Ok & E). destruct x as [r|]; [|by injection E as <-]. apply fmap_Ok in E as (a & E & ->). by exists r.
  - destruct o as [a|]; [intros (r & -> & E); exists (Some r); split; [done|]; by rewrite E|]. intros ->. by exists None.
Qed.

(** Epoch and revision. *)
Abbreviation pointer := (option (pystr * Z)).

Section facts.
Context `{Sha256} `{PolicyAdmission}.

(** ** Drafts *)

(** A value its constructor accepted, that admission reproduces. *)
Record draft_ok (d : ValidatedEpochDraft) : Prop := {
  do_check : ValidatedEpochDraft_check d = Ok tt;
  do_scope : RepositoryScope_check (draft_scope d) = Ok tt;
}.

Definition admitted (d : ValidatedEpochDraft) : Prop := admit_policy_document (source_bytes d) (source_format d) = Some d.

Lemma assert_admitted_Ok d d' : assert_admitted_epoch_draft d = Ok d' <-> admitted d /\ d' = d.
Proof.
  unfold assert_admitted_epoch_draft. rewrite bind_Ok. split.
  - intros ([] & E%raise_if_Ok & [= <-]). apply negb_false_iff, bool_decide_eq_true in E. done.
  - intros [E ->]. exists tt. split; [|done]. apply raise_if_Ok, negb_false_iff. by apply bool_decide_eq_true_2.
Qed.

Lemma source_format_read f : _required_source_format (source_format_str f) = Ok f.
Proof. by destruct f. Qed.

(** A stored draft is read back. *)
Lemma draft_read d : draft_ok d -> admitted d -> _draft_from_row (_draft_to_row d) = Ok d.
Proof.
  intros [Hc Hs] Ha. unfold _draft_from_row. apply row_guard_Ok.
  cbn [_draft_to_row er_epoch_id er_installation_id er_repository_id er_source_format er_source_bytes er_normalized_document_bytes er_compiled_policy_bytes er_document_schema_id er_document_profile_id er_semantic_profile_id er_compiled_schema_id er_producer_resource_profile_id er_producer_byte_profile_id er_producer_feasibility_profile_id er_source_hash er_document_hash er_epoch_hash].
  rewrite source_format_read. cbn [mbind res_bind].
  rewrite scope_eta. rewrite (proj2 (checked_Ok _ _ _) (conj Hs eq_refl)). cbn [mbind res_bind].
  replace (Build_ValidatedEpochDraft _ _ _ _ _ _ _ _ _ _ _ _ _ _ _ _) with d by by destruct d.
  rewrite (proj2 (checked_Ok _ _ _) (conj Hc eq_refl)). cbn [mbind res_bind]. by apply assert_admitted_Ok.
Qed.

Lemma draft_from_row_ok r d : _draft_from_row r = Ok d -> draft_ok d /\ admitted d /\ r = _draft_to_row d.
Proof.
  unfold _draft_from_row. intros E%row_guard_Ok. apply bind_Ok in E as (f & Ef & E). apply bind_Ok in E as (s & [Es ->]%checked_Ok & E).
  apply bind_Ok in E as (d' & [Ed ->]%checked_Ok & E). apply assert_admitted_Ok in E as [Ha ->]. split_and!; [by split|done|].
  destruct r. cbn in *. unfold _draft_to_row. cbn. f_equal. unfold _required_source_format in Ef.
  case_bool_decide as E1; [by injection Ef as <-|]. case_bool_decide as E2; [by injection Ef as <-|done].
Qed.

(** ** Histories of a repository *)

Definition row_scope (r : activation_row) : RepositoryScope := scope_of (vr_installation_id r) (vr_repository_id r).

Definition in_scope (s : RepositoryScope) (r : activation_row) : bool :=
  (vr_installation_id r =? scope_installation_id s) && (vr_repository_id r =? scope_repository_id s).

Definition activations_of (s : RepositoryScope) (t : epoch_tables) : list activation_row :=
  List.filter (in_scope s) (config_epoch_activations t).

Lemma in_scope_spec s r : in_scope s r = bool_decide (row_scope r = s).
Proof.
  apply eq_bool_prop_intro. rewrite bool_decide_spec. unfold in_scope, row_scope. destruct s as [i j]. cbn.
  rewrite Is_true_true, andb_true_iff', !Z.eqb_eq. split; [intros [<- <-]; done|intros [= <- <-]; done].
Qed.

Lemma active_at_spec s r : active_at s r = bool_decide (scope_of (ar_installation_id r) (ar_repository_id r) = s).
Proof.
  apply eq_bool_prop_intro. rewrite bool_decide_spec. unfold active_at. destruct s as [i j]. cbn.
  rewrite Is_true_true, andb_true_iff', !Z.eqb_eq. split; [intros [<- <-]; done|intros [= <- <-]; done].
Qed.

Fixpoint chained (previous : pointer) (rows : list activation_row) : Prop :=
  match rows with
  | [] => True
  | r :: rest =>
      vr_previous_epoch_id r = fst <$> previous /\ vr_previous_revision r = snd <$> previous /\ vr_expected_revision r = snd <$> previous /\
      vr_result_revision r = default 0 (snd <$> previous) + 1 /\ chained (Some (vr_target_epoch_id r, vr_result_revision r)) rest
  end.

Definition chain_end (previous : pointer) (rows : list activation_row) : pointer :=
  match last rows with Some r => Some (vr_target_epoch_id r, vr_result_revision r) | None => previous end.

(** The pointer of a repository, by its history. *)
Definition pointer_of (s : RepositoryScope) (t : epoch_tables) : pointer := chain_end None (activations_of s t).

Definition row_pointer (r : active_row) : pystr * Z := (ar_epoch_id r, ar_revision r).

Lemma chained_snoc previous rows r : chained previous (rows ++ [r]) <-> chained previous rows /\ chained (chain_end previous rows) [r].
Proof.
  revert previous. induction rows as [|x rows IH]; intros previous; cbn [app chained]; [unfold chain_end; cbn; tauto|]. rewrite IH.
  assert (E : chain_end (Some (vr_target_epoch_id x, vr_result_revision x)) rows = chain_end previous (x :: rows)).
  { unfold chain_end. rewrite last_cons. by destruct (last rows). }
  rewrite E. cbn [chained]. tauto.
Qed.

Lemma chain_end_snoc previous rows r : chain_end previous (rows ++ [r]) = Some (vr_target_epoch_id r, vr_result_revision r).
Proof. unfold chain_end. by rewrite last_snoc. Qed.

(** Revisions count the activations. *)
Lemma chained_revision previous rows i r :
  chained previous rows -> rows !! i = Some r -> vr_result_revision r = default 0 (snd <$> previous) + Z.of_nat i + 1.
Proof.
  revert previous i. induction rows as [|x rows IH]; intros previous i Hc Hi; [done|]. destruct Hc as (_ & _ & _ & Ex & Hc). destruct i as [|i]; cbn in Hi.
  - injection Hi as <-. lia.
  - rewrite (IH _ _ Hc Hi). cbn. lia.
Qed.

Lemma chain_end_revision previous rows : chained previous rows ->
  default 0 (snd <$> chain_end previous rows) = default 0 (snd <$> previous) + Z.of_nat (length rows).
Proof.
  intros Hc. unfold chain_end. destruct (last rows) as [r|] eqn:E; [|apply last_None in E as ->; cbn; lia].
  pose proof (last_lookup rows) as El. rewrite El in E. cbn. rewrite (chained_revision _ _ _ _ Hc E). apply lookup_lt_Some in E. lia.
Qed.

(** What a row of the history says. *)
Definition record_of (r : activation_row) : ConfigEpochActivationRecord := {|
  rec_scope := row_scope r; rec_operation_id := vr_operation_id r; rec_expected_revision := vr_expected_revision r;
  rec_previous := match vr_previous_revision r, vr_previous_epoch_id r with
                  | Some revision, Some epoch_id => Some {| ac_scope := row_scope r; ac_epoch_id := epoch_id; ac_revision := revision |}
                  | _, _ => None
                  end;
  rec_active := {| ac_scope := row_scope r; ac_epoch_id := vr_target_epoch_id r; ac_revision := vr_result_revision r |};
  rec_audit_event_id := vr_audit_event_id r; rec_audit_input_hash := hex (vr_audit_input_hash r) |}.

(** The command an activation row applied, with its audit event. *)
Record activation_of (rs : list AuditEventRecord) (r : activation_row) (c : ConfigEpochActivationCommand) : Prop := {
  av_check : ConfigEpochActivationCommand_check c = Ok tt;
  av_scope_check : RepositoryScope_check (cm_scope c) = Ok tt;
  av_row_scope : row_scope r = cm_scope c;
  av_operation : vr_operation_id r = operation_id c;
  av_expected : vr_expected_revision r = expected_revision c;
  av_target : vr_target_epoch_id r = target_epoch_id c;
  av_rollback : mutation_kind c = rollback_kind -> vr_previous_epoch_id r = expected_active_epoch_id c;
  av_event : exists p event, prepare_config_epoch_activation c = Ok p /\ event ∈ rs /\
    _record_input event = pr_input (pa_audit_event p) /\ input_hash event = audit_input_hash p /\
    audit_event_id event = vr_audit_event_id r /\ fromhex (input_hash event) = Ok (vr_audit_input_hash r);
}.

(** The state of the tables; [rs] are the records of the audit ledger. *)
Record epochs_hold (t : epoch_tables) (rs : list AuditEventRecord) : Prop := {
  eh_audit : tables_hold (ct_audit t) rs;
  eh_epochs : Forall (fun r => exists d, draft_ok d /\ admitted d /\ r = _draft_to_row d) (config_epochs t);
  eh_epoch_ids : NoDup (er_epoch_id <$> config_epochs t);
  eh_chain : forall s, chained None (activations_of s t);
  eh_pointer : forall s, row_pointer <$> List.filter (active_at s) (active_config_epochs t) = option_list (pointer_of s t);
  eh_pointed : forall r, r ∈ active_config_epochs t -> active_accepted t r = true;
  eh_commands : forall r, r ∈ config_epoch_activations t -> exists c, activation_of rs r c;
  eh_read : forall r, r ∈ config_epoch_activations t -> _activation_from_row r = Ok (record_of r);
  eh_operations : forall s o, (length (List.filter (activation_at s o) (config_epoch_activations t)) <= 1)%nat;
}.

Lemma activation_of_app rs rs' r c : activation_of rs r c -> activation_of (rs ++ rs') r c.
Proof.
  intros [? ? ? ? ? ? ? (p & e & ? & ? & ?)]. split; try done. exists p, e. split_and!; [done| |naive_solver..]. apply elem_of_app. by left.
Qed.

(** ** Reading the state *)

Lemma sha256_ok s : _require_epoch_id (Some s) = Ok tt <-> is_sha256_hex s = true.
Proof. unfold _require_epoch_id. rewrite raise_if_Ok. by destruct (is_sha256_hex s). Qed.

Lemma safe_integer_ok z n : _require_positive_safe_integer z n = Ok tt <-> safe_id z = true.
Proof. unfold _require_positive_safe_integer, safe_id, _safe_integer_max, MAX_SAFE_JSON_INTEGER. rewrite raise_if_Ok. by destruct (_ && _). Qed.

Lemma active_ok a : ActiveConfigEpoch_check a = Ok tt <-> is_sha256_hex (ac_epoch_id a) = true /\ safe_id (ac_revision a) = true.
Proof.
  unfold ActiveConfigEpoch_check. rewrite bind_Ok, <- (safe_integer_ok _ (u "revision")), <- sha256_ok.
  split; [intros ([] & ? & ?); done|intros [? ?]; by exists tt].
Qed.

Definition pointed (s : RepositoryScope) (p : pystr * Z) : ActiveConfigEpoch := {| ac_scope := s; ac_epoch_id := p.1; ac_revision := p.2 |}.

Lemma singleton_fmap {A B} (f : A -> B) l y : f <$> l = [y] -> exists x, l = [x] /\ f x = y.
Proof. destruct l as [|x [|]]; naive_solver. Qed.

(** The pointer row of a repository. *)
Lemma pointer_rows t rs s : epochs_hold t rs ->
  match pointer_of s t with
  | None => List.filter (active_at s) (active_config_epochs t) = []
  | Some p => exists q, List.filter (active_at s) (active_config_epochs t) = [q] /\ q ∈ active_config_epochs t /\
      active_at s q = true /\ row_pointer q = p /\ active_accepted t q = true
  end.
Proof.
  intros Ht. pose proof (eh_pointer _ _ Ht s) as E. destruct (pointer_of s t) as [p|].
  - apply singleton_fmap in E as (q & E & Eq). exists q. assert (Hq : q ∈ List.filter (active_at s) (active_config_epochs t)) by (rewrite E; by left).
    apply filter_elem in Hq as [Hq Ha]. split_and!; try done. by eapply eh_pointed.
  - by destruct (List.filter _ _).
Qed.

Lemma accepted_parts t r : active_accepted t r = true ->
  is_sha256_hex (ar_epoch_id r) = true /\ safe_id (ar_revision r) = true /\ epoch_exists t (ar_installation_id r) (ar_repository_id r) (ar_epoch_id r) = true.
Proof. unfold active_accepted. rewrite !andb_true_iff'. tauto. Qed.

Lemma pointer_loaded t rs s : epochs_hold t rs -> _load_active_for_update t s = Ok (pointed s <$> pointer_of s t).
Proof.
  intros Ht. unfold _load_active_for_update. apply decode_found_Ok. pose proof (pointer_rows t rs s Ht) as Hp.
  destruct (pointer_of s t) as [p|]; cbn; [|done]. destruct Hp as (q & E & _ & _ & <- & Hq). exists q. split; [done|].
  apply accepted_parts in Hq as (H1 & H2 & _). unfold active_from_row. apply checked_Ok. split; [by apply active_ok|done].
Qed.

(** The draft of an epoch of a repository. *)
Lemma epoch_of_at s id r : epoch_of id (Some s) r = epoch_at (scope_installation_id s) (scope_repository_id s) id r.
Proof. unfold epoch_of, epoch_at. destruct (bool_decide _), (_ =? _), (_ =? _); done. Qed.

(** The epochs registered for a repository. *)
Definition registered (t : epoch_tables) (d : ValidatedEpochDraft) : Prop := _draft_to_row d ∈ config_epochs t.

Lemma draft_loaded t rs s id : epochs_hold t rs ->
  if epoch_exists t (scope_installation_id s) (scope_repository_id s) id
  then exists d, _load_draft t id (Some s) = Ok (Some d) /\ registered t d /\ draft_scope d = s /\ draft_epoch_id d = id
  else _load_draft t id (Some s) = Ok None.
Proof.
  intros Ht. unfold _load_draft. destruct (epoch_exists _ _ _ _) eqn:E.
  - apply existsb_elem in E as (r & Hr & E). pose proof (proj1 (Forall_forall _ _) (eh_epochs _ _ Ht) r Hr) as (d & Hd & Ha & ->).
    exists d. split.
    + apply decode_found_Ok. exists (_draft_to_row d). split; [|by apply draft_read].
      apply (NoDup_filter_one er_epoch_id _ _ id); [apply Ht| |done|by rewrite epoch_of_at]. intros y Hy%andb_true_iff'. by destruct Hy as [?%bool_decide_eq_true _].
    + unfold epoch_at in E. rewrite !andb_true_iff', !Z.eqb_eq, bool_decide_eq_true in E. destruct E as [[E1 E2] E3]. split_and!; [done| |done].
      cbn in E1, E2. destruct (draft_scope d), s. cbn in *. congruence.
  - apply decode_found_Ok, filter_none. intros r Hr. rewrite epoch_of_at. by apply (proj1 (existsb_false _ _) E).
Qed.
End facts.
