(* ===== verification/ConfigEpochSteps.v ===== *)
(** * What activating an epoch does

    Activation of a prepared command is a compare-and-set on the history of its
    repository: it is refused, and changes nothing, unless the pointer is the
    one the command expects; otherwise it extends the history by one revision,
    moves the pointer and appends the command's audit event, all or nothing. *)

From stdpp Require Import base gmap sets list sorting strings.
From Stdlib Require Import ZArith Lia.
From S2P Require Import Prelude Text PyFloat CanonicalJson Hashing JsonLoads JsonRoundtrip Instants ConfigControl AuditEvents AuditChain AuditFacts AuditChainFacts AuditLedger AuditPages AuditRepository AuditRepositoryFacts AuditStore TableFacts Rollback ConfigEpochs ConfigEpochStore ConfigEpochFacts.

(** ** Texts *)

Lemma nonempty_text s n : _require_nonempty_scalar_text s n = Ok tt -> s <> [] /\ has_char 0 s = false /\ is_unicode_scalar_string s = true.
Proof. unfold _require_nonempty_scalar_text. rewrite raise_if_Ok. intros H. bdec. done. Qed.

Lemma bounded_text s n m : _require_bounded_text s n m = Ok tt ->
  s <> [] /\ has_char 0 s = false /\ is_unicode_scalar_string s = true /\ exists k, utf8_length s = Ok k /\ k <= m.
Proof.
  unfold _require_bounded_text. intros ([] & H%nonempty_text & E)%bind_Ok. apply bind_Ok in E as (k & Ek & E%raise_if_Ok). apply Z.ltb_ge in E.
  split_and!; try apply H. by exists k.
Qed.

(** The column of a bounded text. *)
Lemma bounded_column s n : _require_bounded_text s n 256 = Ok tt -> text_octets 1 256 s = true.
Proof.
  intros (Hs & Hz & _ & k & Ek & Hk)%bounded_text. unfold text_octets. rewrite Hz, Ek. pose proof (utf8_length_positive _ _ Hs Ek). cbn [negb andb]. lia.
Qed.

Lemma scope_suffix_scalar s : is_unicode_scalar_string (scope_suffix s) = true.
Proof. unfold scope_suffix. by rewrite !scalar_app, !scalar_u, !int_str_scalar. Qed.

Section steps.
Context `{Sha256} `{PolicyAdmission}.

(** ** Commands *)

Record command_texts (c : ConfigEpochActivationCommand) : Prop := {
  ct_operation : _require_bounded_text (operation_id c) (u "operation_id") MAX_CONFIG_OPERATION_ID_UTF8_BYTES = Ok tt;
  ct_actor : is_unicode_scalar_string (cm_actor c) = true;
  ct_occurred : is_unicode_scalar_string (occurred_at c) = true;
  ct_revision : forall r, expected_revision c = Some r -> safe_id r = true;
  ct_target : is_sha256_hex (target_epoch_id c) = true;
}.

Lemma checked_command c : ConfigEpochActivationCommand_check c = Ok tt -> command_texts c.
Proof.
  unfold ConfigEpochActivationCommand_check. intros ([] & E1 & E)%bind_Ok. apply bind_Ok in E as ([] & E2 & E). apply bind_Ok in E as ([] & E3 & E).
  apply bind_Ok in E as ([] & E4 & E). apply bind_Ok in E as ([] & E5 & _). split; [done|by apply nonempty_text in E4 as (_ & _ & ?)|by apply nonempty_text in E5 as (_ & _ & ?)| |by apply sha256_ok].
  intros r Er. rewrite Er in E2. by eapply safe_integer_ok.
Qed.

Lemma opt_relation_wf o : well_formed (opt_relation o).
Proof. by destruct o. Qed.
#[local] Hint Resolve opt_relation_wf : core.

Lemma audit_projection_wf c : well_formed (_audit_projection c).2.
Proof.
  unfold _audit_projection. destruct (mutation_kind c); cbn [snd]; [destruct (activation_version c =? 2)|].
  all: apply obj_wf; [|reflexivity].
  all: repeat constructor; cbn; auto.
Qed.

Lemma epoch_event_ok scope prefix operation event_type_ at_ actor_ payload_ :
  is_unicode_scalar_string operation = true -> is_unicode_scalar_string actor_ = true -> is_unicode_scalar_string prefix = true ->
  is_unicode_scalar_string event_type_ = true -> well_formed payload_ ->
  input_like_ok (InputExact (epoch_event scope prefix operation event_type_ at_ actor_ payload_)).
Proof.
  intros Ho Ha Hp He Hw. split; [done|]. unfold epoch_event, input_text. cbn [io_idempotency_key io_subject_id io_event_type io_actor].
  split_and!; apply scalar_text; [|unfold _audit_subject_id|done..]; by rewrite ?scalar_app, ?scalar_u, ?scope_suffix_scalar, ?Hp, ?Ho.
Qed.

Lemma activation_event_ok c : ConfigEpochActivationCommand_check c = Ok tt -> input_like_ok (InputExact (activation_event c)).
Proof.
  intros Hc%checked_command. pose proof (audit_projection_wf c) as Hw. unfold activation_event. destruct (_audit_projection c) as [[prefix ty] p] eqn:E. cbn in Hw.
  assert (is_unicode_scalar_string prefix = true /\ is_unicode_scalar_string ty = true) as [H1 H2].
  { unfold _audit_projection in E. destruct (mutation_kind c); injection E as <- <- _; by split; apply scalar_u. }
  destruct Hc as [Ho Ha _ _ _]. apply bounded_text in Ho as (_ & _ & Ho & _). by apply epoch_event_ok.
Qed.

(** A command its constructor accepted, prepared for one activation. *)
Record activation_ready (p : PreparedConfigEpochActivation) : Prop := {
  ar_prepared : prepare_config_epoch_activation (pa_command p) = Ok p;
  ar_check : ConfigEpochActivationCommand_check (pa_command p) = Ok tt;
  ar_scope : RepositoryScope_check (cm_scope (pa_command p)) = Ok tt;
}.

Lemma prepared_activation c p : prepare_config_epoch_activation c = Ok p -> pa_command p = c /\ pa_consumed p = false /\
  prepare_audit_event (InputExact (activation_event c)) = Ok (pa_audit_event p).
Proof. unfold prepare_config_epoch_activation. intros (e & E & [= <-])%bind_Ok. done. Qed.

Lemma ready_event p : activation_ready p -> prepared_from (InputExact (activation_event (pa_command p))) (pa_audit_event p).
Proof. intros [E Hc _]. apply prepared_activation in E as (_ & _ & E). by split; [apply activation_event_ok|]. Qed.

(** ** The audit event *)

Lemma append_owned_facts t rs i p scope m r t' :
  epochs_hold t rs -> prepared_from i p -> append_owned t p scope m = Ok (r, t') ->
  exists a, t' = with_audit t a /\ tables_hold a (rs ++ [r]) /\ _record_input r = pr_input p /\ input_hash r = pr_input_hash p.
Proof.
  intros Ht Hp E. unfold append_owned in E. apply bind_Ok in E as ([x a] & Ea & E). destruct x; try done. injection E as <- <-. exists a. split; [done|].
  unfold _append_pair_owned in Ea. destruct (negb _); [done|]. apply store_guard_Ok in Ea. eapply appended_facts; [by apply Ht|exact Hp|exact Ea].
Qed.

(** A longer ledger keeps the rest. *)
Lemma audit_step t rs a rs' : epochs_hold t rs -> tables_hold a (rs ++ rs') -> epochs_hold (with_audit t a) (rs ++ rs').
Proof.
  intros Ht Ha. split; [done|apply Ht..| |apply Ht|apply Ht]. intros r Hr. destruct (eh_commands _ _ Ht r Hr) as (c & Hc). exists c. by apply activation_of_app.
Qed.

(** ** Rows of the history *)

Record record_checked (rec : ConfigEpochActivationRecord) : Prop := {
  rk_check : ConfigEpochActivationRecord_check rec = Ok tt;
  rk_scope : RepositoryScope_check (rec_scope rec) = Ok tt;
  rk_previous : forall p, rec_previous rec = Some p -> ActiveConfigEpoch_check p = Ok tt;
  rk_active : ActiveConfigEpoch_check (rec_active rec) = Ok tt;
}.

Lemma record_scopes rec : ConfigEpochActivationRecord_check rec = Ok tt ->
  (forall p, rec_previous rec = Some p -> ac_scope p = rec_scope rec) /\ ac_scope (rec_active rec) = rec_scope rec /\ is_sha256_hex (rec_audit_input_hash rec) = true.
Proof.
  unfold ConfigEpochActivationRecord_check. intros E. apply bind_Ok in E as ([] & _ & E). apply bind_Ok in E as ([] & _ & E).
  apply bind_Ok in E as ([] & E3%raise_if_Ok & E). apply bind_Ok in E as ([] & E4%raise_if_Ok & E). apply bind_Ok in E as ([] & _ & E).
  apply bind_Ok in E as ([] & _ & E%sha256_ok). bdec. split_and!; try done. intros p Ep. rewrite Ep in E3. by bdec.
Qed.

(** A record is written as a row that is read back as it. *)
Lemma activation_read rec row :
  record_checked rec -> _activation_to_row rec = Ok row -> record_of row = rec /\ _activation_from_row row = Ok (record_of row).
Proof.
  intros [Hc Hs Hp Ha] E. destruct (record_scopes rec Hc) as (Sp & Sa & Hh). destruct (fromhex_sha256 _ Hh) as (b & Eb & Ehex & _).
  assert (Er : record_of row = rec).
  { unfold _activation_to_row in E. rewrite Eb in E. injection E as <-. unfold record_of, row_scope. cbn -[hex]. rewrite Ehex, scope_eta.
    destruct rec as [s o e p [as_ ae ar] i h]. cbn in *. subst. destruct p as [[ps pe pr]|]; cbn; [|done]. by rewrite <- (Sp _ eq_refl). }
  split; [done|]. rewrite Er. unfold _activation_from_row. apply row_guard_Ok.
  assert (Es : scope_of (vr_installation_id row) (vr_repository_id row) = rec_scope rec) by by rewrite <- Er.
  rewrite Es, (proj2 (checked_Ok _ _ _) (conj Hs eq_refl)). cbn [mbind res_bind].
  assert (Ea : {| ac_scope := rec_scope rec; ac_epoch_id := vr_target_epoch_id row; ac_revision := vr_result_revision row |} = rec_active rec) by by rewrite <- Er.
  assert (Ep : (match vr_previous_revision row, vr_previous_epoch_id row with
                | Some revision, Some epoch_id => Some <$> checked ActiveConfigEpoch_check {| ac_scope := rec_scope rec; ac_epoch_id := epoch_id; ac_revision := revision |}
                | _, _ => Ok None end) = Ok (rec_previous rec)).
  { rewrite <- Er. cbn [record_of rec_previous rec_scope]. destruct (vr_previous_revision row) as [v|] eqn:Ev, (vr_previous_epoch_id row) as [q|] eqn:Eq; try done.
    assert (Ep : rec_previous rec = Some {| ac_scope := row_scope row; ac_epoch_id := q; ac_revision := v |}) by (rewrite <- Er; cbn; by rewrite Ev, Eq).
    by rewrite (proj2 (checked_Ok _ _ _) (conj (Hp _ Ep) eq_refl)). }
  rewrite Ep. cbn [mbind res_bind]. rewrite Ea, (proj2 (checked_Ok _ _ _) (conj Ha eq_refl)). cbn [mbind res_bind].
  replace (Build_ConfigEpochActivationRecord _ _ _ _ _ _ _) with rec; [by apply checked_Ok|].
  rewrite <- Er at 1. unfold record_of. f_equal; rewrite <- Er; done.
Qed.

(** ** The operation of a key *)

Definition operation_row (t : epoch_tables) (s : RepositoryScope) (o : pystr) : option activation_row :=
  head (List.filter (activation_at s o) (config_epoch_activations t)).

Lemma operation_loaded t rs s o : epochs_hold t rs -> _load_activation t s o = Ok (record_of <$> operation_row t s o).
Proof.
  intros Ht. unfold _load_activation, operation_row. apply decode_found_Ok. pose proof (eh_operations _ _ Ht s o) as Hl.
  destruct (List.filter _ _) as [|r [|]] eqn:E; [done| |cbn in Hl; lia]. exists r. split; [done|]. apply (eh_read _ _ Ht).
  assert (Hr : r ∈ [r]) by by left. rewrite <- E in Hr. by apply filter_elem in Hr as [? _].
Qed.

Lemma operation_row_elem t s o r : operation_row t s o = Some r -> r ∈ config_epoch_activations t /\ row_scope r = s /\ vr_operation_id r = o.
Proof.
  unfold operation_row. destruct (List.filter _ _) as [|x l] eqn:E; [done|]. intros [= ->]. assert (Hr : r ∈ r :: l) by by left. rewrite <- E in Hr.
  apply filter_elem in Hr as [Hr Ha]. split; [done|]. change (in_scope s r && bool_decide (vr_operation_id r = o) = true) in Ha.
  rewrite in_scope_spec in Ha. by bdec.
Qed.

Lemma operation_none t s o : operation_row t s o = None -> List.filter (activation_at s o) (config_epoch_activations t) = [].
Proof. unfold operation_row. by destruct (List.filter _ _). Qed.

(** ** The compare-and-set *)

(** The pointer a command expects. *)
Definition expected_pointer (c : ConfigEpochActivationCommand) (p : pointer) : bool :=
  bool_decide (snd <$> p = expected_revision c) &&
  match mutation_kind c with rollback_kind => bool_decide (fst <$> p = expected_active_epoch_id c) | activation_kind => true end.

Lemma rollback_revision c : ConfigEpochActivationCommand_check c = Ok tt -> mutation_kind c = rollback_kind -> expected_revision c <> None.
Proof.
  unfold ConfigEpochActivationCommand_check. intros E Ek. rewrite Ek in E. do 6 apply bind_Ok in E as ([] & _ & E). apply bind_Ok in E as ([] & _ & E).
  apply bind_Ok in E as ([] & E1%raise_if_Ok & _). by bdec.
Qed.

Lemma revision_matches c s p : ConfigEpochActivationCommand_check c = Ok tt ->
  _revision_matches (pointed s <$> p) (expected_revision c) &&
  negb match mutation_kind c, pointed s <$> p with
       | rollback_kind, Some p => negb (bool_decide (Some (ac_epoch_id p) = expected_active_epoch_id c))
       | _, _ => false
       end = expected_pointer c p.
Proof.
  intros Hc. pose proof (rollback_revision c Hc) as Hr. unfold expected_pointer, _revision_matches. destruct p as [[e v]|]; cbn.
  - by destruct (mutation_kind c); rewrite ?negb_involutive, ?andb_true_r.
  - destruct (mutation_kind c); cbn; rewrite ?andb_true_r; [by repeat case_bool_decide|]. rewrite bool_decide_eq_false_2 by by apply Hr.
    by rewrite bool_decide_eq_false_2 by (intros Hn; by apply Hr).
Qed.

(** The rest of a transaction whose guards have passed. *)
Definition advance (t : epoch_tables) (p : PreparedConfigEpochActivation) (previous : option ActiveConfigEpoch) (target : pystr)
    : res (ConfigEpochActivationResult * epoch_tables) :=
  let command := pa_command p in
  let scope := cm_scope command in
  event ← _take_audit_event p;
  '(appended, t1) ← append_owned t event scope "config activation audit idempotency is inconsistent with its operation";
  active ← checked ActiveConfigEpoch_check
             {| ac_scope := scope; ac_epoch_id := target; ac_revision := match previous with None => 1 | Some p => ac_revision p + 1 end |};
  record ← checked ConfigEpochActivationRecord_check
             {| rec_scope := scope; rec_operation_id := operation_id command; rec_expected_revision := expected_revision command;
                rec_previous := previous; rec_active := active; rec_audit_event_id := audit_event_id appended;
                rec_audit_input_hash := input_hash appended |};
  t2 ← _write_active t1 previous active;
  row ← _activation_to_row record;
  t3 ← insert_activation t2 row;
  Ok (ConfigEpochActivationApplied record, t3).

(** What an activation does, by the state it meets. *)
Lemma activate_cases t rs p : epochs_hold t rs -> activation_ready p ->
  let c := pa_command p in let s := cm_scope c in
  operation_row t s (operation_id c) = None ->
  activate t p =
    if negb (epoch_exists t (scope_installation_id s) (scope_repository_id s) (target_epoch_id c)) then Ok (ConfigEpochActivationTargetUnavailable, t)
    else if negb (expected_pointer c (pointer_of s t)) then Ok (ConfigEpochActivationRevisionConflict (pointed s <$> pointer_of s t), t)
    else store_guard "config epoch activation failed" (advance t p (pointed s <$> pointer_of s t) (target_epoch_id c)).
Proof.
  intros Ht Hp c s Hn. unfold activate. fold c. fold s. rewrite (operation_loaded t rs s (operation_id c) Ht), Hn. cbn [mbind res_bind fmap option_fmap option_map].
  pose proof (draft_loaded t rs s (target_epoch_id c) Ht) as Hd. destruct (epoch_exists _ _ _ _); cbn [negb].
  - destruct Hd as (d & -> & _ & _ & Ed). cbn [mbind res_bind]. rewrite (pointer_loaded t rs s Ht). cbn [mbind res_bind].
    rewrite <- (revision_matches c s (pointer_of s t)) by apply Hp. destruct (_revision_matches _ _); cbn [negb andb]; [|done].
    destruct (mutation_kind c); cbn [negb]; [by rewrite Ed|]. destruct (pointed s <$> pointer_of s t) as [q|]; [|cbn [negb]; by rewrite Ed].
    rewrite negb_involutive. destruct (bool_decide _); cbn [negb]; [by rewrite Ed|done].
  - rewrite Hd. done.
Qed.

(** ** Writing the pointer *)

Lemma filter_map_same {A} (f g : A -> bool) (y : A) l : f y = true ->
  List.filter f ((fun r => if f r && g r then y else r) <$> l) = (fun r => if g r then y else r) <$> List.filter f l.
Proof.
  intros Hy. induction l as [|x l IH]; [done|]. rewrite fmap_cons. cbn [List.filter]. destruct (f x) eqn:Ex; cbn [andb].
  - destruct (g x) eqn:Eg; rewrite ?Hy, ?Ex, fmap_cons, Eg; by f_equal.
  - by rewrite Ex.
Qed.

Lemma filter_map_other {A} (f f' g : A -> bool) (y : A) l : f' y = false -> (forall x, f x = true -> f' x = false) ->
  List.filter f' ((fun r => if f r && g r then y else r) <$> l) = List.filter f' l.
Proof.
  intros Hy Hf. induction l as [|x l IH]; [done|]. rewrite fmap_cons. cbn [List.filter]. destruct (f x) eqn:Ex; cbn [andb].
  - rewrite (Hf x Ex). destruct (g x); [by rewrite Hy|by rewrite (Hf x Ex)].
  - by rewrite IH.
Qed.

Lemma filter_pred {A} (f g : A -> bool) l : List.filter (fun r => f r && g r) l = List.filter g (List.filter f l).
Proof. induction l as [|x l IH]; [done|]. cbn. destruct (f x); cbn; [destruct (g x); by rewrite IH|done]. Qed.

Lemma active_row_at s active : active_at s (active_row_of active) = bool_decide (ac_scope active = s).
Proof. rewrite active_at_spec. unfold active_row_of. cbn. by rewrite scope_eta. Qed.

Lemma active_at_two s s' r : s' <> s -> active_at s r = true -> active_at s' r = false.
Proof. rewrite !active_at_spec. intros Hs E. bdec. apply bool_decide_eq_false_2. congruence. Qed.

(** The pointer rows after a write. *)
Lemma write_active_rows t rs s active :
  epochs_hold t rs -> ac_scope active = s -> active_accepted t (active_row_of active) = true ->
  exists l, _write_active t (pointed s <$> pointer_of s t) active = Ok (with_active t l) /\
    List.filter (active_at s) l = [active_row_of active] /\
    (forall s', s' <> s -> List.filter (active_at s') l = List.filter (active_at s') (active_config_epochs t)) /\
    (forall r, r ∈ l -> r = active_row_of active \/ r ∈ active_config_epochs t).
Proof.
  intros Ht Hs Ha. pose proof (pointer_rows t rs s Ht) as Hp. unfold _write_active. rewrite Hs, Ha. destruct (pointer_of s t) as [p|]; cbn [fmap option_fmap option_map].
  - destruct Hp as (q & Ef & _ & _ & <- & _). set (sel := fun r => active_at s r && (ar_revision r =? ac_revision (pointed s (row_pointer q)))).
    assert (Hsel : List.filter sel (active_config_epochs t) = [q]) by (unfold sel; rewrite filter_pred, Ef; cbn; by rewrite Z.eqb_refl).
    rewrite Hsel, bool_decide_eq_true_2 by done. cbn [negb]. rewrite andb_false_r. cbn [raise_if mbind res_bind]. eexists. split; [done|].
    assert (Hrow : active_at s (active_row_of active) = true) by (rewrite active_row_at; by apply bool_decide_eq_true_2). split_and!.
    + unfold sel. rewrite filter_map_same by done. rewrite Ef. cbn. by rewrite Z.eqb_refl.
    + intros s' Hs'. apply filter_map_other; [|intros x; by apply active_at_two]. by apply (active_at_two s).
    + intros r (x & -> & Hx)%list_elem_of_fmap. case_match; [by left|by right].
  - cbn [negb orb]. assert (Hx : existsb (active_at s) (active_config_epochs t) = false) by (apply existsb_false; intros x Hx; by eapply filter_nil_elem).
    rewrite Hx. cbn [raise_if mbind res_bind]. eexists. split; [done|]. split_and!.
    + rewrite filter_snoc, Hp, active_row_at. by rewrite bool_decide_eq_true_2.
    + intros s' Hs'. rewrite filter_snoc, active_row_at, bool_decide_eq_false_2 by congruence. apply app_nil_r.
    + intros r [Hr|Hr%list_elem_of_singleton]%elem_of_app; [by right|by left].
Qed.

(** ** Adding to the history *)

Lemma activations_snoc s t row : activations_of s (with_activations t (config_epoch_activations t ++ [row])) =
  activations_of s t ++ (if bool_decide (row_scope row = s) then [row] else []).
Proof. unfold activations_of. cbn. rewrite filter_snoc. by rewrite in_scope_spec. Qed.

(** The row of an activation that follows the history of its repository. *)
Record follows (t : epoch_tables) (rs : list AuditEventRecord) (c : ConfigEpochActivationCommand) (e : AuditEventRecord) (row : activation_row) : Prop := {
  fw_of : activation_of (rs ++ [e]) row c;
  fw_fresh : operation_row t (cm_scope c) (operation_id c) = None;
  fw_record : record_checked (record_of row);
  fw_id : audit_event_id e = vr_audit_event_id row;
  fw_hash : length (vr_audit_input_hash row) = 32%nat;
  fw_chained : chained (pointer_of (cm_scope c) t) [row];
}.

(** No other row of the tables has the keys of such a row. *)
Lemma follows_keys t rs c e row a q :
  epochs_hold t rs -> tables_hold a (rs ++ [e]) -> follows t rs c e row -> q ∈ config_epoch_activations t ->
  in_scope (row_scope row) q && (bool_decide (vr_operation_id q = vr_operation_id row) || (vr_result_revision q =? vr_result_revision row)) = false /\
  vr_audit_event_id q <> vr_audit_event_id row.
Proof.
  intros Ht Ha Hf Hq. destruct (fw_of _ _ _ _ _ Hf) as [_ _ Hs Ho _ _ _ _]. split.
  - rewrite Hs. destruct (in_scope (cm_scope c) q) eqn:Es; [|done]. cbn [andb]. apply orb_false_iff'. split.
    + apply bool_decide_eq_false_2. intros Eo. pose proof (operation_none _ _ _ (fw_fresh _ _ _ _ _ Hf)) as Hn.
      pose proof (filter_nil_elem _ _ q Hn Hq) as Hx. change (in_scope (cm_scope c) q && bool_decide (vr_operation_id q = operation_id c) = false) in Hx.
      rewrite Es, bool_decide_eq_true_2 in Hx by congruence. done.
    + apply Z.eqb_neq. assert (Hin : q ∈ activations_of (cm_scope c) t) by by apply filter_elem. apply list_elem_of_lookup_1 in Hin as (i & Hi).
      pose proof (eh_chain _ _ Ht (cm_scope c)) as Hc. rewrite (chained_revision _ _ _ _ Hc Hi). pose proof (chain_end_revision _ _ Hc) as He.
      destruct (fw_chained _ _ _ _ _ Hf) as (_ & _ & _ & -> & _). apply lookup_lt_Some in Hi. unfold pointer_of. rewrite He. cbn. lia.
  - destruct (eh_commands _ _ Ht q Hq) as (c' & Hc'). destruct (av_event _ _ _ Hc') as (_ & e' & _ & He' & _ & _ & <- & _).
    rewrite <- (fw_id _ _ _ _ _ Hf). intros E. pose proof (held_ids _ _ Ha) as Hn. rewrite fmap_app in Hn. apply NoDup_app in Hn as (_ & Hn & _).
    apply (Hn (audit_event_id e')); [by apply list_elem_of_fmap_2|rewrite E; by left].
Qed.

Lemma record_facts_of row : record_checked (record_of row) ->
  (vr_expected_revision row = None \/ exists r, vr_expected_revision row = Some r /\ safe_id r = true) /\
  is_sha256_hex (vr_target_epoch_id row) = true /\ safe_id (vr_result_revision row) = true /\
  text_octets 1 256 (vr_operation_id row) = true /\ is_audit_event_id (VStr (vr_audit_event_id row)) = true.
Proof.
  intros [Hc _ _ Ha]. apply active_ok in Ha as [H1 H2]. unfold ConfigEpochActivationRecord_check in Hc. apply bind_Ok in Hc as ([] & E1 & Hc).
  apply bind_Ok in Hc as ([] & E2 & Hc). do 3 apply bind_Ok in Hc as ([] & _ & Hc). apply bind_Ok in Hc as ([] & E3%raise_if_Ok & _). split_and!; try done.
  - cbn in E2. destruct (vr_expected_revision row) as [r|]; [right|by left]. exists r. split; [done|]. by eapply safe_integer_ok.
  - by eapply bounded_column.
  - by apply negb_false_iff' in E3.
Qed.

Lemma follows_accepted t rs c e row a :
  epochs_hold t rs -> tables_hold a (rs ++ [e]) -> follows t rs c e row ->
  epoch_exists t (vr_installation_id row) (vr_repository_id row) (vr_target_epoch_id row) = true ->
  activation_accepted (with_audit t a) row = true.
Proof.
  intros Ht Ha Hf Hx. pose proof (fw_of _ _ _ _ _ Hf) as [_ Hsc Hs _ _ _ _ _]. destruct (safe_scope _ Hsc) as [S1 S2]. rewrite <- Hs in S1, S2. cbn in S1, S2.
  destruct (record_facts_of row (fw_record _ _ _ _ _ Hf)) as (_ & R2 & R3 & R4 & R5). pose proof (fw_chained _ _ _ _ _ Hf) as (C1 & C2 & C3 & C4 & _).
  assert (Hk : forallb (fun q => negb ((vr_installation_id q =? vr_installation_id row) && (vr_repository_id q =? vr_repository_id row) &&
                          (bool_decide (vr_operation_id q = vr_operation_id row) || (vr_result_revision q =? vr_result_revision row))) &&
                    negb (bool_decide (vr_audit_event_id q = vr_audit_event_id row))) (config_epoch_activations t) = true).
  { apply forallb_elem. intros q Hq. destruct (follows_keys t rs c e row a q Ht Ha Hf Hq) as [K1 K2]. unfold in_scope in K1. cbn [row_scope scope_of scope_installation_id scope_repository_id] in K1.
    rewrite K1, bool_decide_eq_false_2 by done. done. }
  assert (He : audit_event_exists (with_audit t a) (vr_audit_event_id row) = true).
  { apply existsb_elem. destruct (held_record a (rs ++ [e]) e Ha) as (w & Hw & Hh & _); [apply elem_of_app; right; by left|]. exists w. split; [done|].
    apply bool_decide_eq_true_2. rewrite (rh_id _ _ Hh). by apply Hf. }
  assert (Hp : not_false is_sha256_hex (vr_previous_epoch_id row) = true /\
    not_false (epoch_exists t (vr_installation_id row) (vr_repository_id row)) (vr_previous_epoch_id row) = true /\
    not_false (fun p => p <=? _safe_integer_max) (snd <$> pointer_of (cm_scope c) t) = true /\ not_false (fun p => 1 <=? p) (snd <$> pointer_of (cm_scope c) t) = true).
  { rewrite C1. pose proof (pointer_rows t rs (cm_scope c) Ht) as Hp. destruct (pointer_of (cm_scope c) t) as [p|]; [|done].
    destruct Hp as (q & _ & _ & Hq & <- & Hacc). apply accepted_parts in Hacc as (A1 & A2 & A3). rewrite active_at_spec, <- Hs in Hq. bdec. cbn.
    injection Hq as <- <-. unfold safe_id in A2. bdec. split_and!; [done|done|by apply Z.leb_le|by apply Z.leb_le]. }
  destruct Hp as (P1 & P2 & P3 & P4). unfold activation_accepted. rewrite S1, S2, R2, R3, R4, R5, P1. cbn [config_epoch_activations with_audit]. rewrite Hk, He.
  change (epoch_exists (with_audit t a)) with (epoch_exists t). rewrite Hx, P2, C2, C3, P3.
  unfold octets_between. rewrite (fw_hash _ _ _ _ _ Hf). cbn [Z.of_nat Pos.of_succ_nat Z.leb andb]. rewrite !andb_true_r.
  rewrite C1, C4. destruct (pointer_of (cm_scope c) t) as [[pe pv]|]; [|done]. cbn in P4 |- *. rewrite P4, !Z.eqb_refl. done.
Qed.

(** The tables after the command's event, row and pointer have been written. *)
Lemma history_step t rs c e row a l :
  epochs_hold t rs -> tables_hold a (rs ++ [e]) -> follows t rs c e row -> _activation_from_row row = Ok (record_of row) ->
  (exists q, List.filter (active_at (cm_scope c)) l = [q] /\ row_pointer q = (vr_target_epoch_id row, vr_result_revision row)) ->
  (forall s, s <> cm_scope c -> List.filter (active_at s) l = List.filter (active_at s) (active_config_epochs t)) ->
  (forall r, r ∈ l -> active_accepted t r = true) ->
  epochs_hold (with_activations (with_active (with_audit t a) l) (config_epoch_activations t ++ [row])) (rs ++ [e]).
Proof.
  intros Ht Ha Hf Hread (q & Hl & Hq) Ho Hacc. set (t1 := with_active (with_audit t a) l). pose proof (av_row_scope _ _ _ (fw_of _ _ _ _ _ Hf)) as Hs.
  assert (Hact : forall s, activations_of s (with_activations t1 (config_epoch_activations t ++ [row])) = activations_of s t ++ (if bool_decide (row_scope row = s) then [row] else [])).
  { intros s. exact (activations_snoc s t1 row). }
  split; [done|apply Ht|apply Ht|..].
  - intros s. rewrite Hact. case_bool_decide as E; [|rewrite app_nil_r; by apply (eh_chain _ _ Ht)]. apply chained_snoc. split; [by apply (eh_chain _ _ Ht)|].
    rewrite <- E, Hs. apply Hf.
  - intros s. unfold pointer_of. rewrite Hact. cbn [active_config_epochs with_activations t1 with_active]. case_bool_decide as E.
    + rewrite chain_end_snoc. cbn [option_list]. rewrite <- E, Hs, Hl. by rewrite <- Hq.
    + rewrite app_nil_r. rewrite Ho by congruence. apply (eh_pointer _ _ Ht).
  - exact Hacc.
  - intros r [Hr|Hr%list_elem_of_singleton]%elem_of_app.
    + destruct (eh_commands _ _ Ht r Hr) as (c' & Hc'). exists c'. by apply activation_of_app.
    + subst r. exists c. apply Hf.
  - intros r [Hr|Hr%list_elem_of_singleton]%elem_of_app; [by apply (eh_read _ _ Ht)|by subst r].
  - intros s o. cbn [config_epoch_activations with_activations]. rewrite filter_snoc, length_app. pose proof (eh_operations _ _ Ht s o) as Hle.
    destruct (activation_at s o row) eqn:E; [|cbn; lia]. change (in_scope s row && bool_decide (vr_operation_id row = o) = true) in E. rewrite in_scope_spec in E. bdec.
    rewrite Hs, (av_operation _ _ _ (fw_of _ _ _ _ _ Hf)), (operation_none _ _ _ (fw_fresh _ _ _ _ _ Hf)). done.
Qed.

(** The state after an activation was applied. *)
Record applied (t : epoch_tables) (rs : list AuditEventRecord) (c : ConfigEpochActivationCommand) (e : AuditEventRecord) (row : activation_row)
    (t' : epoch_tables) : Prop := {
  ap_hold : epochs_hold t' (rs ++ [e]);
  ap_of : activation_of (rs ++ [e]) row c;
  ap_history : config_epoch_activations t' = config_epoch_activations t ++ [row];
  ap_chained : chained (pointer_of (cm_scope c) t) [row];
  ap_epochs : config_epochs t' = config_epochs t;
  ap_registrations : config_epoch_registrations t' = config_epoch_registrations t;
}.

Definition next_revision (p : pointer) : Z := default 0 (snd <$> p) + 1.

Lemma event_shape a rs e : tables_hold a (rs ++ [e]) -> is_audit_event_id (VStr (audit_event_id e)) = true /\ is_sha256_hex (input_hash e) = true.
Proof. intros Ha. eapply held_shape; [exact Ha|]. set_solver. Qed.

Lemma next_record t rs c e a :
  epochs_hold t rs -> tables_hold a (rs ++ [e]) -> ConfigEpochActivationCommand_check c = Ok tt -> RepositoryScope_check (cm_scope c) = Ok tt ->
  expected_pointer c (pointer_of (cm_scope c) t) = true -> safe_id (next_revision (pointer_of (cm_scope c) t)) = true ->
  record_checked {|
    rec_scope := cm_scope c; rec_operation_id := operation_id c; rec_expected_revision := expected_revision c;
    rec_previous := pointed (cm_scope c) <$> pointer_of (cm_scope c) t;
    rec_active := pointed (cm_scope c) (target_epoch_id c, next_revision (pointer_of (cm_scope c) t));
    rec_audit_event_id := audit_event_id e; rec_audit_input_hash := input_hash e |}.
Proof.
  intros Ht Ha Hc Hs He Hn. destruct (event_shape a rs e Ha) as [S1 S2]. destruct (checked_command c Hc) as [C1 _ _ C2 C3].
  unfold expected_pointer in He. apply andb_true_iff' in He as [He _]. bdec. pose proof (pointer_rows t rs (cm_scope c) Ht) as Hp.
  split; cbn [rec_scope rec_previous rec_active]; [|done| |by apply active_ok].
  - unfold ConfigEpochActivationRecord_check. cbn [rec_operation_id rec_expected_revision rec_previous rec_active rec_audit_event_id rec_audit_input_hash rec_scope].
    rewrite C1. cbn [mbind res_bind].
    assert (E1 : match expected_revision c with Some z => _require_positive_safe_integer z (u "expected_revision") | None => Ok tt end = Ok tt).
    { destruct (expected_revision c) as [r|]; [|done]. apply safe_integer_ok. by apply C2. }
    rewrite E1. cbn [mbind res_bind]. unfold _require_audit_event_id. rewrite S1, <- He. unfold next_revision.
    rewrite (bool_decide_eq_true_2 (ac_scope (pointed (cm_scope c) _) = cm_scope c)) by done.
    destruct (pointer_of (cm_scope c) t) as [[pe pv]|]; cbn; rewrite ?bool_decide_eq_true_2, ?Z.eqb_refl by done; cbn; by apply sha256_ok.
  - intros p Ep. destruct (pointer_of (cm_scope c) t) as [q|]; [|done]. injection Ep as <-. destruct Hp as (r & _ & _ & _ & <- & Hacc). apply accepted_parts in Hacc as (A1 & A2 & _).
    by apply active_ok.
Qed.

(** The transaction after its guards: the event is appended and the history
    extended, or nothing happens. *)
Lemma advance_cases t rs p :
  let c := pa_command p in let s := cm_scope c in
  epochs_hold t rs -> activation_ready p -> operation_row t s (operation_id c) = None ->
  epoch_exists t (scope_installation_id s) (scope_repository_id s) (target_epoch_id c) = true -> expected_pointer c (pointer_of s t) = true ->
  match append_owned t (pa_audit_event p) s "config activation audit idempotency is inconsistent with its operation" with
  | Raise err => advance t p (pointed s <$> pointer_of s t) (target_epoch_id c) = Raise err
  | Ok (e, _) =>
      if safe_id (next_revision (pointer_of s t))
      then exists row t', advance t p (pointed s <$> pointer_of s t) (target_epoch_id c) = Ok (ConfigEpochActivationApplied (record_of row), t') /\ applied t rs c e row t'
      else exists m, advance t p (pointed s <$> pointer_of s t) (target_epoch_id c) = Raise (ValueError m)
  end.
Proof.
  intros c s Ht Hp Hn Hx He. pose proof (ready_event p Hp) as Hfrom. destruct Hp as [Hprep Hc Hs]. fold c in Hprep, Hc, Hs. destruct (prepared_activation c p Hprep) as (_ & Hcons & _).
  unfold advance. unfold _take_audit_event. rewrite Hcons. cbn [raise_if mbind res_bind]. fold c s.
  destruct (append_owned t (pa_audit_event p) s _) as [[e t1]|err] eqn:Ea; [|done]. cbn [mbind res_bind].
  destruct (append_owned_facts _ _ _ _ _ _ _ _ Ht Hfrom Ea) as (a & -> & Ha & Hin & Hih).
  assert (Erev : match pointed s <$> pointer_of s t with None => 1 | Some p => ac_revision p + 1 end = next_revision (pointer_of s t)) by by destruct (pointer_of s t).
  rewrite Erev. change {| ac_scope := s; ac_epoch_id := target_epoch_id c; ac_revision := next_revision (pointer_of s t) |} with (pointed s (target_epoch_id c, next_revision (pointer_of s t))).
  destruct (safe_id _) eqn:Hsafe.
  2: { unfold checked, ActiveConfigEpoch_check. rewrite (proj2 (sha256_ok _)) by apply (checked_command c Hc). cbn [mbind res_bind pointed ac_revision snd].
       destruct (_require_positive_safe_integer _ _) as [[]|err] eqn:Er; [by apply safe_integer_ok in Er; rewrite Er in Hsafe|].
       unfold _require_positive_safe_integer in Er. destruct (negb _); [|done]. injection Er as <-. by eexists. }
  pose proof (next_record t rs c e a Ht Ha Hc Hs He Hsafe) as Hrec. fold s in Hrec. set (rec := Build_ConfigEpochActivationRecord _ _ _ _ _ _ _) in *.
  change (checked ActiveConfigEpoch_check (pointed s _)) with (checked ActiveConfigEpoch_check (rec_active rec)).
  rewrite (proj2 (checked_Ok _ _ _) (conj (rk_active _ Hrec) eq_refl)). cbn [mbind res_bind].
  change (Build_ConfigEpochActivationRecord _ _ _ _ _ _ _) with rec.
  rewrite (proj2 (checked_Ok _ _ _) (conj (rk_check _ Hrec) eq_refl)). cbn [mbind res_bind].
  destruct (event_shape a rs e Ha) as [_ Hhex]. destruct (fromhex_sha256 _ Hhex) as (b & Eb & _ & Hb).
  assert (Hrow : exists row, _activation_to_row rec = Ok row) by (unfold _activation_to_row; cbn [rec rec_audit_input_hash]; rewrite Eb; by eexists).
  destruct Hrow as (row & Erow). destruct (activation_read rec row Hrec Erow) as [Erec Eread].
  assert (Hacc : active_accepted (with_audit t a) (active_row_of (rec_active rec)) = true).
  { destruct (safe_scope s Hs) as [S1 S2]. unfold active_accepted, active_row_of. cbn [ar_installation_id ar_repository_id ar_epoch_id ar_revision rec rec_active pointed ac_scope ac_epoch_id ac_revision fst snd].
    rewrite S1, S2, Hsafe, (ct_target _ (checked_command c Hc)). exact Hx. }
  destruct (write_active_rows (with_audit t a) (rs ++ [e]) s (rec_active rec)) as (l & Ew & Hl1 & Hl2 & Hl3); [by apply audit_step|done|done|].
  change (pointer_of s (with_audit t a)) with (pointer_of s t) in Ew. rewrite Ew. cbn [mbind res_bind]. rewrite Erow. cbn [mbind res_bind].
  unfold expected_pointer in He. apply andb_true_iff' in He as [He Hroll]. apply bool_decide_eq_true in He.
  assert (Hrs : row_scope row = s) by exact (f_equal rec_scope Erec).
  assert (Erow' := Erow). unfold _activation_to_row in Erow'. cbn [rec rec_audit_input_hash] in Erow'. rewrite Eb in Erow'. injection Erow' as Erow'.
  assert (Hf : follows t rs c e row).
  { split; [|done|by rewrite Erec|by rewrite <- Erow'|by rewrite <- Erow'|].
    - split; [done|done|done|by rewrite <- Erow'..| |].
      + intros Ek. rewrite Ek in Hroll. apply bool_decide_eq_true in Hroll. rewrite <- Hroll, <- Erow'. cbn. by destruct (pointer_of s t).
      + exists p, e. split_and!; [done|by apply elem_of_app; right; left|done|done|by rewrite <- Erow'|by rewrite <- Erow'].
    - rewrite <- Erow'. cbn. fold s. destruct (pointer_of s t) as [[pe pv]|]; cbn in He |- *; by split_and!. }
  unfold insert_activation. change (activation_accepted (with_active (with_audit t a) l) row) with (activation_accepted (with_audit t a) row).
  rewrite (follows_accepted t rs c e row) by (done || (rewrite <- Erow'; exact Hx)). cbn [negb raise_if mbind res_bind].
  exists row. eexists. split; [by rewrite Erec|]. split; [|apply Hf|done|apply Hf|done|done].
  apply (history_step t rs c e row a l); [done|done|done|done|by eexists; split; [exact Hl1|rewrite <- Erow']|exact Hl2|].
  intros r Hr. destruct (Hl3 r Hr) as [->|Hr']; [exact Hacc|by apply (eh_pointed _ _ Ht)].
Qed.
End steps.
