(* ===== verification/ConfigEpochReplay.v ===== *)
(** * Recognising a repeated operation

    A stored activation is compared with a command through the audit event of
    the command it applied.  The comparison never fails on tables that hold,
    and it accepts a command exactly when the command is the one that was
    applied, if no two of the byte strings hashed for the two have one digest. *)

From stdpp Require Import base gmap sets list sorting strings.
From Stdlib Require Import ZArith Lia.
From S2P Require Import Prelude Text PyFloat CanonicalJson Hashing JsonLoads JsonRoundtrip Instants ConfigControl AuditEvents AuditChain AuditFacts AuditChainFacts AuditLedger AuditPages AuditRepository AuditRepositoryFacts AuditStore TableFacts Rollback ConfigEpochs ConfigEpochStore ConfigEpochFacts ConfigEpochSteps.

(** ** Fields of a stored payload *)

(** A value that is stored as it is. *)
Definition plain_value (v : pyval) : Prop := norm v = v /\ forall d, fresh d v = v.

Definition named (l : list (string * pyval)) : list (pystr * pyval) := (fun kv => (u kv.1, kv.2)) <$> l.

Lemma dict_get_entries (g : pyval -> pyval) (es : list (pystr * pyval)) k : NoDup es.*1 ->
  dict_get (map (fun p => (KStr p.1, g p.2)) es) k = default VNone (g <$> snapshot_get es (u k)).
Proof.
  intros Hn. unfold dict_get. f_equal.
  assert (Ha : forall es acc, NoDup es.*1 -> foldl (fun acc kv => if bool_decide (kv.1 = KStr (u k)) then Some kv.2 else acc) acc (map (fun p : pystr * pyval => (KStr p.1, g p.2)) es) =
    match snapshot_get es (u k) with Some v => Some (g v) | None => acc end).
  { clear. intros es. induction es as [|[x v] es IH]; intros acc Hn; [done|]. rewrite fmap_cons, NoDup_cons in Hn. destruct Hn as [Hx Hn]. cbn [map foldl fst snd].
    rewrite IH by done. unfold snapshot_get at 2. cbn [List.find fst]. destruct (decide (x = u k)) as [->|Hne].
    - rewrite !bool_decide_eq_true_2 by done. cbn. destruct (snapshot_get es (u k)) as [w|] eqn:E; [|done]. exfalso. apply Hx, list_elem_of_fmap. exists (u k, w).
      by apply snapshot_get_elem in E.
    - rewrite !bool_decide_eq_false_2 by congruence. done. }
  rewrite Ha by done. by destruct (snapshot_get es (u k)).
Qed.

Lemma stored_payload (l : list (string * pyval)) :
  bool_decide (NoDup ((u ∘ fst) <$> l)) = true -> Forall (fun kv => plain_value kv.2) l ->
  exists items, fresh 0 (norm (obj l)) = VDict 0 items /\ forall k, dict_get items k = default VNone (snapshot_get (named l) (u k)).
Proof.
  intros Hn%bool_decide_eq_true Hl. set (L := (fun kv : string * pyval => (KStr (u kv.1), kv.2)) <$> l).
  assert (HL : NoDup (map (fun kv => key_text kv.1) L)).
  { change (map ?g ?x) with (g <$> x). unfold L. rewrite <- list_fmap_compose. exact Hn. }
  pose proof (fields_norm 0 L) as Hf. unfold obj. fold L. cbn [norm fields] in Hf |- *. rewrite (sorted_entries norm), map_map in Hf. cbn [fst snd key_text] in Hf.
  rewrite (sorted_entries norm). cbn [fresh]. rewrite map_map. cbn [fst snd]. eexists. split; [done|]. intros k.
  rewrite dict_get_entries by by rewrite entries_keys. specialize (Hf (u k) HL).
  replace (map (fun x : pystr * pyval => (x.1, x.2)) (entries norm L)) with (entries norm L) in Hf by (symmetry; etrans; [|apply map_id]; apply map_ext; by intros []).
  rewrite Hf. replace (map (fun kv : dkey * pyval => (key_text kv.1, kv.2)) L) with (named l) by (unfold L, named; change (map ?g ?x) with (g <$> x); by rewrite <- list_fmap_compose).
  destruct (snapshot_get (named l) (u k)) as [v|] eqn:E; [|done]. cbn. apply snapshot_get_elem, list_elem_of_fmap in E as ([x w] & [= _ ->] & Hin).
  rewrite Forall_forall in Hl. destruct (Hl _ Hin) as [Ew Hw]. cbn in Ew, Hw. by rewrite Ew, Hw.
Qed.

Section replay.
Context `{Sha256} `{PolicyAdmission}.

Definition payload_list (c : ConfigEpochActivationCommand) : list (string * pyval) :=
  match mutation_kind c with
  | activation_kind =>
      [("schemaVersion", VStr (if (activation_version c =? 1)%Z then _ACTIVATION_AUDIT_SCHEMA else _EXPLICIT_ACTIVATION_AUDIT_SCHEMA));
       ("operationId", VStr (operation_id c)); ("expectedRevision", opt_int (expected_revision c)); ("targetEpochId", VStr (target_epoch_id c));
       ("proposalManifestId", opt_str (proposal_manifest_id c)); ("authorityEvidenceHash", opt_str (authority_evidence_hash c));
       ("authorityObservedAt", opt_str (authority_observed_at c))]%string ++
      (if (activation_version c =? 2)%Z then [("reviewOperationId", opt_str (review_operation_id c))]%string else [])
  | rollback_kind =>
      [("schemaVersion", VStr _ROLLBACK_AUDIT_SCHEMA); ("operationId", VStr (operation_id c)); ("expectedRevision", opt_int (expected_revision c));
       ("activeEpochId", opt_str (expected_active_epoch_id c)); ("targetEpochId", VStr (target_epoch_id c));
       ("coverageRelation", opt_relation (coverage_relation c)); ("reason", opt_str (cm_reason c))]%string
  end.

Definition event_type_of (k : ConfigEpochMutationKind) : pystr :=
  match k with activation_kind => _ACTIVATION_EVENT_TYPE | rollback_kind => _ROLLBACK_EVENT_TYPE end.

Lemma projection_list c : (_audit_projection c).2 = obj (payload_list c) /\ (_audit_projection c).1.2 = event_type_of (mutation_kind c).
Proof. unfold _audit_projection, payload_list. by destruct (mutation_kind c). Qed.

(** A field of the payload of a command. *)
Definition field (c : ConfigEpochActivationCommand) (k : string) : pyval := default VNone (snapshot_get (named (payload_list c)) (u k)).

Lemma plain_values c : Forall (fun kv => plain_value kv.2) (payload_list c).
Proof.
  assert (H1 : forall s, plain_value (VStr s)) by done. assert (H2 : forall o, plain_value (opt_str o)) by by intros [].
  assert (H3 : forall o, plain_value (opt_int o)) by by intros []. assert (H4 : forall o, plain_value (opt_relation o)) by by intros [[]|].
  unfold payload_list. destruct (mutation_kind c); [destruct (activation_version c =? 2)|]; repeat constructor; cbn [snd]; auto.
  all: first [apply H1|apply H2|apply H3|apply H4].
Qed.

Lemma command_payload c : exists items, fresh 0 (norm (_audit_projection c).2) = VDict 0 items /\ forall k, dict_get items k = field c k.
Proof.
  rewrite (proj1 (projection_list c)). apply stored_payload; [|apply plain_values].
  unfold payload_list. by destruct (mutation_kind c); [destruct (activation_version c =? 2)|].
Qed.

(** The fields of both kinds of command. *)
Lemma activation_fields c : mutation_kind c = activation_kind ->
  field c "schemaVersion" = VStr (if activation_version c =? 1 then _ACTIVATION_AUDIT_SCHEMA else _EXPLICIT_ACTIVATION_AUDIT_SCHEMA) /\
  field c "operationId" = VStr (operation_id c) /\ field c "expectedRevision" = opt_int (expected_revision c) /\
  field c "targetEpochId" = VStr (target_epoch_id c) /\ field c "proposalManifestId" = opt_str (proposal_manifest_id c) /\
  field c "authorityEvidenceHash" = opt_str (authority_evidence_hash c) /\ field c "authorityObservedAt" = opt_str (authority_observed_at c) /\
  (activation_version c = 2 -> field c "reviewOperationId" = opt_str (review_operation_id c)).
Proof.
  intros E. unfold field, payload_list. rewrite E. split_and!; try reflexivity. by intros ->.
Qed.

Lemma rollback_fields c : mutation_kind c = rollback_kind ->
  field c "schemaVersion" = VStr _ROLLBACK_AUDIT_SCHEMA /\
  field c "operationId" = VStr (operation_id c) /\ field c "expectedRevision" = opt_int (expected_revision c) /\
  field c "activeEpochId" = opt_str (expected_active_epoch_id c) /\ field c "targetEpochId" = VStr (target_epoch_id c) /\
  field c "coverageRelation" = opt_relation (coverage_relation c) /\ field c "reason" = opt_str (cm_reason c).
Proof. intros E. unfold field, payload_list. rewrite E. split_and!; reflexivity. Qed.

(** ** What a command's audit event commits to *)

Lemma prepared_hash_eq i p i' p' :
  collision_free (event_bytes (pr_input p) ++ event_bytes (pr_input p')) ->
  prepared_from i p -> prepared_from i' p' -> pr_input_hash p = pr_input_hash p' ->
  ei_event_type (pr_input p) = ei_event_type (pr_input p') /\ ei_payload (pr_input p) = ei_payload (pr_input p') /\
  ei_installation_id (pr_input p) = ei_installation_id (pr_input p') /\ ei_repository_id (pr_input p) = ei_repository_id (pr_input p').
Proof.
  intros Hfree Hp Hp' E. destruct (attempted_record empty_tables [] i p empty_hold Hp ltac:(done)) as (a & _ & _ & _ & Ein & (Ha & Ca & _) & (_ & _ & Ea & _)).
  destruct (attempted_record empty_tables [] i' p' empty_hold Hp' ltac:(done)) as (a' & _ & _ & _ & Ein' & (Ha' & Ca' & _) & (_ & _ & Ea' & _)).
  rewrite <- Ein, <- Ein' in *. destruct (input_hash_eq _ a a' Hfree) as (_ & _ & _ & E1 & E2 & E3 & E4); [intros b Hb; apply elem_of_app; by left|intros b Hb; apply elem_of_app; by right|done..|congruence|done].
Qed.

Lemma command_event c p : ConfigEpochActivationCommand_check c = Ok tt -> prepare_config_epoch_activation c = Ok p ->
  prepared_from (InputExact (activation_event c)) (pa_audit_event p) /\
  ei_event_type (pr_input (pa_audit_event p)) = event_type_of (mutation_kind c) /\
  ei_payload (pr_input (pa_audit_event p)) = fresh 0 (norm (_audit_projection c).2) /\
  ei_installation_id (pr_input (pa_audit_event p)) = Some (scope_installation_id (cm_scope c)) /\
  ei_repository_id (pr_input (pa_audit_event p)) = Some (scope_repository_id (cm_scope c)) /\
  ei_actor (pr_input (pa_audit_event p)) = cm_actor c /\ ei_created_at (pr_input (pa_audit_event p)) = occurred_at c.
Proof.
  intros Hc E. pose proof (prepared_activation c p E) as (_ & _ & E'). pose proof (activation_event_ok c Hc) as Hi. split; [by split|].
  destruct (prepared_input _ _ _ eq_refl E') as (_ & F1 & F2 & F3 & F4 & F5 & F6). pose proof (proj2 (projection_list c)) as Et. pose proof (audit_projection_wf c) as Hw.
  unfold activation_event in *. destruct (_audit_projection c) as [[prefix ty] payload_]. cbn in F1, F2, F3, F4, F5, F6, Et, Hw |- *. subst ty.
  specialize (F6 Hw). injection F1 as F1. injection F2 as F2. injection F3 as F3. unfold opt_int in F4, F5.
  destruct (ei_installation_id _), (ei_repository_id _); try done. injection F4 as ->. injection F5 as ->. done.
Qed.

(** The bytes hashed for a command: those of its audit event. *)
Definition command_bytes (c : ConfigEpochActivationCommand) : list (list Z) :=
  match prepare_config_epoch_activation c with Ok p => event_bytes (pr_input (pa_audit_event p)) | Raise _ => [] end.

Lemma commands_eq c c' p p' :
  collision_free (command_bytes c ++ command_bytes c') -> ConfigEpochActivationCommand_check c = Ok tt -> ConfigEpochActivationCommand_check c' = Ok tt ->
  prepare_config_epoch_activation c = Ok p -> prepare_config_epoch_activation c' = Ok p' -> audit_input_hash p = audit_input_hash p' ->
  cm_scope c = cm_scope c' /\ mutation_kind c = mutation_kind c' /\ forall k, field c k = field c' k.
Proof.
  intros Hfree Hc Hc' E E' Eh. unfold command_bytes in Hfree. rewrite E, E' in Hfree. destruct (command_event c p Hc E) as (Hp & T & P & I & R & _). destruct (command_event c' p' Hc' E') as (Hp' & T' & P' & I' & R' & _).
  destruct (prepared_hash_eq _ _ _ _ Hfree Hp Hp' Eh) as (E1 & E2 & E3 & E4). rewrite T, T' in E1. rewrite P, P' in E2. rewrite I, I' in E3. rewrite R, R' in E4.
  split_and!.
  - destruct (cm_scope c), (cm_scope c'). cbn in *. congruence.
  - by destruct (mutation_kind c), (mutation_kind c').
  - intros k. destruct (command_payload c) as (l & El & Hl), (command_payload c') as (l' & El' & Hl'). rewrite <- Hl, <- Hl'. rewrite El, El' in E2. by injection E2 as ->.
Qed.

Lemma prepare_errors i : input_like_ok i -> audit_only (prepare_audit_event i).
Proof.
  intros Hi. unfold prepare_audit_event. destruct i as [o|]; [|done]. destruct Hi as [Hw Ht]. cbn [_snapshot_audit_event_input_fields].
  destruct (validate_audit_event_input o) as [m|] eqn:Hv; [done|]. cbn [raise_message mbind res_bind]. apply audit_only_bind; [apply admit_text_errors|]. intros _ _.
  apply audit_only_bind; [apply payload_bytes_errors|]. intros b Eb. pose proof (proj1 (payload_bytes_Ok _ _ _) Eb) as [Ej _].
  destruct (written_reads _ _ _ Hw Ej) as [-> _]. cbn [mbind res_bind]. pose proof Hv as (e & ->)%validated_input_typed. rewrite typed_input_object. cbn [mbind res_bind].
  destruct (input_hash_total e (sha256_hex b)) as (h & -> & _); [by apply validated_input_facts|apply sha256_is_hex|done].
Qed.

(** ** Reading the event of an activation *)

Lemma event_loaded t rs e : tables_hold (ct_audit t) rs -> e ∈ rs ->
  _load_audit_event t (audit_event_id e) = Ok e /\ fails_integrity e = Ok false.
Proof.
  intros Ht He. destruct (held_record _ rs e Ht He) as (row & Hin & Hh & Hc). split.
  - unfold _load_audit_event. rewrite (NoDup_filter_one row_audit_event_id _ _ (audit_event_id e) row); [|by apply Ht|by intros y ?%bool_decide_eq_true|done|by apply bool_decide_eq_true_2, Hh].
    cbn [one_or_none mbind res_bind]. rewrite (record_read _ _ Hh). cbn [mbind res_bind]. by rewrite bool_decide_eq_false_2 by auto.
  - unfold fails_integrity, verify_audit_event_integrity. rewrite (decode_record e (rh_ok _ _ Hh)). cbn.
    destruct (verify_content e (rh_ok _ _ Hh)) as (v & -> & Hv). cbn. by rewrite (proj2 Hv Hc).
Qed.

(** The command a replay is compared as. *)
Definition replayed (r : ConfigEpochReplayCommand) (event : AuditEventRecord) (proposal evidence observed active : option pystr)
    (relation : option ProvenCoverageRelation) : ConfigEpochActivationCommand :=
  {| cm_scope := rp_scope r; target_epoch_id := rp_target_epoch_id r; expected_revision := rp_expected_revision r; operation_id := rp_operation_id r;
     cm_actor := rp_actor r; occurred_at := created_at event; proposal_manifest_id := proposal; authority_evidence_hash := evidence;
     authority_observed_at := observed; mutation_kind := rp_mutation_kind r; expected_active_epoch_id := active; coverage_relation := relation;
     cm_reason := rp_reason r; activation_version := rp_activation_version r; review_operation_id := rp_review_operation_id r |}.

Definition same_hash (h : pystr) (c : ConfigEpochActivationCommand) : res bool :=
  false_on_error (command ← checked ConfigEpochActivationCommand_check c; retained ← prepare_config_epoch_activation command;
                  Ok (bool_decide (h = audit_input_hash retained))).

Definition value_only {A} (r : res A) : Prop := match r with Ok _ => True | Raise e => is_value_error e = true end.

Lemma value_only_bind {A B} (r : res A) (f : A -> res B) : value_only r -> (forall a, value_only (f a)) -> value_only (r ≫= f).
Proof. destruct r; cbn; auto. Qed.

Lemma value_only_raise_if b m : value_only (raise_if b (ValueError m)).
Proof. by destruct b. Qed.

Lemma value_only_length s : value_only (utf8_length s).
Proof. unfold utf8_length, utf8_encode. by destruct (is_unicode_scalar_string s). Qed.

Lemma command_check_errors c : value_only (ConfigEpochActivationCommand_check c).
Proof.
  assert (H1 : forall o, value_only (_require_epoch_id o)) by (intros; apply value_only_raise_if).
  assert (H2 : forall s n, value_only (_require_nonempty_scalar_text s n)) by (intros; apply value_only_raise_if).
  assert (H3 : forall s n m, value_only (_require_bounded_text s n m)).
  { intros s n m. apply value_only_bind; [apply H2|]. intros _. apply value_only_bind; [apply value_only_length|]. intros; apply value_only_raise_if. }
  assert (H4 : forall o n m, value_only (require_optional_bounded_text o n m)) by (intros [] ? ?; [apply H3|done]).
  assert (H5 : forall o n, value_only (require_optional_text o n)) by (intros [] ?; [apply H2|done]).
  assert (H6 : forall z n, value_only (_require_positive_safe_integer z n)) by (intros; apply value_only_raise_if).
  assert (H7 : forall o, value_only (_require_proposal_manifest_id o)) by (intros; apply value_only_raise_if).
  assert (H8 : forall k v o, value_only (_require_activation_selection k v o)).
  { intros k v o. apply value_only_bind; [apply value_only_raise_if|]. intros _. destruct (v =? 1); [apply value_only_raise_if|]. destruct k; [apply H4|done]. }
  unfold ConfigEpochActivationCommand_check. repeat (apply value_only_bind; [first [apply H1|apply H3|apply H2|apply H8|destruct (expected_revision c); [apply H6|done]]|intros _]).
  destruct (mutation_kind c); repeat (apply value_only_bind; [first [apply H1|apply H5|apply H7|apply value_only_raise_if]|intros _]); [apply value_only_raise_if|apply H4].
Qed.

(** The comparison of hashes never fails; it accepts what was applied, and what
    it accepts has the fields that were applied. *)
Lemma same_hash_decides c c' p : ConfigEpochActivationCommand_check c = Ok tt -> prepare_config_epoch_activation c = Ok p ->
  exists b, same_hash (audit_input_hash p) c' = Ok b /\ (c' = c -> b = true) /\
    (b = true -> collision_free (command_bytes c ++ command_bytes c') ->
     cm_scope c' = cm_scope c /\ mutation_kind c' = mutation_kind c /\ forall k, field c' k = field c k).
Proof.
  intros Hc Hp. unfold same_hash, checked. pose proof (command_check_errors c') as Hv. destruct (ConfigEpochActivationCommand_check c') as [[]|e] eqn:Ec; cbn [mbind res_bind].
  - assert (Ha : audit_only (prepare_config_epoch_activation c')).
    { unfold prepare_config_epoch_activation. apply audit_only_bind; [by apply prepare_errors, activation_event_ok|done]. }
    destruct (prepare_config_epoch_activation c') as [p'|[]] eqn:Ep; try done; cbn [mbind res_bind].
    + eexists. split; [done|]. split; [intros ->; apply bool_decide_eq_true_2; congruence|]. intros E%bool_decide_eq_true Hfree.
      destruct (commands_eq c c' p p' Hfree Hc Ec Hp Ep E) as (-> & -> & Hf). done.
    + exists false. split; [done|]. split; [|done]. intros ->. congruence.
  - cbn in Hv. exists false. cbn. rewrite Hv. split; [done|]. split; [|done]. intros ->. congruence.
Qed.

(** ** Checked commands *)

Lemma selection_facts k v o : _require_activation_selection k v o = Ok tt ->
  v = 1 /\ o = None \/ v = 2 /\ k = activation_kind.
Proof.
  unfold _require_activation_selection. intros ([] & E1%raise_if_Ok & E2)%bind_Ok. apply negb_false_iff', orb_true_iff in E1 as [E1%Z.eqb_eq|E1%Z.eqb_eq]; subst v; cbn in E2.
  - apply raise_if_Ok in E2. bdec. by left.
  - right. by destruct k.
Qed.

Lemma activation_checked c : ConfigEpochActivationCommand_check c = Ok tt -> mutation_kind c = activation_kind ->
  (exists a b d, proposal_manifest_id c = Some a /\ authority_evidence_hash c = Some b /\ authority_observed_at c = Some d) /\
  expected_active_epoch_id c = None /\ coverage_relation c = None /\ cm_reason c = None /\
  (activation_version c = 1 /\ review_operation_id c = None \/ activation_version c = 2).
Proof.
  unfold ConfigEpochActivationCommand_check. intros E Ek. rewrite Ek in E. do 5 apply bind_Ok in E as ([] & _ & E). apply bind_Ok in E as ([] & E6%selection_facts & E).
  apply bind_Ok in E as ([] & E7 & E). apply bind_Ok in E as ([] & E8 & E). apply bind_Ok in E as ([] & E9 & E%raise_if_Ok). bdec.
  destruct (proposal_manifest_id c), (authority_evidence_hash c), (authority_observed_at c); try done. split_and!; [by eexists _, _, _|done..|]. naive_solver.
Qed.

Lemma rollback_checked c : ConfigEpochActivationCommand_check c = Ok tt -> mutation_kind c = rollback_kind ->
  (exists a r d, expected_active_epoch_id c = Some a /\ coverage_relation c = Some r /\ cm_reason c = Some d) /\
  proposal_manifest_id c = None /\ authority_evidence_hash c = None /\ authority_observed_at c = None /\
  activation_version c = 1 /\ review_operation_id c = None.
Proof.
  unfold ConfigEpochActivationCommand_check. intros E Ek. rewrite Ek in E. do 5 apply bind_Ok in E as ([] & _ & E). apply bind_Ok in E as ([] & E6%selection_facts & E).
  apply bind_Ok in E as ([] & E7%raise_if_Ok & E). apply bind_Ok in E as ([] & _ & E). apply bind_Ok in E as ([] & E9 & E). apply bind_Ok in E as ([] & E10%raise_if_Ok & E). bdec.
  destruct (expected_active_epoch_id c), (coverage_relation c), (cm_reason c); try done. split_and!; [by eexists _, _, _|done..| |]; naive_solver.
Qed.

Lemma replay_checked r : ConfigEpochReplayCommand_check r = Ok tt ->
  (rp_activation_version r = 1 /\ rp_review_operation_id r = None \/ rp_activation_version r = 2 /\ rp_mutation_kind r = activation_kind) /\
  match rp_mutation_kind r with activation_kind => rp_reason r = None | rollback_kind => rp_proposal_manifest_id r = None end.
Proof.
  unfold ConfigEpochReplayCommand_check. intros E. do 4 apply bind_Ok in E as ([] & _ & E). apply bind_Ok in E as ([] & E6%selection_facts & E). split; [done|].
  destruct (rp_mutation_kind r); apply bind_Ok in E as ([] & E7 & E).
  - apply raise_if_Ok in E. by bdec.
  - apply raise_if_Ok in E7. by bdec.
Qed.

Lemma replay_of_checked c : ConfigEpochActivationCommand_check c = Ok tt -> from_activation c = Ok (replay_of c).
Proof.
  intros Hc. unfold from_activation. assert (ConfigEpochReplayCommand_check (replay_of c) = Ok tt) as ->; [|done].
  assert (E := Hc). unfold ConfigEpochActivationCommand_check in E. apply bind_Ok in E as ([] & E1 & E). apply bind_Ok in E as ([] & E2 & E). apply bind_Ok in E as ([] & E3 & E).
  apply bind_Ok in E as ([] & E4 & E). apply bind_Ok in E as ([] & _ & E). apply bind_Ok in E as ([] & E6 & E). unfold ConfigEpochReplayCommand_check, replay_of.
  cbn [rp_target_epoch_id rp_expected_revision rp_operation_id rp_actor rp_mutation_kind rp_activation_version rp_review_operation_id rp_proposal_manifest_id rp_reason].
  rewrite E1, E2, E3, E4, E6. cbn [mbind res_bind]. destruct (mutation_kind c) eqn:Ek.
  - apply bind_Ok in E as ([] & -> & _). cbn [mbind res_bind]. destruct (activation_checked c Hc Ek) as (_ & _ & _ & -> & _). by rewrite bool_decide_eq_true_2.
  - destruct (rollback_checked c Hc Ek) as (_ & -> & _). rewrite (bool_decide_eq_true_2 (None = None)) by done. cbn [negb raise_if mbind res_bind]. apply bind_Ok in E as ([] & _ & E).
    apply bind_Ok in E as ([] & -> & E). cbn [mbind res_bind]. apply bind_Ok in E as ([] & _ & E). by apply bind_Ok in E as ([] & _ & ->).
Qed.

(** ** The comparison *)

Lemma replay_eq r c : rp_scope r = cm_scope c -> rp_target_epoch_id r = target_epoch_id c -> rp_expected_revision r = expected_revision c ->
  rp_operation_id r = operation_id c -> rp_actor r = cm_actor c -> rp_proposal_manifest_id r = proposal_manifest_id c ->
  rp_mutation_kind r = mutation_kind c -> rp_reason r = cm_reason c -> rp_activation_version r = activation_version c ->
  rp_review_operation_id r = review_operation_id c -> r = replay_of c.
Proof. destruct r. unfold replay_of. cbn. congruence. Qed.

(** The command a repetition is compared as: its own fields, and the evidence,
    the active epoch and the coverage relation that were recorded. *)
Definition retained (r : ConfigEpochReplayCommand) (c : ConfigEpochActivationCommand) : ConfigEpochActivationCommand :=
  {| cm_scope := rp_scope r; target_epoch_id := rp_target_epoch_id r; expected_revision := rp_expected_revision r; operation_id := rp_operation_id r;
     cm_actor := rp_actor r; occurred_at := occurred_at c; proposal_manifest_id := proposal_manifest_id c; authority_evidence_hash := authority_evidence_hash c;
     authority_observed_at := authority_observed_at c; mutation_kind := rp_mutation_kind r; expected_active_epoch_id := expected_active_epoch_id c;
     coverage_relation := coverage_relation c; cm_reason := rp_reason r; activation_version := rp_activation_version r;
     review_operation_id := rp_review_operation_id r |}.

Lemma replayed_retained r c e a b d x y : occurred_at c = created_at e ->
  proposal_manifest_id c = a -> authority_evidence_hash c = b -> authority_observed_at c = d -> expected_active_epoch_id c = x -> coverage_relation c = y ->
  replayed r e a b d x y = retained r c.
Proof. unfold replayed, retained. by intros -> -> -> -> -> ->. Qed.

Definition decides (b : res bool) (r : ConfigEpochReplayCommand) (c : ConfigEpochActivationCommand) : Prop :=
  exists x, b = Ok x /\ (r = replay_of c -> x = true) /\
    (x = true -> collision_free (command_bytes c ++ command_bytes (retained r c)) -> r = replay_of c).

Lemma decides_false r c : r <> replay_of c -> decides (Ok false) r c.
Proof. intros Hr. by exists false. Qed.

Lemma opt_str_inj a b : opt_str a = opt_str b -> a = b.
Proof. destruct a, b; cbn; congruence. Qed.

Lemma schema_inj v w : (v = 1 \/ v = 2) -> (w = 1 \/ w = 2) ->
  (if v =? 1 then _ACTIVATION_AUDIT_SCHEMA else _EXPLICIT_ACTIVATION_AUDIT_SCHEMA) = (if w =? 1 then _ACTIVATION_AUDIT_SCHEMA else _EXPLICIT_ACTIVATION_AUDIT_SCHEMA) -> v = w.
Proof. intros [-> | ->] [-> | ->]; cbn; try done; intros E; by apply (f_equal (fun s => bool_decide (s = _ACTIVATION_AUDIT_SCHEMA))) in E. Qed.

Lemma pyeq_opt_str o p : pyeq (opt_str o) (opt_str p) = bool_decide (o = p).
Proof. destruct o as [s|], p as [t|]; try done. cbn. by repeat case_bool_decide; simplify_eq. Qed.

(** A stored activation against a repeated command. *)
Lemma same_operation_decides t rs row c r :
  epochs_hold t rs -> activation_of rs row c -> ConfigEpochReplayCommand_check r = Ok tt -> decides (_same_operation t (record_of row) r) r c.
Proof.
  intros Ht Hc Hr. destruct (av_event _ _ _ Hc) as (p & e & Hp & He & Hin & Hih & Hid & Hhex). pose proof (av_check _ _ _ Hc) as Hck.
  destruct (command_event c p Hck Hp) as (_ & T & P & _ & _ & A & O). rewrite <- Hin in T, P, A, O. cbn in T, P, A, O.
  destruct (command_payload c) as (items & Ei & Hf). rewrite Ei in P. unfold _same_operation. cbn [rec_expected_revision record_of rec_active ac_epoch_id rec_audit_event_id rec_audit_input_hash].
  rewrite (av_expected _ _ _ Hc), (av_target _ _ _ Hc). destruct (_ || _) eqn:E0.
  { apply decides_false. intros ->. cbn in E0. by rewrite !bool_decide_eq_false_2 in E0 by (intros Hn; by apply Hn). }
  apply orb_false_iff' in E0 as [E1 E2]. bdec. rewrite <- Hid. destruct (event_loaded t rs e) as [-> Hfail]; [apply Ht|done|]. cbn [mbind res_bind]. rewrite Hfail. cbn [mbind res_bind].
  assert (Ehex : hex (vr_audit_input_hash row) = input_hash e).
  { assert (Hh : is_sha256_hex (input_hash e) = true). { destruct (held_record _ rs e (eh_audit _ _ Ht) He) as (w & _ & Hh & _). pose proof (record_ok_facts e (rh_ok _ _ Hh)) as []. done. }
    destruct (fromhex_sha256 _ Hh) as (b & Eb & <- & _). rewrite Hhex in Eb. by injection Eb as ->. }
  rewrite Ehex, (bool_decide_eq_false_2 (input_hash e <> input_hash e)) by auto. rewrite orb_false_r, A. case_bool_decide as E3; [apply decides_false; by intros ->|].
  rewrite P, T, Hih.
  pose proof (replay_checked r Hr) as [Rv Rk]. destruct (rp_mutation_kind r) eqn:Rkind.
  - rewrite !Hf. unfold is_text at 1. destruct (mutation_kind c) eqn:Ck; [|apply decides_false; intros ->; cbn in Rkind; congruence].
    destruct (activation_checked c Hck Ck) as ((a & b & d & Ea & Eb & Ed) & Ex1 & Ex2 & Ex3 & Ev). destruct (activation_fields c Ck) as (F1 & F2 & F3 & F4 & F5 & F6 & F7 & F8).
    rewrite F1, F5, F6, F7, Ea, Eb, Ed. cbn [opt_str event_type_of]. rewrite (bool_decide_eq_false_2 (_ACTIVATION_EVENT_TYPE <> _)) by auto. cbn [orb].
    assert (Hv : (rp_activation_version r = 1 \/ rp_activation_version r = 2) /\ (activation_version c = 1 \/ activation_version c = 2)) by naive_solver. destruct Hv as [Hv1 Hv2].
    case_bool_decide as E4; cbn [negb orb].
    2: { apply decides_false. intros ->. by apply E4. }
    apply schema_inj in E4; [|done..]. destruct ((rp_activation_version r =? 2) && _) eqn:E5.
    { apply decides_false. intros ->. apply andb_true_iff' in E5 as [E5 E6]. cbn in E5, E6. apply Z.eqb_eq in E5. rewrite (F8 E5), pyeq_opt_str, bool_decide_eq_true_2 in E6; done. }
    case_bool_decide as E6; cbn [negb]; [|apply decides_false; intros ->; apply E6; cbn; congruence].
    destruct (same_hash_decides c (replayed r e (Some a) (Some b) (Some d) None None) p Hck Hp) as (x & Ex & X1 & X2).
    exists x. split; [by unfold same_hash, replayed in Ex; rewrite Rkind in Ex|]. split.
    + intros ->. apply X1. unfold replayed, replay_of. cbn. destruct c. cbn in *. congruence.
    + intros Hx Hfree. rewrite <- (replayed_retained r c e (Some a) (Some b) (Some d) None None) in Hfree by congruence.
      destruct (X2 Hx Hfree) as (S1 & S2 & S3). destruct (activation_fields (replayed r e (Some a) (Some b) (Some d) None None)) as (_ & G2 & _); [done|].
      pose proof (S3 "operationId"%string) as S4. rewrite G2, F2 in S4. injection S4 as S4. cbn in S1, S4.
      apply replay_eq; try congruence. destruct Rv as [[V1 V2]|[V1 _]].
      * rewrite V2. destruct Ev as [[_ Ev]|Ev]; [done|]. congruence.
      * rewrite V1, Z.eqb_refl in E5. cbn [andb] in E5. apply negb_false_iff' in E5. rewrite F8, pyeq_opt_str in E5 by congruence. by bdec.
  - rewrite !Hf. destruct (mutation_kind c) eqn:Ck; [apply decides_false; intros ->; cbn in Rkind; congruence|].
    destruct (rollback_checked c Hck Ck) as ((a & rel & d & Ea & Eb & Ed) & Ex1 & Ex2 & Ex3 & Ev & Er). destruct (rollback_fields c Ck) as (F1 & F2 & F3 & F4 & F5 & F6 & F7).
    rewrite F1, F4, F6, Ea, Eb. cbn [opt_str event_type_of opt_relation]. rewrite (bool_decide_eq_false_2 (_ROLLBACK_EVENT_TYPE <> _)) by auto. unfold is_text. rewrite (bool_decide_eq_true_2 (_ROLLBACK_AUDIT_SCHEMA = _)) by done. cbn [negb orb].
    assert (Erel : _coverage_relation (VStr (relation_str rel)) = Some rel) by by destruct rel. rewrite Erel.
    destruct (same_hash_decides c (replayed r e None None None (Some a) (Some rel)) p Hck Hp) as (x & Ex & X1 & X2).
    exists x. split; [by unfold same_hash, replayed in Ex; rewrite Rkind in Ex|]. split.
    + intros ->. apply X1. unfold replayed, replay_of. cbn. destruct c. cbn in *. congruence.
    + intros Hx Hfree. rewrite <- (replayed_retained r c e None None None (Some a) (Some rel)) in Hfree by congruence.
      destruct (X2 Hx Hfree) as (S1 & S2 & S3). destruct (rollback_fields (replayed r e None None None (Some a) (Some rel))) as (_ & G2 & _ & _ & _ & _ & G7); [done|].
      pose proof (S3 "operationId"%string) as S4. rewrite G2, F2 in S4. injection S4 as S4. pose proof (S3 "reason"%string) as S5. rewrite G7, F7 in S5. apply opt_str_inj in S5. cbn in S1, S4, S5.
      destruct Rv as [[V1 V2]|[_ V2]]; [|congruence]. apply replay_eq; congruence.
Qed.
End replay.
