(* ===== verification/ConfigEpochHistory.v ===== *)
(** * Histories of the configuration of a repository

    Whatever calls are made on the store, by this component or by the others
    that write the audit ledger, epochs and activations are only added, the
    active epoch is the one of the last activation, and repeating an operation
    is answered with what it did the first time. *)

From stdpp Require Import base gmap sets list sorting strings.
From Stdlib Require Import ZArith Lia.
From S2P Require Import Prelude Text PyFloat CanonicalJson Hashing JsonLoads JsonRoundtrip Instants ConfigControl AuditEvents AuditChain AuditFacts AuditChainFacts AuditLedger AuditPages AuditRepository AuditRepositoryFacts AuditStore TableFacts Rollback ConfigEpochs ConfigEpochStore ConfigEpochFacts ConfigEpochSteps ConfigEpochReplay.

Section history.
Context `{Sha256} `{PolicyAdmission}.

(** ** Registration *)

Lemma accepted_more t l r : active_accepted t r = true -> active_accepted (with_epochs t (config_epochs t ++ l)) r = true.
Proof.
  unfold active_accepted. rewrite !andb_true_iff'. intros [? E]. split; [done|]. unfold epoch_exists in *. cbn. rewrite existsb_app. by rewrite E.
Qed.

Lemma epochs_step t rs d : epochs_hold t rs -> draft_ok d -> admitted d -> (draft_epoch_id d ∉ er_epoch_id <$> config_epochs t) ->
  epochs_hold (with_epochs t (config_epochs t ++ [_draft_to_row d])) rs.
Proof.
  intros Ht Hd Ha Hn. split; [apply Ht| | |apply Ht|apply Ht| |apply Ht|apply Ht|apply Ht].
  - cbn. apply Forall_app. split; [apply Ht|]. constructor; [by exists d|constructor].
  - cbn [config_epochs with_epochs]. rewrite fmap_app. apply NoDup_app. split_and!; [apply Ht| |apply NoDup_singleton]. by intros x Hx ->%list_elem_of_singleton.
  - intros r Hr. by apply accepted_more, (eh_pointed _ _ Ht).
Qed.

(** What registering a draft adds. *)
Definition added (r : ConfigEpochRegistrationResult) (d : ValidatedEpochDraft) : list epoch_row :=
  match r with ConfigEpochRegistrationCreated _ => [_draft_to_row d] | _ => [] end.

Lemma register_draft_step t rs d r t' : epochs_hold t rs -> draft_ok d -> admitted d -> _register_draft t d = Ok (r, t') ->
  epochs_hold t' rs /\ t' = with_epochs t (config_epochs t ++ added r d) /\
  match r with
  | ConfigEpochRegistrationCreated id => id = draft_epoch_id d /\ id ∉ er_epoch_id <$> config_epochs t
  | ConfigEpochRegistrationDuplicate id => id = draft_epoch_id d /\ registered t d
  | ConfigEpochRegistrationConflict id => id = draft_epoch_id d /\ exists d', registered t d' /\ draft_epoch_id d' = id /\ d' <> d
  end.
Proof.
  intros Ht Hd Ha E. unfold _register_draft, insert_epoch in E. destruct (negb _); [done|]. cbn [raise_if mbind res_bind] in E. destruct (existsb _ _) eqn:Ex; cbn [mbind res_bind] in E.
  - assert (Et : t = with_epochs t (config_epochs t ++ [])) by (rewrite app_nil_r; by destruct t).
    apply bind_Ok in E as (o & Eo & E). destruct o as [d'|]; [|done]. unfold _load_draft in Eo. apply decode_found_Ok in Eo as (w & Ew & Er).
    apply draft_from_row_ok in Er as (_ & _ & ->). assert (Hin : _draft_to_row d' ∈ [_draft_to_row d']) by by left. rewrite <- Ew in Hin. apply filter_elem in Hin as [Hin Hid].
    unfold epoch_of in Hid. rewrite andb_true_r in Hid. apply bool_decide_eq_true in Hid. case_bool_decide as Ed; injection E as <- <-; (split; [done|]; split; [done|]; split; [done|]).
    + by subst d'.
    + by exists d'.
  - injection E as <- <-. assert (Hn : draft_epoch_id d ∉ er_epoch_id <$> config_epochs t).
    { intros (w & Ew & Hw)%list_elem_of_fmap. apply (proj1 (existsb_false _ _) Ex) in Hw. rewrite bool_decide_eq_true_2 in Hw by done. done. }
    split; [by apply epochs_step|]. done.
Qed.

Lemma register_step t rs d r t' : epochs_hold t rs -> draft_ok d -> register t d = Ok (r, t') ->
  epochs_hold t' rs /\ t' = with_epochs t (config_epochs t ++ added r d).
Proof.
  intros Ht Hd E. unfold register in E. apply bind_Ok in E as (d' & [Ha ->]%assert_admitted_Ok & E). apply store_guard_Ok in E.
  by destruct (register_draft_step t rs d r t' Ht Hd Ha E) as (? & ? & _).
Qed.

(** A registration command its constructor accepted, prepared for one call. *)
Record registration_ready (p : PreparedConfigEpochRegistration) : Prop := {
  gp_prepared : prepare_config_epoch_registration (pg_command p) = Ok p;
  gp_check : ConfigEpochRegistrationCommand_check (pg_command p) = Ok tt;
  gp_draft : draft_ok (rg_draft (pg_command p));
}.

Lemma reg_bounded_text s n m : reg_require_bounded_text s n m = Ok tt -> is_unicode_scalar_string s = true.
Proof. unfold reg_require_bounded_text. intros ([] & E%raise_if_Ok & _)%bind_Ok. by bdec. Qed.

Lemma registration_event_ok c : ConfigEpochRegistrationCommand_check c = Ok tt -> input_like_ok (InputExact (registration_event c)).
Proof.
  unfold ConfigEpochRegistrationCommand_check. intros ([] & E1%reg_bounded_text & E)%bind_Ok. apply bind_Ok in E as ([] & E2%reg_bounded_text & _).
  unfold registration_event. apply epoch_event_ok; [done|done|apply scalar_u|apply scalar_u|]. apply obj_wf; [repeat constructor|reflexivity].
Qed.

Lemma registration_from p : registration_ready p -> prepared_from (InputExact (registration_event (pg_command p))) (pg_audit_event p).
Proof.
  intros [E Hc _]. split; [by apply registration_event_ok|]. unfold prepare_config_epoch_registration in E. apply bind_Ok in E as (e & E & Ep).
  injection Ep as Ep. rewrite <- Ep at 2. exact E.
Qed.

(** A repeated registration is of the stored draft. *)
Lemma same_registration_true t rec c : _same_registration t rec c = Ok true -> registered t (rg_draft c) /\ rr_epoch_id rec = draft_epoch_id (rg_draft c).
Proof.
  unfold _same_registration. case_bool_decide as E1; [done|]. intros (o & Eo & E)%bind_Ok. destruct o as [d|]; [|done].
  case_bool_decide as E2; [done|]. subst d. split; [|done]. apply decode_found_Ok in Eo as (w & Ew & Er).
  apply draft_from_row_ok in Er as (_ & _ & ->). assert (Hin : _draft_to_row (rg_draft c) ∈ [_draft_to_row (rg_draft c)]) by by left.
  rewrite <- Ew in Hin. by apply filter_elem in Hin as [Hin _].
Qed.

Lemma register_operation_step t rs p r t' : epochs_hold t rs -> registration_ready p -> register_operation t p = Ok (r, t') ->
  match r with
  | ConfigEpochRegistrationCommitted rec => exists e l, epochs_hold t' (rs ++ [e]) /\ config_epochs t' = config_epochs t ++ l /\
      config_epoch_activations t' = config_epoch_activations t /\ registered t' (rg_draft (pg_command p)) /\ rr_epoch_id rec = draft_epoch_id (rg_draft (pg_command p))
  | ConfigEpochRegistrationReplay rec => t' = t /\ registered t (rg_draft (pg_command p)) /\ rr_epoch_id rec = draft_epoch_id (rg_draft (pg_command p))
  | ConfigEpochRegistrationOperationConflict _ => t' = t
  end.
Proof.
  intros Ht Hp E. pose proof (registration_from p Hp) as Hfrom. destruct Hp as [_ _ Hd]. unfold register_operation in E. apply store_guard_Ok in E.
  apply bind_Ok in E as (d & [Ha ->]%assert_admitted_Ok & E). apply bind_Ok in E as (x & _ & E). destruct x as [x|].
  { apply bind_Ok in E as (b & Eb & [= <- <-]). destruct b; [|done]. split; [done|]. by apply same_registration_true. }
  apply bind_Ok in E as ([content t1] & E1 & E). destruct (register_draft_step _ _ _ _ _ Ht Hd Ha E1) as (H1 & Et1 & Hc).
  assert (Hreg : exists l, config_epochs t1 = config_epochs t ++ l /\ config_epoch_activations t1 = config_epoch_activations t /\
    match content with ConfigEpochRegistrationConflict _ => True | _ => registered t1 (rg_draft (pg_command p)) end).
  { subst t1. exists (added content (rg_draft (pg_command p))). split; [done|]. split; [done|]. unfold registered. cbn. destruct content; [|by destruct Hc as [_ Hc]; apply elem_of_app; left|done].
    apply elem_of_app. right. by left. }
  destruct Hreg as (l & El & Ea & Hreg). destruct content as [id|id|id]; [..|done].
  all: apply bind_Ok in E as (ev & Ev & E); apply bind_Ok in E as ([e t2] & E2 & E); apply bind_Ok in E as (rec & [_ ->]%checked_Ok & E);
    apply bind_Ok in E as (row & _ & E); apply bind_Ok in E as (t3 & E3 & [= <- <-]);
    unfold pg_take_audit_event in Ev; apply bind_Ok in Ev as ([] & _ & [= <-]);
    destruct (append_owned_facts _ _ _ _ _ _ _ _ H1 Hfrom E2) as (a & -> & Hau & _);
    unfold insert_registration in E3; apply bind_Ok in E3 as ([] & _ & [= <-]); exists e, l.
  all: split_and!; try done; pose proof (audit_step _ _ _ _ H1 Hau) as [? ? ? ? ? ? ? ? ?]; by split.
Qed.

(** ** Activation *)

Lemma activate_step t rs p r t' : epochs_hold t rs -> activation_ready p -> activate t p = Ok (r, t') ->
  match r with
  | ConfigEpochActivationApplied rec => exists e row, rec = record_of row /\ applied t rs (pa_command p) e row t'
  | _ => t' = t
  end.
Proof.
  intros Ht Hp E. destruct (operation_row t (cm_scope (pa_command p)) (operation_id (pa_command p))) as [row|] eqn:Eo.
  - unfold activate in E. apply store_guard_Ok in E. rewrite (operation_loaded t rs _ _ Ht), Eo in E. cbn [mbind res_bind fmap option_fmap option_map] in E.
    apply bind_Ok in E as (rp & _ & E). apply bind_Ok in E as (b & _ & [= <- <-]). by destruct b.
  - rewrite (activate_cases t rs p Ht Hp Eo) in E. destruct (epoch_exists _ _ _ _) eqn:Ex; cbn [negb] in E; [|by injection E as <- <-].
    destruct (expected_pointer _ _) eqn:Ep; cbn [negb] in E; [|by injection E as <- <-]. apply store_guard_Ok in E.
    pose proof (advance_cases t rs p Ht Hp Eo Ex Ep) as Ha. destruct (append_owned _ _ _ _) as [[e t1]|err]; [|congruence].
    destruct (safe_id _); [|destruct Ha as (m & Ha); congruence]. destruct Ha as (row & t2 & E2 & Ha). rewrite E2 in E. injection E as <- <-. by exists e, row.
Qed.

(** ** Calls *)

Inductive epoch_call :=
  | AuditCall (c : ledger_call)
  | Register (draft : ValidatedEpochDraft)
  | RegisterOperation (prepared : PreparedConfigEpochRegistration)
  | Activate (prepared : PreparedConfigEpochActivation).

Inductive epoch_result :=
  | AuditResult (r : option AuditAppendResult)
  | RegisterResult (r : ConfigEpochRegistrationResult)
  | RegisterOperationResult (r : ConfigEpochRegistrationOperationResult)
  | ActivateResult (r : ConfigEpochActivationResult).

(** A call with the tables its transaction leaves. *)
Definition epoch_call_result (t : epoch_tables) (c : epoch_call) : res (epoch_result * epoch_tables) :=
  match c with
  | AuditCall c => (fun x => (AuditResult x.1, with_audit t x.2)) <$> call_result (ct_audit t) c
  | Register d => (fun x => (RegisterResult x.1, x.2)) <$> register t d
  | RegisterOperation p => (fun x => (RegisterOperationResult x.1, x.2)) <$> register_operation t p
  | Activate p => (fun x => (ActivateResult x.1, x.2)) <$> activate t p
  end.

Definition call_ready (c : epoch_call) : Prop :=
  match c with
  | AuditCall c => forall p, call_event c = Some p -> exists i, prepared_from i p
  | Register d => draft_ok d
  | RegisterOperation p => registration_ready p
  | Activate p => activation_ready p
  end.

(** The activation a call says it applied. *)
Definition applied_records (r : epoch_result) : list ConfigEpochActivationRecord :=
  match r with ActivateResult (ConfigEpochActivationApplied r) => [r] | _ => [] end.

(** The tables after a history, and the activations the calls said they applied. *)
Fixpoint epoch_run (t : epoch_tables) (calls : list epoch_call) : epoch_tables * list ConfigEpochActivationRecord :=
  match calls with
  | [] => (t, [])
  | c :: calls =>
      match epoch_call_result t c with
      | Ok (r, t') => let '(t'', l) := epoch_run t' calls in (t'', applied_records r ++ l)
      | Raise _ => epoch_run t calls
      end
  end.

(** What a later state keeps of an earlier one, with the records applied between. *)
Record later (t : epoch_tables) (rs : list AuditEventRecord) (l : list ConfigEpochActivationRecord) (t' : epoch_tables) (rs' : list AuditEventRecord) : Prop := {
  lt_hold : epochs_hold t' rs';
  lt_records : rs `prefix_of` rs';
  lt_epochs : config_epochs t `prefix_of` config_epochs t';
  lt_activations : exists rows, config_epoch_activations t' = config_epoch_activations t ++ rows /\ record_of <$> rows = l;
}.

Lemma later_refl t rs : epochs_hold t rs -> later t rs [] t rs.
Proof. intros Ht. split; [done|done|done|]. exists []. by rewrite app_nil_r. Qed.

Lemma later_trans t rs l t1 rs1 l1 t2 rs2 : later t rs l t1 rs1 -> later t1 rs1 l1 t2 rs2 -> later t rs (l ++ l1) t2 rs2.
Proof.
  intros [_ A1 A2 (w & A3 & A4)] [B1 B2 B3 (w' & B4 & B5)]. split; [done|by etrans|by etrans|]. exists (w ++ w'). by rewrite B4, A3, <- app_assoc, fmap_app, A4, B5.
Qed.

Lemma call_later t rs c r t' : epochs_hold t rs -> call_ready c -> epoch_call_result t c = Ok (r, t') -> exists rs', later t rs (applied_records r) t' rs'.
Proof.
  intros Ht Hc E. destruct c as [c|d|p|p]; apply fmap_Ok in E as ([r' t''] & E & [= -> ->]); cbn [applied_records].
  - exists (rs ++ appended_records r'). pose proof (call_holds _ _ _ _ _ (eh_audit _ _ Ht) Hc E) as Ha. split; [by apply audit_step|by eexists|done|]. exists []. by rewrite app_nil_r.
  - destruct (register_step _ _ _ _ _ Ht Hc E) as [H1 ->]. exists rs. split; [done|done|by eexists|]. exists []. by rewrite app_nil_r.
  - pose proof (register_operation_step _ _ _ _ _ Ht Hc E) as Hr. destruct r' as [rec|rec|rec]; [|destruct Hr as [-> _]; exists rs; by apply later_refl|subst t''; exists rs; by apply later_refl].
    destruct Hr as (e & l & H1 & H2 & H3 & _). exists (rs ++ [e]). split; [done|by eexists|by exists l|]. exists []. by rewrite H3, app_nil_r.
  - pose proof (activate_step _ _ _ _ _ Ht Hc E) as Ha. destruct r' as [rec| | | |]; [|subst t''; exists rs; by apply later_refl..].
    destruct Ha as (e & row & -> & Ha). exists (rs ++ [e]). split; [apply Ha|by eexists|rewrite (ap_epochs _ _ _ _ _ _ Ha); done|]. exists [row]. by rewrite (ap_history _ _ _ _ _ _ Ha).
Qed.

Lemma run_later calls t rs t' l : epochs_hold t rs -> Forall call_ready calls -> epoch_run t calls = (t', l) -> exists rs', later t rs l t' rs'.
Proof.
  intros Ht Hc. revert t rs l Ht. induction Hc as [|c calls Hp _ IH]; intros t rs l Ht E; cbn [epoch_run] in E.
  - injection E as <- <-. exists rs. by apply later_refl.
  - destruct (epoch_call_result t c) as [[r t1]|] eqn:Ec; [|by eapply IH]. destruct (epoch_run t1 calls) as [t2 l2] eqn:Er. injection E as <- <-.
    destruct (call_later _ _ _ _ _ Ht Hp Ec) as (rs1 & H1). destruct (IH _ _ _ (lt_hold _ _ _ _ _ H1) Er) as (rs2 & H2). exists rs2. by eapply later_trans.
Qed.

(** ** The active epoch *)

(** A draft read from the tables. *)
Record stored_draft (t : epoch_tables) (s : RepositoryScope) (id : pystr) (d : ValidatedEpochDraft) : Prop := {
  sd_registered : registered t d;
  sd_scope : draft_scope d = s;
  sd_id : draft_epoch_id d = id;
  sd_ok : draft_ok d;
  sd_admitted : admitted d;
}.

Lemma registered_ok t rs d : epochs_hold t rs -> registered t d -> draft_ok d /\ admitted d.
Proof.
  intros Ht Hd. pose proof (proj1 (Forall_forall _ _) (eh_epochs _ _ Ht) _ Hd) as (d' & H1 & H2 & E).
  pose proof (draft_read d' H1 H2) as Er. rewrite <- E in Er. pose proof (draft_from_row_ok _ _ Er) as (_ & _ & E2).
  assert (d = d') as ->; [|done]. destruct d as [f ? sc ? ? ? ? ? ? ? ? ? ? ? ? ?], d' as [f' ? sc' ? ? ? ? ? ? ? ? ? ? ? ? ?].
  unfold _draft_to_row in E. cbn in E. injection E as -> E3 E4 E5 -> -> -> -> -> -> -> -> -> -> -> -> ->.
  f_equal; [by destruct f, f'|by destruct sc, sc'; cbn in *; subst].
Qed.

Lemma epoch_loaded t rs s id : epochs_hold t rs ->
  if epoch_exists t (scope_installation_id s) (scope_repository_id s) id
  then exists d, _load_draft t id (Some s) = Ok (Some d) /\ stored_draft t s id d
  else _load_draft t id (Some s) = Ok None.
Proof.
  intros Ht. pose proof (draft_loaded t rs s id Ht) as Hd. destruct (epoch_exists _ _ _ _); [|done]. destruct Hd as (d & El & Hr & Hs & Hi). exists d. split; [done|].
  destruct (registered_ok _ _ _ Ht Hr). by split.
Qed.

Lemma active_loaded t rs s : epochs_hold t rs ->
  match pointer_of s t with
  | None => load_active t s = Ok None
  | Some p => exists d, stored_draft t s p.1 d /\ load_active t s = Ok (Some {| sn_active := pointed s p; sn_draft := d |})
  end.
Proof.
  intros Ht. pose proof (pointer_rows t rs s Ht) as Hp. unfold load_active, active_join. destruct (pointer_of s t) as [p|]; [|by rewrite Hp].
  destruct Hp as (q & -> & Hin & Hs & <- & Ha). pose proof (accepted_parts _ _ Ha) as (A1 & A2 & A3). rewrite active_at_spec in Hs. apply bool_decide_eq_true in Hs.
  pose proof (epoch_loaded t rs s (ar_epoch_id q) Ht) as He. assert (A4 : epoch_exists t (scope_installation_id s) (scope_repository_id s) (ar_epoch_id q) = true) by (rewrite <- Hs; exact A3). rewrite A4 in He.
  destruct He as (d & _ & Hd). exists d. split; [done|]. cbn [flat_map app]. rewrite app_nil_r.
  assert (Hrow : epoch_at (ar_installation_id q) (ar_repository_id q) (ar_epoch_id q) (_draft_to_row d) = true).
  { unfold epoch_at. cbn. rewrite (sd_scope _ _ _ _ Hd), (sd_id _ _ _ _ Hd), <- Hs. cbn. rewrite !Z.eqb_refl. by apply bool_decide_eq_true_2. }
  rewrite (NoDup_filter_one er_epoch_id _ _ (ar_epoch_id q) (_draft_to_row d)); [|by apply Ht| |by apply Hd|done].
  2: { intros y Hy. unfold epoch_at in Hy. by bdec. }
  cbn [fmap list_fmap one_or_none mbind res_bind]. apply store_guard_Ok. unfold active_from_row.
  assert (Hck : ActiveConfigEpoch_check {| ac_scope := s; ac_epoch_id := ar_epoch_id q; ac_revision := ar_revision q |} = Ok tt) by by apply active_ok.
  rewrite (proj2 (checked_Ok _ _ _) (conj Hck eq_refl)).
  cbn [mbind res_bind]. rewrite (draft_read d) by apply Hd. cbn [mbind res_bind]. unfold checked, ActiveConfigEpochSnapshot_check. cbn [sn_draft sn_active ac_scope ac_epoch_id].
  rewrite (sd_scope _ _ _ _ Hd), (sd_id _ _ _ _ Hd), !bool_decide_eq_true_2 by done. done.
Qed.

Definition empty_epochs : epoch_tables :=
  {| ct_audit := empty_tables; config_epochs := []; config_epoch_registrations := []; active_config_epochs := []; config_epoch_activations := [] |}.

Lemma empty_epochs_hold : epochs_hold empty_epochs [].
Proof.
  split; cbn; [apply empty_hold|constructor|constructor|done|done|..]; try (intros r Hr; by apply not_elem_of_nil in Hr). intros; lia.
Qed.

(** ** What the history of a repository records *)

Lemma chained_lookup previous rows i r : chained previous rows -> rows !! i = Some r ->
  exists p, p = match i with O => previous | S j => (fun x => (vr_target_epoch_id x, vr_result_revision x)) <$> rows !! j end /\
    vr_previous_epoch_id r = fst <$> p /\ vr_previous_revision r = snd <$> p.
Proof.
  revert previous i. induction rows as [|x rows IH]; intros previous i Hc Hi; [done|]. destruct Hc as (E1 & E2 & _ & _ & Hc). destruct i as [|i]; cbn in Hi.
  - injection Hi as <-. by exists previous.
  - destruct (IH _ _ Hc Hi) as (p & -> & H1 & H2). destruct i as [|i]; by eexists.
Qed.

Definition own_records (s : RepositoryScope) (l : list ConfigEpochActivationRecord) : list ConfigEpochActivationRecord :=
  List.filter (fun r => bool_decide (rec_scope r = s)) l.

Lemma own_rows s t : own_records s (record_of <$> config_epoch_activations t) = record_of <$> activations_of s t.
Proof.
  unfold own_records, activations_of. induction (config_epoch_activations t) as [|r rows IH]; [done|]. rewrite fmap_cons. cbn [List.filter].
  rewrite in_scope_spec. change (rec_scope (record_of r)) with (row_scope r). by case_bool_decide; rewrite IH.
Qed.

Lemma own_previous s t rs i r : epochs_hold t rs -> activations_of s t !! i = Some r ->
  rec_previous (record_of r) = match i with O => None | S j => rec_active ∘ record_of <$> activations_of s t !! j end /\ ac_revision (rec_active (record_of r)) = Z.of_nat i + 1.
Proof.
  intros Ht Hi. pose proof (eh_chain _ _ Ht s) as Hc. pose proof (chained_revision _ _ _ _ Hc Hi) as Hr. destruct (chained_lookup _ _ _ _ Hc Hi) as (p & -> & E1 & E2).
  cbn [record_of rec_previous rec_active ac_revision]. rewrite E1, E2. split; [|rewrite Hr; cbn; lia].
  assert (Hs : forall j x, activations_of s t !! j = Some x -> row_scope x = s).
  { intros j x Hj%list_elem_of_lookup_2. apply filter_elem in Hj as [_ Hj]. rewrite in_scope_spec in Hj. by bdec. }
  destruct i as [|i]; [done|]. destruct (activations_of s t !! i) as [x|] eqn:Ex; [|done]. cbn. rewrite (Hs _ _ Hi), (Hs _ _ Ex). done.
Qed.

Lemma own_pointer s t : pointed s <$> pointer_of s t = rec_active <$> last (own_records s (record_of <$> config_epoch_activations t)).
Proof.
  rewrite own_rows. unfold pointer_of, chain_end. rewrite fmap_last. destruct (last (activations_of s t)) as [r|] eqn:E; [|done].
  cbn. f_equal. assert (Hr : r ∈ activations_of s t). { rewrite last_lookup in E. by eapply list_elem_of_lookup_2. }
  apply filter_elem in Hr as [_ Hr]. rewrite in_scope_spec in Hr. bdec. done.
Qed.

Lemma draft_id_hex d : ValidatedEpochDraft_check d = Ok tt -> is_sha256_hex (draft_epoch_id d) = true.
Proof.
  unfold ValidatedEpochDraft_check. intros E. do 4 apply bind_Ok in E as (? & _ & E). apply bind_Ok in E as (l & E & _). apply mapR_Ok in E.
  do 3 (apply Forall2_cons_inv_l in E as (? & ? & _ & E & _)). apply Forall2_cons_inv_l in E as ([] & ? & E%raise_if_Ok & _). by apply negb_false_iff' in E.
Qed.

(** A stored draft is loaded. *)
Lemma stored_loaded t rs s id d : epochs_hold t rs -> stored_draft t s id d -> load_epoch t s id = Ok (Some d).
Proof.
  intros Ht [Hr Hs Hi Hd Ha]. unfold load_epoch, repo_require_epoch_id. rewrite <- Hi at 1. rewrite (draft_id_hex d) by apply Hd.
  cbn [mbind res_bind]. apply store_guard_Ok. unfold _load_draft. apply decode_found_Ok. exists (_draft_to_row d). split; [|by apply draft_read].
  apply (NoDup_filter_one er_epoch_id _ _ id); [by apply Ht| |done|rewrite epoch_of_at; unfold epoch_at; cbn; rewrite Hs, Hi, !Z.eqb_refl; by apply bool_decide_eq_true_2].
  intros y Hy. rewrite epoch_of_at in Hy. unfold epoch_at in Hy. by bdec.
Qed.

(** The row of an operation is found, and recognises its command. *)
Lemma operation_found t rs row c : epochs_hold t rs -> row ∈ config_epoch_activations t -> activation_of rs row c -> operation_row t (cm_scope c) (operation_id c) = Some row.
Proof.
  intros Ht Hrow Hof. unfold operation_row. pose proof (eh_operations _ _ Ht (cm_scope c) (operation_id c)) as Hl.
  assert (Hin : row ∈ List.filter (activation_at (cm_scope c) (operation_id c)) (config_epoch_activations t)).
  { apply filter_elem. split; [done|]. change (in_scope (cm_scope c) row && bool_decide (vr_operation_id row = operation_id c) = true).
    rewrite in_scope_spec, (av_row_scope _ _ _ Hof), (av_operation _ _ _ Hof), !bool_decide_eq_true_2; done. }
  destruct (List.filter _ _) as [|x [|]]; [by apply not_elem_of_nil in Hin| |cbn in Hl; lia]. apply list_elem_of_singleton in Hin as ->. done.
Qed.

Lemma replay_checks c : ConfigEpochActivationCommand_check c = Ok tt -> ConfigEpochReplayCommand_check (replay_of c) = Ok tt.
Proof. intros Hc. pose proof (replay_of_checked c Hc) as E. unfold from_activation in E. by apply bind_Ok in E as ([] & ? & _). Qed.

Lemma operation_resolved t rs row c : epochs_hold t rs -> row ∈ config_epoch_activations t -> activation_of rs row c ->
  resolve_operation t (replay_of c) = Ok (Some (ConfigEpochActivationDuplicate (record_of row))).
Proof.
  intros Ht Hrow Hof. unfold resolve_operation. change (rp_scope (replay_of c)) with (cm_scope c). change (rp_operation_id (replay_of c)) with (operation_id c).
  rewrite (operation_loaded t rs _ _ Ht), (operation_found _ _ _ _ Ht Hrow Hof). cbn [mbind res_bind fmap option_fmap option_map].
  destruct (same_operation_decides t rs row c (replay_of c) Ht Hof) as (b & Eb & B1 & _); [by apply replay_checks; apply Hof|]. rewrite Eb. cbn [mbind res_bind]. by rewrite B1.
Qed.

(** ** Properties *)

(** C26: after any history of calls on the store and the audit ledger, the
    activations that calls reported as applied number the revisions of their
    repository from one, each from the active epoch the one before it left; the
    active configuration that is loaded is the last of them, with its registered
    and admitted draft; and a draft that could be loaded at some time is loaded
    unchanged at every later time. *)
Theorem configuration_history calls1 calls2 t1 t2 l1 l2 s :
  Forall call_ready calls1 -> Forall call_ready calls2 ->
  epoch_run empty_epochs calls1 = (t1, l1) -> epoch_run t1 calls2 = (t2, l2) ->
  let own := own_records s (l1 ++ l2) in
  (forall i r, own !! i = Some r -> ac_revision (rec_active r) = Z.of_nat i + 1 /\
     rec_previous r = match i with O => None | S j => rec_active <$> own !! j end) /\
  match last own with
  | None => load_active t2 s = Ok None
  | Some r => exists d, stored_draft t2 s (ac_epoch_id (rec_active r)) d /\ load_active t2 s = Ok (Some {| sn_active := rec_active r; sn_draft := d |})
  end /\
  forall id d, load_epoch t1 s id = Ok (Some d) -> load_epoch t2 s id = Ok (Some d).
Proof.
  intros H1 H2 E1 E2 own. destruct (run_later _ _ _ _ _ empty_epochs_hold H1 E1) as (rs1 & L1). destruct (run_later _ _ _ _ _ (lt_hold _ _ _ _ _ L1) H2 E2) as (rs2 & L2).
  pose proof (lt_hold _ _ _ _ _ L2) as Ht. destruct (lt_activations _ _ _ _ _ (later_trans _ _ _ _ _ _ _ _ L1 L2)) as (rows & Er & El). cbn in Er.
  assert (Eown : own = record_of <$> activations_of s t2) by (unfold own; by rewrite <- El, <- Er, own_rows). split_and!.
  - intros i r Hi. rewrite Eown in Hi |- *. rewrite list_lookup_fmap in Hi. destruct (activations_of s t2 !! i) as [x|] eqn:Ex; [|done]. injection Hi as <-.
    destruct (own_previous s t2 rs2 i x Ht Ex) as [-> ->]. split; [done|]. destruct i; [done|]. by rewrite list_lookup_fmap, <- option_fmap_compose.
  - pose proof (own_pointer s t2) as Ep. rewrite Er, El in Ep. fold own in Ep. pose proof (active_loaded t2 rs2 s Ht) as Ha. destruct (last own) as [r|], (pointer_of s t2) as [p|]; try done.
    destruct Ha as (d & Hd & ->). injection Ep as <-. by exists d.
  - intros id d. unfold load_epoch. intros ([] & -> & E)%bind_Ok. cbn [mbind res_bind]. apply store_guard_Ok in E. apply store_guard_Ok.
    pose proof (draft_loaded t1 rs1 s id (lt_hold _ _ _ _ _ L1)) as D1. pose proof (draft_loaded t2 rs2 s id Ht) as D2.
    destruct (epoch_exists t1 _ _ _) eqn:X1; [|congruence]. destruct D1 as (d1 & D1 & R1 & S1 & I1). assert (d1 = d) as -> by congruence.
    unfold _load_draft. apply decode_found_Ok. exists (_draft_to_row d). destruct (registered_ok _ _ _ (lt_hold _ _ _ _ _ L1) R1). split; [|by apply draft_read].
    apply (NoDup_filter_one er_epoch_id _ _ id); [by apply Ht| | |rewrite epoch_of_at; unfold epoch_at; cbn; rewrite S1, I1, !Z.eqb_refl; by apply bool_decide_eq_true_2].
    + intros y Hy. rewrite epoch_of_at in Hy. unfold epoch_at in Hy. by bdec.
    + destruct (lt_epochs _ _ _ _ _ L2) as (m & ->). apply elem_of_app. by left.
Qed.

(** C25: activation is a compare-and-set.  An operation that was applied before is
    answered with what it did; otherwise a target the repository has not
    registered, and a pointer other than the expected one, are refused; in these
    cases nothing changes.  Otherwise the ledger is asked to append the
    command's event: when it does, the history grows by one activation of the
    target at the next revision, and nothing else of any repository changes;
    when it does not, or the revisions are exhausted, the call fails. *)
Theorem activation_compare_and_set t rs p : epochs_hold t rs -> activation_ready p ->
  let c := pa_command p in let s := cm_scope c in
  match operation_row t s (operation_id c) with
  | Some row => activate t p = Ok (ConfigEpochActivationDuplicate (record_of row), t) \/ activate t p = Ok (ConfigEpochActivationOperationConflict (record_of row), t)
  | None =>
      if negb (epoch_exists t (scope_installation_id s) (scope_repository_id s) (target_epoch_id c)) then activate t p = Ok (ConfigEpochActivationTargetUnavailable, t)
      else if negb (expected_pointer c (pointer_of s t)) then activate t p = Ok (ConfigEpochActivationRevisionConflict (pointed s <$> pointer_of s t), t)
      else match _append_pair_owned (ct_audit t) (pa_audit_event p) s with
           | Ok (AuditAppendAppended e, _) =>
               if safe_id (next_revision (pointer_of s t))
               then exists row t', activate t p = Ok (ConfigEpochActivationApplied (record_of row), t') /\ applied t rs c e row t' /\
                    pointer_of s t' = Some (target_epoch_id c, next_revision (pointer_of s t)) /\ (forall s', s' <> s -> pointer_of s' t' = pointer_of s' t)
               else exists m, activate t p = Raise (ValueError m)
           | _ => exists err, activate t p = Raise err
           end
  end.
Proof.
  intros Ht Hp c s. destruct (operation_row t s (operation_id c)) as [row|] eqn:Eo.
  - unfold activate. fold c s. rewrite (operation_loaded t rs s (operation_id c) Ht), Eo. cbn [mbind res_bind fmap option_fmap option_map].
    rewrite (replay_of_checked c) by apply Hp. cbn [mbind res_bind]. destruct (operation_row_elem _ _ _ _ Eo) as (Hin & _). destruct (eh_commands _ _ Ht row Hin) as (c' & Hc').
    pose proof (replay_checks c (ar_check _ Hp)) as Hr.
    destruct (same_operation_decides t rs row c' (replay_of c) Ht Hc' Hr) as ([] & -> & _); [by left|by right].
  - rewrite (activate_cases t rs p Ht Hp Eo). fold c s. destruct (epoch_exists _ _ _ _) eqn:Ex; cbn [negb]; [|done]. destruct (expected_pointer _ _) eqn:Ep; cbn [negb]; [|done].
    pose proof (advance_cases t rs p Ht Hp Eo Ex Ep) as Ha. unfold append_owned in Ha. fold c s in Ha.
    assert (Hraise : forall err, advance t p (pointed s <$> pointer_of s t) (target_epoch_id c) = Raise err -> exists err,
      store_guard "config epoch activation failed" (advance t p (pointed s <$> pointer_of s t) (target_epoch_id c)) = Raise err).
    { intros err ->. destruct err; by eexists. }
    destruct (_append_pair_owned _ _ _) as [[[e|e|e e' m] a]|err]; cbn [mbind res_bind] in Ha; [|eapply Hraise; exact Ha..].
    destruct (safe_id _).
    + destruct Ha as (row & t' & -> & Ha). exists row, t'. split; [done|]. split; [done|]. destruct (ap_of _ _ _ _ _ _ Ha) as [_ _ Hs _ _ Htg _ _].
      assert (Hact : forall s', activations_of s' t' = activations_of s' t ++ (if bool_decide (row_scope row = s') then [row] else [])).
      { intros s'. rewrite <- activations_snoc. unfold activations_of. by rewrite (ap_history _ _ _ _ _ _ Ha). }
      fold c s in Hs. unfold pointer_of. split.
      * rewrite Hact, bool_decide_eq_true_2 by done. rewrite chain_end_snoc, Htg. do 2 f_equal. destruct (ap_chained _ _ _ _ _ _ Ha) as (_ & _ & _ & -> & _). done.
      * intros s' Hs'. rewrite Hact, bool_decide_eq_false_2 by congruence. by rewrite app_nil_r.
    + destruct Ha as (m & ->). by exists m.
Qed.

(** C27: an operation takes effect once.  After an activation was applied, and
    whatever calls follow, looking the command up and activating it again answer
    with the record of that activation and change nothing; so does every call
    with its scope and operation identifier, and one whose command differs in its
    target, revision, actor, proposal, kind, reason, version or review is
    answered as a conflict, if no two of the byte strings hashed for the applied
    command and for the command it is compared as have one digest. *)
Theorem activation_exactly_once t rs p rec t1 calls t2 l : epochs_hold t rs -> activation_ready p ->
  activate t p = Ok (ConfigEpochActivationApplied rec, t1) -> Forall call_ready calls -> epoch_run t1 calls = (t2, l) ->
  let c := pa_command p in
  resolve_operation t2 (replay_of c) = Ok (Some (ConfigEpochActivationDuplicate rec)) /\
  forall p', activation_ready p' -> cm_scope (pa_command p') = cm_scope c -> operation_id (pa_command p') = operation_id c ->
    let again := replay_of (pa_command p') in
    (activate t2 p' = Ok (ConfigEpochActivationDuplicate rec, t2) \/ activate t2 p' = Ok (ConfigEpochActivationOperationConflict rec, t2)) /\
    (again = replay_of c -> activate t2 p' = Ok (ConfigEpochActivationDuplicate rec, t2)) /\
    (again <> replay_of c -> collision_free (command_bytes c ++ command_bytes (retained again c)) ->
     activate t2 p' = Ok (ConfigEpochActivationOperationConflict rec, t2)).
Proof.
  intros Ht Hp E Hc Er c. pose proof (activate_step _ _ _ _ _ Ht Hp E) as (e & row & -> & Ha). destruct (run_later _ _ _ _ _ (ap_hold _ _ _ _ _ _ Ha) Hc Er) as (rs2 & L).
  pose proof (lt_hold _ _ _ _ _ L) as Ht2. destruct (lt_records _ _ _ _ _ L) as (k & Ek). pose proof (activation_of_app _ k _ _ (ap_of _ _ _ _ _ _ Ha)) as Hof. rewrite <- Ek in Hof.
  assert (Hrow : row ∈ config_epoch_activations t2).
  { destruct (lt_activations _ _ _ _ _ L) as (rows & -> & _). rewrite (ap_history _ _ _ _ _ _ Ha), !elem_of_app. left. right. by left. }
  fold c in Hof. pose proof (operation_found t2 rs2 row c Ht2 Hrow Hof) as Eo. split; [by eapply operation_resolved|].
  intros p' Hp' Es Eid again. pose proof (replay_of_checked _ (ar_check _ Hp')) as F1. pose proof (replay_checks _ (ar_check _ Hp')) as F2. unfold activate. rewrite Es, Eid, (operation_loaded t2 rs2 _ _ Ht2), Eo. cbn [mbind res_bind fmap option_fmap option_map].
  rewrite F1. cbn [mbind res_bind]. destruct (same_operation_decides t2 rs2 row c (replay_of (pa_command p')) Ht2 Hof F2) as (b & -> & B1 & B2). cbn [mbind res_bind].
  fold again in B1, B2. split; [destruct b; [by left|by right]|]. split; [by intros ->%B1|]. intros Hne Hfree. destruct b; [by destruct (Hne (B2 eq_refl Hfree))|done].
Qed.
End history.
