(* ===== verification/ConfigManagement.v ===== *)
(** * Managing the configuration of repositories

    Models [TransactionalConfigEpochStore] of [persistence/runtime_adapters.py],
    which gives every call a transaction of its own, and of the application
    [app/config_admission.py], [app/config_queries.py] and, of
    [app/config_management.py], registration and rollback.  A service is a
    program of requests to its ports: the authorizer, the admission worker, the
    clock and the store.  Metrics are left out. *)

From stdpp Require Import base gmap sets list sorting strings.
From Stdlib Require Import ZArith Lia.
From S2P Require Import Prelude Text PyFloat CanonicalJson Hashing Instants ConfigControl AuditEvents AuditChain AuditRepository Rollback ConfigEpochs ConfigEpochStore.

(** ** Outcomes

    A value, [ConfigEpochStoreUnavailable], or another exception. *)

Inductive outcome (A : Type) :=
  | Returned (a : A)
  | ConfigEpochStoreUnavailable
  | Raised (e : exn).
Arguments Returned {A} a.
Arguments ConfigEpochStoreUnavailable {A}.
Arguments Raised {A} e.

Section management.
Context `{Sha256} `{PolicyAdmission} `{EpochCoverageComparator C} {PolicyDiagnostic : Type}.

(** ** [TransactionalConfigEpochStore] *)

Inductive store_call : Type -> Type :=
  | store_register (draft : ValidatedEpochDraft) : store_call ConfigEpochRegistrationResult
  | store_register_operation (prepared : PreparedConfigEpochRegistration) : store_call ConfigEpochRegistrationOperationResult
  | store_load_active (scope : RepositoryScope) : store_call (option ActiveConfigEpochSnapshot)
  | store_load_epoch (scope : RepositoryScope) (epoch_id : pystr) : store_call (option ValidatedEpochDraft)
  | store_read_status (scope : RepositoryScope) (after_epoch_id : option pystr) (limit : Z) : store_call ConfigEpochStatus
  | store_resolve_operation (command : ConfigEpochReplayCommand) : store_call (option ConfigEpochActivationResult)
  | store_activate (prepared : PreparedConfigEpochActivation) : store_call ConfigEpochActivationResult.

(** The repository's method and the tables before the commit. *)
Definition store_call_result {A} (t : epoch_tables) (c : store_call A) : res (A * epoch_tables) :=
  match c in store_call A return res (A * epoch_tables) with
  | store_register draft => register t draft
  | store_register_operation prepared => register_operation t prepared
  | store_load_active scope => (fun a => (a, t)) <$> load_active t scope
  | store_load_epoch scope epoch_id => (fun a => (a, t)) <$> load_epoch t scope epoch_id
  | store_read_status scope after limit => (fun a => (a, t)) <$> read_status t scope after limit
  | store_resolve_operation command => (fun a => (a, t)) <$> resolve_operation t command
  | store_activate prepared => activate t prepared
  end.

Definition transactional {A} (t : epoch_tables) (c : store_call A) (f : fault) : outcome A * epoch_tables :=
  match f with
  | BeginFailed => (ConfigEpochStoreUnavailable, t)
  | _ =>
      match store_call_result t c with
      | Raise e => (if is_persistence_error e then ConfigEpochStoreUnavailable else Raised e, t)
      | Ok (a, t') =>
          match f with
          | NoFault => (Returned a, t')
          | CommitUnknown => (ConfigEpochStoreUnavailable, t')
          | _ => (ConfigEpochStoreUnavailable, t)
          end
      end
  end.

(** ** Programs *)

(** What the admission worker answers. *)
Inductive worker_answer :=
  | PolicyAdmissionUnavailable
  | PolicyRefused (diagnostics : list PolicyDiagnostic)
  | PolicyAdmitted (draft : ValidatedEpochDraft).

Inductive prog (A : Type) : Type :=
  | Ret (a : outcome A)
  | AllowsScope (actor : pystr) (scope : RepositoryScope) (k : bool -> prog A)
  | AdmitPolicy (source : list Z) (format : PolicySourceFormat) (k : worker_answer -> prog A)
  | Now (k : Z -> prog A)
  | StoreCall {B : Type} (c : store_call B) (k : outcome B -> prog A).
Arguments Ret {A} a.
Arguments AllowsScope {A} actor scope k.
Arguments AdmitPolicy {A} source format k.
Arguments Now {A} k.
Arguments StoreCall {A B} c k.

Fixpoint prog_then {A B} (p : prog A) (k : outcome A -> prog B) : prog B :=
  match p with
  | Ret a => k a
  | AllowsScope actor scope f => AllowsScope actor scope (fun x => prog_then (f x) k)
  | AdmitPolicy source format f => AdmitPolicy source format (fun x => prog_then (f x) k)
  | Now f => Now (fun x => prog_then (f x) k)
  | StoreCall c f => StoreCall c (fun x => prog_then (f x) k)
  end.

#[local] Instance prog_ret : MRet prog := fun A a => Ret (Returned a).
#[local] Instance prog_bind : MBind prog := fun A B k p =>
  prog_then p (fun o => match o with Returned a => k a | ConfigEpochStoreUnavailable => Ret ConfigEpochStoreUnavailable | Raised e => Ret (Raised e) end).

(** [try: .. except ConfigEpochStoreUnavailable]. *)
Definition attempt {A} (p : prog A) : prog (option A) :=
  prog_then p (fun o => match o with
    | Returned a => mret (Some a)
    | ConfigEpochStoreUnavailable => mret None
    | Raised e => Ret (Raised e)
    end).

Definition lift {A} (r : res A) : prog A := Ret match r with Ok a => Returned a | Raise e => Raised e end.
Definition allows_scope (actor : pystr) (scope : RepositoryScope) : prog bool := AllowsScope actor scope (fun b => Ret (Returned b)).
Definition policy_admission (source : list Z) (format : PolicySourceFormat) : prog worker_answer := AdmitPolicy source format (fun a => Ret (Returned a)).
Definition store {A} (c : store_call A) : prog A := StoreCall c (fun o => Ret o).

(** [_clock_timestamp(self._clock.now())], for a clock that gives aware
    datetimes. *)
Definition clock_timestamp : prog pystr := Now (fun t => Ret (Returned (isoformat_ms t))).

(** ** [config_admission.py] *)

Inductive ConfigAdmissionResult :=
  | ConfigAdmissionAccepted (draft : ValidatedEpochDraft)
  | ConfigAdmissionInvalid (diagnostics : list PolicyDiagnostic)
  | ConfigAdmissionForbidden
  | ConfigAdmissionUnavailable.

Definition ConfigAdmissionInvalid_check (diagnostics : list PolicyDiagnostic) : res unit :=
  raise_if match diagnostics with [] => true | _ => false end (ValueError (u "invalid config admission requires diagnostics")).

Definition admit_source (actor : pystr) (source : list Z) (source_format : PolicySourceFormat) : prog ConfigAdmissionResult :=
  admitted ← policy_admission source source_format;
  match admitted with
  | PolicyAdmissionUnavailable => mret ConfigAdmissionUnavailable
  | PolicyRefused diagnostics => lift (ConfigAdmissionInvalid_check diagnostics ;; Ok (ConfigAdmissionInvalid diagnostics))
  | PolicyAdmitted draft =>
      allowed ← allows_scope actor (draft_scope draft);
      mret (if (allowed : bool) then ConfigAdmissionAccepted draft else ConfigAdmissionForbidden)
  end.

(** ** [config_queries.py] *)

Inductive ConfigStatusResult := ConfigStatusAvailable (value : ConfigEpochStatus) | ConfigStatusForbidden | ConfigStatusUnavailable.
Inductive ConfigSourceResult :=
  | ConfigSourceAvailable (value : ValidatedEpochDraft)
  | ConfigSourceForbidden
  | ConfigSourceNotFound
  | ConfigSourceUnavailable.

Definition query_require_epoch_id (epoch_id : pystr) : res unit :=
  raise_if (negb (is_sha256_hex epoch_id)) (ValueError (u "config epoch cursor is invalid")).

Definition status (actor : pystr) (scope : RepositoryScope) (after_epoch_id : option pystr) (limit : Z) : prog ConfigStatusResult :=
  _ ← lift match after_epoch_id with Some e => query_require_epoch_id e | None => Ok tt end;
  _ ← lift (raise_if (negb ((1 <=? limit) && (limit <=? MAX_CONFIG_EPOCH_PAGE_SIZE)))
              (ValueError (u "config epoch page size is outside its admitted bound")));
  allowed ← allows_scope actor scope;
  if negb allowed then mret ConfigStatusForbidden
  else
    value ← attempt (store (store_read_status scope after_epoch_id limit));
    mret match value with
         | None => ConfigStatusUnavailable
         | Some value => if bool_decide (st_scope value <> scope) then ConfigStatusUnavailable else ConfigStatusAvailable value
         end.

Definition source (actor : pystr) (scope : RepositoryScope) (epoch_id : pystr) : prog ConfigSourceResult :=
  _ ← lift (query_require_epoch_id epoch_id);
  allowed ← allows_scope actor scope;
  if negb allowed then mret ConfigSourceForbidden
  else
    value ← attempt (store (store_load_epoch scope epoch_id));
    mret match value with
         | None => ConfigSourceUnavailable
         | Some None => ConfigSourceNotFound
         | Some (Some value) =>
             if bool_decide (draft_scope value <> scope) || bool_decide (draft_epoch_id value <> epoch_id)
             then ConfigSourceUnavailable else ConfigSourceAvailable value
         end.

(** ** [config_management.py] *)

Record RegisterConfigEpoch := { rc_actor : pystr; rc_source : list Z; rc_source_format : PolicySourceFormat; rc_operation_id : pystr }.

Record RollbackConfigEpoch := {
  rk_actor : pystr;
  rk_scope : RepositoryScope;
  rk_target_epoch_id : pystr;
  rk_expected_revision : Z;
  rk_operation_id : pystr;
  rk_reason : pystr;
}.

Definition RollbackConfigEpoch_check (c : RollbackConfigEpoch) : res unit := validate_rollback_reason (rk_reason c).

Inductive ConfigRegistrationState := reg_created | reg_duplicate | reg_invalid | reg_forbidden | reg_conflict | reg_unavailable.
#[export] Instance ConfigRegistrationState_eq_dec : EqDecision ConfigRegistrationState.
Proof. solve_decision. Defined.

Record ConfigRegistrationOutcome := { ro_state : ConfigRegistrationState; ro_epoch_id : option pystr; ro_diagnostics : list PolicyDiagnostic }.

Definition ConfigRegistrationOutcome_check (o : ConfigRegistrationOutcome) : res unit :=
  raise_if (negb (eqb (bool_decide (ro_state o ∈ [reg_created; reg_duplicate])) (negb (bool_decide (ro_epoch_id o = None)))))
    (ValueError (u "accepted registration outcome requires exactly one epoch id")) ;;
  raise_if (negb (eqb (bool_decide (ro_state o = reg_invalid)) match ro_diagnostics o with [] => false | _ => true end))
    (ValueError (u "only invalid registration outcomes carry diagnostics")).

Inductive ConfigActivationState :=
  | applied_state | duplicate_state | forbidden_state | revision_conflict_state | target_unavailable_state | operation_conflict_state
  | attestation_invalid_state | legacy_new_operation_unsupported_state | coverage_reducing_state | coverage_unproven_state | unavailable_state.
#[export] Instance ConfigActivationState_eq_dec : EqDecision ConfigActivationState.
Proof. solve_decision. Defined.

Record ConfigActivationOutcome := { ao_state : ConfigActivationState; ao_epoch_id : option pystr; ao_revision : option Z }.

Definition ConfigActivationOutcome_check (o : ConfigActivationOutcome) : res unit :=
  raise_if (negb (eqb (bool_decide (ao_state o ∈ [applied_state; duplicate_state]))
                      (negb (bool_decide (ao_epoch_id o = None)) && negb (bool_decide (ao_revision o = None)))))
    (ValueError (u "accepted activation outcome requires epoch id and revision")).

Definition registration_outcome (state : ConfigRegistrationState) (epoch_id : option pystr) (diagnostics : list PolicyDiagnostic)
    : prog ConfigRegistrationOutcome :=
  lift (checked ConfigRegistrationOutcome_check {| ro_state := state; ro_epoch_id := epoch_id; ro_diagnostics := diagnostics |}).

Definition observe_activation (state : ConfigActivationState) (epoch_id : option pystr) (revision : option Z) : prog ConfigActivationOutcome :=
  lift (checked ConfigActivationOutcome_check {| ao_state := state; ao_epoch_id := epoch_id; ao_revision := revision |}).

Definition register_config (command : RegisterConfigEpoch) : prog ConfigRegistrationOutcome :=
  admitted ← admit_source (rc_actor command) (rc_source command) (rc_source_format command);
  match admitted with
  | ConfigAdmissionUnavailable => registration_outcome reg_unavailable None []
  | ConfigAdmissionInvalid diagnostics => registration_outcome reg_invalid None diagnostics
  | ConfigAdmissionForbidden => registration_outcome reg_forbidden None []
  | ConfigAdmissionAccepted draft =>
      occurred_at ← clock_timestamp;
      registration ← lift (checked ConfigEpochRegistrationCommand_check
        {| rg_draft := draft; rg_operation_id := rc_operation_id command; rg_actor := rc_actor command; rg_occurred_at := occurred_at |});
      prepared ← lift (prepare_config_epoch_registration registration);
      result ← attempt (store (store_register_operation prepared));
      match result with
      | None => registration_outcome reg_unavailable None []
      | Some (ConfigEpochRegistrationCommitted record) => registration_outcome reg_created (Some (rr_epoch_id record)) []
      | Some (ConfigEpochRegistrationReplay record) => registration_outcome reg_duplicate (Some (rr_epoch_id record)) []
      | Some (ConfigEpochRegistrationOperationConflict _) => registration_outcome reg_conflict None []
      end
  end.

Definition _activation_outcome (result : ConfigEpochActivationResult) : prog ConfigActivationOutcome :=
  match result with
  | ConfigEpochActivationApplied r => observe_activation applied_state (Some (ac_epoch_id (rec_active r))) (Some (ac_revision (rec_active r)))
  | ConfigEpochActivationDuplicate r => observe_activation duplicate_state (Some (ac_epoch_id (rec_active r))) (Some (ac_revision (rec_active r)))
  | ConfigEpochActivationRevisionConflict _ => observe_activation revision_conflict_state None None
  | ConfigEpochActivationTargetUnavailable => observe_activation target_unavailable_state None None
  | ConfigEpochActivationOperationConflict _ => observe_activation operation_conflict_state None None
  end.

(** The [try] block of [rollback]: a [return] inside it, or what follows. *)
Definition rollback_admission (comparator : option C) (command : RollbackConfigEpoch)
    : prog (ConfigActivationOutcome + (ActiveConfigEpochSnapshot * ValidatedEpochDraft * RollbackAdmission)) :=
  replayed ← lift (checked ConfigEpochReplayCommand_check {|
    rp_scope := rk_scope command; rp_target_epoch_id := rk_target_epoch_id command; rp_expected_revision := Some (rk_expected_revision command);
    rp_operation_id := rk_operation_id command; rp_actor := rk_actor command; rp_proposal_manifest_id := None;
    rp_mutation_kind := rollback_kind; rp_reason := Some (rk_reason command); rp_activation_version := 1; rp_review_operation_id := None |});
  replay ← store (store_resolve_operation replayed);
  match replay with
  | Some replay => o ← _activation_outcome replay; mret (inl o)
  | None =>
      active ← store (store_load_active (rk_scope command));
      match active with
      | None => o ← observe_activation revision_conflict_state None None; mret (inl o)
      | Some active =>
          target ← store (store_load_epoch (rk_scope command) (rk_target_epoch_id command));
          let unavailable := o ← observe_activation target_unavailable_state None None; mret (inl o) in
          match target with
          | None => unavailable
          | Some target =>
              if bool_decide (draft_scope target <> rk_scope command) || bool_decide (draft_epoch_id target <> rk_target_epoch_id command)
              then unavailable
              else
                rollback ← lift (checked RollbackCommand_check {|
                  rb_scope := rk_scope command; rb_active_epoch_id := ac_epoch_id (sn_active active); rb_target_epoch_id := draft_epoch_id target;
                  rb_actor := rk_actor command; rb_reason := rk_reason command |});
                admission ← lift match comparator with
                                 | Some c => admit_rollback rollback c
                                 | None => admit_rollback rollback (Build_ConservativeEpochCoverageComparator (sn_draft active) target)
                                 end;
                mret (inr (active, target, admission))
          end
      end
  end.

Definition rollback (comparator : option C) (command : RollbackConfigEpoch) : prog ConfigActivationOutcome :=
  allowed ← allows_scope (rk_actor command) (rk_scope command);
  if negb allowed then observe_activation forbidden_state None None
  else
    block ← attempt (rollback_admission comparator command);
    match block with
    | None => observe_activation unavailable_state None None
    | Some (inl o) => mret o
    | Some (inr (_, _, RollbackRejected code)) =>
        observe_activation match code with
                           | coverage_reducing => coverage_reducing_state
                           | coverage_unavailable => unavailable_state
                           | _ => coverage_unproven_state
                           end None None
    | Some (inr (active, target, RollbackAllowed relation)) =>
        occurred_at ← clock_timestamp;
        activation ← lift (checked ConfigEpochActivationCommand_check {|
          cm_scope := rk_scope command; target_epoch_id := draft_epoch_id target; expected_revision := Some (rk_expected_revision command);
          operation_id := rk_operation_id command; cm_actor := rk_actor command; occurred_at := occurred_at; proposal_manifest_id := None;
          authority_evidence_hash := None; authority_observed_at := None; mutation_kind := rollback_kind;
          expected_active_epoch_id := Some (ac_epoch_id (sn_active active)); coverage_relation := Some relation;
          cm_reason := Some (rk_reason command); activation_version := 1; review_operation_id := None |});
        prepared ← lift (prepare_config_epoch_activation activation);
        result ← attempt (store (store_activate prepared));
        match result with
        | None => observe_activation unavailable_state None None
        | Some result => _activation_outcome result
        end
    end.
End management.

Arguments Ret {PolicyDiagnostic A} a.
Arguments AllowsScope {PolicyDiagnostic A} actor scope k.
Arguments AdmitPolicy {PolicyDiagnostic A} source format k.
Arguments Now {PolicyDiagnostic A} k.
Arguments StoreCall {PolicyDiagnostic A B} c k.
