(* ===== verification/ConfigManagementFacts.v ===== *)
(** * What managing configurations promises

    Executions of a service, with any calls of other clients before and after
    each of its own transactions and any fault of the database in each of them.
    A rollback that takes effect never reduces the validation of a change; an
    outcome the client could not learn is learned by asking again; a
    registration that is reported is stored. *)

From stdpp Require Import base gmap sets list sorting strings.
From Stdlib Require Import ZArith Lia.
From S2P Require Import Prelude Text PyFloat CanonicalJson Hashing JsonLoads JsonRoundtrip Instants ConfigControl AuditEvents AuditChain AuditFacts AuditChainFacts AuditLedger AuditPages AuditRepository AuditRepositoryFacts AuditStore TableFacts.
From S2P Require Import Rollback RollbackFacts ConfigEpochs ConfigEpochStore ConfigEpochFacts ConfigEpochSteps ConfigEpochReplay ConfigEpochHistory ConfigManagement.

Section facts.
Context `{Sha256} `{PolicyAdmission} `{EpochCoverageComparator C} `{!SoundComparator C} {PolicyDiagnostic : Type}.
Abbreviation prog := (prog (PolicyDiagnostic := PolicyDiagnostic)).
#[local] Existing Instance prog_ret.
#[local] Existing Instance prog_bind.

(** ** Executions *)

(** Calls of other clients. *)
Definition others (t t' : epoch_tables) : Prop := exists calls l, Forall call_ready calls /\ epoch_run t calls = (t', l).

(** The activations a transaction of the client committed. *)
Definition new_records (t t' : epoch_tables) : list ConfigEpochActivationRecord :=
  record_of <$> drop (length (config_epoch_activations t)) (config_epoch_activations t').

(** [executes p t own t' o]: run from [t] among other clients, the program can
    end in [t'] with the outcome [o], having committed the activations [own]. *)
Fixpoint executes {A} (p : prog A) (t : epoch_tables) (own : list ConfigEpochActivationRecord) (t' : epoch_tables) (o : outcome A) : Prop :=
  match p with
  | Ret a => others t t' /\ own = [] /\ o = a
  | AllowsScope _ _ k => exists b, executes (k b) t own t' o
  | AdmitPolicy source format k => exists a,
      match a with PolicyAdmitted d => admit_policy_document source format = Some d /\ draft_ok d | _ => True end /\ executes (k a) t own t' o
  | Now k => exists now, executes (k now) t own t' o
  | StoreCall c k => exists t1 f t2 own', others t t1 /\ (transactional t1 c f).2 = t2 /\ own = new_records t1 t2 ++ own' /\
      executes (k (transactional t1 c f).1) t2 own' t' o
  end.

Lemma others_later t rs t' : epochs_hold t rs -> others t t' -> exists rs' l, later t rs l t' rs'.
Proof. intros Ht (calls & l & Hc & E). destruct (run_later _ _ _ _ _ Ht Hc E) as (rs' & Hl). by exists rs', l. Qed.

Lemma executes_then {A B} (p : prog A) (k : outcome A -> prog B) t own t' o :
  executes (prog_then p k) t own t' o -> exists own1 t1 o1 own2, executes p t own1 t1 o1 /\ executes (k o1) t1 own2 t' o /\ own = own1 ++ own2.
Proof.
  revert t own. induction p as [a|actor scope f IH|src fmt f IH|f IH|X c f IH]; intros t own; cbn [prog_then executes].
  - intros Hk. exists [], t, a, own. split_and!; try done. by exists [], [].
  - intros (b & Hb). destruct (IH b t own Hb) as (w1 & t1 & o1 & w2 & H1' & H2' & ->). exists w1, t1, o1, w2. split_and!; [by exists b|done|done].
  - intros (a & Ha & Hb). destruct (IH a t own Hb) as (w1 & t1 & o1 & w2 & H1' & H2' & ->). exists w1, t1, o1, w2. split_and!; [by exists a|done|done].
  - intros (n & Hn). destruct (IH n t own Hn) as (w1 & t1 & o1 & w2 & H1' & H2' & ->). exists w1, t1, o1, w2. split_and!; [by exists n|done|done].
  - intros (t1 & f' & t2 & own' & Ho & Et & -> & He). destruct (IH _ _ _ He) as (w1 & t3 & o1 & w2 & H1' & H2' & ->).
    exists (new_records t1 t2 ++ w1), t3, o1, w2. split_and!; [by exists t1, f', t2, w1|done|by rewrite app_assoc].
Qed.

(** An execution of [x ← p; k x] is one of [p], and then of [k]. *)
Lemma executes_bind {A B} (p : prog A) (k : A -> prog B) t own t' o :
  executes (p ≫= k) t own t' o ->
  (exists own1 t1 a own2, executes p t own1 t1 (Returned a) /\ executes (k a) t1 own2 t' o /\ own = own1 ++ own2) \/
  (exists t1 e, executes p t own t1 (Raised e) /\ others t1 t' /\ o = Raised e) \/
  (exists t1, executes p t own t1 ConfigEpochStoreUnavailable /\ others t1 t' /\ o = ConfigEpochStoreUnavailable).
Proof.
  intros (w1 & t1 & o1 & w2 & E1 & E2 & ->)%executes_then. destruct o1 as [a| |e].
  - left. by exists w1, t1, a, w2.
  - right. right. destruct E2 as (? & -> & ->). exists t1. by rewrite app_nil_r.
  - right. left. destruct E2 as (? & -> & ->). exists t1, e. by rewrite app_nil_r.
Qed.

Lemma executes_attempt {A} (p : prog A) t own t' o :
  executes (attempt p) t own t' o ->
  exists t1 o1, executes p t own t1 o1 /\ others t1 t' /\
    o = match o1 with Returned a => Returned (Some a) | ConfigEpochStoreUnavailable => Returned None | Raised e => Raised e end.
Proof.
  intros (w1 & t1 & o1 & w2 & E1 & E2 & ->)%executes_then. exists t1, o1. destruct o1; destruct E2 as (? & -> & ->); by rewrite app_nil_r.
Qed.

Lemma executes_lift {A} (r : res A) t own t' o : executes (lift r) t own t' o -> others t t' /\ own = [] /\ o = match r with Ok a => Returned a | Raise e => Raised e end.
Proof. by destruct r. Qed.

Lemma executes_store {A} (c : store_call A) t own t' o :
  executes (store c) t own t' o -> exists t1 f t2, others t t1 /\ transactional t1 c f = (o, t2) /\ others t2 t' /\ own = new_records t1 t2.
Proof.
  intros (t1 & f & t2 & own' & H1' & <- & -> & (H2' & -> & ->)). exists t1, f, (transactional t1 c f).2. split_and!; [done|by destruct (transactional t1 c f)|done|by rewrite app_nil_r].
Qed.

Lemma new_records_refl t : new_records t t = [].
Proof. unfold new_records. by rewrite drop_all. Qed.

(** A call that only reads. *)
Definition reads {A} (c : store_call A) : Prop := forall t a t', store_call_result t c = Ok (a, t') -> t' = t.

Lemma executes_read {A} (c : store_call A) t rs own t' a : epochs_hold t rs -> reads c -> executes (store c) t own t' (Returned a) ->
  own = [] /\ exists t1 rs1 rs' l1 l2, later t rs l1 t1 rs1 /\ later t1 rs1 l2 t' rs' /\ store_call_result t1 c = Ok (a, t1).
Proof.
  intros Ht Hr (t1 & f & t2 & O1 & E & O2 & ->)%executes_store. destruct (others_later _ _ _ Ht O1) as (rs1 & l1 & L1).
  assert (store_call_result t1 c = Ok (a, t2)) as Ec.
  { unfold transactional in E. destruct f, (store_call_result t1 c) as [[x t3]|e]; try done; try (destruct (is_persistence_error e); done). by injection E as -> ->. }
  pose proof (Hr _ _ _ Ec) as ->. split; [apply new_records_refl|]. destruct (others_later _ _ _ (lt_hold _ _ _ _ _ L1) O2) as (rs2 & l2 & L2).
  by exists t1, rs1, rs2, l1, l2.
Qed.

Lemma load_active_reads s : reads (store_load_active s).
Proof. intros t a t' (x & _ & [= -> ->])%fmap_Ok. done. Qed.
Lemma load_epoch_reads s id : reads (store_load_epoch s id).
Proof. intros t a t' (x & _ & [= -> ->])%fmap_Ok. done. Qed.
Lemma resolve_reads r : reads (store_resolve_operation r).
Proof. intros t a t' (x & _ & [= -> ->])%fmap_Ok. done. Qed.
Lemma read_status_reads s e n : reads (store_read_status s e n).
Proof. intros t a t' (x & _ & [= -> ->])%fmap_Ok. done. Qed.

(** Whatever its outcome, a call that only reads changes nothing. *)
Lemma executes_read_own {A} (c : store_call A) t rs own t' o : epochs_hold t rs -> reads c -> executes (store c) t own t' o ->
  own = [] /\ exists rs' l, later t rs l t' rs'.
Proof.
  intros Ht Hr (t1 & f & t2 & O1 & E & O2 & ->)%executes_store. destruct (others_later _ _ _ Ht O1) as (rs1 & l1 & L1).
  assert (t2 = t1) as ->.
  { unfold transactional in E. destruct f, (store_call_result t1 c) as [[x t3]|e] eqn:Ec; try congruence; injection E as _ <-; by eapply Hr. }
  split; [apply new_records_refl|]. destruct (others_later _ _ _ (lt_hold _ _ _ _ _ L1) O2) as (rs2 & l2 & L2). exists rs2, (l1 ++ l2). by eapply later_trans.
Qed.

(** ** Drafts stay *)

Lemma stored_later t rs l t' rs' s id d : later t rs l t' rs' -> stored_draft t s id d -> stored_draft t' s id d.
Proof. intros [_ _ (m & E) _] [H1' H2' H3' H4' H5']. split; try done. unfold registered in *. rewrite E. apply elem_of_app. by left. Qed.

Lemma loaded_active t rs s a : epochs_hold t rs -> load_active t s = Ok (Some a) ->
  ac_scope (sn_active a) = s /\ stored_draft t s (ac_epoch_id (sn_active a)) (sn_draft a).
Proof.
  intros Ht E. pose proof (active_loaded t rs s Ht) as Ha. destruct (pointer_of s t) as [p|]; [|congruence]. destruct Ha as (d & Hd & Ea). rewrite Ea in E. by injection E as <-.
Qed.

Lemma loaded_epoch t rs s id d : epochs_hold t rs -> load_epoch t s id = Ok (Some d) -> stored_draft t s id d.
Proof.
  intros Ht. unfold load_epoch. intros ([] & _ & E%store_guard_Ok)%bind_Ok. pose proof (epoch_loaded t rs s id Ht) as Hd.
  destruct (epoch_exists _ _ _ _); [|congruence]. destruct Hd as (d' & E' & Hd). congruence.
Qed.

(** ** Activating through the store *)

(** The activation of a command, as the tables keep it. *)
Record recorded (t : epoch_tables) (rs : list AuditEventRecord) (c : ConfigEpochActivationCommand) (rec : ConfigEpochActivationRecord) : Prop := {
  rd_row : exists row ptr, row ∈ config_epoch_activations t /\ rec = record_of row /\ activation_of rs row c /\ chained ptr [row];
}.

Lemma recorded_later t rs l t' rs' c rec : later t rs l t' rs' -> recorded t rs c rec -> recorded t' rs' c rec.
Proof.
  intros [_ (k & ->) _ (rows & Er & _)] [(row & ptr & H1' & H2' & H3' & H4')]. split. exists row, ptr. split_and!; [|done|by apply activation_of_app|done].
  rewrite Er. apply elem_of_app. by left.
Qed.

(** What a record says of a command that expected an active epoch. *)
Lemma recorded_previous t rs c rec id : recorded t rs c rec -> mutation_kind c = rollback_kind -> expected_active_epoch_id c = Some id ->
  rec_scope rec = cm_scope c /\ rec_operation_id rec = operation_id c /\ ac_epoch_id (rec_active rec) = target_epoch_id c /\
  exists a, rec_previous rec = Some a /\ ac_epoch_id a = id.
Proof.
  intros [(row & ptr & _ & -> & [_ _ Hs Ho _ Ht Hr _] & (C1 & C2 & _))] Ek Ei. specialize (Hr Ek). rewrite Ei, C1 in Hr. split_and!; try done.
  cbn [record_of rec_previous]. rewrite C2, C1, Hr. destruct ptr as [[x v]|]; [|done]. injection Hr as ->. cbn. by eexists.
Qed.

Lemma executes_activate p t rs own t' o : epochs_hold t rs -> activation_ready p -> executes (store (store_activate p)) t own t' o ->
  exists rs' l, later t rs l t' rs' /\
    match o with
    | Returned (ConfigEpochActivationApplied rec) => own = [rec] /\ recorded t' rs' (pa_command p) rec
    | ConfigEpochStoreUnavailable => own = [] \/ exists rec, own = [rec] /\ recorded t' rs' (pa_command p) rec
    | _ => own = []
    end.
Proof.
  intros Ht Hp (t1 & f & t2 & O1 & E & O2 & ->)%executes_store. destruct (others_later _ _ _ Ht O1) as (rs1 & l1 & L1). pose proof (lt_hold _ _ _ _ _ L1) as Ht1.
  assert (Hstay : t2 = t1 -> match o with Returned (ConfigEpochActivationApplied _) => False | _ => True end -> exists rs' l, later t rs l t' rs' /\
    match o with Returned (ConfigEpochActivationApplied rec) => new_records t1 t2 = [rec] /\ recorded t' rs' (pa_command p) rec
    | ConfigEpochStoreUnavailable => new_records t1 t2 = [] \/ exists rec, new_records t1 t2 = [rec] /\ recorded t' rs' (pa_command p) rec | _ => new_records t1 t2 = [] end).
  { intros -> Ho. destruct (others_later _ _ _ Ht1 O2) as (rs2 & l2 & L2). exists rs2, (l1 ++ l2). split; [by eapply later_trans|]. rewrite new_records_refl. destruct o as [[]| |]; try done. by left. }
  unfold transactional in E. assert (f = BeginFailed \/ f <> BeginFailed) as [->|Hf] by (destruct f; auto); [injection E as <- <-; by apply Hstay|].
  cbn [store_call_result] in E. destruct (activate t1 p) as [[r t3]|e] eqn:Ea.
  2: { destruct f; try done; destruct (is_persistence_error e); injection E as <- <-; by apply Hstay. }
  pose proof (activate_step _ _ _ _ _ Ht1 Hp Ea) as Hr. destruct r as [rec| | | |]; [|subst t3; destruct f; try done; injection E as <- <-; by apply Hstay..].
  destruct Hr as (e & row & -> & Ha). assert (Hnew : new_records t1 t3 = [record_of row]). { unfold new_records. by rewrite (ap_history _ _ _ _ _ _ Ha), drop_app_length. }
  assert (Hrec : recorded t3 (rs1 ++ [e]) (pa_command p) (record_of row)).
  { split. exists row, (pointer_of (cm_scope (pa_command p)) t1). split_and!; [|done|apply Ha|apply Ha]. rewrite (ap_history _ _ _ _ _ _ Ha). apply elem_of_app. right. by left. }
  assert (L3 : later t1 rs1 [record_of row] t3 (rs1 ++ [e])).
  { split; [apply Ha|by eexists|by rewrite (ap_epochs _ _ _ _ _ _ Ha)|]. exists [row]. by rewrite (ap_history _ _ _ _ _ _ Ha). }
  assert (Hgo : t2 = t3 -> exists rs' l, later t rs l t' rs' /\ new_records t1 t2 = [record_of row] /\ recorded t' rs' (pa_command p) (record_of row)).
  { intros ->. destruct (others_later _ _ _ (lt_hold _ _ _ _ _ L3) O2) as (rs2 & l2 & L2). exists rs2, (l1 ++ ([record_of row] ++ l2)).
    split; [eapply later_trans; [done|by eapply later_trans]|]. split; [done|]. by eapply recorded_later. }
  destruct f; try done; injection E as <- <-; [|by apply Hstay|].
  - destruct (Hgo eq_refl) as (rs' & l & L & Hn & Hr). by exists rs', l.
  - destruct (Hgo eq_refl) as (rs' & l & L & Hn & Hr). exists rs', l. split; [done|]. right. by eexists.
Qed.

(** ** The rollback service *)

Definition is_state (state : ConfigActivationState) (o : outcome ConfigActivationOutcome) : Prop :=
  o = Returned {| ao_state := state; ao_epoch_id := None; ao_revision := None |}.

Definition reports (state : ConfigActivationState) (rec : ConfigEpochActivationRecord) (o : outcome ConfigActivationOutcome) : Prop :=
  o = Returned {| ao_state := state; ao_epoch_id := Some (ac_epoch_id (rec_active rec)); ao_revision := Some (ac_revision (rec_active rec)) |}.

Lemma executes_observe state t own t' o : state ∉ [applied_state; duplicate_state] ->
  executes (observe_activation state None None : prog _) t own t' o -> others t t' /\ own = [] /\ is_state state o.
Proof.
  intros Hs. unfold observe_activation. intros (Ho & -> & ->)%executes_lift. unfold checked, ConfigActivationOutcome_check. cbn [ao_state ao_epoch_id ao_revision].
  rewrite (bool_decide_eq_false_2 _ Hs). done.
Qed.

(** How a result of the store is reported. *)
Definition reported (result : ConfigEpochActivationResult) (o : outcome ConfigActivationOutcome) : Prop :=
  match result with
  | ConfigEpochActivationApplied r => reports applied_state r o
  | ConfigEpochActivationDuplicate r => reports duplicate_state r o
  | ConfigEpochActivationRevisionConflict _ => is_state revision_conflict_state o
  | ConfigEpochActivationTargetUnavailable => is_state target_unavailable_state o
  | ConfigEpochActivationOperationConflict _ => is_state operation_conflict_state o
  end.

Lemma executes_outcome result t own t' o :
  executes (_activation_outcome result : prog _) t own t' o -> others t t' /\ own = [] /\ reported result o.
Proof.
  destruct result; cbn [_activation_outcome reported]; try (apply executes_observe; by apply (bool_decide_unpack _); vm_compute).
  all: by intros (Ho & -> & ->)%executes_lift.
Qed.

(** The state of an execution that has reached [t']. *)
Definition reached (t : epoch_tables) (rs : list AuditEventRecord) (t' : epoch_tables) : Prop := exists rs' l, later t rs l t' rs'.

Lemma reached_others t rs t1 t' : reached t rs t1 -> others t1 t' -> reached t rs t'.
Proof. intros (rs1 & l1 & L1) O. destruct (others_later _ _ _ (lt_hold _ _ _ _ _ L1) O) as (rs2 & l2 & L2). exists rs2, (l1 ++ l2). by eapply later_trans. Qed.

Lemma reached_trans t rs rs1 l1 t1 t' : later t rs l1 t1 rs1 -> reached t1 rs1 t' -> reached t rs t'.
Proof. intros L1 (rs2 & l2 & L2). exists rs2, (l1 ++ l2). by eapply later_trans. Qed.

Lemma resolved_operation t r result : resolve_operation t r = Ok (Some result) -> exists rec,
  result = ConfigEpochActivationDuplicate rec \/ result = ConfigEpochActivationOperationConflict rec.
Proof.
  unfold resolve_operation. intros E%store_guard_Ok. apply bind_Ok in E as ([rec|] & _ & E); [|done]. apply bind_Ok in E as (b & _ & [= <-]). exists rec. destruct b; auto.
Qed.

(** What a comparator given to the service promises of the drafts it is asked
    about. *)
Definition comparator_ok (comparator : option C) : Prop := match comparator with Some c => forall active target, compares c active target | None => True end.

Definition not_applied (o : ConfigActivationOutcome) : Prop := ao_state o <> applied_state.

Lemma reported_not_applied result o : reported result (Returned o) -> match result with ConfigEpochActivationApplied _ => True | _ => not_applied o end.
Proof. destruct result; cbn; unfold reports, is_state, not_applied; try done; by intros [= ->]. Qed.

(** An execution that committed nothing and gave no value. *)
Definition failed {A} (t : epoch_tables) (rs : list AuditEventRecord) (own : list ConfigEpochActivationRecord) (t' : epoch_tables) (o : outcome A) : Prop :=
  own = [] /\ reached t rs t' /\ match o with Returned _ => False | _ => True end.

Lemma exec_lift {A B} (r : res A) (k : A -> prog B) t rs own t' o : epochs_hold t rs -> executes (lift r ≫= k) t own t' o ->
  (exists a t1 rs1 l1, r = Ok a /\ later t rs l1 t1 rs1 /\ executes (k a) t1 own t' o) \/ failed t rs own t' o.
Proof.
  intros Ht [(w1 & t1 & a & w2 & (O1 & -> & Er)%executes_lift & E & ->)|[(t1 & e & (O1 & -> & _)%executes_lift & O2 & ->)|(t1 & (O1 & -> & Er)%executes_lift & _)]]%executes_bind.
  - left. destruct (others_later _ _ _ Ht O1) as (rs1 & l1 & L1). destruct r as [x|e]; [|done]. injection Er as ->. by exists x, t1, rs1, l1.
  - right. split_and!; [done| |done]. eapply reached_others; [by apply (others_later _ _ _ Ht)|done].
  - by destruct r.
Qed.

Lemma exec_read {A B} (c : store_call A) (k : A -> prog B) t rs own t' o : epochs_hold t rs -> reads c -> executes (store c ≫= k) t own t' o ->
  (exists a t0 rs0 l0 t1 rs1 l1, store_call_result t0 c = Ok (a, t0) /\ later t rs l0 t0 rs0 /\ later t0 rs0 l1 t1 rs1 /\ executes (k a) t1 own t' o) \/
  failed t rs own t' o.
Proof.
  intros Ht Hr [(w1 & t1 & a & w2 & E1 & E & ->)|[(t1 & e & E1 & O2 & ->)|(t1 & E1 & O2 & ->)]]%executes_bind.
  - left. destruct (executes_read c t rs w1 t1 a Ht Hr E1) as (-> & t0 & rs0 & rs1 & l0 & l1 & L0 & L1 & Ec). by exists a, t0, rs0, l0, t1, rs1, l1.
  - right. destruct (executes_read_own c t rs own t1 _ Ht Hr E1) as (-> & R). split_and!; [done|by eapply reached_others|done].
  - right. destruct (executes_read_own c t rs own t1 _ Ht Hr E1) as (-> & R). split_and!; [done|by eapply reached_others|done].
Qed.

(** An execution that committed nothing; a value it gave satisfies [P]. *)
Definition settled {A} (P : epoch_tables -> A -> Prop) (t : epoch_tables) (rs : list AuditEventRecord) (own : list ConfigEpochActivationRecord)
    (t' : epoch_tables) (o : outcome A) : Prop :=
  own = [] /\ reached t rs t' /\ match o with Returned x => P t' x | _ => True end.

Lemma settled_failed {A} (P : epoch_tables -> A -> Prop) t rs own t' o : failed t rs own t' o -> settled P t rs own t' o.
Proof. intros (? & ? & Hf). split_and!; [done|done|]. by destruct o. Qed.

Lemma settled_back {A} (P : epoch_tables -> A -> Prop) t rs l t1 rs1 own t' o : later t rs l t1 rs1 -> settled P t1 rs1 own t' o -> settled P t rs own t' o.
Proof. intros L (? & ? & ?). split_and!; [done|by eapply reached_trans|done]. Qed.

Lemma observe_ends state : state ∉ [applied_state; duplicate_state] ->
  forall t own t' o, executes (observe_activation state None None : prog _) t own t' o -> others t t' /\ own = [] /\ forall out, o = Returned out -> not_applied out.
Proof.
  intros Hs t own t' o (O & -> & E)%executes_observe; [|done]. split_and!; [done|done|]. unfold is_state in E. intros out ->. injection E as ->. unfold not_applied. cbn. set_solver.
Qed.

(** What the [try] block of a rollback establishes. *)
Definition admission_result (command : RollbackConfigEpoch) (t : epoch_tables)
    (x : ConfigActivationOutcome + (ActiveConfigEpochSnapshot * ValidatedEpochDraft * RollbackAdmission)) : Prop :=
  match x with
  | inl out => not_applied out
  | inr (active, target, admission) =>
      stored_draft t (rk_scope command) (ac_epoch_id (sn_active active)) (sn_draft active) /\
      stored_draft t (rk_scope command) (rk_target_epoch_id command) target /\
      (forall rel, admission = RollbackAllowed rel -> never_reduces (sn_draft active) target)
  end.

(** Ending the block with an outcome. *)
Lemma settled_return command (p : prog ConfigActivationOutcome) t rs own t' o :
  epochs_hold t rs -> (forall own t' o, executes p t own t' o -> others t t' /\ own = [] /\ forall out, o = Returned out -> not_applied out) ->
  executes (x ← p; mret (inl x)) t own t' o -> settled (admission_result command) t rs own t' o.
Proof.
  intros Ht Hp [(w1 & t1 & a & w2 & E1 & E & ->)|[(t1 & e & E1 & O2 & ->)|(t1 & E1 & O2 & ->)]]%executes_bind; destruct (Hp _ _ _ E1) as (O1 & -> & Ho).
  - destruct E as (O2 & -> & ->). split_and!; [done| |by apply Ho]. eapply reached_others; [by apply (others_later _ _ _ Ht)|done].
  - split_and!; [done| |done]. eapply reached_others; [by apply (others_later _ _ _ Ht)|done].
  - split_and!; [done| |done]. eapply reached_others; [by apply (others_later _ _ _ Ht)|done].
Qed.

Lemma settled_observe command state t rs own t' o : state ∉ [applied_state; duplicate_state] -> epochs_hold t rs ->
  executes (x ← (observe_activation state None None : prog _); mret (inl x)) t own t' o -> settled (admission_result command) t rs own t' o.
Proof. intros Hs Ht. apply settled_return; [done|]. by apply observe_ends. Qed.

Lemma settled_replay command t0 r result t rs own t' o : epochs_hold t rs -> resolve_operation t0 r = Ok (Some result) ->
  executes (x ← (_activation_outcome result : prog _); mret (inl x)) t own t' o -> settled (admission_result command) t rs own t' o.
Proof.
  intros Ht Er. apply settled_return; [done|]. intros w s1 o1 E1. apply executes_outcome in E1 as (? & ? & Hr). split_and!; [done|done|]. intros out ->.
  apply reported_not_applied in Hr. by destruct (resolved_operation _ _ _ Er) as (rec & [-> | ->]).
Qed.

Lemma admission_facts comparator command t rs own t' o :
  epochs_hold t rs -> comparator_ok comparator -> executes (rollback_admission comparator command) t own t' o -> settled (admission_result command) t rs own t' o.
Proof.
  intros Ht Hc E.
  unfold rollback_admission in E. apply (exec_lift _ _ _ rs) in E as [(r1 & t1 & rs1 & l1 & Er1 & L1 & E)|F]; [|by apply settled_failed|done].
  eapply settled_back; [exact L1|]. clear Er1.
  apply (exec_read _ _ _ rs1) in E as [(x & t2 & rs2 & l2 & t3 & rs3 & l3 & Ex & L2 & L3 & E)|F]; [|by apply settled_failed|by apply L1|by apply resolve_reads].
  eapply settled_back; [exact L2|]. eapply settled_back; [exact L3|]. destruct x as [result|].
  { cbn [store_call_result] in Ex. apply fmap_Ok in Ex as (y & Ey & [= <-]). eapply settled_replay; [by apply L3|exact Ey|exact E]. }
  apply (exec_read _ _ _ rs3) in E as [(x & t4 & rs4 & l4 & t5 & rs5 & l5 & Ex4 & L4 & L5 & E)|F]; [|by apply settled_failed|by apply L3|by apply load_active_reads].
  eapply settled_back; [exact L4|]. eapply settled_back; [exact L5|]. destruct x as [active|].
  2: { eapply settled_observe; [|by apply L5|exact E]. by apply (bool_decide_unpack _); vm_compute. }
  cbn [store_call_result] in Ex4. apply fmap_Ok in Ex4 as (y & Ey & [= <-]).
  destruct (loaded_active _ _ _ _ (lt_hold _ _ _ _ _ L4) Ey) as [_ Hact]. eapply stored_later in Hact; [|exact L5].
  apply (exec_read _ _ _ rs5) in E as [(x & t6 & rs6 & l6 & t7 & rs7 & l7 & Ex6 & L6 & L7 & E)|F]; [|by apply settled_failed|by apply L5|by apply load_epoch_reads].
  eapply settled_back; [exact L6|]. eapply settled_back; [exact L7|]. eapply stored_later in Hact; [|exact L6]. eapply stored_later in Hact; [|exact L7].
  assert (Hun : executes (o ← (observe_activation target_unavailable_state None None : prog _); mret (inl o)) t7 own t' o -> settled (admission_result command) t7 rs7 own t' o).
  { apply settled_observe; [by apply (bool_decide_unpack _); vm_compute|by apply L7]. }
  destruct x as [target|]; [|by apply Hun]. destruct (_ || _) eqn:Eg; [by apply Hun|]. apply orb_false_iff' in Eg as [Eg1 Eg2]. bdec.
  cbn [store_call_result] in Ex6. apply fmap_Ok in Ex6 as (y & Ey6 & [= <-]).
  pose proof (loaded_epoch _ _ _ _ _ (lt_hold _ _ _ _ _ L6) Ey6) as Htgt. eapply stored_later in Htgt; [|exact L7].
  apply (exec_lift _ _ _ rs7) in E as [(r8 & t8 & rs8 & l8 & Er8 & L8 & E)|F]; [|by apply settled_failed|by apply L7].
  eapply settled_back; [exact L8|]. apply checked_Ok in Er8 as [_ ->].
  apply (exec_lift _ _ _ rs8) in E as [(r9 & t9 & rs9 & l9 & Er9 & L9 & E)|F]; [|by apply settled_failed|by apply L8].
  eapply settled_back; [exact L9|]. destruct E as (O & -> & ->). split; [done|]. destruct (others_later _ _ _ (lt_hold _ _ _ _ _ L9) O) as (rs10 & l10 & L10).
  split; [by exists rs10, l10|]. split_and!.
  - eapply stored_later; [exact L10|]. eapply stored_later; [exact L9|]. by eapply stored_later; [exact L8|].
  - eapply stored_later; [exact L10|]. eapply stored_later; [exact L9|]. by eapply stored_later; [exact L8|].
  - intros rel ->. destruct comparator as [c|].
    + eapply sound_rollback; [exact Er9|by apply Hc|symmetry; apply Hact|done].
    + eapply (sound_rollback (C := ConservativeEpochCoverageComparator)); [exact Er9|done|symmetry; apply Hact|done].
Qed.

(** ** The ports *)

Lemma exec_allows {B} actor scope (k : bool -> prog B) t rs own t' o : epochs_hold t rs -> executes (allows_scope actor scope ≫= k) t own t' o ->
  exists b t1 rs1 l1, later t rs l1 t1 rs1 /\ executes (k b) t1 own t' o.
Proof.
  intros Ht (b & E). exists b, t, rs, []. split; [by apply later_refl|exact E].
Qed.

Lemma exec_clock {B} (k : pystr -> prog B) t own t' o : executes (clock_timestamp ≫= k) t own t' o -> exists now, executes (k now) t own t' o.
Proof. intros (n & E). by eexists. Qed.

Lemma others_trans t t1 t2 : others t t1 -> others t1 t2 -> others t t2.
Proof.
  intros (c1 & l1 & H1' & R1) (c2 & l2 & H2' & R2). exists (c1 ++ c2), (l1 ++ l2). split; [by apply Forall_app|]. clear H1' H2'.
  revert t l1 R1. induction c1 as [|c c1 IH]; intros t l1 R1; cbn [epoch_run app] in *; [by injection R1 as <- <-|].
  destruct (epoch_call_result t c) as [[r tx]|]; [|by apply IH]. destruct (epoch_run tx c1) as [ty ly] eqn:Ey. injection R1 as <- <-.
  rewrite (IH _ _ Ey). by rewrite app_assoc.
Qed.

Lemma exec_attempt {A B} (p : prog A) (k : option A -> prog B) t own t' o : executes (attempt p ≫= k) t own t' o ->
  exists own1 t0 o1 own2, executes p t own1 t0 o1 /\ own = own1 ++ own2 /\
    match o1 with
    | Returned a => exists t1, others t0 t1 /\ executes (k (Some a)) t1 own2 t' o
    | ConfigEpochStoreUnavailable => exists t1, others t0 t1 /\ executes (k None) t1 own2 t' o
    | Raised e => own2 = [] /\ others t0 t' /\ o = Raised e
    end.
Proof.
  intros [(w1 & t1 & a & w2 & E1 & E & ->)|[(t1 & e & E1 & O2 & ->)|(t1 & E1 & O2 & ->)]]%executes_bind; apply executes_attempt in E1 as (t0 & o1 & E0 & O0 & Eo).
  - exists w1, t0, o1, w2. split_and!; [done|done|]. destruct o1 as [x| |e]; [injection Eo as ->|injection Eo as ->|done]; by exists t1.
  - exists own, t0, o1, []. rewrite app_nil_r. split_and!; [done|done|]. destruct o1 as [x| |e']; try done. injection Eo as <-. split_and!; [done| |done].
    by eapply others_trans.
  - by destruct o1.
Qed.

(** *** Building an execution *)

Lemma executes_earlier {A} (p : prog A) t t1 own t' o : others t t1 -> executes p t1 own t' o -> executes p t own t' o.
Proof.
  intros O. revert own. induction p as [a|actor scope f IH|src fmt f IH|f IH|X c f IH]; intros own; cbn [executes].
  - intros (O1 & ? & ?). split_and!; [by eapply others_trans|done|done].
  - intros (b & E). exists b. by apply IH.
  - intros (a & ? & E). exists a. split; [done|]. by apply IH.
  - intros (n & E). exists n. by apply IH.
  - intros (t2 & f' & t3 & own' & O1 & E). exists t2, f', t3, own'. split; [by eapply others_trans|done].
Qed.

Lemma executes_then_intro {A B} (p : prog A) (k : outcome A -> prog B) t own1 t1 o1 own2 t' o :
  executes p t own1 t1 o1 -> executes (k o1) t1 own2 t' o -> executes (prog_then p k) t (own1 ++ own2) t' o.
Proof.
  intros E1 E2. revert t own1 E1. induction p as [a|actor scope f IH|src fmt f IH|f IH|X c f IH]; intros t own1; cbn [executes prog_then].
  - intros (O & -> & ->). by eapply executes_earlier.
  - intros (b & E). exists b. by apply IH.
  - intros (a & ? & E). exists a. split; [done|]. by apply IH.
  - intros (n & E). exists n. by apply IH.
  - intros (t2 & f' & t3 & own' & O & Et & -> & E). exists t2, f', t3, (own' ++ own2). rewrite <- app_assoc. split_and!; [done|done|done|]. by apply IH.
Qed.

Lemma executes_bind_intro {A B} (p : prog A) (k : A -> prog B) t own1 t1 a own2 t' o :
  executes p t own1 t1 (Returned a) -> executes (k a) t1 own2 t' o -> executes (p ≫= k) t (own1 ++ own2) t' o.
Proof. intros E1 E2. by eapply executes_then_intro. Qed.

Lemma executes_attempt_intro {A} (p : prog A) t own t1 o1 : executes p t own t1 o1 -> (forall e, o1 <> Raised e) ->
  executes (attempt p) t own t1 (match o1 with Returned a => Returned (Some a) | _ => Returned None end).
Proof.
  intros E Hn. rewrite <- (app_nil_r own). eapply executes_then_intro; [exact E|]. destruct o1 as [a| |e]; [..|by destruct (Hn e)]; (split; [by exists [], []|done]).
Qed.

(** ** Rollback *)

(** What executing a rollback can do: nothing, or one activation of the target
    that follows an epoch it does not reduce; it is reported as applied, or the
    commit's outcome was not learned. *)
Definition rolled_back (command : RollbackConfigEpoch) (own : list ConfigEpochActivationRecord) (t' : epoch_tables) (rs' : list AuditEventRecord)
    (o : outcome ConfigActivationOutcome) : Prop :=
  (own = [] /\ forall out, o = Returned out -> not_applied out) \/
  exists rec c active draft target, own = [rec] /\ (reports applied_state rec o \/ is_state unavailable_state o) /\
    rec_scope rec = rk_scope command /\ rec_operation_id rec = rk_operation_id command /\
    rec_previous rec = Some active /\ stored_draft t' (rk_scope command) (ac_epoch_id active) draft /\
    ac_epoch_id (rec_active rec) = rk_target_epoch_id command /\ stored_draft t' (rk_scope command) (rk_target_epoch_id command) target /\
    never_reduces draft target /\
    recorded t' rs' c rec /\ replay_of c = {|
      rp_scope := rk_scope command; rp_target_epoch_id := rk_target_epoch_id command; rp_expected_revision := Some (rk_expected_revision command);
      rp_operation_id := rk_operation_id command; rp_actor := rk_actor command; rp_proposal_manifest_id := None;
      rp_mutation_kind := rollback_kind; rp_reason := Some (rk_reason command); rp_activation_version := 1; rp_review_operation_id := None |}.

Lemma rollback_executed t rs comparator command own t' o :
  epochs_hold t rs -> RepositoryScope_check (rk_scope command) = Ok tt -> comparator_ok comparator ->
  executes (rollback comparator command) t own t' o -> exists rs' l, later t rs l t' rs' /\ rolled_back command own t' rs' o.
Proof.
  intros Ht Hs Hc E. unfold rollback in E. apply (exec_allows _ _ _ t rs) in E as (b & t1 & rs1 & l1 & L1 & E); [|done].
  assert (Hquiet : forall t1 own (o : outcome ConfigActivationOutcome), reached t rs t1 -> others t1 t' -> own = [] -> (forall out, o = Returned out -> not_applied out) ->
    exists rs' l, later t rs l t' rs' /\ rolled_back command own t' rs' o).
  { intros s1 w o1 Hr O -> Ho. destruct (reached_others _ _ _ _ Hr O) as (rs' & l & L). exists rs', l. split; [done|]. by left. }
  assert (Hobs : forall state t1 own o, state ∉ [applied_state; duplicate_state] -> reached t rs t1 -> executes (observe_activation state None None : prog _) t1 own t' o ->
    exists rs' l, later t rs l t' rs' /\ rolled_back command own t' rs' o).
  { intros state s1 w o1 Hst Hr E1. destruct (observe_ends state Hst _ _ _ _ E1) as (O & -> & Ho). by eapply Hquiet. }
  assert (R1 : reached t rs t1) by by exists rs1, l1.
  destruct b; cbn [negb] in E; [|eapply Hobs; [|exact R1|exact E]; by apply (bool_decide_unpack _); vm_compute].
  apply exec_attempt in E as (w1 & t2 & o1 & w2 & E1 & -> & E). apply (admission_facts comparator command t1 rs1) in E1 as (-> & R2 & Ho1); [|by apply L1|done]. cbn [app].
  assert (R2' : reached t rs t2) by by eapply reached_trans. destruct o1 as [x| |e].
  2: { destruct E as (t3 & O & E). eapply Hobs; [|by eapply reached_others|exact E]. by apply (bool_decide_unpack _); vm_compute. }
  2: { destruct E as (-> & O & ->). eapply Hquiet; [exact R2'|exact O|done|done]. }
  destruct E as (t3 & O & E). pose proof (reached_others _ _ _ _ R2' O) as R3. destruct x as [out|[[active target] admission]].
  { destruct E as (O' & -> & ->). eapply Hquiet; [exact R3|exact O'|done|]. by intros ? [= <-]. }
  destruct Ho1 as (Hact & Htgt & Hnever). destruct admission as [rel|code].
  2: { eapply Hobs; [|exact R3|exact E]. destruct code; by apply (bool_decide_unpack _); vm_compute. }
  destruct R2' as (rs2 & l2 & L2). destruct (others_later _ _ _ (lt_hold _ _ _ _ _ L2) O) as (rs3 & l3 & L3). clear R2.
  assert (R0 : forall s0, others s0 s0) by by intros; exists [], [].
  apply exec_clock in E as (now & E). apply (exec_lift _ _ _ rs3) in E as [(c & t4 & rs4 & l4 & Ec & L4 & E)|(-> & R4 & Ho)]; [| |by apply L3].
  2: { eapply Hquiet; [|apply R0|done|by intros out ->]. eapply reached_trans; [exact L2|]. by eapply reached_trans. }
  apply (exec_lift _ _ _ rs4) in E as [(p & t5 & rs5 & l5 & Ep & L5 & E)|(-> & R5 & Ho)]; [| |by apply L4].
  2: { eapply Hquiet; [|apply R0|done|by intros out ->]. eapply reached_trans; [exact L2|]. eapply reached_trans; [exact L3|]. by eapply reached_trans. }
  assert (L : later t rs (l2 ++ (l3 ++ (l4 ++ l5))) t5 rs5) by by repeat (eapply later_trans; [eassumption|]).
  assert (La : later t2 rs2 (l3 ++ (l4 ++ l5)) t5 rs5) by by repeat (eapply later_trans; [eassumption|]).
  apply checked_Ok in Ec as [Ec Ecm]. pose proof (prepared_activation _ _ Ep) as (Epc & _). assert (Hready : activation_ready p) by (split; rewrite Epc; [done|by rewrite Ecm|by rewrite Ecm]).
  apply exec_attempt in E as (w1 & t6 & o1 & w3 & E1 & -> & E). apply (executes_activate p t5 rs5) in E1 as (rs6 & l6 & L6 & Ho1); [|by apply L5|done].
  assert (R6 : reached t rs t6) by (eapply reached_trans; [exact L|by exists rs6, l6]).
  assert (Hdone : forall rec, recorded t6 rs6 (pa_command p) rec -> others t6 t' -> (reports applied_state rec o \/ is_state unavailable_state o) ->
    exists rs' l, later t rs l t' rs' /\ rolled_back command [rec] t' rs' o).
  { intros rec Hrec O6 Ho. destruct (others_later _ _ _ (lt_hold _ _ _ _ _ L6) O6) as (rs7 & l7 & L7). exists rs7, ((l2 ++ (l3 ++ (l4 ++ l5))) ++ (l6 ++ l7)).
    split; [eapply later_trans; [exact L|by eapply later_trans]|]. right. rewrite Epc, Ecm in Hrec.
    destruct (recorded_previous _ _ _ _ _ Hrec eq_refl eq_refl) as (P1 & P2 & P3 & q & P4 & P5).
    assert (Lb : later t2 rs2 ((l3 ++ (l4 ++ l5)) ++ (l6 ++ l7)) t' rs7) by (eapply later_trans; [exact La|by eapply later_trans]).
    eapply (stored_later _ _ _ _ _ _ _ _ Lb) in Hact. assert (Htgt' := stored_later _ _ _ _ _ _ _ _ Lb Htgt). pose proof (sd_id _ _ _ _ Htgt) as Eid.
    eexists rec, _, q, (sn_draft active), target. split_and!; [done|done|done|done|done|by rewrite P5|rewrite P3; exact Eid|done|by apply (Hnever rel)|eapply recorded_later; [exact L7|exact Hrec]|].
    unfold replay_of. cbn. by rewrite Eid. }
  destruct o1 as [result| |e].
  - destruct E as (t7 & O7 & E). apply executes_outcome in E as (O8 & -> & Hrep). pose proof (others_trans _ _ _ O7 O8) as O9. rewrite app_nil_r.
    destruct result as [rec|rec|a| |rec]; [destruct Ho1 as [-> Hrec]; by eapply Hdone; [|done|left]|..].
    all: subst w1; eapply Hquiet; [exact R6|exact O9|done|]; intros out ->; by apply reported_not_applied in Hrep.
  - destruct E as (t7 & O7 & E). apply executes_observe in E as (O8 & -> & Hst); [|by apply (bool_decide_unpack _); vm_compute]. pose proof (others_trans _ _ _ O7 O8) as O9. rewrite app_nil_r.
    destruct Ho1 as [->|(rec & -> & Hrec)]; [|by eapply Hdone; [|done|right]]. eapply Hquiet; [exact R6|exact O9|done|]. unfold is_state in Hst. rewrite Hst. by intros out [= <-].
  - subst w1. destruct E as (-> & O7 & ->). eapply Hquiet; [exact R6|exact O7|done|done].
Qed.

(** ** Asking again *)

Lemma exec_resolved t rs c rec r k t' own (o : outcome (ConfigActivationOutcome + (ActiveConfigEpochSnapshot * ValidatedEpochDraft * RollbackAdmission))) :
  epochs_hold t rs -> recorded t rs c rec -> r = replay_of c ->
  executes (store (store_resolve_operation r) ≫= (fun replay => match replay with Some replay => x ← (_activation_outcome replay : prog _); mret (inl x) | None => k end)) t own t' o ->
  own = [] /\ ((exists out, o = Returned (inl out) /\ reports duplicate_state rec (Returned out)) \/ o = ConfigEpochStoreUnavailable).
Proof.
  intros Ht Hr -> E. destruct E as (t1 & f & t2 & own' & O1 & <- & -> & E). destruct (others_later _ _ _ Ht O1) as (rs1 & l1 & L1). pose proof (recorded_later _ _ _ _ _ _ _ L1 Hr) as [(row & _ & Hrow & -> & Hof & _)].
  pose proof (operation_resolved t1 rs1 row c (lt_hold _ _ _ _ _ L1) Hrow Hof) as Er.
  assert (Et : transactional t1 (store_resolve_operation (replay_of c)) f = (match f with NoFault => Returned (Some (ConfigEpochActivationDuplicate (record_of row))) | _ => ConfigEpochStoreUnavailable end, t1)).
  { unfold transactional. cbn [store_call_result]. rewrite Er. by destruct f. }
  rewrite Et in E |- *. cbn [fst snd] in E |- *. rewrite new_records_refl. destruct f; cbn in E.
  - destruct E as (_ & -> & ->). split; [done|]. left. eexists. split; done.
  - destruct E as (_ & -> & ->). split; [done|by right].
  - destruct E as (_ & -> & ->). split; [done|by right].
  - destruct E as (_ & -> & ->). split; [done|by right].
Qed.

(** ** Registration *)

Lemma admit_facts actor source format t own t' o : executes (admit_source actor source format : prog _) t own t' o ->
  own = [] /\ others t t' /\ match o with
    | Returned (ConfigAdmissionAccepted d) => admit_policy_document source format = Some d /\ draft_ok d
    | ConfigEpochStoreUnavailable => False
    | _ => True
    end.
Proof.
  intros (a & Ha & E). destruct a as [|ds|d].
  - by destruct E as (? & -> & ->).
  - destruct ds; destruct E as (? & -> & ->); done.
  - destruct E as ([] & (? & -> & ->)); done.
Qed.

Lemma executes_registration state id t own t' o : (state, id) = (reg_unavailable, None) \/ (state, id) = (reg_forbidden, None) \/ (state, id) = (reg_conflict, None) \/
    (exists e, (state, id) = (reg_created, Some e)) \/ (exists e, (state, id) = (reg_duplicate, Some e)) ->
  executes (registration_outcome state id [] : prog _) t own t' o ->
  others t t' /\ own = [] /\ o = Returned {| ro_state := state; ro_epoch_id := id; ro_diagnostics := [] |}.
Proof. intros Hs (Ho & -> & ->)%executes_lift. naive_solver. Qed.

(** Registering through the store. *)
Lemma executes_register p t rs own t' o : epochs_hold t rs -> registration_ready p ->
  executes (store (store_register_operation p)) t own t' o ->
  own = [] /\ exists rs' l, later t rs l t' rs' /\
    match o with
    | Returned (ConfigEpochRegistrationCommitted rec | ConfigEpochRegistrationReplay rec) =>
        rr_epoch_id rec = draft_epoch_id (rg_draft (pg_command p)) /\
        stored_draft t' (draft_scope (rg_draft (pg_command p))) (draft_epoch_id (rg_draft (pg_command p))) (rg_draft (pg_command p))
    | _ => True
    end.
Proof.
  intros Ht Hp (t1 & f & t2 & O1 & E & O2 & ->)%executes_store. destruct (others_later _ _ _ Ht O1) as (rs1 & l1 & L1). pose proof (lt_hold _ _ _ _ _ L1) as Ht1.
  set (d := rg_draft (pg_command p)) in *. assert (Hsd : forall t rs, epochs_hold t rs -> registered t d -> stored_draft t (draft_scope d) (draft_epoch_id d) d) by (intros s k Hk Hr; destruct (registered_ok _ _ _ Hk Hr); by split).
  assert (Hgo : forall rs2 l2, later t1 rs1 l2 t2 rs2 -> new_records t1 t2 = [] -> (match o with Returned (ConfigEpochRegistrationCommitted rec | ConfigEpochRegistrationReplay rec) => rr_epoch_id rec = draft_epoch_id d /\ registered t2 d | _ => True end) ->
    new_records t1 t2 = [] /\ exists rs' l, later t rs l t' rs' /\ match o with Returned (ConfigEpochRegistrationCommitted rec | ConfigEpochRegistrationReplay rec) =>
        rr_epoch_id rec = draft_epoch_id d /\ stored_draft t' (draft_scope d) (draft_epoch_id d) d | _ => True end).
  { intros rs2 l2 L2 Hn Ho. split; [done|]. destruct (others_later _ _ _ (lt_hold _ _ _ _ _ L2) O2) as (rs3 & l3 & L3). exists rs3, (l1 ++ (l2 ++ l3)).
    split; [eapply later_trans; [done|by eapply later_trans]|]. destruct o as [[rec|rec|rec]| |]; try done; destruct Ho as [? Ho]; (split; [done|]); (eapply stored_later; [exact L3|eapply Hsd; [by apply L2|done]]). }
  assert (Hstay : t2 = t1 -> (match o with Returned (ConfigEpochRegistrationCommitted rec | ConfigEpochRegistrationReplay rec) => rr_epoch_id rec = draft_epoch_id d /\ registered t2 d | _ => True end) ->
    new_records t1 t2 = [] /\ exists rs' l, later t rs l t' rs' /\ match o with Returned (ConfigEpochRegistrationCommitted rec | ConfigEpochRegistrationReplay rec) =>
        rr_epoch_id rec = draft_epoch_id d /\ stored_draft t' (draft_scope d) (draft_epoch_id d) d | _ => True end).
  { intros E2 Ho. apply (Hgo rs1 []); [rewrite E2; by apply later_refl|rewrite E2; apply new_records_refl|done]. }
  unfold transactional in E. assert (f = BeginFailed \/ f <> BeginFailed) as [->|Hf] by (destruct f; auto); [injection E as <- <-; by apply Hstay|].
  cbn [store_call_result] in E. destruct (register_operation t1 p) as [[r t3]|e] eqn:Er.
  2: { destruct f; try done; destruct (is_persistence_error e); injection E as <- <-; by apply Hstay. }
  pose proof (register_operation_step _ _ _ _ _ Ht1 Hp Er) as Hr. destruct r as [rec|rec|rec].
  - destruct Hr as (e & m & Hold & He & Ha & Hreg & Eid). assert (L3 : later t1 rs1 [] t3 (rs1 ++ [e])) by (split; [done|by eexists|rewrite He; by eexists|exists []; by rewrite app_nil_r]).
    assert (Hn : new_records t1 t3 = []) by (unfold new_records; by rewrite Ha, drop_all).
    destruct f; try done; injection E as <- <-; [by eapply Hgo|by apply Hstay|by eapply Hgo].
  - destruct Hr as (-> & Hreg & Eid). destruct f; try done; injection E as <- <-; by apply Hstay.
  - subst t3. destruct f; try done; injection E as <- <-; by apply Hstay.
Qed.

(** ** Properties *)

(** C24: a rollback never reduces validation, whatever other clients do between
    its transactions and whatever faults the database has.  An execution of the
    service either commits nothing, and does not report the rollback as applied,
    or it commits one activation of the target, reported as applied or with an
    outcome the client could not learn; and then the target's plans cover, on
    every change, the plans of the epoch that was active just before. *)
Theorem rollback_keeps_coverage t rs comparator command own t' o :
  epochs_hold t rs -> RepositoryScope_check (rk_scope command) = Ok tt -> comparator_ok comparator ->
  executes (rollback comparator command) t own t' o ->
  own = [] /\ (forall out, o = Returned out -> ao_state out <> applied_state) \/
  exists rec active draft target, own = [rec] /\ (reports applied_state rec o \/ is_state unavailable_state o) /\
    rec_scope rec = rk_scope command /\ rec_operation_id rec = rk_operation_id command /\
    rec_previous rec = Some active /\ load_epoch t' (rk_scope command) (ac_epoch_id active) = Ok (Some draft) /\
    ac_epoch_id (rec_active rec) = rk_target_epoch_id command /\ load_epoch t' (rk_scope command) (rk_target_epoch_id command) = Ok (Some target) /\
    never_reduces draft target.
Proof.
  intros Ht Hs Hc E. destruct (rollback_executed t rs comparator command own t' o Ht Hs Hc E) as (rs' & l & L & [?|Hr]); [by left|right].
  destruct Hr as (rec & c & active & draft & target & E1 & E2 & E3 & E4 & E5 & E6 & E7 & E8 & E9 & _). exists rec, active, draft, target.
  split_and!; try done; eapply stored_loaded; [apply L|done|apply L|done].
Qed.

(** C31: an outcome the client could not learn is learned by asking again.  When an
    execution of a rollback committed an activation, every later execution of
    the same command commits nothing and reports that activation as a
    duplicate, unless the caller may no longer act on the repository or the
    store is unavailable again; it never fails otherwise. *)
Theorem rollback_asked_again t rs comparator command own t1 o1 own2 t2 o2 :
  epochs_hold t rs -> RepositoryScope_check (rk_scope command) = Ok tt -> comparator_ok comparator ->
  executes (rollback comparator command) t own t1 o1 -> own <> [] -> executes (rollback comparator command) t1 own2 t2 o2 ->
  own2 = [] /\ exists rec, own = [rec] /\ (reports duplicate_state rec o2 \/ is_state forbidden_state o2 \/ is_state unavailable_state o2).
Proof.
  intros Ht Hs Hc E Hne E2. destruct (rollback_executed t rs comparator command own t1 o1 Ht Hs Hc E) as (rs1 & l & L & [[? _]|Hr]); [done|].
  destruct Hr as (rec & c & active & draft & target & -> & _ & _ & _ & _ & _ & _ & _ & _ & Hrec & Hrep).
  assert (Hck : ConfigEpochReplayCommand_check (replay_of c) = Ok tt) by (destruct Hrec as [(row & _ & _ & _ & Hof & _)]; by apply replay_checks, Hof).
  cut (own2 = [] /\ (reports duplicate_state rec o2 \/ is_state forbidden_state o2 \/ is_state unavailable_state o2)); [intros [-> ?]; split; [done|by exists rec]|].
  unfold rollback in E2. destruct (exec_allows _ _ _ t1 rs1 own2 t2 o2 (lt_hold _ _ _ _ _ L) E2) as (b & t3 & rs3 & l3 & L3 & E4). clear E2. rename E4 into E2.
  destruct b; cbn [negb] in E2.
  2: { apply executes_observe in E2 as (_ & -> & ?); [|by apply (bool_decide_unpack _); vm_compute]. auto. }
  apply exec_attempt in E2 as (w1 & t4 & o3 & w2 & E3 & -> & E2). unfold rollback_admission in E3. rewrite <- Hrep in E3. unfold checked in E3. rewrite Hck in E3.
  apply (exec_resolved t3 rs3 c rec) in E3 as (-> & Ho); [|by apply L3|by eapply recorded_later|done]. destruct Ho as [(out & -> & Hout)| ->].
  - destruct E2 as (t5 & _ & (_ & -> & ->)). split; [done|by left].
  - destruct E2 as (t5 & _ & E2). apply executes_observe in E2 as (_ & -> & ?); [|by apply (bool_decide_unpack _); vm_compute]. auto.
Qed.

(** A registration that is reported, as created or as a duplicate, is of the
    draft policy admission gives for the submitted source, and that draft can be
    loaded under its repository and identifier from then on; registering
    activates nothing. *)
Theorem registration_reported t rs command own t' out :
  epochs_hold t rs -> executes (register_config command : prog _) t own t' (Returned out) ->
  own = [] /\
  (ro_state out = reg_created \/ ro_state out = reg_duplicate -> exists d,
     admit_policy_document (rc_source command) (rc_source_format command) = Some d /\ ro_epoch_id out = Some (draft_epoch_id d) /\
     load_epoch t' (draft_scope d) (draft_epoch_id d) = Ok (Some d)).
Proof.
  intros Ht E. unfold register_config in E. apply executes_bind in E as [(w1 & t1 & a & w2 & E1 & E & ->)|[(t1 & e & _ & _ & ?)|(t1 & _ & _ & ?)]]; [|done..].
  destruct (admit_facts _ _ _ _ _ _ _ E1) as (-> & O1 & Ha). destruct (others_later _ _ _ Ht O1) as (rs1 & l1 & L1). cbn [app].
  assert (Hno : forall state t own t', (state, None) = (reg_unavailable, None : option pystr) \/ state = reg_forbidden \/ state = reg_conflict ->
    executes (registration_outcome state None [] : prog _) t own t' (Returned out) -> own = [] /\ (ro_state out = reg_created \/ ro_state out = reg_duplicate -> exists d,
     admit_policy_document (rc_source command) (rc_source_format command) = Some d /\ ro_epoch_id out = Some (draft_epoch_id d) /\ load_epoch t' (draft_scope d) (draft_epoch_id d) = Ok (Some d))).
  { intros state s1 w s2 Hst (_ & -> & Eo)%executes_registration; [|naive_solver]. split; [done|]. injection Eo as ->. cbn. naive_solver. }
  destruct a as [d|ds| |].
  - destruct Ha as [Hadm Hd]. apply exec_clock in E as (now & E). apply (exec_lift _ _ _ rs1) in E as [(c & t2 & rs2 & l2 & Ec & L2 & E)|(_ & _ & ?)]; [|done|by apply L1].
    apply checked_Ok in Ec as [Ec Ecm]. apply (exec_lift _ _ _ rs2) in E as [(p & t3 & rs3 & l3 & Ep & L3 & E)|(_ & _ & ?)]; [|done|by apply L2].
    assert (Epc : pg_command p = c). { unfold prepare_config_epoch_registration in Ep. apply bind_Ok in Ep as (ev & _ & [= <-]). done. }
    assert (Edr : rg_draft (pg_command p) = d) by by rewrite Epc, Ecm.
    assert (Hready : registration_ready p) by (split; [by rewrite Epc|by rewrite Epc, Ecm|by rewrite Edr]).
    apply exec_attempt in E as (w3 & t4 & o4 & w4 & E4 & -> & E). apply (executes_register p t3 rs3) in E4 as (-> & rs4 & l4 & L4 & Ho); [|by apply L3|done].
    rewrite Edr in Ho. destruct o4 as [r| |e]; [..|by destruct E as (_ & _ & ?)].
    2: { destruct E as (t5 & _ & E). eapply Hno; [|exact E]. by left. }
    destruct E as (t5 & O5 & E). destruct r as [rec|rec|rec]; [..|eapply Hno; [|exact E]; auto].
    all: apply executes_registration in E as (O6 & -> & Eo); [|eauto 7]; split; [done|]; intros _; injection Eo as ->; destruct Ho as [Eid Hst]; exists d;
      split; [done|]; split; [by rewrite <- Eid|]; pose proof (others_trans _ _ _ O5 O6) as O7; destruct (others_later _ _ _ (lt_hold _ _ _ _ _ L4) O7) as (rs6 & l6 & L6);
      eapply stored_loaded; [apply L6|]; eapply stored_later; [exact L6|exact Hst].
  - apply executes_lift in E as (_ & -> & Eo). split; [done|]. destruct (checked _ _) as [x|] eqn:Ex; [|done]. injection Eo as ->. apply checked_Ok in Ex as [_ ->]. cbn. naive_solver.
  - eapply Hno; [|exact E]. auto.
  - eapply Hno; [|exact E]. by left.
Qed.
End facts.
