(* ===== verification/ConfigEpochScenario.v ===== *)
(** * A concrete configuration history, the theorems applied

    The two epochs of [EpochScenario] are registered for one repository, the
    first is activated, and the service rolls back to the second. *)

From stdpp Require Import base gmap sets list sorting strings.
From Stdlib Require Import ZArith Lia.
From S2P Require Import Prelude Text PyFloat CanonicalJson Hashing JsonLoads JsonRoundtrip Instants ConfigControl AuditEvents AuditChain AuditFacts AuditChainFacts AuditLedger AuditPages AuditRepository AuditRepositoryFacts AuditStore TableFacts.
From S2P Require Import Rollback RollbackFacts EpochScenario ConfigEpochs ConfigEpochStore ConfigEpochFacts ConfigEpochSteps ConfigEpochReplay ConfigEpochHistory ConfigManagement ConfigManagementFacts.

#[local] Existing Instance Sha256_checksum.
#[local] Remove Hints Sha256_fips : typeclass_instances.

Definition with_source (d : ValidatedEpochDraft) (bytes : list Z) : ValidatedEpochDraft :=
  {| source_format := source_format d; source_bytes := bytes; draft_scope := draft_scope d; normalized_document_bytes := normalized_document_bytes d;
     compiled_policy_bytes := compiled_policy_bytes d; document_schema_id := document_schema_id d; document_profile_id := document_profile_id d;
     semantic_profile_id := semantic_profile_id d; compiled_schema_id := compiled_schema_id d;
     producer_resource_profile_id := producer_resource_profile_id d; producer_byte_profile_id := producer_byte_profile_id d;
     producer_feasibility_profile_id := producer_feasibility_profile_id d; source_hash := source_hash d; document_hash := document_hash d;
     epoch_hash := epoch_hash d; draft_epoch_id := draft_epoch_id d |}.

Definition first_draft : ValidatedEpochDraft := Eval vm_compute in with_source es_active [49].
Definition second_draft : ValidatedEpochDraft := Eval vm_compute in with_source es_target [50].

(** Two sources are admitted. *)
#[local] Instance two_sources : PolicyAdmission := fun bytes format =>
  match format, bytes with
  | FormatJson, [49] => Some first_draft
  | FormatJson, [50] => Some second_draft
  | _, _ => None
  end.

Lemma first_ok : draft_ok first_draft.
Proof. split; vm_compute; reflexivity. Qed.
Lemma second_ok : draft_ok second_draft.
Proof. split; vm_compute; reflexivity. Qed.

Definition first_command : ConfigEpochActivationCommand := {|
  cm_scope := es_scope; target_epoch_id := draft_epoch_id first_draft; expected_revision := None; operation_id := u "op-1"; cm_actor := u "alice";
  occurred_at := u "2026-01-01T00:00:00.000Z"; proposal_manifest_id := Some (u "proposal:0123456789abcdef0123456789abcdef");
  authority_evidence_hash := Some hex64; authority_observed_at := Some (u "2026-01-01T00:00:00.000Z"); mutation_kind := activation_kind;
  expected_active_epoch_id := None; coverage_relation := None; cm_reason := None; activation_version := 2; review_operation_id := Some (u "review-1") |}.

Definition rollback_command (now : pystr) : ConfigEpochActivationCommand := {|
  cm_scope := es_scope; target_epoch_id := draft_epoch_id second_draft; expected_revision := Some 1; operation_id := u "op-2"; cm_actor := u "bob";
  occurred_at := now; proposal_manifest_id := None; authority_evidence_hash := None; authority_observed_at := None; mutation_kind := rollback_kind;
  expected_active_epoch_id := Some (draft_epoch_id first_draft); coverage_relation := Some proven_greater; cm_reason := Some (u "why");
  activation_version := 1; review_operation_id := None |}.

Definition activation_prepared (c : ConfigEpochActivationCommand) : PreparedConfigEpochActivation :=
  match prepare_config_epoch_activation c with
  | Ok p => p
  | Raise _ => {| pa_command := c; pa_consumed := true;
      pa_audit_event := Build_PreparedAuditEvent (Build_AuditEventInput [] [] [] [] [] [] VNone None None) [] [] [] true |}
  end.
Definition first_prepared : PreparedConfigEpochActivation := Eval vm_compute in activation_prepared first_command.
Definition second_prepared : PreparedConfigEpochActivation := Eval vm_compute in
  activation_prepared (rollback_command (u "1970-01-01T00:00:00.000Z")).

Lemma first_ready : activation_ready first_prepared.
Proof. split; vm_compute; reflexivity. Qed.
Lemma second_ready : activation_ready second_prepared.
Proof. split; vm_compute; reflexivity. Qed.

(** Both epochs registered, the first one active. *)
Definition setup : list epoch_call := [Register first_draft; Register second_draft; Activate first_prepared].

Lemma setup_ready : Forall call_ready setup.
Proof. repeat (apply Forall_cons; split; [first [exact first_ok|exact second_ok|exact first_ready]|]). constructor. Qed.

Definition setup_tables : epoch_tables := Eval vm_compute in (epoch_run empty_epochs setup).1.
Definition rolled_tables : epoch_tables := Eval vm_compute in (epoch_run setup_tables [Activate second_prepared]).1.

Definition first_record : ConfigEpochActivationRecord := Eval vm_compute in default {| rec_scope := es_scope; rec_operation_id := []; rec_expected_revision := None;
  rec_previous := None; rec_active := {| ac_scope := es_scope; ac_epoch_id := []; ac_revision := 0 |}; rec_audit_event_id := []; rec_audit_input_hash := [] |}
  (head (epoch_run empty_epochs setup).2).
Definition second_record : ConfigEpochActivationRecord := Eval vm_compute in default first_record (head (epoch_run setup_tables [Activate second_prepared]).2).

Lemma setup_run : epoch_run empty_epochs setup = (setup_tables, [first_record]).
Proof. vm_compute. reflexivity. Qed.
Lemma rolled_run : epoch_run setup_tables [Activate second_prepared] = (rolled_tables, [second_record]).
Proof. vm_compute. reflexivity. Qed.

Lemma setup_hold : exists rs, epochs_hold setup_tables rs.
Proof. destruct (run_later _ _ _ _ _ empty_epochs_hold setup_ready setup_run) as (rs & L). exists rs. apply L. Qed.

Example revisions : ac_revision (rec_active first_record) = 1 /\ ac_revision (rec_active second_record) = 2 /\
  rec_previous second_record = Some (rec_active first_record).
Proof. vm_compute. auto. Qed.

(** The properties, at this history. *)

Lemma configuration_history_witness :
  own_records es_scope ([first_record] ++ [second_record]) = [first_record; second_record] /\
  ac_revision (rec_active second_record) = 2 /\ rec_previous second_record = Some (rec_active first_record) /\
  exists d, load_active rolled_tables es_scope = Ok (Some {| sn_active := rec_active second_record; sn_draft := d |}).
Proof.
  pose proof (configuration_history setup [Activate second_prepared] setup_tables rolled_tables [first_record] [second_record] es_scope setup_ready
    ltac:(apply Forall_cons; split; [exact second_ready|constructor]) setup_run rolled_run) as (H1 & H2 & _).
  assert (E : own_records es_scope ([first_record] ++ [second_record]) = [first_record; second_record]) by (vm_compute; reflexivity).
  split; [exact E|]. rewrite E in H1, H2. pose proof (H1 1%nat second_record eq_refl) as [R1 R2]. split; [exact R1|]. split; [exact R2|].
  destruct H2 as (d & _ & Hd). exists d. exact Hd.
Defined.

Lemma activation_compare_and_set_witness :
  exists row t', activate setup_tables second_prepared = Ok (ConfigEpochActivationApplied (record_of row), t') /\
    pointer_of es_scope t' = Some (draft_epoch_id second_draft, 2).
Proof.
  destruct setup_hold as (rs & Ht). pose proof (activation_compare_and_set setup_tables rs second_prepared Ht second_ready) as H. cbn beta zeta in H.
  assert (E1 : operation_row setup_tables (cm_scope (pa_command second_prepared)) (operation_id (pa_command second_prepared)) = None) by (vm_compute; reflexivity).
  assert (E2 : epoch_exists setup_tables (scope_installation_id (cm_scope (pa_command second_prepared))) (scope_repository_id (cm_scope (pa_command second_prepared)))
    (target_epoch_id (pa_command second_prepared)) = true) by (vm_compute; reflexivity).
  assert (E3 : expected_pointer (pa_command second_prepared) (pointer_of (cm_scope (pa_command second_prepared)) setup_tables) = true) by (vm_compute; reflexivity).
  assert (E4 : exists e a, _append_pair_owned (ct_audit setup_tables) (pa_audit_event second_prepared) (cm_scope (pa_command second_prepared)) = Ok (AuditAppendAppended e, a))
    by (eexists _, _; vm_compute; reflexivity).
  assert (E5 : safe_id (next_revision (pointer_of (cm_scope (pa_command second_prepared)) setup_tables)) = true) by (vm_compute; reflexivity).
  destruct E4 as (e & a & E4). rewrite E1, E2, E3, E4, E5 in H. destruct H as (row & t' & H1 & _ & H2 & _). exists row, t'. split; [exact H1|exact H2].
Defined.

(** The first operation once more, under another review. *)
Definition other_command : ConfigEpochActivationCommand := {|
  cm_scope := es_scope; target_epoch_id := draft_epoch_id first_draft; expected_revision := None; operation_id := u "op-1"; cm_actor := u "alice";
  occurred_at := u "2026-01-01T00:00:00.000Z"; proposal_manifest_id := Some (u "proposal:0123456789abcdef0123456789abcdef");
  authority_evidence_hash := Some hex64; authority_observed_at := Some (u "2026-01-01T00:00:00.000Z"); mutation_kind := activation_kind;
  expected_active_epoch_id := None; coverage_relation := None; cm_reason := None; activation_version := 2; review_operation_id := Some (u "review-2") |}.
Definition other_prepared : PreparedConfigEpochActivation := Eval vm_compute in activation_prepared other_command.
Lemma other_ready : activation_ready other_prepared.
Proof. split; vm_compute; reflexivity. Qed.

Lemma activation_exactly_once_witness :
  activate rolled_tables first_prepared = Ok (ConfigEpochActivationDuplicate first_record, rolled_tables) /\
  activate rolled_tables other_prepared = Ok (ConfigEpochActivationOperationConflict first_record, rolled_tables).
Proof.
  destruct (run_later [Register first_draft; Register second_draft] empty_epochs [] (epoch_run empty_epochs [Register first_draft; Register second_draft]).1
    (epoch_run empty_epochs [Register first_draft; Register second_draft]).2 empty_epochs_hold) as (rs & L);
    [apply Forall_cons; split; [exact first_ok|apply Forall_cons; split; [exact second_ok|constructor]]|vm_compute; reflexivity|].
  destruct (activation_exactly_once _ rs first_prepared first_record setup_tables [Activate second_prepared] rolled_tables [second_record]
    (lt_hold _ _ _ _ _ L) first_ready) as [_ H]; [vm_compute; reflexivity|apply Forall_cons; split; [exact second_ready|constructor]|exact rolled_run|].
  destruct (H first_prepared first_ready eq_refl eq_refl) as (_ & H1 & _). split; [apply H1; reflexivity|].
  destruct (H other_prepared other_ready eq_refl eq_refl) as (_ & _ & H2). apply H2; [intros E; discriminate (f_equal rp_review_operation_id E)|].
  apply collision_free_decided. vm_compute. reflexivity.
Defined.

(** The service, with no other client: the rollback is applied. *)
Definition roll_back : RollbackConfigEpoch := {|
  rk_actor := u "bob"; rk_scope := es_scope; rk_target_epoch_id := draft_epoch_id second_draft; rk_expected_revision := 1;
  rk_operation_id := u "op-2"; rk_reason := u "why" |}.

Definition rollback_program : prog (PolicyDiagnostic := unit) ConfigActivationOutcome := rollback (C := ConservativeEpochCoverageComparator) None roll_back.

Lemma alone t : others t t.
Proof. exists [], []. split; [constructor|reflexivity]. Qed.

Lemma runs_lift {A B} (r : res A) (k : A -> prog (PolicyDiagnostic := unit) B) a t own t' o :
  r = Ok a -> executes (k a) t own t' o -> executes (prog_bind _ _ k (lift r)) t own t' o.
Proof. intros -> E. exact E. Qed.

Lemma runs_store {A} (c : store_call A) f t r t2 : transactional t c f = (r, t2) ->
  executes (store c : prog (PolicyDiagnostic := unit) A) t (new_records t t2) t2 r.
Proof.
  intros E. exists t, f, t2, []. rewrite E, app_nil_r. split; [apply alone|]. split; [reflexivity|]. split; [reflexivity|]. split; [apply alone|]. split; reflexivity.
Qed.

(** A read, and then the rest. *)
Lemma runs_read {A B} (c : store_call A) (k : A -> prog (PolicyDiagnostic := unit) B) a t own t' o :
  transactional t c NoFault = (Returned a, t) -> executes (k a) t own t' o -> executes (prog_bind _ _ k (store c)) t own t' o.
Proof.
  intros E H. change own with ([] ++ own). rewrite <- (new_records_refl t). eapply (executes_bind_intro (store c) k); [exact (runs_store c NoFault t _ _ E)|exact H].
Qed.

Definition setup_snapshot : ActiveConfigEpochSnapshot := {| sn_active := rec_active first_record; sn_draft := first_draft |}.

Lemma admission_runs : executes (rollback_admission (C := ConservativeEpochCoverageComparator) (PolicyDiagnostic := unit) None roll_back) setup_tables [] setup_tables
  (Returned (inr (setup_snapshot, second_draft, RollbackAllowed proven_greater))).
Proof.
  unfold rollback_admission. eapply runs_lift; [vm_compute; reflexivity|]. eapply (runs_read _ _ None); [vm_compute; reflexivity|].
  eapply (runs_read _ _ (Some setup_snapshot)); [vm_compute; reflexivity|]. eapply (runs_read _ _ (Some second_draft)); [vm_compute; reflexivity|].
  change (bool_decide (draft_scope second_draft <> rk_scope roll_back) || bool_decide (draft_epoch_id second_draft <> rk_target_epoch_id roll_back)) with false.
  eapply runs_lift; [vm_compute; reflexivity|]. eapply (runs_lift _ _ (RollbackAllowed proven_greater)); [vm_compute; reflexivity|]. split; [apply alone|]. split; reflexivity.
Qed.

(** The whole program, whatever the fault of its last call. *)
Lemma rollback_runs f r t2 own o :
  transactional setup_tables (store_activate second_prepared) f = (r, t2) -> (forall e, r <> Raised e) -> own = new_records setup_tables t2 ->
  executes (match r with Returned result => _activation_outcome result | _ => observe_activation unavailable_state None None end : prog (PolicyDiagnostic := unit) _) t2 [] t2 o ->
  executes rollback_program setup_tables own t2 o.
Proof.
  intros E Hr -> H. unfold rollback_program, rollback. exists true. change (new_records setup_tables t2) with ([] ++ new_records setup_tables t2).
  eapply (executes_bind_intro (attempt _)); [apply (executes_attempt_intro _ _ _ _ _ admission_runs); intros e He; discriminate He|].
  cbn beta iota. exists 0. rewrite <- (app_nil_r (new_records setup_tables t2)).
  eapply runs_lift; [vm_compute; reflexivity|]. eapply (runs_lift _ _ second_prepared); [vm_compute; reflexivity|].
  pose proof (executes_attempt_intro _ _ _ _ _ (runs_store (store_activate second_prepared) f _ _ _ E) Hr) as Ha.
  destruct r as [result| |e]; [exact (executes_bind_intro (attempt _) _ _ _ _ _ _ _ _ Ha H)|exact (executes_bind_intro (attempt _) _ _ _ _ _ _ _ _ Ha H)|destruct (Hr e eq_refl)].
Qed.

Definition reported_outcome (state : ConfigActivationState) : ConfigActivationOutcome :=
  {| ao_state := state; ao_epoch_id := Some (draft_epoch_id second_draft); ao_revision := Some 2 |}.
Definition unavailable_outcome : ConfigActivationOutcome := {| ao_state := unavailable_state; ao_epoch_id := None; ao_revision := None |}.

Lemma rollback_applied : executes rollback_program setup_tables [second_record] rolled_tables (Returned (reported_outcome applied_state)).
Proof.
  apply (rollback_runs NoFault (Returned (ConfigEpochActivationApplied second_record))); [vm_compute; reflexivity|intros e He; discriminate He|vm_compute; reflexivity|].
  split; [apply alone|]. split; [reflexivity|]. vm_compute. reflexivity.
Qed.

Lemma rollback_unknown : executes rollback_program setup_tables [second_record] rolled_tables (Returned unavailable_outcome).
Proof.
  apply (rollback_runs CommitUnknown ConfigEpochStoreUnavailable); [vm_compute; reflexivity|intros e He; discriminate He|vm_compute; reflexivity|].
  split; [apply alone|]. split; [reflexivity|]. vm_compute. reflexivity.
Qed.

(** Asked again, the service answers from the stored activation. *)
Lemma rollback_again : executes rollback_program rolled_tables [] rolled_tables (Returned (reported_outcome duplicate_state)).
Proof.
  unfold rollback_program, rollback. exists true. change (@nil ConfigEpochActivationRecord) with (@nil ConfigEpochActivationRecord ++ []).
  assert (E : executes (rollback_admission (C := ConservativeEpochCoverageComparator) (PolicyDiagnostic := unit) None roll_back) rolled_tables [] rolled_tables
    (Returned (inl (reported_outcome duplicate_state)))).
  { unfold rollback_admission. eapply runs_lift; [vm_compute; reflexivity|]. eapply (runs_read _ _ (Some (ConfigEpochActivationDuplicate second_record))); [vm_compute; reflexivity|].
    cbn beta iota. eapply runs_lift; [vm_compute; reflexivity|]. split; [apply alone|]. split; reflexivity. }
  assert (Hn : forall e, Returned (@inl _ (ActiveConfigEpochSnapshot * ValidatedEpochDraft * RollbackAdmission) (reported_outcome duplicate_state)) <> Raised e) by (intros e He; discriminate He).
  eapply (executes_bind_intro (attempt _)); [exact (executes_attempt_intro _ _ _ _ _ E Hn)|]. split; [apply alone|]. split; reflexivity.
Qed.

Lemma rollback_keeps_coverage_witness :
  exists rec active draft target, [second_record] = [rec] /\ rec_previous rec = Some active /\ load_epoch rolled_tables es_scope (ac_epoch_id active) = Ok (Some draft) /\ load_epoch rolled_tables es_scope (draft_epoch_id second_draft) = Ok (Some target) /\ never_reduces draft target.
Proof.
  destruct setup_hold as (rs & Ht).
  destruct (rollback_keeps_coverage (PolicyDiagnostic := unit) (C := ConservativeEpochCoverageComparator) setup_tables rs None roll_back [second_record] rolled_tables
    (Returned (reported_outcome applied_state)) Ht eq_refl I rollback_applied) as [[H _]|(rec & active & draft & target & H1 & _ & _ & _ & H2 & H3 & _ & H4 & H5)]; [discriminate H|].
  exists rec, active, draft, target. repeat (split; [assumption|]). assumption.
Defined.

Lemma rollback_asked_again_witness :
  exists rec, [second_record] = [rec] /\ reports duplicate_state rec (Returned (reported_outcome duplicate_state)).
Proof.
  destruct setup_hold as (rs & Ht).
  destruct (rollback_asked_again (PolicyDiagnostic := unit) (C := ConservativeEpochCoverageComparator) setup_tables rs None roll_back [second_record] rolled_tables
    (Returned unavailable_outcome) [] rolled_tables (Returned (reported_outcome duplicate_state)) Ht eq_refl I rollback_unknown ltac:(discriminate) rollback_again)
    as (_ & rec & H1 & [H2|[H2|H2]]); [|discriminate H2|discriminate H2]. exists rec. split; assumption.
Defined.

(** A registration. *)
Definition register_first : RegisterConfigEpoch := {| rc_actor := u "alice"; rc_source := [49]; rc_source_format := FormatJson; rc_operation_id := u "reg-1" |}.

Definition registered_tables : epoch_tables := Eval vm_compute in
  match prepare_config_epoch_registration {| rg_draft := first_draft; rg_operation_id := u "reg-1"; rg_actor := u "alice"; rg_occurred_at := u "1970-01-01T00:00:00.000Z" |} with
  | Ok p => (transactional empty_epochs (store_register_operation p) NoFault).2
  | Raise _ => empty_epochs
  end.
Definition created_outcome : ConfigRegistrationOutcome (PolicyDiagnostic := unit) :=
  {| ro_state := reg_created; ro_epoch_id := Some (draft_epoch_id first_draft); ro_diagnostics := [] |}.

(** The store's answer to the prepared registration of an admitted draft. *)
Definition first_registration : option PreparedConfigEpochRegistration := Eval vm_compute in
  match prepare_config_epoch_registration {| rg_draft := first_draft; rg_operation_id := u "reg-1"; rg_actor := u "alice"; rg_occurred_at := u "1970-01-01T00:00:00.000Z" |} with
  | Ok p => Some p
  | Raise _ => None
  end.

Lemma registration_runs p rec : first_registration = Some p ->
  transactional empty_epochs (store_register_operation p) NoFault = (Returned (ConfigEpochRegistrationCommitted rec), registered_tables) ->
  new_records empty_epochs registered_tables = [] -> rr_epoch_id rec = draft_epoch_id first_draft ->
  executes (register_config (PolicyDiagnostic := unit) register_first) empty_epochs [] registered_tables (Returned created_outcome).
Proof.
  intros Hp E En Er. exists (PolicyAdmitted first_draft). split; [split; [vm_compute; reflexivity|exact first_ok]|]. exists true.
  exists 0. eapply runs_lift; [vm_compute; reflexivity|]. eapply (runs_lift _ _ p); [injection Hp as <-; vm_compute; reflexivity|].
  change (@nil ConfigEpochActivationRecord) with (@nil ConfigEpochActivationRecord ++ []). rewrite <- En at 1.
  eapply (executes_bind_intro (attempt (store (store_register_operation p)))).
  { refine (executes_attempt_intro _ _ _ _ _ (runs_store (store_register_operation p) NoFault _ _ _ E) _). intros e He; discriminate He. }
  split; [apply alone|]. split; [reflexivity|]. rewrite Er. vm_compute. reflexivity.
Qed.

Lemma registration_reported_witness :
  exists d, admit_policy_document [49] FormatJson = Some d /\ Some (draft_epoch_id first_draft) = Some (draft_epoch_id d) /\
    load_epoch registered_tables (draft_scope d) (draft_epoch_id d) = Ok (Some d).
Proof.
  destruct (registration_reported (PolicyDiagnostic := unit) empty_epochs [] register_first [] registered_tables created_outcome empty_epochs_hold) as [_ H].
  { eapply registration_runs; [reflexivity|vm_compute; reflexivity|vm_compute; reflexivity|reflexivity]. }
  exact (H (or_introl eq_refl)).
Defined.
