(* ===== verification/OverrideControls.v ===== *)
(** * Operator controls: overrides and their resolution

    Models [operator_controls/override.py], [resolution.py], [auth.py] and
    [app/override_resolution.py]: the commands that force or disable the
    omission of checks, the overrides they become, the events that audit them,
    who may give them, and what planning is told about the overrides in force.
    Every state that the durable records do not prove is answered with the full
    set of checks. *)

From stdpp Require Import base gmap sets list sorting strings.
From Stdlib Require Import ZArith Lia.
From S2P Require Import Prelude Text PyFloat CanonicalJson Hashing ConfigControl Instants IsoTime Reconciliation.

(** ** [override.py] *)

Inductive OverrideKind := force_full_ci_kind | disable_omission | enable_omission.
#[export] Instance OverrideKind_eq_dec : EqDecision OverrideKind.
Proof. solve_decision. Defined.

Definition kind_str (kind : OverrideKind) : pystr :=
  match kind with
  | force_full_ci_kind => u "force_full_ci"
  | disable_omission => u "disable_omission"
  | enable_omission => u "enable_omission"
  end.

Inductive OverrideAuditOutcome := applied_outcome | expired_outcome | unauthorized_outcome.
#[export] Instance OverrideAuditOutcome_eq_dec : EqDecision OverrideAuditOutcome.
Proof. solve_decision. Defined.

Definition audit_outcome_str (outcome : OverrideAuditOutcome) : pystr :=
  match outcome with
  | applied_outcome => u "applied"
  | expired_outcome => u "expired"
  | unauthorized_outcome => u "unauthorized"
  end.

(** [_OVERRIDE_ID.fullmatch(value)], [override_[0-9a-f]{32}]. *)
Definition is_override_id (value : pystr) : bool :=
  bool_decide (take 9 value = u "override_") && bool_decide (length value = 41%nat) && forallb is_lower_hex (drop 9 value).

(** A command that was constructed; [expires_at] is aware. *)
Record OverrideCommand := {
  oc_kind : OverrideKind;
  oc_scope : RepositoryScope;
  oc_subject_id : option pystr;
  oc_operation_id : pystr;
  oc_actor : pystr;
  oc_reason : pystr;
  oc_expires_at : option moment;
}.
#[export] Instance OverrideCommand_eq_dec : EqDecision OverrideCommand.
Proof. solve_decision. Defined.

(** [a == b] of optional aware times. *)
Definition same_expiry (a b : option moment) : bool :=
  match a, b with
  | None, None => true
  | Some a, Some b => same_instant a b
  | _, _ => false
  end.

(** [a == b]: an expiry is compared as an instant. *)
Definition command_eqb (a b : OverrideCommand) : bool :=
  bool_decide (oc_kind a = oc_kind b) && bool_decide (oc_scope a = oc_scope b) && bool_decide (oc_subject_id a = oc_subject_id b) &&
  bool_decide (oc_operation_id a = oc_operation_id b) && bool_decide (oc_actor a = oc_actor b) && bool_decide (oc_reason a = oc_reason b) &&
  same_expiry (oc_expires_at a) (oc_expires_at b).

Definition override_require_bounded_text (value : option pystr) (name : string) : res unit :=
  let refused := ValueError (u "override " ++ u name ++ u " must be bounded non-empty text") in
  match value with
  | None => Raise refused
  | Some [] => Raise refused
  | Some value => n ← utf8_length value; raise_if (512 <? n) refused
  end.

(** [OverrideCommand(...)]. *)
Definition OverrideCommand_new (kind : OverrideKind) (scope : RepositoryScope) (subject_id : option pystr)
    (operation_id actor reason : pystr) (expires_at : option iso_value) : res OverrideCommand :=
  match kind with
  | force_full_ci_kind => override_require_bounded_text subject_id "subject id"
  | disable_omission => raise_if (bool_decide (subject_id <> None)) (ValueError (u "disable_omission must not identify a subject"))
  | enable_omission =>
      raise_if (negb match subject_id with Some s => is_override_id s | None => false end)
        (ValueError (u "enable_omission must identify the exact disabled override"))
  end ;;
  override_require_bounded_text (Some operation_id) "operation id" ;;
  override_require_bounded_text (Some actor) "actor" ;;
  override_require_bounded_text (Some reason) "reason" ;;
  expiry ← match kind, expires_at with
           | force_full_ci_kind, Some (IsoAware m) => Ok (Some m)
           | force_full_ci_kind, _ => Raise (ValueError (u "force_full_ci expiry must be timezone-aware"))
           | _, Some _ => Raise (ValueError (u "repository omission controls must be latched without an expiry"))
           | _, None => Ok None
           end;
  Ok {| oc_kind := kind; oc_scope := scope; oc_subject_id := subject_id; oc_operation_id := operation_id; oc_actor := actor;
        oc_reason := reason; oc_expires_at := expiry |}.

Inductive OverrideAdmission := AdmittedOverrideCommand (command : OverrideCommand) | InvalidOverrideCommand.

(** [except (TypeError, ValueError, UnicodeError)]. *)
Definition admit_override_command (kind : OverrideKind) (scope : RepositoryScope) (subject_id : option pystr)
    (operation_id actor reason : pystr) (expires_at : option iso_value) : res OverrideAdmission :=
  match OverrideCommand_new kind scope subject_id operation_id actor reason expires_at with
  | Ok command => Ok (AdmittedOverrideCommand command)
  | Raise e => if is_value_error e || match e with TypeError _ => true | _ => false end then Ok InvalidOverrideCommand else Raise e
  end.

Record ActiveOverride := { av_override_id : pystr; av_command : OverrideCommand; av_applied_at : moment }.
#[export] Instance ActiveOverride_eq_dec : EqDecision ActiveOverride.
Proof. solve_decision. Defined.

(** [a == b]. *)
Definition active_override_eqb (a b : ActiveOverride) : bool :=
  bool_decide (av_override_id a = av_override_id b) && command_eqb (av_command a) (av_command b) &&
  same_instant (av_applied_at a) (av_applied_at b).

Record OverrideAuditEvent := {
  oe_event_id : pystr;
  oe_outcome : OverrideAuditOutcome;
  oe_command : OverrideCommand;
  oe_override_id : option pystr;
  oe_occurred_at : moment;
}.

Definition audit_event_eqb (a b : OverrideAuditEvent) : bool :=
  bool_decide (oe_event_id a = oe_event_id b) && bool_decide (oe_outcome a = oe_outcome b) && command_eqb (oe_command a) (oe_command b) &&
  bool_decide (oe_override_id a = oe_override_id b) && same_instant (oe_occurred_at a) (oe_occurred_at b).

(** A [datetime] that must be aware. *)
Definition require_aware (value : iso_value) (message : string) : res moment :=
  match value with IsoAware m => Ok m | IsoNaive => Raise (ValueError (u message)) end.

(** [value.expires_at <= instant], when there is an expiry. *)
Definition expired_at (command : OverrideCommand) (at_ : moment) : bool :=
  match oc_expires_at command with Some e => instant e <=? instant at_ | None => false end.

Definition scope_identity (scope : RepositoryScope) : pyval :=
  obj [("installationId", VInt (scope_installation_id scope)); ("repositoryId", VInt (scope_repository_id scope))]%string.

Definition _command_identity (command : OverrideCommand) : pyval :=
  obj [("kind", VStr (kind_str (oc_kind command))); ("scope", scope_identity (oc_scope command));
       ("subjectId", opt_str (oc_subject_id command)); ("operationId", VStr (oc_operation_id command));
       ("actor", VStr (oc_actor command)); ("reason", VStr (oc_reason command));
       ("expiresAt", opt_str (isoformat <$> oc_expires_at command))]%string.

(** The body of [ActiveOverride.applies_at] for an aware instant. *)
Definition in_force (override : ActiveOverride) (at_ : moment) : bool :=
  if bool_decide (oc_kind (av_command override) = enable_omission) || (instant at_ <? instant (av_applied_at override)) then false
  else match oc_expires_at (av_command override) with None => true | Some e => instant at_ <? instant e end.

Definition applies_at (override : ActiveOverride) (at_ : iso_value) : res bool :=
  m ← require_aware at_ "override evaluation time must be timezone-aware"; Ok (in_force override m).

Section overrides.
Context `{Sha256}.

Definition ActiveOverride_create (command : OverrideCommand) (applied_at : iso_value) : res ActiveOverride :=
  m ← require_aware applied_at "override application time must be timezone-aware";
  raise_if (expired_at command m) (ValueError (u "expired override cannot be applied")) ;;
  identity ← hash_mapping (_command_identity command);
  Ok {| av_override_id := u "override_" ++ take 32 identity; av_command := command; av_applied_at := m |}.

Definition OverrideAuditEvent_from_command (command : OverrideCommand) (outcome : OverrideAuditOutcome) (occurred_at : iso_value)
    (override_id : option pystr) : res OverrideAuditEvent :=
  m ← require_aware occurred_at "override audit time must be timezone-aware";
  identity ← hash_mapping (obj [("command", _command_identity command); ("outcome", VStr (audit_outcome_str outcome));
                                ("occurredAt", VStr (isoformat m)); ("overrideId", opt_str override_id)]%string);
  Ok {| oe_event_id := u "override_event_" ++ take 32 identity; oe_outcome := outcome; oe_command := command;
        oe_override_id := override_id; oe_occurred_at := m |}.

Definition OverrideAuditEvent_applied (override : ActiveOverride) : res OverrideAuditEvent :=
  OverrideAuditEvent_from_command (av_command override) applied_outcome (IsoAware (av_applied_at override)) (Some (av_override_id override)).

Definition OverrideAuditEvent_rejected (command : OverrideCommand) (outcome : OverrideAuditOutcome) (occurred_at : iso_value) : res OverrideAuditEvent :=
  OverrideAuditEvent_from_command command outcome occurred_at None.
End overrides.

(** ** [resolution.py] *)

Inductive OverrideLookupResult :=
  | ActiveOverrideRecords (force_full_ci disable_dynamic : option ActiveOverride)
  | OverrideLookupUnavailable.

Record OverrideResolution := {
  lookup_available : bool;
  force_full_ci_override : option ActiveOverride;
  disable_dynamic_override : option ActiveOverride;
}.

Definition OverrideResolution_check (r : OverrideResolution) : res unit :=
  raise_if (negb (lookup_available r) &&
            (bool_decide (force_full_ci_override r <> None) || bool_decide (disable_dynamic_override r <> None)))
    (ValueError (u "unavailable override lookup cannot expose records")) ;;
  let invalid := ValueError (u "override resolution record kind is invalid") in
  raise_if match force_full_ci_override r with Some o => bool_decide (oc_kind (av_command o) <> force_full_ci_kind) | None => false end invalid ;;
  raise_if match disable_dynamic_override r with Some o => bool_decide (oc_kind (av_command o) <> disable_omission) | None => false end invalid.

Definition force_full_ci (r : OverrideResolution) : bool :=
  negb (lookup_available r) || negb (bool_decide (force_full_ci_override r = None)) || negb (bool_decide (disable_dynamic_override r = None)).

Definition dynamic_ci_disabled (r : OverrideResolution) : bool := force_full_ci r.

(** The checks on the query; the instant is aware from here on. *)
Definition _require_query (subject_id : option pystr) (now : iso_value) : res moment :=
  let refused := ValueError (u "override resolution subject must be bounded text or null") in
  match subject_id with
  | None => Ok tt
  | Some [] => Raise refused
  | Some s => n ← utf8_length s; raise_if (512 <? n) refused
  end ;;
  require_aware now "override resolution time must be timezone-aware".

Definition _records_match_query (force disable : option ActiveOverride) (scope : RepositoryScope) (subject_id : option pystr) (now : moment) : bool :=
  match force with
  | None => true
  | Some force =>
      bool_decide (oc_kind (av_command force) = force_full_ci_kind) && bool_decide (oc_scope (av_command force) = scope) &&
      negb (bool_decide (subject_id = None)) && bool_decide (oc_subject_id (av_command force) = subject_id) && in_force force now
  end &&
  match disable with
  | None => true
  | Some disable =>
      bool_decide (oc_kind (av_command disable) = disable_omission) && bool_decide (oc_scope (av_command disable) = scope) && in_force disable now
  end.

(** The port [ActiveOverrideReader]. *)
Definition ActiveOverrideReader := RepositoryScope -> option pystr -> moment -> res OverrideLookupResult.

Definition resolve_active_overrides (reader : ActiveOverrideReader) (scope : RepositoryScope) (subject_id : option pystr) (now : iso_value)
    : res OverrideResolution :=
  now ← _require_query subject_id now;
  result ← reader scope subject_id now;
  let unavailable := {| lookup_available := false; force_full_ci_override := None; disable_dynamic_override := None |} in
  match result with
  | OverrideLookupUnavailable => checked OverrideResolution_check unavailable
  | ActiveOverrideRecords force disable =>
      if negb (_records_match_query force disable scope subject_id now) then checked OverrideResolution_check unavailable
      else checked OverrideResolution_check
             {| lookup_available := true; force_full_ci_override := force; disable_dynamic_override := disable |}
  end.

(** ** [auth.py] *)

(** The port [ActorAuthority]. *)
Record ActorAuthority := { is_administrator : pystr -> bool; is_break_glass : pystr -> bool }.

(** Repository access of the App: an answer, or the reader's exception. *)
Definition RepositoryAccessReader := RepositoryScope -> res bool.

Inductive ScopeMode := restricted_mode | app_mode.
#[export] Instance ScopeMode_eq_dec : EqDecision ScopeMode.
Proof. solve_decision. Defined.

Record ControlPlaneScopeAuthorizer := {
  actor_authority : ActorAuthority;
  allowed_scopes : list RepositoryScope;
  repository_access : option RepositoryAccessReader;
}.

Definition ControlPlaneScopeAuthorizer_new (authority : ActorAuthority) (scopes : list RepositoryScope) (mode : ScopeMode)
    (access : option RepositoryAccessReader) : res ControlPlaneScopeAuthorizer :=
  raise_if (negb (eqb (bool_decide (mode = app_mode)) match access with Some _ => true | None => false end))
    (ValueError (u "App scope admission requires exactly one repository access reader")) ;;
  Ok {| actor_authority := authority; allowed_scopes := scopes; repository_access := access |}.

Definition allows_scope (a : ControlPlaneScopeAuthorizer) (actor : pystr) (scope : RepositoryScope) : res bool :=
  if negb (is_administrator (actor_authority a) actor) then Ok false
  else match repository_access a with
  | None => Ok (bool_decide (scope ∈ allowed_scopes a))
  | Some access => access scope
  end.

Definition allows (a : ControlPlaneScopeAuthorizer) (actor : pystr) (action : OverrideKind) (scope : RepositoryScope) : res bool :=
  if is_break_glass (actor_authority a) actor
  then Ok (bool_decide (scope ∈ allowed_scopes a) && bool_decide (action ∈ [force_full_ci_kind; disable_omission]))
  else if bool_decide (action ∈ [force_full_ci_kind; disable_omission; enable_omission]) then allows_scope a actor scope else Ok false.

(** ** [app/override_resolution.py] *)

Record PlanningOverrideDecision := { pd_force_full_ci : bool; pd_reason : option pystr }.

Definition PlanningOverrideDecision_check (d : PlanningOverrideDecision) : res unit :=
  raise_if (negb (eqb (pd_force_full_ci d) (negb (bool_decide (pd_reason d = None)))))
    (ValueError (u "forced override decisions require exactly one reason")).

(** [DurablePlanningOverrideResolver.resolve]: the fields of the plan request
    that it reads, and the answer of the clock. *)
Definition resolve `{Sha256} (reader : ActiveOverrideReader) (installation_id repository_id : Z) (event_name ref base_sha head_sha : pystr)
    (workflow_run_id run_attempt : Z) (now : iso_value) : res PlanningOverrideDecision :=
  subject ← create installation_id repository_id event_name ref base_sha head_sha workflow_run_id run_attempt;
  scope ← checked RepositoryScope_check {| scope_installation_id := installation_id; scope_repository_id := repository_id |};
  resolution ← resolve_active_overrides reader scope (Some (subject_id subject)) now;
  let decision force reason := checked PlanningOverrideDecision_check {| pd_force_full_ci := force; pd_reason := reason |} in
  if negb (lookup_available resolution) then decision true (Some (u "override_state_unavailable"))
  else if force_full_ci resolution then decision true (Some (u "operator_override"))
  else decision false None.
