(* ===== verification/CanonicalRows.v ===== *)
(** * Canonical JSON in table rows

    Models [persistence/canonical_row.py]: the canonical object a row keeps
    beside its columns, and the guards of the decoded values.  A byte column is
    a list of octets, so that [require_bytes] is the identity. *)

From stdpp Require Import base gmap sets list sorting strings.
From Stdlib Require Import ZArith Lia.
From S2P Require Import Prelude Text PyFloat CanonicalJson Hashing JsonLoads JsonRoundtrip.

Definition codec_error (message : pystr) : exn := CanonicalRowCodecError message.

Definition encode_canonical_object (value : pyval) (maximum_bytes : Z) (context : pystr) : res (list Z) :=
  encoded ← canonical_json None value;
  raise_if (negb ((1 <=? Z.of_nat (length encoded)) && (Z.of_nat (length encoded) <=? maximum_bytes)))
    (codec_error (context ++ u " violates its admitted byte bound")) ;;
  Ok encoded.

(** The pairs of an object, refused when a key is repeated. *)
Definition _no_duplicate_object (pairs : list (pystr * pyval)) : res pyval :=
  new_dict ∘ reverse <$>
  foldR (fun (result : list (pystr * pyval)) pair =>
    raise_if (bool_decide (pair.1 ∈ result.*1)) (codec_error (u "stored canonical JSON has duplicate keys")) ;; Ok (pair :: result)) [] pairs.

Definition no_duplicates : json_hooks := {| object_pairs_hook := _no_duplicate_object; parse_float := Ok; parse_constant := Ok |}.

Definition decode_canonical_object (raw : list Z) (maximum_bytes : Z) (context : pystr) : res (list (dkey * pyval)) :=
  raise_if (negb ((1 <=? Z.of_nat (length raw)) && (Z.of_nat (length raw) <=? maximum_bytes)))
    (codec_error (u "stored " ++ context ++ u " violates its admitted byte bound")) ;;
  decoded ← match json_loads_bytes_with no_duplicates raw with
            | Raise (UnicodeDecodeError | JSONDecodeError | CanonicalRowCodecError _) =>
                Raise (codec_error (u "stored " ++ context ++ u " is not valid JSON"))
            | r => r
            end;
  mapping ← match decoded with
            | VDict _ l => Ok l
            | _ => Raise (codec_error (u "stored " ++ context ++ u " must be an object"))
            end;
  canonical ← canonical_json None decoded;
  raise_if (bool_decide (canonical <> raw)) (codec_error (u "stored " ++ context ++ u " is not canonical JSON")) ;;
  Ok mapping.

Definition require_bounded_text (value : pyval) (maximum_bytes : Z) (context : pystr) : res pystr :=
  let refused := codec_error (context ++ u " violates its admitted byte bound") in
  match value with
  | VStr [] => Raise refused
  | VStr s => n ← utf8_length s; raise_if (maximum_bytes <? n) refused ;; Ok s
  | _ => Raise refused
  end.

Definition require_digest (value : pyval) (context : pystr) : res pystr :=
  match value with
  | VStr s => raise_if (negb (is_sha256_hex s)) (codec_error (context ++ u " must be a lowercase SHA-256 digest")) ;; Ok s
  | _ => Raise (codec_error (context ++ u " must be a lowercase SHA-256 digest"))
  end.

Definition require_exact_keys (mapping : list (dkey * pyval)) (expected : list string) (context : pystr) : res unit :=
  raise_if (negb (forallb (fun k => bool_decide (KStr (u k) ∈ mapping.*1)) expected &&
                  forallb (fun k => existsb (fun e => bool_decide (k = KStr (u e))) expected) mapping.*1))
    (codec_error (context ++ u " has unexpected or missing fields")).

Definition semantic_hash `{Sha256} (value : pyval) : res pystr := sha256_hex <$> canonical_json None value.

(** ** A canonical object is read back *)

Lemma no_duplicate_object_Ok l : NoDup l.*1 -> _no_duplicate_object l = Ok (new_dict l).
Proof.
  intros Hn. unfold _no_duplicate_object.
  assert (Hf : forall seen todo, NoDup (reverse seen ++ todo).*1 ->
    foldR (fun (result : list (pystr * pyval)) pair => raise_if (bool_decide (pair.1 ∈ result.*1)) (codec_error (u "stored canonical JSON has duplicate keys")) ;; Ok (pair :: result))
      seen todo = Ok (reverse todo ++ seen)).
  { intros seen todo. revert seen. induction todo as [|x todo IH]; intros seen Hd; [done|]. cbn [foldR]. rewrite bool_decide_eq_false_2; [|].
    - cbn [raise_if mbind res_bind]. rewrite IH; [by rewrite reverse_cons, <- app_assoc|]. by rewrite reverse_cons, <- app_assoc.
    - rewrite fmap_app, NoDup_app in Hd. destruct Hd as (_ & Hd & _). intros Hx. apply (Hd x.1); [|by left].
      rewrite fmap_reverse. by apply elem_of_reverse. }
  rewrite (Hf [] l) by done. cbn. by rewrite app_nil_r, reverse_involutive.
Qed.

Lemma no_duplicates_admit : hooks_admit no_duplicates.
Proof. split; [intros l Hn _; by apply no_duplicate_object_Ok|done]. Qed.

(** Canonical text of an object is UTF-8 for the decoder. *)
Lemma object_detected oid l : detect_encoding (flat_map utf8_char (txt (VDict oid l))) = UTF8.
Proof.
  cbn [txt]. destruct (sort_entries _) as [|[k t] es]; [reflexivity|]. cbn [map].
  assert (exists r, commas (entry_text (k, t) :: map entry_text es) = 34 :: r) as [r ->].
  { unfold commas. destruct (map entry_text es); cbn; by eexists. }
  cbn [flat_map app utf8_char Z.leb Z.compare Pos.compare Pos.compare_cont]. cbn. by destruct (flat_map _ _) as [|? [|? ?]].
Qed.

Lemma canonical_object_read oid l b maximum context :
  well_formed (VDict oid l) -> encode_canonical_object (VDict oid l) maximum context = Ok b ->
  exists l', fresh 0 (norm (VDict oid l)) = VDict 0 l' /\ decode_canonical_object b maximum context = Ok l'.
Proof.
  intros Hw E. unfold encode_canonical_object in E. apply bind_Ok in E as (b' & Eb & E). apply bind_Ok in E as ([] & Hb & [= ->]).
  apply raise_if_Ok in Hb. eexists. split; [reflexivity|]. unfold decode_canonical_object. rewrite Hb. cbn [raise_if mbind res_bind].
  pose proof (norm_written _ _ _ Hw Eb) as En. destruct (canonical_json_facts _ _ _ Eb) as (Hj & E & Hs).
  assert (json_loads_bytes_with no_duplicates b = Ok (fresh 0 (norm (VDict oid l)))) as ->.
  { unfold json_loads_bytes_with. rewrite E, object_detected, utf8_decode_encode by done. cbn [mbind res_bind].
    by apply loads_hooked_txt; [apply no_duplicates_admit|]. }
  cbn [norm fresh mbind res_bind]. cbn [norm fresh] in En. rewrite En. cbn [mbind res_bind]. by rewrite bool_decide_eq_false_2 by (intros Hn; by apply Hn).
Qed.

Lemma bounded_text_read s n maximum context : s <> [] -> utf8_length s = Ok n -> n <= maximum -> require_bounded_text (VStr s) maximum context = Ok s.
Proof.
  intros Hs En Hn. unfold require_bounded_text. destruct s as [|c s]; [done|]. rewrite En. cbn [mbind res_bind].
  by rewrite (proj2 (Z.ltb_ge _ _)).
Qed.
