(* ===== verification/OverrideStore.v ===== *)
(** * Operator overrides in the database

    Models [persistence/operator_override_codec.py],
    [operator_override_repository.py] and the table of
    [operator_override_schema.py] with the constraints its attestation expects.
    The rows of the tables are the state; a column with a time keeps the
    instant.  A method comes with the tables its transaction leaves.  [apply]
    holds the lock of its repository scope and the row of the audit head, so
    that such transactions take effect one after the other; [resolve_active]
    holds no lock and its statements read what was committed when they start. *)

From stdpp Require Import base gmap sets list sorting strings.
From Stdlib Require Import ZArith Lia.
From S2P Require Import Prelude Text PyFloat CanonicalJson Hashing JsonLoads JsonRoundtrip ConfigControl Instants AuditEvents AuditChain AuditRepository Reconciliation IsoTime OverrideControls CanonicalRows.

(** ** Tables *)

Record override_row := {
  ov_override_id : pystr;
  ov_operation_id : pystr;
  ov_installation_id : Z;
  ov_repository_id : Z;
  ov_kind : pystr;
  ov_target_subject_id : option pystr;
  ov_expires_at : option Z;
  ov_applied_at : Z;
  ov_record_canonical_json : list Z;
  ov_semantic_hash : pystr;
  ov_audit_event_id : pystr;
  ov_audit_input_hash : list Z;
}.

(** The columns of [production_scope_states] that are read here. *)
Record production_row := { ps_installation_id : Z; ps_repository_id : Z; ps_latch_override_id : option pystr }.

(** [ot_attested]: the capabilities, the schema facts and the restricted
    principal that every admission attests from the catalog. *)
Record override_tables := {
  ot_audit : audit_tables;
  operator_overrides : list override_row;
  production_scope_states : list production_row;
  ot_attested : bool;
}.

Definition with_ledger (t : override_tables) (a : audit_tables) : override_tables :=
  {| ot_audit := a; operator_overrides := operator_overrides t; production_scope_states := production_scope_states t; ot_attested := ot_attested t |}.
Definition with_overrides (t : override_tables) (l : list override_row) : override_tables :=
  {| ot_audit := ot_audit t; operator_overrides := l; production_scope_states := production_scope_states t; ot_attested := ot_attested t |}.
Definition with_latches (t : override_tables) (l : list production_row) : override_tables :=
  {| ot_audit := ot_audit t; operator_overrides := operator_overrides t; production_scope_states := l; ot_attested := ot_attested t |}.

Definition in_columns (scope : RepositoryScope) (r : override_row) : bool :=
  (ov_installation_id r =? scope_installation_id scope) && (ov_repository_id r =? scope_repository_id scope).

(** The check constraints. *)
Definition override_constraints (r : override_row) : bool :=
  is_audit_event_id (VStr (ov_audit_event_id r)) && octets_between 32 32 (ov_audit_input_hash r) &&
  is_override_id (ov_override_id r) && text_octets 1 512 (ov_operation_id r) &&
  match ov_target_subject_id r with
  | Some target =>
      bool_decide (ov_kind r = u "force_full_ci") && text_octets 1 512 target && negb (bool_decide (ov_expires_at r = None)) ||
      bool_decide (ov_kind r = u "enable_omission") && is_override_id target && bool_decide (ov_expires_at r = None)
  | None => bool_decide (ov_kind r = u "disable_omission") && bool_decide (ov_expires_at r = None)
  end &&
  not_false (fun e => ov_applied_at r <? e) (ov_expires_at r) &&
  octets_between 1 8192 (ov_record_canonical_json r) && safe_id (ov_installation_id r) && safe_id (ov_repository_id r) &&
  is_sha256_hex (ov_semantic_hash r).

(** The primary key and the unique constraints. *)
Definition override_keys_clash (r q : override_row) : bool :=
  bool_decide (ov_override_id q = ov_override_id r) || bool_decide (ov_audit_event_id q = ov_audit_event_id r) ||
  (ov_installation_id q =? ov_installation_id r) && (ov_repository_id q =? ov_repository_id r) && bool_decide (ov_operation_id q = ov_operation_id r).

Definition event_stored (t : override_tables) (audit_event_id : pystr) : bool :=
  existsb (fun r => bool_decide (row_audit_event_id r = audit_event_id)) (audit_events (ot_audit t)).

(** [INSERT ... ON CONFLICT DO NOTHING RETURNING override_id]. *)
Definition insert_override (t : override_tables) (r : override_row) : res (option pystr * override_tables) :=
  raise_if (negb (override_constraints r)) SQLAlchemyError ;;
  if existsb (override_keys_clash r) (operator_overrides t) then Ok (None, t)
  else
    raise_if (negb (event_stored t (ov_audit_event_id r))) SQLAlchemyError ;;
    Ok (Some (ov_override_id r), with_overrides t (operator_overrides t ++ [r])).

(** ** [operator_override_codec.py] *)

Definition _RECORD_MAXIMUM_BYTES : Z := 8192.
Definition OPERATOR_OVERRIDE_APPLIED : pystr := u "operator_override_applied".

Record StoredOverrideRecord := { so_override : ActiveOverride; so_audit_event_id : pystr; so_audit_input_hash : pystr }.

(** [a == b]. *)
Definition stored_eqb (a b : StoredOverrideRecord) : bool :=
  active_override_eqb (so_override a) (so_override b) && bool_decide (so_audit_event_id a = so_audit_event_id b) &&
  bool_decide (so_audit_input_hash a = so_audit_input_hash b).

Definition _audit_timestamp (value : moment) : res pystr := v ← astimezone_utc value; Ok (isoformat_ms (instant v)).

Definition _scope_operation_key (prefix : pystr) (command : OverrideCommand) : pystr :=
  prefix ++ u ":" ++ int_str (scope_installation_id (oc_scope command)) ++ u ":" ++ int_str (scope_repository_id (oc_scope command)) ++
  u ":" ++ oc_operation_id command.

Definition override_audit_subject_id (scope : RepositoryScope) : pystr :=
  u "operator-override:" ++ int_str (scope_installation_id scope) ++ u ":" ++ int_str (scope_repository_id scope).

Definition _audit_command_projection (command : OverrideCommand) : res pyval :=
  expires ← match oc_expires_at command with None => Ok None | Some e => Some <$> _audit_timestamp e end;
  Ok (obj [("kind", VStr (kind_str (oc_kind command))); ("scope", scope_identity (oc_scope command));
           ("subjectId", opt_str (oc_subject_id command)); ("operationId", VStr (oc_operation_id command));
           ("actor", VStr (oc_actor command)); ("reason", VStr (oc_reason command)); ("expiresAt", opt_str expires)]%string).

(** An event about the controls of a repository. *)
Definition override_event (prefix : pystr) (command : OverrideCommand) (event_type created_at : pystr) (payload : pyval) : InputObject := {|
  io_idempotency_key := VStr (_scope_operation_key prefix command);
  io_subject_type := VStr (u "policy-decision"); io_subject_id := VStr (override_audit_subject_id (oc_scope command));
  io_event_type := VStr event_type; io_created_at := VStr created_at; io_actor := VStr (oc_actor command); io_payload := fresh 0 payload;
  io_installation_id := VInt (scope_installation_id (oc_scope command)); io_repository_id := VInt (scope_repository_id (oc_scope command)) |}.

Definition _exact_int (value : pyval) (context : string) : res Z :=
  let refused := codec_error (u "stored operator override " ++ u context ++ u " is invalid") in
  match value with
  | VInt z => raise_if (negb ((1 <=? z) && (z <=? MAX_SAFE_JSON_INTEGER))) refused ;; Ok z
  | _ => Raise refused
  end.

Definition _override_kind (value : pyval) : res OverrideKind :=
  match value with
  | VStr s =>
      if bool_decide (s = u "force_full_ci") then Ok force_full_ci_kind
      else if bool_decide (s = u "disable_omission") then Ok disable_omission
      else if bool_decide (s = u "enable_omission") then Ok enable_omission
      else Raise (codec_error (u "stored operator override kind is invalid"))
  | _ => Raise (codec_error (u "stored operator override kind is invalid"))
  end.

Definition _decode_subject (kind : OverrideKind) (value : pyval) : res (option pystr) :=
  match kind with
  | disable_omission =>
      match value with
      | VNone => Ok None
      | _ => Raise (codec_error (u "stored repository override subject must be null"))
      end
  | enable_omission =>
      target ← require_bounded_text value 41 (u "released operator override");
      raise_if (negb (is_override_id target)) (codec_error (u "stored omission release target is invalid")) ;;
      Ok (Some target)
  | force_full_ci_kind => Some <$> require_bounded_text value 512 (u "operator override subject")
  end.

Definition _encoded_datetime `{OtherIsoTexts} (value : pyval) (context : string) : res moment :=
  let refused := codec_error (u "stored operator override " ++ u context ++ u " is invalid") in
  match value with
  | VStr [] => Raise refused
  | VStr s =>
      match fromisoformat s with
      | None => Raise refused
      | Some IsoNaive => Raise (codec_error (u "stored operator override " ++ u context ++ u " lacks a timezone"))
      | Some (IsoAware m) => Ok m
      end
  | _ => Raise refused
  end.

Definition _optional_encoded_datetime `{OtherIsoTexts} (value : pyval) (context : string) : res (option moment) :=
  match value with VNone => Ok None | _ => Some <$> _encoded_datetime value context end.

(** The columns of a target: a repository control that disables names none. *)
Definition target_subject (command : OverrideCommand) : option pystr :=
  if bool_decide (oc_kind command <> disable_omission) then oc_subject_id command else None.

Section codec.
Context `{Sha256} `{OtherIsoTexts}.

(** The event of an override that was applied. *)
Definition applied_event (override : ActiveOverride) (occurred_at : moment) : res InputObject :=
  let command := av_command override in
  created_at ← _audit_timestamp occurred_at;
  projection ← _audit_command_projection command;
  applied_at ← _audit_timestamp (av_applied_at override);
  Ok (override_event (u "operator-override") command OPERATOR_OVERRIDE_APPLIED created_at
        (obj [("schemaVersion", VStr (u "operator-override-audit/v1")); ("overrideId", VStr (av_override_id override));
              ("outcome", VStr (u "applied")); ("command", projection); ("appliedAt", VStr applied_at)]%string)).

Definition _prepare_applied_event (override : ActiveOverride) (event : OverrideAuditEvent) : res PreparedAuditEvent :=
  let mismatch := ValueError (u "operator override audit event does not match its state") in
  raise_if (negb (command_eqb (oe_command event) (av_command override))) mismatch ;;
  applied ← OverrideAuditEvent_applied override;
  raise_if (negb (audit_event_eqb event applied)) mismatch ;;
  input ← applied_event override (oe_occurred_at event);
  prepare_audit_event (InputExact input).

Definition rejection_event (event : OverrideAuditEvent) : res InputObject :=
  let command := oe_command event in
  created_at ← _audit_timestamp (oe_occurred_at event);
  projection ← _audit_command_projection command;
  Ok (override_event (u "operator-override-rejection") command (u "operator_override_rejected") created_at
        (obj [("schemaVersion", VStr (u "operator-override-audit/v1")); ("outcome", VStr (audit_outcome_str (oe_outcome event)));
              ("command", projection)]%string)).

Definition _prepare_rejection_event (event : OverrideAuditEvent) : res PreparedAuditEvent :=
  expected ← match oe_outcome event with
             | applied_outcome => Raise (ValueError (u "operator override rejection audit event is invalid"))
             | outcome => OverrideAuditEvent_rejected (oe_command event) outcome (IsoAware (oe_occurred_at event))
             end;
  raise_if (negb (audit_event_eqb event expected)) (ValueError (u "operator override rejection audit identity is invalid")) ;;
  input ← rejection_event event;
  prepare_audit_event (InputExact input).

(** The object a row keeps. *)
Definition override_projection (override : ActiveOverride) (audit_event_id audit_input_hash : pystr) : pyval :=
  let command := av_command override in
  obj [("schemaVersion", VStr (u "operator-override-state/v1")); ("overrideId", VStr (av_override_id override));
       ("operationId", VStr (oc_operation_id command)); ("kind", VStr (kind_str (oc_kind command)));
       ("scope", scope_identity (oc_scope command)); ("subjectId", opt_str (oc_subject_id command)); ("actor", VStr (oc_actor command));
       ("reason", VStr (oc_reason command)); ("expiresAt", opt_str (isoformat <$> oc_expires_at command));
       ("appliedAt", VStr (isoformat (av_applied_at override))); ("auditEventId", VStr audit_event_id);
       ("auditInputHash", VStr audit_input_hash)]%string.

Definition _override_to_row (override : ActiveOverride) (audit_record : AuditEventRecord) : res override_row :=
  let command := av_command override in
  let projection := fresh 0 (override_projection override (audit_event_id audit_record) (input_hash audit_record)) in
  canonical ← encode_canonical_object projection _RECORD_MAXIMUM_BYTES (u "operator override record");
  semantic ← semantic_hash projection;
  hash ← fromhex (input_hash audit_record);
  Ok {| ov_override_id := av_override_id override; ov_operation_id := oc_operation_id command;
        ov_installation_id := scope_installation_id (oc_scope command); ov_repository_id := scope_repository_id (oc_scope command);
        ov_kind := kind_str (oc_kind command); ov_target_subject_id := target_subject command;
        ov_expires_at := instant <$> oc_expires_at command; ov_applied_at := instant (av_applied_at override);
        ov_record_canonical_json := canonical; ov_semantic_hash := semantic; ov_audit_event_id := audit_event_id audit_record;
        ov_audit_input_hash := hash |}.

Definition decode_operator_override_row (row : override_row) : res StoredOverrideRecord :=
  mapping ← decode_canonical_object (ov_record_canonical_json row) _RECORD_MAXIMUM_BYTES (u "operator override record");
  require_exact_keys mapping ["schemaVersion"; "overrideId"; "operationId"; "kind"; "scope"; "subjectId"; "actor"; "reason"; "expiresAt";
                              "appliedAt"; "auditEventId"; "auditInputHash"]%string (u "operator override record") ;;
  raise_if (negb match dict_get mapping "schemaVersion" with VStr s => bool_decide (s = u "operator-override-state/v1") | _ => false end)
    (codec_error (u "stored operator override schema version is invalid")) ;;
  scope_mapping ← match dict_get mapping "scope" with
                  | VDict _ l => Ok l
                  | _ => Raise (codec_error (u "stored operator override scope is invalid"))
                  end;
  require_exact_keys scope_mapping ["installationId"; "repositoryId"]%string (u "operator override scope") ;;
  installation ← _exact_int (dict_get scope_mapping "installationId") "installation id";
  repository ← _exact_int (dict_get scope_mapping "repositoryId") "repository id";
  scope ← checked RepositoryScope_check (scope_of installation repository);
  expires_at ← _optional_encoded_datetime (dict_get mapping "expiresAt") "expiry";
  applied_at ← _encoded_datetime (dict_get mapping "appliedAt") "application time";
  kind ← _override_kind (dict_get mapping "kind");
  subject ← _decode_subject kind (dict_get mapping "subjectId");
  operation ← require_bounded_text (dict_get mapping "operationId") 512 (u "operator override operation");
  actor ← require_bounded_text (dict_get mapping "actor") 512 (u "operator override actor");
  reason ← require_bounded_text (dict_get mapping "reason") 512 (u "operator override reason");
  command ← OverrideCommand_new kind scope subject operation actor reason (IsoAware <$> expires_at);
  rebuilt ← ActiveOverride_create command (IsoAware applied_at);
  override_id ← require_bounded_text (dict_get mapping "overrideId") 41 (u "operator override id");
  event_id ← require_bounded_text (dict_get mapping "auditEventId") 38 (u "operator override audit event id");
  audit_input_hash ← require_digest (dict_get mapping "auditInputHash") (u "operator override audit input hash");
  raise_if (negb (is_override_id override_id) || bool_decide (av_override_id rebuilt <> override_id))
    (codec_error (u "stored operator override identity is invalid")) ;;
  raise_if (negb (is_audit_event_id (VStr event_id))) (codec_error (u "stored operator override audit identity is invalid")) ;;
  hash_bytes ← fromhex audit_input_hash;
  semantic ← semantic_hash (VDict 0 mapping);
  raise_if (bool_decide (ov_override_id row <> override_id) || bool_decide (ov_operation_id row <> oc_operation_id command) ||
            negb (in_columns scope row) || bool_decide (ov_kind row <> kind_str (oc_kind command)) ||
            bool_decide (ov_target_subject_id row <> target_subject command) ||
            bool_decide (ov_expires_at row <> (instant <$> expires_at)) || negb (ov_applied_at row =? instant applied_at) ||
            bool_decide (ov_semantic_hash row <> semantic) || bool_decide (ov_audit_event_id row <> event_id) ||
            bool_decide (ov_audit_input_hash row <> hash_bytes))
    (codec_error (u "stored operator override columns disagree with its record")) ;;
  Ok {| so_override := rebuilt; so_audit_event_id := event_id; so_audit_input_hash := audit_input_hash |}.

(** ** [operator_override_repository.py] *)

Inductive OverrideStoreResult :=
  | OverrideApplied (override : ActiveOverride)
  | OverrideDuplicate (override : ActiveOverride)
  | OverrideConflict
  | OverrideUnavailable.

Definition _prepared_audit_identity (event : PreparedAuditEvent) : list (list Z) :=
  let e := pr_input event in
  [ei_idempotency_key e; ei_subject_type e; ei_subject_id e; ei_event_type e; ei_created_at e; ei_actor e; payload_canonical_bytes event;
   pr_payload_hash event; pr_input_hash event].

(** A text parameter of a statement, or a key to lock: PostgreSQL refuses NUL
    characters. *)
Definition text_parameter (value : pystr) : res unit := raise_if (has_char 0 value) SQLAlchemyError.

Definition _lock_operation (command : OverrideCommand) : res unit := text_parameter (_scope_operation_key (u "operator-override") command).

(** [except PersistenceError: raise] and then [except (...) as error: raise
    StoreUnavailable(...)]. *)
Definition override_guard {A} (caught : exn -> bool) (message : string) (r : res A) : res A :=
  match r with
  | Raise e => if negb (is_persistence_error e) && caught e then Raise (StoreUnavailable (u message)) else Raise e
  | r => r
  end.

Definition is_codec_or_sql (e : exn) : bool := match e with CanonicalRowCodecError _ | SQLAlchemyError => true | _ => false end.

(** An audit event of an applied override has an override. *)
Definition has_override (t : override_tables) (r : audit_row) : bool :=
  existsb (fun o => bool_decide (ov_audit_event_id o = row_audit_event_id r)) (operator_overrides t).

Definition admit_operator_override_state (t : override_tables) : res unit :=
  raise_if (negb (ot_attested t)) (DatabaseCapabilityUnavailable (u "operator override schema facts do not match")) ;;
  raise_if (existsb (fun r => bool_decide (row_event_type r = OPERATOR_OVERRIDE_APPLIED) && negb (has_override t r)) (audit_events (ot_audit t)))
    (DatabaseCapabilityUnavailable (u "operator override audit and state projection are inconsistent")).

Definition _load_operation (t : override_tables) (command : OverrideCommand) : res (option StoredOverrideRecord) :=
  row ← one_or_none (List.filter (fun r => in_columns (oc_scope command) r && bool_decide (ov_operation_id r = oc_operation_id command))
                                 (operator_overrides t));
  match row with None => Ok None | Some row => Some <$> decode_operator_override_row row end.

Record _SequencedOverride := { sq_record : StoredOverrideRecord; audit_sequence : Z }.

Definition _sequenced_override (row : override_row * Z) : res _SequencedOverride :=
  if row.2 <? 1 then violation "stored operator override audit sequence is invalid"
  else record ← decode_operator_override_row row.1; Ok {| sq_record := record; audit_sequence := row.2 |}.

(** The overrides joined with the sequence of their audit event. *)
Definition joined (t : override_tables) : list (override_row * Z) :=
  flat_map (fun o => (fun r => (o, row_sequence r)) <$>
              List.filter (fun r => bool_decide (row_audit_event_id r = ov_audit_event_id o)) (audit_events (ot_audit t)))
    (operator_overrides t).

Definition _load_latest_omission_control (t : override_tables) (scope : RepositoryScope) : res (option _SequencedOverride) :=
  let selected := List.filter (fun p => in_columns scope p.1 && bool_decide (ov_kind p.1 ∈ [u "disable_omission"; u "enable_omission"])) (joined t) in
  row ← one_or_none (take 1 (isort (fun p q => q.2 <=? p.2) selected));
  match row with None => Ok None | Some row => Some <$> _sequenced_override row end.

Definition cutover_latch (t : override_tables) (scope : RepositoryScope) : option pystr :=
  match List.filter (fun r => (ps_installation_id r =? scope_installation_id scope) && (ps_repository_id r =? scope_repository_id scope))
                    (production_scope_states t) with
  | r :: _ => ps_latch_override_id r
  | [] => None
  end.

Definition control_kind (control : _SequencedOverride) : OverrideKind := oc_kind (av_command (so_override (sq_record control))).

Definition _transition_is_admitted (t : override_tables) (override : ActiveOverride) : res bool :=
  let command := av_command override in
  match oc_kind command with
  | force_full_ci_kind => Ok true
  | kind =>
      latest ← _load_latest_omission_control t (oc_scope command);
      if match latest with Some l => instant (av_applied_at override) <? instant (av_applied_at (so_override (sq_record l))) | None => false end
      then Ok false
      else if bool_decide (kind = disable_omission)
      then Ok match latest with None => true | Some l => bool_decide (control_kind l = enable_omission) end
      else match cutover_latch t (oc_scope command) with
      | Some _ => Ok false
      | None =>
          Ok match latest with
             | None => false
             | Some l => bool_decide (control_kind l = disable_omission) &&
                         bool_decide (Some (av_override_id (so_override (sq_record l))) = oc_subject_id command)
             end
      end
  end.

Inductive state_write := inserted | duplicate | conflict.

Definition _write_state (t : override_tables) (override : ActiveOverride) (audit_record : AuditEventRecord) : res (state_write * override_tables) :=
  row ← _override_to_row override audit_record;
  '(returned, t') ← insert_override t row;
  if bool_decide (returned = Some (av_override_id override)) then Ok (inserted, t')
  else
    stored_row ← one_or_none (List.filter (fun r => in_columns (oc_scope (av_command override)) r &&
                                                    bool_decide (ov_operation_id r = oc_operation_id (av_command override))) (operator_overrides t'));
    match stored_row with
    | None => violation "operator override insert collision is invalid"
    | Some stored_row =>
        stored ← decode_operator_override_row stored_row;
        attempted ← decode_operator_override_row row;
        Ok (if stored_eqb stored attempted then duplicate else conflict, t')
    end.

(** A conflict leaves the tables: its transaction is rolled back. *)
Definition apply (t : override_tables) (override : ActiveOverride) (prepared_audit : PreparedAuditEvent) : res (OverrideStoreResult * override_tables) :=
  let command := av_command override in
  audit_event ← OverrideAuditEvent_applied override;
  expected_audit ← _prepare_applied_event override audit_event;
  if bool_decide (_prepared_audit_identity prepared_audit <> _prepared_audit_identity expected_audit)
  then violation "operator override audit does not match its state"
  else override_guard is_codec_or_sql "operator override persistence failed"
    (admit_operator_override_state t ;;
     _lock_operation command ;;
     existing ← _load_operation t command;
     match existing with
     | Some existing =>
         Ok (if command_eqb (av_command (so_override existing)) command then OverrideDuplicate (so_override existing) else OverrideConflict, t)
     | None =>
         admitted ← _transition_is_admitted t override;
         if negb admitted then Ok (OverrideConflict, t)
         else
           '(audit_result, ledger) ← _append_pair_owned (ot_audit t) prepared_audit (oc_scope command);
           match audit_result with
           | AuditAppendConflict _ _ _ => Ok (OverrideConflict, t)
           | AuditAppendAppended record =>
               '(state_result, t') ← _write_state (with_ledger t ledger) override record;
               Ok match state_result with
                  | inserted => (OverrideApplied override, t')
                  | duplicate => (OverrideDuplicate override, t')
                  | conflict => (OverrideConflict, t)
                  end
           | AuditAppendDuplicate record =>
               '(state_result, t') ← _write_state (with_ledger t ledger) override record;
               Ok match state_result with
                  | conflict => (OverrideConflict, t)
                  | _ => (OverrideDuplicate override, t')
                  end
           end
     end).

Definition resolve_operation (t : override_tables) (command : OverrideCommand) : res (option OverrideStoreResult) :=
  override_guard is_codec_or_sql "operator override operation lookup failed"
    (admit_operator_override_state t ;;
     _lock_operation command ;;
     existing ← _load_operation t command;
     Ok match existing with
        | None => None
        | Some existing =>
            Some (if command_eqb (av_command (so_override existing)) command then OverrideDuplicate (so_override existing) else OverrideConflict)
        end).

(** [None] is an unavailable lookup. *)
Definition _load_active_force (t : override_tables) (scope : RepositoryScope) (subject_id : option pystr) (now : moment)
    : res (option (option ActiveOverride)) :=
  match subject_id with
  | None => Ok (Some None)
  | Some subject_id =>
      text_parameter subject_id ;;
      let selected := List.filter (fun r => in_columns scope r && bool_decide (ov_kind r = u "force_full_ci") &&
                                            bool_decide (ov_target_subject_id r = Some subject_id) &&
                                            match ov_expires_at r with Some e => instant now <? e | None => false end) (operator_overrides t) in
      let later p q := (ov_applied_at q <? ov_applied_at p) ||
                       (ov_applied_at q =? ov_applied_at p) && str_leb (ov_override_id q) (ov_override_id p) in
      row ← one_or_none (take 1 (isort later selected));
      match row with
      | None => Ok (Some None)
      | Some row =>
          stored ← decode_operator_override_row row;
          let override := so_override stored in
          if instant now <? instant (av_applied_at override) then Ok None
          else if negb (in_force override now) then violation "stored force-FullCI override is not active"
          else Ok (Some (Some override))
      end
  end.

Definition _assert_valid_enable_transition (t : override_tables) (scope : RepositoryScope) (enable : _SequencedOverride) : res unit :=
  match oc_subject_id (av_command (so_override (sq_record enable))) with
  | None => violation "stored omission enable target is missing"
  | Some target_id =>
      row ← one_or_none (List.filter (fun p => bool_decide (ov_override_id p.1 = target_id) && in_columns scope p.1) (joined t));
      match row with
      | None => violation "stored omission enable target is missing"
      | Some row =>
          target ← _sequenced_override row;
          if bool_decide (av_override_id (so_override (sq_record target)) <> target_id) || bool_decide (control_kind target <> disable_omission) ||
             (audit_sequence enable <=? audit_sequence target)
          then violation "stored omission enable transition is invalid" else Ok tt
      end
  end.

(** [_require_resolution_query]. *)
Definition _require_resolution_query (subject_id : option pystr) : res unit :=
  match subject_id with
  | None => Ok tt
  | Some s => _ ← require_bounded_text (VStr s) 512 (u "operator override resolution subject"); Ok tt
  end.

(** The tables that the statements read: the admission, the force, the latest
    control and the target of an enable. *)
Definition resolve_active (t_admission t_force t_control t_target : override_tables) (scope : RepositoryScope) (subject_id : option pystr) (now : moment)
    : res OverrideLookupResult :=
  _require_resolution_query subject_id ;;
  override_guard (fun e => is_codec_or_sql e || is_value_error e) "operator override resolution failed"
    (admit_operator_override_state t_admission ;;
     force ← _load_active_force t_force scope subject_id now;
     match force with
     | None => Ok OverrideLookupUnavailable
     | Some force =>
         control ← _load_latest_omission_control t_control scope;
         match control with
         | None => Ok (ActiveOverrideRecords force None)
         | Some control =>
             disable ← match control_kind control with
                       | disable_omission => Ok (Some (so_override (sq_record control)))
                       | enable_omission => _assert_valid_enable_transition t_target scope control ;; Ok None
                       | force_full_ci_kind => violation "stored omission control kind is invalid"
                       end;
             if instant now <? instant (av_applied_at (so_override (sq_record control))) then Ok OverrideLookupUnavailable
             else Ok (ActiveOverrideRecords force disable)
         end
     end).
End codec.
