(* ===== verification/OverrideRows.v ===== *)
(** * Rows of overrides

    An override whose command was admitted and the audit event of its
    application become a row, and the row is read back as that override: the
    canonical record, the columns and the identities agree. *)

From stdpp Require Import base gmap sets list sorting strings.
From Stdlib Require Import ZArith Lia.
From S2P Require Import Prelude Text PyFloat CanonicalJson Hashing JsonLoads JsonRoundtrip ConfigControl Instants AuditEvents AuditChain AuditFacts AuditChainFacts AuditRepository AuditRepositoryFacts AuditStore TableFacts Reconciliation IsoTime OverrideControls CanonicalRows OverrideStore.

(** ** Admitted commands *)

Definition bounded (s : pystr) : Prop := s <> [] /\ exists n, utf8_length s = Ok n /\ n <= 512.

Lemma bounded_Ok s name : override_require_bounded_text (Some s) name = Ok tt <-> bounded s.
Proof.
  unfold override_require_bounded_text, bounded. destruct s as [|c s]; [by split; [|intros [? _]]|]. rewrite bind_Ok. split.
  - intros (n & En & Hn%raise_if_Ok). apply Z.ltb_ge in Hn. eauto.
  - intros (_ & n & En & Hn). exists n. split; [done|]. by rewrite (proj2 (Z.ltb_ge _ _)).
Qed.

Lemma utf8_length_scalar s n : utf8_length s = Ok n -> is_unicode_scalar_string s = true.
Proof. unfold utf8_length, utf8_encode. by destruct (is_unicode_scalar_string s). Qed.

Lemma bounded_scalar s : bounded s -> is_unicode_scalar_string s = true.
Proof. intros (_ & n & En & _). by eapply utf8_length_scalar. Qed.

Lemma bounded_read s context : bounded s -> require_bounded_text (VStr s) 512 context = Ok s.
Proof. intros (Hs & n & En & Hn). by eapply bounded_text_read. Qed.

Lemma ascii_length s : (forall c, c ∈ s -> 0 <= c < 128) -> utf8_length s = Ok (Z.of_nat (length s)).
Proof.
  intros Hs. unfold utf8_length. rewrite utf8_encode_Ok by (apply scalar_of_small; intros c Hc%Hs; lia). cbn. do 2 f_equal.
  induction s as [|c s IH]; [done|]. cbn [flat_map length]. rewrite length_app, IH by (intros x Hx; apply Hs; by right). f_equal.
  rewrite utf8_char_length. by rewrite (proj2 (Z.leb_le _ _)) by (specialize (Hs c ltac:(by left)); lia).
Qed.

Lemma lower_hex_ascii l c : forallb is_lower_hex l = true -> c ∈ l -> 0 <= c < 128.
Proof. rewrite forallb_elem. intros Hl Hc%Hl. unfold is_lower_hex in Hc. lia. Qed.

(** A prefix and hexadecimal digits. *)
Lemma prefixed_ascii (p : string) s n : forallb (fun c => (0 <=? c) && (c <? 128)) (u p) = true -> take n s = u p -> forallb is_lower_hex (drop n s) = true ->
  utf8_length s = Ok (Z.of_nat (length s)).
Proof.
  intros Hp Ht Hd. apply ascii_length. intros c Hc. rewrite <- (take_drop n s) in Hc. apply elem_of_app in Hc as [Hc|Hc].
  - rewrite Ht in Hc. rewrite forallb_elem in Hp. apply Hp in Hc. lia.
  - by eapply lower_hex_ascii.
Qed.

Lemma override_id_length s : is_override_id s = true -> s <> [] /\ utf8_length s = Ok 41.
Proof.
  unfold is_override_id. rewrite !andb_true_iff'. intros [[Ht Hl] Hd]. apply bool_decide_eq_true in Ht, Hl. split; [by destruct s|].
  rewrite (prefixed_ascii "override_" s 9); [by rewrite Hl|done..].
Qed.

Lemma event_id_length s : is_audit_event_id (VStr s) = true -> s <> [] /\ utf8_length s = Ok 38.
Proof.
  unfold is_audit_event_id. rewrite !andb_true_iff'. intros [[Ht Hl] Hd]. apply bool_decide_eq_true in Hl. split; [by destruct s|].
  assert (take 6 s = u "audit_") by by apply startswith_spec in Ht as (r & ->).
  rewrite (prefixed_ascii "audit_" s 6); [by rewrite Hl|done..].
Qed.

Lemma override_hex_prefix h : is_sha256_hex h = true -> is_override_id (u "override_" ++ take 32 h) = true.
Proof.
  intros [Hl Hh]%andb_true_iff'. apply bool_decide_eq_true in Hl. unfold is_override_id. rewrite !andb_true_iff'. split_and!.
  - apply bool_decide_eq_true. done.
  - apply bool_decide_eq_true. rewrite length_app, length_take, Hl. done.
  - change (drop 9 (u "override_" ++ take 32 h)) with (take 32 h). rewrite forallb_elem in Hh |- *. intros c Hc. apply Hh.
    rewrite <- (take_drop 32 h). apply elem_of_app. by left.
Qed.

(** A command that its constructor gave, of a checked scope. *)
Record command_ok (c : OverrideCommand) : Prop := {
  ck_new : OverrideCommand_new (oc_kind c) (oc_scope c) (oc_subject_id c) (oc_operation_id c) (oc_actor c) (oc_reason c)
             (IsoAware <$> oc_expires_at c) = Ok c;
  ck_scope : RepositoryScope_check (oc_scope c) = Ok tt;
  ck_expiry : forall e, oc_expires_at c = Some e -> moment_ok e = true;
}.

(** What a command of each kind has. *)
Record command_shape (c : OverrideCommand) : Prop := {
  cs_operation : bounded (oc_operation_id c);
  cs_actor : bounded (oc_actor c);
  cs_reason : bounded (oc_reason c);
  cs_kind : match oc_kind c, oc_subject_id c, oc_expires_at c with
            | force_full_ci_kind, Some s, Some _ => bounded s
            | disable_omission, None, None => True
            | enable_omission, Some s, None => is_override_id s = true
            | _, _, _ => False
            end;
}.

Lemma constructed_shape kind scope subject operation actor reason expires c :
  OverrideCommand_new kind scope subject operation actor reason expires = Ok c ->
  c = {| oc_kind := kind; oc_scope := scope; oc_subject_id := subject; oc_operation_id := operation; oc_actor := actor; oc_reason := reason;
         oc_expires_at := match expires with Some (IsoAware m) => Some m | _ => None end |} /\
  command_shape c /\ expires = IsoAware <$> oc_expires_at c.
Proof.
  unfold OverrideCommand_new. intros E. apply bind_Ok in E as ([] & Ek & E). apply bind_Ok in E as ([] & Eo%bounded_Ok & E).
  apply bind_Ok in E as ([] & Ea%bounded_Ok & E). apply bind_Ok in E as ([] & Er%bounded_Ok & E). apply bind_Ok in E as (x & Ex & [= <-]).
  destruct kind.
  - destruct expires as [[|m]|]; try done. injection Ex as <-. destruct subject as [s|]; [|done]. apply bounded_Ok in Ek. (split; [done|split; [by constructor|done]]).
  - destruct expires; [done|]. injection Ex as <-. apply raise_if_Ok, bool_decide_eq_false in Ek. apply dec_stable in Ek as ->. (split; [done|split; [by constructor|done]]).
  - destruct expires; [done|]. injection Ex as <-. apply raise_if_Ok, negb_false_iff in Ek. destruct subject as [s|]; [|done]. (split; [done|split; [by constructor|done]]).
Qed.

Lemma shape_constructed c : command_shape c ->
  OverrideCommand_new (oc_kind c) (oc_scope c) (oc_subject_id c) (oc_operation_id c) (oc_actor c) (oc_reason c) (IsoAware <$> oc_expires_at c) = Ok c.
Proof.
  intros [Ho Ha Hr Hk]. unfold OverrideCommand_new. rewrite (proj2 (bounded_Ok _ "operation id") Ho), (proj2 (bounded_Ok _ "actor") Ha), (proj2 (bounded_Ok _ "reason") Hr).
  destruct c as [[] s [subject|] o a r [e|]]; try done; cbn [oc_kind oc_scope oc_subject_id oc_operation_id oc_actor oc_reason oc_expires_at] in *.
  - by rewrite (proj2 (bounded_Ok subject "subject id") Hk).
  - by rewrite Hk.
Qed.

Lemma command_ok_shape c : command_ok c -> command_shape c.
Proof. intros [E _ _]. by apply constructed_shape in E as (_ & E & _). Qed.

(** ** The record of an override *)

Definition override_mapping (actor applied_at event_id input_hash expires_at kind operation override_id reason subject : pyval) (scope : list (dkey * pyval))
    (schema : pyval) : list (dkey * pyval) :=
  [(KStr (u "actor"), actor); (KStr (u "appliedAt"), applied_at); (KStr (u "auditEventId"), event_id); (KStr (u "auditInputHash"), input_hash);
   (KStr (u "expiresAt"), expires_at); (KStr (u "kind"), kind); (KStr (u "operationId"), operation); (KStr (u "overrideId"), override_id);
   (KStr (u "reason"), reason); (KStr (u "schemaVersion"), schema); (KStr (u "scope"), VDict 1 scope); (KStr (u "subjectId"), subject)].

Definition scope_mapping (s : RepositoryScope) : list (dkey * pyval) :=
  [(KStr (u "installationId"), VInt (scope_installation_id s)); (KStr (u "repositoryId"), VInt (scope_repository_id s))].

Definition row_mapping (o : ActiveOverride) (event_id hash : pystr) : list (dkey * pyval) :=
  let c := av_command o in
  override_mapping (VStr (oc_actor c)) (VStr (isoformat (av_applied_at o))) (VStr event_id) (VStr hash) (opt_str (isoformat <$> oc_expires_at c))
    (VStr (kind_str (oc_kind c))) (VStr (oc_operation_id c)) (VStr (av_override_id o)) (VStr (oc_reason c)) (opt_str (oc_subject_id c))
    (scope_mapping (oc_scope c)) (VStr (u "operator-override-state/v1")).

(** Values keep their place when the entries are sorted. *)
Lemma record_sorted {A} (a b c d e f g h i j k l : A) :
  sort_entries [(u "schemaVersion", a); (u "overrideId", b); (u "operationId", c); (u "kind", d); (u "scope", e); (u "subjectId", f); (u "actor", g);
                (u "reason", h); (u "expiresAt", i); (u "appliedAt", j); (u "auditEventId", k); (u "auditInputHash", l)] =
  [(u "actor", g); (u "appliedAt", j); (u "auditEventId", k); (u "auditInputHash", l); (u "expiresAt", i); (u "kind", d); (u "operationId", c);
   (u "overrideId", b); (u "reason", h); (u "schemaVersion", a); (u "scope", e); (u "subjectId", f)].
Proof. vm_compute. reflexivity. Qed.

Lemma scope_sorted {A} (i r : A) : sort_entries [(u "installationId", i); (u "repositoryId", r)] = [(u "installationId", i); (u "repositoryId", r)].
Proof. vm_compute. reflexivity. Qed.

Lemma projection_sorted actor applied_at event_id input_hash expires_at kind operation override_id reason subject schema i r :
  norm (obj [("schemaVersion", schema); ("overrideId", override_id); ("operationId", operation); ("kind", kind);
             ("scope", obj [("installationId", i); ("repositoryId", r)]%string); ("subjectId", subject); ("actor", actor); ("reason", reason);
             ("expiresAt", expires_at); ("appliedAt", applied_at); ("auditEventId", event_id); ("auditInputHash", input_hash)]%string) =
  VDict 0 (fmap (fun kv : string * pyval => (KStr (u kv.1), kv.2))
    [("actor", norm actor); ("appliedAt", norm applied_at); ("auditEventId", norm event_id); ("auditInputHash", norm input_hash);
     ("expiresAt", norm expires_at); ("kind", norm kind); ("operationId", norm operation); ("overrideId", norm override_id);
     ("reason", norm reason); ("schemaVersion", norm schema); ("scope", obj [("installationId", norm i); ("repositoryId", norm r)]%string);
     ("subjectId", norm subject)]%string).
Proof. cbn [norm obj map fmap list_fmap fst snd key_text]. rewrite record_sorted. cbn [norm obj map fmap list_fmap fst snd key_text]. by rewrite scope_sorted. Qed.

Lemma fresh_opt_str d o : fresh d (norm (opt_str o)) = opt_str o.
Proof. by destruct o. Qed.

Lemma projection_norm o event_id hash : fresh 0 (norm (override_projection o event_id hash)) = VDict 0 (row_mapping o event_id hash).
Proof.
  unfold override_projection, scope_identity. rewrite projection_sorted. unfold row_mapping, override_mapping. cbn [fresh fmap list_fmap map fst snd obj norm].
  by rewrite !fresh_opt_str.
Qed.

(** ** The round trip *)

Section rows.
Context `{Sha256} `{OtherIsoTexts}.

(** An override that [ActiveOverride.create] gave for an admitted command. *)
Record override_ok (o : ActiveOverride) : Prop := {
  vo_command : command_ok (av_command o);
  vo_applied : moment_ok (av_applied_at o) = true;
  vo_created : ActiveOverride_create (av_command o) (IsoAware (av_applied_at o)) = Ok o;
}.

Lemma created_override c m o : ActiveOverride_create c (IsoAware m) = Ok o ->
  av_command o = c /\ av_applied_at o = m /\ expired_at c m = false /\ is_override_id (av_override_id o) = true /\
  exists h, hash_mapping (_command_identity c) = Ok h /\ av_override_id o = u "override_" ++ take 32 h.
Proof.
  unfold ActiveOverride_create. cbn [require_aware mbind res_bind]. intros ([] & He%raise_if_Ok & E)%bind_Ok. apply bind_Ok in E as (h & Eh & [= <-]).
  split_and!; [reflexivity..|exact He| |by exists h]. by apply hash_mapping_hex, override_hex_prefix in Eh.
Qed.

Lemma kind_read k : _override_kind (VStr (kind_str k)) = Ok k.
Proof. by destruct k. Qed.

Lemma datetime_read m context : moment_ok m = true -> _encoded_datetime (VStr (isoformat m)) context = Ok m.
Proof.
  intros Hm. unfold _encoded_datetime. destruct (isoformat m) as [|c s] eqn:E; [by destruct (isoformat_text m) as [_ Hn]|]. rewrite <- E. by rewrite isoformat_read.
Qed.

Lemma expiry_read e context : (forall m, e = Some m -> moment_ok m = true) -> _optional_encoded_datetime (opt_str (isoformat <$> e)) context = Ok e.
Proof. intros He. destruct e as [m|]; [|done]. cbn [fmap option_fmap option_map opt_str _optional_encoded_datetime]. by rewrite datetime_read by by apply He. Qed.

Lemma subject_read c : command_shape c -> _decode_subject (oc_kind c) (opt_str (oc_subject_id c)) = Ok (oc_subject_id c).
Proof.
  intros [_ _ _ Hk]. destruct (oc_kind c), (oc_subject_id c) as [s|], (oc_expires_at c); try done; cbn [opt_str _decode_subject].
  - by rewrite bounded_read.
  - destruct (override_id_length s Hk) as [Hs En]. rewrite (bounded_text_read s 41) by done. cbn [mbind res_bind]. by rewrite Hk.
Qed.

Lemma exact_int_read z context : safe_id z = true -> _exact_int (VInt z) context = Ok z.
Proof. unfold _exact_int. change (negb ((1 <=? z) && (z <=? MAX_SAFE_JSON_INTEGER))) with (negb (safe_id z)). by intros ->. Qed.

(** A row written for an override and its audit event. *)
Definition row_of (o : ActiveOverride) (e : AuditEventRecord) (row : override_row) : Prop := _override_to_row o e = Ok row.

Lemma row_parts o e row : row_of o e row -> exists b,
  encode_canonical_object (fresh 0 (override_projection o (audit_event_id e) (input_hash e))) _RECORD_MAXIMUM_BYTES (u "operator override record") = Ok b /\
  fromhex (input_hash e) = Ok (ov_audit_input_hash row) /\
  row = {| ov_override_id := av_override_id o; ov_operation_id := oc_operation_id (av_command o);
     ov_installation_id := scope_installation_id (oc_scope (av_command o)); ov_repository_id := scope_repository_id (oc_scope (av_command o));
     ov_kind := kind_str (oc_kind (av_command o)); ov_target_subject_id := target_subject (av_command o);
     ov_expires_at := instant <$> oc_expires_at (av_command o); ov_applied_at := instant (av_applied_at o);
     ov_record_canonical_json := b; ov_semantic_hash := sha256_hex b; ov_audit_event_id := audit_event_id e;
     ov_audit_input_hash := ov_audit_input_hash row |}.
Proof.
  unfold row_of, _override_to_row. intros (b & Eb & E)%bind_Ok. apply bind_Ok in E as (sh & Es & E). apply bind_Ok in E as (hb & Eh & [= <-]). exists b.
  split; [done|]. split; [done|]. cbn [ov_audit_input_hash]. f_equal. unfold semantic_hash in Es. apply fmap_Ok in Es as (b' & Eb' & ->).
  unfold encode_canonical_object in Eb. rewrite Eb' in Eb. apply bind_Ok in Eb as (? & [= <-] & Eb). apply bind_Ok in Eb as ([] & _ & [= ->]). done.
Qed.

Lemma projection_wf o event_id hash : well_formed (fresh 0 (override_projection o event_id hash)).
Proof.
  apply fresh_wf. apply obj_wf; [|reflexivity].
  assert (well_formed (scope_identity (oc_scope (av_command o)))) by (apply obj_wf; [repeat constructor|reflexivity]).
  repeat (constructor; [cbn [snd]; try exact I; auto|]). constructor.
Qed.

Lemma row_read o e row :
  override_ok o -> is_audit_event_id (VStr (audit_event_id e)) = true -> is_sha256_hex (input_hash e) = true -> row_of o e row ->
  decode_operator_override_row row = Ok {| so_override := o; so_audit_event_id := audit_event_id e; so_audit_input_hash := input_hash e |}.
Proof.
  intros [Hc Hm Hcr] He Hi Hr. apply row_parts in Hr as (b & Eb & Eh & ->).
  set (m := row_mapping o (audit_event_id e) (input_hash e)).
  assert (Ed : decode_canonical_object b _RECORD_MAXIMUM_BYTES (u "operator override record") = Ok m).
  { destruct (canonical_object_read _ _ _ _ _ (projection_wf o (audit_event_id e) (input_hash e)) Eb) as (l & El & Ed).
    change (fresh 0 (norm (fresh 0 (override_projection o (audit_event_id e) (input_hash e)))) = VDict 0 l) in El.
    rewrite (proj1 (proj2 (fresh_facts 0 _))), projection_norm in El. injection El as <-. exact Ed. }
  assert (Es : semantic_hash (VDict 0 m) = Ok (sha256_hex b)).
  { unfold semantic_hash. unfold encode_canonical_object in Eb. apply bind_Ok in Eb as (b' & Eb & Hb). apply bind_Ok in Hb as ([] & _ & [= ->]).
    apply norm_written in Eb; [|apply projection_wf]. rewrite (proj1 (proj2 (fresh_facts 0 _))), projection_norm in Eb. fold m in Eb. by rewrite Eb. }
  pose proof (command_ok_shape _ Hc) as [Ho Ha Hr _]. pose proof (command_ok_shape _ Hc) as Hs.
  destruct (created_override _ _ _ Hcr) as (_ & _ & _ & Hid & _). destruct (override_id_length _ Hid) as [Hid1 Hid2]. destruct (event_id_length _ He) as [He1 He2].
  destruct (safe_scope _ (ck_scope _ Hc)) as [Hsi Hsr].
  unfold decode_operator_override_row. cbn [ov_record_canonical_json]. rewrite Ed. cbn [mbind res_bind].
  change (require_exact_keys m _ _) with (@Ok unit tt). cbn [mbind res_bind].
  set (c := av_command o) in *.
  change (match dict_get m "schemaVersion" with VStr s => bool_decide (s = _) | _ => false end) with true. cbn [negb raise_if mbind res_bind].
  change (dict_get m "scope") with (VDict 1 (scope_mapping (oc_scope c))). cbn [mbind res_bind].
  change (require_exact_keys (scope_mapping (oc_scope c)) _ _) with (@Ok unit tt). cbn [mbind res_bind].
  change (dict_get (scope_mapping (oc_scope c)) "installationId") with (VInt (scope_installation_id (oc_scope c))).
  change (dict_get (scope_mapping (oc_scope c)) "repositoryId") with (VInt (scope_repository_id (oc_scope c))).
  rewrite !exact_int_read by done. cbn [mbind res_bind]. unfold checked. rewrite scope_eta, (ck_scope _ Hc). cbn [mbind res_bind].
  change (dict_get m "expiresAt") with (opt_str (isoformat <$> oc_expires_at c)). rewrite expiry_read by apply Hc. cbn [mbind res_bind].
  change (dict_get m "appliedAt") with (VStr (isoformat (av_applied_at o))). rewrite datetime_read by done. cbn [mbind res_bind].
  change (dict_get m "kind") with (VStr (kind_str (oc_kind c))). rewrite kind_read. cbn [mbind res_bind].
  change (dict_get m "subjectId") with (opt_str (oc_subject_id c)). rewrite subject_read by done. cbn [mbind res_bind].
  change (dict_get m "operationId") with (VStr (oc_operation_id c)). change (dict_get m "actor") with (VStr (oc_actor c)).
  change (dict_get m "reason") with (VStr (oc_reason c)). rewrite !bounded_read by done. cbn [mbind res_bind].
  rewrite (ck_new _ Hc). cbn [mbind res_bind]. rewrite Hcr. cbn [mbind res_bind].
  change (dict_get m "overrideId") with (VStr (av_override_id o)). change (dict_get m "auditEventId") with (VStr (audit_event_id e)).
  change (dict_get m "auditInputHash") with (VStr (input_hash e)).
  rewrite (bounded_text_read (av_override_id o) 41), (bounded_text_read (audit_event_id e) 38) by done. cbn [mbind res_bind].
  cbn [require_digest]. rewrite Hi. cbn [negb raise_if mbind res_bind]. rewrite Hid, He, Eh, Es. cbn [negb raise_if mbind res_bind].
  unfold in_columns. cbn [ov_override_id ov_operation_id ov_installation_id ov_repository_id ov_kind ov_target_subject_id ov_expires_at ov_applied_at
    ov_semantic_hash ov_audit_event_id ov_audit_input_hash orb].
  rewrite !Z.eqb_refl, !bool_decide_eq_false_2 by (intros Hn; by apply Hn). done.
Qed.
End rows.
