(* ===== verification/OverrideFacts.v ===== *)
(** * What the override tables hold

    The rows are the overrides that were applied, each with its audit event, in
    the order of the ledger; the repository controls of a scope disable and
    enable in turn, and each enable names the disable before it.  The reads of
    the repository are characterised on such tables. *)

From stdpp Require Import base gmap sets list sorting strings.
From Stdlib Require Import ZArith Lia.
From S2P Require Import Prelude Text PyFloat CanonicalJson Hashing JsonLoads JsonRoundtrip ConfigControl Instants AuditEvents AuditChain AuditFacts AuditChainFacts AuditLedger AuditRepository AuditRepositoryFacts AuditStore TableFacts Reconciliation IsoTime OverrideControls CanonicalRows OverrideStore OverrideRows.

(** ** Lists *)

Lemma Forall2_filter_bool {A B} (R : A -> B -> Prop) f g l m :
  Forall2 R l m -> (forall x y, R x y -> f x = g y) -> Forall2 R (List.filter f l) (List.filter g m).
Proof.
  intros Hf Hfg. induction Hf as [|x y l m Hxy _ IH]; [constructor|]. cbn [List.filter]. rewrite (Hfg _ _ Hxy). destruct (g y); [by constructor|done].
Qed.

Lemma Forall2_last {A B} (R : A -> B -> Prop) l m : Forall2 R l m ->
  match last l, last m with Some x, Some y => R x y | None, None => True | _, _ => False end.
Proof.
  induction 1 as [|x y l m Hxy Hf IH]; [done|]. rewrite !last_cons. destruct (last l), (last m); try done.
Qed.

Lemma filter_sublist {A} (f : A -> bool) l : List.filter f l `sublist_of` l.
Proof. induction l as [|x l IH]; [constructor|]. cbn [List.filter]. destruct (f x); by constructor. Qed.

Lemma elem_of_filter_bool {A} (f : A -> bool) l x : x ∈ List.filter f l <-> x ∈ l /\ f x = true.
Proof. rewrite !list_elem_of_In. apply filter_In. Qed.

(** The first of the values in descending order is the last of the values in
    ascending order. *)
Lemma latest_last {A} (key : A -> Z) l : StronglySorted (fun a b => key a < key b) l ->
  take 1 (isort (fun p q => key q <=? key p) l) = match last l with Some x => [x] | None => [] end.
Proof.
  intros Hl. pose proof (isort_perm (fun p q => key q <=? key p) l) as Hp.
  assert (Hs : StronglySorted (fun a b => (key b <=? key a) = true) (isort (fun p q => key q <=? key p) l)).
  { apply isort_sorted; [intros x y|intros x y z]; rewrite !Z.leb_le; lia. }
  destruct (isort _ l) as [|x m] eqn:E; [apply Permutation_nil in Hp; by subst l|].
  assert (Hx : x ∈ l) by (rewrite <- Hp; by left). cbn [take]. destruct (last l) as [y|] eqn:El; [|apply last_None in El; subst; by apply elem_of_nil in Hx].
  do 2 f_equal. apply last_Some in El as (l' & ->).
  assert (Hy : key y <= key x).
  { assert (Hy : y ∈ x :: m) by (rewrite Hp; set_solver). apply elem_of_cons in Hy as [->|Hy]; [lia|]. inversion Hs as [|? ? _ Hm]; subst.
    rewrite Forall_forall in Hm. apply Z.leb_le. by apply Hm. }
  apply elem_of_app in Hx as [Hx|Hx%list_elem_of_singleton]; [|done]. exfalso. assert (key x < key y) by exact (StronglySorted_app_1_elem_of _ _ _ x y Hl Hx ltac:(by left)); lia.
Qed.

(** ** The invariant *)

Section facts.
Context `{Sha256} `{OtherIsoTexts}.

(** An override and the audit event of its application. *)
Abbreviation stored := (ActiveOverride * AuditEventRecord)%type.

Definition is_applied (e : AuditEventRecord) : bool := bool_decide (event_type e = OPERATOR_OVERRIDE_APPLIED).

(** The keys of the events of overrides. *)
Definition override_key (key : pystr) : bool := startswith (u "operator-override:") key.

Definition control_of (s : RepositoryScope) (o : ActiveOverride) : bool :=
  bool_decide (oc_scope (av_command o) = s) && negb (bool_decide (oc_kind (av_command o) = force_full_ci_kind)).

(** The repository controls of a scope, oldest first. *)
Definition controls_of (s : RepositoryScope) (st : list stored) : list stored := List.filter (fun p => control_of s p.1) st.

(** A control after the previous one, which it is not older than: the first is
    a disable, a disable follows an enable and an enable names the disable that
    it follows. *)
Definition control_follows (previous : option ActiveOverride) (o : ActiveOverride) : Prop :=
  match previous with
  | None => oc_kind (av_command o) = disable_omission
  | Some p =>
      instant (av_applied_at p) <= instant (av_applied_at o) /\
      match oc_kind (av_command o) with
      | disable_omission => oc_kind (av_command p) = enable_omission
      | enable_omission => oc_kind (av_command p) = disable_omission /\ oc_subject_id (av_command o) = Some (av_override_id p)
      | force_full_ci_kind => False
      end
  end.

Fixpoint latched (previous : option ActiveOverride) (l : list ActiveOverride) : Prop :=
  match l with [] => True | o :: l => control_follows previous o /\ latched (Some o) l end.

Definition last_control (previous : option ActiveOverride) (l : list ActiveOverride) : option ActiveOverride :=
  match last l with Some o => Some o | None => previous end.

Lemma last_control_app previous l l' : last_control previous (l ++ l') = last_control (last_control previous l) l'.
Proof. unfold last_control. rewrite last_app. by destruct (last l'). Qed.

Lemma latched_app previous l l' : latched previous (l ++ l') <-> latched previous l /\ latched (last_control previous l) l'.
Proof.
  revert previous. induction l as [|x l IH]; intros previous; cbn [app latched]; [unfold last_control; cbn; tauto|]. rewrite IH.
  change (x :: l) with ([x] ++ l). rewrite last_control_app. cbn. tauto.
Qed.

Lemma latched_snoc previous l o : latched previous (l ++ [o]) <-> latched previous l /\ control_follows (last_control previous l) o.
Proof. rewrite latched_app. cbn. tauto. Qed.

(** The event of an override is the one its application prepares. *)
Definition audited (p : stored) : Prop :=
  exists i q, applied_event p.1 (av_applied_at p.1) = Ok i /\ prepare_audit_event (InputExact i) = Ok q /\ _record_input p.2 = pr_input q.

Definition operation_of (o : ActiveOverride) : RepositoryScope * pystr := (oc_scope (av_command o), oc_operation_id (av_command o)).

Record overrides_hold (t : override_tables) (rs : list AuditEventRecord) (st : list stored) : Prop := {
  oh_ledger : tables_hold (ot_audit t) rs;
  oh_rows : Forall2 (fun row p => row_of p.1 p.2 row) (operator_overrides t) st;
  oh_ok : Forall (fun p => override_ok p.1 /\ audited p) st;
  oh_events : st.*2 = List.filter is_applied rs;
  oh_keys : forall r, r ∈ rs -> override_key (idempotency_key r) = true -> is_applied r = true;
  oh_operations : NoDup ((fun p => operation_of p.1) <$> st);
  oh_ids : NoDup ((fun p => av_override_id p.1) <$> st);
  oh_latched : forall s, latched None (controls_of s st).*1;
}.

Section held.
Context (t : override_tables) (rs : list AuditEventRecord) (st : list stored) (Ht : overrides_hold t rs st).

Lemma stored_event p : p ∈ st -> p.2 ∈ rs /\ is_applied p.2 = true.
Proof.
  intros Hp. assert (Hi : p.2 ∈ st.*2) by by apply list_elem_of_fmap_2. rewrite (oh_events _ _ _ Ht) in Hi. by apply elem_of_filter_bool in Hi.
Qed.

Lemma event_columns p : p ∈ st -> is_audit_event_id (VStr (audit_event_id p.2)) = true /\ is_sha256_hex (input_hash p.2) = true.
Proof. intros Hp%stored_event. eapply held_shape; [apply Ht|exact (proj1 Hp)]. Qed.

Definition record_of (p : stored) : StoredOverrideRecord :=
  {| so_override := p.1; so_audit_event_id := audit_event_id p.2; so_audit_input_hash := input_hash p.2 |}.

Lemma stored_ok p : p ∈ st -> override_ok p.1 /\ audited p.
Proof. pose proof (oh_ok _ _ _ Ht) as Hf. rewrite Forall_forall in Hf. apply Hf. Qed.

Lemma stored_read p row : p ∈ st -> row_of p.1 p.2 row -> decode_operator_override_row row = Ok (record_of p).
Proof. intros Hp Hr. destruct (event_columns p Hp). by apply row_read; [apply stored_ok| | |]. Qed.

(** *** The join with the ledger *)

Lemma joined_rows : Forall2 (fun j p => row_of p.1 p.2 j.1 /\ j.2 = sequence p.2) (joined t) st.
Proof.
  unfold joined. assert (Hst : Forall (fun p => p ∈ st) st) by by apply Forall_forall. revert Hst.
  generalize (oh_rows _ _ _ Ht). generalize (operator_overrides t). generalize st at 1 3 4. intros l rows Hf.
  induction Hf as [|row p rows l Hr _ IH]; intros Hst; [constructor|].
  apply Forall_cons in Hst as [Hp Hst]. cbn [flat_map]. destruct (held_record _ _ _ (oh_ledger _ _ _ Ht) (proj1 (stored_event p Hp))) as (e & He & Hh & _).
  pose proof (row_parts _ _ _ Hr) as (b & _ & _ & Er). assert (Eid : ov_audit_event_id row = audit_event_id p.2) by by rewrite Er.
  rewrite (NoDup_filter_one row_audit_event_id _ (audit_events (ot_audit t)) (audit_event_id p.2) e).
  - cbn [fmap list_fmap app]. constructor; [|by apply IH]. cbn [fst snd]. split; [done|]. apply Hh.
  - apply (oh_ledger _ _ _ Ht).
  - intros y Hy%bool_decide_eq_true. congruence.
  - done.
  - apply bool_decide_eq_true. rewrite (rh_id _ _ Hh). congruence.
Qed.

Lemma events_ascend : StronglySorted (fun a b => sequence a < sequence b) st.*2.
Proof.
  rewrite (oh_events _ _ _ Ht). pose proof (th_linked _ _ (oh_ledger _ _ _ Ht)) as Hl. clear Ht.
  assert (Hs : forall p, linked p rs -> StronglySorted (fun a b => sequence a < sequence b) rs).
  { clear Hl. induction rs as [|r l IH]; intros p Hl; [constructor|]. pose proof Hl as (_ & _ & Er & _ & Hl'). constructor; [by eapply IH|].
    apply Forall_lookup. intros i x Hx. rewrite (linked_numbered _ _ _ _ Hl' Hx). cbn. lia. }
  eapply sorted_sublist; [|by eapply Hs]. apply filter_sublist.
Qed.

Definition sequenced (p : stored) : _SequencedOverride := {| sq_record := record_of p; audit_sequence := sequence p.2 |}.

Lemma sequenced_read j p : p ∈ st -> row_of p.1 p.2 j.1 /\ j.2 = sequence p.2 -> _sequenced_override j = Ok (sequenced p).
Proof.
  intros Hp [Hr Ej]. unfold _sequenced_override. rewrite Ej. destruct (held_record _ _ _ (oh_ledger _ _ _ Ht) (proj1 (stored_event p Hp))) as (e & _ & Hh & _).
  apply rh_ok, record_ok_sequence in Hh. assert (Hpos : 1 <= sequence p.2) by (cbn in Hh; lia). rewrite (proj2 (Z.ltb_ge _ _)) by done.
  by rewrite (stored_read p) by done.
Qed.

Lemma row_scope o e row s : row_of o e row -> in_columns s row = bool_decide (oc_scope (av_command o) = s).
Proof.
  intros Hr. destruct (row_parts _ _ _ Hr) as (b & _ & _ & ->). unfold in_columns. cbn [ov_installation_id ov_repository_id].
  destruct (oc_scope (av_command o)) as [i r], s as [i' r']. cbn. destruct (Z.eqb_spec i i') as [->|Hi], (Z.eqb_spec r r') as [->|Hr']; cbn;
    symmetry; (apply bool_decide_eq_true || apply bool_decide_eq_false); congruence.
Qed.

Lemma row_control o e row s : row_of o e row ->
  in_columns s row && bool_decide (ov_kind row ∈ [u "disable_omission"; u "enable_omission"]) = control_of s o.
Proof.
  intros Hr. rewrite (row_scope _ _ _ s Hr). unfold control_of. f_equal. destruct (row_parts _ _ _ Hr) as (b & _ & _ & ->). cbn [ov_kind].
  destruct (oc_kind (av_command o)); reflexivity.
Qed.

Lemma controls_in s p : p ∈ controls_of s st -> p ∈ st.
Proof. by intros [? _]%elem_of_filter_bool. Qed.

(** The latest control in the ledger is the last one stored. *)
Lemma latest_control s : _load_latest_omission_control t s = Ok (sequenced <$> last (controls_of s st)).
Proof.
  unfold _load_latest_omission_control.
  set (sel := List.filter _ (joined t)).
  assert (Hf : Forall2 (fun j p => row_of p.1 p.2 j.1 /\ j.2 = sequence p.2) sel (controls_of s st)).
  { apply Forall2_filter_bool; [apply joined_rows|]. intros j p [Hr _]. by eapply row_control. }
  assert (Hs : StronglySorted (fun a b => a.2 < b.2) sel).
  { assert (E : sel.*2 = (sequence ∘ snd) <$> controls_of s st) by (clear -Hf; induction Hf as [|j p l m [_ E] _ IH]; [done|]; by rewrite !fmap_cons, E, IH).
    assert (Hseq : StronglySorted (fun a b => a < b) sel.*2).
    { rewrite E, list_fmap_compose. apply StronglySorted_fmap with (R1 := fun a b => sequence a < sequence b); [done|].
      eapply sorted_sublist; [|apply events_ascend]. apply fmap_sublist. unfold controls_of. apply filter_sublist. }
    clear -Hseq. induction sel as [|x l IH]; [constructor|]. rewrite fmap_cons in Hseq. inversion Hseq as [|? ? Hl Hx]; subst. constructor; [by apply IH|].
    apply (proj1 (Forall_fmap (fun p : override_row * Z => p.2) _ _)) in Hx. exact Hx. }
  rewrite (latest_last snd sel Hs). pose proof (Forall2_last _ _ _ Hf) as Hlast. destruct (last sel) as [j|], (last (controls_of s st)) as [p|] eqn:Ep; try done.
  cbn [one_or_none mbind res_bind fmap option_fmap option_map]. rewrite (sequenced_read j p); [done| |done]. apply (controls_in s). apply last_Some in Ep as (l & ->). set_solver.
Qed.

(** *** The other reads *)

Lemma rows_where (f : override_row -> bool) (g : stored -> bool) :
  (forall row p, row_of p.1 p.2 row -> f row = g p) -> Forall2 (fun row p => row_of p.1 p.2 row) (List.filter f (operator_overrides t)) (List.filter g st).
Proof. intros Hfg. apply Forall2_filter_bool; [apply Ht|]. intros row p. apply Hfg. Qed.

Lemma stored_read_all rows l : l ⊆ st -> Forall2 (fun row p => row_of p.1 p.2 row) rows l -> mapR decode_operator_override_row rows = Ok (record_of <$> l).
Proof.
  intros Hl Hf. apply mapR_Ok. induction Hf as [|row p rows l Hr _ IH]; [constructor|]. rewrite fmap_cons.
  constructor; [apply stored_read; [apply Hl; by left|done]|]. apply IH. intros x Hx. apply Hl. by right.
Qed.

Definition with_operation (c : OverrideCommand) (p : stored) : bool := bool_decide (operation_of p.1 = (oc_scope c, oc_operation_id c)).

Definition find_operation (c : OverrideCommand) : option stored := List.find (with_operation c) st.

Lemma row_operation c p row : row_of p.1 p.2 row ->
  in_columns (oc_scope c) row && bool_decide (ov_operation_id row = oc_operation_id c) = with_operation c p.
Proof.
  intros Hr. rewrite (row_scope _ _ _ _ Hr). destruct (row_parts _ _ _ Hr) as (b & _ & _ & ->). cbn [ov_operation_id]. unfold with_operation, operation_of.
  rewrite <- bool_decide_and. apply bool_decide_ext. split; [by intros [<- <-]|by intros [= <- <-]].
Qed.

Lemma override_loaded c : _load_operation t c = Ok (record_of <$> find_operation c).
Proof.
  unfold _load_operation. pose proof (rows_where _ _ (fun row p => row_operation c p row)) as Hf.
  pose proof (one_or_none_find (fun p : stored => operation_of p.1) (oc_scope c, oc_operation_id c) st (oh_operations _ _ _ Ht)) as Ho.
  change (List.filter _ st) with (List.filter (with_operation c) st) in Ho. fold (find_operation c) in Ho.
  change (List.find _ st) with (find_operation c) in Ho. apply one_or_none_Ok in Ho.
  destruct (find_operation c) as [p|] eqn:Ep; rewrite Ho in Hf.
  - apply Forall2_cons_inv_r in Hf as (row & l & Hr & Hnil & ->). apply Forall2_nil_inv_r in Hnil as ->. cbn [one_or_none mbind res_bind].
    apply List.find_some in Ep as [Hp%list_elem_of_In _]. by rewrite (stored_read p).
  - by apply Forall2_nil_inv_r in Hf as ->.
Qed.

Lemma state_admitted : ot_attested t = true -> admit_operator_override_state t = Ok tt.
Proof.
  intros Ha. unfold admit_operator_override_state. rewrite Ha. cbn [negb raise_if mbind res_bind]. apply raise_if_Ok. apply not_true_is_false.
  intros (r & Hr%list_elem_of_In & Hb)%existsb_exists. apply andb_true_iff' in Hb as [Hty%bool_decide_eq_true Hno%negb_true_iff].
  destruct (held_row _ _ _ (oh_ledger _ _ _ Ht) Hr) as (e & He & Hh & _).
  assert (Happ : is_applied e = true).
  { apply bool_decide_eq_true. rewrite (rh_event_type _ _ Hh) in Hty.
    assert (Es : is_unicode_scalar_string (event_type e) = true) by (pose proof (rh_ok _ _ Hh) as [Hi _]%record_ok_facts; exact (if_event _ Hi)).
    pose proof (utf8_decode_encode _ Es) as Ed. rewrite Hty in Ed. by injection Ed as <-. }
  assert (Hin : e ∈ st.*2) by (rewrite (oh_events _ _ _ Ht); by apply elem_of_filter_bool).
  apply list_elem_of_fmap in Hin as (p & -> & Hp). apply list_elem_of_lookup in Hp as [i Hp].
  destruct (Forall2_lookup_r _ _ _ _ _ (oh_rows _ _ _ Ht) Hp) as (row & Hrow & Hrp).
  apply not_true_iff_false in Hno. apply Hno. apply existsb_exists. exists row. split; [apply list_elem_of_In; by eapply list_elem_of_lookup_2|].
  apply bool_decide_eq_true. destruct (row_parts _ _ _ Hrp) as (b & _ & _ & ->). by rewrite (rh_id _ _ Hh).
Qed.

(** *** The force of a subject *)

(** An unexpired force of a subject. *)
Definition forces (s : RepositoryScope) (subject : pystr) (now : moment) (o : ActiveOverride) : bool :=
  bool_decide (oc_scope (av_command o) = s) && bool_decide (oc_kind (av_command o) = force_full_ci_kind) &&
  bool_decide (oc_subject_id (av_command o) = Some subject) &&
  match oc_expires_at (av_command o) with Some e => instant now <? instant e | None => false end.

Lemma row_forces s subject now p row : row_of p.1 p.2 row ->
  in_columns s row && bool_decide (ov_kind row = u "force_full_ci") && bool_decide (ov_target_subject_id row = Some subject) &&
  match ov_expires_at row with Some e => instant now <? e | None => false end = forces s subject now p.1.
Proof.
  intros Hr. rewrite (row_scope _ _ _ s Hr). destruct (row_parts _ _ _ Hr) as (b & _ & _ & ->). cbn [ov_kind ov_target_subject_id ov_expires_at]. unfold forces, target_subject.
  rewrite <- !andb_assoc. f_equal. destruct (oc_kind (av_command p.1)); [|reflexivity..]. rewrite (bool_decide_eq_true_2 (force_full_ci_kind <> disable_omission)) by done.
  cbn. f_equal. by destruct (oc_expires_at (av_command p.1)).
Qed.

Lemma forces_in_force s subject now o : forces s subject now o = true -> in_force o now = negb (instant now <? instant (av_applied_at o)).
Proof.
  unfold forces, in_force. rewrite !andb_true_iff'. intros [[[_ Hk%bool_decide_eq_true] _] He]. rewrite Hk. cbn. destruct (oc_expires_at (av_command o)); [|done].
  by destruct (instant now <? instant (av_applied_at o)).
Qed.

(** The first row in a sorted selection. *)
Lemma first_sorted {A} (leb : A -> A -> bool) l :
  (forall x y, leb x y = true \/ leb y x = true) -> (forall x y z, leb x y = true -> leb y z = true -> leb x z = true) ->
  match take 1 (isort leb l) with
  | [] => l = []
  | x :: r => r = [] /\ x ∈ l /\ forall y, y ∈ l -> leb x y = true
  end.
Proof.
  intros Htot Htrans. pose proof (isort_perm leb l) as Hp. pose proof (isort_sorted leb Htot Htrans l) as Hs.
  destruct (isort leb l) as [|x r]; cbn [take]; [by apply Permutation_nil in Hp|]. split; [done|]. split; [rewrite <- Hp; by left|].
  intros y Hy. rewrite <- Hp in Hy. apply elem_of_cons in Hy as [->|Hy]; [by destruct (Htot x x)|]. inversion Hs as [|? ? _ Hm]; subst. rewrite Forall_forall in Hm. by apply Hm.
Qed.

Lemma force_loaded s subject now : has_char 0 subject = false ->
  exists answer, _load_active_force t s (Some subject) now = Ok answer /\
    match answer with
    | None => exists p, p ∈ st /\ forces s subject now p.1 = true /\ instant now < instant (av_applied_at p.1)
    | Some None => forall p, p ∈ st -> forces s subject now p.1 = false
    | Some (Some o) => exists e, (o, e) ∈ st /\ forces s subject now o = true /\ in_force o now = true /\
        forall p, p ∈ st -> forces s subject now p.1 = true -> instant (av_applied_at p.1) <= instant now
    end.
Proof.
  intros Hc. unfold _load_active_force, text_parameter. rewrite Hc. cbn [raise_if mbind res_bind].
  pose proof (rows_where _ _ (fun row p => row_forces s subject now p row)) as Hf.
  set (later := fun p q : override_row => _). set (sel := List.filter _ (operator_overrides t)) in *.
  assert (Htot : forall x y, later x y = true \/ later y x = true).
  { intros x y. unfold later. destruct (str_leb_total (ov_override_id x) (ov_override_id y)) as [E|E]; rewrite E; destruct (Z.lt_trichotomy (ov_applied_at x) (ov_applied_at y)) as [?|[Ee|?]]; lia. }
  assert (Htrans : forall x y z, later x y = true -> later y z = true -> later x z = true).
  { intros x y z. unfold later. rewrite !orb_true_iff, !andb_true_iff', !Z.ltb_lt, !Z.eqb_eq. intros [?|[? E1]] [?|[? E2]]; try (left; lia).
    right. split; [lia|]. by eapply str_leb_trans. }
  pose proof (first_sorted later sel Htot Htrans) as Hfirst. destruct (take 1 (isort later sel)) as [|row r].
  - eexists. split; [reflexivity|]. cbv beta iota. rewrite Hfirst in Hf. apply Forall2_nil_inv_l in Hf. intros p Hp. apply not_true_is_false. intros Hp2.
    apply (not_elem_of_nil p). rewrite <- Hf. by apply elem_of_filter_bool.
  - destruct Hfirst as (-> & Hrow & Hmax). cbn [one_or_none mbind res_bind]. apply list_elem_of_lookup in Hrow as [i Hi].
    destruct (Forall2_lookup_l _ _ _ _ _ Hf Hi) as (p & Hp & Hr). apply list_elem_of_lookup_2, elem_of_filter_bool in Hp as [Hp Hp2].
    rewrite (stored_read p row) by done. cbn [mbind res_bind record_of so_override].
    rewrite (forces_in_force s subject) by done.
    destruct (Z.ltb_spec (instant now) (instant (av_applied_at p.1))) as [Hl|Hl]; [eexists; split; [reflexivity|]; by exists p|].
    cbn [negb]. eexists. split; [reflexivity|]. cbv beta iota. exists p.2. split; [by destruct p|]. split; [done|].
    split; [rewrite (forces_in_force s subject) by done; by rewrite (proj2 (Z.ltb_ge _ _))|].
    intros q Hq Hq2. assert (Hqf : q ∈ List.filter (fun p => forces s subject now p.1) st) by by apply elem_of_filter_bool.
    apply list_elem_of_lookup in Hqf as [j Hj]. destruct (Forall2_lookup_r _ _ _ _ _ Hf Hj) as (row' & Hrow' & Hr').
    apply list_elem_of_lookup_2, Hmax in Hrow'. unfold later in Hrow'.
    destruct (row_parts _ _ _ Hr) as (? & _ & _ & E1), (row_parts _ _ _ Hr') as (? & _ & _ & E2). rewrite E1, E2 in Hrow'. cbn [ov_applied_at ov_override_id] in Hrow'. lia.
Qed.

(** *** The target of an enable *)

Lemma control_events_ascend s l q p l' : controls_of s st = l ++ q :: p :: l' -> sequence q.2 < sequence p.2.
Proof.
  intros E. assert (Hs : StronglySorted (fun a b => sequence a < sequence b) (controls_of s st).*2).
  { eapply sorted_sublist; [|apply events_ascend]. apply fmap_sublist. apply filter_sublist. }
  rewrite E, fmap_app in Hs. apply StronglySorted_app_1_r in Hs. inversion Hs as [|? ? _ Hx]; subst. by apply Forall_cons in Hx as [Hx _].
Qed.

Lemma enable_valid s l p l' : controls_of s st = l ++ p :: l' -> oc_kind (av_command p.1) = enable_omission ->
  _assert_valid_enable_transition t s (sequenced p) = Ok tt.
Proof.
  intros El Hk. pose proof (oh_latched _ _ _ Ht s) as Hl. rewrite El, fmap_app in Hl. apply latched_app in Hl as [_ Hl]. cbn [fmap list_fmap latched] in Hl.
  destruct Hl as [Hl _]. destruct (last l) as [q|] eqn:Eq; [|apply last_None in Eq; subst l; cbn in Hl; congruence]. apply last_Some in Eq as (l0 & ->).
  unfold last_control in Hl. rewrite fmap_last, last_snoc in Hl. cbn [fmap option_fmap option_map control_follows] in Hl. rewrite Hk in Hl. destruct Hl as (_ & Hq & Hid).
  rewrite <- app_assoc in El. cbn [app] in El. pose proof (control_events_ascend _ _ _ _ _ El) as Hseq.
  assert (Hqc : q ∈ controls_of s st) by (rewrite El; set_solver). pose proof (controls_in _ _ Hqc) as Hqs.
  apply elem_of_filter_bool in Hqc as [_ Hqc]. unfold control_of in Hqc. apply andb_true_iff' in Hqc as [Hqc%bool_decide_eq_true _].
  unfold _assert_valid_enable_transition. cbn [sequenced sq_record record_of so_override audit_sequence]. rewrite Hid.
  assert (Hf : Forall2 (fun j p => row_of p.1 p.2 j.1 /\ j.2 = sequence p.2)
    (List.filter (fun p => bool_decide (ov_override_id p.1 = av_override_id q.1) && in_columns s p.1) (joined t)) [q]).
  { rewrite <- (NoDup_filter_one (fun p : stored => av_override_id p.1)
      (fun x => bool_decide (av_override_id x.1 = av_override_id q.1) && bool_decide (oc_scope (av_command x.1) = s)) st (av_override_id q.1) q).
    - apply Forall2_filter_bool; [apply joined_rows|]. intros j x [Hr _]. rewrite (row_scope _ _ _ s Hr). f_equal. by destruct (row_parts _ _ _ Hr) as (? & _ & _ & ->).
    - apply Ht.
    - intros y Hy. apply andb_true_iff' in Hy as [Hy%bool_decide_eq_true _]. done.
    - done.
    - rewrite Hqc. by rewrite !bool_decide_eq_true_2. }
  apply Forall2_cons_inv_r in Hf as (j & x & Hj & Hnil & ->). apply Forall2_nil_inv_r in Hnil as ->. cbn [one_or_none mbind res_bind].
  rewrite (sequenced_read j q) by done. cbn [mbind res_bind sequenced sq_record record_of so_override audit_sequence]. unfold control_kind. cbn [sequenced sq_record record_of so_override].
  rewrite Hq, !bool_decide_eq_false_2 by (intros Hn; by apply Hn). by rewrite (proj2 (Z.leb_gt _ _)).
Qed.
End held.
End facts.
