(* ===== verification/OverrideSteps.v ===== *)
(** * Steps of the override tables

    Storing an override keeps the invariant; what [apply] answers is decided by
    the override stored under its operation, the latest control of its scope
    and the cutover latch.  The tables change by such steps, by events of other
    parts of the program in the same ledger and by latches of a production
    cutover. *)

From stdpp Require Import base gmap sets list sorting strings relations.
From Stdlib Require Import ZArith Lia.
From S2P Require Import Prelude Text PyFloat CanonicalJson Hashing JsonLoads JsonText JsonRoundtrip ConfigControl Instants AuditEvents AuditChain AuditFacts AuditChainFacts AuditLedger AuditRepository AuditRepositoryFacts AuditStore TableFacts Reconciliation IsoTime OverrideControls CanonicalRows OverrideStore OverrideRows OverrideFacts.

(** ** Keys *)

Lemma split_colon (a a' b b' : pystr) : 58 ∉ a -> 58 ∉ a' -> a ++ 58 :: b = a' ++ 58 :: b' -> a = a' /\ b = b'.
Proof.
  revert a'. induction a as [|x a IH]; intros [|x' a'] Ha Ha' E; cbn in E.
  - by injection E as ->.
  - injection E as <- _. by destruct Ha'; left.
  - injection E as -> _. by destruct Ha; left.
  - injection E as <- E. apply IH in E as [-> ->]; [done|by intros ?; apply Ha; right|by intros ?; apply Ha'; right].
Qed.

Lemma int_str_no_colon z : 58 ∉ int_str z.
Proof. unfold int_str. destruct (Z.ltb_spec z 0); [intros [?|Hc]%elem_of_cons; [lia|]|intros Hc]; apply nat_str_digit in Hc; lia. Qed.

Lemma int_str_inj z z' : 0 < z -> 0 < z' -> int_str z = int_str z' -> z = z'.
Proof.
  intros Hz Hz'. unfold int_str. rewrite !(proj2 (Z.ltb_ge _ 0)) by lia. intros E. destruct (nat_str_numeral z Hz) as [_ <-], (nat_str_numeral z' Hz') as [_ <-]. by rewrite E.
Qed.

Lemma operation_key_inj prefix c c' : safe_id (scope_installation_id (oc_scope c)) = true -> safe_id (scope_installation_id (oc_scope c')) = true ->
  safe_id (scope_repository_id (oc_scope c)) = true -> safe_id (scope_repository_id (oc_scope c')) = true ->
  _scope_operation_key prefix c = _scope_operation_key prefix c' -> oc_scope c = oc_scope c' /\ oc_operation_id c = oc_operation_id c'.
Proof.
  unfold safe_id. intros H1 H2 H3 H4 E. unfold _scope_operation_key in E. apply app_inv_head in E. change (u ":") with [58] in E. cbn [app] in E. injection E as E.
  apply split_colon in E as [Ei E]; [|apply int_str_no_colon..]. apply split_colon in E as [Er Eo]; [|apply int_str_no_colon..].
  apply int_str_inj in Ei, Er; [|lia..]. destruct (oc_scope c), (oc_scope c'). cbn in *. by subst.
Qed.

(** ** The event of an override *)

Section steps.
Context `{Sha256} `{OtherIsoTexts}.
Abbreviation stored := (ActiveOverride * AuditEventRecord)%type.

Lemma command_eqb_refl c : command_eqb c c = true.
Proof.
  unfold command_eqb. rewrite !bool_decide_eq_true_2 by done. cbn. unfold same_expiry. destruct (oc_expires_at c); [|done]. apply Z.eqb_refl.
Qed.

Lemma event_eqb_refl e : audit_event_eqb e e = true.
Proof. unfold audit_event_eqb. rewrite command_eqb_refl, !bool_decide_eq_true_2 by done. apply Z.eqb_refl. Qed.

(** The override's own event prepares as it is written. *)
Lemma prepared_applied o e p : OverrideAuditEvent_applied o = Ok e -> _prepare_applied_event o e = Ok p ->
  exists i, applied_event o (av_applied_at o) = Ok i /\ prepare_audit_event (InputExact i) = Ok p.
Proof.
  intros Ee E. assert (Hc : oe_command e = av_command o /\ oe_occurred_at e = av_applied_at o).
  { unfold OverrideAuditEvent_applied, OverrideAuditEvent_from_command in Ee. cbn [require_aware mbind res_bind] in Ee. apply bind_Ok in Ee as (h & _ & Ee).
    injection Ee as <-. split; reflexivity. }
  unfold _prepare_applied_event in E. rewrite Ee, (proj1 Hc), command_eqb_refl in E. cbn [negb raise_if mbind res_bind] in E.
  rewrite event_eqb_refl in E. cbn [negb raise_if mbind res_bind] in E. apply bind_Ok in E as (i & Ei & E). exists i. rewrite (proj2 Hc) in Ei. exact (conj Ei E).
Qed.

Lemma override_event_ok prefix c ty at_ payload_ : command_shape c -> is_unicode_scalar_string prefix = true -> is_unicode_scalar_string ty = true ->
  well_formed payload_ -> input_like_ok (InputExact (override_event prefix c ty at_ payload_)).
Proof.
  intros [Ho Ha _ _] Hp Ht Hw. split; [by apply fresh_wf|]. unfold override_event, input_text. cbn [io_idempotency_key io_subject_id io_event_type io_actor].
  split_and!; apply scalar_text; [unfold _scope_operation_key|unfold override_audit_subject_id|done|by apply bounded_scalar];
    by rewrite ?scalar_app, ?scalar_u, ?int_str_scalar, ?Hp, ?(bounded_scalar _ Ho).
Qed.

Lemma command_projection_wf c v : _audit_command_projection c = Ok v -> well_formed v.
Proof.
  unfold _audit_command_projection. intros (x & _ & [= <-])%bind_Ok. apply obj_wf; [|reflexivity].
  assert (well_formed (scope_identity (oc_scope c))) by (apply obj_wf; [repeat constructor|reflexivity]).
  repeat (constructor; [cbn [snd]; try exact I; auto|]). constructor.
Qed.

Lemma applied_event_ok o m i : command_shape (av_command o) -> applied_event o m = Ok i ->
  input_like_ok (InputExact i) /\ io_idempotency_key i = VStr (_scope_operation_key (u "operator-override") (av_command o)) /\
  io_event_type i = VStr OPERATOR_OVERRIDE_APPLIED.
Proof.
  intros Hc E. unfold applied_event in E. apply bind_Ok in E as (c & _ & E). apply bind_Ok in E as (pr & Hpr%command_projection_wf & E).
  apply bind_Ok in E as (a & _ & [= <-]). split; [|done]. apply override_event_ok; [done|reflexivity..|]. apply obj_wf; [|reflexivity].
  repeat (constructor; [cbn [snd]; try exact I; auto|]). constructor.
Qed.

Lemma audited_key p : command_shape (av_command p.1) -> audited p ->
  idempotency_key p.2 = _scope_operation_key (u "operator-override") (av_command p.1).
Proof.
  intros Hc (i & q & Ei & Eq & Er). destruct (applied_event_ok _ _ _ Hc Ei) as (_ & Ek & _).
  destruct (prepared_input _ _ i eq_refl Eq) as (Hk & _). rewrite Ek in Hk. injection Hk as Hk. rewrite <- Hk, <- Er. done.
Qed.

(** ** Applying an override *)

Definition last_of (s : RepositoryScope) (st : list stored) : option ActiveOverride := fst <$> last (controls_of s st).

(** What decides about an operation that is not stored. *)
Definition transition_allowed (t : override_tables) (st : list stored) (o : ActiveOverride) : bool :=
  let latest := last_of (oc_scope (av_command o)) st in
  let in_order := match latest with Some l => instant (av_applied_at l) <=? instant (av_applied_at o) | None => true end in
  match oc_kind (av_command o) with
  | force_full_ci_kind => true
  | disable_omission => in_order && match latest with Some l => bool_decide (oc_kind (av_command l) = enable_omission) | None => true end
  | enable_omission =>
      in_order && bool_decide (cutover_latch t (oc_scope (av_command o)) = None) &&
      match latest with
      | Some l => bool_decide (oc_kind (av_command l) = disable_omission) && bool_decide (Some (av_override_id l) = oc_subject_id (av_command o))
      | None => false
      end
  end.

Lemma transition_decided t rs st o : overrides_hold t rs st -> _transition_is_admitted t o = Ok (transition_allowed t st o).
Proof.
  intros Ht. unfold _transition_is_admitted, transition_allowed. rewrite (latest_control t rs st Ht). unfold last_of.
  destruct (oc_kind (av_command o)); [done|..]; cbn [mbind res_bind]; destruct (last (controls_of _ st)) as [p|];
    cbn [fmap option_fmap option_map sequenced sq_record record_of so_override fst]; unfold control_kind; cbn [sequenced sq_record record_of so_override].
  - rewrite Z.ltb_antisym. destruct (_ <=? _); cbn [negb andb]; [|done]. by rewrite bool_decide_eq_true_2.
  - by rewrite bool_decide_eq_true_2.
  - rewrite Z.ltb_antisym. destruct (_ <=? _); cbn [negb andb]; [|done]. rewrite bool_decide_eq_false_2 by done. by destruct (cutover_latch t _).
  - rewrite bool_decide_eq_false_2 by done. cbn [andb]. rewrite andb_false_r. by destruct (cutover_latch t _).
Qed.

#[local] Opaque int_str hash_mapping isoformat isoformat_ms applied_event prepare_audit_event _prepare_applied_event OverrideAuditEvent_applied ActiveOverride_create decode_operator_override_row _override_to_row.

Lemma override_guard_Ok {A} f m (r : res A) x : override_guard f m r = Ok x <-> r = Ok x.
Proof. destruct r as [a|e]; cbn; [done|]. by destruct (negb _ && f e). Qed.

(** The invariant after an override and its event. *)
Lemma override_stored t rs st o ev a row :
  overrides_hold t rs st -> override_ok o -> audited (o, ev) -> tables_hold a (rs ++ [ev]) -> is_applied ev = true ->
  row_of o ev row -> find_operation st (av_command o) = None -> transition_allowed t st o = true ->
  existsb (override_keys_clash row) (operator_overrides t) = false ->
  overrides_hold (with_overrides (with_ledger t a) (operator_overrides t ++ [row])) (rs ++ [ev]) (st ++ [(o, ev)]).
Proof.
  intros Ht Ho Hau Ha Hev Hr Hf Htr Hc. split.
  - exact Ha.
  - apply Forall2_app; [apply Ht|]. constructor; [exact Hr|constructor].
  - apply Forall_app. split; [apply Ht|]. constructor; [exact (conj Ho Hau)|constructor].
  - rewrite fmap_app, List.filter_app, (oh_events _ _ _ Ht). cbn [List.filter]. by rewrite Hev.
  - intros r [Hin| ->%list_elem_of_singleton]%elem_of_app; [by apply (oh_keys _ _ _ Ht)|done].
  - rewrite fmap_app, NoDup_app. split; [apply Ht|]. split; [|apply NoDup_singleton]. intros k Hk ->%list_elem_of_singleton.
    apply list_elem_of_fmap in Hk as (q & Hq & Hin%list_elem_of_In). unfold find_operation in Hf. pose proof (List.find_none _ _ Hf q Hin) as Hn.
    unfold with_operation in Hn. apply bool_decide_eq_false in Hn. by apply Hn.
  - rewrite fmap_app, NoDup_app. split; [apply Ht|]. split; [|apply NoDup_singleton]. intros k Hk ->%list_elem_of_singleton.
    apply list_elem_of_fmap in Hk as (q & Hq & Hin). apply list_elem_of_lookup in Hin as [i Hi].
    destruct (Forall2_lookup_r _ _ _ _ _ (oh_rows _ _ _ Ht) Hi) as (rq & Hrq & Hro). apply not_true_iff_false in Hc. apply Hc, existsb_exists.
    exists rq. split; [apply list_elem_of_In; by eapply list_elem_of_lookup_2|]. unfold override_keys_clash.
    destruct (row_parts _ _ _ Hro) as (? & _ & _ & ->), (row_parts _ _ _ Hr) as (? & _ & _ & ->). cbn [ov_override_id fst] in Hq |- *.
    by rewrite bool_decide_eq_true_2.
  - intros s. pose proof (oh_latched _ _ _ Ht s) as Hl. unfold controls_of in *. rewrite List.filter_app, fmap_app. cbn [List.filter fst].
    destruct (control_of s o) eqn:Es; [|cbn [fmap list_fmap]; by rewrite app_nil_r]. cbn [fmap list_fmap fst]. apply latched_snoc. split; [done|].
    unfold control_of in Es. apply andb_true_iff' in Es as [Es%bool_decide_eq_true Ek%negb_true_iff]. apply bool_decide_eq_false in Ek.
    unfold transition_allowed, last_of, controls_of in Htr. rewrite Es in Htr. unfold last_control. rewrite fmap_last.
    destruct (oc_kind (av_command o)) eqn:Eo; [done|..]; destruct (last (List.filter _ st)) as [l|]; cbn [fmap option_fmap option_map control_follows] in *; rewrite ?Eo.
    + bdec. by split.
    + done.
    + bdec. split; [done|]. by split.
    + by rewrite andb_false_r in Htr.
Qed.

Lemma apply_step t rs st o e p r t' :
  overrides_hold t rs st -> override_ok o -> OverrideAuditEvent_applied o = Ok e -> _prepare_applied_event o e = Ok p -> apply t o p = Ok (r, t') ->
  match find_operation st (av_command o) with
  | Some q => t' = t /\ r = if command_eqb (av_command q.1) (av_command o) then OverrideDuplicate q.1 else OverrideConflict
  | None =>
      if transition_allowed t st o
      then r = OverrideApplied o /\ production_scope_states t' = production_scope_states t /\ ot_attested t' = ot_attested t /\
           _lock_operation (av_command o) = Ok tt /\ exists ev, overrides_hold t' (rs ++ [ev]) (st ++ [(o, ev)])
      else r = OverrideConflict /\ t' = t
  end.
Proof.
  intros Ht Ho Ee Ep E. destruct (prepared_applied _ _ _ Ee Ep) as (i & Ei & Epi). pose proof (command_ok_shape _ (vo_command _ Ho)) as Hsh.
  destruct (applied_event_ok _ _ _ Hsh Ei) as (Hi & Hkey & Hty). destruct (prepared_input _ _ i eq_refl Epi) as (Pk & Pt & _).
  rewrite Hkey in Pk. injection Pk as Pk. rewrite Hty in Pt. injection Pt as Pt.
  unfold apply in E. rewrite Ee in E. cbn [mbind res_bind] in E. rewrite Ep in E. cbn [mbind res_bind] in E.
  rewrite bool_decide_eq_false_2 in E by (intros Hn; by apply Hn). apply override_guard_Ok in E.
  apply bind_Ok in E as ([] & _ & E). apply bind_Ok in E as ([] & Elock & E).
  rewrite (override_loaded t rs st Ht) in E. cbn [mbind res_bind] in E. destruct (find_operation st (av_command o)) as [q|] eqn:Ef.
  { cbn [fmap option_fmap option_map record_of so_override] in E. injection E as <- <-. split; reflexivity. }
  cbn [fmap option_fmap option_map] in E. rewrite (transition_decided t rs st o Ht) in E. cbn [mbind res_bind] in E.
  destruct (transition_allowed t st o) eqn:Etr; cbn [negb] in E; [|injection E as <- <-; split; reflexivity].
  apply bind_Ok in E as ([ar a] & Ea & E). unfold _append_pair_owned in Ea. destruct (negb _); [done|]. apply store_guard_Ok in Ea.
  assert (Hnew : forall x, found_event ar = Some x -> False).
  { intros x Hx. destruct (existing_facts _ _ _ _ _ _ _ (oh_ledger _ _ _ Ht) Ea Hx) as (_ & Hin & Hk). rewrite Pk in Hk.
    assert (Hap : is_applied x = true) by (apply (oh_keys _ _ _ Ht); [done|]; rewrite Hk; reflexivity).
    assert (Hst : x ∈ st.*2) by (rewrite (oh_events _ _ _ Ht); apply elem_of_filter_bool; exact (conj Hin Hap)).
    apply list_elem_of_fmap in Hst as (q & -> & Hq). destruct (stored_ok t rs st Ht q Hq) as [Hqo Hqa].
    rewrite (audited_key q (command_ok_shape _ (vo_command _ Hqo)) Hqa) in Hk.
    destruct (safe_scope _ (ck_scope _ (vo_command _ Hqo))), (safe_scope _ (ck_scope _ (vo_command _ Ho))).
    apply operation_key_inj in Hk as [K1 K2]; [|assumption..].
    apply list_elem_of_In in Hq. pose proof (List.find_none _ _ Ef q Hq) as Hn. unfold with_operation in Hn. apply bool_decide_eq_false in Hn.
    apply Hn. unfold operation_of. by rewrite K1, K2. }
  destruct ar as [ev|ev|ev ? ?]; [|by destruct (Hnew ev)..].
  destruct (appended_facts _ _ (InputExact i) p _ _ _ (oh_ledger _ _ _ Ht) (conj Hi Epi) Ea) as (Hh & Hin & _).
  apply bind_Ok in E as ([ws t2] & Ew & E). unfold _write_state in Ew. apply bind_Ok in Ew as (row & Er & Ew).
  apply bind_Ok in Ew as ([ret t3] & Eins & Ew). unfold insert_override in Eins. apply bind_Ok in Eins as ([] & _ & Eins).
  cbn [operator_overrides with_ledger] in Eins. destruct (existsb (override_keys_clash row) (operator_overrides t)) eqn:Ecl.
  { injection Eins as <- <-. exfalso. rewrite bool_decide_eq_false_2 in Ew by done. cbn [operator_overrides with_ledger] in Ew.
    apply bind_Ok in Ew as (sr & Es%one_or_none_Ok & Ew). destruct sr as [sr|]; [|done].
    pose proof (rows_where t rs st Ht _ _ (fun row p => row_operation (av_command o) p row)) as Hf. rewrite Es in Hf.
    apply Forall2_cons_inv_l in Hf as (q & l & _ & _ & Hq). assert (Hq' : q ∈ List.filter (with_operation (av_command o)) st) by (rewrite Hq; by left).
    apply elem_of_filter_bool in Hq' as [Hq1%list_elem_of_In Hq2]. pose proof (List.find_none _ _ Ef q Hq1). congruence. }
  apply bind_Ok in Eins as ([] & _ & [= <- <-]). assert (Eid : ov_override_id row = av_override_id o) by (destruct (row_parts _ _ _ Er) as (? & _ & _ & ->); done).
  rewrite bool_decide_eq_true_2 in Ew by by rewrite Eid. injection Ew as <- <-. injection E as <- <-. split; [done|]. split; [done|]. split; [done|]. split; [exact Elock|].
  exists ev. apply override_stored; try assumption. { exists i, p. exact (conj Ei (conj Epi Hin)). }
  unfold is_applied. apply bool_decide_eq_true. rewrite <- Pt, <- Hin. reflexivity.
Qed.
End steps.
