(* ===== verification/OverrideManagement.v ===== *)
(** * Applying overrides

    Models [DurableOperatorOverrideStore] of
    [persistence/operator_override_repository.py], which gives every call a
    transaction of its own, and [operator_controls/use_cases.py] with
    [service.py]: a command is authorized, applied or answered with what its
    operation did, and a refusal is reported when its event is stored.  The use
    case is a program of requests to its ports; an execution of the program
    meets other transactions before each request and faults of the database in
    its own, those of an environment. *)

From stdpp Require Import base gmap sets list sorting strings relations.
From Stdlib Require Import ZArith Lia.
From S2P Require Import Prelude Text PyFloat CanonicalJson Hashing ConfigControl Instants AuditEvents AuditChain AuditRepository AuditStore Reconciliation IsoTime OverrideControls CanonicalRows OverrideStore OverrideRows.

Section store.
Context `{Sha256} `{OtherIsoTexts}.

(** ** [DurableOperatorOverrideStore] *)

(** [except (PersistenceError, ValueError)]. *)
Definition answered (e : exn) : bool := is_persistence_error e || is_value_error e.

(** [async with self._unit_of_work() as transaction]: a result that does not
    [commit] is rolled back. *)
Definition override_transaction {A} (t : override_tables) (body : res (A * override_tables)) (commits : A -> bool) (refused : A) (f : fault)
    : res A * override_tables :=
  match f, body with
  | BeginFailed, _ => (Ok refused, t)
  | _, Raise e => (if answered e then Ok refused else Raise e, t)
  | NoFault, Ok (a, t') => (Ok a, if commits a then t' else t)
  | CommitUnknown, Ok (a, t') => (Ok refused, if commits a then t' else t)
  | CommitLost, Ok _ => (Ok refused, t)
  end.

(** What is raised before the transaction begins. *)
Definition before_transaction {A B} (t : override_tables) (refused : B) (r : res A) (k : A -> res B * override_tables) : res B * override_tables :=
  match r with
  | Raise e => (if answered e then Ok refused else Raise e, t)
  | Ok a => k a
  end.

Definition durable_resolve_operation (t : override_tables) (command : OverrideCommand) (f : fault) : res (option OverrideStoreResult) * override_tables :=
  override_transaction t ((fun r => (r, t)) <$> resolve_operation t command) (fun _ => false) (Some OverrideUnavailable) f.

Definition durable_apply (t : override_tables) (override : ActiveOverride) (audit_event : OverrideAuditEvent) (f : fault)
    : res OverrideStoreResult * override_tables :=
  before_transaction t OverrideUnavailable (_prepare_applied_event override audit_event) (fun prepared =>
    override_transaction t (apply t override prepared) (fun r => match r with OverrideConflict => false | _ => true end) OverrideUnavailable f).

Definition durable_record_rejection (t : override_tables) (audit_event : OverrideAuditEvent) (f : fault) : res bool * override_tables :=
  before_transaction t false (_prepare_rejection_event audit_event) (fun prepared =>
    override_transaction t
      ((fun x => (match x.1 with AuditAppendConflict _ _ _ => false | _ => true end, with_ledger t x.2)) <$> repository_append (ot_audit t) prepared)
      id false f).

(** The tables that the statements of [resolve_active] read. *)
Definition durable_resolve_active (t_admission t_force t_control t_target : override_tables) (f : fault) : ActiveOverrideReader :=
  fun scope subject_id now =>
    match f with
    | NoFault =>
        match resolve_active t_admission t_force t_control t_target scope subject_id now with
        | Raise e => if answered e then Ok OverrideLookupUnavailable else Raise e
        | r => r
        end
    | _ => Ok OverrideLookupUnavailable
    end.

(** ** Programs *)

(** Requests to the authorizer and to the store. *)
Inductive override_request : Type -> Type :=
  | Allows (actor : pystr) (action : OverrideKind) (scope : RepositoryScope) : override_request bool
  | ResolveOperation (command : OverrideCommand) : override_request (option OverrideStoreResult)
  | ApplyOverride (override : ActiveOverride) (audit_event : OverrideAuditEvent) : override_request OverrideStoreResult
  | RecordRejection (audit_event : OverrideAuditEvent) : override_request bool.

Inductive override_prog (A : Type) : Type :=
  | Done (r : res A)
  | Request {B : Type} (e : override_request B) (k : res B -> override_prog A).
Arguments Done {A} r.
Arguments Request {A B} e k.

Fixpoint prog_then {A B} (p : override_prog A) (k : res A -> override_prog B) : override_prog B :=
  match p with
  | Done r => k r
  | Request e f => Request e (fun x => prog_then (f x) k)
  end.

#[local] Instance override_prog_ret : MRet override_prog := fun A a => Done (Ok a).
#[local] Instance override_prog_bind : MBind override_prog := fun A B k p =>
  prog_then p (fun r => match r with Ok a => k a | Raise e => Done (Raise e) end).

Definition request {B} (e : override_request B) : override_prog B := Request e Done.
Definition pure {A} (r : res A) : override_prog A := Done r.

(** ** [use_cases.py] *)

Inductive OverrideResult :=
  | Stored (r : OverrideStoreResult)
  | OverrideRejected (code : OverrideAuditOutcome).

Definition _record_rejection (command : OverrideCommand) (outcome : OverrideAuditOutcome) (now : iso_value) : override_prog OverrideResult :=
  event ← pure (OverrideAuditEvent_rejected command outcome now);
  recorded ← request (RecordRejection event);
  mret (if (recorded : bool) then OverrideRejected outcome else Stored OverrideUnavailable).

Definition apply_override (command : OverrideCommand) (now : iso_value) : override_prog OverrideResult :=
  m ← pure (require_aware now "override evaluation time must be timezone-aware");
  allowed ← request (Allows (oc_actor command) (oc_kind command) (oc_scope command));
  if negb allowed then _record_rejection command unauthorized_outcome now
  else if expired_at command m then
    replay ← request (ResolveOperation command);
    match replay with
    | Some replay => mret (Stored replay)
    | None => _record_rejection command expired_outcome now
    end
  else
    override ← pure (ActiveOverride_create command now);
    event ← pure (OverrideAuditEvent_applied override);
    result ← request (ApplyOverride override event);
    mret (Stored result).

(** ** Executions *)

(** How the tables change by transactions of others: an override that is
    applied, an event of another kind in the ledger under a key of its own, and
    the latches of a production cutover. *)
Inductive change : override_tables -> override_tables -> Prop :=
  | change_override t o e p r t' :
      override_ok o -> OverrideAuditEvent_applied o = Ok e -> _prepare_applied_event o e = Ok p -> apply t o p = Ok (r, t') -> change t t'
  | change_event t i p scope r a :
      prepared_from i p -> ei_event_type (pr_input p) <> OPERATOR_OVERRIDE_APPLIED ->
      startswith (u "operator-override:") (ei_idempotency_key (pr_input p)) = false ->
      _append (ot_audit t) p scope = Ok (r, a) -> change t (with_ledger t a)
  | change_latches t l : change t (with_latches t l).

Definition others : override_tables -> override_tables -> Prop := rtc change.

(** What surrounds an execution: the transactions of others that may come
    before its requests, and the faults that may happen in its own. *)
Record environment := {
  env_step : override_tables -> override_tables -> Prop;
  env_fault : fault -> Prop;
  env_change : forall t t', env_step t t' -> change t t';
}.

Definition meanwhile (E : environment) : override_tables -> override_tables -> Prop := rtc (env_step E).

Lemma meanwhile_others E t t' : meanwhile E t t' -> others t t'.
Proof. intros R. induction R as [t|t t1 t' Hs _ IH]; [apply rtc_refl|]. eapply rtc_l; [exact (env_change E _ _ Hs)|exact IH]. Qed.

(** Nothing is ruled out; nothing happens. *)
Definition any_environment : environment := {| env_step := change; env_fault := fun _ => True; env_change := fun _ _ H => H |}.
Definition quiet_environment : environment :=
  {| env_step := fun _ _ => False; env_fault := fun f => f = NoFault; env_change := fun _ _ H => False_ind _ H |}.

(** The rows that a transaction adds. *)
Definition new_rows (t t' : override_tables) : list override_row := drop (length (operator_overrides t)) (operator_overrides t').

Section executions.
Context (authorizer : ControlPlaneScopeAuthorizer) (E : environment).

(** The answer to a request, with the tables after it. *)
Definition replies {B} (e : override_request B) (t : override_tables) (reply : res B) (t' : override_tables) : Prop :=
  match e in override_request B return res B -> Prop with
  | Allows actor action scope => fun r => r = allows authorizer actor action scope /\ t' = t
  | ResolveOperation command => fun r => exists f, env_fault E f /\ durable_resolve_operation t command f = (r, t')
  | ApplyOverride override event => fun r => exists f, env_fault E f /\ durable_apply t override event f = (r, t')
  | RecordRejection event => fun r => exists f, env_fault E f /\ durable_record_rejection t event f = (r, t')
  end reply.

(** An execution with the rows its own transactions added. *)
Fixpoint executes {A} (p : override_prog A) (t : override_tables) (own : list override_row) (t' : override_tables) (o : res A) : Prop :=
  match p with
  | Done r => meanwhile E t t' /\ own = [] /\ o = r
  | Request e k => exists t1 r t2 own2,
      meanwhile E t t1 /\ replies e t1 r t2 /\ executes (k r) t2 own2 t' o /\ own = new_rows t1 t2 ++ own2
  end.
End executions.
End store.

Arguments Done {A} r.
Arguments Request {A B} e k.
