(* ===== verification/OverrideHistory.v ===== *)
(** * Histories of the override tables

    The invariant holds in every history; a disable stays in force until an
    enable names it; and what planning is told agrees with the overrides that
    are stored. *)

From stdpp Require Import base gmap sets list sorting strings relations.
From Stdlib Require Import ZArith Lia.
From S2P Require Import Prelude Text PyFloat CanonicalJson Hashing JsonLoads JsonRoundtrip ConfigControl Instants AuditEvents AuditChain AuditFacts AuditChainFacts AuditLedger AuditRepository AuditRepositoryFacts AuditStore TableFacts Reconciliation IsoTime OverrideControls CanonicalRows OverrideStore OverrideRows OverrideFacts OverrideSteps OverrideManagement.

Section history.
Context `{Sha256} `{OtherIsoTexts}.
Abbreviation stored := (ActiveOverride * AuditEventRecord)%type.

#[local] Opaque int_str hash_mapping isoformat isoformat_ms applied_event prepare_audit_event _prepare_applied_event OverrideAuditEvent_applied ActiveOverride_create decode_operator_override_row _override_to_row.

Lemma with_ledger_same t : with_ledger t (ot_audit t) = t.
Proof. by destruct t. Qed.

(** An event of another kind leaves the overrides. *)
Lemma event_step t rs st i p scope r a :
  overrides_hold t rs st -> prepared_from i p -> ei_event_type (pr_input p) <> OPERATOR_OVERRIDE_APPLIED ->
  override_key (ei_idempotency_key (pr_input p)) = false -> _append (ot_audit t) p scope = Ok (r, a) ->
  exists rs', overrides_hold (with_ledger t a) (rs ++ rs') st /\
    match r with AuditAppendAppended e => rs' = [e] /\ _record_input e = pr_input p | _ => rs' = [] end.
Proof.
  intros Ht Hp Hty Hk E. destruct (found_event r) as [e|] eqn:Ef.
  - destruct (existing_facts _ _ _ _ _ _ _ (oh_ledger _ _ _ Ht) E Ef) as (-> & _). exists []. rewrite app_nil_r, with_ledger_same. split; [exact Ht|]. by destruct r.
  - destruct r as [e| |]; [|discriminate Ef..]. destruct (appended_facts _ _ i p _ _ _ (oh_ledger _ _ _ Ht) Hp E) as (Hh & Hin & _).
    assert (Et : event_type e = ei_event_type (pr_input p)) by by rewrite <- Hin. assert (Ek : idempotency_key e = ei_idempotency_key (pr_input p)) by by rewrite <- Hin.
    assert (Hap : is_applied e = false) by (apply bool_decide_eq_false; congruence).
    exists [e]. split; [|by split]. destruct Ht as [Hl Hr Ho He Hks Hn Hi Hla]. split; try assumption.
    + rewrite List.filter_app. cbn [List.filter]. rewrite Hap, app_nil_r. exact He.
    + intros x [Hx| ->%list_elem_of_singleton]%elem_of_app; [by apply Hks|]. rewrite Ek, Hk. discriminate.
Qed.

Lemma change_holds t rs st t' : overrides_hold t rs st -> change t t' ->
  exists rs' new, overrides_hold t' (rs ++ rs') (st ++ new) /\ ot_attested t' = ot_attested t.
Proof.
  intros Ht Hc. destruct Hc as [t o e p r t' Ho Ee Ep E|t i p scope r a Hp Hty Hk E|t l].
  - pose proof (apply_step _ _ _ _ _ _ _ _ Ht Ho Ee Ep E) as Hs. clear Ee Ep E. destruct (find_operation st (av_command o)) as [q|].
    { destruct Hs as [-> _]. exists [], []. by rewrite !app_nil_r. }
    destruct (transition_allowed t st o); [|destruct Hs as [_ ->]; exists [], []; by rewrite !app_nil_r].
    destruct Hs as (_ & _ & Ha & _ & ev & Hh). by exists [ev], [(o, ev)].
  - destruct (event_step _ _ _ _ _ _ _ _ Ht Hp Hty Hk E) as (rs' & Hh & _). exists rs', []. by rewrite app_nil_r.
  - exists [], []. rewrite !app_nil_r. split; [|done]. destruct Ht. by split.
Qed.

Lemma others_hold t rs st t' : overrides_hold t rs st -> others t t' ->
  exists rs' new, overrides_hold t' (rs ++ rs') (st ++ new) /\ ot_attested t' = ot_attested t.
Proof.
  intros Ht Hc. revert rs st Ht. induction Hc as [t|t t1 t' Hc _ IH]; intros rs st Ht; [exists [], []; by rewrite !app_nil_r|].
  destruct (change_holds _ _ _ _ Ht Hc) as (rs1 & new1 & Ht1 & Ha1). destruct (IH _ _ Ht1) as (rs2 & new2 & Ht2 & Ha2).
  exists (rs1 ++ rs2), (new1 ++ new2). rewrite !app_assoc. split; [exact Ht2|congruence].
Qed.
End history.
