(* ===== verification/OverrideResolution.v ===== *)
(** * What planning is told about overrides

    The resolution of the overrides in force, read by statements that see what
    was committed when they start: checks may be omitted only when no unexpired
    force names the subject and the repository is not disabled, and only an
    enable that names it releases a disable. *)

From stdpp Require Import base gmap sets list sorting strings relations.
From Stdlib Require Import ZArith Lia.
From S2P Require Import Prelude Text PyFloat CanonicalJson Hashing JsonLoads JsonRoundtrip ConfigControl Instants AuditEvents AuditChain AuditFacts AuditLedger AuditRepository AuditRepositoryFacts AuditStore TableFacts Reconciliation IsoTime OverrideControls CanonicalRows OverrideStore OverrideRows OverrideFacts OverrideSteps OverrideManagement OverrideHistory.

Section resolution.
Context `{Sha256} `{OtherIsoTexts}.
Abbreviation stored := (ActiveOverride * AuditEventRecord)%type.

#[local] Opaque int_str hash_mapping isoformat isoformat_ms decode_operator_override_row _override_to_row.

(** What a lookup answers, by the overrides its statements saw. *)
Definition resolved (scope : RepositoryScope) (subject : option pystr) (now : moment) (forced controlled : list stored) (answer : OverrideLookupResult) : Prop :=
  match answer with
  | ActiveOverrideRecords force disable =>
      match force with
      | Some o => exists ev s, (o, ev) ∈ forced /\ subject = Some s /\ forces scope s now o = true /\ in_force o now = true
      | None => forall s p, subject = Some s -> p ∈ forced -> forces scope s now p.1 = false
      end /\
      match last_of scope controlled with
      | Some l => instant (av_applied_at l) <= instant now /\
          disable = if bool_decide (oc_kind (av_command l) = disable_omission) then Some l else None
      | None => disable = None
      end
  | OverrideLookupUnavailable =>
      (exists s p, subject = Some s /\ p ∈ forced /\ forces scope s now p.1 = true /\ instant now < instant (av_applied_at p.1)) \/
      (exists l, last_of scope controlled = Some l /\ instant now < instant (av_applied_at l))
  end.

(** No override asks for the full set of checks. *)
Definition unforced (scope : RepositoryScope) (subject : option pystr) (now : moment) (forced controlled : list stored) : Prop :=
  (forall s p, subject = Some s -> p ∈ forced -> forces scope s now p.1 = false) /\
  match last_of scope controlled with
  | Some l => oc_kind (av_command l) = enable_omission /\ instant (av_applied_at l) <= instant now
  | None => True
  end.

Lemma last_of_in scope st l : last_of scope st = Some l -> exists p l0, controls_of scope st = l0 ++ [p] /\ p.1 = l /\ p ∈ st /\ control_of scope l = true.
Proof.
  unfold last_of. intros (p & Ep & ->)%fmap_Some. apply last_Some in Ep as (l0 & El). exists p, l0.
  assert (Hp : p ∈ controls_of scope st) by (rewrite El; set_solver). apply elem_of_filter_bool in Hp as [Hp Hc]. done.
Qed.

Section reads.
Context (t1 t2 t3 t4 : override_tables) (rs1 rs2 rs3 rs4 : list AuditEventRecord) (st1 st2 st3 new : list stored).
Context (H1 : overrides_hold t1 rs1 st1) (H2 : overrides_hold t2 rs2 st2) (H3 : overrides_hold t3 rs3 st3) (H4 : overrides_hold t4 rs4 (st3 ++ new)).
Context (scope : RepositoryScope) (subject : option pystr) (now : moment).

(** The part of a lookup after the force was read. *)
Definition after_force (force : option ActiveOverride) : res OverrideLookupResult :=
  control ← _load_latest_omission_control t3 scope;
  match control with
  | None => Ok (ActiveOverrideRecords force None)
  | Some control =>
      disable ← match control_kind control with
                | disable_omission => Ok (Some (so_override (sq_record control)))
                | enable_omission => _assert_valid_enable_transition t4 scope control ;; Ok None
                | force_full_ci_kind => violation "stored omission control kind is invalid"
                end;
      if instant now <? instant (av_applied_at (so_override (sq_record control))) then Ok OverrideLookupUnavailable
      else Ok (ActiveOverrideRecords force disable)
  end.

Lemma after_force_decided force : after_force force = Ok match last_of scope st3 with
  | None => ActiveOverrideRecords force None
  | Some l => if instant now <? instant (av_applied_at l) then OverrideLookupUnavailable
              else ActiveOverrideRecords force (if bool_decide (oc_kind (av_command l) = disable_omission) then Some l else None)
  end.
Proof.
  unfold after_force. rewrite (latest_control t3 rs3 st3 H3). cbn [mbind res_bind]. destruct (last_of scope st3) as [l|] eqn:El.
  - destruct (last_of_in _ _ _ El) as (p & l0 & Ec & Hl & Hp & Hc). rewrite Ec, last_snoc. cbn [fmap option_fmap option_map].
    unfold control_kind. cbn [sequenced sq_record record_of so_override]. rewrite Hl. unfold control_of in Hc. apply andb_true_iff' in Hc as [_ Hc%negb_true_iff].
    apply bool_decide_eq_false in Hc. destruct (oc_kind (av_command l)) eqn:Ek; [done| |].
    + cbn [mbind res_bind]. by destruct (_ <? _).
    + rewrite (enable_valid t4 rs4 (st3 ++ new) H4 scope l0 p (controls_of scope new)); [|unfold controls_of in *; by rewrite List.filter_app, Ec, <- app_assoc|by rewrite Hl].
      cbn [mbind res_bind]. by destruct (_ <? _).
  - unfold last_of in El. apply fmap_None in El. by rewrite El.
Qed.

Lemma after_force_resolved force answer :
  match force with
  | Some o => exists ev s, (o, ev) ∈ st2 /\ subject = Some s /\ forces scope s now o = true /\ in_force o now = true
  | None => forall s p, subject = Some s -> p ∈ st2 -> forces scope s now p.1 = false
  end -> after_force force = Ok answer -> resolved scope subject now st2 st3 answer.
Proof.
  intros Hf. rewrite after_force_decided. intros [= <-]. destruct (last_of scope st3) as [l|] eqn:El; unfold resolved.
  - destruct (Z.ltb_spec (instant now) (instant (av_applied_at l))) as [Hl|Hl]; [right; by exists l|]. rewrite El. split; [exact Hf|]. by split.
  - rewrite El. by split.
Qed.

Lemma resolve_active_decided answer : resolve_active t1 t2 t3 t4 scope subject now = Ok answer -> resolved scope subject now st2 st3 answer.
Proof.
  unfold resolve_active. intros ([] & _ & E)%bind_Ok. apply override_guard_Ok in E. apply bind_Ok in E as ([] & _ & E). apply bind_Ok in E as (force & Ef & E).
  assert (Ea : match force with None => Ok OverrideLookupUnavailable | Some force => after_force force end = Ok answer) by exact E. clear E.
  destruct subject as [s|] eqn:Es.
  - assert (Hc : has_char 0 s = false).
    { unfold _load_active_force, text_parameter in Ef. by destruct (has_char 0 s). }
    destruct (force_loaded t2 rs2 st2 H2 scope s now Hc) as (a & Ea2 & Ha). rewrite Ea2 in Ef. injection Ef as <-.
    destruct a as [[o|]|].
    + destruct Ha as (ev & Hin & Hf & Hi & _). rewrite <- Es. eapply after_force_resolved; [|exact Ea]. exists ev, s. done.
    + rewrite <- Es. eapply after_force_resolved; [|exact Ea]. intros s' p Es' Hp. rewrite Es in Es'. injection Es' as <-. by apply Ha.
    + injection Ea as <-. left. destruct Ha as (p & Hp & Hf & Hl). by exists s, p.
  - injection Ef as <-. rewrite <- Es. eapply after_force_resolved; [|exact Ea]. intros s p Es'. congruence.
Qed.

Lemma resolve_active_answers : ot_attested t1 = true -> (forall s, subject = Some s -> bounded s /\ has_char 0 s = false) ->
  exists answer, resolve_active t1 t2 t3 t4 scope subject now = Ok answer.
Proof.
  intros Ha Hs. unfold resolve_active.
  assert (Eq : _require_resolution_query subject = Ok tt).
  { destruct subject as [s|]; [|done]. unfold _require_resolution_query. by rewrite bounded_read by by apply Hs. }
  rewrite Eq. cbn [mbind res_bind]. rewrite (state_admitted t1 rs1 st1 H1 Ha). cbn [mbind res_bind].
  assert (Hf : exists force, _load_active_force t2 scope subject now = Ok force).
  { destruct subject as [s|]; [|by eexists]. destruct (force_loaded t2 rs2 st2 H2 scope s now) as (a & -> & _); [by apply Hs|by eexists]. }
  destruct Hf as (force & ->). cbn [mbind res_bind]. destruct force as [force|]; [|by eexists].
  change (exists answer, override_guard (fun e => is_codec_or_sql e || is_value_error e) "operator override resolution failed" (after_force force) = Ok answer).
  rewrite after_force_decided. cbn [override_guard]. by eexists.
Qed.

(** What the caller makes of the answer. *)
Lemma resolution_checked (reader : ActiveOverrideReader) answer : resolved scope subject now st2 st3 answer -> reader scope subject now = Ok answer ->
  _require_query subject (IsoAware now) = Ok now ->
  resolve_active_overrides reader scope subject (IsoAware now) = Ok match answer with
    | ActiveOverrideRecords force disable => {| lookup_available := true; force_full_ci_override := force; disable_dynamic_override := disable |}
    | OverrideLookupUnavailable => {| lookup_available := false; force_full_ci_override := None; disable_dynamic_override := None |}
    end.
Proof.
  intros Hr Er Eq. unfold resolve_active_overrides. rewrite Eq. cbn [mbind res_bind]. rewrite Er. cbn [mbind res_bind].
  destruct answer as [force disable|]; [|done]. destruct Hr as [Hf Hd].
  assert (Hf2 : match force with None => true | Some force =>
      bool_decide (oc_kind (av_command force) = force_full_ci_kind) && bool_decide (oc_scope (av_command force) = scope) &&
      negb (bool_decide (subject = None)) && bool_decide (oc_subject_id (av_command force) = subject) && in_force force now end = true).
  { destruct force as [o|]; [|done]. destruct Hf as (ev & s & _ & -> & Hf & ->). unfold forces in Hf. bdec.
    rewrite (bool_decide_eq_false_2 (Some s = None)) by done. by rewrite !bool_decide_eq_true_2 by done. }
  assert (Hd2 : match disable with None => true | Some disable =>
      bool_decide (oc_kind (av_command disable) = disable_omission) && bool_decide (oc_scope (av_command disable) = scope) && in_force disable now end = true).
  { destruct (last_of scope st3) as [l|] eqn:El; [|by rewrite Hd]. destruct Hd as [Hl ->].
    destruct (decide (oc_kind (av_command l) = disable_omission)) as [Ek|Ek]; [rewrite bool_decide_eq_true_2 by done|by rewrite bool_decide_eq_false_2 by done].
    destruct (last_of_in _ _ _ El) as (p & l0 & _ & Epl & Hp & Hc). unfold control_of in Hc. apply andb_true_iff' in Hc as [Hc _]. rewrite Hc.
    unfold in_force. rewrite Ek. rewrite (proj2 (Z.ltb_ge _ _)) by done. cbn.
    destruct (stored_ok t3 rs3 st3 H3 p Hp) as [Ho _]. pose proof (command_ok_shape _ (vo_command _ Ho)) as [_ _ _ Hs]. rewrite Epl, Ek in Hs.
    destruct (oc_subject_id (av_command l)); [done|]. by destruct (oc_expires_at (av_command l)). }
  unfold _records_match_query. rewrite Hf2, Hd2. cbn [andb negb]. apply checked_Ok. split; [|done].
  unfold OverrideResolution_check. cbn [lookup_available force_full_ci_override disable_dynamic_override negb andb raise_if mbind res_bind].
  destruct force as [o|]; [apply andb_true_iff' in Hf2 as [Hf2 _]; bdec; rewrite bool_decide_eq_false_2 by (intros Hn; by apply Hn)|]; cbn [raise_if mbind res_bind];
    (destruct disable as [d|]; [apply andb_true_iff' in Hd2 as [Hd2 _]; bdec; rewrite bool_decide_eq_false_2 by (intros Hn; by apply Hn)|]); done.
Qed.

(** Unforced, exactly when the answer asks for nothing. *)
Lemma resolved_unforced answer : resolved scope subject now st2 st3 answer -> unforced scope subject now st2 st3 <-> answer = ActiveOverrideRecords None None.
Proof.
  unfold unforced. destruct answer as [force disable|]; cbn [resolved].
  - intros [Hf Hd]. split.
    + intros [Hn Hl]. assert (force = None) as ->.
      { destruct force as [o|]; [|done]. destruct Hf as (ev & s & Hin & Es & Hf & _). specialize (Hn s (o, ev) Es Hin). cbn in Hn. congruence. }
      f_equal. destruct (last_of scope st3) as [l|]; [|done]. destruct Hd as [_ ->], Hl as [-> _]. done.
    + intros [= -> ->]. split; [done|]. destruct (last_of scope st3) as [l|] eqn:El; [|done]. destruct Hd as [Hl Hd]. split; [|done].
      destruct (last_of_in _ _ _ El) as (p & l0 & _ & _ & _ & Hc). unfold control_of in Hc. apply andb_true_iff' in Hc as [_ Hc%negb_true_iff].
      apply bool_decide_eq_false in Hc.
      destruct (decide (oc_kind (av_command l) = disable_omission)) as [Ek|Ek]; [by rewrite bool_decide_eq_true_2 in Hd|]. by destruct (oc_kind (av_command l)).
  - intros Hu. split; [|done]. intros [Hn Hl]. exfalso. destruct Hu as [(s & p & Es & Hp & Hf & _)|(l & El & Hl2)].
    + rewrite (Hn s p Es Hp) in Hf. done.
    + rewrite El in Hl. lia.
Qed.

Lemma query_Ok s m : _require_query s (IsoAware now) = Ok m -> m = now.
Proof. unfold _require_query. intros ([] & _ & [= ->])%bind_Ok. done. Qed.

Lemma resolution_sound f r : resolve_active_overrides (durable_resolve_active t1 t2 t3 t4 f) scope subject (IsoAware now) = Ok r ->
  force_full_ci r = false -> unforced scope subject now st2 st3.
Proof.
  intros E Hr. pose proof E as E2. unfold resolve_active_overrides in E2. apply bind_Ok in E2 as (m & Eq & E2). pose proof (query_Ok _ _ Eq) as ->.
  apply bind_Ok in E2 as (answer & Ea & E2).
  destruct answer as [force disable|]; [|apply checked_Ok in E2 as [_ ->]; discriminate Hr].
  unfold durable_resolve_active in Ea. destruct f; [|done..].
  assert (Era : resolve_active t1 t2 t3 t4 scope subject now = Ok (ActiveOverrideRecords force disable)).
  { destruct (resolve_active t1 t2 t3 t4 scope subject now) as [x|e]; [done|]. by destruct (answered e). }
  apply resolve_active_decided in Era. rewrite (resolution_checked _ _ Era) in E; [|unfold durable_resolve_active; exact Ea|exact Eq].
  injection E as <-. apply (resolved_unforced _ Era). unfold force_full_ci in Hr. cbn in Hr. destruct force, disable; done.
Qed.

Lemma resolution_complete : ot_attested t1 = true -> (forall s, subject = Some s -> bounded s /\ has_char 0 s = false) ->
  exists r, resolve_active_overrides (durable_resolve_active t1 t2 t3 t4 NoFault) scope subject (IsoAware now) = Ok r /\
    (unforced scope subject now st2 st3 -> force_full_ci r = false).
Proof.
  intros Ha Hs. destruct (resolve_active_answers Ha Hs) as (answer & Era). pose proof (resolve_active_decided _ Era) as Hr.
  assert (Eq : _require_query subject (IsoAware now) = Ok now).
  { unfold _require_query. destruct subject as [[|c s]|]; [by destruct (Hs [] eq_refl) as [[Hn _] _]| |done].
    destruct (Hs _ eq_refl) as [(_ & n & -> & Hn) _]. cbn [mbind res_bind]. by rewrite (proj2 (Z.ltb_ge _ _)). }
  eexists. split; [apply (resolution_checked _ _ Hr); [|exact Eq]; unfold durable_resolve_active; by rewrite Era|].
  intros ->%(resolved_unforced _ Hr). done.
Qed.
End reads.

(** ** Histories of a lookup *)

(** The tables the statements of a lookup read, one after the other, while
    other transactions commit. *)
Record lookup_history (t t1 t2 t3 t4 : override_tables) : Prop := {
  lh_admission : others t t1;
  lh_force : others t1 t2;
  lh_control : others t2 t3;
  lh_target : others t3 t4;
}.

Lemma history_holds t rs st t1 t2 t3 t4 : overrides_hold t rs st -> lookup_history t t1 t2 t3 t4 ->
  exists rs1 st1 rs2 st2 rs3 st3 rs4 new, overrides_hold t1 rs1 st1 /\ overrides_hold t2 rs2 st2 /\ overrides_hold t3 rs3 st3 /\
    overrides_hold t4 rs4 (st3 ++ new) /\ st `prefix_of` st2 /\ st2 `prefix_of` st3 /\ ot_attested t1 = ot_attested t.
Proof.
  intros Ht [O1 O2 O3 O4]. destruct (others_hold _ _ _ _ Ht O1) as (r1 & n1 & H1 & A1). destruct (others_hold _ _ _ _ H1 O2) as (r2 & n2 & H2 & _).
  destruct (others_hold _ _ _ _ H2 O3) as (r3 & n3 & H3 & _). destruct (others_hold _ _ _ _ H3 O4) as (r4 & n4 & H4 & _).
  do 8 eexists. split; [exact H1|]. split; [exact H2|]. split; [exact H3|]. split; [exact H4|].
  split; [exists (n1 ++ n2); by rewrite app_assoc|]. split; [by exists n3|exact A1].
Qed.

(** The controls of a scope only grow, and what follows a disable is the enable
    that names it. *)
Lemma latch_released s d st new t rs : overrides_hold t rs (st ++ new) -> last_of s st = Some d -> oc_kind (av_command d) = disable_omission ->
  last_of s (st ++ new) = Some d \/
  exists p, p ∈ new /\ oc_scope (av_command p.1) = s /\ oc_kind (av_command p.1) = enable_omission /\ oc_subject_id (av_command p.1) = Some (av_override_id d).
Proof.
  intros Ht Hl Hk. destruct (last_of_in _ _ _ Hl) as (p & l0 & Ec & Hp & _ & _). pose proof (oh_latched _ _ _ Ht s) as Hla.
  unfold last_of, controls_of in *. rewrite List.filter_app, Ec in Hla |- *. destruct (List.filter _ new) as [|q l] eqn:En.
  - left. rewrite app_nil_r, last_snoc. cbn. by rewrite Hp.
  - right. exists q. assert (Hq : q ∈ List.filter (fun p => control_of s p.1) new) by (rewrite En; by left). apply elem_of_filter_bool in Hq as [Hq Hqc]. split; [exact Hq|].
    unfold control_of in Hqc. apply andb_true_iff' in Hqc as [Hqs%bool_decide_eq_true Hqk]. split; [exact Hqs|].
    rewrite fmap_app in Hla. apply latched_app in Hla as [_ Hla]. cbn [fmap list_fmap latched] in Hla. destruct Hla as [Hf _].
    unfold last_control in Hf. rewrite fmap_last, last_snoc in Hf. cbn [fmap option_fmap option_map control_follows] in Hf. rewrite Hp, Hk in Hf. destruct Hf as [_ Hf].
    destruct (oc_kind (av_command q.1)); [done|done|by destruct Hf].
Qed.

(** ** Properties *)

(** C12: the resolution of the overrides in force is fail-closed and exact.  Its
    statements read one after the other, while others commit: whatever fault the
    database has, a resolution that leaves checks out found no unexpired force
    of the subject and no disable of the repository that an enable did not
    release; and without faults, when that is what was stored, it says so. *)
Theorem resolution_fail_closed t rs st t1 t2 t3 t4 scope subject now :
  overrides_hold t rs st -> lookup_history t t1 t2 t3 t4 ->
  exists rs2 forced rs3 controlled, overrides_hold t2 rs2 forced /\ overrides_hold t3 rs3 controlled /\ st `prefix_of` forced /\ forced `prefix_of` controlled /\
    (forall f r, resolve_active_overrides (durable_resolve_active t1 t2 t3 t4 f) scope subject (IsoAware now) = Ok r ->
       force_full_ci r = false -> unforced scope subject now forced controlled) /\
    (ot_attested t = true -> (forall s, subject = Some s -> bounded s /\ has_char 0 s = false) ->
       exists r, resolve_active_overrides (durable_resolve_active t1 t2 t3 t4 NoFault) scope subject (IsoAware now) = Ok r /\
         (force_full_ci r = false <-> unforced scope subject now forced controlled)).
Proof.
  intros Ht Hh. destruct (history_holds _ _ _ _ _ _ _ Ht Hh) as (rs1 & st1 & rs2 & st2 & rs3 & st3 & rs4 & new & H1 & H2 & H3 & H4 & P1 & P2 & Ha).
  exists rs2, st2, rs3, st3. split; [exact H2|]. split; [exact H3|]. split; [exact P1|]. split; [exact P2|].
  pose proof (fun f r => resolution_sound t1 t2 t3 t4 rs2 rs3 rs4 st2 st3 new H2 H3 H4 scope subject now f r) as Hs.
  split; [exact Hs|]. intros Hat Hb. rewrite <- Ha in Hat.
  destruct (resolution_complete t1 t2 t3 t4 rs1 rs2 rs3 rs4 st1 st2 st3 new H1 H2 H3 H4 scope subject now Hat Hb) as (r & Er & Hr).
  exists r. split; [exact Er|]. split; [exact (Hs NoFault r Er)|exact Hr].
Qed.

(** C13: a disable of a repository is latched.  However long ago it was applied
    and whatever happens meanwhile, planning is told to leave checks out only
    after an enable that names this very disable was stored. *)
Theorem disable_stays_latched t rs st d t1 t2 t3 t4 f installation repository event_name ref base_sha head_sha run attempt now r :
  overrides_hold t rs st -> lookup_history t t1 t2 t3 t4 ->
  last_of (scope_of installation repository) st = Some d -> oc_kind (av_command d) = disable_omission ->
  resolve (durable_resolve_active t1 t2 t3 t4 f) installation repository event_name ref base_sha head_sha run attempt (IsoAware now) = Ok r ->
  pd_force_full_ci r = false ->
  exists rs' new p, overrides_hold t3 rs' (st ++ new) /\ p ∈ new /\ oc_scope (av_command p.1) = scope_of installation repository /\
    oc_kind (av_command p.1) = enable_omission /\ oc_subject_id (av_command p.1) = Some (av_override_id d).
Proof.
  intros Ht Hh Hd Hk E Hr. destruct (history_holds _ _ _ _ _ _ _ Ht Hh) as (rs1 & st1 & rs2 & st2 & rs3 & st3 & rs4 & new & H1 & H2 & H3 & H4 & P1 & P2 & Ha).
  unfold resolve in E. apply bind_Ok in E as (s & _ & E). apply bind_Ok in E as (scope & Es & E). apply checked_Ok in Es as [_ ->].
  apply bind_Ok in E as (x & Ex & E).
  assert (Hx : force_full_ci x = false).
  { destruct (lookup_available x) eqn:Eav; cbn [negb] in E; [|apply checked_Ok in E as [_ ->]; discriminate Hr].
    destruct (force_full_ci x); [apply checked_Ok in E as [_ ->]; discriminate Hr|done]. }
  destruct (resolution_sound t1 t2 t3 t4 rs2 rs3 rs4 st2 st3 new H2 H3 H4 _ _ _ _ _ Ex Hx) as [_ Hu].
  destruct P1 as [x1 E1], P2 as [x2 E2]. rewrite E1, <- app_assoc in E2. subst st3. exists rs3, (x1 ++ x2).
  destruct (latch_released _ _ _ _ _ _ H3 Hd Hk) as [Hl|(p & Hp)]; [|by exists p].
  unfold scope_of in Hl. rewrite Hl in Hu. destruct Hu as [Hu _]. rewrite Hk in Hu. discriminate Hu.
Qed.
End resolution.
