(* ===== verification/OverrideReplay.v ===== *)
(** * An override can be written at any time

    The event of a command is written at one time exactly when it is written at
    any other before the command's expiry: a timestamp of the audit ledger is
    the text of every instant of the calendar, and texts of one length take the
    same place in a payload. *)

From stdpp Require Import base gmap sets list sorting strings.
From Stdlib Require Import ZArith Lia.
From S2P Require Import Prelude Text PyFloat CanonicalJson Hashing JsonLoads JsonText JsonRoundtrip ConfigControl Instants AuditEvents AuditChain AuditFacts AuditChainFacts AuditRepository TableFacts Reconciliation IsoTime OverrideControls CanonicalRows OverrideStore OverrideRows OverrideFacts OverrideSteps.

(** ** Timestamps *)

Definition in_calendar (t : Z) : Prop := DATETIME_MIN <= t <= DATETIME_MAX.

(** A year of an era has a day 365, counted from March, only before a leap day. *)
Lemma leap_day yoe : 0 <= yoe < 400 ->
  let doe := 365 * yoe + yoe / 4 - yoe / 100 + 365 in
  (doe - doe / 1460 + doe / 36524 - doe / 146096) / 365 = yoe -> is_leap (yoe + 1) = true.
Proof.
  intros Hy. pose (ok yoe := let doe := 365 * yoe + yoe / 4 - yoe / 100 + 365 in
    negb ((doe - doe / 1460 + doe / 36524 - doe / 146096) / 365 =? yoe) || is_leap (yoe + 1)).
  assert (Hall : forallb ok (seqZ 0 400) = true) by (vm_compute; reflexivity).
  rewrite forallb_elem in Hall. specialize (Hall yoe (proj2 (elem_of_seqZ 0 400 yoe) ltac:(lia))). unfold ok in Hall.
  intros doe E. apply orb_true_iff in Hall as [Hn%negb_true_iff%Z.eqb_neq|Hl]; [by destruct Hn|exact Hl].
Qed.

Lemma leap_era y era : is_leap (y + era * 400) = is_leap y.
Proof.
  unfold is_leap. replace (y + era * 400) with (y + era * 100 * 4) at 1 by lia. rewrite Z.mod_add by lia.
  replace (y + era * 400) with (y + era * 4 * 100) at 1 by lia. rewrite !Z.mod_add by lia. done.
Qed.

(** The date that is written is one of the calendar. *)
Lemma civil_date d : -719162 <= d <= 2932896 ->
  let '(y, m, dd) := civil_from_days d in 1 <= y <= 9999 /\ 1 <= m <= 12 /\ 1 <= dd <= days_in_month y m.
Proof.
  intros Hd. unfold civil_from_days. cbv zeta. set (era := (d + 719468) / 146097).
  pose proof (Z.div_mod (d + 719468) 146097 ltac:(lia)) as Hz. fold era in Hz.
  pose proof (Z.mod_pos_bound (d + 719468) 146097 ltac:(lia)) as Hb. set (doe := (d + 719468) mod 146097) in *. clearbody doe.
  set (yoe := (doe - doe / 1460 + doe / 36524 - doe / 146096) / 365).
  assert (Eyoe : yoe = (doe - doe / 1460 + doe / 36524 - doe / 146096) / 365) by done. clearbody yoe.
  assert (Hy : 0 <= yoe < 400) by (clear -Hb Eyoe; euclid).
  set (doy := doe - (365 * yoe + yoe / 4 - yoe / 100)). assert (Edoy : doe = 365 * yoe + yoe / 4 - yoe / 100 + doy) by lia. clearbody doy.
  assert (Hdoy : 0 <= doy <= 365) by (clear -Hb Eyoe Edoy; euclid).
  set (mp := (5 * doy + 2) / 153). assert (Emp : mp = (5 * doy + 2) / 153) by done. clearbody mp.
  assert (Hera : 0 <= era <= 24) by (clear -Hd Hz Hb; lia).
  assert (Hmp : 0 <= mp <= 11) by (clear -Hdoy Emp; euclid). assert (Hlate : 10 <= mp <-> 306 <= doy) by (clear -Hdoy Emp; euclid).
  assert (Hday : 1 <= doy - (153 * mp + 2) / 5 + 1 <= 31) by (clear -Hdoy Emp; euclid).
  assert (Hleap : doy = 365 -> is_leap (yoe + era * 400 + 1) = true).
  { intros ->. replace (yoe + era * 400 + 1) with (yoe + 1 + era * 400) by lia. rewrite leap_era. apply leap_day; [exact Hy|]. rewrite <- Edoy. by symmetry. }
  clearbody era. assert (Hfirst : era = 0 -> yoe = 0 -> 306 <= doy) by (clear -Hd Hz Edoy; intros -> ->; rewrite Edoy in Hz; change (0 / 4) with 0 in Hz; change (0 / 100) with 0 in Hz; lia).
  assert (Hlast : era = 24 -> yoe = 399 -> doy < 306) by (clear -Hd Hz Edoy; intros -> ->; rewrite Edoy in Hz; change (399 / 4) with 99 in Hz; change (399 / 100) with 3 in Hz; lia).
  clear Eyoe Edoy Hz Hb Hd.
  assert (Hcases : mp = 0 \/ mp = 1 \/ mp = 2 \/ mp = 3 \/ mp = 4 \/ mp = 5 \/ mp = 6 \/ mp = 7 \/ mp = 8 \/ mp = 9 \/ mp = 10 \/ mp = 11) by lia.
  set (m := if mp <? 10 then mp + 3 else mp - 9). assert (Em : m = if mp <? 10 then mp + 3 else mp - 9) by done. clearbody m.
  unfold days_in_month. destruct Hcases as [-> |[-> |[-> |[-> |[-> |[-> |[-> |[-> |[-> |[-> |[-> | ->]]]]]]]]]]];
    first [assert (m = 1) as -> by exact Em|assert (m = 2) as -> by exact Em|assert (m = 3) as -> by exact Em|assert (m = 4) as -> by exact Em
          |assert (m = 5) as -> by exact Em|assert (m = 6) as -> by exact Em|assert (m = 7) as -> by exact Em|assert (m = 8) as -> by exact Em
          |assert (m = 9) as -> by exact Em|assert (m = 10) as -> by exact Em|assert (m = 11) as -> by exact Em|assert (m = 12) as -> by exact Em];
    clear Em; cbn; (split; [|split; [lia|]]); try (clear -Hy Hera Hdoy Hday Hlate Hfirst Hlast Emp; lia); try (clear -Hday Emp Hdoy; euclid).
  destruct (Z.eq_dec doy 365) as [E|E]; [rewrite (Hleap E); clear -Hday Emp Hdoy E; euclid|].
  destruct (is_leap _); clear -Hday Emp Hdoy E; euclid.
Qed.

Lemma digit_2 n : 0 <= n < 100 -> parse_nat (digits 2 n) = n.
Proof. exact (number_2 n). Qed.
Lemma digit_4 n : 0 <= n < 10000 -> parse_nat (digits 4 n) = n.
Proof. exact (number_4 n). Qed.
Lemma digit_3 n : 0 <= n < 1000 -> parse_nat (digits 3 n) = n.
Proof. intros Hn. unfold parse_nat. cbn -[Z.mul Z.add Z.sub Z.div Z.modulo]. euclid. Qed.

Lemma digit_is_digit n : is_digit (48 + n mod 10) = true.
Proof. pose proof (Z.mod_pos_bound n 10 ltac:(lia)). unfold is_digit. lia. Qed.

Lemma template_text : u "dddd-dd-ddTdd:dd:dd.dddZ" =
  [100; 100; 100; 100; 45; 100; 100; 45; 100; 100; 84; 100; 100; 58; 100; 100; 58; 100; 100; 46; 100; 100; 100; 90].
Proof. vm_compute. reflexivity. Qed.

Lemma zeros_text : u "0000" = [48; 48; 48; 48].
Proof. vm_compute. reflexivity. Qed.

(** The places of a number that is written. *)
Lemma written_2 n : 0 <= n < 100 -> exists a b, digits 2 n = [a; b] /\ is_digit a = true /\ is_digit b = true /\ parse_nat [a; b] = n.
Proof. intros Hn. exists (48 + n / 10 mod 10), (48 + n mod 10). split; [reflexivity|]. split; [apply digit_is_digit|]. split; [apply digit_is_digit|]. exact (digit_2 n Hn). Qed.
Lemma written_3 n : 0 <= n < 1000 -> exists a b c, digits 3 n = [a; b; c] /\ is_digit a = true /\ is_digit b = true /\ is_digit c = true /\ parse_nat [a; b; c] = n.
Proof.
  intros Hn. exists (48 + n / 10 / 10 mod 10), (48 + n / 10 mod 10), (48 + n mod 10). split; [reflexivity|]. do 3 (split; [apply digit_is_digit|]). exact (digit_3 n Hn).
Qed.
Lemma written_4 n : 0 <= n < 10000 -> exists a b c d, digits 4 n = [a; b; c; d] /\ is_digit a = true /\ is_digit b = true /\ is_digit c = true /\ is_digit d = true /\
  parse_nat [a; b; c; d] = n.
Proof.
  intros Hn. exists (48 + n / 10 / 10 / 10 mod 10), (48 + n / 10 / 10 mod 10), (48 + n / 10 mod 10), (48 + n mod 10). split; [reflexivity|].
  do 4 (split; [apply digit_is_digit|]). exact (digit_4 n Hn).
Qed.

(** The ledger accepts the text of every instant of the calendar. *)
Lemma timestamp_valid t : in_calendar t -> _is_iso_timestamp (VStr (isoformat_ms t)) = true.
Proof.
  intros Ht. unfold in_calendar, DATETIME_MIN, DATETIME_MAX in Ht. cbn [_is_iso_timestamp].
  assert (Es : isoformat_ms t = isoformat_ms (t / 1000 * 1000)) by (unfold isoformat_ms; by rewrite Z.div_mul by lia).
  set (ms := t / 1000) in *. assert (Hms : -62135596800000 <= ms <= 253402300799999) by (clear -Ht; subst ms; euclid). clearbody ms. rewrite Es. clear Es Ht t.
  unfold isoformat_ms at 1 2. rewrite Z.div_mul by lia. set (day := ms / 86400000). set (s := ms mod 86400000).
  assert (Hday : -719162 <= day <= 2932896) by (clear -Hms; subst day; euclid). assert (Hs : 0 <= s < 86400000) by (apply Z.mod_pos_bound; lia).
  assert (Emd : ms = day * 86400000 + s) by (subst day s; rewrite Z.mul_comm; apply Z.div_mod; lia). clearbody day s.
  pose proof (civil_date day Hday) as Hd. pose proof (civil_inverse day) as Hi. destruct (civil_from_days day) as [[y m] d] eqn:Ec. destruct Hd as (Hy & Hm & Hdd).
  assert (Hdm : days_in_month y m <= 31) by (unfold days_in_month; repeat case_match; lia).
  assert (Hh : 0 <= s / 3600000 <= 23) by (clear -Hs; euclid). assert (Hmi : 0 <= s / 60000 mod 60 <= 59) by (pose proof (Z.mod_pos_bound (s / 60000) 60); lia).
  assert (Hse : 0 <= s / 1000 mod 60 <= 59) by (pose proof (Z.mod_pos_bound (s / 1000) 60); lia). assert (Hmm : 0 <= s mod 1000 < 1000) by (apply Z.mod_pos_bound; lia).
  destruct (written_4 y ltac:(lia)) as (y1 & y2 & y3 & y4 & Ey & Y1 & Y2 & Y3 & Y4 & Ny). destruct (written_2 m ltac:(lia)) as (m1 & m2 & Em & M1 & M2 & Nm).
  destruct (written_2 d ltac:(lia)) as (d1 & d2 & Ed & D1 & D2 & Nd). destruct (written_2 (s / 3600000) ltac:(lia)) as (h1 & h2 & Eh & H1 & H2 & Nh).
  destruct (written_2 (s / 60000 mod 60) ltac:(lia)) as (i1 & i2 & Ei & I1 & I2 & Ni). destruct (written_2 (s / 1000 mod 60) ltac:(lia)) as (s1 & s2 & Ese & S1 & S2 & Ns).
  destruct (written_3 (s mod 1000) ltac:(lia)) as (f1 & f2 & f3 & Ef & F1 & F2 & F3 & Nf).
  rewrite Ey, Em, Ed, Eh, Ei, Ese, Ef. cbn [app]. apply andb_true_iff'. split.
  - unfold timestamp_shape. rewrite bool_decide_eq_true_2 by (rewrite template_text; reflexivity). cbn [andb]. apply andb_true_iff'. split.
    + rewrite template_text. cbv -[is_digit]. rewrite Y1, Y2, Y3, Y4, M1, M2, D1, D2, H1, H2, I1, I2, S1, S2, F1, F2, F3. reflexivity.
    + apply negb_true_iff, bool_decide_eq_false. rewrite zeros_text. cbn [take]. intros E. injection E as -> -> -> ->. cbn in Ny. lia.
  - unfold AuditEvents.fromisoformat. cbn [take drop]. rewrite Ny, Nm, Nd, Nh, Ni, Ns, Nf. unfold datetime_utc.
    assert (E : (1 <=? y) && (y <=? 9999) && (1 <=? m) && (m <=? 12) && (1 <=? d) && (d <=? days_in_month y m) && (0 <=? s / 3600000) && (s / 3600000 <=? 23) &&
      (0 <=? s / 60000 mod 60) && (s / 60000 mod 60 <=? 59) && (0 <=? s / 1000 mod 60) && (s / 1000 mod 60 <=? 59) = true).
    { repeat (apply andb_true_iff'; split); apply Z.leb_le; lia. }
    rewrite E. apply bool_decide_eq_true. rewrite Hi. unfold SECOND. f_equal. rewrite Emd. clear -Hs. euclid.
Qed.

(** The text of an instant is 24 characters that are written as they are. *)
Lemma isoformat_ms_length t : length (isoformat_ms t) = 24%nat.
Proof. unfold isoformat_ms. destruct (civil_from_days _) as [[y m] d]. rewrite !length_app, !digits_length. reflexivity. Qed.

Lemma isoformat_ms_plain t c : c ∈ isoformat_ms t -> 45 <= c <= 90 /\ c <> 92.
Proof.
  unfold isoformat_ms. destruct (civil_from_days _) as [[y m] d]. intros Hc.
  repeat (apply elem_of_app in Hc as [Hc|Hc]; [try (apply digits_small in Hc; lia); try (apply list_elem_of_singleton in Hc; lia)|]).
  apply list_elem_of_singleton in Hc. lia.
Qed.

Lemma plain_string s : (forall c, c ∈ s -> 45 <= c <= 90 /\ c <> 92) -> _json_string s = [34] ++ s ++ [34].
Proof.
  intros Hs. unfold _json_string. f_equal. f_equal. induction s as [|c s IH]; [done|]. cbn [flat_map]. rewrite IH by (intros x Hx; apply Hs; by right).
  destruct (Hs c ltac:(by left)) as [Hc Hn]. unfold json_escape. by rewrite !(proj2 (Z.eqb_neq _ _)), (proj2 (Z.ltb_ge _ _)) by lia.
Qed.

Lemma plain_bytes s : (forall c, c ∈ s -> 45 <= c <= 90 /\ c <> 92) -> flat_map utf8_char s = s.
Proof.
  intros Hs. induction s as [|c s IH]; [done|]. cbn [flat_map]. rewrite IH by (intros x Hx; apply Hs; by right). destruct (Hs c ltac:(by left)) as [Hc _].
  unfold utf8_char. by rewrite (proj2 (Z.leb_le c _)) by lia.
Qed.

Lemma timestamp_bytes t : length (flat_map utf8_char (_json_string (isoformat_ms t))) = 26%nat.
Proof.
  rewrite plain_string by apply isoformat_ms_plain. rewrite !flat_map_app. rewrite (plain_bytes (isoformat_ms t)) by apply isoformat_ms_plain.
  rewrite !length_app, isoformat_ms_length. reflexivity.
Qed.

(** ** The payload of an applied override *)

Definition applied_payload (id : pystr) (projection : pyval) (at_ : pystr) : pyval :=
  obj [("schemaVersion", VStr (u "operator-override-audit/v1")); ("overrideId", VStr id); ("outcome", VStr (u "applied")); ("command", projection);
       ("appliedAt", VStr at_)]%string.

Lemma applied_entries t1 t2 t3 t4 t5 :
  sort_entries [(u "schemaVersion", t1); (u "overrideId", t2); (u "outcome", t3); (u "command", t4); (u "appliedAt", t5)] =
  [(u "appliedAt", t5); (u "command", t4); (u "outcome", t3); (u "overrideId", t2); (u "schemaVersion", t1)] :> list (pystr * pystr).
Proof. vm_compute. reflexivity. Qed.

(** The payload's text takes as many bytes at any time. *)
Lemma payload_text id projection : exists before after, forall at_, txt (applied_payload id projection at_) = before ++ _json_string at_ ++ after.
Proof.
  exists ([123] ++ _json_string (u "appliedAt") ++ [58]). eexists. intros at_. unfold applied_payload, obj. cbn [txt fmap list_fmap map key_text fst snd].
  rewrite applied_entries. cbn [map commas]. unfold entry_text at 1. cbn [fst snd app]. set (k := _json_string (u "appliedAt")). set (x := _json_string at_).
  f_equal. rewrite <- !(app_assoc k). cbn [app]. f_equal. f_equal. rewrite <- app_assoc. reflexivity.
Qed.

Lemma payload_length id projection t t' :
  length (flat_map utf8_char (txt (applied_payload id projection (isoformat_ms t)))) = length (flat_map utf8_char (txt (applied_payload id projection (isoformat_ms t')))).
Proof. destruct (payload_text id projection) as (b & a & E). rewrite !E, !flat_map_app, !length_app, !timestamp_bytes. reflexivity. Qed.

(** ** Preparing the event at another time *)

Section replay.
Context `{Sha256} `{OtherIsoTexts}.

#[local] Opaque int_str hash_mapping isoformat isoformat_ms.

Definition event_at (c : OverrideCommand) (id : pystr) (projection : pyval) (t : Z) : InputObject :=
  override_event (u "operator-override") c OPERATOR_OVERRIDE_APPLIED (isoformat_ms t) (applied_payload id projection (isoformat_ms t)).

Lemma scope_jsonable s : safe_id (scope_installation_id s) = true -> safe_id (scope_repository_id s) = true -> jsonable (scope_identity s) = true.
Proof.
  unfold safe_id, _safe_integer_max. intros H1 H2. apply jsonable_obj. cbn [forallb snd jsonable]. unfold is_safe_int, MAX_SAFE_JSON_INTEGER. lia.
Qed.

Lemma subject_scalar c s : command_shape c -> oc_subject_id c = Some s -> is_unicode_scalar_string s = true.
Proof.
  intros [_ _ _ Hk] Es. rewrite Es in Hk. destruct (oc_kind c), (oc_expires_at c); try done; [by apply bounded_scalar|].
  destruct (override_id_length s Hk) as [_ Hl]. by eapply utf8_length_scalar.
Qed.

Lemma command_jsonable c : command_ok c -> jsonable (_command_identity c) = true.
Proof.
  intros Hc. pose proof (command_ok_shape _ Hc) as Hs. destruct (safe_scope _ (ck_scope _ Hc)) as [S1 S2]. apply jsonable_obj. cbn [forallb snd jsonable].
  rewrite (scope_jsonable _ S1 S2), (bounded_scalar _ (cs_operation _ Hs)), (bounded_scalar _ (cs_actor _ Hs)), (bounded_scalar _ (cs_reason _ Hs)).
  rewrite (jsonable_opt_str (oc_subject_id c)) by (intros s Es; by eapply subject_scalar).
  rewrite (jsonable_opt_str (isoformat <$> oc_expires_at c)) by (intros s (e & _ & ->)%fmap_Some; apply isoformat_text). by destruct (oc_kind c).
Qed.

Lemma applied_total o : command_ok (av_command o) -> is_override_id (av_override_id o) = true -> exists e, OverrideAuditEvent_applied o = Ok e.
Proof.
  intros Hc Hi. destruct (override_id_length _ Hi) as [_ Hl]. apply utf8_length_scalar in Hl.
  destruct (hash_mapping_total (obj [("command", _command_identity (av_command o)); ("outcome", VStr (audit_outcome_str applied_outcome));
    ("occurredAt", VStr (isoformat (av_applied_at o))); ("overrideId", opt_str (Some (av_override_id o)))]%string)) as (h & Eh & _).
  { apply jsonable_obj. cbn [forallb snd opt_str jsonable]. rewrite (command_jsonable _ Hc), (proj1 (isoformat_text (av_applied_at o))), Hl. reflexivity. }
  eexists. unfold OverrideAuditEvent_applied, OverrideAuditEvent_from_command. apply bind_Ok. exists (av_applied_at o). split; [reflexivity|].
  apply bind_Ok. exists h. split; [exact Eh|reflexivity].
Qed.

Lemma projection_jsonable c v : command_ok c -> _audit_command_projection c = Ok v -> jsonable v = true.
Proof.
  intros Hc E. pose proof (command_ok_shape _ Hc) as Hs. destruct (safe_scope _ (ck_scope _ Hc)) as [S1 S2]. unfold _audit_command_projection in E.
  apply bind_Ok in E as (x & Ex & [= <-]). apply jsonable_obj. cbn [forallb snd jsonable].
  rewrite (scope_jsonable _ S1 S2), (bounded_scalar _ (cs_operation _ Hs)), (bounded_scalar _ (cs_actor _ Hs)), (bounded_scalar _ (cs_reason _ Hs)).
  rewrite (jsonable_opt_str (oc_subject_id c)) by (intros s Es; by eapply subject_scalar).
  rewrite (jsonable_opt_str x); [by destruct (oc_kind c)|]. intros s ->. destruct (oc_expires_at c) as [e|]; [|done].
  apply fmap_Ok in Ex as (y & Ey & [= ->]). unfold _audit_timestamp in Ey. apply bind_Ok in Ey as (z & _ & [= <-]). apply isoformat_scalar.
Qed.

(** An input that passes the checks is prepared. *)
Lemma prepare_checked i b : validate_audit_event_input i = None -> admit_audit_text_bytes i = Ok tt -> input_like_ok (InputExact i) ->
  canonical_audit_payload_bytes (io_payload i) (u "payload") = Ok b -> exists p, prepare_audit_event (InputExact i) = Ok p.
Proof.
  intros Hv Ha [Hw Ht] Eb. pose proof Eb as [Ej _]%payload_bytes_Ok. destruct (written_reads _ _ _ Hw Ej) as [Er _].
  destruct (validated_input_typed _ Hv) as (e & ->). destruct (input_hash_total e (sha256_hex b)) as (h & Eh & _); [by apply validated_input_facts|apply sha256_is_hex|].
  eexists. unfold prepare_audit_event. apply bind_Ok. exists (input_object e). split; [cbn [_snapshot_audit_event_input_fields]; rewrite Hv; reflexivity|].
  apply bind_Ok. exists tt. split; [exact Ha|]. apply bind_Ok. exists b. split; [exact Eb|]. apply bind_Ok. eexists. split; [exact Er|]. cbv zeta.
  apply bind_Ok. exists e. split; [apply typed_input_object|]. apply bind_Ok. exists h. split; [exact Eh|reflexivity].
Qed.

Lemma validated_again c id projection t t' : in_calendar t' ->
  validate_audit_event_input (event_at c id projection t) = None -> validate_audit_event_input (event_at c id projection t') = None.
Proof.
  intros Ht Hv. unfold validate_audit_event_input, event_at, override_event in *.
  cbn [io_idempotency_key io_subject_type io_subject_id io_event_type io_created_at io_actor io_installation_id io_repository_id] in *.
  rewrite (timestamp_valid t' Ht). destruct (_is_iso_timestamp (VStr (isoformat_ms t))); [exact Hv|]. exfalso. clear -Hv.
  destruct (_validate_audit_text (VStr (_scope_operation_key _ c)) _); [discriminate Hv|]. destruct (is_audit_subject_type _); [|discriminate Hv].
  destruct (_validate_audit_text (VStr (override_audit_subject_id _)) _); [discriminate Hv|].
  destruct (_validate_audit_text (VStr OPERATOR_OVERRIDE_APPLIED) _); discriminate Hv.
Qed.

Lemma payload_depth id projection at_ at' :
  json_depth (fresh 0 (applied_payload id projection at_)) = json_depth (fresh 0 (applied_payload id projection at')).
Proof. unfold applied_payload, obj. cbn [fresh fmap list_fmap map fst snd json_depth]. reflexivity. Qed.

Lemma payload_nodes id projection at_ at' :
  json_nodes (fresh 0 (applied_payload id projection at_)) = json_nodes (fresh 0 (applied_payload id projection at')).
Proof. unfold applied_payload, obj. cbn [fresh fmap list_fmap map fst snd json_nodes]. reflexivity. Qed.

Lemma payload_again id projection t t' b : is_unicode_scalar_string id = true -> jsonable projection = true ->
  canonical_audit_payload_bytes (fresh 0 (applied_payload id projection (isoformat_ms t))) (u "payload") = Ok b ->
  exists b', canonical_audit_payload_bytes (fresh 0 (applied_payload id projection (isoformat_ms t'))) (u "payload") = Ok b'.
Proof.
  intros Hid Hj [Eb Hl]%payload_bytes_Ok. apply canonical_json_resource_law in Eb as (Eb & Hd & Hn).
  apply canonical_json_facts in Eb as (_ & -> & _). rewrite (proj1 (fresh_facts 0 _)), (payload_length id projection t t') in Hl.
  rewrite (payload_depth _ _ _ (isoformat_ms t')) in Hd. rewrite (payload_nodes _ _ _ (isoformat_ms t')) in Hn.
  eexists. apply payload_bytes_Ok. split; [|exact Hl]. apply canonical_json_resource_law. split; [|exact (conj Hd Hn)]. apply fresh_written. apply jsonable_obj.
  cbn [forallb snd jsonable]. rewrite Hid, Hj, isoformat_scalar, !scalar_u. reflexivity.
Qed.

(** What is prepared at one time is prepared at any time of the calendar. *)
Lemma event_prepared_again c id projection t t' p : command_shape c -> is_unicode_scalar_string id = true -> jsonable projection = true -> well_formed projection ->
  in_calendar t' -> prepare_audit_event (InputExact (event_at c id projection t)) = Ok p -> exists p', prepare_audit_event (InputExact (event_at c id projection t')) = Ok p'.
Proof.
  intros Hc Hid Hj Hw Ht E. unfold prepare_audit_event in E. apply bind_Ok in E as (o & Eo & E).
  apply bind_Ok in Eo as ([] & Hv%raise_message_Ok & [= <-]). apply bind_Ok in E as ([] & Ha & E). apply bind_Ok in E as (b & Eb & _).
  destruct (payload_again id projection t t' b Hid Hj Eb) as (b' & Eb'). apply (prepare_checked _ b'); [by eapply validated_again|exact Ha| |exact Eb'].
  apply override_event_ok; [exact Hc|apply scalar_u|apply scalar_u|]. apply obj_wf; [|reflexivity].
  repeat (constructor; [cbn [snd]; try exact I; auto|]). constructor.
Qed.

(** ** An override that is stored *)

(** The override and its event can be written at a time. *)
Definition preparable (c : OverrideCommand) (m : moment) : Prop :=
  exists o e p, ActiveOverride_create c (IsoAware m) = Ok o /\ OverrideAuditEvent_applied o = Ok e /\ _prepare_applied_event o e = Ok p.

Lemma timestamp_Ok m a : _audit_timestamp m = Ok a <-> in_calendar (instant m) /\ a = isoformat_ms (instant m).
Proof.
  unfold _audit_timestamp, astimezone_utc, in_calendar. rewrite <- !Z.leb_le. destruct (DATETIME_MIN <=? instant m), (instant m <=? DATETIME_MAX); cbn; naive_solver.
Qed.

Lemma applied_event_Ok o m i : applied_event o m = Ok i <-> in_calendar (instant m) /\ in_calendar (instant (av_applied_at o)) /\
  exists projection, _audit_command_projection (av_command o) = Ok projection /\
    i = override_event (u "operator-override") (av_command o) OPERATOR_OVERRIDE_APPLIED (isoformat_ms (instant m))
          (applied_payload (av_override_id o) projection (isoformat_ms (instant (av_applied_at o)))).
Proof.
  unfold applied_event. split.
  - intros (x & [Hx ->]%timestamp_Ok & (v & Ev & (y & [Hy ->]%timestamp_Ok & [= <-])%bind_Ok)%bind_Ok)%bind_Ok. split; [exact Hx|]. split; [exact Hy|]. exists v. exact (conj Ev eq_refl).
  - intros (Hx & Hy & v & Ev & ->). apply bind_Ok. exists (isoformat_ms (instant m)). split; [by apply timestamp_Ok|]. apply bind_Ok. exists v. split; [exact Ev|].
    apply bind_Ok. exists (isoformat_ms (instant (av_applied_at o))). split; [by apply timestamp_Ok|reflexivity].
Qed.

(** An override that is stored can be written again until its command expires. *)
Lemma stored_preparable o ev m : override_ok o -> audited (o, ev) -> expired_at (av_command o) m = false -> in_calendar (instant m) ->
  preparable (av_command o) m.
Proof.
  intros Ho (i & q & Ei & Eq & _) Hx Hm. cbn [fst] in Ei. pose proof (vo_command _ Ho) as Hc. pose proof (command_ok_shape _ Hc) as Hs.
  destruct (created_override _ _ _ (vo_created _ Ho)) as (_ & _ & _ & Hid & h & Eh & Eid).
  apply applied_event_Ok in Ei as (Ht & _ & v & Ev & ->). set (o' := {| av_override_id := av_override_id o; av_command := av_command o; av_applied_at := m |}).
  assert (Ec : ActiveOverride_create (av_command o) (IsoAware m) = Ok o').
  { unfold ActiveOverride_create. apply bind_Ok. exists m. split; [reflexivity|]. apply bind_Ok. exists tt. split; [by apply raise_if_Ok|].
    apply bind_Ok. exists h. split; [exact Eh|]. unfold o'. by rewrite Eid. }
  destruct (applied_total o' Hc Hid) as (e & Ee). destruct (override_id_length _ Hid) as [_ Hl]. apply utf8_length_scalar in Hl.
  destruct (event_prepared_again (av_command o) (av_override_id o) v (instant (av_applied_at o)) (instant m) q Hs Hl
    (projection_jsonable _ _ Hc Ev) (command_projection_wf _ _ Ev) Hm Eq) as (p & Ep).
  exists o', e, p. split; [exact Ec|]. split; [exact Ee|].
  assert (He : oe_command e = av_command o /\ oe_occurred_at e = m).
  { unfold OverrideAuditEvent_applied, OverrideAuditEvent_from_command in Ee. apply bind_Ok in Ee as (m' & [= <-] & Ee). apply bind_Ok in Ee as (h' & _ & [= <-]). split; reflexivity. }
  destruct He as [He1 He2]. unfold _prepare_applied_event. apply bind_Ok. exists tt. split; [rewrite He1; cbn [av_command o']; by rewrite command_eqb_refl|].
  apply bind_Ok. exists e. split; [exact Ee|]. apply bind_Ok. exists tt. split; [by rewrite event_eqb_refl|].
  apply bind_Ok. eexists. split; [apply applied_event_Ok; rewrite He2; split; [exact Hm|]; split; [exact Hm|]; exists v; split; [exact Ev|reflexivity]|exact Ep].
Qed.
End replay.
