(* ===== verification/OverrideUse.v ===== *)
(** * What applying an override does

    Executions of the use case, with other transactions before each of its own
    and faults of the database in each, those of any environment: what an answer
    says of the stored overrides and of the ledger, that an operation takes
    effect once, and that break-glass actors only add checks. *)

From stdpp Require Import base gmap sets list sorting strings relations.
From Stdlib Require Import ZArith Lia.
From S2P Require Import Prelude Text PyFloat CanonicalJson Hashing JsonLoads JsonRoundtrip ConfigControl Instants AuditEvents AuditChain AuditFacts AuditChainFacts AuditLedger AuditRepository AuditRepositoryFacts AuditStore TableFacts Reconciliation IsoTime OverrideControls CanonicalRows OverrideStore OverrideRows OverrideFacts OverrideSteps OverrideManagement OverrideHistory OverrideResolution OverrideReplay.

Section use.
Context `{Sha256} `{OtherIsoTexts} (authorizer : ControlPlaneScopeAuthorizer) (env : environment).
Abbreviation stored := (ActiveOverride * AuditEventRecord)%type.

(** ** Refusals *)

Definition REJECTION : pystr := u "operator-override-rejection".

(** The event of a refusal, as it is prepared. *)
Definition prepared_rejection (c : OverrideCommand) (code : OverrideAuditOutcome) (m : moment) : res PreparedAuditEvent :=
  event ← OverrideAuditEvent_rejected c code (IsoAware m); _prepare_rejection_event event.

Lemma rejected_event c code m ev : OverrideAuditEvent_rejected c code (IsoAware m) = Ok ev -> oe_command ev = c /\ oe_outcome ev = code /\ oe_occurred_at ev = m.
Proof.
  intros E. unfold OverrideAuditEvent_rejected, OverrideAuditEvent_from_command in E. cbn [require_aware mbind res_bind] in E. apply bind_Ok in E as (h & _ & E).
  injection E as <-. split; [reflexivity|split; reflexivity].
Qed.

Lemma rejection_event_ok ev i : command_shape (oe_command ev) -> rejection_event ev = Ok i ->
  input_like_ok (InputExact i) /\ io_idempotency_key i = VStr (_scope_operation_key REJECTION (oe_command ev)) /\
  io_event_type i = VStr (u "operator_override_rejected").
Proof.
  intros Hc. unfold rejection_event. intros (a & _ & (pr & Hpr%command_projection_wf & E)%bind_Ok)%bind_Ok. injection E as <-.
  split; [|split; reflexivity]. apply override_event_ok; [exact Hc|reflexivity..|]. apply obj_wf; [|reflexivity].
  repeat (constructor; [cbn [snd]; try exact I; auto|]). constructor.
Qed.

Lemma rejection_input ev p : _prepare_rejection_event ev = Ok p -> exists i, rejection_event ev = Ok i /\ prepare_audit_event (InputExact i) = Ok p.
Proof.
  unfold _prepare_rejection_event. intros (x & _ & ([] & _ & (i & Ei & E)%bind_Ok)%bind_Ok)%bind_Ok. exists i. exact (conj Ei E).
Qed.

#[local] Opaque int_str hash_mapping isoformat isoformat_ms applied_event rejection_event prepare_audit_event _prepare_applied_event _prepare_rejection_event OverrideAuditEvent_applied OverrideAuditEvent_rejected ActiveOverride_create decode_operator_override_row _override_to_row.

Lemma rejection_prepared c code m ev p : command_shape c -> OverrideAuditEvent_rejected c code (IsoAware m) = Ok ev -> _prepare_rejection_event ev = Ok p ->
  prepared_rejection c code m = Ok p /\ exists i, prepared_from i p /\
    ei_event_type (pr_input p) = u "operator_override_rejected" /\ ei_idempotency_key (pr_input p) = _scope_operation_key REJECTION c.
Proof.
  intros Hc Ee Ep. split; [unfold prepared_rejection; rewrite Ee; exact Ep|]. destruct (rejected_event _ _ _ _ Ee) as (Hec & _ & _). clear Ee.
  destruct (rejection_input _ _ Ep) as (i & Ei & Ep'). rewrite <- Hec in Hc. destruct (rejection_event_ok _ _ Hc Ei) as (Hi & Ek & Et).
  exists (InputExact i). split; [exact (conj Hi Ep')|]. destruct (prepared_input _ _ i eq_refl Ep') as (Pk & Pt & _).
  rewrite Ek in Pk. rewrite Et in Pt. rewrite <- Hec. injection Pk as Pk. injection Pt as Pt. exact (conj Pt Pk).
Qed.

(** ** Requests *)

(** The rows that were added belong to what was stored. *)
Lemma new_rows_stored t rs st t' rs' new : overrides_hold t rs st -> overrides_hold t' rs' (st ++ new) ->
  Forall2 (fun row p => row_of p.1 p.2 row) (new_rows t t') new.
Proof.
  intros H1 H2. unfold new_rows. rewrite (Forall2_length _ _ _ (oh_rows _ _ _ H1)).
  rewrite <- (drop_app_length st new). apply Forall2_drop, H2.
Qed.

Lemma new_rows_same t : new_rows t t = [].
Proof. apply drop_all. Qed.

Lemma transaction_cases {A} t (body : res (A * override_tables)) commits refused f r t' :
  override_transaction t body commits refused f = (r, t') ->
  (t' = t /\ (r = Ok refused \/ exists e, r = Raise e)) \/
  exists a t2, body = Ok (a, t2) /\ t' = (if commits a then t2 else t) /\ (r = Ok a \/ r = Ok refused).
Proof.
  assert (Hraise : forall e, (if answered e then Ok refused else Raise e) = r -> r = Ok refused \/ exists e, r = Raise e).
  { intros e <-. destruct (answered e); [by left|right; by exists e]. }
  assert (Hrun : forall a t2 x, body = Ok (a, t2) -> x = r -> (if commits a then t2 else t) = t' -> x = Ok a \/ x = Ok refused ->
    exists a t2, body = Ok (a, t2) /\ t' = (if commits a then t2 else t) /\ (r = Ok a \/ r = Ok refused)).
  { intros a t2 x -> -> <- Hx. by exists a, t2. }
  unfold override_transaction. intros E. destruct f, body as [[a t2]|e]; injection E as Er Et;
    solve [left; split; [by symmetry|]; first [left; by symmetry | eapply Hraise; exact Er]
          | right; eapply Hrun; [reflexivity|exact Er|exact Et|]; first [by left | by right]].
Qed.

(** What is said of an operation that is stored. *)
Definition replayed (q : stored) (c : OverrideCommand) : OverrideStoreResult :=
  if command_eqb (av_command q.1) c then OverrideDuplicate q.1 else OverrideConflict.

(** The outcomes of storing an override that was created from its command. *)
Lemma apply_cases t rs st o e f r t' :
  overrides_hold t rs st -> override_ok o -> OverrideAuditEvent_applied o = Ok e -> durable_apply t o e f = (r, t') ->
  (t' = t /\ (r = Ok OverrideUnavailable \/ exists x, r = Raise x)) \/
  (t' = t /\ r = Ok match find_operation st (av_command o) with Some q => replayed q (av_command o) | None => OverrideConflict end /\
   (find_operation st (av_command o) = None -> transition_allowed t st o = false)) \/
  (find_operation st (av_command o) = None /\ transition_allowed t st o = true /\ _lock_operation (av_command o) = Ok tt /\ (r = Ok (OverrideApplied o) \/ r = Ok OverrideUnavailable) /\
   exists ev, overrides_hold t' (rs ++ [ev]) (st ++ [(o, ev)])).
Proof.
  intros Ht Ho Ee E. unfold durable_apply, before_transaction in E. destruct (_prepare_applied_event o e) as [p|x] eqn:Ep.
  2: { injection E as <- <-. left. split; [reflexivity|]. clear Ep Ee. destruct (answered x); [left; reflexivity|right; exists x; reflexivity]. }
  apply transaction_cases in E as [[-> Hr]|(a & t2 & Ea & -> & Hr)]; [left; exact (conj eq_refl Hr)|].
  pose proof (apply_step _ _ _ _ _ _ _ _ Ht Ho Ee Ep Ea) as Hs. clear Ea Ep. destruct (find_operation st (av_command o)) as [q|] eqn:Ef.
  - destruct Hs as [-> ->]. unfold replayed. destruct Hr as [-> | ->]; [right; left|left].
    + split; [by destruct (command_eqb _ _)|]. by split.
    + split; [by destruct (command_eqb _ _)|by left].
  - destruct (transition_allowed t st o) eqn:Etr.
    + destruct Hs as (-> & _ & _ & Hl & ev & Hh). right. right. split; [reflexivity|]. split; [reflexivity|]. split; [exact Hl|]. split; [exact Hr|]. by exists ev.
    + destruct Hs as [-> ->]. destruct Hr as [-> | ->]; [right; left|left]; split; auto.
Qed.

Lemma resolve_cases t rs st c f r t' : overrides_hold t rs st -> durable_resolve_operation t c f = (r, t') ->
  t' = t /\ (r = Ok (Some OverrideUnavailable) \/ (exists x, r = Raise x) \/ r = Ok ((fun q => replayed q c) <$> find_operation st c)).
Proof.
  intros Ht E. apply transaction_cases in E as [[-> [-> |Hr]]|(a & t2 & Ea & -> & Hr)]; [by split; [|left]|by split; [|right; left]|].
  apply fmap_Ok in Ea as (b & Eb & [= -> ->]). split; [done|]. unfold resolve_operation in Eb. apply override_guard_Ok in Eb.
  apply bind_Ok in Eb as ([] & _ & Eb). apply bind_Ok in Eb as ([] & _ & Eb). rewrite (override_loaded t rs st Ht) in Eb. injection Eb as <-.
  destruct Hr as [-> | ->]; [right; right|by left]. f_equal. by destruct (find_operation st c).
Qed.

(** The ledger holds the event of a refusal. *)
Definition rejection_stored (rs : list AuditEventRecord) (c : OverrideCommand) (code : OverrideAuditOutcome) (m : moment) : Prop :=
  exists p e, prepared_rejection c code m = Ok p /\ e ∈ rs /\ idempotency_key e = _scope_operation_key REJECTION c /\ input_hash e = pr_input_hash p.

Lemma rejection_cases t rs st c code m ev f r t' :
  overrides_hold t rs st -> command_shape c -> OverrideAuditEvent_rejected c code (IsoAware m) = Ok ev -> durable_record_rejection t ev f = (r, t') ->
  exists rs', overrides_hold t' (rs ++ rs') st /\
    ((exists x, r = Raise x) \/ r = Ok false \/ (r = Ok true /\ rejection_stored (rs ++ rs') c code m)).
Proof.
  intros Ht Hc Ee E. assert (Hsame : forall x, x = r -> ((exists e, r = Raise e) \/ r = Ok false) -> t' = t -> exists rs', overrides_hold t' (rs ++ rs') st /\
    ((exists x, r = Raise x) \/ r = Ok false \/ (r = Ok true /\ rejection_stored (rs ++ rs') c code m))).
  { intros x _ Hr ->. exists []. rewrite app_nil_r. split; [exact Ht|]. destruct Hr; auto. }
  unfold durable_record_rejection, before_transaction in E. destruct (_prepare_rejection_event ev) as [p|x] eqn:Ep.
  2: { injection E as <- <-. eapply Hsame; [reflexivity| |reflexivity]. destruct (answered x); eauto. }
  destruct (rejection_prepared _ _ _ _ _ Hc Ee Ep) as (Epr & i & Hp & Hty & Hk).
  apply transaction_cases in E as [[-> Hr]|(a & t2 & Ea & -> & Hr)]; [eapply Hsame; [reflexivity| |reflexivity]; destruct Hr; auto|].
  apply fmap_Ok in Ea as ([x l] & Ea & [= -> ->]). cbn [fst snd] in *. unfold repository_append in Ea. clear Ee Ep.
  destruct (_is_pair_owned_audit_event_type _); [discriminate Ea|].
  apply store_guard_Ok in Ea. apply bind_Ok in Ea as (scope & _ & Ea).
  destruct (event_step t rs st i p scope x l Ht Hp) as (rs' & Hh & Hx); [rewrite Hty; discriminate|rewrite Hk; reflexivity|exact Ea|].
  destruct x as [e|e|e ? ?]; cbn [id] in *; [exists rs'; split; [exact Hh|]; destruct Hx as [-> Hin]| |].
  - destruct Hr as [-> | ->]; [right; right|right; left; reflexivity]. split; [reflexivity|]. exists p, e.
    destruct (appended_facts _ _ _ _ _ _ _ (oh_ledger _ _ _ Ht) Hp Ea) as (_ & _ & Hh2). split; [exact Epr|]. split; [apply elem_of_app; right; left|].
    split; [|exact Hh2]. rewrite <- Hk, <- Hin. reflexivity.
  - exists rs'. split; [exact Hh|]. destruct Hr as [-> | ->]; [right; right|right; left; reflexivity]. split; [reflexivity|]. subst rs'. rewrite app_nil_r.
    destruct (existing_facts _ _ _ _ _ _ _ (oh_ledger _ _ _ Ht) Ea eq_refl) as (_ & Hin & Hk2). exists p, e. split; [exact Epr|]. split; [exact Hin|].
    split; [rewrite Hk2; exact Hk|]. eapply duplicate_hash; [apply Ht|exact Hp|exact Ea].
  - eapply Hsame; [reflexivity| |reflexivity]. right. destruct Hr; assumption.
Qed.

(** ** Executions of the use case *)

(** Why a control is refused: it does not follow the latest one of its scope,
    or a cutover latched the scope. *)
Definition control_refused (t : override_tables) (st : list stored) (c : OverrideCommand) (m : moment) : Prop :=
  match oc_kind c with
  | force_full_ci_kind => False
  | disable_omission => exists l, last_of (oc_scope c) st = Some l /\ (oc_kind (av_command l) = disable_omission \/ instant m < instant (av_applied_at l))
  | enable_omission =>
      cutover_latch t (oc_scope c) <> None \/
      match last_of (oc_scope c) st with
      | None => True
      | Some l => oc_kind (av_command l) = enable_omission \/ Some (av_override_id l) <> oc_subject_id c \/ instant m < instant (av_applied_at l)
      end
  end.

Lemma last_control_kind s st l : last_of s st = Some l -> oc_kind (av_command l) <> force_full_ci_kind.
Proof.
  unfold last_of. intros (p & Hl & ->)%fmap_Some. apply last_Some in Hl as (k & Ek).
  assert (Hp : p ∈ controls_of s st) by (rewrite Ek; apply elem_of_app; right; apply list_elem_of_here).
  apply elem_of_filter_bool in Hp as [_ Hp]. unfold control_of in Hp. apply andb_true_iff' in Hp as [_ Hp%negb_true_iff]. by apply bool_decide_eq_false in Hp.
Qed.

Lemma transition_refused t st o : transition_allowed t st o = false <-> control_refused t st (av_command o) (av_applied_at o).
Proof.
  unfold transition_allowed, control_refused. pose proof (last_control_kind (oc_scope (av_command o)) st) as Hk.
  destruct (oc_kind (av_command o)); [done|..]; destruct (last_of _ st) as [l|]; [specialize (Hk l eq_refl)| |specialize (Hk l eq_refl)|].
  - rewrite andb_false_iff, Z.leb_gt, bool_decide_eq_false. split.
    + intros [Hi|He]; exists l; (split; [reflexivity|]); [by right|left]. by destruct (oc_kind (av_command l)).
    + intros (l' & [= <-] & [Hd|Hi]); [right|by left]. rewrite Hd. discriminate.
  - split; [discriminate|]. by intros (l & ? & _).
  - rewrite !andb_false_iff, Z.leb_gt, !bool_decide_eq_false. destruct (oc_kind (av_command l)); [done|..]; intuition congruence.
  - rewrite andb_false_r. split; [intros _; by right|done].
Qed.

Lemma meanwhile_hold t rs st t' : overrides_hold t rs st -> meanwhile env t t' ->
  exists rs' new, overrides_hold t' (rs ++ rs') (st ++ new) /\ ot_attested t' = ot_attested t.
Proof. intros Ht R. eapply others_hold; [exact Ht|]. exact (meanwhile_others _ _ _ R). Qed.

Lemma find_kept st new c q : find_operation st c = Some q -> find_operation (st ++ new) c = Some q.
Proof. unfold find_operation. intros Hf. induction st as [|x st IH]; [done|]. cbn [app List.find] in *. destruct (with_operation c x); [done|by apply IH]. Qed.

Lemma rejection_kept rs new c code m : rejection_stored rs c code m -> rejection_stored (rs ++ new) c code m.
Proof. intros (p & e & Hp & Hin & Hk). exists p, e. split; [exact Hp|]. split; [apply elem_of_app; left; exact Hin|exact Hk]. Qed.

Definition is_allowed (c : OverrideCommand) : res bool := allows authorizer (oc_actor c) (oc_kind c) (oc_scope c).

(** A control was refused by tables that an execution met. *)
Definition refused_by (t0 : override_tables) (met : list stored) (c : OverrideCommand) (m : moment) : Prop :=
  exists t rs, meanwhile env t0 t /\ overrides_hold t rs met /\ control_refused t met c m.

(** The ways an execution for a command goes: the tables it began with, the
    overrides its own transaction met, the ledger and the overrides in the end,
    its own rows and its answer. *)
Inductive override_run (t0 : override_tables) (c : OverrideCommand) (m : moment) (met : list stored) (rs : list AuditEventRecord) (st : list stored)
    : list override_row -> res OverrideResult -> Prop :=
  | run_undecided out : out = Ok (Stored OverrideUnavailable) \/ (exists e, out = Raise e) -> override_run t0 c m met rs st [] out
  | run_repeated q : is_allowed c = Ok true -> find_operation met c = Some q -> override_run t0 c m met rs st [] (Ok (Stored (replayed q c)))
  | run_refused : is_allowed c = Ok true -> expired_at c m = false -> find_operation met c = None -> refused_by t0 met c m ->
      override_run t0 c m met rs st [] (Ok (Stored OverrideConflict))
  | run_stored o ev row out : is_allowed c = Ok true -> expired_at c m = false -> find_operation met c = None ->
      av_command o = c -> av_applied_at o = m -> _lock_operation c = Ok tt -> row_of o ev row -> met ++ [(o, ev)] `prefix_of` st ->
      out = OverrideApplied o \/ out = OverrideUnavailable -> override_run t0 c m met rs st [row] (Ok (Stored out))
  | run_rejected code : rejection_stored rs c code m ->
      (code = unauthorized_outcome /\ is_allowed c = Ok false) \/
      (code = expired_outcome /\ is_allowed c = Ok true /\ expired_at c m = true /\ find_operation met c = None) ->
      override_run t0 c m met rs st [] (Ok (OverrideRejected code)).

(** The end of an execution: the invariant, with what was stored before. *)
Definition override_ends (t0 : override_tables) (c : OverrideCommand) (m : moment) (st : list stored) (rs : list AuditEventRecord) (own : list override_row)
    (t' : override_tables) (out : res OverrideResult) : Prop :=
  exists met rs' new, st `prefix_of` met /\ met `prefix_of` st ++ new /\ overrides_hold t' (rs ++ rs') (st ++ new) /\ override_run t0 c m met (rs ++ rs') (st ++ new) own out.

Lemma run_kept t0 c m met rs st rs' new own out : override_run t0 c m met rs st own out -> override_run t0 c m met (rs ++ rs') (st ++ new) own out.
Proof.
  intros R. destruct R; [by constructor|by apply run_repeated|by apply run_refused| |by constructor; [apply rejection_kept|]].
  eapply run_stored; try eassumption. by apply prefix_app_r.
Qed.

(** An execution that has its answer. *)
Lemma ends_done t0 c m st0 rs0 met rs st t own t' out :
  overrides_hold t rs st -> st0 `prefix_of` met -> met `prefix_of` st -> rs0 `prefix_of` rs -> override_run t0 c m met rs st own out -> meanwhile env t t' ->
  override_ends t0 c m st0 rs0 own t' out.
Proof.
  intros Ht [n0 P] [n1 P1] [r0 P2] R O. destruct (meanwhile_hold _ _ _ _ Ht O) as (rs' & new & H' & _). subst met st rs.
  exists (st0 ++ n0), (r0 ++ rs'), (n0 ++ n1 ++ new). pose proof (run_kept _ _ _ _ _ _ rs' new _ _ R) as R'.
  replace ((st0 ++ n0) ++ n1) with (st0 ++ n0 ++ n1) in * by by rewrite app_assoc.
  replace ((rs0 ++ r0) ++ rs') with (rs0 ++ r0 ++ rs') in * by by rewrite app_assoc.
  replace ((st0 ++ n0 ++ n1) ++ new) with (st0 ++ n0 ++ n1 ++ new) in * by by rewrite !app_assoc.
  split; [by exists n0|]. split; [exists (n1 ++ new); by rewrite app_assoc|]. exact (conj H' R').
Qed.

Lemma ends_undecided t0 c m st0 rs0 rs st t t' own out :
  overrides_hold t rs st -> st0 `prefix_of` st -> rs0 `prefix_of` rs -> out = Ok (Stored OverrideUnavailable) \/ (exists e, out = Raise e) ->
  own = [] -> meanwhile env t t' -> override_ends t0 c m st0 rs0 own t' out.
Proof. intros Ht P P2 Hout -> O. eapply (ends_done _ _ _ _ _ st); [exact Ht|exact P|done|exact P2|by constructor|exact O]. Qed.

Lemma new_rows_held t rs st t' rs' : overrides_hold t rs st -> overrides_hold t' rs' st -> new_rows t t' = [].
Proof.
  intros H1 H2. unfold new_rows. rewrite (Forall2_length _ _ _ (oh_rows _ _ _ H1)), <- (Forall2_length _ _ _ (oh_rows _ _ _ H2)). apply drop_all.
Qed.

Lemma rejection_ends t0 c m code t rs st met st0 rs0 own t' out (why : (code = unauthorized_outcome /\ is_allowed c = Ok false) \/
      (code = expired_outcome /\ is_allowed c = Ok true /\ expired_at c m = true /\ find_operation met c = None)) :
  overrides_hold t rs st -> st0 `prefix_of` met -> met `prefix_of` st -> rs0 `prefix_of` rs -> command_shape c ->
  executes authorizer env (_record_rejection c code (IsoAware m)) t own t' out -> override_ends t0 c m st0 rs0 own t' out.
Proof.
  intros Ht P Pm P2 Hc E. unfold _record_rejection, pure, request in E. cbn [mbind override_prog_bind prog_then] in E.
  assert (Pst : st0 `prefix_of` st) by by trans met.
  destruct (OverrideAuditEvent_rejected c code (IsoAware m)) as [ev|x] eqn:Ee.
  2: { cbn [executes] in E. destruct E as (O & -> & ->). clear Ee. eapply ends_undecided; [exact Ht|exact Pst|exact P2| |reflexivity|exact O]. right. by exists x. }
  cbn [prog_then executes] in E. destruct E as (t1 & r & t2 & own2 & O & (f & _ & Ef) & E & ->).
  destruct (meanwhile_hold _ _ _ _ Ht O) as (rs1 & n1 & H1 & _). destruct (rejection_cases _ _ _ _ _ _ _ _ _ _ H1 Hc Ee Ef) as (rs2 & H2 & Hr). clear Ef Ee.
  rewrite (new_rows_held _ _ _ _ _ H1 H2). cbn [app].
  assert (Pr : rs0 `prefix_of` (rs ++ rs1) ++ rs2) by (rewrite <- app_assoc; by apply prefix_app_r).
  assert (Pn : st0 `prefix_of` st ++ n1) by by apply prefix_app_r.
  destruct Hr as [[x ->]|[-> |[-> Hs]]]; cbn [mret override_prog_ret executes] in E; destruct E as (O2 & -> & ->).
  - eapply ends_undecided; [exact H2|exact Pn|exact Pr| |reflexivity|exact O2]. right. by exists x.
  - eapply ends_undecided; [exact H2|exact Pn|exact Pr| |reflexivity|exact O2]. by left.
  - eapply (ends_done _ _ _ _ _ met); [exact H2|exact P|by apply prefix_app_r|exact Pr|constructor; [exact Hs|exact why]|exact O2].
Qed.

Lemma apply_ends t0 c m t rs st st0 rs0 o e own t' out : is_allowed c = Ok true -> expired_at c m = false -> av_command o = c -> av_applied_at o = m ->
  override_ok o -> OverrideAuditEvent_applied o = Ok e -> meanwhile env t0 t -> overrides_hold t rs st -> st0 `prefix_of` st -> rs0 `prefix_of` rs ->
  executes authorizer env (Request (ApplyOverride o e) (fun r => match r with Ok r => Done (Ok (Stored r)) | Raise e => Done (Raise e) end)) t own t' out ->
  override_ends t0 c m st0 rs0 own t' out.
Proof.
  intros Ha Hx Hc Hm Ho Ee R0 Ht P P2 E. cbn [executes] in E. destruct E as (t1 & r & t2 & own2 & O & (f & _ & Ef) & E & ->).
  destruct (meanwhile_hold _ _ _ _ Ht O) as (rs1 & n1 & H1 & _). pose proof (apply_cases _ _ _ _ _ _ _ _ H1 Ho Ee Ef) as Hr. clear Ef Ee.
  assert (Pr : rs0 `prefix_of` rs ++ rs1) by by apply prefix_app_r. assert (Pn : st0 `prefix_of` st ++ n1) by by apply prefix_app_r.
  rewrite Hc in Hr.
  destruct Hr as [[-> Hr]|[(-> & -> & Hn)|(Hn & Htr & Hlk & Hr & ev & H2)]].
  - rewrite new_rows_same. destruct Hr as [-> |[x ->]]; destruct E as (O2 & -> & ->); (eapply ends_undecided; [exact H1|exact Pn|exact Pr| |reflexivity|exact O2]); [by left|right; by exists x].
  - rewrite new_rows_same. destruct E as (O2 & -> & ->). eapply (ends_done _ _ _ _ _ (st ++ n1)); [exact H1|exact Pn|done|exact Pr| |exact O2].
    destruct (find_operation (st ++ n1) c) as [q|] eqn:Eq; [by apply run_repeated|apply run_refused; [exact Ha|exact Hx|exact Eq|]].
    specialize (Hn eq_refl). apply transition_refused in Hn. rewrite Hc, Hm in Hn. exists t1, (rs ++ rs1).
    split; [unfold meanwhile in *; by transitivity t|]. exact (conj H1 Hn).
  - pose proof (new_rows_stored _ _ _ _ _ _ H1 H2) as Hw. apply Forall2_cons_inv_r in Hw as (row & l & Hrow & Hl & ->). apply Forall2_nil_inv_r in Hl as ->. cbn [fst snd] in Hrow.
    assert (Hout : exists a, r = Ok a /\ (a = OverrideApplied o \/ a = OverrideUnavailable)) by (destruct Hr as [-> | ->]; eauto).
    destruct Hout as (a & -> & Hout). destruct E as (O2 & -> & ->). rewrite app_nil_r.
    eapply (ends_done _ _ _ _ _ (st ++ n1)); [exact H2|exact Pn|by apply prefix_app_r|by apply prefix_app_r| |exact O2].
    eapply run_stored; [exact Ha|exact Hx|exact Hn|exact Hc|exact Hm|exact Hlk|exact Hrow| |exact Hout]. done.
Qed.

Lemma override_executed c m t rs st own t' out : overrides_hold t rs st -> command_ok c -> moment_ok m = true ->
  executes authorizer env (apply_override c (IsoAware m)) t own t' out -> override_ends t c m st rs own t' out.
Proof.
  intros Ht Hc Hm E. pose proof (command_ok_shape _ Hc) as Hs. unfold apply_override, pure, request in E. cbn [mbind override_prog_bind prog_then require_aware executes] in E.
  destruct E as (t1 & r & t2 & own2 & O & [-> ->] & E & ->). destruct (meanwhile_hold _ _ _ _ Ht O) as (rs1 & n1 & H1 & _). rewrite new_rows_same. cbn [app].
  assert (Pr : rs `prefix_of` rs ++ rs1) by by apply prefix_app_r. assert (Pn : st `prefix_of` st ++ n1) by by apply prefix_app_r.
  destruct (allows authorizer (oc_actor c) (oc_kind c) (oc_scope c)) as [[]|x] eqn:Ea; cbn [negb] in E.
  - destruct (expired_at c m) eqn:Ex.
    + cbn [prog_then executes] in E. destruct E as (t3 & r & t4 & own3 & O3 & (f & _ & Ef) & E & ->). destruct (meanwhile_hold _ _ _ _ H1 O3) as (rs3 & n3 & H3 & _).
      destruct (resolve_cases _ _ _ _ _ _ _ H3 Ef) as [-> Hr]. rewrite new_rows_same. cbn [app]. clear Ef.
      assert (Pr3 : rs `prefix_of` (rs ++ rs1) ++ rs3) by by apply prefix_app_r. assert (Pn3 : st `prefix_of` (st ++ n1) ++ n3) by by apply prefix_app_r.
      destruct Hr as [-> |[[x ->]| ->]].
      * destruct E as (O4 & -> & ->). eapply ends_undecided; [exact H3|exact Pn3|exact Pr3|by left|reflexivity|exact O4].
      * destruct E as (O4 & -> & ->). eapply ends_undecided; [exact H3|exact Pn3|exact Pr3|right; by exists x|reflexivity|exact O4].
      * destruct (find_operation ((st ++ n1) ++ n3) c) as [q|] eqn:Eq; cbn [fmap option_fmap option_map] in E.
        -- destruct E as (O4 & -> & ->). eapply (ends_done _ _ _ _ _ ((st ++ n1) ++ n3)); [exact H3|exact Pn3|done|exact Pr3|by apply run_repeated|exact O4].
        -- eapply (rejection_ends _ _ _ expired_outcome _ _ _ ((st ++ n1) ++ n3)); [right; by repeat split|exact H3|exact Pn3|done|exact Pr3|exact Hs|exact E].
    + destruct (ActiveOverride_create c (IsoAware m)) as [o|x] eqn:Eo; cbn [mbind override_prog_bind prog_then] in E.
      2: { destruct E as (O4 & -> & ->). clear Eo. eapply ends_undecided; [exact H1|exact Pn|exact Pr|right; by exists x|reflexivity|exact O4]. }
      destruct (created_override _ _ _ Eo) as (Hoc & Hom & _). assert (Ho : override_ok o) by (split; [by rewrite Hoc|by rewrite Hom|by rewrite Hoc, Hom]).
      destruct (OverrideAuditEvent_applied o) as [e|x] eqn:Ee.
      2: { destruct E as (O4 & -> & ->). clear Ee Eo. eapply ends_undecided; [exact H1|exact Pn|exact Pr|right; by exists x|reflexivity|exact O4]. }
      eapply apply_ends; [exact Ea|exact Ex|exact Hoc|exact Hom|exact Ho|exact Ee|exact O|exact H1|exact Pn|exact Pr|exact E].
  - eapply (rejection_ends _ _ _ unauthorized_outcome _ _ _ (st ++ n1)); [left; by split|exact H1|exact Pn|done|exact Pr|exact Hs|exact E].
  - destruct E as (O4 & -> & ->). eapply ends_undecided; [exact H1|exact Pn|exact Pr|right; by exists x|reflexivity|exact O4].
Qed.
(** An operation is looked up by its scope and its name. *)
Lemma find_stored t rs st p : overrides_hold t rs st -> p ∈ st -> find_operation st (av_command p.1) = Some p.
Proof.
  intros Ht Hp. pose proof (oh_operations _ _ _ Ht) as Hn. clear Ht. unfold find_operation. induction st as [|x st IH]; [by apply elem_of_nil in Hp|].
  rewrite fmap_cons, NoDup_cons in Hn. destruct Hn as [Hx Hn]. cbn [List.find]. apply elem_of_cons in Hp as [-> |Hp].
  - unfold with_operation. by rewrite bool_decide_eq_true_2.
  - destruct (with_operation (av_command p.1) x) eqn:Ex; [|by apply IH]. exfalso. apply Hx. apply bool_decide_eq_true in Ex. rewrite Ex.
    change (oc_scope (av_command p.1), oc_operation_id (av_command p.1)) with ((fun p : stored => operation_of p.1) p). by apply list_elem_of_fmap_2.
Qed.

Lemma find_in st c q : find_operation st c = Some q -> q ∈ st.
Proof. intros [Hq _]%find_some. by apply list_elem_of_In. Qed.

(** The answers to an operation that is stored. *)
Lemma stored_answers c m t rs st q own t' out :
  overrides_hold t rs st -> command_ok c -> moment_ok m = true -> find_operation st c = Some q -> executes authorizer env (apply_override c (IsoAware m)) t own t' out ->
  own = [] /\ (is_allowed c = Ok true -> out = Ok (Stored (replayed q c)) \/ out = Ok (Stored OverrideUnavailable) \/ exists e, out = Raise e).
Proof.
  intros Ht Hc Hm Hq E. destruct (override_executed _ _ _ _ _ _ _ _ Ht Hc Hm E) as (met & rs' & new & [n ->] & _ & _ & R).
  pose proof (find_kept st n c q Hq) as Hf. clear E. destruct R as [out Hout|q' _ Hf'|_ _ Hf'|? ? ? ? _ _ Hf'|code _ Hw]; try congruence.
  - split; [reflexivity|]. intros _. destruct Hout as [-> |He]; auto.
  - split; [reflexivity|]. intros _. left. congruence.
  - split; [reflexivity|]. intros Ha. destruct Hw as [[_ Hw]|(_ & _ & _ & Hw)]; congruence.
Qed.

(** A lookup of an operation that is stored, and storing it again, without a
    fault. *)
Lemma resolve_replays t rs st c q : overrides_hold t rs st -> ot_attested t = true -> _lock_operation c = Ok tt -> find_operation st c = Some q ->
  durable_resolve_operation t c NoFault = (Ok (Some (replayed q c)), t).
Proof.
  intros Ht Ha Hl Hq. unfold durable_resolve_operation, resolve_operation. rewrite (state_admitted t rs st Ht Ha). cbn [mbind res_bind].
  rewrite Hl. cbn [mbind res_bind]. rewrite (override_loaded t rs st Ht), Hq. reflexivity.
Qed.

Lemma apply_replays t rs st c m o e q : overrides_hold t rs st -> ot_attested t = true -> _lock_operation c = Ok tt -> find_operation st c = Some q ->
  preparable c m -> ActiveOverride_create c (IsoAware m) = Ok o -> OverrideAuditEvent_applied o = Ok e -> durable_apply t o e NoFault = (Ok (replayed q c), t).
Proof.
  intros Ht Ha Hl Hq (o' & e' & p & Eo' & Ee' & Ep) Eo Ee. rewrite Eo in Eo'. injection Eo' as <-. rewrite Ee in Ee'. injection Ee' as <-.
  destruct (created_override _ _ _ Eo) as (Hoc & _ & _). clear Eo. unfold durable_apply, before_transaction. rewrite Ep. unfold apply. rewrite Ee. cbn [mbind res_bind].
  rewrite Ep. cbn [mbind res_bind]. rewrite bool_decide_eq_false_2 by (intros Hn; by apply Hn). rewrite Hoc.
  rewrite (state_admitted t rs st Ht Ha). cbn [mbind res_bind]. rewrite Hl. cbn [mbind res_bind]. rewrite (override_loaded t rs st Ht), Hq.
  unfold replayed. cbn. by destruct (command_eqb (av_command q.1) c).
Qed.

(** A repetition that meets no fault, in tables whose schema is attested, is
    answered with what is stored. *)
Lemma stored_replays c m t rs st q own t' out : (forall f, env_fault env f -> f = NoFault) ->
  overrides_hold t rs st -> ot_attested t = true -> _lock_operation c = Ok tt -> find_operation st c = Some q -> is_allowed c = Ok true ->
  (expired_at c m = false -> preparable c m) -> executes authorizer env (apply_override c (IsoAware m)) t own t' out -> out = Ok (Stored (replayed q c)).
Proof.
  intros Hf Ht Hat Hl Hq Ha Hp E. unfold apply_override, pure, request in E. cbn [mbind override_prog_bind prog_then require_aware executes] in E.
  destruct E as (t1 & r & t2 & own2 & O & [-> ->] & E & _). destruct (meanwhile_hold _ _ _ _ Ht O) as (rs1 & n1 & H1 & Hat1). rewrite Hat in Hat1.
  unfold is_allowed in Ha. rewrite Ha in E. cbn [negb] in E. pose proof (find_kept _ n1 _ _ Hq) as Hq1. destruct (expired_at c m) eqn:Ex.
  - cbn [prog_then executes] in E. destruct E as (t3 & r & t4 & own3 & O3 & (f & Hf3 & Ef) & E & _). rewrite (Hf f Hf3) in Ef.
    destruct (meanwhile_hold _ _ _ _ H1 O3) as (rs3 & n3 & H3 & Hat3). rewrite Hat1 in Hat3.
    rewrite (resolve_replays _ _ _ _ _ H3 Hat3 Hl (find_kept _ n3 _ _ Hq1)) in Ef. injection Ef as <- <-. cbn [executes] in E. apply E.
  - specialize (Hp eq_refl). pose proof Hp as (o & e & p & Eo & Ee & Ep). rewrite Eo in E. cbn [mbind override_prog_bind prog_then] in E.
    rewrite Ee in E. cbn [mbind override_prog_bind prog_then executes] in E. destruct E as (t3 & r & t4 & own3 & O3 & (f & Hf3 & Ef) & E & _). rewrite (Hf f Hf3) in Ef.
    destruct (meanwhile_hold _ _ _ _ H1 O3) as (rs3 & n3 & H3 & Hat3). rewrite Hat1 in Hat3.
    rewrite (apply_replays _ _ _ _ _ _ _ _ H3 Hat3 Hl (find_kept _ n3 _ _ Hq1) Hp Eo Ee) in Ef. injection Ef as <- <-. cbn [executes] in E. apply E.
Qed.

(** A stored override that does not enable leaves checks to whoever had them. *)
Lemma more_checks o ev st scope subject at_ : oc_kind (av_command o) <> enable_omission ->
  unforced scope subject at_ (st ++ [(o, ev)]) (st ++ [(o, ev)]) -> unforced scope subject at_ st st.
Proof.
  intros Hk [Hf Hl]. split; [intros s p Hs Hp; apply Hf; [exact Hs|apply elem_of_app; by left]|].
  unfold last_of, controls_of in *. rewrite List.filter_app in Hl. cbn [List.filter fst] in Hl. destruct (control_of scope o); [|by rewrite app_nil_r in Hl].
  rewrite last_snoc in Hl. by destruct Hl.
Qed.

(** ** Histories *)

Definition empty_overrides : override_tables :=
  {| ot_audit := empty_tables; operator_overrides := []; production_scope_states := []; ot_attested := true |}.

Lemma empty_overrides_hold : overrides_hold empty_overrides [] [].
Proof.
  split; [exact empty_hold|constructor|constructor|reflexivity|intros r Hr; by apply elem_of_nil in Hr|constructor|constructor|intros s; exact I].
Qed.

(** Transactions of others, and executions of the use case. *)
Definition override_event_step (t t' : override_tables) : Prop :=
  change t t' \/
  exists c m own out, command_ok c /\ moment_ok m = true /\ executes authorizer env (apply_override c (IsoAware m)) t own t' out.

Lemma history_kept t t' rs st : rtc override_event_step t t' -> overrides_hold t rs st -> exists rs' new, overrides_hold t' (rs ++ rs') (st ++ new).
Proof.
  intros R. revert rs st. induction R as [t|t t1 t' Hstep _ IH]; intros rs st Ht; [exists [], []; by rewrite !app_nil_r|].
  assert (Hn : exists rs1 n1, overrides_hold t1 (rs ++ rs1) (st ++ n1)).
  { destruct Hstep as [Hc|(c & m & own & out & Hc & Hm & E)].
    - destruct (change_holds _ _ _ _ Ht Hc) as (rs1 & n1 & H1 & _). by exists rs1, n1.
    - destruct (override_executed _ _ _ _ _ _ _ _ Ht Hc Hm E) as (_ & rs1 & n1 & _ & _ & H1 & _). exists rs1, n1. exact H1. }
  destruct Hn as (rs1 & n1 & H1). destruct (IH _ _ H1) as (rs2 & n2 & H2). exists (rs1 ++ rs2), (n1 ++ n2). by rewrite !app_assoc.
Qed.

(** ** Properties *)

(** C29: what an answer to a command says is true, whatever other transactions
    and faults of the database come in between.  A conflict means that another
    command is stored under the same operation, or that the tables which the
    execution met refused the control: a disable because the latest control of
    its scope is a disable or is later than it, an enable because a cutover
    latched the scope or because the latest control is none, an enable, another
    disable than the one it names, or later than it; a force is never refused. *)
Theorem override_reported c m t rs st own t' out :
  overrides_hold t rs st -> command_ok c -> moment_ok m = true -> executes authorizer env (apply_override c (IsoAware m)) t own t' out ->
  exists rs' new, overrides_hold t' (rs ++ rs') (st ++ new) /\
    match out with
    | Ok (Stored (OverrideApplied o)) => is_allowed c = Ok true /\ av_command o = c /\ av_applied_at o = m /\ find_operation st c = None /\
        exists ev row, own = [row] /\ row_of o ev row /\ (o, ev) ∈ new
    | Ok (Stored (OverrideDuplicate o)) => own = [] /\ command_eqb (av_command o) c = true /\ exists ev, (o, ev) ∈ st ++ new
    | Ok (Stored OverrideConflict) => own = [] /\ is_allowed c = Ok true /\
        ((exists o ev, (o, ev) ∈ st ++ new /\ operation_of o = (oc_scope c, oc_operation_id c) /\ command_eqb (av_command o) c = false) \/
         (exists tm rsm met, meanwhile env t tm /\ st `prefix_of` met /\ met `prefix_of` st ++ new /\ overrides_hold tm rsm met /\
            find_operation met c = None /\ control_refused tm met c m))
    | Ok (Stored OverrideUnavailable) => own = [] \/ exists o ev row, own = [row] /\ av_command o = c /\ row_of o ev row /\ (o, ev) ∈ new
    | Ok (OverrideRejected code) => own = [] /\ rejection_stored (rs ++ rs') c code m /\
        (code = unauthorized_outcome /\ is_allowed c = Ok false \/ code = expired_outcome /\ is_allowed c = Ok true /\ expired_at c m = true)
    | Raise _ => own = []
    end.
Proof.
  intros Ht Hc Hm E. destruct (override_executed _ _ _ _ _ _ _ _ Ht Hc Hm E) as (met & rs' & new & [n ->] & Pm & H' & R). exists rs', new. split; [exact H'|].
  clear E. assert (Hnew : forall p, (st ++ n) ++ [p] `prefix_of` st ++ new -> p ∈ new).
  { intros p [k Ek]. rewrite <- !app_assoc in Ek. apply app_inv_head in Ek. rewrite Ek. set_solver. }
  assert (Hno : forall d, find_operation (st ++ n) c = None -> find_operation st c = d -> d = None).
  { intros [q|] Hn Hs; [|done]. by rewrite (find_kept _ n _ _ Hs) in Hn. }
  destruct R as [out [-> |[e ->]]|q Ha Hq|Ha Hx Hf (tm & rsm & Hm1 & Hm2 & Hm3)|o ev row out Ha Hx Hf Hoc Hom _ Hr Hp Hout|code Hs Hw].
  - by left.
  - done.
  - pose proof (find_in _ _ _ Hq) as Hin. assert (Hin' : q ∈ st ++ new) by (destruct Pm as [k ->]; apply elem_of_app; by left). destruct q as [o ev].
    unfold replayed. cbn [fst]. destruct (command_eqb (av_command o) c) eqn:Ec; [split; [done|]; split; [done|]; by exists ev|].
    split; [done|]. split; [done|]. left. exists o, ev. split; [exact Hin'|]. split; [|done]. apply List.find_some in Hq as [_ Hq]. by apply bool_decide_eq_true in Hq.
  - split; [done|]. split; [done|]. right. exists tm, rsm, (st ++ n). split; [exact Hm1|].
    split; [by exists n|]. split; [exact Pm|]. exact (conj Hm2 (conj Hf Hm3)).
  - pose proof (Hnew _ Hp) as Hin. destruct Hout as [-> | ->]; [|right; exists o, ev, row; exact (conj eq_refl (conj Hoc (conj Hr Hin)))].
    split; [exact Ha|]. split; [exact Hoc|]. split; [exact Hom|]. split; [eapply Hno; [exact Hf|reflexivity]|]. exists ev, row. exact (conj eq_refl (conj Hr Hin)).
  - split; [done|]. split; [exact Hs|]. destruct Hw as [Hw|(Hw1 & Hw2 & Hw3 & _)]; [by left|by right].
Qed.

(** C14: a break-glass actor can only add checks.  What an execution stores for
    one is in an allowed scope, and any subject of any repository that planning
    leaves checks out for after it had checks left out before it. *)
Theorem break_glass_adds_checks c m t rs st own t' out row :
  overrides_hold t rs st -> command_ok c -> moment_ok m = true -> executes authorizer env (apply_override c (IsoAware m)) t own t' out ->
  is_break_glass (actor_authority authorizer) (oc_actor c) = true -> row ∈ own ->
  oc_scope c ∈ allowed_scopes authorizer /\
  exists met o ev rs' new, st `prefix_of` met /\ met ++ [(o, ev)] `prefix_of` st ++ new /\ overrides_hold t' (rs ++ rs') (st ++ new) /\ row_of o ev row /\
    forall scope subject at_, unforced scope subject at_ (met ++ [(o, ev)]) (met ++ [(o, ev)]) -> unforced scope subject at_ met met.
Proof.
  intros Ht Hc Hm E Hb Hrow. destruct (override_executed _ _ _ _ _ _ _ _ Ht Hc Hm E) as (met & rs' & new & P & _ & H' & R). clear E.
  destruct R as [| | |o ev row' out Ha _ _ Hoc _ _ Hr Hp _|]; [by apply elem_of_nil in Hrow..| |by apply elem_of_nil in Hrow].
  apply list_elem_of_singleton in Hrow as ->. unfold is_allowed, allows in Ha. rewrite Hb in Ha. injection Ha as Ha. bdec.
  split; [assumption|]. exists met, o, ev, rs', new. split; [exact P|]. split; [exact Hp|]. split; [exact H'|]. split; [exact Hr|].
  intros scope subject at_. apply more_checks. intros Hk. rewrite Hk in H2. by repeat apply elem_of_cons in H2 as [H2|H2]; [..|apply elem_of_nil in H2].
Qed.

(** C30: every history of overrides leaves the tables in order.  From empty
    tables, after any transactions of others and any executions of the use case:
    each row is read back as an override that was admitted, with the applied
    event that the ledger holds for it, one row for one event in the same order;
    operations and identifiers are unique; the repository controls of each scope
    alternate, beginning with a disable, each enable naming the disable it
    follows; and the check of the stored state passes. *)
Theorem override_history_valid t : rtc override_event_step empty_overrides t ->
  exists rs st, tables_hold (ot_audit t) rs /\
    Forall2 (fun row p => decode_operator_override_row row = Ok (record_of p)) (operator_overrides t) st /\
    Forall (fun p => override_ok p.1 /\ audited p) st /\ st.*2 = List.filter is_applied rs /\
    NoDup ((fun p => operation_of p.1) <$> st) /\ NoDup ((fun p => av_override_id p.1) <$> st) /\
    (forall s, latched None (controls_of s st).*1) /\
    (ot_attested t = true -> admit_operator_override_state t = Ok tt).
Proof.
  intros R. destruct (history_kept _ _ _ _ R empty_overrides_hold) as (rs & st & Ht). cbn [app] in Ht. exists rs, st.
  split; [apply Ht|]. split.
  { apply Forall2_same_length_lookup. split; [exact (Forall2_length _ _ _ (oh_rows _ _ _ Ht))|]. intros i row p Hi Hp.
    pose proof (Forall2_lookup_lr _ _ _ _ _ _ (oh_rows _ _ _ Ht) Hi Hp) as Hr. eapply stored_read; [exact Ht|by eapply list_elem_of_lookup_2|exact Hr]. }
  split; [apply Ht|]. split; [apply Ht|]. split; [apply Ht|]. split; [apply Ht|]. split; [apply Ht|]. exact (state_admitted _ _ _ Ht).
Qed.

(** Applying an override is a compare-and-set of the stored overrides.  An
    operation that is stored is answered with what was stored, and changes
    nothing; one that is not is stored with its event exactly when its
    transition from the latest control is allowed. *)
Theorem apply_compare_and_set t rs st o e p r t' :
  overrides_hold t rs st -> override_ok o -> OverrideAuditEvent_applied o = Ok e -> _prepare_applied_event o e = Ok p -> apply t o p = Ok (r, t') ->
  match find_operation st (av_command o) with
  | Some q => t' = t /\ r = if command_eqb (av_command q.1) (av_command o) then OverrideDuplicate q.1 else OverrideConflict
  | None =>
      if transition_allowed t st o
      then r = OverrideApplied o /\ production_scope_states t' = production_scope_states t /\ exists ev, overrides_hold t' (rs ++ [ev]) (st ++ [(o, ev)])
      else r = OverrideConflict /\ t' = t
  end.
Proof.
  intros Ht Ho Ee Ep E. pose proof (apply_step _ _ _ _ _ _ _ _ Ht Ho Ee Ep E) as Hs. clear Ee Ep E.
  destruct (find_operation st (av_command o)); [exact Hs|]. destruct (transition_allowed t st o); [|exact Hs].
  destruct Hs as (Hr & Hp & _ & _ & Hh). exact (conj Hr (conj Hp Hh)).
Qed.

(** An override survives its row: the row written for an override and its
    event is read back as that override and that event. *)
Theorem override_row_roundtrip o ev row :
  override_ok o -> is_audit_event_id (VStr (audit_event_id ev)) = true -> is_sha256_hex (input_hash ev) = true -> _override_to_row o ev = Ok row ->
  decode_operator_override_row row = Ok (record_of (o, ev)).
Proof. apply row_read. Qed.
End use.

Section once.
Context `{Sha256} `{OtherIsoTexts} (authorizer : ControlPlaneScopeAuthorizer) (env1 env2 : environment).
#[local] Opaque int_str hash_mapping isoformat isoformat_ms applied_event prepare_audit_event _prepare_applied_event OverrideAuditEvent_applied ActiveOverride_create decode_operator_override_row _override_to_row.

(** C28: a command takes effect once.  When an execution stored an override,
    whatever it answered, it stored that one only, and no execution for the same
    command stores another at any later time, expired or not.  One that is
    allowed is answered with the override of the first, or else it is told that
    the store is unavailable or ends in an exception; when its environment has no
    faults, the schema is attested and the instant, for a command that has not
    expired, has a date in UTC, it is answered with the override. *)
Theorem override_exactly_once c m1 m2 t t1 t2 rs st own1 own2 out1 out2 :
  overrides_hold t rs st -> command_ok c -> moment_ok m1 = true -> moment_ok m2 = true ->
  executes authorizer env1 (apply_override c (IsoAware m1)) t own1 t1 out1 -> own1 <> [] ->
  executes authorizer env2 (apply_override c (IsoAware m2)) t1 own2 t2 out2 ->
  exists o ev row, own1 = [row] /\ row_of o ev row /\ av_command o = c /\ own2 = [] /\
    (is_allowed authorizer c = Ok true ->
       (out2 = Ok (Stored (OverrideDuplicate o)) \/ out2 = Ok (Stored OverrideUnavailable) \/ exists e, out2 = Raise e) /\
       ((forall f, env_fault env2 f -> f = NoFault) -> ot_attested t1 = true -> (expired_at c m2 = false -> in_calendar (instant m2)) ->
          out2 = Ok (Stored (OverrideDuplicate o)))).
Proof.
  intros Ht Hc Hm1 Hm2 E1 Hown E2. destruct (override_executed _ _ _ _ _ _ _ _ _ _ Ht Hc Hm1 E1) as (met & rs' & new & _ & _ & H1 & R). clear E1.
  destruct R as [| | |o ev row out _ _ _ Hoc _ Hl Hr Hp _|]; [congruence..| |congruence].
  assert (Hin : (o, ev) ∈ st ++ new) by (destruct Hp as [k ->]; rewrite <- app_assoc; apply elem_of_app; right; apply list_elem_of_here).
  pose proof (find_stored _ _ _ _ H1 Hin) as Hf. cbn [fst] in Hf. rewrite Hoc in Hf.
  destruct (stored_answers _ _ _ _ _ _ _ _ _ _ _ H1 Hc Hm2 Hf E2) as [-> Ha]. assert (Hrep : replayed (o, ev) c = OverrideDuplicate o).
  { unfold replayed. cbn [fst]. by rewrite Hoc, command_eqb_refl. }
  rewrite Hrep in Ha. exists o, ev, row. split; [reflexivity|]. split; [exact Hr|]. split; [exact Hoc|].
  split; [reflexivity|]. intros Hal. split; [exact (Ha Hal)|]. intros Hq Hat Hpr. rewrite <- Hrep.
  assert (Hpre : expired_at c m2 = false -> preparable c m2).
  { intros Hx. destruct (stored_ok _ _ _ H1 _ Hin) as [Ho Hau]. cbn [fst] in Ho. rewrite <- Hoc in Hx |- *. eapply stored_preparable; [exact Ho|exact Hau|exact Hx|]. apply Hpr. by rewrite <- Hoc. }
  exact (stored_replays _ _ _ _ _ _ _ _ _ _ _ Hq H1 Hat Hl Hf Hal Hpre E2).
Qed.
End once.
