(* ===== verification/OverrideScenario.v ===== *)
(** * A concrete history of operator overrides, the theorems applied

    A break-glass actor disables the omission of checks of a repository, an
    administrator enables it again, and someone else is refused. *)

From stdpp Require Import base gmap sets list sorting strings relations.
From Stdlib Require Import ZArith Lia.
From S2P Require Import Prelude Text PyFloat CanonicalJson Hashing JsonLoads JsonRoundtrip ConfigControl Instants AuditEvents AuditChain AuditFacts AuditChainFacts AuditLedger AuditRepository AuditRepositoryFacts AuditStore TableFacts Reconciliation IsoTime.
From S2P Require Import OverrideControls CanonicalRows OverrideStore OverrideRows OverrideFacts OverrideSteps OverrideManagement OverrideHistory OverrideResolution OverrideReplay OverrideUse.

#[local] Existing Instance Sha256_checksum.
#[local] Remove Hints Sha256_fips : typeclass_instances.

(** No text but the written ones is a time. *)
#[local] Instance written_times : OtherIsoTexts := fun _ => None.

(** ** Executions without others and without faults *)

Section runs.
Context (authorizer : ControlPlaneScopeAuthorizer) (env : environment) (no_fault : env_fault env NoFault).

Definition respond {B} (e : override_request B) (t : override_tables) : res B * override_tables :=
  match e in override_request B return res B * override_tables with
  | Allows actor action scope => (allows authorizer actor action scope, t)
  | ResolveOperation command => durable_resolve_operation t command NoFault
  | ApplyOverride override event => durable_apply t override event NoFault
  | RecordRejection event => durable_record_rejection t event NoFault
  end.

Fixpoint run {A} (p : override_prog A) (t : override_tables) : list override_row * override_tables * res A :=
  match p with
  | Done r => ([], t, r)
  | Request e k =>
      let '(r, t2) := respond e t in
      let '(own, t', out) := run (k r) t2 in (new_rows t t2 ++ own, t', out)
  end.

Lemma respond_replies {B} (e : override_request B) t : replies authorizer env e t (respond e t).1 (respond e t).2.
Proof. destruct e; cbn [replies respond]; try (exists NoFault; split; [exact no_fault|apply surjective_pairing]). split; reflexivity. Qed.

Lemma run_executes {A} (p : override_prog A) t : executes authorizer env p t (run p t).1.1 (run p t).1.2 (run p t).2.
Proof.
  revert t. induction p as [r|B e k IH]; intros t; cbn [executes run].
  - split; [apply rtc_refl|]. split; reflexivity.
  - pose proof (respond_replies e t) as Hr. destruct (respond e t) as [r t2]. cbn [fst snd] in Hr. specialize (IH r t2).
    destruct (run (k r) t2) as [[own t'] out]. cbn [fst snd] in *. exists t, r, t2, own. split; [apply rtc_refl|]. split; [exact Hr|]. split; [exact IH|reflexivity].
Qed.
End runs.

(** ** The history *)

Definition sc_scope : RepositoryScope := {| scope_installation_id := 7; scope_repository_id := 9 |}.

Definition authority : ActorAuthority :=
  {| is_administrator := fun a => bool_decide (a = u "root"); is_break_glass := fun a => bool_decide (a = u "breaker") |}.
Definition restricted : ControlPlaneScopeAuthorizer := {| actor_authority := authority; allowed_scopes := [sc_scope]; repository_access := None |}.

Definition at_second (n : Z) : moment := {| instant := (1767225600 + n) * 1000000; utc_offset := 0 |}.

Definition control (kind : OverrideKind) (subject : option pystr) (operation actor : pystr) : OverrideCommand :=
  {| oc_kind := kind; oc_scope := sc_scope; oc_subject_id := subject; oc_operation_id := operation; oc_actor := actor; oc_reason := u "why"; oc_expires_at := None |}.

Definition disable_command : OverrideCommand := control disable_omission None (u "op-1") (u "breaker").
Definition disabled : override_tables := Eval vm_compute in (run restricted (apply_override disable_command (IsoAware (at_second 0))) empty_overrides).1.2.
Definition disabled_row : list override_row := Eval vm_compute in (run restricted (apply_override disable_command (IsoAware (at_second 0))) empty_overrides).1.1.

Definition disabled_id : pystr := Eval vm_compute in match disabled_row with row :: _ => ov_override_id row | [] => [] end.

Definition enable_command : OverrideCommand := control enable_omission (Some disabled_id) (u "op-2") (u "root").
Definition enabled : override_tables := Eval vm_compute in (run restricted (apply_override enable_command (IsoAware (at_second 60))) disabled).1.2.

Definition stranger_command : OverrideCommand := control disable_omission None (u "op-3") (u "mallory").
Definition refused : override_tables := Eval vm_compute in (run restricted (apply_override stranger_command (IsoAware (at_second 30))) disabled).1.2.

Example outcomes :
  match (run restricted (apply_override disable_command (IsoAware (at_second 0))) empty_overrides).2,
        (run restricted (apply_override disable_command (IsoAware (at_second 90))) enabled).2,
        (run restricted (apply_override enable_command (IsoAware (at_second 60))) disabled).2,
        (run restricted (apply_override stranger_command (IsoAware (at_second 30))) disabled).2,
        (run restricted (apply_override stranger_command (IsoAware (at_second 30))) refused).2,
        (run restricted (apply_override stranger_command (IsoAware (at_second 31))) refused).2
  with
  | Ok (Stored (OverrideApplied _)), Ok (Stored (OverrideDuplicate o)), Ok (Stored (OverrideApplied _)), Ok (OverrideRejected unauthorized_outcome),
    Ok (OverrideRejected unauthorized_outcome), Ok (OverrideRejected unauthorized_outcome) => av_override_id o = disabled_id
  | _, _, _, _, _, _ => False
  end.
Proof. vm_compute. reflexivity. Qed.

Lemma disable_ok : command_ok disable_command.
Proof. split; [vm_compute; reflexivity..|discriminate]. Qed.
Lemma enable_ok : command_ok enable_command.
Proof. split; [vm_compute; reflexivity..|discriminate]. Qed.
Lemma stranger_ok : command_ok stranger_command.
Proof. split; [vm_compute; reflexivity..|discriminate]. Qed.
Lemma time_ok n : (0 <=? n) && (n <=? 3600) = true -> moment_ok (at_second n) = true.
Proof.
  intros Hn. unfold moment_ok, at_second, DATETIME_MIN, DATETIME_MAX, DAY. cbn [instant utc_offset].
  apply andb_true_iff' in Hn as [H1%Z.leb_le H2%Z.leb_le]. repeat (apply andb_true_iff'; split); first [apply Z.leb_le|apply Z.ltb_lt]; lia.
Qed.

(** What the two controls are made of. *)
Definition created (c : OverrideCommand) (m : moment) : ActiveOverride :=
  match ActiveOverride_create c (IsoAware m) with Ok o => o | Raise _ => {| av_override_id := []; av_command := c; av_applied_at := m |} end.
Definition created_event (o : ActiveOverride) : OverrideAuditEvent :=
  match OverrideAuditEvent_applied o with
  | Ok e => e
  | Raise _ => {| oe_event_id := []; oe_outcome := applied_outcome; oe_command := av_command o; oe_override_id := None; oe_occurred_at := av_applied_at o |}
  end.
Definition no_event : PreparedAuditEvent := Build_PreparedAuditEvent (Build_AuditEventInput [] [] [] [] [] [] VNone None None) [] [] [] true.
Definition created_prepared (o : ActiveOverride) (e : OverrideAuditEvent) : PreparedAuditEvent :=
  match _prepare_applied_event o e with Ok p => p | Raise _ => no_event end.

Definition disable : ActiveOverride := Eval vm_compute in created disable_command (at_second 0).
Definition disable_event : OverrideAuditEvent := Eval vm_compute in created_event disable.
Definition disable_prepared : PreparedAuditEvent := Eval vm_compute in created_prepared disable disable_event.
Definition enable : ActiveOverride := Eval vm_compute in created enable_command (at_second 60).
Definition enable_event : OverrideAuditEvent := Eval vm_compute in created_event enable.
Definition enable_prepared : PreparedAuditEvent := Eval vm_compute in created_prepared enable enable_event.

Lemma disable_created : override_ok disable /\ OverrideAuditEvent_applied disable = Ok disable_event /\ _prepare_applied_event disable disable_event = Ok disable_prepared.
Proof. split; [split; [exact disable_ok|exact (time_ok 0 eq_refl)|vm_compute; reflexivity]|]. split; vm_compute; reflexivity. Qed.
Lemma enable_created : override_ok enable /\ OverrideAuditEvent_applied enable = Ok enable_event /\ _prepare_applied_event enable enable_event = Ok enable_prepared.
Proof. split; [split; [exact enable_ok|exact (time_ok 60 eq_refl)|vm_compute; reflexivity]|]. split; vm_compute; reflexivity. Qed.

Lemma disable_applied : apply empty_overrides disable disable_prepared = Ok (OverrideApplied disable, disabled).
Proof. vm_compute. reflexivity. Qed.
Lemma enable_applied : apply disabled enable enable_prepared = Ok (OverrideApplied enable, enabled).
Proof. vm_compute. reflexivity. Qed.

Lemma disabled_hold : exists ev, overrides_hold disabled [ev] [(disable, ev)].
Proof.
  destruct disable_created as (Ho & Ee & Ep). pose proof (apply_step _ _ _ _ _ _ _ _ empty_overrides_hold Ho Ee Ep disable_applied) as (_ & _ & _ & _ & ev & H).
  exists ev. exact H.
Qed.

Lemma enable_change : change disabled enabled.
Proof. destruct enable_created as (Ho & Ee & Ep). exact (change_override _ _ _ _ _ _ Ho Ee Ep enable_applied). Qed.

Lemma lookup_of_enabled : lookup_history disabled disabled enabled enabled enabled.
Proof. split; [apply rtc_refl|apply rtc_once, enable_change|apply rtc_refl..]. Qed.

(** ** The properties, at this history *)

Lemma resolution_fail_closed_witness :
  exists forced controlled r, resolve_active_overrides (durable_resolve_active disabled enabled enabled enabled NoFault) sc_scope None (IsoAware (at_second 70)) = Ok r /\
    force_full_ci r = false /\ unforced sc_scope None (at_second 70) forced controlled.
Proof.
  destruct disabled_hold as (ev & Ht).
  destruct (resolution_fail_closed _ _ _ _ _ _ _ sc_scope None (at_second 70) Ht lookup_of_enabled) as (rs2 & forced & rs3 & controlled & _ & _ & _ & _ & H & _).
  set (r := resolve_active_overrides (durable_resolve_active disabled enabled enabled enabled NoFault) sc_scope None (IsoAware (at_second 70))).
  assert (E : r = Ok {| lookup_available := true; force_full_ci_override := None; disable_dynamic_override := None |}) by (vm_compute; reflexivity).
  exists forced, controlled. eexists. split; [exact E|]. split; [reflexivity|]. exact (H NoFault _ E eq_refl).
Defined.

Definition sha : pystr := Eval vm_compute in repeat 97 40.

Lemma disable_stays_latched_witness :
  resolve (durable_resolve_active disabled disabled disabled disabled NoFault) 7 9 (u "push") (u "refs/heads/main") sha sha 1 1 (IsoAware (at_second 70)) =
    Ok {| pd_force_full_ci := true; pd_reason := Some (u "operator_override") |} /\
  exists p : ActiveOverride * AuditEventRecord, oc_kind (av_command p.1) = enable_omission /\ oc_subject_id (av_command p.1) = Some disabled_id.
Proof.
  split; [vm_compute; reflexivity|]. destruct disabled_hold as (ev & Ht).
  destruct (disable_stays_latched _ _ _ disable _ _ _ _ NoFault 7 9 (u "push") (u "refs/heads/main") sha sha 1 1 (at_second 70)
    {| pd_force_full_ci := false; pd_reason := None |} Ht lookup_of_enabled) as (rs & new & p & _ & _ & _ & Hk & Hs);
    [vm_compute; reflexivity|reflexivity|vm_compute; reflexivity|reflexivity|].
  exists p. split; [exact Hk|exact Hs].
Defined.

(** The executions of the history: the first among others, the second alone. *)
Lemma disable_executed : executes restricted any_environment (apply_override disable_command (IsoAware (at_second 0))) empty_overrides disabled_row disabled (Ok (Stored (OverrideApplied disable))).
Proof.
  pose proof (run_executes restricted any_environment I (apply_override disable_command (IsoAware (at_second 0))) empty_overrides) as E.
  assert (R : run restricted (apply_override disable_command (IsoAware (at_second 0))) empty_overrides = (disabled_row, disabled, Ok (Stored (OverrideApplied disable))))
    by (vm_compute; reflexivity).
  rewrite R in E. exact E.
Qed.

Lemma disable_repeated : executes restricted quiet_environment (apply_override disable_command (IsoAware (at_second 90))) disabled [] disabled (Ok (Stored (OverrideDuplicate disable))).
Proof.
  pose proof (run_executes restricted quiet_environment eq_refl (apply_override disable_command (IsoAware (at_second 90))) disabled) as E.
  assert (R : run restricted (apply_override disable_command (IsoAware (at_second 90))) disabled = ([], disabled, Ok (Stored (OverrideDuplicate disable))))
    by (vm_compute; reflexivity).
  rewrite R in E. exact E.
Qed.

Lemma override_reported_witness : exists ev row, disabled_row = [row] /\ row_of disable ev row.
Proof.
  destruct (override_reported restricted any_environment disable_command (at_second 0) empty_overrides [] [] disabled_row disabled (Ok (Stored (OverrideApplied disable)))
    empty_overrides_hold disable_ok (time_ok 0 eq_refl) disable_executed) as (rs' & new & _ & _ & _ & _ & _ & ev & row & H1 & H2 & _).
  exists ev, row. split; [exact H1|exact H2].
Defined.

Lemma override_exactly_once_witness : exists o ev row, disabled_row = [row] /\ row_of o ev row /\ av_command o = disable_command /\
  Ok (Stored (OverrideDuplicate disable)) = Ok (Stored (OverrideDuplicate o)) :> res OverrideResult.
Proof.
  destruct (override_exactly_once restricted any_environment quiet_environment disable_command (at_second 0) (at_second 90) empty_overrides disabled disabled [] []
    disabled_row [] (Ok (Stored (OverrideApplied disable))) (Ok (Stored (OverrideDuplicate disable)))
    empty_overrides_hold disable_ok (time_ok 0 eq_refl) (time_ok 90 eq_refl) disable_executed) as (o & ev & row & H1 & H2 & H3 & _ & H4);
    [discriminate|exact disable_repeated|].
  exists o, ev, row. split; [exact H1|]. split; [exact H2|]. split; [exact H3|].
  destruct H4 as [_ H4]; [vm_compute; reflexivity|]. apply H4; [intros f Hf; exact Hf|reflexivity|]. intros _. split; vm_compute; discriminate.
Defined.

Lemma break_glass_adds_checks_witness : sc_scope ∈ allowed_scopes restricted /\
  exists met ev o, forall scope subject at_, unforced scope subject at_ (met ++ [(o, ev)]) (met ++ [(o, ev)]) -> unforced scope subject at_ met met.
Proof.
  assert (Hrow : exists row, row ∈ disabled_row) by (unfold disabled_row; eexists; apply list_elem_of_here). destruct Hrow as (row & Hrow).
  destruct (break_glass_adds_checks restricted any_environment disable_command (at_second 0) empty_overrides [] [] disabled_row disabled (Ok (Stored (OverrideApplied disable))) row
    empty_overrides_hold disable_ok (time_ok 0 eq_refl) disable_executed) as [Hs (met & o & ev & rs' & new & _ & _ & _ & _ & Hu)];
    [vm_compute; reflexivity|exact Hrow|].
  split; [exact Hs|]. exists met, ev, o. exact Hu.
Defined.

Lemma override_history_valid_witness : exists rs (st : list (ActiveOverride * AuditEventRecord)), st.*2 = List.filter is_applied rs /\ admit_operator_override_state enabled = Ok tt.
Proof.
  destruct (override_history_valid restricted any_environment enabled) as (rs & st & _ & _ & _ & He & _ & _ & _ & Ha).
  { eapply rtc_l; [right; exists disable_command, (at_second 0), disabled_row, (Ok (Stored (OverrideApplied disable)));
      exact (conj disable_ok (conj (time_ok 0 eq_refl) disable_executed))|].
    apply rtc_once. left. exact enable_change. }
  exists rs, st. split; [exact He|]. apply Ha. reflexivity.
Defined.

Lemma apply_compare_and_set_witness : exists ev, overrides_hold disabled [ev] [(disable, ev)].
Proof.
  destruct disable_created as (Ho & Ee & Ep).
  pose proof (apply_compare_and_set _ _ _ _ _ _ _ _ empty_overrides_hold Ho Ee Ep disable_applied) as H.
  assert (Et : transition_allowed empty_overrides [] disable = true) by reflexivity. rewrite Et in H.
  destruct H as (_ & _ & ev & H). exists ev. exact H.
Defined.

Lemma override_row_roundtrip_witness : exists ev row, _override_to_row disable ev = Ok row /\ decode_operator_override_row row = Ok (record_of (disable, ev)).
Proof.
  set (ev := Build_AuditEventRecord [] [] [] [] [] [] VNone [] (u "audit_" ++ take 32 hex64) 1 None [] hex64 [] None None).
  assert (E : exists row, _override_to_row disable ev = Ok row) by (eexists; vm_compute; reflexivity). destruct E as (row & E).
  exists ev, row. split; [exact E|]. apply override_row_roundtrip; [exact (proj1 disable_created)|vm_compute; reflexivity|vm_compute; reflexivity|exact E].
Defined.
